(* ===== verification/_CoqProject ===== *)
-Q . S2P
Prelude.v
Reflim.v
TxmmRing.v
Txmm.v
TxmmInv.v
TxmmOps.v
TxmmSafe.v
TxmmTimer.v
TxmmProps.v
TxmmExamples.v
TxmmIface.v
TxmmInst.v
Addba.v
AddbaAcct.v
AddbaInv.v
AddbaOps.v
AddbaSys.v
AddbaThms.v
AddbaExamples.v
AddbaTxmm.v
Replay.v
Rod.v
RodInv.v
RodWin.v
RodThms.v
RodReplay.v
RodErr.v
RodExamples.v
Sq.v
SqInv.v
SqAcct.v
SqOps.v
SqFlush.v
SqEnq.v
SqPeers.v
SqSys.v
SqThms.v
SqRace.v
SqExamples.v
Szr.v
SzrInv.v
SzrOps.v
SzrRun.v
SzrThms.v
SzrStop.v
SzrBlock.v
SzrExamples.v
Hash.v
HashInv.v
HashThms.v
Abmgr.v
AbmgrThms.v
Sta.v
StaRep.v
StaInv.v
StaSys.v
StaThms.v
StaExamples.v
FrameData.v
Frame.v
FrameReads.v
FrameStore.v
FrameCalls.v
FrameThms.v
FrameSta.v
Cache.v
CacheInv.v
CacheMap.v
CacheThms.v
CacheExamples.v
Flctrl.v
ScanData.v
Scan.v
ScanInv.v
ScanBands.v
ScanStart.v
ScanInit.v
ScanThms.v
ScanErr.v
ScanExamples.v
