(* ===== verification/Prelude.v ===== *)
(** * Verification of the wave300 wireless driver's data path

    The driver (src/wireless/driver) sits between the Linux network stack and
    the firmware of a wave300 card.  This development models the parts of it
    that carry its own logic: how management messages reach the firmware, how
    block acknowledgement agreements are negotiated, how received frames are
    parsed, put back in order and checked for replays, how packets to send are
    queued and shaped, how commands are serialised onto one kernel thread,
    which abilities the driver offers, and how networks are scanned for and
    remembered.

    ** How the parts interact

    User requests and hardware events become commands of the serializer (Szr),
    whose thread calls the core.  The core, the station database and ADDBA talk
    to the firmware with messages of TXMM (Txmm); TXMM calls their
    confirmation callbacks.  ADDBA (Addba) negotiates one aggregation per
    station and TID in each direction; a receiving agreement creates and clears
    the reordering queue of its TID (Rod), and both directions take references
    of two shared limiters (Reflim).  A station (Sta) owns its ADDBA peer, its
    eight reordering queues and the counters that start aggregation, and joins
    them by callbacks.  Received management and control frames are taken apart
    by the parser (Frame), which hands block ack requests to the station and
    descriptions of networks to the scan cache (Cache).  The scan state machine
    (Scan) sends the firmware one chunk of channels after the other from the
    serializer's thread; meanwhile it stops the data through the flow control
    object (Flctrl) it shares with others, and says through its abilities
    whether the configuration may change.  Received packets pass the
    reordering queue and replay detection (Replay) on their way up.  Packets to
    send wait in the send queue (Sq) per station and access category until the
    hardware takes them.  Requests of users are admitted by the ability manager
    (Abmgr) over the hash table (Hash) the station and host databases share.

    ** Files, Modules and the code they model

    - Prelude: machine integers ([u8], [u16], [u32]), the error codes of
      wireless/shared/mtlkerr.h, the state monad [ST] with its symbolic
      execution rules (rewrite database [run]) and the relational triple
      [within], arrays and counting ([countb]), tactics ([zbool],
      [split_matches]).
    - Reflim: wireless/shared/mtlk_reflim.h. The sequential operations, and the
      same operations as steps of concurrent threads split at their atomic
      instructions.
    - TxmmRing, Txmm, TxmmInv, TxmmOps, TxmmSafe, TxmmTimer, TxmmProps,
      TxmmExamples: shared/txmm.c and txmm.h. TxmmRing has the circular block
      queues; Txmm the object with its four queues and every operation on them;
      TxmmInv and TxmmOps the invariant that links blocks and queue slots and
      what each operation does to the lists the queues stand for; TxmmSafe the
      critical sections as a transition system; TxmmTimer the time-out scan;
      TxmmProps the properties.
    - TxmmIface, TxmmInst: the type class of operations and laws that users of
      TXMM are proved against, and its instance by txmm.c.
    - Addba, AddbaAcct, AddbaInv, AddbaOps, AddbaSys, AddbaThms,
      AddbaExamples, AddbaTxmm: shared/addba.c and addba.h, over any transport
      that keeps the laws of TxmmIface. AddbaAcct accounts for references,
      AddbaInv states which answer is outstanding in which state, AddbaSys
      makes the module a transition system, AddbaThms has the properties,
      AddbaTxmm puts the module on the transport of txmm.c.
    - Replay: the replay detection of linux/core.c ([_detect_replay],
      [mtlk_detect_replay_or_sendup]) and the sub-frame lists of
      shared/mtlknbufpriv.h.
    - Rod, RodInv, RodWin, RodThms, RodReplay, RodErr, RodExamples:
      shared/rod.c and rod.h. RodInv has the invariant and its preservation,
      RodWin the abstract sliding window over unbounded sequence numbers,
      RodThms and RodReplay what reaches the upper layers, RodErr where the
      queue goes wrong.
    - Sq, SqInv, SqAcct, SqOps, SqFlush, SqEnq, SqPeers, SqSys, SqThms,
      SqRace, SqExamples: shared/mtlk_sq.c, mtlk_sq.h, linux/mtlk_sq_osdep.c.
      SqInv has the abstract double-ended queue per station and category,
      SqAcct the accounting of sizes and shared clone data, SqRace the flush
      requests of several threads.
    - Szr, SzrInv, SzrOps, SzrRun, SzrThms, SzrStop, SzrBlock, SzrExamples:
      shared/mtlk_serializer.c, linux/mtlk_serializer_osdep.c, mtlkrmlock.h.
      One step per critical section, callback and wait; SzrInv the invariants,
      SzrOps their preservation, SzrRun the thread on its own, SzrStop the
      stop, SzrBlock blocked execution and enumeration.
    - Hash, HashInv, HashThms: wireless/shared/mtlkhash.h and
      mtlkhash_ieee_addr.c. HashInv has the well-formed table as a map and
      list, and the two enumerations.
    - Abmgr, AbmgrThms: shared/mtlk_ab_manager.c, the table of abilities over
      the hash.
    - Sta, StaRep, StaInv, StaSys, StaThms, StaExamples: one station of
      shared/stadb.c with the receive entry points of linux/core_ext.c. StaRep
      says what the ADDBA module reports through its callbacks and in which
      states, StaInv the invariant of a station, StaSys the station as a
      transition system.
    - FrameData, Frame, FrameReads, FrameStore, FrameCalls, FrameThms,
      FrameSta: shared/frame.c, frame.h and wireless/shared/mtlkbfield.h.
      FrameReads follows the offsets read, FrameStore what storing an element
      and the walk over the elements keep, FrameCalls what is handed on,
      FrameSta delivers it to the station.
    - Cache, CacheInv, CacheMap, CacheThms, CacheExamples: shared/cache.c and
      cache.h. CacheInv has the sorted list, the cursor and who owns which
      country element, and that every operation keeps them, CacheMap the map
      from addresses the cache stands for, CacheThms the properties, with the
      parser as a client.
    - Flctrl: shared/mtlkflctrl.c and mtlkflctrl.h, with the two sets its
      masks stand for.
    - ScanData, Scan, ScanInv, ScanBands, ScanStart, ScanInit, ScanThms,
      ScanErr, ScanExamples: shared/scan.c and scan.h over Flctrl, Cache and
      Abmgr. ScanInv has the invariant of an idle and of a running scan,
      ScanBands what is left to scan and how each step brings the end closer,
      ScanStart the starts, the events from outside and the loop of a
      synchronous scan, ScanInit creation and deletion, ScanThms the object as
      a transition system, ScanErr where scanning goes wrong.

    A definition carries the name of the C function, type or field it models
    where the language allows it.  State is passed explicitly or through [ST];
    errors are the code's own return values; calls into other parts, freed
    buffers, statistics and failed assertions are events of a log, so that
    statements can speak of what happened.

    ** What the theorems show

    - Reflim: never more references than the maximum, for any interleaving.
    - TXMM: every block is in exactly one queue in every state reachable while
      owners leave a message alone whose block is being delivered;
      submission order; what a confirmation, a time-out and a cancellation do;
      where a cancelled message is dereferenced; blocks lost or kept twice.
    - TxmmIface: txmm.c keeps the promises ADDBA relies on, so that ADDBA over
      the real transport inherits the properties proved against the interface;
      AddbaTxmm composes the steps of both modules and proves them together.
    - ADDBA: references counted exactly in both limiters as long as no ADDBA
      request is answered after its refusal, the protocol state of every TID, the bounds of
      every negotiated number, what each answer does, and the late or small
      answers that break an invariant.
    - Replay and ROD: packet numbers delivered strictly increase; packets leave
      in order, once each, for windows whose size divides the sequence numbers;
      refinement of a sliding window; the flush ends; the window sizes for which
      this fails.
    - Sq: refinement of a double-ended queue, exact accounting of sizes and
      shared data, what may and may not remain after a flush, lost requests.
    - Szr: exactly-once completion, first-in-first-out within a priority and
      priority between lists, no lost wake-up, the truth of the result of a
      blocked execution, termination of the stop and the interleaving in which
      it hangs, what an enumeration reads.
    - Hash: the table is a finite map, and enumerations visit each entry once.
      Abmgr: registering a set of abilities happens whole or not at all.
    - Sta: with a peer whose windows the queues can hold and no late answers,
      queues follow agreements and lose no packet, and the aggregation flags do
      not go wrong during a first connection; a stop leaves nothing behind; and
      the request that is never repeated.
    - Frame: round trips of the bit fields and of a block ack request, what a
      walk keeps against a reference, the well-formedness of everything handed
      on, how far reads go outside a frame, and, with the station, which frames
      keep it in a reachable state and which break its queue.
    - Cache: one entry per address in order, the cursor never on a freed entry,
      no country element freed twice or lost; refinement of a map, operation by
      operation; what an enumeration reports; frames with any bytes keep it so; and the persistence
      and the country element a new description takes away.
    - Flctrl: refinement of a set of users and a set of stoppers.
    - Scan: while its callers keep to what [scan_step] says, a running scan
      waits for exactly one event, stops the data while a request is in flight
      and otherwise only after a time-out, and leaks no programming model; scans
      end within a bounded number of events unless the serializer refuses a
      task, synchronous ones without pauses return; deletion of an object that
      does not scan gives back what creation took; and the time-out, terminations, halts and background modes
      that leave data stopped, power save on or the serializer waiting for ever.

    ** Bounds and fuel

    Loops over the TXMM array are bounded by its size.  The flush of a
    reordering queue gets two turns per slot ([rod_flush_terminates] shows more
    changes nothing), its retire loop one turn per slot and one more, a round
    over the send queue's peers as many turns as packets wait and one more
    ([sq_flush_complete]), and the serializer's thread [thread_fuel] statements
    ([szr_drains]).  The walk over the elements of a frame gets one turn per
    byte and one more, and every turn consumes two bytes ([ie_loop_walk]); an
    enumeration of the cache one turn per entry and one more; and the recursion
    between the bands of a scan two levels ([coc_fixpoint]).
    Integers are [Z] wrapped where the code's width matters;
    list indices and priorities are [nat].

    ** Not modelled

    Device input and output (hw_mmb.c, mtlk_mmb_drv.c): TXMM's send function is
    a parameter and the send queue's transmit function may answer anything.
    The functions of a scan that are not in the repository (building the vector
    of channels and sending the request) and the programming models
    (linux/progmodel.c) answer through an oracle, on which the theorems put no
    condition but those they state; that the transport marks a timed out
    confirmation and wakes a synchronous scan is part of the steps of Scan.
    Locks: a function that holds one lock throughout is one step.  In TXMM the
    blocked send, the message history and the memory guards.  Statistics trees
    (mtlk_wss) beyond the creation and deletion of the objects a part owns.  User
    interfaces (mtlk_df_user.c, the getters and setters of core_ext.c), the
    tools, and code generated, vendored or binary.  Of the parts with logic of
    their own: adding, finding and removing stations and hosts (stadb.c), whose
    reference counts live in the hash table's payloads; power save and the
    multicast path (mcast.c) over the send queue; address translation (l2nat.c);
    and the network states of the core (core.c), which mostly sequence messages
    of parts that are modelled. *)
From stdpp Require Export base numbers list list_numbers option gmap.
From Stdlib Require Export ZArith Lia.

#[global] Open Scope Z_scope.

(** ** Machine integers *)

Definition u8 (x : Z) : Z := x `mod` 2 ^ 8.
Definition u16 (x : Z) : Z := x `mod` 2 ^ 16.
Definition u32 (x : Z) : Z := x `mod` 2 ^ 32.

Create HintDb wave.
Create Rewrite HintDb wave.

Lemma u8_range x : 0 <= u8 x < 256.
Proof. apply (Z.mod_pos_bound x 256). lia. Qed.

Lemma u16_range x : 0 <= u16 x < 65536.
Proof. apply (Z.mod_pos_bound x 65536). lia. Qed.

Lemma u32_range x : 0 <= u32 x < 4294967296.
Proof. apply (Z.mod_pos_bound x 4294967296). lia. Qed.

Lemma u8_small x : 0 <= x < 256 -> u8 x = x.
Proof. apply Z.mod_small. Qed.

Lemma u8_le x : 0 <= x -> u8 x <= x.
Proof. intros. by apply Z.mod_le. Qed.

Lemma u16_small x : 0 <= x < 65536 -> u16 x = x.
Proof. apply Z.mod_small. Qed.

Lemma u32_small x : 0 <= x < 4294967296 -> u32 x = x.
Proof. apply Z.mod_small. Qed.

Lemma u32_idemp x : u32 (u32 x) = u32 x.
Proof. apply Z.mod_mod. lia. Qed.

Lemma u32_add_l x y : u32 (u32 x + y) = u32 (x + y).
Proof. apply Zplus_mod_idemp_l. Qed.

Lemma u32_sub_l x y : u32 (u32 x - y) = u32 (x - y).
Proof. apply Zminus_mod_idemp_l. Qed.

#[export] Hint Resolve u8_range u16_range u32_range : wave.
#[export] Hint Rewrite u32_idemp u32_add_l u32_sub_l : wave.

(** [MTLK_ERR_...] codes of wireless/shared/mtlkerr.h used by the modelled parts. *)
Definition MTLK_ERR_OK : Z := 0.
Definition MTLK_ERR_PARAMS : Z := -1.
Definition MTLK_ERR_UNKNOWN : Z := -2.
Definition MTLK_ERR_NO_MEM : Z := -6.
Definition MTLK_ERR_NO_RESOURCES : Z := -12.
Definition MTLK_ERR_PROHIB : Z := -17.
Definition MTLK_ERR_PKT_DROPPED : Z := -19.

(** ** The state monad the stateful components are written in *)

Definition ST (S A : Type) : Type := S -> A * S.

#[export] Instance st_ret S : MRet (ST S) := fun A a s => (a, s).
#[export] Instance st_bind S : MBind (ST S) :=
  fun A B f m s => let '(a, s') := m s in f a s'.

Definition gets {S A} (f : S -> A) : ST S A := fun s => (f s, s).
Definition modify {S} (f : S -> S) : ST S unit := fun s => (tt, f s).
Definition when {S} (b : bool) (m : ST S unit) : ST S unit :=
  if b then m else mret tt.

Fixpoint for_each {S A} (l : list A) (body : A -> ST S unit) : ST S unit :=
  match l with
  | [] => mret tt
  | x :: l => body x ;; for_each l body
  end.

Definition exec {S A} (m : ST S A) (s : S) : S := (m s).2.
Definition eval {S A} (m : ST S A) (s : S) : A := (m s).1.

Lemma exec_bind {S A B} (m : ST S A) (f : A -> ST S B) s :
  exec (m ≫= f) s = exec (f (eval m s)) (exec m s).
Proof. unfold exec, eval, mbind, st_bind. by destruct (m s). Qed.

Lemma eval_bind {S A B} (m : ST S A) (f : A -> ST S B) s :
  eval (m ≫= f) s = eval (f (eval m s)) (exec m s).
Proof. unfold exec, eval, mbind, st_bind. by destruct (m s). Qed.

(** Rewriting rules that run a program symbolically, one statement at a time. *)
Create Rewrite HintDb run.

Lemma run_gets {S A B} (f : S -> A) (k : A -> ST S B) s : exec (gets f ≫= k) s = exec (k (f s)) s.
Proof. done. Qed.
Lemma run_modify {S B} (f : S -> S) (k : unit -> ST S B) s : exec (modify f ≫= k) s = exec (k tt) (f s).
Proof. done. Qed.
Lemma run_ret {S A B} (a : A) (k : A -> ST S B) s : exec (mret a ≫= k) s = exec (k a) s.
Proof. done. Qed.
Lemma run_assoc {S A B C} (m : ST S A) (f : A -> ST S B) (g : B -> ST S C) s :
  exec ((m ≫= f) ≫= g) s = exec (m ≫= (fun a => f a ≫= g)) s.
Proof. unfold exec, mbind, st_bind. by destruct (m s). Qed.
Lemma run_end_modify {S} (f : S -> S) s : exec (modify f) s = f s.
Proof. done. Qed.
Lemma run_end_ret {S A} (a : A) (s : S) : exec (mret a) s = s.
Proof. done. Qed.
Lemma run_end_gets {S A} (f : S -> A) (s : S) : exec (gets f) s = s.
Proof. done. Qed.

#[export] Hint Rewrite @run_gets @run_modify @run_ret @run_assoc @run_end_modify @run_end_ret @run_end_gets : run.

(** [within R m]: every run of [m] relates its initial and final states by
    [R]; for a preorder [R] this composes along the monad. *)
Definition within {S A} (R : relation S) (m : ST S A) : Prop :=
  forall s, R s (exec m s).

Section within.
Context {S : Type} (R : relation S) `{!PreOrder R}.

Lemma within_ret {A} (a : A) : within R (mret a).
Proof. intros s. change (R s s). reflexivity. Qed.

Lemma within_gets {A} (f : S -> A) : within R (gets f).
Proof. intros s. change (R s s). reflexivity. Qed.

Lemma within_bind {A B} (m : ST S A) (f : A -> ST S B) :
  within R m -> (forall a, within R (f a)) -> within R (m ≫= f).
Proof.
  intros Hm Hf s. rewrite exec_bind.
  etransitivity; [apply Hm | apply Hf].
Qed.

Lemma within_when b (m : ST S unit) : within R m -> within R (when b m).
Proof. intros Hm. destruct b; [apply Hm | apply within_ret]. Qed.

Lemma within_if {A} (b : bool) (m1 m2 : ST S A) :
  within R m1 -> within R m2 -> within R (if b then m1 else m2).
Proof. by destruct b. Qed.

Lemma within_for_each {A} (l : list A) (body : A -> ST S unit) :
  (forall x, x ∈ l -> within R (body x)) -> within R (for_each l body).
Proof.
  induction l as [|x l IH]; intros Hb; [apply within_ret|]. simpl.
  apply within_bind; [apply Hb; left|]. intros _.
  apply IH. intros y Hy. apply Hb. by right.
Qed.
End within.

#[export] Hint Resolve within_ret within_gets : wave.

(** ** Arrays *)

Lemma list_alter_alter {A} (f g : A -> A) (l : list A) i :
  alter f i (alter g i l) = alter (fun x => f (g x)) i l.
Proof. revert i. induction l as [|x l IH]; intros [|i]; simpl; f_equal; auto. apply IH. Qed.

Lemma alter_total {A} `{!Inhabited A} (f : A -> A) (l : list A) i :
  (i < length l)%nat -> alter f i l !!! i = f (l !!! i).
Proof.
  intros Hi. apply list_lookup_total_correct. rewrite list_lookup_alter_eq.
  by rewrite (list_lookup_lookup_total_lt l i Hi).
Qed.

Lemma alter_total_ne {A} `{!Inhabited A} (f : A -> A) (l : list A) i j :
  i <> j -> alter f i l !!! j = l !!! j.
Proof. intros Hi. by rewrite !list_lookup_total_alt, list_lookup_alter_ne. Qed.

(** ** Counting over arrays *)

Definition countb {A} (f : A -> bool) (l : list A) : Z :=
  foldr (fun x n => Z.b2z (f x) + n) 0 l.

Lemma countb_range {A} (f : A -> bool) l : 0 <= countb f l <= Z.of_nat (length l).
Proof. induction l as [|x l IH]; simpl; [lia|]. destruct (f x); simpl; lia. Qed.

Lemma countb_app {A} (f : A -> bool) l1 l2 :
  countb f (l1 ++ l2) = countb f l1 + countb f l2.
Proof. induction l1 as [|x l IH]; simpl; lia. Qed.

Lemma countb_alter {A} (f : A -> bool) (g : A -> A) l i x :
  l !! i = Some x ->
  countb f (alter g i l) = countb f l - Z.b2z (f x) + Z.b2z (f (g x)).
Proof.
  revert i. induction l as [|y l IH]; intros [|i] Hi; simplify_eq/=; [lia|].
  rewrite (IH _ Hi). lia.
Qed.

Lemma countb_insert {A} (f : A -> bool) (y : A) l i x :
  l !! i = Some x ->
  countb f (<[i:=y]> l) = countb f l - Z.b2z (f x) + Z.b2z (f y).
Proof.
  revert i. induction l as [|z l IH]; intros [|i] Hi; simplify_eq/=; [lia|].
  rewrite (IH _ Hi). lia.
Qed.

Lemma countb_pos {A} (f : A -> bool) l i x :
  l !! i = Some x -> f x = true -> 1 <= countb f l.
Proof.
  revert i. induction l as [|y l IH]; intros [|i] Hi Hf; simplify_eq/=.
  - rewrite Hf. pose proof (countb_range f l). simpl. lia.
  - specialize (IH _ Hi Hf). destruct (f y); simpl; lia.
Qed.

Lemma countb_zero {A} (f : A -> bool) l :
  (forall x, x ∈ l -> f x = false) -> countb f l = 0.
Proof.
  induction l as [|y l IH]; intros Hf; [done|]. simpl.
  rewrite (Hf y) by left. rewrite IH; [done|]. intros x Hx. apply Hf. by right.
Qed.

(** ** Tactics *)

(** Split every [match] and [if] of the goal, simplifying as it goes. *)
Ltac split_matches := repeat (case_match; simplify_eq/=).

(** Read boolean comparisons as propositions. *)
Ltac zbool :=
  repeat match goal with
  | H : (_ <=? _) = true |- _ => apply Z.leb_le in H
  | H : (_ <=? _) = false |- _ => apply Z.leb_gt in H
  | H : (_ <? _) = true |- _ => apply Z.ltb_lt in H
  | H : (_ <? _) = false |- _ => apply Z.ltb_ge in H
  | H : (_ =? _) = true |- _ => apply Z.eqb_eq in H
  | H : (_ =? _) = false |- _ => apply Z.eqb_neq in H
  | H : (_ >=? _) = _ |- _ => rewrite Z.geb_leb in H
  | H : (_ >? _) = _ |- _ => rewrite Z.gtb_ltb in H
  | H : negb _ = true |- _ => apply negb_true_iff in H
  | H : negb _ = false |- _ => apply negb_false_iff in H
  | H : _ && _ = true |- _ => apply andb_true_iff in H; destruct H
  | H : _ || _ = false |- _ => apply orb_false_iff in H; destruct H
  end.
