(* ===== verification/Reflim.v ===== *)
(** * Reflim: the reference limiter (wireless/shared/mtlk_reflim.h)

    A limiter counts the references granted against a maximum.  The
    sequential operations act on one record; [rstep] splits
    [mtlk_reflim_try_ref] at its atomic instructions so that any number of
    threads can run it at once. *)
From S2P Require Import Prelude.

Record mtlk_reflim_t := Reflim { rl_max : Z; rl_cur : Z }.

Definition mtlk_reflim_init (max : Z) : mtlk_reflim_t := Reflim max 0.

(** The assertion of [mtlk_reflim_cleanup].  Its [memset] clears the local
    pointer variable, so the object itself stays as it is. *)
Definition mtlk_reflim_cleanup (r : mtlk_reflim_t) : bool * mtlk_reflim_t :=
  (rl_cur r =? 0, r).

Definition mtlk_reflim_try_ref (r : mtlk_reflim_t) : bool * mtlk_reflim_t :=
  let cur := u32 (rl_cur r + 1) in
  if cur <=? rl_max r
  then (true, Reflim (rl_max r) cur)
  else (false, Reflim (rl_max r) (u32 (cur - 1))).

(** The boolean is the assertion [cur < max] of the code. *)
Definition mtlk_reflim_unref (r : mtlk_reflim_t) : bool * mtlk_reflim_t :=
  let cur := u32 (rl_cur r - 1) in
  (cur <? rl_max r, Reflim (rl_max r) cur).

Definition mtlk_reflim_get_max (r : mtlk_reflim_t) : Z := rl_max r.
Definition mtlk_reflim_get_cur (r : mtlk_reflim_t) : Z := rl_cur r.

(** ** Sequential laws *)

Definition rl_wf (r : mtlk_reflim_t) : Prop :=
  0 <= rl_cur r <= rl_max r /\ rl_max r < 2 ^ 32.

Lemma try_ref_max r : rl_max (mtlk_reflim_try_ref r).2 = rl_max r.
Proof. unfold mtlk_reflim_try_ref. by case_match. Qed.

Lemma unref_max r : rl_max (mtlk_reflim_unref r).2 = rl_max r.
Proof. done. Qed.

(** Modulo 2^32, a granted request adds one and a refused one nothing. *)
Lemma try_ref_cur r b r' :
  mtlk_reflim_try_ref r = (b, r') -> u32 (rl_cur r') = u32 (rl_cur r + Z.b2z b).
Proof.
  unfold mtlk_reflim_try_ref. intros H. case_match; simplify_eq/=.
  - apply u32_idemp.
  - rewrite u32_idemp, u32_sub_l. f_equal. lia.
Qed.

Lemma unref_cur r b r' :
  mtlk_reflim_unref r = (b, r') -> u32 (rl_cur r') = u32 (rl_cur r - 1).
Proof. unfold mtlk_reflim_unref. intros [= _ <-]. apply u32_idemp. Qed.

Lemma try_ref_cur_range r b r' :
  mtlk_reflim_try_ref r = (b, r') -> 0 <= rl_cur r' < 2 ^ 32.
Proof.
  unfold mtlk_reflim_try_ref. intros H. case_match; simplify_eq/=; apply u32_range.
Qed.

Lemma unref_cur_range r b r' :
  mtlk_reflim_unref r = (b, r') -> 0 <= rl_cur r' < 2 ^ 32.
Proof. unfold mtlk_reflim_unref. intros [= _ <-]. apply u32_range. Qed.

(** Below a limit smaller than 2^32 - 1 the request is granted exactly when a
    reference is left, and a refusal leaves the limiter as it was. *)
Lemma try_ref_spec r :
  rl_wf r -> rl_max r < 2 ^ 32 - 1 ->
  mtlk_reflim_try_ref r =
    if rl_cur r <? rl_max r
    then (true, Reflim (rl_max r) (rl_cur r + 1))
    else (false, r).
Proof.
  intros [Hc Hm] Hm'. unfold mtlk_reflim_try_ref. destruct r as [max cur]; simpl in *.
  rewrite (u32_small (cur + 1)) by lia.
  destruct (Z.ltb_spec cur max), (Z.leb_spec (cur + 1) max); try lia; [done|].
  rewrite u32_small by lia. do 2 f_equal. lia.
Qed.

Lemma unref_spec r :
  rl_wf r -> 0 < rl_cur r ->
  mtlk_reflim_unref r = (true, Reflim (rl_max r) (rl_cur r - 1)).
Proof.
  intros [Hc Hm] Hpos. unfold mtlk_reflim_unref.
  rewrite u32_small by lia. f_equal. apply Z.ltb_lt. lia.
Qed.

(** ** Concurrent use

    A thread inside [mtlk_reflim_try_ref] has performed the atomic increment
    and holds the value it returned; it then keeps the reference or gives the
    count back. *)
Inductive thread := TIdle | TIncremented (cur : Z) | THolds.

Record rsys := RSys { rs_lim : mtlk_reflim_t; rs_threads : list thread }.

Inductive rstep : rsys -> rsys -> Prop :=
| rstep_inc max cur ts i :
    ts !! i = Some TIdle ->
    rstep (RSys (Reflim max cur) ts)
          (RSys (Reflim max (u32 (cur + 1))) (<[i := TIncremented (u32 (cur + 1))]> ts))
| rstep_grant max cur ts i v :
    ts !! i = Some (TIncremented v) -> v <= max ->
    rstep (RSys (Reflim max cur) ts) (RSys (Reflim max cur) (<[i := THolds]> ts))
| rstep_refuse max cur ts i v :
    ts !! i = Some (TIncremented v) -> max < v ->
    rstep (RSys (Reflim max cur) ts)
          (RSys (Reflim max (u32 (cur - 1))) (<[i := TIdle]> ts))
| rstep_unref max cur ts i :
    ts !! i = Some THolds ->
    rstep (RSys (Reflim max cur) ts)
          (RSys (mtlk_reflim_unref (Reflim max cur)).2 (<[i := TIdle]> ts)).

Definition rsys_init (max : Z) (n : nat) : rsys :=
  RSys (mtlk_reflim_init max) (replicate n TIdle).

Definition is_holding (t : thread) : bool :=
  match t with THolds => true | _ => false end.

Definition is_counted (t : thread) : bool :=
  match t with TIdle => false | _ => true end.

(** Holds a reference, or will once it compares the value it read. *)
Definition is_entitled (max : Z) (t : thread) : bool :=
  match t with TIdle => false | TIncremented v => v <=? max | THolds => true end.

Record rinv (max : Z) (n : nat) (s : rsys) : Prop := {
  ri_max : rl_max (rs_lim s) = max;
  ri_len : length (rs_threads s) = n;
  ri_cur : rl_cur (rs_lim s) = countb is_counted (rs_threads s);
  ri_entitled : countb (is_entitled max) (rs_threads s) <= max;
}.

Lemma entitled_le_counted max l : countb (is_entitled max) l <= countb is_counted l.
Proof.
  induction l as [|[] l IH]; simpl; try lia. destruct (_ <=? _); simpl; lia.
Qed.

Lemma holding_le_entitled max l : countb is_holding l <= countb (is_entitled max) l.
Proof.
  induction l as [|[] l IH]; simpl; try lia. destruct (_ <=? _); simpl; lia.
Qed.

Lemma rinv_init max n : 0 <= max -> rinv max n (rsys_init max n).
Proof.
  intros Hm. split; simpl; [done|by rewrite length_replicate| |].
  - rewrite countb_zero; [done|]. by intros x [-> _]%elem_of_replicate.
  - rewrite countb_zero; [done|]. by intros x [-> _]%elem_of_replicate.
Qed.

Lemma rinv_step max n s s' :
  Z.of_nat n < 2 ^ 32 -> rinv max n s -> rstep s s' -> rinv max n s'.
Proof.
  intros Hn [Hmax Hlen Hcur Hent] Hst.
  pose proof (entitled_le_counted max (rs_threads s)) as Hle.
  pose proof (countb_range is_counted (rs_threads s)) as Hr. rewrite Hlen in Hr.
  destruct Hst as [m c ts i Hi|m c ts i v Hi Hv|m c ts i v Hi Hv|m c ts i Hi];
    simpl in *; subst m.
  - assert (u32 (c + 1) = c + 1) as Hu.
    { apply u32_small. split; [lia|]. enough (c + 1 <= Z.of_nat n) by lia.
      pose proof (countb_range is_counted (<[i:=THolds]> ts)) as Hr'.
      rewrite length_insert, Hlen, (countb_insert _ _ _ _ _ Hi) in Hr'. simpl in Hr'. lia. }
    rewrite Hu. split; simpl; rewrite ?length_insert; try done;
      rewrite (countb_insert _ _ _ _ _ Hi); simpl; [lia|].
    destruct (Z.leb_spec (c + 1) max); simpl; lia.
  - split; simpl; rewrite ?length_insert; try done;
      rewrite (countb_insert _ _ _ _ _ Hi); simpl; [lia|].
    rewrite (proj2 (Z.leb_le _ _) Hv). simpl. lia.
  - pose proof (countb_pos is_counted _ _ _ Hi eq_refl).
    rewrite u32_small by lia. split; simpl; rewrite ?length_insert; try done;
      rewrite (countb_insert _ _ _ _ _ Hi); simpl; [lia|].
    destruct (v <=? max); simpl; lia.
  - pose proof (countb_pos is_counted _ _ _ Hi eq_refl).
    rewrite u32_small by lia. split; simpl; rewrite ?length_insert; try done;
      rewrite (countb_insert _ _ _ _ _ Hi); simpl; lia.
Qed.

Lemma rinv_reachable max n s :
  0 <= max -> Z.of_nat n < 2 ^ 32 -> rtc rstep (rsys_init max n) s -> rinv max n s.
Proof.
  intros Hm Hn Hr. generalize (rinv_init max n Hm).
  induction Hr as [|s1 s2 s3 Hst _ IH]; [done|]. intros Hi. apply IH.
  by apply (rinv_step max n s1).
Qed.

(** The sequential [mtlk_reflim_try_ref] is the increment followed by the
    thread's own decision. *)
Lemma try_ref_steps max cur ts i :
  ts !! i = Some TIdle ->
  rtc rstep (RSys (Reflim max cur) ts)
    (RSys (mtlk_reflim_try_ref (Reflim max cur)).2
      (<[i := if (mtlk_reflim_try_ref (Reflim max cur)).1 then THolds else TIdle]> ts)).
Proof.
  intros Hi. eapply rtc_l; [by eapply (rstep_inc _ _ _ i)|]. apply rtc_once.
  assert (i < length ts)%nat as Hlt by (by eapply lookup_lt_Some).
  set (v := u32 (cur + 1)).
  assert (<[i:=TIncremented v]> ts !! i = Some (TIncremented v)) as Hi'
    by (by apply list_lookup_insert_eq).
  unfold mtlk_reflim_try_ref. simpl. fold v. destruct (Z.leb_spec v max); simpl.
  - rewrite <-(list_insert_insert_eq ts i THolds (TIncremented v)). by eapply rstep_grant.
  - rewrite <-(list_insert_insert_eq ts i TIdle (TIncremented v)). by eapply rstep_refuse.
Qed.

(** C10. However the increments, comparisons, decrements and releases of any
    number of threads interleave, at most [max] references are held. *)
Theorem reflim_concurrent_limit max n s :
  0 <= max -> Z.of_nat n < 2 ^ 32 -> rtc rstep (rsys_init max n) s ->
  countb is_holding (rs_threads s) <= max.
Proof.
  intros Hm Hn Hr. destruct (rinv_reachable max n s Hm Hn Hr) as [_ _ _ He].
  pose proof (holding_le_entitled max (rs_threads s)). lia.
Qed.

Lemma reflim_concurrent_limit_witness :
  let s := RSys (Reflim 1 2) [THolds; TIncremented 2] in
  countb is_holding (rs_threads s) <= 1.
Proof.
  refine (reflim_concurrent_limit 1 2 _ _ _ _); [lia|lia|].
  apply (rtc_l _ _ (RSys (Reflim 1 1) [TIncremented 1; TIdle])).
  { exact (rstep_inc 1 0 [TIdle; TIdle] 0 eq_refl). }
  apply (rtc_l _ _ (RSys (Reflim 1 1) [THolds; TIdle])).
  { apply (rstep_grant 1 1 [TIncremented 1; TIdle] 0 1 eq_refl). lia. }
  apply rtc_once. exact (rstep_inc 1 1 [THolds; TIdle] 1 eq_refl).
Defined.
