(* ===== verification/TxmmRing.v ===== *)
(** * TxmmRing: the circular block queues of TXMM

    The data part of [mtlk_txmm_que_t] (wireless/driver/shared/txmm.h): an
    array of [max_msgs] block references with [from], [to] and [total].  The
    file gives the index arithmetic of txmm.c, the FIFO list a queue stands for
    ([contents]) and the lemmas by which each queue operation of [Txmm] acts on
    that list.  Blocks are named by their number in the storage area. *)
From S2P Require Import Prelude.

Local Open Scope nat_scope.
#[local] Arguments Nat.eqb : simpl never.
#[local] Arguments Nat.leb : simpl never.
#[local] Arguments Nat.ltb : simpl never.

(** [INC_WRAP_IDX] of linux/mtlkinc.h. *)
Definition INC_WRAP_IDX (i s : nat) : nat := if S i =? s then 0 else S i.

(** The index before [i], as the order preserving deletion computes it. *)
Definition dec_wrap_idx (i s : nat) : nat := if i =? 0 then s - 1 else i - 1.

Record mtlk_txmm_que_t := Que {
  q_ptr : list nat;
  q_from : nat;
  q_to : nat;
  q_total : nat;
}.

#[export] Instance que_inhabited : Inhabited mtlk_txmm_que_t := populate (Que [] 0 0 0).

(** Number of steps from [from] forward to [p]. *)
Definition offset (n from p : nat) : nat := if from <=? p then p - from else p + n - from.

(** The array index of the [k]-th element. *)
Definition pos (n : nat) (q : mtlk_txmm_que_t) (k : nat) : nat :=
  if n <=? q_from q + k then q_from q + k - n else q_from q + k.

Definition contents (n : nat) (q : mtlk_txmm_que_t) : list nat :=
  (fun k => q_ptr q !!! pos n q k) <$> seq 0 (q_total q).

Record que_wf (n : nat) (q : mtlk_txmm_que_t) : Prop := {
  qw_len : length (q_ptr q) = n;
  qw_from : q_from q < n;
  qw_total : q_total q <= n;
  qw_to : q_to q = pos n q (q_total q);
}.

(** The slots that hold an element. *)
Definition active (n : nat) (q : mtlk_txmm_que_t) (p : nat) : Prop :=
  p < n /\ offset n (q_from q) p < q_total q.

(** Decide the index arithmetic: unfold it and split its comparisons. *)
Ltac ring_arith :=
  repeat progress (unfold active, offset, pos, INC_WRAP_IDX, dec_wrap_idx in *; simpl in * );
  repeat match goal with
  | |- context [?a <=? ?b] => destruct (Nat.leb_spec a b)
  | |- context [?a =? ?b] => destruct (Nat.eqb_spec a b)
  | H : context [?a <=? ?b] |- _ => destruct (Nat.leb_spec a b)
  | H : context [?a =? ?b] |- _ => destruct (Nat.eqb_spec a b)
  end; try lia.

Lemma contents_length n q : length (contents n q) = q_total q.
Proof. unfold contents. by rewrite length_fmap, length_seq. Qed.

Lemma contents_lookup n q k :
  k < q_total q -> contents n q !! k = Some (q_ptr q !!! pos n q k).
Proof.
  intros Hk. unfold contents. rewrite list_lookup_fmap, lookup_seq_lt by done. done.
Qed.

Lemma contents_lookup_None n q k : q_total q <= k -> contents n q !! k = None.
Proof. intros Hk. apply lookup_ge_None. by rewrite contents_length. Qed.

Lemma pos_offset n q p :
  q_from q < n -> p < n -> pos n q (offset n (q_from q) p) = p.
Proof. intros. ring_arith. Qed.

Lemma offset_pos n q k :
  q_from q < n -> k < n -> offset n (q_from q) (pos n q k) = k.
Proof. intros. ring_arith. Qed.

Lemma pos_lt n q k : q_from q < n -> k < n -> pos n q k < n.
Proof. intros. ring_arith. Qed.

Lemma active_pos n q k : que_wf n q -> k < q_total q -> active n q (pos n q k).
Proof.
  intros [] Hk. split; [apply pos_lt; lia|]. rewrite offset_pos by lia. done.
Qed.

Lemma active_contents n q p :
  que_wf n q -> active n q p -> contents n q !! offset n (q_from q) p = Some (q_ptr q !!! p).
Proof.
  intros [] [Hp Ho]. rewrite contents_lookup by done. by rewrite pos_offset.
Qed.

Lemma elem_of_contents n q b :
  que_wf n q -> b ∈ contents n q <-> exists p, active n q p /\ q_ptr q !!! p = b.
Proof.
  intros Hwf. rewrite list_elem_of_lookup. split.
  - intros [k Hk]. assert (k < q_total q) as Hlt.
    { rewrite <-(contents_length n q). by eapply lookup_lt_Some. }
    rewrite contents_lookup in Hk by done. exists (pos n q k).
    split; [by apply active_pos|congruence].
  - intros (p & Ha & <-). eexists. by apply active_contents.
Qed.

(** ** Removing the head: [INC_WRAP_IDX(que->from, max); que->total--] *)

Definition que_pop (n : nat) (q : mtlk_txmm_que_t) : mtlk_txmm_que_t :=
  Que (q_ptr q) (INC_WRAP_IDX (q_from q) n) (q_to q) (q_total q - 1).

Lemma que_pop_wf n q : que_wf n q -> 0 < q_total q -> que_wf n (que_pop n q).
Proof.
  intros [] Hpos. split; simpl; [done|ring_arith|lia|].
  rewrite qw_to0. ring_arith.
Qed.

Lemma que_pop_contents n q :
  que_wf n q -> 0 < q_total q ->
  contents n q = q_ptr q !!! q_from q :: contents n (que_pop n q).
Proof.
  intros [] Hpos. apply list_eq. intros [|k]; simpl.
  - rewrite contents_lookup by done. do 2 f_equal. ring_arith.
  - destruct (decide (S k < q_total q)).
    + rewrite !contents_lookup by (simpl; lia). simpl. do 2 f_equal. ring_arith.
    + by rewrite !contents_lookup_None by (simpl; lia).
Qed.

Lemma que_pop_active n q p :
  que_wf n q -> 0 < q_total q ->
  active n (que_pop n q) p <-> active n q p /\ p <> q_from q.
Proof. intros [] ?. split; intros; split_and?; ring_arith. Qed.

(** ** Appending: [que->ptr[que->to] = buf; INC_WRAP_IDX(que->to, max); que->total++] *)

Definition que_push (n : nat) (q : mtlk_txmm_que_t) (b : nat) : mtlk_txmm_que_t :=
  Que (<[q_to q := b]> (q_ptr q)) (q_from q) (INC_WRAP_IDX (q_to q) n) (S (q_total q)).

Lemma que_push_wf n q b : que_wf n q -> q_total q < n -> que_wf n (que_push n q b).
Proof.
  intros [] Hlt. split; simpl; [by rewrite length_insert|done|lia|].
  rewrite qw_to0. ring_arith.
Qed.

Lemma que_push_active n q b p :
  que_wf n q -> q_total q < n ->
  active n (que_push n q b) p <-> active n q p \/ p = q_to q.
Proof. intros [] ?. rewrite qw_to0. split; intros; ring_arith. Qed.

Lemma que_to_lt n q : que_wf n q -> q_to q < n.
Proof. intros []. rewrite qw_to0. ring_arith. Qed.

Lemma que_to_inactive n q : que_wf n q -> q_total q < n -> ~ active n q (q_to q).
Proof. intros [] ? [_ ?]. rewrite qw_to0 in *. ring_arith. Qed.

Lemma que_push_ptr n q b p :
  que_wf n q -> q_total q < n -> active n q p ->
  q_ptr (que_push n q b) !!! p = q_ptr q !!! p.
Proof.
  intros Hwf Hlt Ha. simpl. apply list_lookup_total_insert_ne.
  intros <-. by apply (que_to_inactive n q).
Qed.

Lemma que_push_contents n q b :
  que_wf n q -> q_total q < n -> contents n (que_push n q b) = contents n q ++ [b].
Proof.
  intros Hwf Hlt. pose proof Hwf as []. apply list_eq. intros k.
  destruct (Nat.lt_trichotomy k (q_total q)) as [Hk|[->|Hk]].
  - rewrite lookup_app_l by (rewrite contents_length; done).
    rewrite !contents_lookup by (simpl; lia). f_equal.
    apply (que_push_ptr n q b); [done..|]. by apply active_pos.
  - rewrite lookup_app_r by (rewrite contents_length; lia).
    rewrite contents_length, Nat.sub_diag, contents_lookup by (simpl; lia). simpl. f_equal.
    replace (pos n (que_push n q b) (q_total q)) with (q_to q) by (rewrite qw_to0; ring_arith).
    apply list_lookup_total_insert_eq. rewrite qw_len0. by apply que_to_lt.
  - rewrite contents_lookup_None by (simpl; lia). symmetry. apply lookup_ge_None.
    rewrite length_app, contents_length. simpl. lia.
Qed.

(** ** Overwriting one slot, for the order-free deletion *)

Definition que_set (q : mtlk_txmm_que_t) (i b : nat) : mtlk_txmm_que_t :=
  Que (<[i := b]> (q_ptr q)) (q_from q) (q_to q) (q_total q).

Lemma que_set_wf n q i b : que_wf n q -> que_wf n (que_set q i b).
Proof. intros []. split; simpl; try done. by rewrite length_insert. Qed.

Lemma que_set_contents n q i b :
  que_wf n q -> active n q i ->
  contents n (que_set q i b) = <[offset n (q_from q) i := b]> (contents n q).
Proof.
  intros [] [Hi Ho]. apply list_eq. intros k.
  destruct (decide (k < q_total q)) as [Hk|Hk].
  - rewrite contents_lookup by done.
    destruct (decide (k = offset n (q_from q) i)) as [->|Hne].
    + rewrite list_lookup_insert_eq by (by rewrite contents_length).
      change (pos n (que_set q i b)) with (pos n q). rewrite pos_offset by done.
      simpl. by rewrite list_lookup_total_insert_eq by lia.
    + rewrite list_lookup_insert_ne by done. rewrite contents_lookup by done. f_equal. simpl.
      apply list_lookup_total_insert_ne. intros ->. apply Hne. symmetry.
      apply (offset_pos n q); lia.
  - rewrite contents_lookup_None by (simpl; lia). symmetry. apply lookup_ge_None.
    rewrite length_insert, contents_length. lia.
Qed.

(** ** Shifting, for the order-preserving deletion

    [shift_ptr] moves the elements before [i] one slot forward, up to the
    head, whose slot keeps a stale copy. *)
Fixpoint shift_ptr (fuel n from i : nat) (ptr : list nat) : list nat :=
  match fuel with
  | 0 => ptr
  | S fuel =>
      if i =? from then ptr
      else let prev := dec_wrap_idx i n in
           shift_ptr fuel n from prev (<[i := ptr !!! prev]> ptr)
  end.

Lemma dec_wrap_offset n from i :
  from < n -> i < n -> i <> from -> offset n from (dec_wrap_idx i n) = offset n from i - 1.
Proof. intros. ring_arith. Qed.

Lemma dec_wrap_lt n i : i < n -> dec_wrap_idx i n < n.
Proof. intros. ring_arith. Qed.

Lemma offset_zero n from i : from < n -> i < n -> offset n from i = 0 <-> i = from.
Proof. intros. split; intros; ring_arith. Qed.

Lemma shift_ptr_length fuel n from i ptr : length (shift_ptr fuel n from i ptr) = length ptr.
Proof.
  revert i ptr. induction fuel as [|fuel IH]; intros i ptr; simpl; [done|].
  case_match; [done|]. by rewrite IH, length_insert.
Qed.

Lemma shift_ptr_lookup fuel n from i ptr p :
  length ptr = n -> from < n -> i < n -> p < n -> offset n from i <= fuel ->
  shift_ptr fuel n from i ptr !!! p =
    if (0 <? offset n from p) && (offset n from p <=? offset n from i)
    then ptr !!! dec_wrap_idx p n else ptr !!! p.
Proof.
  revert i ptr. induction fuel as [|fuel IH]; intros i ptr Hlen Hf Hi Hp Hfuel; simpl.
  - destruct (Nat.ltb_spec 0 (offset n from p)), (Nat.leb_spec (offset n from p) (offset n from i));
      simpl; try done. lia.
  - destruct (Nat.eqb_spec i from) as [->|Hne].
    + assert (offset n from from = 0) as -> by ring_arith.
      destruct (Nat.ltb_spec 0 (offset n from p)), (Nat.leb_spec (offset n from p) 0);
        simpl; try done. lia.
    + assert (0 < offset n from i) by (pose proof (offset_zero n from i Hf Hi); lia).
      rewrite IH; [|by rewrite length_insert|done|by apply dec_wrap_lt|done|
                   rewrite dec_wrap_offset by done; lia].
      rewrite dec_wrap_offset by done.
      destruct (decide (p = i)) as [->|Hpi].
      * destruct (Nat.ltb_spec 0 (offset n from i)); [|lia].
        destruct (Nat.leb_spec (offset n from i) (offset n from i - 1)); [lia|].
        destruct (Nat.leb_spec (offset n from i) (offset n from i)); [|lia]. simpl.
        by rewrite list_lookup_total_insert_eq by lia.
      * rewrite (list_lookup_total_insert_ne ptr i p) by done.
        destruct (Nat.ltb_spec 0 (offset n from p)); simpl; [|done].
        assert (offset n from p <> offset n from i) by (intros ?; ring_arith).
        destruct (Nat.leb_spec (offset n from p) (offset n from i - 1)),
                 (Nat.leb_spec (offset n from p) (offset n from i)); try lia; try done.
        apply list_lookup_total_insert_ne. intros ->.
        assert (offset n from (dec_wrap_idx p n) = offset n from p - 1)
          by (apply dec_wrap_offset; [done..|]; intros ->; ring_arith). lia.
Qed.

Definition que_shift (n : nat) (q : mtlk_txmm_que_t) (i : nat) : mtlk_txmm_que_t :=
  Que (shift_ptr n n (q_from q) i (q_ptr q)) (q_from q) (q_to q) (q_total q).

Lemma que_shift_wf n q i : que_wf n q -> que_wf n (que_shift n q i).
Proof. intros []. split; simpl; try done. by rewrite shift_ptr_length. Qed.

Lemma offset_lt n from p : from < n -> p < n -> offset n from p < n.
Proof. intros. ring_arith. Qed.

(** Shifting and then dropping the head deletes the element at [i] and keeps
    the others in order. *)
Lemma que_shift_pop_contents n q i :
  que_wf n q -> active n q i ->
  contents n (que_pop n (que_shift n q i)) = delete (offset n (q_from q) i) (contents n q).
Proof.
  intros Hwf [Hi Ho]. pose proof Hwf as []. apply list_eq. intros k.
  set (o := offset n (q_from q) i) in *.
  destruct (decide (k < q_total q - 1)) as [Hk|Hk].
  - rewrite contents_lookup by (simpl; lia). simpl.
    assert (pos n (que_pop n (que_shift n q i)) k = pos n q (S k)) as -> by ring_arith.
    assert (offset n (q_from q) (pos n q (S k)) = S k) as Hoff by (apply offset_pos; lia).
    rewrite shift_ptr_lookup;
      [|done..|apply pos_lt; lia|pose proof (offset_lt n (q_from q) i); lia].
    fold o. rewrite Hoff. destruct (Nat.leb_spec (S k) o); simpl.
    + rewrite list_lookup_delete_lt by lia. rewrite contents_lookup by lia. do 2 f_equal. ring_arith.
    + rewrite list_lookup_delete_ge by lia. by rewrite contents_lookup by lia.
  - rewrite contents_lookup_None by (simpl; lia). symmetry. apply lookup_ge_None.
    rewrite length_delete, contents_length; [lia|].
    apply lookup_lt_is_Some. rewrite contents_length. lia.
Qed.
