(* ===== verification/Txmm.v ===== *)
(** * Txmm: the management message transport (wireless/driver/shared/txmm.c)

    The state [mtlk_txmm_base_t], its blocks and message objects, and every
    operation that moves a block between the FREE, QUEUED, SENT and TIMED_OUT
    queues.  Each definition is one function of txmm.c; a critical section
    under [obj->lock] is one state change. *)
From S2P Require Import Prelude TxmmRing.

(** [mtlk_txmm_block_e]; the number of a queue is its position in [ques]. *)
Inductive mtlk_txmm_block_e :=
| MTLK_TXMMB_FREE | MTLK_TXMMB_QUEUED | MTLK_TXMMB_SENT | MTLK_TXMMB_TIMED_OUT | MTLK_TXMMB_NONE.

#[export] Instance txmm_block_e_eq_dec : EqDecision mtlk_txmm_block_e.
Proof. solve_decision. Defined.

Definition que_code (q : mtlk_txmm_block_e) : nat :=
  match q with
  | MTLK_TXMMB_FREE => 0 | MTLK_TXMMB_QUEUED => 1 | MTLK_TXMMB_SENT => 2
  | MTLK_TXMMB_TIMED_OUT => 3 | MTLK_TXMMB_NONE => 4
  end%nat.

Inductive mtlk_txmm_clb_reason_e :=
| MTLK_TXMM_CLBR_CONFIRMED | MTLK_TXMM_CLBR_TIMEOUT_UNSENT
| MTLK_TXMM_CLBR_TIMEOUT_SENT | MTLK_TXMM_CLBR_RCVRY_DISCARD | MTLK_TXMM_CLBR_LAST.

#[export] Instance clb_reason_eq_dec : EqDecision mtlk_txmm_clb_reason_e.
Proof. solve_decision. Defined.

Inductive mtlk_txmm_clb_action_e :=
| MTLK_TXMM_CLBA_FREE | MTLK_TXMM_CLBA_SEND | MTLK_TXMM_CLBA_KEEP | MTLK_TXMM_CLBA_LAST.

(** [mtlk_txmm_data_t]; the payload buffer as its bytes. *)
Record mtlk_txmm_data_t := Data {
  data_id : Z;
  data_payload : list Z;
  data_payload_size : Z;
}.

Definition TXMM_FLAGS_ACTIVE : Z := 0x40000000.
Definition TXMM_FLAGS_STOPPED : Z := 0x20000000.

Inductive txmm_status := MTLK_TXMM_OK_HANDLED | MTLK_TXMM_OK_SENT | MTLK_TXMM_OK_FREED.

(** [memcpy(dst, src, n)] on byte lists. *)
Definition memcpy (dst src : list Z) (n : nat) : list Z := take n src ++ drop n dst.

Section Txmm.
(** [Msg] names the message objects, [Clb] a callback with its context,
    [Slot] the firmware message slots and [Pool] the slot allocator behind
    [mtlk_txmm_wrap_api_t], whose operations and the callbacks' answers are
    supplied by the users of the module. *)
Context {Msg : Type} `{Countable Msg} {Clb : Type} {Slot : Type} `{EqDecision Slot} {Pool : Type}.
Context (msg_get_from_pool : Pool -> option Slot * Pool).
Context (msg_free_to_pool : Slot -> Pool -> Pool).
Context (run_clb : Clb -> mtlk_txmm_data_t -> mtlk_txmm_clb_reason_e ->
                   mtlk_txmm_clb_action_e * mtlk_txmm_data_t).

Record mtlk_txmm_block_t := Block {
  bl_data : mtlk_txmm_data_t;
  bl_slot : option Slot;
  bl_clb : option Clb;
  bl_que : mtlk_txmm_block_e;
  bl_idx : nat;
  bl_send_time : Z;
  bl_timeout : Z;
  bl_msg : option Msg;
  bl_vap : Z;
}.

(** What leaves the module, in order. *)
Inductive txmm_ev :=
| EvPrepared (s : Slot) (id : Z) (bytes : list Z)
| EvMsgSend (s : Slot) (vap : Z)
| EvMsgTimedOut (id : Z)
| EvClb (c : Clb) (d : mtlk_txmm_data_t) (r : mtlk_txmm_clb_reason_e).

Record mtlk_txmm_base_t := Base {
  tb_max_msgs : nat;
  tb_max_payload_size : Z;
  tb_ques : list mtlk_txmm_que_t;
  tb_blocks : list mtlk_txmm_block_t;
  tb_msgs : gmap Msg (nat * Z);      (** [msg->data] and [msg->obj], both set or both NULL *)
  tb_flags : Z;
  tb_nof_sent : Z;
  tb_nof_cfmed : Z;
  tb_used_peak : Z;
  tb_pool : Pool;
  tb_out : list txmm_ev;
}.

Definition zero_data (d : mtlk_txmm_data_t) : mtlk_txmm_data_t := Data 0 (data_payload d) 0.

(** [_mtlk_txmm_zero_block]: the header is cleared, so [que] reads FREE; the
    payload bytes behind it stay. *)
Definition _mtlk_txmm_zero_block (b : mtlk_txmm_block_t) : mtlk_txmm_block_t :=
  Block (zero_data (bl_data b)) None None MTLK_TXMMB_FREE 0 0 0 None 0.

#[export] Instance block_inhabited : Inhabited mtlk_txmm_block_t :=
  populate (Block (Data 0 [] 0) None None MTLK_TXMMB_FREE 0 0 0 None 0).

Definition bl_set_link (q : mtlk_txmm_block_e) (i : nat) (b : mtlk_txmm_block_t) :=
  Block (bl_data b) (bl_slot b) (bl_clb b) q i (bl_send_time b) (bl_timeout b) (bl_msg b) (bl_vap b).
Definition bl_set_que (q : mtlk_txmm_block_e) (b : mtlk_txmm_block_t) := bl_set_link q (bl_idx b) b.
Definition bl_set_idx (i : nat) (b : mtlk_txmm_block_t) := bl_set_link (bl_que b) i b.
Definition bl_set_data (d : mtlk_txmm_data_t) (b : mtlk_txmm_block_t) :=
  Block d (bl_slot b) (bl_clb b) (bl_que b) (bl_idx b) (bl_send_time b) (bl_timeout b) (bl_msg b) (bl_vap b).
Definition bl_set_slot (s : option Slot) (b : mtlk_txmm_block_t) :=
  Block (bl_data b) s (bl_clb b) (bl_que b) (bl_idx b) (bl_send_time b) (bl_timeout b) (bl_msg b) (bl_vap b).
Definition bl_set_msg (m : Msg) (b : mtlk_txmm_block_t) :=
  Block (bl_data b) (bl_slot b) (bl_clb b) (bl_que b) (bl_idx b) (bl_send_time b) (bl_timeout b) (Some m) (bl_vap b).
Definition bl_set_send_time (t : Z) (b : mtlk_txmm_block_t) :=
  Block (bl_data b) (bl_slot b) (bl_clb b) (bl_que b) (bl_idx b) t (bl_timeout b) (bl_msg b) (bl_vap b).
Definition bl_set_request (c : Clb) (timeout vap : Z) (b : mtlk_txmm_block_t) :=
  Block (bl_data b) None (Some c) (bl_que b) (bl_idx b) (bl_send_time b) timeout (bl_msg b) vap.

Implicit Types (o : mtlk_txmm_base_t) (b : nat) (q : mtlk_txmm_block_e).

Definition set_links (qs : list mtlk_txmm_que_t) (bs : list mtlk_txmm_block_t) o :=
  Base (tb_max_msgs o) (tb_max_payload_size o) qs bs (tb_msgs o) (tb_flags o)
       (tb_nof_sent o) (tb_nof_cfmed o) (tb_used_peak o) (tb_pool o) (tb_out o).
Definition set_que q (que : mtlk_txmm_que_t) o :=
  set_links (<[que_code q := que]> (tb_ques o)) (tb_blocks o) o.
Definition upd_block b (f : mtlk_txmm_block_t -> mtlk_txmm_block_t) o :=
  set_links (tb_ques o) (alter f b (tb_blocks o)) o.
Definition set_msgs (ms : gmap Msg (nat * Z)) o :=
  Base (tb_max_msgs o) (tb_max_payload_size o) (tb_ques o) (tb_blocks o) ms (tb_flags o)
       (tb_nof_sent o) (tb_nof_cfmed o) (tb_used_peak o) (tb_pool o) (tb_out o).
Definition set_flags (f : Z) o :=
  Base (tb_max_msgs o) (tb_max_payload_size o) (tb_ques o) (tb_blocks o) (tb_msgs o) f
       (tb_nof_sent o) (tb_nof_cfmed o) (tb_used_peak o) (tb_pool o) (tb_out o).
Definition set_stats (sent cfmed peak : Z) o :=
  Base (tb_max_msgs o) (tb_max_payload_size o) (tb_ques o) (tb_blocks o) (tb_msgs o) (tb_flags o)
       sent cfmed peak (tb_pool o) (tb_out o).
Definition set_pool (p : Pool) o :=
  Base (tb_max_msgs o) (tb_max_payload_size o) (tb_ques o) (tb_blocks o) (tb_msgs o) (tb_flags o)
       (tb_nof_sent o) (tb_nof_cfmed o) (tb_used_peak o) p (tb_out o).
Definition emit (e : txmm_ev) o :=
  Base (tb_max_msgs o) (tb_max_payload_size o) (tb_ques o) (tb_blocks o) (tb_msgs o) (tb_flags o)
       (tb_nof_sent o) (tb_nof_cfmed o) (tb_used_peak o) (tb_pool o) (tb_out o ++ [e]).

Definition que_of o q : mtlk_txmm_que_t := tb_ques o !!! que_code q.
Definition block_of o b : mtlk_txmm_block_t := tb_blocks o !!! b.
Definition is_active o : bool := negb (Z.land (tb_flags o) TXMM_FLAGS_ACTIVE =? 0).

(** [que_idx < SIZEOF(obj->ques)] *)
Definition valid_que o q : bool := (que_code q <? length (tb_ques o))%nat.

Definition _mtlk_txmm_get_buf o q : option nat * mtlk_txmm_base_t :=
  if valid_que o q then
    let que := que_of o q in
    if (q_total que =? 0)%nat then (None, o)
    else (Some (q_ptr que !!! q_from que), set_que q (que_pop (tb_max_msgs o) que) o)
  else (None, o).

Definition _mtlk_txmm_put_buf o q b : mtlk_txmm_base_t :=
  if valid_que o q then
    let que := que_of o q in
    set_que q (que_push (tb_max_msgs o) que b) (upd_block b (bl_set_link q (q_to que)) o)
  else o.

(** The [do .. while] loop of the order preserving deletion, entered with
    [i != from]; [fuel] bounds its rounds by the size of the array. *)
Fixpoint shift_loop (fuel n from i : nat) (ptr : list nat) (bs : list mtlk_txmm_block_t)
  : list nat * list mtlk_txmm_block_t :=
  match fuel with
  | O => (ptr, bs)
  | S fuel =>
      if (i =? from)%nat then (ptr, bs)
      else let prev := dec_wrap_idx i n in
           let moved := ptr !!! prev in
           shift_loop fuel n from prev (<[i := moved]> ptr) (alter (bl_set_idx i) moved bs)
  end.

Definition _mtlk_txmm_del_buf_from_que o q b (preserve_order : bool) : Z * mtlk_txmm_base_t :=
  if valid_que o q then
    let que := que_of o q in
    let i := bl_idx (block_of o b) in
    if (q_ptr que !!! i =? b)%nat then
      let '(ptr, bs) :=
        if (i =? q_from que)%nat then (q_ptr que, tb_blocks o)
        else if preserve_order
        then shift_loop (tb_max_msgs o) (tb_max_msgs o) (q_from que) i (q_ptr que) (tb_blocks o)
        else let moved := q_ptr que !!! q_from que in
             (<[i := moved]> (q_ptr que), alter (bl_set_idx i) moved (tb_blocks o)) in
      let que' := que_pop (tb_max_msgs o) (Que ptr (q_from que) (q_to que) (q_total que)) in
      (0, set_links (<[que_code q := que']> (tb_ques o)) (alter (bl_set_que MTLK_TXMMB_NONE) b bs) o)
    else (-1, o)
  else (-1, o).

Definition _mtlk_txmm_free_buf o b (del_from_current_queue preserve_order : bool)
  : mtlk_txmm_base_t :=
  if decide (bl_que (block_of o b) = MTLK_TXMMB_FREE) then o
  else
    let o := if del_from_current_queue
             then (_mtlk_txmm_del_buf_from_que o (bl_que (block_of o b)) b preserve_order).2
             else o in
    _mtlk_txmm_put_buf (upd_block b _mtlk_txmm_zero_block o) MTLK_TXMMB_FREE b.

Definition _mtlk_txmm_adjust_usage_stats o : mtlk_txmm_base_t :=
  let used := Z.of_nat (tb_max_msgs o) - Z.of_nat (q_total (que_of o MTLK_TXMMB_FREE)) in
  if tb_used_peak o <? used then set_stats (tb_nof_sent o) (tb_nof_cfmed o) used o else o.

Definition _mtlk_txmm_send_block_prepare o b (pmsg : Slot) : mtlk_txmm_base_t :=
  let d := bl_data (block_of o b) in
  let size := if (data_payload_size d =? 0) || (data_payload_size d >? tb_max_payload_size o)
              then tb_max_payload_size o else data_payload_size d in
  let o := upd_block b (bl_set_data (Data (data_id d) (data_payload d) size)) o in
  let o := upd_block b (bl_set_slot (Some pmsg)) o in
  let o := emit (EvPrepared pmsg (data_id d) (take (Z.to_nat size) (data_payload d))) o in
  let o := _mtlk_txmm_put_buf o MTLK_TXMMB_SENT b in
  set_stats (u32 (tb_nof_sent o + 1)) (tb_nof_cfmed o) (tb_used_peak o) o.

(** Result: the message left in [*_pmsg], [*vap_handle] when it was set, and
    the status. *)
Definition _mtlk_txmm_pump o (pmsg : option Slot)
  : option Slot * option Z * txmm_status * mtlk_txmm_base_t :=
  if negb (q_total (que_of o MTLK_TXMMB_QUEUED) =? 0)%nat then
    let '(pmsg, o) := match pmsg with
                      | Some s => (Some s, o)
                      | None => let '(s, p) := msg_get_from_pool (tb_pool o) in (s, set_pool p o)
                      end in
    match pmsg with
    | Some s =>
        match _mtlk_txmm_get_buf o MTLK_TXMMB_QUEUED with
        | (Some b, o) =>
            let o := _mtlk_txmm_send_block_prepare o b s in
            (Some s, Some (bl_vap (block_of o b)), MTLK_TXMM_OK_SENT, o)
        | (None, o) => (Some s, None, MTLK_TXMM_OK_HANDLED, o)
        end
    | None => (None, None, MTLK_TXMM_OK_HANDLED, o)
    end
  else match pmsg with
       | Some s => (None, None, MTLK_TXMM_OK_FREED, set_pool (msg_free_to_pool s (tb_pool o)) o)
       | None => (None, None, MTLK_TXMM_OK_HANDLED, o)
       end.

Definition mtlk_txmm_pump o (pmsg : option Slot) : Z * mtlk_txmm_base_t :=
  match _mtlk_txmm_pump o pmsg with
  | (Some s, Some vap, MTLK_TXMM_OK_SENT, o) => (MTLK_ERR_OK, emit (EvMsgSend s vap) o)
  | (_, _, _, o) => (MTLK_ERR_OK, o)
  end.

(** [_mtlk_txmm_call_usr_clb_locked]; [None] is a NULL dereference (of the
    block's message object or of its callback). *)
Definition _mtlk_txmm_call_usr_clb_locked o b (reason : mtlk_txmm_clb_reason_e) (now : Z)
  : option (bool * mtlk_txmm_base_t) :=
  match bl_msg (block_of o b) with
  | None => None
  | Some m =>
      match tb_msgs o !! m with
      | None => Some (false, o)                             (* the msg has been cancelled *)
      | Some _ =>
          match bl_clb (block_of o b) with
          | None => None
          | Some c =>
              let d := bl_data (block_of o b) in
              let '(action, d') := run_clb c d reason in
              let o := upd_block b (bl_set_data d') (emit (EvClb c d reason) o) in
              match action with
              | MTLK_TXMM_CLBA_FREE =>
                  let o := _mtlk_txmm_free_buf o b false false in
                  Some (false, set_msgs (delete m (tb_msgs o)) o)
              | MTLK_TXMM_CLBA_SEND =>
                  let o := if bl_timeout (block_of o b) =? 0 then o
                           else upd_block b (bl_set_send_time now) o in
                  Some (true, _mtlk_txmm_put_buf o MTLK_TXMMB_QUEUED b)
              | MTLK_TXMM_CLBA_KEEP | MTLK_TXMM_CLBA_LAST => Some (false, o)
              end
          end
      end
  end.

(** The condition under which [_mtlk_txmm_on_timer_que] times a block out;
    [mtlk_osal_ms_time_diff] subtracts 32-bit timestamps. *)
Definition expired (now : Z) (blk : mtlk_txmm_block_t) : bool :=
  negb (bl_timeout blk =? 0) && bool_decide (is_Some (bl_clb blk)) &&
  (bl_timeout blk <=? u32 (now - bl_send_time blk)).

(** First critical section of [_mtlk_txmm_on_timer_que]: the scan
    [while (i != que->to)], moving expired blocks to TIMED_OUT. *)
Fixpoint timer_scan (fuel : nat) o (now : Z) q (preserve_order : bool) (i : nat) (cnt : Z)
  : Z * mtlk_txmm_base_t :=
  match fuel with
  | O => (cnt, o)
  | S fuel =>
      let que := que_of o q in
      if (i =? q_to que)%nat then (cnt, o)
      else
        let b := q_ptr que !!! i in
        let blk := block_of o b in
        let '(cnt, o) :=
          if expired now blk
          then (cnt + 1, _mtlk_txmm_put_buf (_mtlk_txmm_del_buf_from_que o q b preserve_order).2
                                            MTLK_TXMMB_TIMED_OUT b)
          else (cnt, o) in
        timer_scan fuel o now q preserve_order (INC_WRAP_IDX i (tb_max_msgs o)) cnt
  end.

(** One round of the notification loop: take the head of TIMED_OUT. *)
Definition timed_out_pop o : option nat * mtlk_txmm_base_t :=
  let que := que_of o MTLK_TXMMB_TIMED_OUT in
  if (q_total que =? 0)%nat then (None, o)
  else let b := q_ptr que !!! q_from que in
       (Some b, (_mtlk_txmm_del_buf_from_que o MTLK_TXMMB_TIMED_OUT b false).2).

Fixpoint timed_out_loop (fuel : nat) o (reason : mtlk_txmm_clb_reason_e) (now : Z)
  : option mtlk_txmm_base_t :=
  match timed_out_pop o with
  | (None, o) => Some o
  | (Some b, o) =>
      match fuel with
      | O => None
      | S fuel =>
          let o := emit (EvMsgTimedOut (data_id (bl_data (block_of o b)))) o in
          match _mtlk_txmm_call_usr_clb_locked o b reason now with
          | Some (_, o) => timed_out_loop fuel o reason now
          | None => None
          end
      end
  end.

Definition _mtlk_txmm_on_timer_que o (now : Z) q (reason : mtlk_txmm_clb_reason_e)
    (preserve_order : bool) : option (Z * mtlk_txmm_base_t) :=
  let '(cnt, o) := timer_scan (tb_max_msgs o) o now q preserve_order (q_from (que_of o q)) 0 in
  match timed_out_loop (tb_max_msgs o) o reason now with
  | Some o => Some (cnt, o)
  | None => None
  end.

Definition _mtlk_txmm_on_timer o (now : Z) : option mtlk_txmm_base_t :=
  match _mtlk_txmm_on_timer_que o now MTLK_TXMMB_SENT MTLK_TXMM_CLBR_TIMEOUT_SENT false with
  | None => None
  | Some (_, o) =>
      match _mtlk_txmm_on_timer_que o now MTLK_TXMMB_QUEUED MTLK_TXMM_CLBR_TIMEOUT_UNSENT true with
      | None => None
      | Some (_, o) => Some o
      end
  end.

(** The [do .. while (i != que->to)] search of [_mtlk_txmm_on_cfm]. *)
Fixpoint find_sent (fuel : nat) o (pmsg : Slot) (i : nat) : option nat :=
  match fuel with
  | O => None
  | S fuel =>
      let que := que_of o MTLK_TXMMB_SENT in
      let b := q_ptr que !!! i in
      if decide (bl_slot (block_of o b) = Some pmsg) then Some b
      else let i := INC_WRAP_IDX i (tb_max_msgs o) in
           if (i =? q_to que)%nat then None else find_sent fuel o pmsg i
  end.

(** First critical section of [_mtlk_txmm_on_cfm]. *)
Definition on_cfm_dequeue o (pmsg : Slot) : option nat * mtlk_txmm_base_t :=
  let o := set_stats (tb_nof_sent o) (u32 (tb_nof_cfmed o + 1)) (tb_used_peak o) o in
  let que := que_of o MTLK_TXMMB_SENT in
  if (q_total que =? 0)%nat then (None, o)
  else match find_sent (tb_max_msgs o) o pmsg (q_from que) with
       | Some b => (Some b, (_mtlk_txmm_del_buf_from_que o MTLK_TXMMB_SENT b false).2)
       | None => (None, o)
       end.

(** The confirmation's payload replaces the block's, then the callback runs. *)
Definition on_cfm_deliver o b (payload : list Z) (now : Z) : option mtlk_txmm_base_t :=
  let d := bl_data (block_of o b) in
  let bytes := memcpy (data_payload d) payload (Z.to_nat (tb_max_payload_size o)) in
  let o := upd_block b (bl_set_data (Data (data_id d) bytes (data_payload_size d))) o in
  snd <$> _mtlk_txmm_call_usr_clb_locked o b MTLK_TXMM_CLBR_CONFIRMED now.

Definition _mtlk_txmm_on_cfm o (pmsg : Slot) (payload : list Z) (now : Z)
  : option (Z * mtlk_txmm_base_t) :=
  match on_cfm_dequeue o pmsg with
  | (None, o) => Some (MTLK_ERR_UNKNOWN, o)
  | (Some b, o) => (fun o => (MTLK_ERR_OK, o)) <$> on_cfm_deliver o b payload now
  end.

Definition mtlk_txmm_on_cfm o (pmsg : option Slot) (payload : list Z) (now : Z)
  : option (Z * mtlk_txmm_base_t) :=
  match pmsg with
  | Some s => _mtlk_txmm_on_cfm o s payload now
  | None => Some (MTLK_ERR_PARAMS, o)
  end.

(** [mtlk_txmm_init]: [junk] is the content of the queue arrays as allocated. *)
Definition mtlk_txmm_init (max_msgs : nat) (max_payload_size : Z) (pool : Pool)
    (junk : mtlk_txmm_block_e -> list nat) (payloads : nat -> list Z) : mtlk_txmm_base_t :=
  Base max_msgs max_payload_size
    [Que (seq 0 max_msgs) 0 0 max_msgs;
     Que (junk MTLK_TXMMB_QUEUED) 0 0 0; Que (junk MTLK_TXMMB_SENT) 0 0 0;
     Que (junk MTLK_TXMMB_TIMED_OUT) 0 0 0]
    ((fun i => Block (Data 0 (payloads i) 0) None None MTLK_TXMMB_FREE i 0 0 None 0)
       <$> seq 0 max_msgs)
    ∅ TXMM_FLAGS_STOPPED 0 0 0 pool [].

Definition mtlk_txmm_start o : mtlk_txmm_base_t :=
  set_flags (Z.ldiff (Z.lor (tb_flags o) TXMM_FLAGS_ACTIVE) TXMM_FLAGS_STOPPED) o.

Definition mtlk_txmm_stop o : mtlk_txmm_base_t :=
  if Z.land (tb_flags o) TXMM_FLAGS_STOPPED =? 0
  then set_flags (Z.lor (tb_flags o) TXMM_FLAGS_STOPPED) o else o.

Definition mtlk_txmm_halt o : mtlk_txmm_base_t :=
  set_flags (Z.ldiff (tb_flags o) TXMM_FLAGS_ACTIVE) o.

Definition mtlk_txmm_is_running o : bool :=
  Z.land (tb_flags o) TXMM_FLAGS_ACTIVE =? TXMM_FLAGS_ACTIVE.

(** One round of the first loop of [mtlk_txmm_restore]. *)
Definition restore_block o b (now : Z) : option mtlk_txmm_base_t :=
  let que := bl_que (block_of o b) in
  let after := if decide (que = MTLK_TXMMB_SENT \/ que = MTLK_TXMMB_QUEUED)
               then snd <$> _mtlk_txmm_call_usr_clb_locked o b MTLK_TXMM_CLBR_RCVRY_DISCARD now
               else Some o in
  (fun o => _mtlk_txmm_free_buf o b true false) <$> after.

Definition mtlk_txmm_restore o (now : Z) : option mtlk_txmm_base_t :=
  foldl (fun st b => st ≫= fun o => restore_block o b now) (Some o) (seq 0 (tb_max_msgs o)).

Definition _mtlk_txmm_attach_data (vap : Z) o (m : Msg) : mtlk_txmm_base_t :=
  if is_active o then
    match _mtlk_txmm_get_buf o MTLK_TXMMB_FREE with
    | (Some b, o) =>
        let o := _mtlk_txmm_adjust_usage_stats o in
        let o := upd_block b (bl_set_msg m) o in
        let o := upd_block b (bl_set_que MTLK_TXMMB_NONE) o in
        set_msgs (<[m := (b, vap)]> (tb_msgs o)) o
    | (None, o) => set_msgs (delete m (tb_msgs o)) o
    end
  else o.

Definition _mtlk_txmm_send_ex (vap : Z) o b (clb : Clb) (timeout_ms now : Z)
  : Z * mtlk_txmm_base_t :=
  let o := upd_block b (bl_set_request clb timeout_ms vap) o in
  let o := if timeout_ms =? 0 then o else upd_block b (bl_set_send_time now) o in
  let '(pmsg, pool) := msg_get_from_pool (tb_pool o) in
  let o := set_pool pool o in
  match pmsg with
  | Some s =>
      if (q_total (que_of o MTLK_TXMMB_QUEUED) =? 0)%nat then
        (MTLK_ERR_OK, emit (EvMsgSend s vap) (_mtlk_txmm_send_block_prepare o b s))
      else
        let o := _mtlk_txmm_put_buf o MTLK_TXMMB_QUEUED b in
        match _mtlk_txmm_pump o (Some s) with
        | (Some s', Some vap', _, o) => (MTLK_ERR_OK, emit (EvMsgSend s' vap') o)
        | (_, _, _, o) => (MTLK_ERR_OK, o)
        end
  | None => (MTLK_ERR_OK, _mtlk_txmm_put_buf o MTLK_TXMMB_QUEUED b)
  end.

Definition _mtlk_txmm_free o b : mtlk_txmm_base_t :=
  match bl_que (block_of o b) with
  | MTLK_TXMMB_FREE => o
  | MTLK_TXMMB_QUEUED => _mtlk_txmm_free_buf o b true true
  | MTLK_TXMMB_SENT => _mtlk_txmm_free_buf o b true false
  | MTLK_TXMMB_NONE | MTLK_TXMMB_TIMED_OUT => _mtlk_txmm_free_buf o b false false
  end.

(** The result is the block whose [data] the caller receives. *)
Definition mtlk_txmm_msg_get_empty_data (vap : Z) o (m : Msg) : option nat * mtlk_txmm_base_t :=
  match tb_msgs o !! m with
  | None => let o := _mtlk_txmm_attach_data vap o m in (fst <$> tb_msgs o !! m, o)
  | Some _ => (None, o)                                       (* already in use *)
  end.

(** The caller filling [tx_data] through the pointer it received. *)
Definition fill_data o b (d : mtlk_txmm_data_t) : mtlk_txmm_base_t :=
  upd_block b (bl_set_data d) o.

Definition mtlk_txmm_msg_cancel o (m : Msg) : mtlk_txmm_base_t :=
  match tb_msgs o !! m with
  | Some (b, _) => let o := _mtlk_txmm_free o b in set_msgs (delete m (tb_msgs o)) o
  | None => o
  end.

(** [None]: the asserted [msg->data != NULL] fails. *)
Definition mtlk_txmm_msg_send o (m : Msg) (clb : Clb) (timeout_ms now : Z)
  : option (Z * mtlk_txmm_base_t) :=
  match tb_msgs o !! m with
  | Some (b, vap) =>
      let '(res, o) := _mtlk_txmm_send_ex vap o b clb timeout_ms now in
      Some (res, if res =? MTLK_ERR_OK then o else mtlk_txmm_msg_cancel o m)
  | None => None
  end.
End Txmm.
