(* ===== verification/TxmmInv.v ===== *)
(** * TxmmInv: the linkage invariant of the TXMM queues

    Every block records the queue and the array slot it sits in, and every
    occupied slot records its block.  [lnk] states that the two agree, while an
    operation may have one slot vacated (the hole) and one block in no queue
    (the detached block).  The file shows how each step of the queue code acts
    on [lnk] and on the lists the queues stand for. *)
From S2P Require Import Prelude TxmmRing Txmm.

Local Open Scope nat_scope.
#[local] Arguments Nat.eqb : simpl never.
#[local] Arguments Nat.leb : simpl never.
#[local] Arguments Nat.ltb : simpl never.

Abbreviation qat qs q := (qs !!! que_code q).

#[export] Instance que_code_inj : Inj (=) (=) que_code.
Proof. by intros [] []. Qed.

Lemma que_code_lt q : q <> MTLK_TXMMB_NONE -> que_code q < 4.
Proof. destruct q; simpl; try lia. done. Qed.

Lemma qat_insert (qs : list mtlk_txmm_que_t) q q' Q :
  length qs = 4 -> q <> MTLK_TXMMB_NONE ->
  qat (<[que_code q := Q]> qs) q' = if decide (q = q') then Q else qat qs q'.
Proof.
  intros Hlen Hq. pose proof (que_code_lt q Hq). case_decide as Hd.
  - subst q'. apply list_lookup_total_insert_eq. lia.
  - apply list_lookup_total_insert_ne. by intros ?%(inj que_code).
Qed.

Section TxmmInv.
Context {Msg : Type} {Clb : Type} {Slot : Type}.
Abbreviation block := (mtlk_txmm_block_t (Msg := Msg) (Clb := Clb) (Slot := Slot)).
Implicit Types (bs : list block) (qs : list mtlk_txmm_que_t) (q : mtlk_txmm_block_e) (b p : nat).

Definition lk bs b : option (mtlk_txmm_block_e * nat) :=
  (fun x => (bl_que x, bl_idx x)) <$> bs !! b.

Record lnk (n : nat) qs bs (h : option (mtlk_txmm_block_e * nat)) (x : option nat) : Prop := {
  l_qlen : length qs = 4;
  l_blen : length bs = n;
  l_wf q : q <> MTLK_TXMMB_NONE -> que_wf n (qat qs q);
  l_fwd q p : q <> MTLK_TXMMB_NONE -> active n (qat qs q) p -> Some (q, p) <> h ->
    lk bs (q_ptr (qat qs q) !!! p) = Some (q, p);
  l_bwd b q p : Some b <> x -> lk bs b = Some (q, p) -> q <> MTLK_TXMMB_NONE ->
    active n (qat qs q) p /\ q_ptr (qat qs q) !!! p = b /\ Some (q, p) <> h;
  l_det b q p : x = Some b -> q <> MTLK_TXMMB_NONE -> active n (qat qs q) p ->
    Some (q, p) <> h -> q_ptr (qat qs q) !!! p <> b;
}.

(** ** Changing blocks *)

Lemma lk_alter_ne bs b b' f : b <> b' -> lk (alter f b bs) b' = lk bs b'.
Proof. intros ?. unfold lk. by rewrite list_lookup_alter_ne. Qed.

Lemma lk_alter_eq bs b f :
  lk (alter f b bs) b = (fun x => (bl_que (f x), bl_idx (f x))) <$> bs !! b.
Proof. unfold lk. rewrite list_lookup_alter_eq, <-option_fmap_compose. done. Qed.

Lemma lk_alter_same bs b b' f :
  (forall x, bl_que (f x) = bl_que x) -> (forall x, bl_idx (f x) = bl_idx x) ->
  lk (alter f b bs) b' = lk bs b'.
Proof.
  intros Hq Hi. destruct (decide (b = b')) as [->|Hne]; [|by apply lk_alter_ne].
  rewrite lk_alter_eq. unfold lk. destruct (bs !! b') as [blk|]; simpl; [|done].
  by rewrite Hq, Hi.
Qed.

Lemma lnk_lk n qs bs bs' h x :
  length bs' = length bs -> (forall b, lk bs' b = lk bs b) ->
  lnk n qs bs h x -> lnk n qs bs' h x.
Proof.
  intros Hlen Hlk [Hq Hb Hw Hf Hbw Hd]. split; try done; [lia| |]; intros *; rewrite Hlk; eauto.
Qed.

(** What happens to the detached block does not matter. *)
Lemma lnk_upd_detached n qs bs b f :
  lnk n qs bs None (Some b) -> lnk n qs (alter f b bs) None (Some b).
Proof.
  intros [Hq Hb Hw Hf Hbw Hd]. split; try done.
  - by rewrite length_alter.
  - intros q p Hn Ha Hh. rewrite lk_alter_ne by (symmetry; by apply (Hd b q p)). by apply Hf.
  - intros b' q p Hx. rewrite lk_alter_ne by congruence. by apply Hbw.
Qed.

Lemma lnk_detached_none n qs bs b :
  lnk n qs bs None (Some b) -> fst <$> lk bs b = Some MTLK_TXMMB_NONE ->
  lnk n qs bs None None.
Proof.
  intros [Hq Hb Hw Hf Hbw Hd] Hn. split; try done.
  intros b' q p _ Hlk Hne. apply Hbw; [|done|done]. intros [= ->].
  rewrite Hlk in Hn. by injection Hn.
Qed.

Lemma lnk_none_detached n qs bs b :
  lnk n qs bs None None -> fst <$> lk bs b = Some MTLK_TXMMB_NONE ->
  lnk n qs bs None (Some b).
Proof.
  intros [Hq Hb Hw Hf Hbw Hd] Hn. split; try done.
  - intros b' q p _ Hlk Hne. by apply Hbw.
  - intros b' q p [= <-] Hne Ha Hh Hp. specialize (Hf q p Hne Ha Hh).
    rewrite Hp in Hf. rewrite Hf in Hn. by injection Hn.
Qed.

(** ** Holes *)

Lemma lnk_start_hole n qs bs q p :
  lnk n qs bs None None -> q <> MTLK_TXMMB_NONE -> active n (qat qs q) p ->
  lnk n qs bs (Some (q, p)) (Some (q_ptr (qat qs q) !!! p)).
Proof.
  intros [Hq Hb Hw Hf Hbw Hd] Hne Ha. split; try done.
  - intros q' p' Hn' Ha' _. by apply Hf.
  - intros b' q' p' Hx Hlk Hn'. destruct (Hbw b' q' p') as (Ha' & Hp' & _); [done..|].
    split_and!; [done..|]. congruence.
  - intros b' q' p' [= <-] Hn' Ha' Hh Heq.
    assert (lk bs (q_ptr (qat qs q') !!! p') = Some (q', p')) as H1 by (by apply Hf).
    assert (lk bs (q_ptr (qat qs q) !!! p) = Some (q, p)) as H2 by (by apply Hf).
    congruence.
Qed.

(** Filling the hole with the element of slot [p'], which becomes the hole. *)
Lemma lnk_move_hole n qs bs q p p' x :
  lnk n qs bs (Some (q, p)) (Some x) -> q <> MTLK_TXMMB_NONE ->
  active n (qat qs q) p -> active n (qat qs q) p' -> p' <> p ->
  let m := q_ptr (qat qs q) !!! p' in
  lnk n (<[que_code q := que_set (qat qs q) p m]> qs) (alter (bl_set_idx p) m bs)
      (Some (q, p')) (Some x).
Proof.
  intros [Hq Hb Hw Hf Hbw Hd] Hne Ha Ha' Hpp m.
  assert (lk bs m = Some (q, p')) as Hm by (apply Hf; [done..|congruence]).
  assert (m <> x) as Hmx by (apply (Hd x q p'); [done..|congruence]).
  assert (lk (alter (bl_set_idx p) m bs) m = Some (q, p)) as Hm'.
  { rewrite lk_alter_eq. unfold lk in Hm. destruct (bs !! m); simplify_eq/=. done. }
  assert (p < length (q_ptr (qat qs q))) as Hpl.
  { destruct Ha as [Hlt _]. by rewrite (qw_len _ _ (Hw q Hne)). }
  assert (forall q1 p1, Some (q1, p1) <> Some (q, p) ->
    q_ptr (qat (<[que_code q := que_set (qat qs q) p m]> qs) q1) !!! p1
    = q_ptr (qat qs q1) !!! p1) as Hptr.
  { intros q1 p1 Hn. rewrite qat_insert by done. case_decide; [|done]. subst q1. simpl.
    apply list_lookup_total_insert_ne. congruence. }
  assert (q_ptr (qat (<[que_code q := que_set (qat qs q) p m]> qs) q) !!! p = m) as Hptr'.
  { rewrite qat_insert, decide_True by done. simpl. by apply list_lookup_total_insert_eq. }
  assert (forall q1 p1, active n (qat (<[que_code q := que_set (qat qs q) p m]> qs) q1) p1
    <-> active n (qat qs q1) p1) as Hact.
  { intros q1 p1. rewrite qat_insert by done. by case_decide; subst. }
  split; [by rewrite length_insert|by rewrite length_alter| | | |].
  - intros q1 Hn. rewrite qat_insert by done. case_decide; [|auto].
    apply que_set_wf. auto.
  - intros q1 p1 Hn1 Ha1 Hh1. apply Hact in Ha1.
    destruct (decide (Some (q1, p1) = Some (q, p))) as [[= -> ->]|Hd1].
    + by rewrite Hptr'.
    + rewrite Hptr by done. rewrite lk_alter_ne; [by apply Hf|].
      intros Heq. assert (lk bs m = Some (q1, p1)) by (rewrite Heq; by apply Hf). congruence.
  - intros b1 q1 p1 Hx1 Hlk Hn1. rewrite Hact.
    destruct (decide (b1 = m)) as [->|Hbm].
    + rewrite Hm' in Hlk. injection Hlk as <- <-. split_and!; [done|done|congruence].
    + rewrite lk_alter_ne in Hlk by done. destruct (Hbw b1 q1 p1) as (? & ? & ?); [done..|].
      split_and!; [done|by rewrite Hptr|]. intros [= -> ->]. by apply Hbm.
  - intros b1 q1 p1 [= <-] Hn1 Ha1 Hh1. apply Hact in Ha1.
    destruct (decide (Some (q1, p1) = Some (q, p))) as [[= -> ->]|Hd1].
    + by rewrite Hptr'.
    + rewrite Hptr by done. by apply (Hd x).
Qed.

(** A hole at the head disappears with it. *)
Lemma lnk_pop_hole n qs bs q x :
  lnk n qs bs (Some (q, q_from (qat qs q))) x -> q <> MTLK_TXMMB_NONE ->
  0 < q_total (qat qs q) ->
  lnk n (<[que_code q := que_pop n (qat qs q)]> qs) bs None x.
Proof.
  intros [Hq Hb Hw Hf Hbw Hd] Hne Hpos.
  assert (forall q1 p1, q1 <> MTLK_TXMMB_NONE ->
    active n (qat (<[que_code q := que_pop n (qat qs q)]> qs) q1) p1
    <-> active n (qat qs q1) p1 /\ Some (q1, p1) <> Some (q, q_from (qat qs q))) as Hact.
  { intros q1 p1 Hn1. rewrite qat_insert by done. case_decide.
    - subst q1. rewrite que_pop_active by eauto. split; intros [? ?]; split; congruence.
    - split; [intros; split; [done|congruence] | by intros []]. }
  assert (forall q1, q_ptr (qat (<[que_code q := que_pop n (qat qs q)]> qs) q1)
    = q_ptr (qat qs q1)) as Hptr.
  { intros q1. rewrite qat_insert by done. case_decide; by subst. }
  split; [by rewrite length_insert|done| | | |].
  - intros q1 Hn. rewrite qat_insert by done. case_decide; [subst; apply que_pop_wf|]; auto.
  - intros q1 p1 Hn1 [Ha1 Hh1]%Hact _; [|done]. rewrite Hptr. by apply Hf.
  - intros b1 q1 p1 Hx Hlk Hn1. rewrite Hptr, Hact by done.
    destruct (Hbw b1 q1 p1) as (? & ? & ?); done.
  - intros b1 q1 p1 -> Hn1 [Ha1 Hh1]%Hact _; [|done]. rewrite Hptr. by apply (Hd b1).
Qed.

Lemma lnk_pop_head n qs bs q Q x :
  lnk n (<[que_code q := Q]> qs) bs (Some (q, q_from Q)) x -> q <> MTLK_TXMMB_NONE ->
  0 < q_total Q -> lnk n (<[que_code q := que_pop n Q]> qs) bs None x.
Proof.
  intros Hl Hne Hpos.
  assert (length qs = 4) as Hlen by (rewrite <-(length_insert qs (que_code q) Q); apply Hl).
  assert (qat (<[que_code q := Q]> qs) q = Q) as HQ by (by rewrite qat_insert, decide_True).
  pose proof (lnk_pop_hole n (<[que_code q := Q]> qs) bs q x) as Hp.
  rewrite HQ, list_insert_insert_eq in Hp. by apply Hp.
Qed.

Lemma qs_insert_id qs q : length qs = 4 -> q <> MTLK_TXMMB_NONE -> <[que_code q := qat qs q]> qs = qs.
Proof.
  intros Hl Hq. apply list_insert_id, list_lookup_lookup_total_lt. rewrite Hl. by apply que_code_lt.
Qed.

(** ** A queue holds no block twice *)

Lemma contents_NoDup n qs bs q :
  (forall p, active n (qat qs q) p -> lk bs (q_ptr (qat qs q) !!! p) = Some (q, p)) ->
  que_wf n (qat qs q) -> NoDup (contents n (qat qs q)).
Proof.
  intros Hf Hw. apply NoDup_alt. intros i j b Hi Hj.
  assert (i < q_total (qat qs q)) by (rewrite <-(contents_length n); by eapply lookup_lt_Some).
  assert (j < q_total (qat qs q)) by (rewrite <-(contents_length n); by eapply lookup_lt_Some).
  rewrite contents_lookup in Hi, Hj by done.
  pose proof (Hf _ (active_pos n _ i Hw ltac:(done))) as H1.
  pose proof (Hf _ (active_pos n _ j Hw ltac:(done))) as H2.
  assert (pos n (qat qs q) i = pos n (qat qs q) j) as Hp by congruence.
  rewrite <-(offset_pos n (qat qs q) i), <-(offset_pos n (qat qs q) j), Hp;
    destruct Hw; (done || lia).
Qed.

Lemma lnk_room n qs bs q b :
  lnk n qs bs None (Some b) -> q <> MTLK_TXMMB_NONE -> b < n -> q_total (qat qs q) < n.
Proof.
  intros [Hq Hb Hw Hf Hbw Hd] Hne Hbn.
  assert (NoDup (b :: contents n (qat qs q))) as Hnd.
  { apply NoDup_cons. split.
    - intros (p & Ha & Hp)%elem_of_contents; [|auto]. by eapply Hd.
    - eapply contents_NoDup; [|by apply Hw]. intros p Ha. by apply Hf. }
  assert (b :: contents n (qat qs q) ⊆ seq 0 n) as Hsub.
  { intros y [->|(p & Ha & <-)%elem_of_contents]%elem_of_cons; [by apply elem_of_seq; lia| |auto].
    apply elem_of_seq. assert (is_Some (lk bs (q_ptr (qat qs q) !!! p))) as [v Hv]
      by (rewrite Hf by done; eauto).
    unfold lk in Hv. apply fmap_Some in Hv as (blk & Hblk & _).
    apply lookup_lt_Some in Hblk. lia. }
  pose proof (submseteq_length _ _ (NoDup_submseteq _ _ Hnd Hsub)) as Hlen.
  simpl in Hlen. rewrite contents_length, length_seq in Hlen. lia.
Qed.

(** ** Appending a detached block *)

Lemma lnk_push n qs bs q b :
  lnk n qs bs None (Some b) -> q <> MTLK_TXMMB_NONE -> b < n ->
  lnk n (<[que_code q := que_push n (qat qs q) b]> qs)
        (alter (bl_set_link q (q_to (qat qs q))) b bs) None None.
Proof.
  intros Hl Hne Hbn. pose proof (lnk_room _ _ _ _ _ Hl Hne Hbn) as Hroom.
  destruct Hl as [Hq Hb Hw Hf Hbw Hd].
  assert (lk (alter (bl_set_link q (q_to (qat qs q))) b bs) b = Some (q, q_to (qat qs q))) as Hlb.
  { rewrite lk_alter_eq. destruct (lookup_lt_is_Some_2 bs b) as [blk ->]; [lia|done]. }
  assert (forall q1 p1, q1 <> MTLK_TXMMB_NONE ->
    active n (qat (<[que_code q := que_push n (qat qs q) b]> qs) q1) p1
    <-> active n (qat qs q1) p1 \/ (q1, p1) = (q, q_to (qat qs q))) as Hact.
  { intros q1 p1 Hn1. rewrite qat_insert by done. case_decide.
    - subst q1. rewrite que_push_active by auto. split; (intros [?|?]; [auto|right; congruence]).
    - split; [auto|]. intros [?|[= -> ->]]; [done|congruence]. }
  assert (forall q1 p1, q1 <> MTLK_TXMMB_NONE -> active n (qat qs q1) p1 ->
    q_ptr (qat (<[que_code q := que_push n (qat qs q) b]> qs) q1) !!! p1
    = q_ptr (qat qs q1) !!! p1) as Hptr.
  { intros q1 p1 Hn1 Ha. rewrite qat_insert by done. case_decide; [|done]. subst q1.
    by apply que_push_ptr; auto. }
  assert (q_ptr (qat (<[que_code q := que_push n (qat qs q) b]> qs) q) !!! q_to (qat qs q) = b) as Hnew.
  { rewrite qat_insert, decide_True by done. simpl. apply list_lookup_total_insert_eq.
    rewrite (qw_len _ _ (Hw q Hne)). apply que_to_lt. auto. }
  split; [by rewrite length_insert|by rewrite length_alter| | | |done].
  - intros q1 Hn1. rewrite qat_insert by done. case_decide; [apply que_push_wf|]; auto.
  - intros q1 p1 Hn1 [Ha|[= -> ->]]%Hact _; [|by rewrite Hnew|done].
    rewrite Hptr by done. rewrite lk_alter_ne; [by apply Hf|].
    intros Heq. by apply (Hd b q1 p1).
  - intros b1 q1 p1 _ Hlk Hn1. rewrite Hact by done. destruct (decide (b1 = b)) as [->|Hbb].
    + rewrite Hlb in Hlk. injection Hlk as <- <-. split_and!; auto.
    + rewrite lk_alter_ne in Hlk by done. destruct (Hbw b1 q1 p1) as (Ha & Hp & _); [congruence|done..|].
      split_and!; [by left|by rewrite Hptr|done].
Qed.

(** ** The order preserving deletion moves the hole to the head *)

Lemma lk_set_idx_strip bs m p b :
  bl_set_idx 0 <$> alter (bl_set_idx p) m bs !! b = bl_set_idx 0 <$> bs !! b.
Proof.
  destruct (decide (m = b)) as [->|Hne]; [|by rewrite list_lookup_alter_ne].
  rewrite list_lookup_alter_eq. by destruct (bs !! b).
Qed.

Lemma shift_loop_spec fuel n qs bs q i x :
  lnk n qs bs (Some (q, i)) (Some x) -> q <> MTLK_TXMMB_NONE -> active n (qat qs q) i ->
  offset n (q_from (qat qs q)) i <= fuel ->
  let r := shift_loop fuel n (q_from (qat qs q)) i (q_ptr (qat qs q)) bs in
  r.1 = shift_ptr fuel n (q_from (qat qs q)) i (q_ptr (qat qs q)) /\
  (forall b, bl_set_idx 0 <$> r.2 !! b = bl_set_idx 0 <$> bs !! b) /\
  lnk n (<[que_code q := Que r.1 (q_from (qat qs q)) (q_to (qat qs q)) (q_total (qat qs q))]> qs)
      r.2 (Some (q, q_from (qat qs q))) (Some x).
Proof.
  revert qs bs i. induction fuel as [|fuel IH]; intros qs bs i Hl Hne Ha Hfuel;
    pose proof (l_wf _ _ _ _ _ Hl q Hne) as [Hw1 Hw2 Hw3 Hw4].
  all: assert (Hself : forall Q : mtlk_txmm_que_t,
    Que (q_ptr Q) (q_from Q) (q_to Q) (q_total Q) = Q) by (by intros []).
  all: pose proof (qs_insert_id qs q (l_qlen _ _ _ _ _ Hl) Hne) as Hid.
  all: pose proof (offset_zero n (q_from (qat qs q)) i Hw2 (proj1 Ha)) as Hz.
  - simpl. rewrite Hself, Hid. split_and!; [done..|].
    replace (q_from (qat qs q)) with i by (apply Hz; lia). done.
  - simpl. destruct (Nat.eqb_spec i (q_from (qat qs q))) as [->|Hif].
    + simpl. rewrite Hself, Hid. done.
    + set (prev := dec_wrap_idx i n). set (m := q_ptr (qat qs q) !!! prev).
      assert (active n (qat qs q) prev /\ prev <> i /\
        offset n (q_from (qat qs q)) prev <= fuel) as (Hap & Hpi & Hpf).
      { destruct Ha as [Hin Hit]. pose proof (dec_wrap_offset n _ _ Hw2 Hin Hif).
        split_and!; [split; [by apply dec_wrap_lt|unfold prev; lia]|unfold prev; ring_arith
                    |unfold prev; lia]. }
      pose proof (lnk_move_hole n qs bs q i prev x Hl Hne Ha Hap Hpi) as Hl'.
      assert (qat (<[que_code q := que_set (qat qs q) i m]> qs) q = que_set (qat qs q) i m) as Hq'.
      { rewrite qat_insert, decide_True by eauto using l_qlen. done. }
      specialize (IH _ _ prev Hl' Hne). fold m in IH. rewrite Hq' in IH.
      destruct IH as (IH1 & IH2 & IH3); [done|done|]. simpl in IH1, IH2, IH3.
      split_and!; [done| |].
      * intros b. rewrite IH2. apply lk_set_idx_strip.
      * by rewrite list_insert_insert_eq in IH3.
Qed.
End TxmmInv.
