(* ===== verification/TxmmOps.v ===== *)
(** * TxmmOps: what the TXMM queue operations do

    Each operation of [Txmm] that touches the queues, as a step on the lists
    the four queues stand for, together with the part of the state it leaves
    alone.  [olnk] is the linkage invariant of [TxmmInv] on a whole state. *)
From S2P Require Import Prelude TxmmRing Txmm TxmmInv.

Local Open Scope nat_scope.
#[local] Arguments Nat.eqb : simpl never.
#[local] Arguments Nat.leb : simpl never.
#[local] Arguments Nat.ltb : simpl never.

(** Deleting the [k]-th element: in order, or by moving the head into its place. *)
Definition del_list (preserve_order : bool) (k : nat) (l : list nat) : list nat :=
  if preserve_order then delete k l else tail (<[k := l !!! 0]> l).

(** What becomes of the elements before the deleted one. *)
Definition del_pre (preserve_order : bool) (pre : list nat) : list nat :=
  if preserve_order then pre else tail pre ++ take 1 pre.

Lemma del_list_mid order pre b post :
  del_list order (length pre) (pre ++ b :: post) = del_pre order pre ++ post.
Proof.
  destruct order; simpl.
  - rewrite delete_middle. done.
  - destruct pre as [|a pre]; simpl; [done|].
    rewrite insert_app_r_alt, Nat.sub_diag by done. simpl. by rewrite <-(assoc_L (++)).
Qed.

Lemma del_pre_perm order pre : del_pre order pre ≡ₚ pre.
Proof.
  destruct order; simpl; [done|]. destruct pre as [|a pre]; simpl; [done|].
  symmetry. apply Permutation_cons_append.
Qed.

Lemma del_list_perm order k b l : l !! k = Some b -> l ≡ₚ b :: del_list order k l.
Proof.
  intros Hk. rewrite <-(take_drop_middle l k b Hk) at 1 2.
  assert (k = length (take k l)) as Hlen.
  { rewrite length_take. apply lookup_lt_Some in Hk. lia. }
  rewrite Hlen at 3. rewrite del_list_mid, del_pre_perm. by rewrite Permutation_middle.
Qed.

Section TxmmOps.
Context {Msg : Type} `{Countable Msg} {Clb : Type} {Slot : Type} `{EqDecision Slot} {Pool : Type}.
Abbreviation block := (mtlk_txmm_block_t (Msg := Msg) (Clb := Clb) (Slot := Slot)).
Abbreviation base := (mtlk_txmm_base_t (Msg := Msg) (Clb := Clb) (Slot := Slot) (Pool := Pool)).
Implicit Types (o : base) (bs : list block) (q : mtlk_txmm_block_e) (b p : nat).

Definition olnk (x : option nat) o : Prop :=
  0 < tb_max_msgs o /\ lnk (tb_max_msgs o) (tb_ques o) (tb_blocks o) None x.

(** The blocks in a queue, oldest first. *)
Definition cont o q : list nat := contents (tb_max_msgs o) (que_of o q).

Definition olk o b := lk (tb_blocks o) b.

(** Only queues and blocks may differ. *)
Definition links_only o o' : Prop := o' = set_links (tb_ques o') (tb_blocks o') o.

#[export] Instance links_only_preorder : PreOrder links_only.
Proof.
  unfold links_only, set_links. split; [by intros []; simpl|].
  intros [] [] []. simpl. intros H1 H2. injection H1; injection H2. congruence.
Qed.

Lemma olk_Some o b q p :
  olk o b = Some (q, p) <->
  exists blk, tb_blocks o !! b = Some blk /\ bl_que blk = q /\ bl_idx blk = p.
Proof.
  unfold olk, lk. rewrite fmap_Some. split; intros (blk & Hb & Hq).
  - simplify_eq. eauto.
  - destruct Hq as [<- <-]. eauto.
Qed.

Lemma olnk_lt x o b v : olnk x o -> olk o b = Some v -> b < tb_max_msgs o.
Proof.
  intros [_ Hl] Hb. destruct v as [q p]. apply olk_Some in Hb as (blk & Hb & _).
  rewrite <-(l_blen _ _ _ _ _ Hl). by eapply lookup_lt_Some.
Qed.

Lemma valid_que_true x o q : olnk x o -> q <> MTLK_TXMMB_NONE -> valid_que o q = true.
Proof.
  intros [_ Hl] Hq. unfold valid_que. rewrite (l_qlen _ _ _ _ _ Hl).
  apply Nat.ltb_lt. by apply que_code_lt.
Qed.

Lemma valid_que_none x o : olnk x o -> valid_que o MTLK_TXMMB_NONE = false.
Proof. intros [_ Hl]. unfold valid_que. by rewrite (l_qlen _ _ _ _ _ Hl). Qed.

Lemma olnk_wf x o q : olnk x o -> q <> MTLK_TXMMB_NONE -> que_wf (tb_max_msgs o) (que_of o q).
Proof. intros [_ Hl] Hq. by apply (l_wf _ _ _ _ _ Hl). Qed.

(** An element of a queue is a block that says so. *)
Lemma elem_of_cont o q b :
  olnk None o -> q <> MTLK_TXMMB_NONE -> b ∈ cont o q <-> exists p, olk o b = Some (q, p).
Proof.
  intros [Hn Hl] Hq. unfold cont, que_of. rewrite elem_of_contents by (by apply (l_wf _ _ _ _ _ Hl)).
  split.
  - intros (p & Ha & <-). exists p. by apply (l_fwd _ _ _ _ _ Hl).
  - intros [p Hb]. exists p. destruct (l_bwd _ _ _ _ _ Hl b q p) as (Ha & Hp & _); done.
Qed.

Lemma cont_NoDup o q x : olnk x o -> q <> MTLK_TXMMB_NONE -> NoDup (cont o q).
Proof.
  intros [Hn Hl] Hq. eapply contents_NoDup; [|by apply (l_wf _ _ _ _ _ Hl)].
  intros p Ha. by apply (l_fwd _ _ _ _ _ Hl).
Qed.

(** ** Removing a block from its queue *)

Record del_post o q b i (order : bool) o' : Prop := {
  dp_frame : links_only o o';
  dp_lnk : olnk (Some b) o';
  dp_blocks b' : bl_set_idx 0 <$> tb_blocks o' !! b' =
                 bl_set_idx 0 <$> alter (bl_set_que MTLK_TXMMB_NONE) b (tb_blocks o) !! b';
  dp_cont : cont o' q = del_list order (offset (tb_max_msgs o) (q_from (que_of o q)) i) (cont o q);
  dp_from : q_from (que_of o' q) = INC_WRAP_IDX (q_from (que_of o q)) (tb_max_msgs o);
  dp_to : q_to (que_of o' q) = q_to (que_of o q);
  dp_other q' : q' <> q -> que_of o' q' = que_of o q';
}.

(** Common end of the three ways to delete: the hole is at the head of the
    rearranged queue [Q], which is popped. *)
Lemma del_finish o q b i order Q bs :
  olnk None o -> q <> MTLK_TXMMB_NONE ->
  lnk (tb_max_msgs o) (<[que_code q := Q]> (tb_ques o)) bs (Some (q, q_from Q)) (Some b) ->
  0 < q_total Q -> q_from Q = q_from (que_of o q) -> q_to Q = q_to (que_of o q) ->
  (forall b', bl_set_idx 0 <$> bs !! b' = bl_set_idx 0 <$> tb_blocks o !! b') ->
  contents (tb_max_msgs o) (que_pop (tb_max_msgs o) Q)
    = del_list order (offset (tb_max_msgs o) (q_from (que_of o q)) i) (cont o q) ->
  del_post o q b i order
    (set_links (<[que_code q := que_pop (tb_max_msgs o) Q]> (tb_ques o))
               (alter (bl_set_que MTLK_TXMMB_NONE) b bs) o).
Proof.
  intros [Hn Hl] Hq Hh Hpos Hf Ht Hbs Hc. set (o' := set_links _ _ o).
  assert (forall q', que_of o' q' = if decide (q = q') then que_pop (tb_max_msgs o) Q else que_of o q') as Hqo.
  { intros q'. unfold que_of at 1, o'. simpl. by rewrite qat_insert by eauto using l_qlen. }
  split.
  - done.
  - split; [done|]. simpl. apply lnk_upd_detached. by apply lnk_pop_head.
  - intros b'. simpl. destruct (decide (b = b')) as [<-|Hne].
    + rewrite !list_lookup_alter_eq. specialize (Hbs b).
      destruct (bs !! b) as [[]|], (tb_blocks o !! b) as [[]|]; by simplify_eq/=.
    + rewrite !list_lookup_alter_ne by done. apply Hbs.
  - unfold cont at 1. rewrite Hqo, decide_True by done. exact Hc.
  - rewrite Hqo, decide_True by done. simpl. by rewrite Hf.
  - rewrite Hqo, decide_True by done. done.
  - intros q' Hne. rewrite Hqo, decide_False by done. done.
Qed.

Lemma del_buf_spec o q b i order :
  olnk None o -> q <> MTLK_TXMMB_NONE -> olk o b = Some (q, i) ->
  let r := _mtlk_txmm_del_buf_from_que o q b order in
  r.1 = 0%Z /\ del_post o q b i order r.2.
Proof.
  intros Ho Hq Hb. pose proof Ho as [Hn Hl]. pose proof Hb as (blk & Hblk & Hbq & Hbi)%olk_Some.
  destruct (l_bwd _ _ _ _ _ Hl b q i ltac:(done) Hb Hq) as (Ha & Hp & _).
  pose proof (olnk_wf _ _ _ Ho Hq) as Hw. fold (que_of o q) in Ha, Hp.
  assert (0 < q_total (que_of o q)) as Hpos by (destruct Ha; lia).
  pose proof (lnk_start_hole _ _ _ _ _ Hl Hq Ha) as Hh. fold (que_of o q) in Hh. rewrite Hp in Hh.
  unfold _mtlk_txmm_del_buf_from_que. rewrite (valid_que_true _ _ _ Ho Hq).
  assert (bl_idx (block_of o b) = i) as ->.
  { unfold block_of. by rewrite (list_lookup_total_correct _ _ _ Hblk). }
  rewrite (proj2 (Nat.eqb_eq _ _) Hp).
  destruct (Nat.eqb_spec i (q_from (que_of o q))) as [Hif|Hif]; [|destruct order].
  - split; [done|]. replace (Que _ _ _ _) with (que_of o q) by (by destruct (que_of o q)).
    apply del_finish; [done..| |done|done|done|done|].
    + rewrite <-Hif. unfold que_of. rewrite qs_insert_id; [done|apply Hl|done].
    + rewrite <-Hif. replace (offset _ _ _) with 0 by ring_arith.
      unfold cont. rewrite (que_pop_contents _ _ Hw Hpos). by destruct order.
  - pose proof (shift_loop_spec (tb_max_msgs o) _ _ _ _ _ _ Hh Hq Ha) as Hs.
    fold (que_of o q) in Hs. destruct (shift_loop _ _ _ _ _ _) as [ptr bs]. simpl in Hs.
    destruct Hs as (-> & Hs2 & Hs3).
    { destruct Ha. pose proof (offset_lt (tb_max_msgs o) (q_from (que_of o q)) i (qw_from _ _ Hw)). lia. }
    split; [done|]. apply del_finish; try done. exact (que_shift_pop_contents _ _ _ Hw Ha).
  - split; [done|].
    assert (active (tb_max_msgs o) (que_of o q) (q_from (que_of o q))) as Haf.
    { split; [by apply Hw|]. ring_arith. }
    pose proof (lnk_move_hole _ _ _ _ i _ b Hh Hq Ha Haf ltac:(done)) as Hm. fold (que_of o q) in Hm.
    apply del_finish; try done; [intros b'; apply lk_set_idx_strip|].
    pose proof (que_pop_contents _ _ (que_set_wf _ _ i (q_ptr (que_of o q) !!! q_from (que_of o q)) Hw) Hpos) as Hc.
    rewrite que_set_contents in Hc by done. unfold del_list, cont.
    replace (contents (tb_max_msgs o) (que_of o q) !!! 0)
      with (q_ptr (que_of o q) !!! q_from (que_of o q)); [by rewrite Hc|].
    by rewrite (que_pop_contents _ _ Hw Hpos).
Qed.

(** ** Inserting a detached block, and taking the head *)

Record put_post o q b o' : Prop := {
  pp_frame : links_only o o';
  pp_lnk : olnk None o';
  pp_blocks : tb_blocks o' = alter (bl_set_link q (q_to (que_of o q))) b (tb_blocks o);
  pp_cont : cont o' q = cont o q ++ [b];
  pp_from : q_from (que_of o' q) = q_from (que_of o q);
  pp_total : q_total (que_of o' q) = S (q_total (que_of o q));
  pp_other q' : q' <> q -> que_of o' q' = que_of o q';
}.

Lemma put_buf_spec o q b :
  olnk (Some b) o -> q <> MTLK_TXMMB_NONE -> b < tb_max_msgs o ->
  put_post o q b (_mtlk_txmm_put_buf o q b).
Proof.
  intros Ho Hq Hb. pose proof Ho as [Hn Hl].
  unfold _mtlk_txmm_put_buf. rewrite (valid_que_true _ _ _ Ho Hq).
  set (o' := set_que _ _ _).
  assert (forall q', que_of o' q' =
    if decide (q = q') then que_push (tb_max_msgs o) (que_of o q) b else que_of o q') as Hqo.
  { intros q'. unfold que_of at 1, o'. simpl. by rewrite qat_insert by eauto using l_qlen. }
  split.
  - done.
  - split; [done|]. simpl. by apply lnk_push.
  - done.
  - unfold cont at 1. rewrite Hqo, decide_True by done. simpl.
    apply que_push_contents; [by apply (olnk_wf _ _ _ Ho)|]. by eapply lnk_room.
  - by rewrite Hqo, decide_True.
  - by rewrite Hqo, decide_True.
  - intros q' Hne. by rewrite Hqo, decide_False.
Qed.

Record get_post o q b rest o' : Prop := {
  gp_frame : links_only o o';
  gp_lnk : olnk (Some b) o';
  gp_blocks : tb_blocks o' = tb_blocks o;
  gp_cont : cont o' q = rest;
  gp_other q' : q' <> q -> que_of o' q' = que_of o q';
}.

Lemma cont_nil_total o q : cont o q = [] <-> q_total (que_of o q) = 0.
Proof. unfold cont. rewrite <-length_zero_iff_nil, contents_length. done. Qed.

Lemma get_buf_nil o q : cont o q = [] -> _mtlk_txmm_get_buf o q = (None, o).
Proof.
  intros Hc%cont_nil_total. unfold _mtlk_txmm_get_buf. rewrite Hc. by case_match.
Qed.

Lemma que_from_active o q x : olnk x o -> q <> MTLK_TXMMB_NONE ->
  q_total (que_of o q) <> 0 -> active (tb_max_msgs o) (que_of o q) (q_from (que_of o q)).
Proof. intros Ho Hq Ht. pose proof (olnk_wf _ _ _ Ho Hq) as []. split; [done|]. ring_arith. Qed.

Lemma cont_cons_head o q x b rest :
  olnk x o -> q <> MTLK_TXMMB_NONE -> cont o q = b :: rest ->
  0 < q_total (que_of o q) /\ q_ptr (que_of o q) !!! q_from (que_of o q) = b /\
  contents (tb_max_msgs o) (que_pop (tb_max_msgs o) (que_of o q)) = rest.
Proof.
  intros Ho Hq Hc. assert (q_total (que_of o q) <> 0) as Ht by (rewrite <-cont_nil_total, Hc; done).
  unfold cont in Hc. rewrite que_pop_contents in Hc; [|by apply (olnk_wf _ _ _ Ho)|lia].
  injection Hc as <- <-. split; [lia|done].
Qed.

Lemma get_buf_cons o q b rest :
  olnk None o -> q <> MTLK_TXMMB_NONE -> cont o q = b :: rest ->
  exists o', _mtlk_txmm_get_buf o q = (Some b, o') /\ get_post o q b rest o'.
Proof.
  intros Ho Hq Hc. destruct (cont_cons_head _ _ _ _ _ Ho Hq Hc) as (Ht & <- & Hr).
  unfold _mtlk_txmm_get_buf. rewrite (valid_que_true _ _ _ Ho Hq).
  destruct (Nat.eqb_spec (q_total (que_of o q)) 0); [lia|]. eexists. split; [done|].
  set (o' := set_que _ _ _). pose proof Ho as [Hn Hl].
  assert (forall q', que_of o' q' =
    if decide (q = q') then que_pop (tb_max_msgs o) (que_of o q) else que_of o q') as Hqo.
  { intros q'. unfold que_of at 1, o'. simpl. by rewrite qat_insert by eauto using l_qlen. }
  split.
  - done.
  - split; [done|]. apply lnk_pop_hole; [|done|exact Ht].
    apply lnk_start_hole; [done..|]. by apply (que_from_active o q None); [..|lia].
  - done.
  - unfold cont. rewrite Hqo, decide_True by done. exact Hr.
  - intros q' Hne. by rewrite Hqo, decide_False.
Qed.

(** ** Updating a block in place *)

Lemma olnk_upd_detached o b f : olnk (Some b) o -> olnk (Some b) (upd_block b f o).
Proof. intros [Hn Hl]. split; [done|]. by apply lnk_upd_detached. Qed.

Lemma olnk_upd_same o x b f :
  (forall k, bl_que (f k) = bl_que k) -> (forall k, bl_idx (f k) = bl_idx k) ->
  olnk x o -> olnk x (upd_block b f o).
Proof.
  intros Hq Hi [Hn Hl]. split; [done|]. eapply lnk_lk, Hl; [apply length_alter|].
  intros b'. simpl. by apply lk_alter_same.
Qed.

Lemma olnk_attach o b :
  olnk (Some b) o -> fst <$> olk o b = Some MTLK_TXMMB_NONE -> olnk None o.
Proof. intros [Hn Hl] Hb. split; [done|]. by apply (lnk_detached_none _ _ _ b). Qed.

Lemma olnk_detach o b :
  olnk None o -> fst <$> olk o b = Some MTLK_TXMMB_NONE -> olnk (Some b) o.
Proof. intros [Hn Hl] Hb. split; [done|]. by apply (lnk_none_detached _ _ _ b). Qed.

Lemma olnk_block_lt o x b blk : olnk x o -> tb_blocks o !! b = Some blk -> b < tb_max_msgs o.
Proof. intros [_ Hl] Hb. rewrite <-(l_blen _ _ _ _ _ Hl). by eapply lookup_lt_Some. Qed.

(** ** Freeing a block *)

Record free_post o b o' : Prop := {
  fp_frame : links_only o o';
  fp_lnk : olnk None o';
  fp_cont : cont o' MTLK_TXMMB_FREE = cont o MTLK_TXMMB_FREE ++ [b];
  fp_blocks b' : bl_set_idx 0 <$> tb_blocks o' !! b' =
    bl_set_idx 0 <$> alter _mtlk_txmm_zero_block b (tb_blocks o) !! b';
}.

Lemma free_detached o b :
  olnk (Some b) o -> b < tb_max_msgs o ->
  let o' := _mtlk_txmm_put_buf (upd_block b _mtlk_txmm_zero_block o) MTLK_TXMMB_FREE b in
  free_post o b o' /\ (forall q, q <> MTLK_TXMMB_FREE -> que_of o' q = que_of o q).
Proof.
  intros Ho Hb o'.
  assert (put_post (upd_block b _mtlk_txmm_zero_block o) MTLK_TXMMB_FREE b o') as [Hf Hl Hbl Hc _ _ Ho'].
  { apply put_buf_spec; [by apply olnk_upd_detached|done|done]. }
  split; [split|].
  - rewrite Hf. done.
  - done.
  - done.
  - intros b'. rewrite Hbl. simpl. destruct (decide (b = b')) as [<-|Hne].
    + rewrite !list_lookup_alter_eq. by destruct (tb_blocks o !! b).
    + by rewrite !list_lookup_alter_ne.
  - intros q Hq. by rewrite Ho'.
Qed.

Lemma free_buf_detached o b blk :
  olnk (Some b) o -> tb_blocks o !! b = Some blk -> bl_que blk <> MTLK_TXMMB_FREE ->
  forall order,
  free_post o b (_mtlk_txmm_free_buf o b false order) /\
  (forall q, q <> MTLK_TXMMB_FREE -> que_of (_mtlk_txmm_free_buf o b false order) q = que_of o q).
Proof.
  intros Ho Hb Hq order. unfold _mtlk_txmm_free_buf, block_of.
  rewrite (list_lookup_total_correct _ _ _ Hb), decide_False by done.
  apply free_detached; [done|]. by eapply olnk_block_lt.
Qed.

Lemma free_buf_queued o q b i order :
  olnk None o -> q <> MTLK_TXMMB_NONE -> q <> MTLK_TXMMB_FREE -> olk o b = Some (q, i) ->
  let o' := _mtlk_txmm_free_buf o b true order in
  free_post o b o' /\
  cont o' q = del_list order (offset (tb_max_msgs o) (q_from (que_of o q)) i) (cont o q) /\
  (forall q', q' <> q -> q' <> MTLK_TXMMB_FREE -> que_of o' q' = que_of o q').
Proof.
  intros Ho Hq Hqf Hb. pose proof Hb as (blk & Hblk & Hbq & Hbi)%olk_Some.
  unfold _mtlk_txmm_free_buf, block_of.
  rewrite (list_lookup_total_correct _ _ _ Hblk), Hbq, decide_False by done.
  destruct (del_buf_spec o q b i order Ho Hq Hb) as [_ Hd].
  set (o1 := (_mtlk_txmm_del_buf_from_que o q b order).2) in *.
  destruct Hd as [Df Dl Dbl Dc _ _ Dother].
  assert (tb_max_msgs o1 = tb_max_msgs o) as Hm by (by rewrite Df).
  destruct (free_detached o1 b Dl) as [[Ff Fl Fc Fb] Fo].
  { rewrite Hm. by eapply olnk_block_lt. }
  set (o2 := _mtlk_txmm_put_buf _ _ _) in *.
  assert (tb_max_msgs o2 = tb_max_msgs o1) as Hm2 by (by rewrite Ff).
  split; [split|split].
  - by transitivity o1.
  - done.
  - rewrite Fc. f_equal. unfold cont. by rewrite Hm, Dother.
  - intros b'. rewrite Fb. destruct (decide (b = b')) as [<-|Hne].
    + rewrite !list_lookup_alter_eq. specialize (Dbl b). rewrite list_lookup_alter_eq in Dbl.
      destruct (tb_blocks o1 !! b) as [[]|], (tb_blocks o !! b) as [[]|]; by simplify_eq/=.
    + specialize (Dbl b'). by rewrite !list_lookup_alter_ne in * by done.
  - rewrite <-Dc. unfold cont. by rewrite Hm2, Fo.
  - intros q' Hq1 Hq2. by rewrite Fo, Dother.
Qed.
End TxmmOps.
