(* ===== verification/TxmmSafe.v ===== *)
(** * TxmmSafe: the TXMM state machine and its invariant

    The critical sections of txmm.c as the steps of a transition system: calls
    of the message API, the pump, and the separate sections in which a
    confirmation or a timeout takes a block out of its queue and later delivers
    it to the user.  [F] lists the blocks taken out and not yet delivered. *)
From S2P Require Import Prelude TxmmRing Txmm TxmmInv TxmmOps.

Local Open Scope nat_scope.
#[local] Arguments Nat.eqb : simpl never.
#[local] Arguments Nat.leb : simpl never.
#[local] Arguments Nat.ltb : simpl never.

(** The queues a block waits in with a request attached. *)
Definition waiting (q : mtlk_txmm_block_e) : Prop :=
  q = MTLK_TXMMB_QUEUED \/ q = MTLK_TXMMB_SENT \/ q = MTLK_TXMMB_TIMED_OUT.

Section TxmmSafe.
Context {Msg : Type} `{Countable Msg} {Clb : Type} {Slot : Type} `{EqDecision Slot} {Pool : Type}.
Context (msg_get_from_pool : Pool -> option Slot * Pool).
Context (msg_free_to_pool : Slot -> Pool -> Pool).
Context (run_clb : Clb -> mtlk_txmm_data_t -> mtlk_txmm_clb_reason_e ->
                   mtlk_txmm_clb_action_e * mtlk_txmm_data_t).
Abbreviation block := (mtlk_txmm_block_t (Msg := Msg) (Clb := Clb) (Slot := Slot)).
Abbreviation base := (mtlk_txmm_base_t (Msg := Msg) (Clb := Clb) (Slot := Slot) (Pool := Pool)).
Implicit Types (o : base) (bs : list block) (k : block) (q : mtlk_txmm_block_e) (b p : nat).

(** Message objects and blocks in use name each other. *)
Record binv o : Prop := {
  bi_msg m b v : tb_msgs o !! m = Some (b, v) ->
    exists k, tb_blocks o !! b = Some k /\ bl_que k <> MTLK_TXMMB_FREE /\ bl_msg k = Some m;
  bi_blk b k : tb_blocks o !! b = Some k -> bl_que k <> MTLK_TXMMB_FREE ->
    exists m v, bl_msg k = Some m /\ tb_msgs o !! m = Some (b, v);
  bi_clb b k : tb_blocks o !! b = Some k -> waiting (bl_que k) -> is_Some (bl_clb k);
}.

Definition in_flight o b : Prop :=
  exists k, tb_blocks o !! b = Some k /\ bl_que k = MTLK_TXMMB_NONE /\ is_Some (bl_clb k).

Record txmm_inv o (F : list nat) : Prop := {
  ti_lnk : olnk None o;
  ti_binv : binv o;
  ti_nodup : NoDup F;
  ti_flight b : b ∈ F -> in_flight o b;
}.

(** ** Steps that neither allocate nor free *)

Definition blk_rel k k' : Prop :=
  (bl_que k' = MTLK_TXMMB_FREE <-> bl_que k = MTLK_TXMMB_FREE) /\
  bl_msg k' = bl_msg k /\ (is_Some (bl_clb k) -> is_Some (bl_clb k')) /\
  (waiting (bl_que k') -> waiting (bl_que k) \/ is_Some (bl_clb k')).

#[export] Instance blk_rel_preorder : PreOrder blk_rel.
Proof.
  split; unfold blk_rel; [intros k; split_and!; [done..|by left]|].
  intros k1 k2 k3 (A1 & B1 & C1 & D1) (A2 & B2 & C2 & D2).
  split_and!; [by rewrite A2|congruence|auto|]. intros [?|?]%D2; [|auto].
  destruct D1; auto.
Qed.

Definition blks_rel bs bs' : Prop := forall b, option_Forall2 blk_rel (bs !! b) (bs' !! b).

#[export] Instance blks_rel_preorder : PreOrder blks_rel.
Proof.
  split.
  - intros bs b. reflexivity.
  - intros b1 b2 b3 H1 H2 b. by transitivity (b2 !! b).
Qed.

Lemma binv_rel o o' :
  blks_rel (tb_blocks o) (tb_blocks o') -> tb_msgs o' = tb_msgs o -> binv o -> binv o'.
Proof.
  intros Hr Hm [B1 B2 B3]. split; rewrite ?Hm.
  - intros m b v Hb. destruct (B1 m b v Hb) as (k & Hk & Hq & Hkm). specialize (Hr b).
    rewrite Hk in Hr. inversion Hr as [? k' (R1 & R2 & _) Hk1 Hk2|]; subst.
    exists k'. split_and!; [done|by rewrite R1|congruence].
  - intros b k' Hk' Hq. specialize (Hr b). rewrite Hk' in Hr.
    inversion Hr as [k ? (R1 & R2 & _) Hk1 Hk2|]; subst.
    rewrite R2. apply (B2 b k); [done|by rewrite <-R1].
  - intros b k' Hk' Hw. specialize (Hr b). rewrite Hk' in Hr.
    inversion Hr as [k ? (_ & _ & R3 & R4) Hk1 Hk2|]; subst.
    destruct (R4 Hw) as [?|?]; [|done]. apply R3. by apply (B3 b).
Qed.

Lemma blks_rel_alter b f bs :
  (forall k, bs !! b = Some k -> blk_rel k (f k)) -> blks_rel bs (alter f b bs).
Proof.
  intros Hf b'. destruct (decide (b = b')) as [->|Hne].
  - rewrite list_lookup_alter_eq. destruct (bs !! b'); constructor. auto.
  - rewrite list_lookup_alter_ne by done. reflexivity.
Qed.

Lemma set_idx_rel i k k' : bl_set_idx 0 k' = bl_set_idx 0 (bl_set_idx i k) -> blk_rel k k'.
Proof. destruct k, k'. intros ?. simplify_eq/=. unfold blk_rel. simpl. naive_solver. Qed.

Lemma blks_rel_strip bs bs' :
  (forall b, bl_set_idx 0 <$> bs' !! b = bl_set_idx 0 <$> bs !! b) -> blks_rel bs bs'.
Proof.
  intros Hs b. specialize (Hs b). destruct (bs !! b) as [k|], (bs' !! b) as [k'|]; try done;
    constructor. apply (inj Some) in Hs. apply (set_idx_rel (bl_idx k)). by destruct k.
Qed.

(** ** Which blocks a step leaves as they are, up to their slot number *)

Definition others_same (b : nat) o o' : Prop :=
  forall b', b' <> b -> bl_set_idx 0 <$> tb_blocks o' !! b' = bl_set_idx 0 <$> tb_blocks o !! b'.

#[export] Instance others_same_preorder b : PreOrder (others_same b).
Proof.
  split; [by intros o b'|]. intros o1 o2 o3 H1 H2 b' Hb'. rewrite H2 by done. by apply H1.
Qed.

Lemma in_flight_same b o o' b' :
  others_same b o o' -> b' <> b -> in_flight o b' -> in_flight o' b'.
Proof.
  intros Hs Hne (k & Hk & Hq & Hc). specialize (Hs b' Hne). rewrite Hk in Hs.
  destruct (tb_blocks o' !! b') as [k'|] eqn:Hk'; simplify_eq/=. exists k'.
  destruct k, k'; simplify_eq/=. done.
Qed.

(** The blocks in flight are in no queue. *)
Lemma in_flight_not_queued o b q p :
  in_flight o b -> olk o b = Some (q, p) -> q = MTLK_TXMMB_NONE.
Proof. intros (k & Hk & Hq & _) (k' & Hk' & Hq' & _)%olk_Some. congruence. Qed.

Lemma inv_step o o' F b :
  txmm_inv o F -> b ∉ F -> olnk None o' -> binv o' -> others_same b o o' -> txmm_inv o' F.
Proof.
  intros [I1 I2 I3 I4] Hb Hl Hbi Hs. split; try done.
  intros b' Hb'. apply (in_flight_same b o); [done| |auto]. by intros ->.
Qed.

(** ** The single operations *)

Lemma del_waiting o q b i order :
  olnk None o -> binv o -> waiting q -> olk o b = Some (q, i) ->
  let o' := (_mtlk_txmm_del_buf_from_que o q b order).2 in
  olnk (Some b) o' /\ olnk None o' /\ binv o' /\ in_flight o' b /\ others_same b o o'.
Proof.
  intros Ho Hb Hw Hk. pose proof Hk as (k & Hkb & Hkq & _)%olk_Some.
  assert (q <> MTLK_TXMMB_NONE /\ q <> MTLK_TXMMB_FREE) as [Hq Hqf] by (by destruct Hw as [->|[->| ->]]).
  destruct (del_buf_spec o q b i order Ho Hq Hk) as [_ [Df Dl Db _ _ _ _]]. intros o'.
  fold o' in Df, Dl, Db. pose proof (Db b) as Dbb. rewrite list_lookup_alter_eq, Hkb in Dbb.
  destruct (tb_blocks o' !! b) as [k'|] eqn:Hk'; simplify_eq/=.
  assert (bl_que k' = MTLK_TXMMB_NONE /\ bl_clb k' = bl_clb k) as [Hq' Hc']
    by (destruct k', k; by simplify_eq/=).
  split_and!.
  - done.
  - apply (olnk_attach _ b); [done|]. unfold olk, lk. rewrite Hk'. simpl. by rewrite Hq'.
  - apply (binv_rel o); [|by rewrite Df|done].
    transitivity (alter (bl_set_que MTLK_TXMMB_NONE) b (tb_blocks o)).
    + apply blks_rel_alter. intros k2 Hk2. simplify_eq. unfold blk_rel. simpl.
      split_and!; [by split|done|done|]. by intros [?|[?|?]].
    + apply blks_rel_strip. apply Db.
  - exists k'. split_and!; [done|done|]. rewrite Hc'. by apply (bi_clb _ Hb b).
  - intros b' Hne. rewrite Db. by rewrite list_lookup_alter_ne.
Qed.

Lemma put_waiting o q b k :
  olnk (Some b) o -> binv o -> waiting q -> tb_blocks o !! b = Some k ->
  bl_que k <> MTLK_TXMMB_FREE -> is_Some (bl_clb k) ->
  let o' := _mtlk_txmm_put_buf o q b in
  olnk None o' /\ binv o' /\ others_same b o o'.
Proof.
  intros Ho Hb Hw Hk Hkq Hkc.
  assert (q <> MTLK_TXMMB_NONE /\ q <> MTLK_TXMMB_FREE) as [Hq Hqf] by (by destruct Hw as [->|[->| ->]]).
  destruct (put_buf_spec o q b Ho Hq) as [Pf Pl Pb _ _ _ _]; [by eapply olnk_block_lt|].
  split_and!; [done| |].
  - apply (binv_rel o); [|by rewrite Pf|done]. rewrite Pb. apply blks_rel_alter.
    intros k2 Hk2. simplify_eq. unfold blk_rel. simpl.
    split_and!; [by split|done|done|auto].
  - intros b' Hne. rewrite Pb. by rewrite list_lookup_alter_ne.
Qed.

(** An update that leaves queue, index and message alone and keeps a callback. *)
Definition quiet (f : block -> block) : Prop :=
  forall k, bl_que (f k) = bl_que k /\ bl_idx (f k) = bl_idx k /\ bl_msg (f k) = bl_msg k /\
            (is_Some (bl_clb k) -> is_Some (bl_clb (f k))).

Lemma quiet_data d : quiet (bl_set_data d).
Proof. by intros k. Qed.
Lemma quiet_slot s : quiet (bl_set_slot s).
Proof. by intros k. Qed.
Lemma quiet_time t : quiet (bl_set_send_time t).
Proof. by intros k. Qed.
Lemma quiet_request c t v : quiet (bl_set_request c t v).
Proof. by intros k. Qed.

Hint Resolve quiet_data quiet_slot quiet_time quiet_request : core.

Lemma upd_others b f o : others_same b o (upd_block b f o).
Proof. intros b' Hne. simpl. by rewrite list_lookup_alter_ne. Qed.

Lemma upd_quiet o x b f :
  quiet f -> olnk x o -> binv o -> olnk x (upd_block b f o) /\ binv (upd_block b f o).
Proof.
  intros Hf Ho Hb. split.
  - by apply olnk_upd_same; [intros k; apply (Hf k)..|].
  - apply (binv_rel o); [|done|done]. apply blks_rel_alter. intros k _.
    destruct (Hf k) as (F1 & _ & F3 & F4). unfold blk_rel. rewrite F1, F3. naive_solver.
Qed.

Lemma binv_free o o' m b v :
  binv o -> tb_msgs o !! m = Some (b, v) ->
  (forall b', bl_set_idx 0 <$> tb_blocks o' !! b' =
              bl_set_idx 0 <$> alter _mtlk_txmm_zero_block b (tb_blocks o) !! b') ->
  tb_msgs o' = delete m (tb_msgs o) -> binv o'.
Proof.
  intros [B1 B2 B3] Hm Hs Hms.
  assert (forall b' k', tb_blocks o' !! b' = Some k' -> bl_que k' <> MTLK_TXMMB_FREE ->
    b' <> b /\ exists k, tb_blocks o !! b' = Some k /\ bl_que k' = bl_que k /\
      bl_msg k' = bl_msg k /\ bl_clb k' = bl_clb k) as Hold.
  { intros b' k' Hk' Hq. specialize (Hs b'). rewrite Hk' in Hs.
    destruct (decide (b = b')) as [<-|Hne].
    - rewrite list_lookup_alter_eq in Hs. destruct (tb_blocks o !! b), k'; by simplify_eq/=.
    - rewrite list_lookup_alter_ne in Hs by done. split; [done|].
      destruct (tb_blocks o !! b') as [k|]; simplify_eq/=. exists k. by destruct k, k'; simplify_eq/=. }
  split.
  - intros m' b' v'. rewrite Hms, lookup_delete_Some. intros [Hne Hm'].
    destruct (B1 m' b' v' Hm') as (k & Hk & Hq & Hkm). specialize (Hs b').
    destruct (decide (b = b')) as [<-|Hbb].
    { destruct (B1 m b v Hm) as (k2 & ? & _ & ?). congruence. }
    rewrite list_lookup_alter_ne, Hk in Hs by done.
    destruct (tb_blocks o' !! b') as [k'|]; simplify_eq/=. exists k'.
    by destruct k, k'; simplify_eq/=.
  - intros b' k' Hk' Hq. destruct (Hold b' k' Hk' Hq) as (Hbb & k & Hk & E1 & E2 & _).
    destruct (B2 b' k Hk) as (m' & v' & Hm' & Hl); [congruence|].
    exists m', v'. rewrite Hms, E2, lookup_delete_ne; [done|]. intros ->. congruence.
  - intros b' k' Hk' Hw. destruct (Hold b' k' Hk') as (Hbb & k & Hk & E1 & _ & ->).
    { intros E. rewrite E in Hw. by destruct Hw as [?|[?|?]]. }
    apply (B3 b' k Hk). by rewrite <-E1.
Qed.

Lemma binv_attach o o' m b v k :
  binv o -> tb_msgs o !! m = None -> tb_blocks o !! b = Some k -> bl_que k = MTLK_TXMMB_FREE ->
  tb_blocks o' = alter (bl_set_que MTLK_TXMMB_NONE) b (alter (bl_set_msg m) b (tb_blocks o)) ->
  tb_msgs o' = <[m := (b, v)]> (tb_msgs o) -> binv o'.
Proof.
  intros [B1 B2 B3] Hm Hk Hkq Hbs Hms.
  assert (forall b', b <> b' -> tb_blocks o' !! b' = tb_blocks o !! b') as Hne.
  { intros b' Hn. rewrite Hbs. by rewrite !list_lookup_alter_ne. }
  assert (tb_blocks o' !! b = Some (bl_set_que MTLK_TXMMB_NONE (bl_set_msg m k))) as Heq.
  { rewrite Hbs, !list_lookup_alter_eq, Hk. done. }
  split.
  - intros m' b' v'. rewrite Hms. destruct (decide (m = m')) as [<-|Hmm].
    + rewrite lookup_insert_eq. intros [= <- <-]. rewrite Heq. eexists. by split_and!.
    + rewrite lookup_insert_ne by done. intros Hm'.
      destruct (B1 m' b' v' Hm') as (k' & Hk' & Hq' & Hkm').
      exists k'. rewrite Hne; [done|]. intros ->. congruence.
  - intros b' k' Hk' Hq'. destruct (decide (b = b')) as [<-|Hbb].
    + rewrite Heq in Hk'. simplify_eq/=. exists m, v. rewrite Hms. split; [done|].
      apply lookup_insert_eq.
    + rewrite Hne in Hk' by done. destruct (B2 b' k' Hk' Hq') as (m' & v' & Hm' & Hl).
      exists m', v'. split; [done|]. rewrite Hms, lookup_insert_ne; [done|]. intros ->. congruence.
  - intros b' k' Hk' Hw. destruct (decide (b = b')) as [<-|Hbb].
    + rewrite Heq in Hk'. simplify_eq/=. by destruct Hw as [?|[?|?]].
    + rewrite Hne in Hk' by done. by apply (B3 b').
Qed.

(** ** Operations that move blocks *)

Lemma inv_attach_inv vap o F m :
  txmm_inv o F -> tb_msgs o !! m = None -> txmm_inv (_mtlk_txmm_attach_data vap o m) F.
Proof.
  intros HI Hm. pose proof HI as [Ho Hb Hn Hf]. unfold _mtlk_txmm_attach_data.
  destruct (is_active o); [|done].
  destruct (cont o MTLK_TXMMB_FREE) as [|b rest] eqn:Hc.
  - rewrite get_buf_nil by done. rewrite delete_id by done. by destruct o.
  - assert (exists p, olk o b = Some (MTLK_TXMMB_FREE, p)) as [p Hp].
    { apply elem_of_cont; [done|done|]. rewrite Hc. left. }
    pose proof Hp as (k & Hk & Hkq & _)%olk_Some.
    destruct (get_buf_cons o MTLK_TXMMB_FREE b rest Ho ltac:(done) Hc) as (o1 & -> & [Gf Gl Gb _ _]).
    set (o2 := _mtlk_txmm_adjust_usage_stats o1).
    assert (olnk (Some b) o2 /\ tb_blocks o2 = tb_blocks o /\ tb_msgs o2 = tb_msgs o) as (A1 & A2 & A3).
    { unfold o2, _mtlk_txmm_adjust_usage_stats. rewrite <-Gb.
      assert (tb_msgs o1 = tb_msgs o) as <- by (by rewrite Gf). by case_match. }
    assert (b ∉ F) as HbF.
    { intros Hin. by pose proof (in_flight_not_queued _ _ _ _ (Hf b Hin) Hp). }
    apply (inv_step o _ F b HI HbF).
    + set (o3 := set_msgs _ _). apply (olnk_attach o3 b).
      * destruct A1 as [A0 A1]. split; [done|]. simpl. by do 2 apply lnk_upd_detached.
      * unfold olk, lk. simpl. rewrite A2, !list_lookup_alter_eq, Hk. done.
    + eapply (binv_attach o _ m b vap k Hb Hm Hk Hkq); simpl; congruence.
    + intros b' Hne. simpl. rewrite A2. by rewrite !list_lookup_alter_ne.
Qed.

Lemma msg_block o m b v :
  binv o -> tb_msgs o !! m = Some (b, v) ->
  exists k p, tb_blocks o !! b = Some k /\ bl_que k <> MTLK_TXMMB_FREE /\
    bl_msg k = Some m /\ olk o b = Some (bl_que k, p).
Proof.
  intros Hb Hm. destruct (bi_msg _ Hb m b v Hm) as (k & Hk & Hq & Hkm).
  exists k, (bl_idx k). split_and!; [done..|]. apply olk_Some. eauto.
Qed.

Lemma free_spec o b k : olnk None o -> tb_blocks o !! b = Some k -> bl_que k <> MTLK_TXMMB_FREE ->
  bl_que k <> MTLK_TXMMB_TIMED_OUT -> free_post o b (_mtlk_txmm_free o b).
Proof.
  intros Ho Hk Hq Hto. assert (olk o b = Some (bl_que k, bl_idx k)) as Hp by (apply olk_Some; eauto).
  unfold _mtlk_txmm_free, block_of. rewrite (list_lookup_total_correct _ _ _ Hk).
  destruct (bl_que k) eqn:Hkq; try done.
  - exact (proj1 (free_buf_queued o MTLK_TXMMB_QUEUED b _ true Ho ltac:(done) ltac:(done) Hp)).
  - exact (proj1 (free_buf_queued o MTLK_TXMMB_SENT b _ false Ho ltac:(done) ltac:(done) Hp)).
  - eapply free_buf_detached; [|done|congruence]. apply olnk_detach; [done|]. by rewrite Hp.
Qed.

(** Cancelling frees the block and forgets the message, unless the block is
    waiting for the timeout notification. *)
Lemma cancel_inv o F m b v :
  txmm_inv o F -> tb_msgs o !! m = Some (b, v) -> b ∉ F ->
  (forall k, tb_blocks o !! b = Some k -> bl_que k <> MTLK_TXMMB_TIMED_OUT) ->
  txmm_inv (mtlk_txmm_msg_cancel o m) F.
Proof.
  intros HI Hm HbF Hto. pose proof HI as [Ho Hb Hn Hf].
  destruct (msg_block _ _ _ _ Hb Hm) as (k & p & Hk & Hq & Hkm & Hp).
  unfold mtlk_txmm_msg_cancel. rewrite Hm.
  destruct (free_spec o b k Ho Hk Hq (Hto k Hk)) as [Gf Gl _ Gb].
  apply (inv_step o _ F b HI HbF); [done| |].
  - eapply (binv_free o (set_msgs _ _) m b v Hb Hm); [exact Gb|]. simpl. by rewrite Gf.
  - intros b' Hne. simpl. rewrite Gb. by rewrite list_lookup_alter_ne.
Qed.

Lemma olk_none o b k :
  tb_blocks o !! b = Some k -> bl_que k = MTLK_TXMMB_NONE ->
  fst <$> olk o b = Some MTLK_TXMMB_NONE.
Proof. intros Hk Hq. unfold olk, lk. rewrite Hk. simpl. by rewrite Hq. Qed.

(** Delivering a block in flight never dereferences NULL and leaves a
    consistent state in which the block is no longer in flight. *)
Lemma deliver_inv o F b reason now :
  txmm_inv o (b :: F) ->
  exists r o', _mtlk_txmm_call_usr_clb_locked run_clb o b reason now = Some (r, o') /\ txmm_inv o' F.
Proof.
  intros [Ho Hb Hnd Hf]. apply NoDup_cons in Hnd as [HbF Hnd].
  destruct (Hf b) as (k & Hk & Hkq & c & Hkc); [left|].
  assert (txmm_inv o F) as HI by (split; [done..|]; intros b' ?; apply Hf; by right).
  destruct (bi_blk _ Hb b k Hk) as (m & v & Hkm & Hm); [congruence|].
  unfold _mtlk_txmm_call_usr_clb_locked, block_of.
  rewrite (list_lookup_total_correct _ _ _ Hk), Hkm, Hm, Hkc.
  destruct (run_clb c (bl_data k) reason) as [action d'].
  set (o1 := upd_block b (bl_set_data d') (emit _ o)).
  destruct (upd_quiet (emit (EvClb c (bl_data k) reason) o) None b (bl_set_data d')) as [Ho1 Hb1];
    [auto|done|by destruct Hb|].
  assert (tb_blocks o1 !! b = Some (bl_set_data d' k)) as Hk1.
  { unfold o1. simpl. by rewrite list_lookup_alter_eq, Hk. }
  assert (txmm_inv o1 F) as HI1.
  { apply (inv_step o _ F b HI HbF); [done|done|].
    exact (upd_others b _ (emit (EvClb c (bl_data k) reason) o)). }
  assert (olnk (Some b) o1) as Hd1 by (apply olnk_detach; [done|by eapply olk_none]).
  destruct action; try by (do 2 eexists; split; [done|]).
  - destruct (free_buf_detached o1 b _ Hd1 Hk1) with (order := false) as [[Gf Gl _ Gb] _];
      [simpl; congruence|].
    do 2 eexists. split; [done|]. apply (inv_step o1 _ F b HI1 HbF); [done| |].
    + eapply (binv_free o1 (set_msgs _ _) m b v Hb1 Hm); [exact Gb|]. simpl. by rewrite Gf.
    + intros b' Hne. simpl. rewrite Gb. by rewrite list_lookup_alter_ne.
  - set (o2 := if Z.eqb _ _ then o1 else _).
    assert (exists k2, tb_blocks o2 !! b = Some k2 /\ bl_que k2 = MTLK_TXMMB_NONE /\ is_Some (bl_clb k2)
      /\ olnk (Some b) o2 /\ binv o2 /\ others_same b o1 o2) as (k2 & P1 & P2 & P3 & P4 & P5 & P6).
    { unfold o2. case_match.
      - exists (bl_set_data d' k). by split_and!; try done; exists c.
      - exists (bl_set_send_time now (bl_set_data d' k)).
        destruct (upd_quiet o1 (Some b) b (bl_set_send_time now)) as [U1 U2]; [auto|done|done|].
        split_and!; try done; [|apply upd_others].
        simpl. rewrite !list_lookup_alter_eq, Hk. done. }
    destruct (put_waiting o2 MTLK_TXMMB_QUEUED b k2) as (Q1 & Q2 & Q3); try done; [by left|congruence|].
    do 2 eexists. split; [done|]. apply (inv_step o1 _ F b HI1 HbF); [done|done|].
    by transitivity o2.
Qed.

(** ** Sending *)

(** The invariant reads only the queues, the blocks and the messages. *)
Lemma inv_ext o o' F :
  tb_max_msgs o' = tb_max_msgs o -> tb_ques o' = tb_ques o -> tb_blocks o' = tb_blocks o ->
  tb_msgs o' = tb_msgs o -> txmm_inv o F -> txmm_inv o' F.
Proof.
  intros E1 E2 E3 E4 [Ho [B1 B2 B3] Hn Hf].
  split; [unfold olnk|split; unfold in_flight in *|done|unfold in_flight in *];
    rewrite ?E1, ?E2, ?E3, ?E4; done.
Qed.

(** [_mtlk_txmm_send_block_prepare] on a block just taken out of QUEUED or
    not yet in any queue. *)
Lemma prepare_spec o b k pmsg :
  olnk (Some b) o -> binv o -> tb_blocks o !! b = Some k ->
  bl_que k <> MTLK_TXMMB_FREE -> is_Some (bl_clb k) ->
  let o' := _mtlk_txmm_send_block_prepare o b pmsg in
  olnk None o' /\ binv o' /\ others_same b o o'.
Proof.
  intros Ho Hb Hk Hkq Hkc.
  unfold _mtlk_txmm_send_block_prepare. set (size := if (_ || _)%bool then _ else _).
  set (o1 := upd_block b (bl_set_data _) o). set (o2 := upd_block b (bl_set_slot _) o1).
  set (o3 := emit _ o2).
  assert (olnk (Some b) o2 /\ binv o2) as [H2 B2].
  { unfold o2, o1. apply upd_quiet; [auto|by apply upd_quiet|by apply (upd_quiet o (Some b))]. }
  assert (exists k3, tb_blocks o3 !! b = Some k3 /\ bl_que k3 <> MTLK_TXMMB_FREE /\ is_Some (bl_clb k3))
    as (k3 & K1 & K2 & K3).
  { eexists. simpl. rewrite !list_lookup_alter_eq, Hk. simpl. by split_and!. }
  destruct (put_waiting o3 MTLK_TXMMB_SENT b k3) as (Q1 & Q2 & Q3); try done;
    [by destruct B2|by right; left|].
  split_and!.
  - done.
  - destruct Q2. by split.
  - transitivity o3; [|exact Q3]. transitivity o1; [apply upd_others|].
    exact (upd_others b _ o1).
Qed.

(** Sending the head of QUEUED. *)
Lemma send_head_inv o F b rest s o1 :
  txmm_inv o F -> cont o MTLK_TXMMB_QUEUED = b :: rest ->
  _mtlk_txmm_get_buf o MTLK_TXMMB_QUEUED = (Some b, o1) ->
  txmm_inv (_mtlk_txmm_send_block_prepare o1 b s) F.
Proof.
  intros HI Hc Hg. pose proof HI as [Ho Hb Hn Hf].
  destruct (get_buf_cons o MTLK_TXMMB_QUEUED b rest Ho ltac:(done) Hc) as (o2 & Hg' & [Gf Gl Gb _ _]).
  rewrite Hg in Hg'. injection Hg' as <-.
  assert (exists p, olk o b = Some (MTLK_TXMMB_QUEUED, p)) as [p Hp].
  { apply elem_of_cont; [done|done|]. rewrite Hc. left. }
  pose proof Hp as (k & Hk & Hkq & _)%olk_Some.
  assert (b ∉ F) as HbF.
  { intros Hin. by pose proof (in_flight_not_queued _ _ _ _ (Hf b Hin) Hp). }
  assert (binv o1) as Hb1 by (apply (binv_rel o); [by rewrite Gb|by rewrite Gf|done]).
  destruct (prepare_spec o1 b k s) as (P1 & P2 & P3); [done|done|by rewrite Gb|congruence| |].
  { apply (bi_clb _ Hb b k Hk). left. done. }
  apply (inv_step o _ F b HI HbF); [done|done|]. intros b' Hne. rewrite P3 by done. by rewrite Gb.
Qed.

Lemma pump_inv o F pmsg :
  txmm_inv o F ->
  txmm_inv (_mtlk_txmm_pump msg_get_from_pool msg_free_to_pool o pmsg).2 F.
Proof.
  intros HI. unfold _mtlk_txmm_pump. destruct (negb _) eqn:Ht.
  2: { destruct pmsg; [|done]. by apply (inv_ext o). }
  assert (exists s' o1, (match pmsg with
    | Some s => (Some s, o)
    | None => let '(s, p) := msg_get_from_pool (tb_pool o) in (s, set_pool p o) end) = (s', o1) /\
    txmm_inv o1 F /\ cont o1 MTLK_TXMMB_QUEUED = cont o MTLK_TXMMB_QUEUED) as (s' & o1 & -> & HI1 & Hc1).
  { destruct pmsg as [s|]; [by do 2 eexists|]. destruct (msg_get_from_pool (tb_pool o)) as [s p].
    do 2 eexists. split; [done|]. split; [by apply (inv_ext o)|done]. }
  destruct s' as [s|]; [|done].
  destruct (cont o1 MTLK_TXMMB_QUEUED) as [|b rest] eqn:Hc.
  { symmetry in Hc1. apply cont_nil_total in Hc1. by rewrite Hc1 in Ht. }
  destruct (get_buf_cons o1 MTLK_TXMMB_QUEUED b rest (ti_lnk _ _ HI1) ltac:(done) Hc) as (o2 & Hg & _).
  rewrite Hg. simpl. by eapply send_head_inv.
Qed.

Lemma send_ex_inv vap o F b k clb timeout now :
  txmm_inv o F -> b ∉ F -> tb_blocks o !! b = Some k -> bl_que k = MTLK_TXMMB_NONE ->
  let r := _mtlk_txmm_send_ex msg_get_from_pool msg_free_to_pool vap o b clb timeout now in
  r.1 = MTLK_ERR_OK /\ txmm_inv r.2 F.
Proof.
  intros HI HbF Hk Hkq. unfold _mtlk_txmm_send_ex.
  set (o1 := upd_block b (bl_set_request clb timeout vap) o).
  set (o2 := if Z.eqb timeout 0 then o1 else _).
  assert (exists k2, tb_blocks o2 !! b = Some k2 /\ bl_que k2 = MTLK_TXMMB_NONE /\
    is_Some (bl_clb k2) /\ txmm_inv o2 F) as (k2 & K1 & K2 & K3 & HI2).
  { assert (forall o' f, txmm_inv o' F -> quiet f -> txmm_inv (upd_block b f o') F) as Hu.
    { intros o' f HI' Hf. destruct (upd_quiet o' None b f Hf) as [? ?]; [apply HI'..|].
      apply (inv_step o' _ F b HI' HbF); [done|done|apply upd_others]. }
    unfold o2, o1. case_match; eexists; simpl; rewrite !list_lookup_alter_eq, Hk; simpl;
      split_and!; eauto. }
  destruct (msg_get_from_pool (tb_pool o2)) as [pmsg pool].
  assert (txmm_inv (set_pool pool o2) F) as HI3 by (by apply (inv_ext o2)).
  set (o3 := set_pool pool o2) in *.
  assert (olnk (Some b) o3) as Hd by (apply olnk_detach; [apply HI3|by eapply (olk_none o3)]).
  assert (txmm_inv (_mtlk_txmm_put_buf o3 MTLK_TXMMB_QUEUED b) F) as Hput.
  { destruct (put_waiting o3 MTLK_TXMMB_QUEUED b k2) as (P1 & P2 & P3);
      [done|apply HI3|by left|done|congruence|done|]. by apply (inv_step o3 _ F b HI3 HbF). }
  destruct pmsg as [s|]; [|done]. case_match.
  - split; [done|]. destruct (prepare_spec o3 b k2 s) as (P1 & P2 & P3);
      [done|apply HI3|done|congruence|done|].
    apply (inv_ext (_mtlk_txmm_send_block_prepare o3 b s)); [done..|].
    by apply (inv_step o3 _ F b HI3 HbF).
  - pose proof (pump_inv _ F (Some s) Hput) as Hp.
    destruct (_mtlk_txmm_pump _ _ _ _) as [[[[s'|] [v'|]] st] o4]; simpl in *; (split; [done|]); try done.
    by apply (inv_ext o4).
Qed.
End TxmmSafe.
