(* ===== verification/TxmmTimer.v ===== *)
(** * TxmmTimer: timeouts

    [_mtlk_txmm_on_timer_que] first moves every expired block of a queue to
    TIMED_OUT and then notifies the owners one by one.  The scan is shown to
    visit each element of the circular array exactly once although it deletes
    from it while it walks; the notification loop is shown to end and to
    deliver each expired request exactly once. *)
From S2P Require Import Prelude TxmmRing Txmm TxmmInv TxmmOps TxmmSafe.

Local Open Scope nat_scope.
#[local] Arguments Nat.eqb : simpl never.
#[local] Arguments Nat.leb : simpl never.
#[local] Arguments Nat.ltb : simpl never.

Section TxmmTimer.
Context {Msg : Type} `{Countable Msg} {Clb : Type} {Slot : Type} `{EqDecision Slot} {Pool : Type}.
Context (run_clb : Clb -> mtlk_txmm_data_t -> mtlk_txmm_clb_reason_e ->
                   mtlk_txmm_clb_action_e * mtlk_txmm_data_t).
Abbreviation block := (mtlk_txmm_block_t (Msg := Msg) (Clb := Clb) (Slot := Slot)).
Abbreviation base := (mtlk_txmm_base_t (Msg := Msg) (Clb := Clb) (Slot := Slot) (Pool := Pool)).
Implicit Types (o : base) (k : block) (q : mtlk_txmm_block_e) (b p : nat).

(** A block without its place: what deletions and insertions keep. *)
Definition bare k : block := bl_set_link MTLK_TXMMB_FREE 0 k.

Definition same_bare o o' : Prop :=
  forall b, bare <$> tb_blocks o' !! b = bare <$> tb_blocks o !! b.

#[export] Instance same_bare_preorder : PreOrder same_bare.
Proof.
  split; [by intros o b|]. intros o1 o2 o3 H1 H2 b. by rewrite H2.
Qed.

Lemma bare_of_strip k k' : bl_set_idx 0 k = bl_set_idx 0 k' -> bare k = bare k'.
Proof. destruct k, k'. intros ?. by simplify_eq/=. Qed.

Lemma strip_bare (x y : option block) :
  bl_set_idx 0 <$> x = bl_set_idx 0 <$> y -> bare <$> x = bare <$> y.
Proof.
  destruct x, y; try done. intros E%(inj Some). simpl. f_equal. by apply bare_of_strip.
Qed.

Lemma expired_bare now k k' : bare k = bare k' -> expired now k = expired now k'.
Proof. destruct k, k'. intros ?. by simplify_eq/=. Qed.

Lemma same_bare_block o o' b :
  same_bare o o' -> bare (block_of o' b) = bare (block_of o b).
Proof.
  intros Hs. specialize (Hs b). unfold block_of. rewrite !list_lookup_total_alt.
  destruct (tb_blocks o !! b), (tb_blocks o' !! b); try done. by apply (inj Some).
Qed.

Definition is_expired now o b : bool := expired now (block_of o b).

Lemma is_expired_same now o o' b : same_bare o o' -> is_expired now o' b = is_expired now o b.
Proof. intros Hs. by apply expired_bare, same_bare_block. Qed.

(** Moving one block from a queue to TIMED_OUT. *)
Lemma move_timed_out o F q b i order :
  txmm_inv o F -> (q = MTLK_TXMMB_QUEUED \/ q = MTLK_TXMMB_SENT) -> olk o b = Some (q, i) ->
  let o1 := (_mtlk_txmm_del_buf_from_que o q b order).2 in
  let o' := _mtlk_txmm_put_buf o1 MTLK_TXMMB_TIMED_OUT b in
  txmm_inv o' F /\ links_only o o' /\ same_bare o o' /\
  cont o' q = del_list order (offset (tb_max_msgs o) (q_from (que_of o q)) i) (cont o q) /\
  cont o' MTLK_TXMMB_TIMED_OUT = cont o MTLK_TXMMB_TIMED_OUT ++ [b] /\
  q_from (que_of o' q) = INC_WRAP_IDX (q_from (que_of o q)) (tb_max_msgs o) /\
  (forall q', q' <> q -> q' <> MTLK_TXMMB_TIMED_OUT -> que_of o' q' = que_of o q').
Proof.
  intros HI Hq Hb o1 o'. pose proof HI as [Ho Hbi Hn Hf].
  assert (waiting q /\ q <> MTLK_TXMMB_NONE /\ q <> MTLK_TXMMB_TIMED_OUT) as (Hw & Hqn & Hqt)
    by (unfold waiting; destruct Hq as [-> | ->]; split_and!; auto).
  assert (b ∉ F) as HbF.
  { intros Hin. by pose proof (in_flight_not_queued _ _ _ _ (Hf b Hin) Hb). }
  destruct (del_waiting o q b i order Ho Hbi Hw Hb) as (D1 & D2 & D3 & (k & Hk & Hkq & Hkc) & D4).
  destruct (del_buf_spec o q b i order Ho Hqn Hb) as [_ [Df _ Db Dc Dfr _ Dot]].
  fold o1 in D1, D2, D3, Hk, D4, Df, Db, Dc, Dfr, Dot.
  assert (tb_max_msgs o1 = tb_max_msgs o) as Hmax by (by rewrite Df).
  destruct (put_waiting o1 MTLK_TXMMB_TIMED_OUT b k) as (P1 & P2 & P3);
    [done|done|by right; right|done|congruence|done|].
  destruct (put_buf_spec o1 MTLK_TXMMB_TIMED_OUT b D1) as [Pf _ Pb Pc _ _ Po];
    [done|by eapply olnk_block_lt|].
  fold o' in P1, P2, P3, Pf, Pb, Pc, Po.
  assert (tb_max_msgs o' = tb_max_msgs o1) as Hmax' by (by rewrite Pf).
  assert (forall q', q' <> q -> cont o1 q' = cont o q') as Hc1
    by (intros q' ?; unfold cont; by rewrite Hmax, Dot).
  split_and!.
  - apply (inv_step o _ F b HI HbF); [done|done|]. by transitivity o1.
  - by transitivity o1.
  - intros b'. rewrite Pb. destruct (decide (b = b')) as [<-|Hne].
    + rewrite list_lookup_alter_eq. specialize (Db b). rewrite list_lookup_alter_eq in Db.
      destruct (tb_blocks o1 !! b) as [[]|], (tb_blocks o !! b) as [[]|]; by simplify_eq/=.
    + rewrite list_lookup_alter_ne by done. specialize (Db b'). rewrite list_lookup_alter_ne in Db by done. by apply strip_bare.
  - rewrite <-Dc. unfold cont. by rewrite Hmax', Po.
  - rewrite Pc, Hc1 by done. done.
  - by rewrite Po.
  - intros q' ? ?. by rewrite Po, Dot.
Qed.

(** ** The scan *)

Lemma pos_S n Q j : que_wf n Q -> j < n -> INC_WRAP_IDX (pos n Q j) n = pos n Q (S j).
Proof. intros [] ?. ring_arith. Qed.

Lemma pos_pop n Q Q' j :
  que_wf n Q -> q_from Q' = INC_WRAP_IDX (q_from Q) n -> j < n -> pos n Q' j = pos n Q (S j).
Proof. intros [] E ?. unfold pos. rewrite E. ring_arith. Qed.

Lemma pos_to n Q j :
  que_wf n Q -> q_total Q < n -> j <= q_total Q -> pos n Q j = q_to Q -> j = q_total Q.
Proof. intros [] ? ? E. rewrite qw_to in E. ring_arith. Qed.

Lemma scan_spec now q order fuel o F cnt pre post :
  txmm_inv o F -> (q = MTLK_TXMMB_QUEUED \/ q = MTLK_TXMMB_SENT) ->
  cont o q = pre ++ post -> length (cont o q) < tb_max_msgs o -> length post <= fuel ->
  exists o' pre',
    timer_scan fuel o now q order (pos (tb_max_msgs o) (que_of o q) (length pre)) cnt
      = ((cnt + Z.of_nat (length (List.filter (is_expired now o) post)))%Z, o') /\
    txmm_inv o' F /\ links_only o o' /\ same_bare o o' /\
    cont o' MTLK_TXMMB_TIMED_OUT = cont o MTLK_TXMMB_TIMED_OUT ++ List.filter (is_expired now o) post /\
    cont o' q = pre' /\ pre' ≡ₚ pre ++ List.filter (fun b => negb (is_expired now o b)) post /\
    (order = true -> pre' = pre ++ List.filter (fun b => negb (is_expired now o b)) post) /\
    (forall q', q' <> q -> q' <> MTLK_TXMMB_TIMED_OUT -> que_of o' q' = que_of o q').
Proof.
  revert o cnt pre post. induction fuel as [|fuel IH]; intros o cnt pre post HI Hq Hc Hlen Hfuel.
  all: assert (Hqn : q <> MTLK_TXMMB_NONE) by (by destruct Hq as [-> | ->]).
  all: pose proof (olnk_wf _ _ _ (ti_lnk _ _ HI) Hqn) as Hw.
  all: assert (Htot : q_total (que_of o q) = length pre + length post)
    by (rewrite <-length_app, <-Hc; symmetry; apply contents_length).
  all: assert (Hfull : q_total (que_of o q) < tb_max_msgs o)
    by (unfold cont in Hlen; by rewrite contents_length in Hlen).
  { destruct post; [|simpl in *; lia]. exists o, pre. simpl. rewrite !app_nil_r in *.
    rewrite Z.add_0_r. by split_and!. }
  destruct post as [|b post].
  { exists o, pre. simpl. rewrite !app_nil_r in *. rewrite Z.add_0_r.
    assert (pos (tb_max_msgs o) (que_of o q) (length pre) = q_to (que_of o q)) as ->.
    { rewrite (qw_to _ _ Hw). f_equal. simpl in Htot. lia. }
    rewrite Nat.eqb_refl. by split_and!. }
  simpl in Htot, Hfuel. simpl.
  destruct (Nat.eqb_spec (pos (tb_max_msgs o) (que_of o q) (length pre)) (q_to (que_of o q))) as [He|_].
  { apply pos_to in He; [lia|done|done|lia]. }
  assert (q_ptr (que_of o q) !!! pos (tb_max_msgs o) (que_of o q) (length pre) = b) as Hb.
  { assert (cont o q !! length pre = Some b) as Hlk by (rewrite Hc; by apply list_lookup_middle).
    unfold cont in Hlk. rewrite contents_lookup in Hlk by lia. by injection Hlk. }
  rewrite Hb. fold (is_expired now o b).
  destruct (is_expired now o b) eqn:Hex; simpl.
  - assert (olk o b = Some (q, pos (tb_max_msgs o) (que_of o q) (length pre))) as Hlk.
    { rewrite <-Hb. apply (l_fwd _ _ _ _ _ (proj2 (ti_lnk _ _ HI))); [done| |done].
      apply active_pos; [done|lia]. }
    destruct (move_timed_out o F q b _ order HI Hq Hlk) as (M1 & M2 & M3 & M4 & M5 & M6 & M7).
    set (o1 := _mtlk_txmm_put_buf _ _ _) in *.
    rewrite offset_pos, Hc, del_list_mid in M4 by (apply Hw || lia).
    assert (tb_max_msgs o1 = tb_max_msgs o) as Hmax by (by rewrite M2).
    pose proof (del_pre_perm order pre) as Hpp.
    pose proof (Permutation_length Hpp) as Hpl.
    replace (INC_WRAP_IDX (pos (tb_max_msgs o) (que_of o q) (length pre)) (tb_max_msgs o1))
      with (pos (tb_max_msgs o1) (que_of o1 q) (length (del_pre order pre))).
    2: { rewrite Hmax, (pos_pop _ (que_of o q)), pos_S by (done || lia). by rewrite Hpl. }
    destruct (IH o1 (cnt + 1)%Z (del_pre order pre) post) as (o' & pre' & R1 & R2 & R3 & R4 & R5 & R6 & R7 & R8 & R9);
      [done|done|done|rewrite M4, Hmax, length_app, Hpl; lia|lia|].
    assert (List.filter (is_expired now o1) post = List.filter (is_expired now o) post) as Hf1
      by (apply List.filter_ext; intros x; by apply is_expired_same).
    assert (List.filter (fun b => negb (is_expired now o1 b)) post
      = List.filter (fun b => negb (is_expired now o b)) post) as Hf2
      by (apply List.filter_ext; intros x; by rewrite (is_expired_same now o o1)).
    exists o', pre'. split_and!.
    + rewrite R1, Hf1. f_equal. simpl. lia.
    + done.
    + by transitivity o1.
    + by transitivity o1.
    + rewrite R5, M5, Hf1. by rewrite <-(assoc_L (++)).
    + done.
    + rewrite R7, Hf2. by rewrite Hpp.
    + intros Ho. rewrite (R8 Ho), Hf2. by subst order.
    + intros q' ? ?. by rewrite R9, M7.
  - replace (INC_WRAP_IDX (pos (tb_max_msgs o) (que_of o q) (length pre)) (tb_max_msgs o))
      with (pos (tb_max_msgs o) (que_of o q) (length (pre ++ [b]))).
    2: { rewrite length_app, Nat.add_1_r. symmetry. apply pos_S; [done|lia]. }
    destruct (IH o cnt (pre ++ [b]) post) as (o' & pre' & R);
      [done|done|by rewrite <-(assoc_L (++))|done|lia|].
    exists o', pre'. by rewrite <-!(assoc_L (++)) in R.
Qed.

(** ** The notifications *)

(** What the owner of an expired block sees, and whether it asks for the
    request to be queued again. *)
Definition timeout_events (reason : mtlk_txmm_clb_reason_e) o b :=
  EvMsgTimedOut (data_id (bl_data (block_of o b))) ::
  match bl_clb (block_of o b) with
  | Some c => [EvClb (Slot := Slot) c (bl_data (block_of o b)) reason]
  | None => []
  end.

Definition wants_resend (reason : mtlk_txmm_clb_reason_e) o b : bool :=
  match bl_clb (block_of o b) with
  | Some c => match (run_clb c (bl_data (block_of o b)) reason).1 with
              | MTLK_TXMM_CLBA_SEND => true | _ => false end
  | None => false
  end.

Lemma bare_data k k' : bare k = bare k' -> bl_data k = bl_data k' /\ bl_clb k = bl_clb k'.
Proof. destruct k, k'. intros ?. by simplify_eq/=. Qed.

Lemma timeout_view_same reason o o' b :
  bare <$> tb_blocks o' !! b = bare <$> tb_blocks o !! b ->
  timeout_events reason o' b = timeout_events reason o b /\
  wants_resend reason o' b = wants_resend reason o b.
Proof.
  intros Hs. assert (bare (block_of o' b) = bare (block_of o b)) as [E1 E2]%bare_data.
  { unfold block_of. rewrite !list_lookup_total_alt.
    destruct (tb_blocks o !! b), (tb_blocks o' !! b); try done. by apply (inj Some). }
  unfold timeout_events, wants_resend. by rewrite E1, E2.
Qed.

Record deliver_post o b reason o' : Prop := {
  de_max : tb_max_msgs o' = tb_max_msgs o;
  de_out : tb_out o' = tb_out o ++ match bl_clb (block_of o b) with
             | Some c => [EvClb c (bl_data (block_of o b)) reason] | None => [] end;
  de_queued : cont o' MTLK_TXMMB_QUEUED = cont o MTLK_TXMMB_QUEUED ++
                if wants_resend reason o b then [b] else [];
  de_sent : que_of o' MTLK_TXMMB_SENT = que_of o MTLK_TXMMB_SENT;
  de_timed_out : que_of o' MTLK_TXMMB_TIMED_OUT = que_of o MTLK_TXMMB_TIMED_OUT;
  de_others b' : b' <> b -> bare <$> tb_blocks o' !! b' = bare <$> tb_blocks o !! b';
}.

Lemma others_same_bare b o o' b' :
  others_same b o o' -> b' <> b -> bare <$> tb_blocks o' !! b' = bare <$> tb_blocks o !! b'.
Proof.
  intros Hs Hne. apply strip_bare. by apply Hs.
Qed.

Lemma deliver_frame o F b reason now r o' :
  txmm_inv o (b :: F) ->
  _mtlk_txmm_call_usr_clb_locked run_clb o b reason now = Some (r, o') ->
  deliver_post o b reason o'.
Proof.
  intros [Ho Hb Hnd Hf]. apply NoDup_cons in Hnd as [HbF Hnd].
  destruct (Hf b) as (k & Hk & Hkq & c & Hkc); [left|].
  destruct (bi_blk _ Hb b k Hk) as (m & v & Hkm & Hm); [congruence|].
  assert (block_of o b = k) as Hbk by (unfold block_of; by rewrite (list_lookup_total_correct _ _ _ Hk)).
  unfold _mtlk_txmm_call_usr_clb_locked. rewrite Hbk, Hkm, Hm, Hkc.
  destruct (run_clb c (bl_data k) reason) as [action d'] eqn:Hrun.
  set (o1 := upd_block b (bl_set_data d') (emit _ o)).
  assert (tb_blocks o1 !! b = Some (bl_set_data d' k)) as Hk1.
  { unfold o1. simpl. by rewrite list_lookup_alter_eq, Hk. }
  assert (wants_resend reason o b = match action with MTLK_TXMM_CLBA_SEND => true | _ => false end) as Hwr.
  { unfold wants_resend. by rewrite Hbk, Hkc, Hrun. }
  assert (forall b', b' <> b -> bare <$> tb_blocks o1 !! b' = bare <$> tb_blocks o !! b') as Hoth1.
  { intros b' Hne. unfold o1. simpl. by rewrite list_lookup_alter_ne. }
  assert (olnk (Some b) o1) as Hd1.
  { apply (olnk_upd_detached (emit _ o)). apply (olnk_detach (emit _ o)); [done|by eapply olk_none]. }
  assert (action <> MTLK_TXMM_CLBA_SEND -> deliver_post o b reason o1) as Hkeep.
  { intros Ha. split; try done; [by rewrite Hbk, Hkc|].
    rewrite Hwr. by destruct action; rewrite ?app_nil_r. }
  destruct action; intros [= <- <-]; try by apply Hkeep.
  - destruct (free_buf_detached o1 b _ Hd1 Hk1) with (order := false) as [[Gf _ _ Gb] Gq];
      [simpl; congruence|]. set (o2 := _mtlk_txmm_free_buf _ _ _ _) in *.
    split.
    + simpl. by rewrite Gf.
    + simpl. rewrite Gf. simpl. by rewrite Hbk, Hkc.
    + rewrite Hwr, app_nil_r.
      change (contents (tb_max_msgs o2) (que_of o2 MTLK_TXMMB_QUEUED) = cont o MTLK_TXMMB_QUEUED).
      rewrite Gq by done. by assert (tb_max_msgs o2 = tb_max_msgs o) as -> by (by rewrite Gf).
    + exact (Gq MTLK_TXMMB_SENT ltac:(done)).
    + exact (Gq MTLK_TXMMB_TIMED_OUT ltac:(done)).
    + intros b' Hne. rewrite <-Hoth1 by done. specialize (Gb b').
      rewrite list_lookup_alter_ne in Gb by done. by apply strip_bare.
  - set (o2 := if Z.eqb _ _ then o1 else _).
    assert (olnk (Some b) o2 /\ tb_max_msgs o2 = tb_max_msgs o1 /\ tb_out o2 = tb_out o1 /\
      tb_ques o2 = tb_ques o1 /\ others_same b o1 o2 /\ length (tb_blocks o2) = length (tb_blocks o1))
      as (P1 & P2 & P3 & P4 & P5 & P6).
    { unfold o2. case_match; [by split_and!|]. split_and!; try done; [by apply olnk_upd_detached|apply upd_others|].
      apply length_alter. }
    destruct (put_buf_spec o2 MTLK_TXMMB_QUEUED b P1) as [Pf _ Pb Pc _ _ Po]; [done| |].
    { rewrite P2. by eapply olnk_block_lt. }
    set (o3 := _mtlk_txmm_put_buf _ _ _) in *.
    split.
    + rewrite Pf. simpl. by rewrite P2.
    + rewrite Pf. simpl. rewrite P3, Hbk, Hkc. done.
    + rewrite Pc, Hwr. f_equal. unfold cont, que_of. by rewrite P2, P4.
    + rewrite Po by done. unfold que_of. by rewrite P4.
    + rewrite Po by done. unfold que_of. by rewrite P4.
    + intros b' Hne. rewrite Pb, list_lookup_alter_ne by done. rewrite <-Hoth1 by done.
      by eapply others_same_bare.
Qed.

Lemma pop_timed_out o F b rest :
  txmm_inv o F -> cont o MTLK_TXMMB_TIMED_OUT = b :: rest ->
  exists o', timed_out_pop o = (Some b, o') /\ txmm_inv o' (b :: F) /\ links_only o o' /\
    same_bare o o' /\ cont o' MTLK_TXMMB_TIMED_OUT = rest /\
    (forall q, q <> MTLK_TXMMB_TIMED_OUT -> que_of o' q = que_of o q).
Proof.
  intros HI Hc. pose proof HI as [Ho Hbi Hn Hf].
  destruct (cont_cons_head o MTLK_TXMMB_TIMED_OUT None b rest Ho ltac:(done) Hc) as (Ht & Hp & Hr).
  assert (olk o b = Some (MTLK_TXMMB_TIMED_OUT, q_from (que_of o MTLK_TXMMB_TIMED_OUT))) as Hb.
  { rewrite <-Hp. apply (l_fwd _ _ _ _ _ (proj2 Ho)); [done| |done].
    apply (que_from_active o _ None); [done|done|lia]. }
  unfold timed_out_pop. destruct (Nat.eqb_spec (q_total (que_of o MTLK_TXMMB_TIMED_OUT)) 0); [lia|].
  rewrite Hp. eexists. split; [done|].
  destruct (del_waiting o MTLK_TXMMB_TIMED_OUT b _ false Ho Hbi ltac:(by right; right) Hb) as (D1 & D2 & D3 & D4 & D5).
  destruct (del_buf_spec o MTLK_TXMMB_TIMED_OUT b _ false Ho ltac:(done) Hb) as [_ [Df _ Db Dc _ _ Dot]].
  set (o1 := (_mtlk_txmm_del_buf_from_que o _ b false).2) in *.
  assert (b ∉ F) as HbF.
  { intros Hin. by pose proof (in_flight_not_queued _ _ _ _ (Hf b Hin) Hb). }
  split_and!.
  - destruct (inv_step o o1 F b HI HbF D2 D3 D5) as [? ? ? Hf'].
    split; [done|done|by apply NoDup_cons|]. intros b' [->|?]%elem_of_cons; auto.
  - done.
  - intros b'. specialize (Db b'). destruct (decide (b = b')) as [<-|Hne].
    + rewrite list_lookup_alter_eq in Db.
      destruct (tb_blocks o1 !! b) as [[]|], (tb_blocks o !! b) as [[]|]; by simplify_eq/=.
    + rewrite list_lookup_alter_ne in Db by done. by apply strip_bare.
  - rewrite Dc, Hc. replace (offset _ _ _) with 0; [done|]. symmetry. ring_arith.
  - auto.
Qed.

Lemma notify_spec reason now l fuel o F :
  txmm_inv o F -> cont o MTLK_TXMMB_TIMED_OUT = l -> length l <= fuel ->
  exists o', timed_out_loop run_clb fuel o reason now = Some o' /\ txmm_inv o' F /\
    cont o' MTLK_TXMMB_TIMED_OUT = [] /\
    tb_out o' = tb_out o ++ concat (timeout_events reason o <$> l) /\
    cont o' MTLK_TXMMB_QUEUED = cont o MTLK_TXMMB_QUEUED ++ List.filter (wants_resend reason o) l /\
    cont o' MTLK_TXMMB_SENT = cont o MTLK_TXMMB_SENT.
Proof.
  revert fuel o. induction l as [|b l IH]; intros fuel o HI Hc Hfuel.
  { exists o. pose proof Hc as Hz%cont_nil_total. destruct fuel; simpl; unfold timed_out_pop;
      rewrite Hz; simpl; by rewrite !app_nil_r. }
  destruct fuel as [|fuel]; [simpl in Hfuel; lia|]. simpl.
  pose proof (cont_NoDup o MTLK_TXMMB_TIMED_OUT None (ti_lnk _ _ HI) ltac:(done) : NoDup (cont o MTLK_TXMMB_TIMED_OUT)) as Hnd.
  rewrite Hc in Hnd. apply NoDup_cons in Hnd as [Hbl _].
  destruct (pop_timed_out o F b l HI Hc) as (o1 & -> & HI1 & Hl1 & Hs1 & Hc1 & Hq1).
  set (o2 := emit _ o1).
  assert (txmm_inv o2 (b :: F)) as HI2 by (by apply (inv_ext o1)).
  destruct (deliver_inv run_clb o2 F b reason now HI2) as (r & o3 & Hd & HI3).
  rewrite Hd. destruct (deliver_frame _ _ _ _ _ _ _ HI2 Hd) as [E1 E2 E3 E4 E5 E6].
  destruct (IH fuel o3 HI3) as (o' & R1 & R2 & R3 & R4 & R5 & R6); [|simpl in Hfuel; lia|].
  { unfold cont. by rewrite E1, E5. }
  assert (tb_max_msgs o1 = tb_max_msgs o /\ tb_out o1 = tb_out o) as [Hmax Hout] by (by rewrite Hl1).
  assert (forall q, q <> MTLK_TXMMB_TIMED_OUT -> cont o2 q = cont o q) as Hcq.
  { intros q Hq. unfold cont, o2. simpl. rewrite Hmax. change (que_of (emit _ o1) q) with (que_of o1 q).
    by rewrite Hq1. }
  destruct (timeout_view_same reason o o2 b (Hs1 b)) as [Tb Wb].
  assert (forall b', b' ∈ l -> timeout_events reason o3 b' = timeout_events reason o b' /\
     wants_resend reason o3 b' = wants_resend reason o b') as Hv.
  { intros b' Hb'. apply timeout_view_same. rewrite E6; [exact (Hs1 b')|]. by intros ->. }
  exists o'. split_and!; [done..| | |].
  - rewrite R4, E2. unfold o2 at 1. simpl. rewrite Hout. rewrite <-!(assoc_L (++)). f_equal.
    assert (timeout_events reason o3 <$> l = timeout_events reason o <$> l) as ->.
    { apply list_fmap_ext. intros i b' Hi. apply Hv. by eapply list_elem_of_lookup_2. }
    change (timeout_events reason o2 b ++ concat (timeout_events reason o <$> l)
      = timeout_events reason o b ++ concat (timeout_events reason o <$> l)). by rewrite Tb.
  - rewrite R5, E3, (Hcq MTLK_TXMMB_QUEUED), Wb by done. rewrite <-(assoc_L (++)). f_equal.
    assert (List.filter (wants_resend reason o3) l = List.filter (wants_resend reason o) l) as ->.
    { apply List.filter_ext_in. intros b' Hb'. apply Hv. by apply list_elem_of_In. }
    by destruct (wants_resend reason o b).
  - rewrite R6. unfold cont at 1. rewrite E1, E4. exact (Hcq MTLK_TXMMB_SENT ltac:(done)).
Qed.
End TxmmTimer.
