(* ===== verification/TxmmProps.v ===== *)
(** * TxmmProps: the properties of the management message transport *)
From S2P Require Import Prelude TxmmRing Txmm TxmmInv TxmmOps TxmmSafe TxmmTimer.

Local Open Scope nat_scope.
#[local] Arguments Nat.eqb : simpl never.
#[local] Arguments Nat.leb : simpl never.
#[local] Arguments Nat.ltb : simpl never.

Section TxmmProps.
Context {Msg : Type} `{Countable Msg} {Clb : Type} {Slot : Type} `{EqDecision Slot} {Pool : Type}.
Context (msg_get_from_pool : Pool -> option Slot * Pool).
Context (msg_free_to_pool : Slot -> Pool -> Pool).
Context (run_clb : Clb -> mtlk_txmm_data_t -> mtlk_txmm_clb_reason_e ->
                   mtlk_txmm_clb_action_e * mtlk_txmm_data_t).
Abbreviation block := (mtlk_txmm_block_t (Msg := Msg) (Clb := Clb) (Slot := Slot)).
Abbreviation base := (mtlk_txmm_base_t (Msg := Msg) (Clb := Clb) (Slot := Slot) (Pool := Pool)).
Implicit Types (o : base) (k : block) (q : mtlk_txmm_block_e) (b p : nat) (m : Msg).

(** ** Confirmations *)

Definition has_slot o (s : Slot) b : Prop := bl_slot (block_of o b) = Some s.

#[export] Instance has_slot_dec o s b : Decision (has_slot o s b).
Proof. unfold has_slot. apply _. Defined.

(** The search of [_mtlk_txmm_on_cfm] finds the oldest SENT block with the
    confirmed message. *)
Lemma find_sent_spec o x s fuel j :
  olnk x o -> j < q_total (que_of o MTLK_TXMMB_SENT) ->
  q_total (que_of o MTLK_TXMMB_SENT) - j <= fuel ->
  find_sent fuel o s (pos (tb_max_msgs o) (que_of o MTLK_TXMMB_SENT) j)
    = snd <$> list_find (has_slot o s) (drop j (cont o MTLK_TXMMB_SENT)).
Proof.
  intros Ho. pose proof (olnk_wf _ _ MTLK_TXMMB_SENT Ho ltac:(done)) as Hw.
  set (Q := que_of o MTLK_TXMMB_SENT) in *. revert j.
  induction fuel as [|fuel IH]; intros j Hj Hfuel; [lia|].
  assert (cont o MTLK_TXMMB_SENT !! j = Some (q_ptr Q !!! pos (tb_max_msgs o) Q j)) as Hlk
    by (by apply contents_lookup).
  rewrite (drop_S _ _ _ Hlk). simpl. fold Q. unfold has_slot at 1.
  do 2 (case_decide; try done).
  rewrite pos_S by (done || (pose proof (qw_total _ _ Hw); lia)).
  destruct (Nat.eqb_spec (pos (tb_max_msgs o) Q (S j)) (q_to Q)) as [He|He].
  - assert (S j = q_total Q) as Hlast.
    { pose proof Hw as [? ? ? Ht]. rewrite Ht in He. clear -He Hj qw_from qw_total. ring_arith. }
    rewrite drop_ge; [done|]. unfold cont. fold Q. rewrite contents_length. lia.
  - rewrite IH; [|assert (S j <> q_total Q); [|lia]|lia].
    + destruct (list_find _ _) as [[]|]; done.
    + intros E. apply He. rewrite E. symmetry. apply (qw_to _ _ Hw).
Qed.

(** The block [_mtlk_txmm_on_cfm] takes for a confirmation. *)
Definition confirmed_block o (s : Slot) : option nat :=
  snd <$> list_find (has_slot o s) (cont o MTLK_TXMMB_SENT).

Lemma on_cfm_dequeue_spec o F s :
  txmm_inv o F ->
  let r := on_cfm_dequeue o s in
  r.1 = confirmed_block o s /\
  match r.1 with
  | Some b => txmm_inv r.2 (b :: F) /\ others_same b o r.2 /\ same_bare o r.2 /\
      cont o MTLK_TXMMB_SENT ≡ₚ b :: cont r.2 MTLK_TXMMB_SENT /\
      (forall q, q <> MTLK_TXMMB_SENT -> que_of r.2 q = que_of o q)
  | None => txmm_inv r.2 F /\ tb_blocks r.2 = tb_blocks o /\ tb_ques r.2 = tb_ques o
  end.
Proof.
  intros HI. unfold on_cfm_dequeue.
  set (o1 := set_stats _ _ _ o).
  assert (txmm_inv o1 F) as HI1 by (by apply (inv_ext o)).
  pose proof HI1 as [Ho Hbi Hn Hf].
  pose proof (olnk_wf _ _ MTLK_TXMMB_SENT Ho ltac:(done)) as Hw.
  change (confirmed_block o s) with (confirmed_block o1 s). unfold confirmed_block.
  destruct (Nat.eqb_spec (q_total (que_of o1 MTLK_TXMMB_SENT)) 0) as [Hz|Hz].
  { apply cont_nil_total in Hz. rewrite Hz. done. }
  assert (pos (tb_max_msgs o1) (que_of o1 MTLK_TXMMB_SENT) 0 = q_from (que_of o1 MTLK_TXMMB_SENT)) as Hp0.
  { destruct Hw. unfold pos. rewrite Nat.add_0_r. destruct (Nat.leb_spec (tb_max_msgs o1) (q_from (que_of o1 MTLK_TXMMB_SENT))); lia. }
  pose proof (find_sent_spec o1 None s (tb_max_msgs o1) 0 Ho) as Hfs.
  rewrite Hp0, drop_0 in Hfs. rewrite Hfs by (pose proof (qw_total _ _ Hw); lia).
  destruct (list_find _ _) as [[i b]|] eqn:Hfind; simpl; [|done].
  apply list_find_Some in Hfind as (Hlk & _ & _).
  assert (exists p, olk o1 b = Some (MTLK_TXMMB_SENT, p)) as [p Hp].
  { apply elem_of_cont; [done|done|]. by eapply list_elem_of_lookup_2. }
  destruct (del_waiting o1 MTLK_TXMMB_SENT b p false Ho Hbi ltac:(by right; left) Hp) as (D1 & D2 & D3 & D4 & D5).
  destruct (del_buf_spec o1 MTLK_TXMMB_SENT b p false Ho ltac:(done) Hp) as [_ [Df _ Db Dc _ _ Dot]].
  assert (b ∉ F) as HbF.
  { intros Hin. by pose proof (in_flight_not_queued _ _ _ _ (Hf b Hin) Hp). }
  split; [done|]. split_and!.
  - destruct (inv_step o1 _ F b HI1 HbF D2 D3 D5) as [? ? ? Hf'].
    split; [done|done|by apply NoDup_cons|]. intros b' [->|?]%elem_of_cons; auto.
  - exact D5.
  - intros b'. specialize (Db b'). destruct (decide (b = b')) as [<-|Hne].
    + rewrite list_lookup_alter_eq in Db.
      destruct (tb_blocks (_mtlk_txmm_del_buf_from_que o1 MTLK_TXMMB_SENT b false).2 !! b) as [[]|],
        (tb_blocks o1 !! b) as [[]|] eqn:E; simplify_eq/=; by rewrite E.
    + rewrite list_lookup_alter_ne in Db by done. by apply strip_bare.
  - rewrite Dc. change (cont o MTLK_TXMMB_SENT) with (cont o1 MTLK_TXMMB_SENT).
    apply del_list_perm. unfold cont. rewrite (active_contents _ _ p Hw).
    + f_equal. apply olk_Some in Hp as (k & Hk & Hkq & Hki).
      destruct (l_bwd _ _ _ _ _ (proj2 Ho) b MTLK_TXMMB_SENT p) as (_ & ? & _); try done.
      apply olk_Some. eauto.
    + by destruct (l_bwd _ _ _ _ _ (proj2 Ho) b MTLK_TXMMB_SENT p) as (? & _ & _).
  - exact Dot.
Qed.

(** ** The transition system

    One constructor per critical section.  A message is cancelled, filled or
    sent only while its block is not in flight, which is what the users of the
    module must ensure. *)
Definition block_free_to_use o (F : list nat) m b : Prop :=
  exists v, tb_msgs o !! m = Some (b, v) /\ b ∉ F.

Inductive tstep : base * list nat -> base * list nat -> Prop :=
| ts_get vap o F m : tstep (o, F) ((mtlk_txmm_msg_get_empty_data vap o m).2, F)
| ts_fill o F m b k d :
    block_free_to_use o F m b -> tb_blocks o !! b = Some k -> bl_que k = MTLK_TXMMB_NONE ->
    tstep (o, F) (fill_data o b d, F)
| ts_send o F m b k clb timeout now r o' :
    block_free_to_use o F m b -> tb_blocks o !! b = Some k -> bl_que k = MTLK_TXMMB_NONE ->
    mtlk_txmm_msg_send msg_get_from_pool msg_free_to_pool o m clb timeout now = Some (r, o') ->
    tstep (o, F) (o', F)
| ts_cancel o F m b k :
    block_free_to_use o F m b -> tb_blocks o !! b = Some k -> bl_que k <> MTLK_TXMMB_TIMED_OUT ->
    tstep (o, F) (mtlk_txmm_msg_cancel o m, F)
| ts_pump o F pmsg : tstep (o, F) ((mtlk_txmm_pump msg_get_from_pool msg_free_to_pool o pmsg).2, F)
| ts_cfm_dequeue o F s b o' : on_cfm_dequeue o s = (Some b, o') -> tstep (o, F) (o', b :: F)
| ts_cfm_unknown o F s o' : on_cfm_dequeue o s = (None, o') -> tstep (o, F) (o', F)
| ts_cfm_deliver o F F' b payload now o' :
    F ≡ₚ b :: F' -> on_cfm_deliver run_clb o b payload now = Some o' -> tstep (o, F) (o', F')
| ts_scan o F q now order : q = MTLK_TXMMB_QUEUED \/ q = MTLK_TXMMB_SENT ->
    tstep (o, F) ((timer_scan (tb_max_msgs o) o now q order (q_from (que_of o q)) 0).2, F)
| ts_pop_timed_out o F b o' : timed_out_pop o = (Some b, o') -> tstep (o, F) (o', b :: F)
| ts_notify o F F' b reason now r o' :
    F ≡ₚ b :: F' -> _mtlk_txmm_call_usr_clb_locked run_clb o b reason now = Some (r, o') ->
    tstep (o, F) (o', F')
| ts_start o F : tstep (o, F) (mtlk_txmm_start o, F)
| ts_stop o F : tstep (o, F) (mtlk_txmm_stop o, F)
| ts_halt o F : tstep (o, F) (mtlk_txmm_halt o, F).

Lemma txmm_inv_perm o F F' : F ≡ₚ F' -> txmm_inv o F -> txmm_inv o F'.
Proof.
  intros HF [? ? Hn Hf]. split; [done|done|by rewrite <-HF|]. intros b Hb. apply Hf. by rewrite HF.
Qed.

(** Scanning a full queue does nothing: the loop stops where it starts. *)
Lemma scan_full fuel o now q order cnt :
  que_wf (tb_max_msgs o) (que_of o q) -> q_total (que_of o q) = tb_max_msgs o ->
  timer_scan fuel o now q order (q_from (que_of o q)) cnt = (cnt, o).
Proof.
  intros [] Ht. destruct fuel; simpl; [done|].
  destruct (Nat.eqb_spec (q_from (que_of o q)) (q_to (que_of o q))) as [|Hn]; [done|].
  exfalso. apply Hn. rewrite qw_to, Ht. ring_arith.
Qed.

Lemma pos_zero n Q : que_wf n Q -> pos n Q 0 = q_from Q.
Proof. intros []. ring_arith. Qed.

Lemma scan_inv o F now q order :
  txmm_inv o F -> q = MTLK_TXMMB_QUEUED \/ q = MTLK_TXMMB_SENT ->
  txmm_inv (timer_scan (tb_max_msgs o) o now q order (q_from (que_of o q)) 0).2 F.
Proof.
  intros HI Hq. assert (q <> MTLK_TXMMB_NONE) as Hqn by (by destruct Hq as [-> | ->]).
  pose proof (olnk_wf _ _ _ (ti_lnk _ _ HI) Hqn) as Hw.
  destruct (decide (q_total (que_of o q) = tb_max_msgs o)) as [He|He]; [by rewrite scan_full|].
  pose proof (qw_total _ _ Hw).
  destruct (scan_spec now q order (tb_max_msgs o) o F 0 [] (cont o q)) as (o' & pre' & R1 & R2 & _);
    [done|done|done|unfold cont; rewrite contents_length; lia..|].
  simpl in R1. rewrite pos_zero in R1 by done. by rewrite R1.
Qed.

(** The copy of the confirmation's payload into the block. *)
Lemma cfm_copy_inv o F b payload :
  txmm_inv o (b :: F) ->
  txmm_inv (upd_block b (bl_set_data (Data (data_id (bl_data (block_of o b)))
    (memcpy (data_payload (bl_data (block_of o b))) payload (Z.to_nat (tb_max_payload_size o)))
    (data_payload_size (bl_data (block_of o b))))) o) (b :: F).
Proof.
  intros HI. set (d := Data _ _ _).
  destruct (upd_quiet o None b (bl_set_data d)) as [? ?]; [by intros ?|apply HI..|].
  destruct HI as [? ? ? Hf]. split; [done|done|done|]. intros b' Hb'.
  destruct (Hf b' Hb') as (k & Hk & ?). unfold in_flight. simpl.
  destruct (decide (b = b')) as [->|?].
  - rewrite list_lookup_alter_eq, Hk. eexists. by split.
  - rewrite list_lookup_alter_ne by done. by exists k.
Qed.

Lemma tstep_inv st st' : txmm_inv st.1 st.2 -> tstep st st' -> txmm_inv st'.1 st'.2.
Proof.
  intros HI Hs. destruct Hs as
    [vap o F m|o F m b k d (v & Hm & HbF) Hk Hq|o F m b k clb timeout now r o' (v & Hm & HbF) Hk Hq Hr
    |o F m b k (v & Hm & HbF) Hk Hq|o F pmsg|o F s b o' Hr|o F s o' Hr|o F F' b payload now o' HF Hr
    |o F q now order Hq|o F b o' Hr|o F F' b reason now r o' HF Hr|o F|o F|o F]; simpl in *.
  - unfold mtlk_txmm_msg_get_empty_data. destruct (tb_msgs o !! m) eqn:Hm; [done|].
    by apply inv_attach_inv.
  - destruct (upd_quiet o None b (bl_set_data d)) as [? ?]; [by intros ?|apply HI..|].
    apply (inv_step o _ F b HI HbF); [done|done|]. apply upd_others.
  - unfold mtlk_txmm_msg_send in Hr. rewrite Hm in Hr.
    pose proof (send_ex_inv msg_get_from_pool msg_free_to_pool v o F b k clb timeout now HI HbF Hk Hq) as Hs.
    destruct (_mtlk_txmm_send_ex _ _ _ _ _ _ _ _) as [r1 o1]. simpl in Hs. destruct Hs as [-> Hs].
    by simplify_eq/=.
  - eapply cancel_inv; [done|done|done|]. intros k' Hk'. by simplify_eq.
  - unfold mtlk_txmm_pump. pose proof (pump_inv msg_get_from_pool msg_free_to_pool o F pmsg HI) as Hp.
    destruct (_mtlk_txmm_pump _ _ _ _) as [[[[s|] [v|]] []] o1]; simpl in *; try done.
    by apply (inv_ext o1).
  - pose proof (on_cfm_dequeue_spec o F s HI) as [_ Hd]. rewrite Hr in Hd. by destruct Hd.
  - pose proof (on_cfm_dequeue_spec o F s HI) as [_ Hd]. rewrite Hr in Hd. by destruct Hd.
  - apply (txmm_inv_perm _ _ _ HF) in HI. unfold on_cfm_deliver in Hr.
    pose proof (cfm_copy_inv o F' b payload HI) as HI1.
    set (o1 := upd_block b _ o) in *.
    destruct (deliver_inv run_clb o1 F' b MTLK_TXMM_CLBR_CONFIRMED now HI1) as (r & o2 & Hd & HI2).
    rewrite Hd in Hr. by simplify_eq/=.
  - by apply scan_inv.
  - destruct (cont o MTLK_TXMMB_TIMED_OUT) as [|b' rest] eqn:Hc.
    + apply cont_nil_total in Hc. unfold timed_out_pop in Hr. by rewrite Hc in Hr.
    + destruct (pop_timed_out o F b' rest HI Hc) as (o1 & Hp & HI1 & _). rewrite Hr in Hp. by simplify_eq.
  - apply (txmm_inv_perm _ _ _ HF) in HI.
    destruct (deliver_inv run_clb o F' b reason now HI) as (r' & o1 & Hd & HI1). rewrite Hr in Hd. by simplify_eq.
  - by apply (inv_ext o).
  - unfold mtlk_txmm_stop. case_match; [|done]. by apply (inv_ext o).
  - by apply (inv_ext o).
Qed.

Lemma txmm_init_inv max_msgs max_payload_size pool junk payloads :
  0 < max_msgs -> (forall q, length (junk q) = max_msgs) ->
  txmm_inv (mtlk_txmm_init max_msgs max_payload_size pool junk payloads : base) [].
Proof.
  intros Hn Hj. set (o := mtlk_txmm_init _ _ _ _ _ : base).
  assert (forall b k, tb_blocks o !! b = Some k -> b < max_msgs /\ bl_que k = MTLK_TXMMB_FREE /\ bl_idx k = b) as Hbl.
  { intros b k. simpl. rewrite list_lookup_fmap. intros (i & Hi & ->)%fmap_Some_1.
    by apply lookup_seq in Hi as [-> ?]. }
  assert (forall b, b < max_msgs -> lk (tb_blocks o) b = Some (MTLK_TXMMB_FREE, b)) as Hlk.
  { intros b Hb. unfold lk. simpl. rewrite list_lookup_fmap, lookup_seq_lt by done. done. }
  split; [split; [done|]| |by apply NoDup_nil_2|by intros b ?%not_elem_of_nil].
  - split; simpl.
    + done.
    + by rewrite length_fmap, length_seq.
    + intros [] Hq; try done; (split; simpl; [|lia|lia|ring_arith]); [by rewrite length_seq|apply Hj..].
    + intros [] p Hq Ha Hh; simpl in *; try (by destruct Ha; simpl in *; lia).
      destruct Ha as [Hp _]. simpl. rewrite list_lookup_total_alt, lookup_seq_lt by done. simpl. by apply Hlk.
    + intros b q p _ Hb Hq. unfold lk in Hb. apply fmap_Some in Hb as (k & Hk & Heq).
      destruct (Hbl b k Hk) as (Hlt & E1 & E2). rewrite E1, E2 in Heq. simplify_eq. simpl.
      split_and!; [split; [done|]; ring_arith| |done].
      by rewrite list_lookup_total_alt, lookup_seq_lt.
    + done.
  - split.
    + intros m b v Hm. by destruct (lookup_empty_Some (M := gmap Msg) m (b, v)).
    + intros b k Hk Hq. by destruct (Hbl b k Hk) as (_ & ? & _).
    + intros b k Hk Hq. destruct (Hbl b k Hk) as (_ & E & _). rewrite E in Hq. by destruct Hq as [?|[?|?]].
Qed.

(** ** Every block is somewhere, exactly once *)

Definition reachable (max_msgs : nat) (st : base * list nat) : Prop :=
  exists max_payload_size pool junk payloads,
    (forall q, length (junk q) = max_msgs) /\
    rtc tstep (mtlk_txmm_init max_msgs max_payload_size pool junk payloads, []) st.

Lemma reachable_inv n o F : 0 < n -> reachable n (o, F) -> txmm_inv o F.
Proof.
  intros Hn (mp & pool & junk & pl & Hj & Hr).
  pose proof (txmm_init_inv n mp pool junk pl Hn Hj) as HI.
  assert (forall st st', rtc tstep st st' -> txmm_inv st.1 st.2 -> txmm_inv st'.1 st'.2) as Hall.
  { induction 1; [done|]. eauto using tstep_inv. }
  by apply (Hall _ _ Hr).
Qed.

Definition blocks_in o (P : mtlk_txmm_block_e -> bool) : list nat :=
  List.filter (fun b => P (bl_que (block_of o b))) (seq 0 (tb_max_msgs o)).

Definition is_que q q' : bool := bool_decide (q' = q).

Lemma block_of_lt o F b : txmm_inv o F -> b < tb_max_msgs o ->
  tb_blocks o !! b = Some (block_of o b).
Proof.
  intros [[_ Hl] _ _ _] Hb. apply list_lookup_lookup_total_lt. by rewrite (l_blen _ _ _ _ _ Hl).
Qed.

Lemma elem_of_blocks_in o F P b :
  txmm_inv o F -> b ∈ blocks_in o P <-> exists k, tb_blocks o !! b = Some k /\ P (bl_que k) = true.
Proof.
  intros HI. unfold blocks_in. rewrite list_elem_of_In, List.filter_In, <-list_elem_of_In, elem_of_seq.
  split.
  - intros [Hb HP]. exists (block_of o b). split; [|done]. by eapply block_of_lt; [|lia].
  - intros (k & Hk & HP). pose proof (olnk_block_lt _ _ _ _ (ti_lnk _ _ HI) Hk).
    split; [lia|]. unfold block_of. by rewrite (list_lookup_total_correct _ _ _ Hk).
Qed.

Lemma NoDup_filter_seq P n : NoDup (List.filter P (seq 0 n)).
Proof. apply NoDup_ListNoDup, List.NoDup_filter, List.seq_NoDup. Qed.

Lemma cont_blocks_in o F q :
  txmm_inv o F -> q <> MTLK_TXMMB_NONE -> cont o q ≡ₚ blocks_in o (is_que q).
Proof.
  intros HI Hq. apply NoDup_Permutation.
  - by eapply cont_NoDup; [apply HI|].
  - apply NoDup_filter_seq.
  - intros b. rewrite (elem_of_cont _ _ _ (ti_lnk _ _ HI) Hq), (elem_of_blocks_in _ _ _ _ HI).
    setoid_rewrite olk_Some. unfold is_que. setoid_rewrite bool_decide_eq_true. split.
    + intros (p & k & ? & ? & ?). eauto.
    + intros (k & ? & ?). eauto.
Qed.

Lemma filter_partition {A} (P : A -> bool) l :
  l ≡ₚ List.filter P l ++ List.filter (fun x => negb (P x)) l.
Proof.
  induction l as [|x l IH]; simpl; [done|]. destruct (P x); simpl.
  - by rewrite IH at 1.
  - rewrite <-Permutation_middle. by rewrite IH at 1.
Qed.

(** The blocks of the messages in use are the blocks that are not FREE. *)
Lemma msgs_blocks o F :
  txmm_inv o F ->
  (fun x : Msg * (nat * Z) => x.2.1) <$> map_to_list (tb_msgs o)
    ≡ₚ blocks_in o (fun q => negb (is_que MTLK_TXMMB_FREE q)).
Proof.
  intros HI. apply NoDup_Permutation.
  - apply NoDup_fmap_2_strong; [|apply NoDup_map_to_list].
    intros [m1 [b1 v1]] [m2 [b2 v2]] H1%elem_of_map_to_list H2%elem_of_map_to_list E. simpl in E. subst b2.
    destruct (bi_msg _ (ti_binv _ _ HI) _ _ _ H1) as (k1 & ? & _ & ?).
    destruct (bi_msg _ (ti_binv _ _ HI) _ _ _ H2) as (k2 & ? & _ & ?). congruence.
  - apply NoDup_filter_seq.
  - intros b. rewrite (elem_of_blocks_in _ _ _ _ HI), list_elem_of_fmap. unfold is_que.
    setoid_rewrite negb_true_iff. setoid_rewrite bool_decide_eq_false. split.
    + intros ([m [b' v]] & -> & Hm%elem_of_map_to_list). simpl.
      destruct (bi_msg _ (ti_binv _ _ HI) _ _ _ Hm) as (k & ? & ? & _). eauto.
    + intros (k & Hk & Hq). destruct (bi_blk _ (ti_binv _ _ HI) _ _ Hk Hq) as (m & v & _ & Hm).
      exists (m, (b, v)). split; [done|]. by apply elem_of_map_to_list.
Qed.

(** C4. In every state reachable by the critical sections of the API, of
    confirmations and of timeouts in any interleaving that [tstep] allows, each
    of the [max_msgs] blocks is in exactly one of the four queues or held by
    its message's owner, and the messages in use are as many as the blocks that
    are not FREE: no block is lost or duplicated. [tstep] asks of the owners to
    touch a message only while its block is not being delivered
    ([block_free_to_use]), to fill and send it only when its block is in no
    queue, and not to cancel one whose block is in TIMED_OUT; and
    [mtlk_txmm_restore] is not a step ([txmm_cfm_cancel_race],
    [txmm_restore_keeps_queue]). *)
Theorem txmm_blocks_conserved n o F :
  0 < n -> reachable n (o, F) ->
  cont o MTLK_TXMMB_FREE ++ cont o MTLK_TXMMB_QUEUED ++ cont o MTLK_TXMMB_SENT ++
    cont o MTLK_TXMMB_TIMED_OUT ++ blocks_in o (is_que MTLK_TXMMB_NONE)
    ≡ₚ seq 0 (tb_max_msgs o) /\
  size (tb_msgs o) + length (cont o MTLK_TXMMB_FREE) = tb_max_msgs o.
Proof.
  intros Hn Hr. pose proof (reachable_inv n o F Hn Hr) as HI.
  rewrite !(cont_blocks_in _ _ _ HI) by done. split.
  - unfold blocks_in. induction (seq 0 _) as [|b l IH]; simpl; [done|].
    destruct (bl_que (block_of o b)); simpl; rewrite <-?Permutation_middle; by rewrite IH.
  - rewrite <-length_map_to_list, <-(length_fmap (fun x : Msg * (nat * Z) => x.2.1)).
    rewrite (Permutation_length (msgs_blocks o F HI)), Nat.add_comm, <-length_app.
    unfold blocks_in. rewrite <-filter_partition. apply length_seq.
Qed.

(** Whenever a confirmation or timeout takes a block out of its queue, the
    delivery that follows finds its message and callback, whatever happened to
    other messages in between: no NULL is dereferenced. *)
Theorem txmm_deliver_safe n o F b reason payload now :
  0 < n -> reachable n (o, F) -> b ∈ F ->
  is_Some (_mtlk_txmm_call_usr_clb_locked run_clb o b reason now) /\
  is_Some (on_cfm_deliver run_clb o b payload now).
Proof.
  intros Hn Hr Hb. pose proof (reachable_inv n o F Hn Hr) as HI.
  apply list_elem_of_split in Hb as (F1 & F2 & ->).
  apply (txmm_inv_perm _ _ (b :: F1 ++ F2)) in HI; [|by rewrite Permutation_middle].
  split.
  - destruct (deliver_inv run_clb o _ b reason now HI) as (r & o' & -> & _). by eexists.
  - unfold on_cfm_deliver. destruct (deliver_inv run_clb _ _ b MTLK_TXMM_CLBR_CONFIRMED now
      (cfm_copy_inv o (F1 ++ F2) b payload HI)) as (r & o' & -> & _). by eexists.
Qed.

(** ** Timeouts *)

(** With room left in the queue, a timer tick moves exactly the expired
    requests out of it and tells their owners, in queue order and once each;
    the requests that are not due stay (in their order for QUEUED), those whose
    owner asks for it are queued again at the end, and the notification loop
    ends with TIMED_OUT empty. *)
Theorem txmm_timer_spec o F now q reason order :
  txmm_inv o F -> q = MTLK_TXMMB_QUEUED \/ q = MTLK_TXMMB_SENT ->
  cont o MTLK_TXMMB_TIMED_OUT = [] -> length (cont o q) < tb_max_msgs o ->
  let due := List.filter (is_expired now o) (cont o q) in
  let rest := List.filter (fun b => negb (is_expired now o b)) (cont o q) in
  let again := List.filter (wants_resend run_clb reason o) due in
  exists o' left,
    _mtlk_txmm_on_timer_que run_clb o now q reason order = Some (Z.of_nat (length due), o') /\
    txmm_inv o' F /\ cont o' MTLK_TXMMB_TIMED_OUT = [] /\
    tb_out o' = tb_out o ++ concat (timeout_events reason o <$> due) /\
    left ≡ₚ rest /\ (order = true -> left = rest) /\
    cont o' MTLK_TXMMB_SENT = (if decide (q = MTLK_TXMMB_SENT) then left else cont o MTLK_TXMMB_SENT) /\
    cont o' MTLK_TXMMB_QUEUED =
      (if decide (q = MTLK_TXMMB_QUEUED) then left else cont o MTLK_TXMMB_QUEUED) ++ again.
Proof.
  intros HI Hq Ht Hlen due rest again.
  assert (q <> MTLK_TXMMB_NONE) as Hqn by (by destruct Hq as [-> | ->]).
  pose proof (olnk_wf _ _ _ (ti_lnk _ _ HI) Hqn) as Hw.
  destruct (scan_spec now q order (tb_max_msgs o) o F 0 [] (cont o q))
    as (o1 & left & S1 & S2 & S3 & S4 & S5 & S6 & S7 & S8 & S9); [done|done|done|done|lia|].
  simpl in S1, S7, S8. rewrite pos_zero in S1 by done. fold due in S1, S5. fold rest in S7, S8.
  rewrite Ht in S5. simpl in S5.
  assert (tb_max_msgs o1 = tb_max_msgs o /\ tb_out o1 = tb_out o) as [Hmax Hout] by (by rewrite S3).
  destruct (notify_spec run_clb reason now due (tb_max_msgs o1) o1 F S2 S5)
    as (o' & N1 & N2 & N3 & N4 & N5 & N6).
  { rewrite Hmax. unfold due.
    pose proof (Permutation_length (filter_partition (is_expired now o) (cont o q))) as Hl.
    rewrite length_app in Hl. lia. }
  assert (forall q', q' <> q -> q' <> MTLK_TXMMB_TIMED_OUT -> cont o1 q' = cont o q') as Hoth.
  { intros q' ? ?. unfold cont. by rewrite Hmax, S9. }
  assert ((timeout_events reason o1 <$> due) = (timeout_events reason o <$> due)) as Hev.
  { apply list_fmap_ext. intros i b _. apply (timeout_view_same run_clb). apply S4. }
  assert (List.filter (wants_resend run_clb reason o1) due = again) as Hag.
  { apply List.filter_ext. intros b. apply (timeout_view_same run_clb). apply S4. }
  exists o', left. unfold _mtlk_txmm_on_timer_que. rewrite S1, N1. split_and!.
  - done.
  - done.
  - done.
  - by rewrite N4, Hev, Hout.
  - done.
  - done.
  - rewrite N6. case_decide as Hd; [by subst q|]. by apply Hoth.
  - rewrite N5, Hag. case_decide as Hd; [by rewrite <-Hd, S6|]. by rewrite Hoth.
Qed.

(** When a queue holds all [max_msgs] blocks its scan stops before the
    first of them, so that no request in it times out, however long overdue. *)
Theorem txmm_timer_full_queue o F now q reason order :
  txmm_inv o F -> q = MTLK_TXMMB_QUEUED \/ q = MTLK_TXMMB_SENT ->
  cont o MTLK_TXMMB_TIMED_OUT = [] -> length (cont o q) = tb_max_msgs o ->
  _mtlk_txmm_on_timer_que run_clb o now q reason order = Some (0%Z, o).
Proof.
  intros HI Hq Ht Hlen.
  assert (q <> MTLK_TXMMB_NONE) as Hqn by (by destruct Hq as [-> | ->]).
  pose proof (olnk_wf _ _ _ (ti_lnk _ _ HI) Hqn) as Hw.
  unfold _mtlk_txmm_on_timer_que. unfold cont in Hlen. rewrite contents_length in Hlen.
  rewrite scan_full by done. apply cont_nil_total in Ht.
  destruct (tb_max_msgs o); simpl; unfold timed_out_pop; by rewrite Ht.
Qed.

(** ** Confirmations *)

(** A confirmation for a sent message is delivered to the owner of the
    oldest SENT block with that message, with the confirmation's payload in the
    block; a confirmation for any other message changes nothing but the counter. *)
Theorem txmm_on_cfm_spec o F s payload now :
  txmm_inv o F ->
  match confirmed_block o s with
  | Some b => exists c o',
      bl_clb (block_of o b) = Some c /\
      _mtlk_txmm_on_cfm run_clb o s payload now = Some (MTLK_ERR_OK, o') /\ txmm_inv o' F /\
      let d := bl_data (block_of o b) in
      tb_out o' = tb_out o ++ [EvClb c (Data (data_id d)
        (memcpy (data_payload d) payload (Z.to_nat (tb_max_payload_size o))) (data_payload_size d))
        MTLK_TXMM_CLBR_CONFIRMED] /\
      cont o MTLK_TXMMB_SENT ≡ₚ b :: cont o' MTLK_TXMMB_SENT
  | None => _mtlk_txmm_on_cfm run_clb o s payload now =
      Some (MTLK_ERR_UNKNOWN, set_stats (tb_nof_sent o) (u32 (tb_nof_cfmed o + 1)) (tb_used_peak o) o)
  end.
Proof.
  intros HI. pose proof (on_cfm_dequeue_spec o F s HI) as [H1 H2]. unfold _mtlk_txmm_on_cfm.
  destruct (on_cfm_dequeue o s) as [r o1] eqn:Hd. simpl in H1, H2. subst r.
  destruct (confirmed_block o s) as [b|] eqn:Hcb.
  - destruct H2 as (I1 & _ & Hbare & Hperm & Hqs).
    assert (tb_max_msgs o1 = tb_max_msgs o /\ tb_out o1 = tb_out o /\
      tb_max_payload_size o1 = tb_max_payload_size o) as (Hmax & Hout & Hmp).
    { unfold on_cfm_dequeue in Hd. case_match; [by simplify_eq/=|]. case_match; simplify_eq/=.
      unfold _mtlk_txmm_del_buf_from_que. case_match; [|done]. case_match; [|done]. by case_match. }
    pose proof (cfm_copy_inv o1 F b payload I1) as I2.
    destruct (deliver_inv run_clb _ F b MTLK_TXMM_CLBR_CONFIRMED now I2) as (r & o' & Hdl & I3).
    pose proof (deliver_frame run_clb _ _ _ _ _ _ _ I2 Hdl) as [E1 E2 _ E4 _ _].
    destruct (ti_flight _ _ I2 b) as (k & Hk & _ & c & Hkc); [left|].
    assert (block_of (upd_block b (bl_set_data (Data (data_id (bl_data (block_of o1 b)))
      (memcpy (data_payload (bl_data (block_of o1 b))) payload (Z.to_nat (tb_max_payload_size o1)))
      (data_payload_size (bl_data (block_of o1 b))))) o1) b = k) as Hbk.
    { unfold block_of at 1. by rewrite (list_lookup_total_correct _ _ _ Hk). }
    rewrite Hbk, Hkc in E2. simpl in Hk. rewrite list_lookup_alter_eq in Hk.
    apply fmap_Some in Hk as (k1 & Hk1 & ->). simpl in Hkc.
    assert (block_of o1 b = k1) as Hb1 by (unfold block_of; by rewrite (list_lookup_total_correct _ _ _ Hk1)).
    destruct (bare_data _ _ (same_bare_block _ _ b Hbare)) as [Dd Dc].
    exists c, o'. rewrite Hb1 in *. split_and!.
    + by rewrite <-Dc.
    + unfold on_cfm_deliver. rewrite Hb1, Hdl. done.
    + done.
    + rewrite E2. simpl. by rewrite Hout, Dd, Hmp.
    + rewrite Hperm. unfold cont at 1 2. rewrite E1, E4. done.
  - unfold on_cfm_dequeue in Hd. case_match; simplify_eq/=; [done|].
    case_match; by simplify_eq/=.
Qed.

(** ** Order of submission *)

(** The requests under way, in the order the firmware gets them. *)
Definition pipeline o : list nat := cont o MTLK_TXMMB_SENT ++ cont o MTLK_TXMMB_QUEUED.

Lemma prepare_cont o b s :
  olnk (Some b) o -> b < tb_max_msgs o ->
  let o' := _mtlk_txmm_send_block_prepare o b s in
  cont o' MTLK_TXMMB_SENT = cont o MTLK_TXMMB_SENT ++ [b] /\
  cont o' MTLK_TXMMB_QUEUED = cont o MTLK_TXMMB_QUEUED.
Proof.
  intros Ho Hb. unfold _mtlk_txmm_send_block_prepare. set (size := if (_ || _)%bool then _ else _).
  set (o3 := emit _ _).
  assert (olnk (Some b) o3) as H3 by (by do 2 apply (olnk_upd_detached)).
  destruct (put_buf_spec o3 MTLK_TXMMB_SENT b H3) as [Pf _ _ Pc _ _ Po]; [done|done|].
  set (o4 := _mtlk_txmm_put_buf _ _ _) in *.
  assert (tb_max_msgs o4 = tb_max_msgs o) as Hm by (by rewrite Pf).
  split; [exact Pc|]. change (contents (tb_max_msgs o4) (que_of o4 MTLK_TXMMB_QUEUED) = cont o MTLK_TXMMB_QUEUED).
  by rewrite Hm, Po.
Qed.

Lemma send_head_pipeline o F b rest s o1 :
  txmm_inv o F -> cont o MTLK_TXMMB_QUEUED = b :: rest ->
  _mtlk_txmm_get_buf o MTLK_TXMMB_QUEUED = (Some b, o1) ->
  let o' := _mtlk_txmm_send_block_prepare o1 b s in
  cont o' MTLK_TXMMB_SENT = cont o MTLK_TXMMB_SENT ++ [b] /\ cont o' MTLK_TXMMB_QUEUED = rest.
Proof.
  intros HI Hc Hg. pose proof HI as [Ho _ _ _].
  destruct (get_buf_cons o MTLK_TXMMB_QUEUED b rest Ho ltac:(done) Hc) as (o2 & Hg' & [Gf Gl Gb Gc Go]).
  rewrite Hg in Hg'. injection Hg' as <-.
  assert (tb_max_msgs o1 = tb_max_msgs o) as Hm by (by rewrite Gf).
  assert (exists p, olk o b = Some (MTLK_TXMMB_QUEUED, p)) as [p Hp].
  { apply elem_of_cont; [done|done|]. rewrite Hc. left. }
  destruct (prepare_cont o1 b s Gl) as [C1 C2]; [rewrite Hm; by eapply olnk_lt|].
  intros o'. split; [|by rewrite <-Gc].
  etransitivity; [exact C1|]. f_equal. unfold cont. by rewrite Hm, Go.
Qed.

Lemma pump_cont o F pmsg :
  txmm_inv o F ->
  let r := _mtlk_txmm_pump msg_get_from_pool msg_free_to_pool o pmsg in
  match r.1.1.1, cont o MTLK_TXMMB_QUEUED with
  | Some s, b :: rest => r.1.2 = MTLK_TXMM_OK_SENT /\ r.1.1.2 = Some (bl_vap (block_of r.2 b)) /\
      cont r.2 MTLK_TXMMB_SENT = cont o MTLK_TXMMB_SENT ++ [b] /\
      cont r.2 MTLK_TXMMB_QUEUED = rest
  | _, _ => r.1.1.2 = None /\ cont r.2 MTLK_TXMMB_SENT = cont o MTLK_TXMMB_SENT /\
      cont r.2 MTLK_TXMMB_QUEUED = cont o MTLK_TXMMB_QUEUED
  end.
Proof.
  intros HI. unfold _mtlk_txmm_pump. destruct (cont o MTLK_TXMMB_QUEUED) as [|b rest] eqn:Hc.
  { pose proof Hc as Hz%cont_nil_total. rewrite Hz. by destruct pmsg; split_and!; try exact Hc. }
  assert (q_total (que_of o MTLK_TXMMB_QUEUED) <> 0) as Hz by (rewrite <-cont_nil_total, Hc; done).
  destruct (Nat.eqb_spec (q_total (que_of o MTLK_TXMMB_QUEUED)) 0) as [|_]; [done|]. simpl.
  set (p := match pmsg with Some s => _ | None => _ end).
  assert (exists s' o1, p = (s', o1) /\ txmm_inv o1 F /\ (forall q, cont o1 q = cont o q))
    as (s' & o1 & -> & HI1 & Hc1).
  { unfold p. destruct pmsg as [s|]; [by do 2 eexists|].
    destruct (msg_get_from_pool (tb_pool o)) as [s pl].
    do 2 eexists. split; [done|]. split; [by apply (inv_ext o)|done]. }
  destruct s' as [s|]; simpl; [|by rewrite !Hc1].
  pose proof Hc as Hcc. rewrite <-Hc1 in Hcc.
  destruct (get_buf_cons o1 MTLK_TXMMB_QUEUED b rest (ti_lnk _ _ HI1) ltac:(done) Hcc) as (o2 & Hg & _).
  rewrite Hg. simpl. split; [done|]. split; [done|].
  destruct (send_head_pipeline _ _ _ _ s _ HI1 Hcc Hg) as [C1 C2]. split; [|exact C2].
  etransitivity; [exact C1|]. by rewrite Hc1.
Qed.


(** ** Cancelling *)

Lemma filter_other_delete b i (l : list nat) : NoDup l -> l !! i = Some b ->
  delete i l = List.filter (fun x => negb (x =? b)) l.
Proof.
  intros Hnd Hk. rewrite <-(take_drop_middle l i b Hk) in Hnd |- *.
  assert (i = length (take i l)) as Hlen by (rewrite length_take; apply lookup_lt_Some in Hk; lia).
  rewrite Hlen at 1. rewrite delete_middle, List.filter_app. simpl. rewrite Nat.eqb_refl. simpl.
  apply NoDup_app in Hnd as (_ & Hd1 & [Hd2 _]%NoDup_cons).
  assert (forall l', b ∉ l' -> List.filter (fun x => negb (x =? b)) l' = l') as Hid.
  { clear. induction l' as [|x l' IH]; intros Hb; simpl; [done|].
    apply not_elem_of_cons in Hb as [Hne Hb]. destruct (Nat.eqb_spec x b); [done|]. simpl. by rewrite IH. }
  rewrite !Hid; [done|done|]. intros Hin. apply (Hd1 b Hin). left.
Qed.

(** Cancelling a message gives its block back (to the end of FREE) and
    forgets the message.  A request still waiting in QUEUED is taken out
    without changing the order of the others, and SENT keeps all others too. *)
Theorem txmm_cancel_spec o F m b v k :
  txmm_inv o F -> tb_msgs o !! m = Some (b, v) -> b ∉ F -> tb_blocks o !! b = Some k ->
  bl_que k <> MTLK_TXMMB_TIMED_OUT ->
  let o' := mtlk_txmm_msg_cancel o m in
  txmm_inv o' F /\ tb_msgs o' = delete m (tb_msgs o) /\
  cont o' MTLK_TXMMB_FREE = cont o MTLK_TXMMB_FREE ++ [b] /\
  cont o' MTLK_TXMMB_QUEUED = List.filter (fun x => negb (x =? b)) (cont o MTLK_TXMMB_QUEUED) /\
  cont o' MTLK_TXMMB_SENT ≡ₚ List.filter (fun x => negb (x =? b)) (cont o MTLK_TXMMB_SENT).
Proof.
  intros HI Hm HbF Hk Hto o'.
  assert (txmm_inv o' F) as HI' by (eapply cancel_inv; [done..|]; intros k' ?; by simplify_eq).
  pose proof HI as [Ho Hb _ _]. destruct (msg_block _ _ _ _ Hb Hm) as (k' & p & Hk' & Hq & Hkm & Hp).
  simplify_eq. split; [done|].
  assert (forall q, q <> MTLK_TXMMB_NONE -> bl_que k <> q ->
    List.filter (fun x => negb (x =? b)) (cont o q) = cont o q) as Hid.
  { intros q Hqn Hqk. assert (b ∉ cont o q) as Hnin.
    { intros [p' Hp']%(elem_of_cont _ _ _ Ho Hqn). congruence. }
    revert Hnin. induction (cont o q) as [|x l IH]; intros Hnin; simpl; [done|].
    apply not_elem_of_cons in Hnin as [? ?]. destruct (Nat.eqb_spec x b); [done|]. simpl. by rewrite IH. }
  assert (forall q o1, q <> MTLK_TXMMB_NONE -> tb_max_msgs o1 = tb_max_msgs o -> que_of o1 q = que_of o q ->
    cont o1 q = cont o q) as Hsame by (intros q o1 _ E1 E2; unfold cont; by rewrite E1, E2).
  subst o'. unfold mtlk_txmm_msg_cancel in *. rewrite Hm in *. unfold _mtlk_txmm_free, block_of in *.
  rewrite (list_lookup_total_correct _ _ _ Hk) in *.
  assert (forall q, (q = MTLK_TXMMB_QUEUED \/ q = MTLK_TXMMB_SENT) -> bl_que k = q ->
     cont o q !! offset (tb_max_msgs o) (q_from (que_of o q)) p = Some b /\ NoDup (cont o q)) as Hat.
  { intros q Hqq Hkq. assert (q <> MTLK_TXMMB_NONE) by (by destruct Hqq as [-> | ->]).
    rewrite Hkq in Hp. destruct (l_bwd _ _ _ _ _ (proj2 Ho) b q p) as (Ha & Hpp & _); [done..|].
    split; [|by eapply cont_NoDup]. unfold cont. fold (que_of o q) in Ha, Hpp.
    rewrite active_contents by (done || by eapply olnk_wf). by f_equal. }
  assert (forall o1, free_post o b o1 -> tb_max_msgs o1 = tb_max_msgs o /\ tb_msgs o1 = tb_msgs o) as Hfr.
  { intros o1 [Ff _ _ _]. by rewrite Ff. }
  destruct (bl_que k) eqn:Hkq; try done.
  - destruct (free_buf_queued o MTLK_TXMMB_QUEUED b p true Ho ltac:(done) ltac:(done) Hp) as (Hfp & Hc & Hoth).
    destruct (Hfr _ Hfp) as [F1 F2]. destruct Hfp as [_ _ Fc _].
    destruct (Hat MTLK_TXMMB_QUEUED ltac:(by left) eq_refl) as [A1 A2]. split_and!.
    + simpl. by rewrite F2.
    + exact Fc.
    + etransitivity; [exact Hc|]. by apply filter_other_delete.
    + rewrite (Hid MTLK_TXMMB_SENT) by done.
      by rewrite <-(Hsame MTLK_TXMMB_SENT _ ltac:(done) F1 (Hoth MTLK_TXMMB_SENT ltac:(done) ltac:(done))).
  - destruct (free_buf_queued o MTLK_TXMMB_SENT b p false Ho ltac:(done) ltac:(done) Hp) as (Hfp & Hc & Hoth).
    destruct (Hfr _ Hfp) as [F1 F2]. destruct Hfp as [_ _ Fc _].
    destruct (Hat MTLK_TXMMB_SENT ltac:(by right) eq_refl) as [A1 A2]. split_and!.
    + simpl. by rewrite F2.
    + exact Fc.
    + rewrite (Hid MTLK_TXMMB_QUEUED) by done.
      exact (Hsame MTLK_TXMMB_QUEUED _ ltac:(done) F1 (Hoth MTLK_TXMMB_QUEUED ltac:(done) ltac:(done))).
    + rewrite <-(filter_other_delete b _ _ A2 A1). apply (Permutation_cons_inv (a := b)).
      transitivity (cont o MTLK_TXMMB_SENT).
      * symmetry. etransitivity; [exact (del_list_perm false _ b _ A1)|]. by rewrite <-Hc.
      * exact (del_list_perm true _ b _ A1).
  - destruct (free_buf_detached o b k) with (order := false) as [Hfp Hoth];
      [apply olnk_detach; [done|by rewrite Hp]|done|congruence|].
    destruct (Hfr _ Hfp) as [F1 F2]. destruct Hfp as [_ _ Fc _]. split_and!.
    + simpl. by rewrite F2.
    + exact Fc.
    + rewrite (Hid MTLK_TXMMB_QUEUED) by done.
      exact (Hsame MTLK_TXMMB_QUEUED _ ltac:(done) F1 (Hoth MTLK_TXMMB_QUEUED ltac:(done))).
    + rewrite (Hid MTLK_TXMMB_SENT) by done.
      by rewrite <-(Hsame MTLK_TXMMB_SENT _ ltac:(done) F1 (Hoth MTLK_TXMMB_SENT ltac:(done))).
Qed.

(** ** Allocation *)

(** While the module is active a message gets a block exactly when one is
    FREE: the oldest free one, which is then held by the message's owner; with
    no free block, or while inactive, or for a message already in use, the call
    fails and no message changes. *)
Theorem txmm_get_empty_data_spec o F vap m :
  txmm_inv o F ->
  let r := mtlk_txmm_msg_get_empty_data vap o m in
  match tb_msgs o !! m, cont o MTLK_TXMMB_FREE with
  | None, b :: rest =>
      if is_active o
      then r.1 = Some b /\ tb_msgs r.2 = <[m := (b, vap)]> (tb_msgs o) /\
           cont r.2 MTLK_TXMMB_FREE = rest /\
           (exists k, tb_blocks r.2 !! b = Some k /\ bl_que k = MTLK_TXMMB_NONE /\ bl_msg k = Some m) /\
           txmm_inv r.2 F
      else r = (None, o)
  | _, _ => r.1 = None /\ tb_msgs r.2 = tb_msgs o /\ tb_ques r.2 = tb_ques o
  end.
Proof.
  intros HI. unfold mtlk_txmm_msg_get_empty_data. destruct (tb_msgs o !! m) as [[b v]|] eqn:Hm; [done|].
  pose proof (inv_attach_inv vap o F m HI Hm) as HI'. revert HI'. unfold _mtlk_txmm_attach_data.
  destruct (cont o MTLK_TXMMB_FREE) as [|b rest] eqn:Hc.
  { rewrite get_buf_nil by done. intros _. rewrite (delete_id _ _ Hm). simpl.
    destruct (is_active o); simpl; by rewrite Hm. }
  destruct (is_active o); [|simpl; by rewrite Hm].
  pose proof (ti_lnk _ _ HI) as Ho.
  destruct (get_buf_cons o MTLK_TXMMB_FREE b rest Ho ltac:(done) Hc) as (o1 & -> & [Gf Gl Gb Gc _]).
  assert (exists p, olk o b = Some (MTLK_TXMMB_FREE, p)) as [p Hp].
  { apply elem_of_cont; [done|done|]. rewrite Hc. left. }
  apply olk_Some in Hp as (k & Hk & _).
  set (o2 := _mtlk_txmm_adjust_usage_stats o1).
  assert (tb_blocks o2 = tb_blocks o /\ tb_msgs o2 = tb_msgs o /\ cont o2 MTLK_TXMMB_FREE = rest) as (A1 & A2 & A3).
  { unfold o2, _mtlk_txmm_adjust_usage_stats. rewrite <-Gb, <-Gc.
    assert (tb_msgs o1 = tb_msgs o) as <- by (by rewrite Gf). by case_match. }
  intros HI'. split_and!; [|simpl; by rewrite A2|exact A3| |exact HI'].
  - simpl. by rewrite lookup_insert_eq.
  - eexists. simpl. rewrite A1, !list_lookup_alter_eq, Hk. by split_and!.
Qed.

(** ** What goes wrong *)

(** A confirmation races with its owner's cancel: if the owner cancels the
    message after the confirmation took the block out of SENT and before it is
    delivered, the delivery finds the cleared block and dereferences NULL.  The
    guard [if (!msg->data)] comes after the dereference of [block->msg]. *)
Theorem txmm_cfm_cancel_race o F s b m v o1 payload now :
  txmm_inv o F -> on_cfm_dequeue o s = (Some b, o1) -> tb_msgs o1 !! m = Some (b, v) ->
  on_cfm_deliver run_clb (mtlk_txmm_msg_cancel o1 m) b payload now = None.
Proof.
  intros HI Hd Hm. pose proof (on_cfm_dequeue_spec o F s HI) as [_ H2]. rewrite Hd in H2.
  simpl in H2. destruct H2 as (HI1 & _). destruct (ti_flight _ _ HI1 b) as (k & Hk & Hkq & _); [left|].
  unfold mtlk_txmm_msg_cancel. rewrite Hm. unfold _mtlk_txmm_free, block_of.
  rewrite (list_lookup_total_correct _ _ _ Hk), Hkq.
  destruct (free_buf_detached o1 b k) with (order := false) as [[_ _ _ Gb] _];
    [apply olnk_detach; [apply HI1|by eapply olk_none]|done|congruence|].
  specialize (Gb b). rewrite list_lookup_alter_eq, Hk in Gb.
  set (o2 := _mtlk_txmm_free_buf o1 b false false) in *.
  destruct (tb_blocks o2 !! b) as [k2|] eqn:Hk2; [|done].
  assert (bl_msg k2 = None) as Hmn by (destruct k2; by simplify_eq/=).
  unfold on_cfm_deliver. set (o3 := upd_block b _ _).
  assert (bl_msg (block_of o3 b) = None) as Hn.
  { unfold block_of, o3. rewrite list_lookup_total_alt. simpl. by rewrite list_lookup_alter_eq, Hk2. }
  unfold _mtlk_txmm_call_usr_clb_locked. by rewrite Hn.
Qed.

Lemma room_absent o q b :
  olnk None o -> q <> MTLK_TXMMB_NONE -> b < tb_max_msgs o -> b ∉ cont o q ->
  q_total (que_of o q) < tb_max_msgs o.
Proof.
  intros Ho Hq Hb Hnin. pose proof (cont_NoDup o q None Ho Hq) as Hnd.
  assert (NoDup (b :: cont o q)) as Hnd' by (by apply NoDup_cons).
  assert (b :: cont o q ⊆ seq 0 (tb_max_msgs o)) as Hsub.
  { intros y [->|[p Hp]%(elem_of_cont _ _ _ Ho Hq)]%elem_of_cons; apply elem_of_seq; [lia|].
    pose proof (olnk_lt _ _ _ _ Ho Hp). lia. }
  pose proof (submseteq_length _ _ (NoDup_submseteq _ _ Hnd' Hsub)) as Hlen.
  unfold cont in Hlen. simpl in Hlen. rewrite contents_length, length_seq in Hlen. lia.
Qed.

(** The recovery of [mtlk_txmm_restore] does not empty the queues: a block
    in QUEUED or SENT whose owner answers the discard with FREE is appended to
    FREE without being removed from its queue (the call that would remove it
    returns early because the block already reads FREE), so that it ends up in
    two queues. *)
Theorem txmm_restore_keeps_queue o F b k q c d now :
  txmm_inv o F -> tb_blocks o !! b = Some k -> bl_que k = q ->
  q = MTLK_TXMMB_QUEUED \/ q = MTLK_TXMMB_SENT ->
  bl_clb k = Some c -> run_clb c (bl_data k) MTLK_TXMM_CLBR_RCVRY_DISCARD = (MTLK_TXMM_CLBA_FREE, d) ->
  exists o', restore_block run_clb o b now = Some o' /\
    cont o' q = cont o q /\ b ∈ cont o' q /\ b ∈ cont o' MTLK_TXMMB_FREE.
Proof.
  intros HI Hk Hkq Hq Hkc Hrun. pose proof HI as [Ho Hb _ _].
  assert (q <> MTLK_TXMMB_NONE /\ q <> MTLK_TXMMB_FREE) as [Hqn Hqf] by (by destruct Hq as [-> | ->]).
  destruct (bi_blk _ Hb b k Hk) as (m & v & Hkm & Hm); [congruence|].
  assert (b < tb_max_msgs o) as Hlt by (by eapply olnk_block_lt).
  assert (block_of o b = k) as Hbo by (unfold block_of; by rewrite (list_lookup_total_correct _ _ _ Hk)).
  unfold restore_block. cbv zeta. rewrite Hbo, Hkq, decide_True by (destruct Hq; auto).
  unfold _mtlk_txmm_call_usr_clb_locked. rewrite Hbo, Hkm, Hm, Hkc, Hrun. cbv zeta.
  set (o1 := upd_block b (bl_set_data d) (emit _ o)).
  assert (tb_blocks o1 !! b = Some (bl_set_data d k)) as Hk1 by (unfold o1; simpl; by rewrite list_lookup_alter_eq, Hk).
  assert (block_of o1 b = bl_set_data d k) as Hbo1
    by (unfold block_of; by rewrite (list_lookup_total_correct _ _ _ Hk1)).
  set (Q := que_of o MTLK_TXMMB_FREE).
  assert (_mtlk_txmm_free_buf o1 b false false =
    set_que MTLK_TXMMB_FREE (que_push (tb_max_msgs o) Q b)
      (upd_block b (bl_set_link MTLK_TXMMB_FREE (q_to Q)) (upd_block b _mtlk_txmm_zero_block o1))) as ->.
  { unfold _mtlk_txmm_free_buf. rewrite Hbo1, decide_False by (simpl; congruence).
    unfold _mtlk_txmm_put_buf.
    assert (valid_que (upd_block b _mtlk_txmm_zero_block o1) MTLK_TXMMB_FREE = true) as ->
      by (by apply (valid_que_true None o)). done. }
  set (o3 := set_msgs _ _).
  assert (bl_que (block_of o3 b) = MTLK_TXMMB_FREE) as Hfree.
  { unfold block_of. rewrite list_lookup_total_alt. unfold o3, o1. simpl.
    by rewrite !list_lookup_alter_eq, Hk. }
  exists o3. split.
  { simpl. unfold _mtlk_txmm_free_buf. by rewrite decide_True. }
  assert (forall q', que_of o3 q' = if decide (MTLK_TXMMB_FREE = q') then que_push (tb_max_msgs o) Q b else que_of o q') as Hqo.
  { intros q'. unfold que_of at 1, o3. simpl. apply (qat_insert (tb_ques o) MTLK_TXMMB_FREE); [|done].
    by apply (l_qlen _ _ _ _ _ (proj2 Ho)). }
  assert (cont o3 q = cont o q) as Hcq.
  { unfold cont. change (tb_max_msgs o3) with (tb_max_msgs o). by rewrite Hqo, decide_False. }
  split; [done|]. assert (olk o b = Some (q, bl_idx k)) as Hp by (apply olk_Some; eauto). split.
  - rewrite Hcq. apply elem_of_cont; eauto.
  - unfold cont. change (tb_max_msgs o3) with (tb_max_msgs o). rewrite Hqo, decide_True by done.
    rewrite que_push_contents; [apply elem_of_app; right; left|by apply (olnk_wf None)|].
    apply (room_absent o MTLK_TXMMB_FREE b Ho); [done|done|].
    intros [p' Hp']%(elem_of_cont o MTLK_TXMMB_FREE b Ho ltac:(done)). congruence.
Qed.
End TxmmProps.
