(* ===== verification/TxmmExamples.v ===== *)
(** * TxmmExamples: the transport on concrete inputs

    A transport with numbered messages, callbacks and firmware slots, a few
    states reached by running it, and the theorems of [TxmmProps] applied to
    them. *)
From S2P Require Import Prelude TxmmRing Txmm TxmmInv TxmmOps TxmmSafe TxmmTimer TxmmProps.

(** Slots come from a list; callback 1 asks for a resend, the others free. *)
Definition demo_get (p : list nat) : option nat * list nat :=
  match p with [] => (None, []) | s :: p => (Some s, p) end.
Definition demo_free (s : nat) (p : list nat) : list nat := s :: p.
Definition demo_clb (c : nat) (d : mtlk_txmm_data_t) (r : mtlk_txmm_clb_reason_e)
  : mtlk_txmm_clb_action_e * mtlk_txmm_data_t :=
  (if (c =? 1)%nat then MTLK_TXMM_CLBA_SEND else MTLK_TXMM_CLBA_FREE, d).

Abbreviation demo_base := (mtlk_txmm_base_t (Msg := nat) (Clb := nat) (Slot := nat) (Pool := list nat)).

Definition demo_init (n : nat) (slots : list nat) : demo_base :=
  mtlk_txmm_init n 4 slots (fun _ => replicate n 0%nat) (fun _ => [0; 0; 0; 0]).

Definition demo_get_data (m : nat) (o : demo_base) : demo_base := (mtlk_txmm_msg_get_empty_data 0 o m).2.
Definition demo_send (m clb : nat) (timeout now : Z) (o : demo_base) : demo_base :=
  match mtlk_txmm_msg_send demo_get demo_free o m clb timeout now with Some (_, o) => o | None => o end.

(** A run as a list of calls. *)
Inductive demo_call := DStart | DGet (m : nat) | DSend (m clb : nat) (timeout now : Z) | DCfm (s : nat).

Definition demo_exec (c : demo_call) (st : demo_base * list nat) : demo_base * list nat :=
  match c with
  | DStart => (mtlk_txmm_start st.1, st.2)
  | DGet m => (demo_get_data m st.1, st.2)
  | DSend m clb timeout now => (demo_send m clb timeout now st.1, st.2)
  | DCfm s => match on_cfm_dequeue st.1 s with
              | (Some b, o) => (o, b :: st.2)
              | (None, o) => (o, st.2)
              end
  end.

(** The calls respect the module's protocol. *)
Definition demo_ok (c : demo_call) (st : demo_base * list nat) : bool :=
  match c with
  | DSend m clb timeout now =>
      match tb_msgs st.1 !! m with
      | Some (b, _) => bool_decide (b ∉ st.2) &&
          match tb_blocks st.1 !! b with
          | Some k => bool_decide (bl_que k = MTLK_TXMMB_NONE)
          | None => false
          end
      | None => false
      end
  | _ => true
  end.

Fixpoint demo_run (l : list demo_call) (st : demo_base * list nat) : option (demo_base * list nat) :=
  match l with
  | [] => Some st
  | c :: l => if demo_ok c st then demo_run l (demo_exec c st) else None
  end.

Abbreviation demo_step := (tstep demo_get demo_free demo_clb).

Lemma demo_exec_step c st : demo_ok c st = true -> demo_step st (demo_exec c st).
Proof.
  destruct st as [o F], c as [|m|m clb timeout now|s]; simpl.
  - intros _. apply ts_start.
  - intros _. apply ts_get.
  - destruct (tb_msgs o !! m) as [[b v]|] eqn:Hm; [|done].
    intros [HbF%bool_decide_eq_true Hk]%andb_true_iff.
    destruct (tb_blocks o !! b) as [k|] eqn:Hkb; [|done]. apply bool_decide_eq_true in Hk.
    unfold demo_send. destruct (mtlk_txmm_msg_send demo_get demo_free o m clb timeout now) as [[r o']|] eqn:Hs.
    + eapply ts_send; [by exists v|exact Hkb|exact Hk|exact Hs].
    + unfold mtlk_txmm_msg_send in Hs. rewrite Hm in Hs. by destruct (_mtlk_txmm_send_ex _ _ _ _ _ _ _ _).
  - intros _. destruct (on_cfm_dequeue o s) as [[b|] o'] eqn:Hd; [by eapply ts_cfm_dequeue|by eapply ts_cfm_unknown].
Qed.

Lemma demo_run_reachable n slots l st :
  demo_run l (demo_init n slots, []) = Some st -> reachable demo_get demo_free demo_clb n st.
Proof.
  intros Hr. exists 4, slots, (fun _ => replicate n 0%nat), (fun _ => [0; 0; 0; 0]).
  split; [intros _; apply length_replicate|].
  fold (demo_init n slots). revert Hr. generalize (demo_init n slots, @nil nat).
  induction l as [|c l IH]; simpl; intros st0 Hr; [by simplify_eq|].
  destruct (demo_ok c st0) eqn:Hok; [|done].
  eapply rtc_l; [by apply demo_exec_step|]. by apply IH.
Qed.

(** Message 1 is sent in slot 10, message 2 waits in QUEUED. *)
Definition demo_calls : list demo_call :=
  [DStart; DGet 1; DSend 1 0 100 0; DGet 2; DSend 2 1 100 0].

Definition state_of (r : option (demo_base * list nat)) : demo_base :=
  match r with Some (o, _) => o | None => demo_init 1 [] end.

Definition demo_o : demo_base :=
  Eval vm_compute in state_of (demo_run demo_calls (demo_init 3 [10%nat], [])).

(** The only block is in QUEUED, no slot being available. *)
Definition demo_full : demo_base :=
  Eval vm_compute in state_of (demo_run [DStart; DGet 1; DSend 1 0 100 0] (demo_init 1 [], [])).

(** The confirmation of message 1 is being delivered. *)
Definition demo_cfm : demo_base :=
  Eval vm_compute in state_of (demo_run (demo_calls ++ [DCfm 10]) (demo_init 3 [10%nat], [])).

Lemma demo_reachable : reachable demo_get demo_free demo_clb 3 (demo_o, []).
Proof. apply (demo_run_reachable 3 [10%nat] demo_calls). by vm_compute. Qed.

Lemma demo_full_reachable : reachable demo_get demo_free demo_clb 1 (demo_full, []).
Proof. apply (demo_run_reachable 1 [] [DStart; DGet 1; DSend 1 0 100 0]). by vm_compute. Qed.

Lemma demo_cfm_reachable : reachable demo_get demo_free demo_clb 3 (demo_cfm, [0%nat]).
Proof. apply (demo_run_reachable 3 [10%nat] (demo_calls ++ [DCfm 10])). by vm_compute. Qed.

Lemma demo_inv : txmm_inv demo_o [].
Proof. apply (reachable_inv demo_get demo_free demo_clb 3); [lia|apply demo_reachable]. Qed.

Lemma demo_full_inv : txmm_inv demo_full [].
Proof. apply (reachable_inv demo_get demo_free demo_clb 1); [lia|apply demo_full_reachable]. Qed.

Lemma txmm_blocks_conserved_witness :
  (cont demo_o MTLK_TXMMB_FREE, cont demo_o MTLK_TXMMB_QUEUED, cont demo_o MTLK_TXMMB_SENT) =
    ([2], [1], [0])%nat /\
  (size (tb_msgs demo_o) + length (cont demo_o MTLK_TXMMB_FREE) = 3)%nat.
Proof.
  split; [by vm_compute|].
  exact (proj2 (txmm_blocks_conserved demo_get demo_free demo_clb 3 demo_o [] ltac:(lia) demo_reachable)).
Defined.

Lemma txmm_deliver_safe_witness :
  is_Some (on_cfm_deliver demo_clb demo_cfm 0 [1; 2; 3; 4] 50).
Proof.
  refine (proj2 (txmm_deliver_safe demo_get demo_free demo_clb 3 demo_cfm [0%nat] 0 MTLK_TXMM_CLBR_CONFIRMED
    [1; 2; 3; 4] 50 _ demo_cfm_reachable _)); [lia|left].
Defined.

Lemma txmm_timer_spec_witness :
  exists o', _mtlk_txmm_on_timer_que demo_clb demo_o 200 MTLK_TXMMB_QUEUED MTLK_TXMM_CLBR_TIMEOUT_UNSENT true
    = Some (1, o') /\ cont o' MTLK_TXMMB_TIMED_OUT = [] /\ cont o' MTLK_TXMMB_QUEUED = [1%nat].
Proof.
  destruct (txmm_timer_spec demo_clb demo_o [] 200 MTLK_TXMMB_QUEUED MTLK_TXMM_CLBR_TIMEOUT_UNSENT true
    demo_inv (or_introl eq_refl) ltac:(by vm_compute) ltac:(vm_compute; lia))
    as (o' & left & H1 & _ & H2 & _ & _ & H3 & _ & H4).
  specialize (H3 eq_refl). exists o'. split; [exact H1|]. split; [exact H2|].
  etransitivity; [exact H4|]. rewrite H3. by vm_compute.
Defined.

Lemma txmm_timer_full_queue_witness :
  is_expired 100000 demo_full 0 = true /\
  _mtlk_txmm_on_timer_que demo_clb demo_full 100000 MTLK_TXMMB_QUEUED MTLK_TXMM_CLBR_TIMEOUT_UNSENT true
    = Some (0, demo_full).
Proof.
  split; [by vm_compute|].
  exact (txmm_timer_full_queue demo_clb demo_full [] 100000 MTLK_TXMMB_QUEUED MTLK_TXMM_CLBR_TIMEOUT_UNSENT true
    demo_full_inv (or_introl eq_refl) eq_refl eq_refl).
Defined.

Lemma txmm_on_cfm_spec_witness :
  confirmed_block demo_o 10%nat = Some 0%nat /\
  exists o', _mtlk_txmm_on_cfm demo_clb demo_o 10%nat [7; 7; 7; 7] 50 = Some (MTLK_ERR_OK, o').
Proof.
  split; [by vm_compute|].
  pose proof (txmm_on_cfm_spec demo_clb demo_o [] 10%nat [7; 7; 7; 7] 50 demo_inv) as H.
  change (confirmed_block demo_o 10%nat) with (Some 0%nat) in H.
  destruct H as (c & o' & _ & H & _). by exists o'.
Defined.


Lemma txmm_cancel_spec_witness :
  cont (mtlk_txmm_msg_cancel demo_o 2%nat) MTLK_TXMMB_FREE = [2; 1]%nat.
Proof.
  etransitivity; [exact (proj1 (proj2 (proj2 (txmm_cancel_spec demo_o [] 2%nat 1 0
    (block_of demo_o 1) demo_inv eq_refl (not_elem_of_nil 1%nat) eq_refl ltac:(by vm_compute)))))|].
  by vm_compute.
Defined.

Lemma txmm_get_empty_data_spec_witness :
  (mtlk_txmm_msg_get_empty_data 5 demo_o 3%nat).1 = Some 2%nat.
Proof.
  pose proof (txmm_get_empty_data_spec demo_o [] 5 3%nat demo_inv) as H.
  change (cont demo_o MTLK_TXMMB_FREE) with [2%nat] in H. by destruct H as (H & _).
Defined.

Lemma txmm_cfm_cancel_race_witness :
  on_cfm_deliver demo_clb (mtlk_txmm_msg_cancel demo_cfm 1%nat) 0 [1; 2; 3; 4] 50 = None.
Proof.
  exact (txmm_cfm_cancel_race demo_clb demo_o [] 10%nat 0 1%nat 0 demo_cfm [1; 2; 3; 4] 50
    demo_inv eq_refl eq_refl).
Defined.

Lemma txmm_restore_keeps_queue_witness :
  exists o', restore_block demo_clb demo_o 0 50 = Some o' /\
    0%nat ∈ cont o' MTLK_TXMMB_SENT /\ 0%nat ∈ cont o' MTLK_TXMMB_FREE.
Proof.
  destruct (txmm_restore_keeps_queue demo_clb demo_o [] 0 (block_of demo_o 0) MTLK_TXMMB_SENT 0%nat
    (bl_data (block_of demo_o 0)) 50 demo_inv eq_refl eq_refl (or_intror eq_refl) eq_refl eq_refl)
    as (o' & H1 & _ & H2 & H3).
  by exists o'.
Defined.
