(* ===== verification/TxmmIface.v ===== *)
(** * TxmmIface: what the message transport promises to its users

    A user of TXMM owns message objects.  It asks for the empty payload of a
    message, sends the message with the payload filled, or cancels it.  The
    clients are written and proved against this class; [TxmmInst] shows that
    the transport of txmm.c implements it. *)
From S2P Require Import Prelude.

Class TxmmOps (T Msg Clb Data : Type) := {
  (** [mtlk_txmm_msg_get_empty_data]: whether a payload was handed out. *)
  tx_get_empty_data : Msg -> ST T bool;
  (** [mtlk_txmm_msg_send] after the payload was filled. *)
  tx_send : Msg -> Clb -> Data -> Z -> ST T Z;
  (** [mtlk_txmm_msg_cancel]. *)
  tx_cancel : Msg -> ST T unit;
  (** The message has a payload attached. *)
  tx_in_use : T -> Msg -> bool;
  (** The request of a message sent and not yet answered. *)
  tx_in_flight : T -> Msg -> option (Clb * Data);
}.
#[global] Hint Mode TxmmOps + - - - : typeclass_instances.

(** A message other than [m] is as it was. *)
Definition tx_others {T Msg Clb Data} {ops : TxmmOps T Msg Clb Data} (m : Msg) (t t' : T) : Prop :=
  forall m', m' <> m -> tx_in_use t' m' = tx_in_use t m' /\ tx_in_flight t' m' = tx_in_flight t m'.

(** [tx_ok]: the states in which the transport keeps its promises. *)
Class TxmmLaws (T Msg Clb Data : Type) {ops : TxmmOps T Msg Clb Data} (tx_ok : T -> Prop) := {
  (** Only a message in use is in flight. *)
  tx_flight_use t m : tx_ok t -> tx_in_use t m = false -> tx_in_flight t m = None;
  tx_get_ok t m : tx_ok t -> tx_ok (exec (tx_get_empty_data m) t);
  tx_get_others t m : tx_ok t -> tx_others m t (exec (tx_get_empty_data m) t);
  (** A payload is handed out to a message that has none, at most. *)
  tx_get_done t m : tx_ok t -> eval (tx_get_empty_data m) t = true ->
    tx_in_use t m = false /\ tx_in_use (exec (tx_get_empty_data m) t) m = true /\
    tx_in_flight (exec (tx_get_empty_data m) t) m = None;
  tx_get_fail t m : tx_ok t -> eval (tx_get_empty_data m) t = false ->
    tx_in_use (exec (tx_get_empty_data m) t) m = tx_in_use t m /\
    tx_in_flight (exec (tx_get_empty_data m) t) m = tx_in_flight t m;
  (** A message with a fresh payload is sent, or gives the payload back. *)
  tx_send_ok t m c d tmo : tx_ok t -> tx_in_use t m = true -> tx_in_flight t m = None ->
    tx_ok (exec (tx_send m c d tmo) t);
  tx_send_others t m c d tmo : tx_ok t -> tx_in_use t m = true -> tx_in_flight t m = None ->
    tx_others m t (exec (tx_send m c d tmo) t);
  tx_send_done t m c d tmo : tx_ok t -> tx_in_use t m = true -> tx_in_flight t m = None ->
    let r := eval (tx_send m c d tmo) t in let t' := exec (tx_send m c d tmo) t in
    tx_in_use t' m = (r =? MTLK_ERR_OK) /\
    tx_in_flight t' m = if r =? MTLK_ERR_OK then Some (c, d) else None;
  tx_cancel_ok t m : tx_ok t -> tx_ok (exec (tx_cancel m) t);
  tx_cancel_others t m : tx_ok t -> tx_others m t (exec (tx_cancel m) t);
  tx_cancel_done t m : tx_ok t -> tx_in_use (exec (tx_cancel m) t) m = false;
}.
