(* ===== verification/TxmmInst.v ===== *)
(** * TxmmInst: txmm.c keeps the promises its users rely on

    The operations of [Txmm] as an implementation of the interface of
    [TxmmIface], so that what is proved of a user against the interface holds
    over the real transport.  A payload is its message id and bytes; the user's
    structures are laid out into them by [enc] and read back by [dec]. *)
From S2P Require Import Prelude TxmmRing Txmm TxmmInv TxmmOps TxmmSafe TxmmIface.

Local Open Scope nat_scope.
#[local] Arguments Nat.eqb : simpl never.

Section TxmmInst.
Context {Msg : Type} `{Countable Msg} {Clb : Type} {Slot : Type} `{EqDecision Slot} {Pool : Type} {D : Type}.
Context (msg_get_from_pool : Pool -> option Slot * Pool) (msg_free_to_pool : Slot -> Pool -> Pool).
Context (enc : D -> mtlk_txmm_data_t) (dec : Z -> list Z -> D) (vap now : Z).
Hypothesis dec_enc : forall d, dec (data_id (enc d)) (data_payload (enc d)) = d.
Abbreviation block := (mtlk_txmm_block_t (Msg := Msg) (Clb := Clb) (Slot := Slot)).
Abbreviation base := (mtlk_txmm_base_t (Msg := Msg) (Clb := Clb) (Slot := Slot) (Pool := Pool)).
Implicit Types (o : base) (k : block) (m : Msg) (b : nat).

(** The request a block carries on its way to the firmware. *)
Definition request k : option (Clb * D) :=
  match bl_que k with
  | MTLK_TXMMB_QUEUED | MTLK_TXMMB_SENT | MTLK_TXMMB_TIMED_OUT =>
      (fun c => (c, dec (data_id (bl_data k)) (data_payload (bl_data k)))) <$> bl_clb k
  | _ => None
  end.
Definition msg_block_of o m : option block := tb_msgs o !! m ≫= fun p => tb_blocks o !! p.1.

#[export] Instance txmm_ops : TxmmOps base Msg Clb D := {
  tx_get_empty_data m o := let '(r, o') := mtlk_txmm_msg_get_empty_data vap o m in (bool_decide (is_Some r), o');
  tx_send m c d tmo o :=
    match tb_msgs o !! m with
    | Some (b, _) =>
        match mtlk_txmm_msg_send msg_get_from_pool msg_free_to_pool (fill_data o b (enc d)) m c tmo now with
        | Some r => r
        | None => (MTLK_ERR_PARAMS, o)
        end
    | None => (MTLK_ERR_PARAMS, o)
    end;
  tx_cancel m o := (tt, mtlk_txmm_msg_cancel o m);
  tx_in_use o m := bool_decide (is_Some (tb_msgs o !! m));
  tx_in_flight o m := msg_block_of o m ≫= request;
}.

(** No timeout is being delivered. *)
Definition tx_ok o : Prop :=
  txmm_inv o [] /\ forall b k, tb_blocks o !! b = Some k -> bl_que k <> MTLK_TXMMB_TIMED_OUT.

(** What the interface shows of a block. *)
Definition look k : bool * option (Clb * D) := (bool_decide (bl_que k = MTLK_TXMMB_TIMED_OUT), request k).
Definition looks (P : nat -> Prop) o o' : Prop :=
  forall b, P b -> look <$> tb_blocks o' !! b = look <$> tb_blocks o !! b.

Lemma looks_trans P o1 o2 o3 : looks P o1 o2 -> looks P o2 o3 -> looks P o1 o3.
Proof. intros H1 H2 b Hb. rewrite H2 by done. by apply H1. Qed.

Lemma look_strip k k' : bl_set_idx 0 k' = bl_set_idx 0 k -> look k' = look k.
Proof. destruct k, k'. intros Hs. simplify_eq/=. done. Qed.

Lemma strip_look (bs bs' : list block) b : bl_set_idx 0 <$> bs' !! b = bl_set_idx 0 <$> bs !! b ->
  look <$> bs' !! b = look <$> bs !! b.
Proof.
  intros Hs. destruct (bs !! b) as [k|], (bs' !! b) as [k'|]; try done.
  simpl. f_equal. apply look_strip. by apply (inj Some) in Hs.
Qed.

Lemma looks_others b o o' : others_same b o o' -> looks (fun b' => b' <> b) o o'.
Proof. intros Hs b' Hb. apply strip_look. by apply Hs. Qed.

(** Messages whose blocks look the same are the same to their owners. *)
Lemma others_looks m o o' (P : nat -> Prop) : binv o ->
  (forall m', m' <> m -> tb_msgs o' !! m' = tb_msgs o !! m') ->
  (forall m' b v, m' <> m -> tb_msgs o !! m' = Some (b, v) -> P b) ->
  looks P o o' -> tx_others m o o'.
Proof.
  intros Hb Hm HP Hl m' Hne. cbn. unfold msg_block_of. rewrite (Hm m' Hne). split; [done|].
  destruct (tb_msgs o !! m') as [[b v]|] eqn:E; [|done]. cbn. specialize (Hl b (HP m' b v Hne E)).
  destruct (tb_blocks o' !! b) as [k'|], (tb_blocks o !! b) as [k|]; try done. cbn in *. apply (inj Some) in Hl. by injection Hl.
Qed.

Lemma distinct_blocks o m m' b b' v v' : binv o -> tb_msgs o !! m = Some (b, v) -> tb_msgs o !! m' = Some (b', v') ->
  m' <> m -> b' <> b.
Proof.
  intros Hb E E' Hne ->. destruct (bi_msg _ Hb _ _ _ E) as (k & Hk & _ & Hkm).
  destruct (bi_msg _ Hb _ _ _ E') as (k' & Hk' & _ & Hkm'). congruence.
Qed.

Lemma ok_looks o o' (P : nat -> Prop) : (forall b, {P b} + {~ P b}) -> tx_ok o -> txmm_inv o' [] -> looks P o o' ->
  (forall b k, ~ P b -> tb_blocks o' !! b = Some k -> bl_que k <> MTLK_TXMMB_TIMED_OUT) -> tx_ok o'.
Proof.
  intros Pd [_ Hto] HI Hl Hn. split; [done|]. intros b k Hk. destruct (Pd b) as [Hb|Hb]; [|by eapply Hn].
  specialize (Hl b Hb). rewrite Hk in Hl. destruct (tb_blocks o !! b) as [k0|] eqn:E; [|done].
  specialize (Hto b k0 E). apply (inj Some) in Hl. injection Hl as Hl _. intros Hq. symmetry in Hl.
  rewrite (bool_decide_eq_true_2 _ Hq), bool_decide_eq_true in Hl. done.
Qed.

(** ** Getting a payload *)

Record attached o m o' : Prop := {
  at_inv : txmm_inv o' [];
  at_cases : (tb_msgs o' = tb_msgs o /\ tb_blocks o' = tb_blocks o) \/
    exists b k, tb_msgs o !! m = None /\ tb_blocks o !! b = Some k /\ bl_que k = MTLK_TXMMB_FREE /\
      tb_blocks o' = alter (bl_set_que MTLK_TXMMB_NONE) b (alter (bl_set_msg m) b (tb_blocks o)) /\
      tb_msgs o' = <[m := (b, vap)]> (tb_msgs o);
}.

Lemma attach_spec o m : txmm_inv o [] -> tb_msgs o !! m = None -> attached o m (_mtlk_txmm_attach_data vap o m).
Proof.
  intros HI Hm. split; [by apply inv_attach_inv|]. pose proof (ti_lnk _ _ HI) as Ho.
  unfold _mtlk_txmm_attach_data. destruct (is_active o); [|by left].
  destruct (cont o MTLK_TXMMB_FREE) as [|b rest] eqn:Hc.
  - left. rewrite get_buf_nil by done. by rewrite delete_id.
  - right. assert (exists p, olk o b = Some (MTLK_TXMMB_FREE, p)) as [p (k & Hk & Hkq & _)%olk_Some].
    { apply elem_of_cont; [done|done|]. rewrite Hc. left. }
    destruct (get_buf_cons o MTLK_TXMMB_FREE b rest Ho ltac:(done) Hc) as (o1 & -> & [Gf _ Gb _ _]).
    exists b, k. assert (tb_msgs o1 = tb_msgs o) as Hms by (by rewrite Gf).
    unfold _mtlk_txmm_adjust_usage_stats. case_match; cbn; rewrite ?Gb, ?Hms; done.
Qed.

Lemma get_spec o m : tx_ok o -> attached o m (exec (tx_get_empty_data m) o) /\
  eval (tx_get_empty_data m) o = bool_decide (tb_msgs o !! m = None /\ is_Some (tb_msgs (exec (tx_get_empty_data m) o) !! m)).
Proof.
  intros [HI _]. unfold exec, eval. cbn. unfold mtlk_txmm_msg_get_empty_data. destruct (tb_msgs o !! m) as [p|] eqn:E; cbn.
  - split; [split; [done|by left]|]. done.
  - split; [by apply attach_spec|]. apply bool_decide_ext. rewrite fmap_is_Some. naive_solver.
Qed.

(** What the interface sees of asking for a payload. *)
Lemma get_facts o m : tx_ok o ->
  let o' := exec (tx_get_empty_data m) o in
  tx_ok o' /\ tx_others m o o' /\
  (if eval (tx_get_empty_data m) o
   then tb_msgs o !! m = None /\ is_Some (tb_msgs o' !! m) /\ tx_in_flight o' m = None
   else tb_msgs o' = tb_msgs o /\ tb_blocks o' = tb_blocks o).
Proof.
  intros Hok o'. destruct (get_spec o m Hok) as [[HI Hc] He]. fold o' in HI, Hc, He. rewrite He. clear He.
  destruct Hc as [[Hm Hb]|(b & k & Hm & Hk & Hq & Hb & Hm')].
  - rewrite Hm. split; [|split].
    + split; [done|]. rewrite Hb. apply Hok.
    + intros m' _. cbn. unfold msg_block_of. by rewrite Hm, Hb.
    + rewrite bool_decide_eq_false_2; [done|]. intros [-> [? ?]]. done.
  - assert (looks (fun b' => b' <> b) o o') as Hl by (intros b' Hne; by rewrite Hb, !list_lookup_alter_ne).
    assert (tb_blocks o' !! b = Some (bl_set_que MTLK_TXMMB_NONE (bl_set_msg m k))) as Hb'
      by (rewrite Hb, !list_lookup_alter_eq, Hk; done).
    split; [|split].
    + apply (ok_looks o _ (fun b' => b' <> b)); [intros b'; destruct (decide (b' = b)); [right|left]; lia|done|done|exact Hl|].
      intros b' k' Hne Hk'. apply dec_stable in Hne. subst b'. rewrite Hb' in Hk'. by injection Hk' as <-.
    + apply (others_looks m o _ (fun b' => b' <> b)); [apply Hok| | |exact Hl].
      * intros m' Hne. by rewrite Hm', lookup_insert_ne.
      * intros m' b' v' _ E ->. destruct (bi_msg _ (ti_binv _ _ (proj1 Hok)) m' b v' E) as (k' & ? & ? & _). congruence.
    + rewrite Hm', lookup_insert_eq, bool_decide_eq_true_2 by (split; [done|by eexists]). split; [done|split; [by eexists|]].
      cbn. unfold msg_block_of. rewrite Hm', lookup_insert_eq. cbn. by rewrite Hb'.
Qed.

(** ** Sending *)

Lemma upd_looks b f o : looks (fun b' => b' <> b) o (upd_block b f o).
Proof. intros b' Hne. cbn. by rewrite list_lookup_alter_ne. Qed.

Lemma put_blocks o q b : tb_blocks (_mtlk_txmm_put_buf o q b) =
  if valid_que o q then alter (bl_set_link q (q_to (que_of o q))) b (tb_blocks o) else tb_blocks o.
Proof. unfold _mtlk_txmm_put_buf. by case_match. Qed.

(** Handing a block to the firmware keeps the request in it. *)
Lemma prepare_look o b k pmsg x : olnk x o -> tb_blocks o !! b = Some k ->
  let o' := _mtlk_txmm_send_block_prepare o b pmsg in
  exists k', tb_blocks o' !! b = Some k' /\ bl_que k' = MTLK_TXMMB_SENT /\
    request k' = (fun c => (c, dec (data_id (bl_data k)) (data_payload (bl_data k)))) <$> bl_clb k /\
    tb_msgs o' = tb_msgs o.
Proof.
  intros Ho Hk. unfold _mtlk_txmm_send_block_prepare. set (size := if (_ || _)%bool then _ else _).
  set (o3 := emit _ _). assert (valid_que o3 MTLK_TXMMB_SENT = true) as Hv by (by apply (valid_que_true x o)).
  cbn [set_stats tb_blocks tb_msgs]. rewrite put_blocks, Hv. eexists. split; [|split; [|split]].
  - cbn. rewrite !list_lookup_alter_eq, Hk. cbn. done.
  - done.
  - cbn. unfold block_of. by rewrite (list_lookup_total_correct _ _ _ Hk).
  - unfold _mtlk_txmm_put_buf. by rewrite Hv.
Qed.

Lemma pump_looks o pmsg : txmm_inv o [] ->
  let o' := (_mtlk_txmm_pump msg_get_from_pool msg_free_to_pool o pmsg).2 in
  looks (fun _ => True) o o' /\ tb_msgs o' = tb_msgs o.
Proof.
  intros HI. unfold _mtlk_txmm_pump. destruct (negb _) eqn:Ht; [|by destruct pmsg].
  set (p := match pmsg with Some s => _ | None => _ end).
  assert (exists s' o1, p = (s', o1) /\ txmm_inv o1 [] /\ tb_blocks o1 = tb_blocks o /\ tb_msgs o1 = tb_msgs o /\
    cont o1 MTLK_TXMMB_QUEUED = cont o MTLK_TXMMB_QUEUED) as (s' & o1 & -> & HI1 & Hb1 & Hm1 & Hc1).
  { unfold p. destruct pmsg as [s|]; [by do 2 eexists|]. destruct (msg_get_from_pool (tb_pool o)) as [s pl].
    do 2 eexists. split; [done|]. split; [by apply (inv_ext o)|done]. }
  destruct s' as [s|]; [|cbn; split; [|done]; intros b _; by rewrite Hb1].
  destruct (cont o1 MTLK_TXMMB_QUEUED) as [|b rest] eqn:Hc.
  { symmetry in Hc1. apply cont_nil_total in Hc1. by rewrite Hc1 in Ht. }
  destruct (get_buf_cons o1 MTLK_TXMMB_QUEUED b rest (ti_lnk _ _ HI1) ltac:(done) Hc) as (o2 & -> & [Gf Gl Gb _ _]).
  assert (exists p, olk o1 b = Some (MTLK_TXMMB_QUEUED, p)) as [i (k & Hk & Hkq & _)%olk_Some].
  { apply elem_of_cont; [apply HI1|done|]. rewrite Hc. left. }
  cbn [snd]. destruct (prepare_spec o2 b k s) as (_ & _ & P3); [done| |by rewrite Gb|congruence| |].
  { apply (binv_rel o1); [by rewrite Gb|by rewrite Gf|apply HI1]. }
  { apply (bi_clb _ (ti_binv _ _ HI1) b k Hk). by left. }
  destruct (prepare_look o2 b k s (Some b) Gl ltac:(by rewrite Gb)) as (k' & Q1 & Q2 & Q3 & Q4).
  split; [|by rewrite Q4, Gf]. intros b' _. destruct (decide (b' = b)) as [->|Hne].
  - rewrite <-Hb1, Hk, Q1. cbn. unfold look, request at 2. by rewrite Q2, Q3, Hkq.
  - rewrite <-Hb1, <-Gb. by apply strip_look, P3.
Qed.

(** Filling the payload of a message and sending it. *)
Record sent o m c d b o' : Prop := {
  se_inv : txmm_inv o' [];
  se_msgs : tb_msgs o' = tb_msgs o;
  se_looks : looks (fun b' => b' <> b) o o';
  se_block : look <$> tb_blocks o' !! b = Some (false, Some (c, d));
}.

Definition loaded c d k : Prop := bl_que k = MTLK_TXMMB_NONE /\ bl_clb k = Some c /\ bl_data k = enc d.

Lemma loaded_request c d k : loaded c d k ->
  (fun c => (c, dec (data_id (bl_data k)) (data_payload (bl_data k)))) <$> bl_clb k = Some (c, d).
Proof. intros (_ & -> & ->). cbn. by rewrite dec_enc. Qed.

(** Queueing a loaded block, or sending it at once. *)
Lemma queue_sent o m c d b k : txmm_inv o [] -> tb_blocks o !! b = Some k -> loaded c d k ->
  sent o m c d b (_mtlk_txmm_put_buf o MTLK_TXMMB_QUEUED b).
Proof.
  intros HI Hk Hl. pose proof Hl as (Hq & Hc & _).
  assert (olnk (Some b) o) as Hd by (apply olnk_detach; [apply HI|by eapply olk_none]).
  destruct (put_waiting o MTLK_TXMMB_QUEUED b k) as (P1 & P2 & P3); [done|apply HI|by left|done|congruence|by rewrite Hc|].
  pose proof (valid_que_true _ o MTLK_TXMMB_QUEUED Hd ltac:(done)) as Hv. split.
  - by apply (inv_step o _ [] b HI); [apply not_elem_of_nil|..].
  - unfold _mtlk_txmm_put_buf. by rewrite Hv.
  - by apply looks_others.
  - rewrite put_blocks, Hv, list_lookup_alter_eq, Hk. cbn. unfold look. cbn. by rewrite (loaded_request c d).
Qed.

Lemma prepare_sent o m c d b k s : txmm_inv o [] -> tb_blocks o !! b = Some k -> loaded c d k ->
  sent o m c d b (_mtlk_txmm_send_block_prepare o b s).
Proof.
  intros HI Hk Hl. pose proof Hl as (Hq & Hc & _).
  assert (olnk (Some b) o) as Hd by (apply olnk_detach; [apply HI|by eapply olk_none]).
  destruct (prepare_spec o b k s) as (P1 & P2 & P3); [done|apply HI|done|congruence|by rewrite Hc|].
  destruct (prepare_look o b k s _ Hd Hk) as (k' & Q1 & Q2 & Q3 & Q4). split; [|done|by apply looks_others|].
  - by apply (inv_step o _ [] b HI); [apply not_elem_of_nil|..].
  - rewrite Q1. cbn. unfold look. by rewrite Q2, Q3, (loaded_request c d).
Qed.

Lemma sent_ext o o' o'' m c d b : sent o m c d b o' -> txmm_inv o'' [] -> tb_msgs o'' = tb_msgs o' ->
  looks (fun _ => True) o' o'' -> sent o m c d b o''.
Proof.
  intros [S1 S2 S3 S4] HI Hm Hl. split; [done|congruence| |by rewrite Hl].
  eapply looks_trans; [exact S3|]. intros b' _. by apply Hl.
Qed.

Lemma send_ex_spec o m c d tmo v b k : txmm_inv o [] -> tb_blocks o !! b = Some k -> bl_que k = MTLK_TXMMB_NONE ->
  bl_data k = enc d ->
  let r := _mtlk_txmm_send_ex msg_get_from_pool msg_free_to_pool v o b c tmo now in
  r.1 = MTLK_ERR_OK /\ sent o m c d b r.2.
Proof.
  intros HI Hk Hq Hd r. destruct (send_ex_inv msg_get_from_pool msg_free_to_pool v o [] b k c tmo now) as [H1 H2];
    [done|apply not_elem_of_nil|done|done|]. split; [exact H1|]. fold r in H2. revert H2. unfold r, _mtlk_txmm_send_ex.
  set (o1 := upd_block b (bl_set_request c tmo v) o). set (o2 := if Z.eqb tmo 0 then o1 else _).
  assert (exists k2, tb_blocks o2 !! b = Some k2 /\ loaded c d k2 /\ txmm_inv o2 [] /\ tb_msgs o2 = tb_msgs o /\
    looks (fun b' => b' <> b) o o2) as (k2 & K1 & K2 & HI2 & Hm2 & Hl2).
  { assert (forall o' f, txmm_inv o' [] -> quiet f -> txmm_inv (upd_block b f o') []) as Hu.
    { intros o' f HI' Hf. destruct (upd_quiet o' None b f Hf) as [? ?]; [apply HI'..|].
      apply (inv_step o' _ [] b HI' (not_elem_of_nil _)); [done|done|apply upd_others]. }
    unfold o2, o1. case_match; eexists; (split; [cbn; rewrite !list_lookup_alter_eq, Hk; done|]);
      (split; [done|split; [|split; [done|]]]).
    - apply Hu; [done|apply quiet_request].
    - apply upd_looks.
    - apply Hu; [apply Hu; [done|apply quiet_request]|apply quiet_time].
    - eapply looks_trans; apply upd_looks. }
  destruct (msg_get_from_pool (tb_pool o2)) as [pmsg pool]. set (o3 := set_pool pool o2).
  assert (txmm_inv o3 []) as HI3 by (by apply (inv_ext o2)).
  assert (forall o', sent o3 m c d b o' -> sent o m c d b o') as Hs.
  { intros o' [S1 S2 S3 S4]. split; [done|by rewrite S2|by eapply looks_trans|done]. }
  destruct pmsg as [s|]; [case_match|].
  - intros HI4. apply Hs. eapply sent_ext; [by eapply prepare_sent|exact HI4|done|done].
  - pose proof (queue_sent o3 m c d b k2 HI3 K1 K2) as Hqs. pose proof (pump_looks _ (Some s) (se_inv _ _ _ _ _ _ Hqs)) as [Hpl Hpm].
    pose proof (pump_inv msg_get_from_pool msg_free_to_pool _ [] (Some s) (se_inv _ _ _ _ _ _ Hqs)) as Hpi.
    destruct (_mtlk_txmm_pump _ _ _ _) as [[[[s'|] [v'|]] st] o4]; cbn [snd] in *; intros HI4; apply Hs; by eapply sent_ext.
  - intros _. apply Hs. by eapply queue_sent.
Qed.

Lemma send_spec o m c d tmo b v k : tx_ok o -> tb_msgs o !! m = Some (b, v) ->
  tb_blocks o !! b = Some k -> bl_que k = MTLK_TXMMB_NONE ->
  eval (tx_send m c d tmo) o = MTLK_ERR_OK /\ sent o m c d b (exec (tx_send m c d tmo) o).
Proof.
  intros [HI Hto] Hm Hk Hkq. unfold exec, eval. cbn. rewrite Hm. unfold mtlk_txmm_msg_send.
  set (o0 := fill_data o b (enc d)). change (tb_msgs o0) with (tb_msgs o). rewrite Hm.
  assert (tb_blocks o0 !! b = Some (bl_set_data (enc d) k)) as Hk0 by (cbn; by rewrite list_lookup_alter_eq, Hk).
  assert (txmm_inv o0 []) as HI0.
  { destruct (upd_quiet o None b (bl_set_data (enc d))) as [U1 U2]; [apply quiet_data|apply HI|apply HI|].
    apply (inv_step o _ [] b HI); [by apply not_elem_of_nil|done|done|apply upd_others]. }
  destruct (send_ex_spec o0 m c d tmo v b _ HI0 Hk0 Hkq eq_refl) as [H1 [S1 S2 S3 S4]].
  destruct (_mtlk_txmm_send_ex _ _ _ _ _ _ _ _) as [r o'] eqn:E. cbn [fst snd] in *. rewrite H1. cbn.
  split; [done|]. split; [done|done| |done]. eapply looks_trans; [|exact S3]. apply upd_looks.
Qed.

(** ** Cancelling *)

Lemma cancel_spec o m : tx_ok o ->
  let o' := mtlk_txmm_msg_cancel o m in
  tx_ok o' /\ tb_msgs o' !! m = None /\ tx_others m o o'.
Proof.
  intros [HI Hto] o'. unfold o', mtlk_txmm_msg_cancel. destruct (tb_msgs o !! m) as [[b v]|] eqn:E; [|done].
  destruct (msg_block _ _ _ _ (ti_binv _ _ HI) E) as (k & p & Hk & Hq & Hkm & Hp).
  pose proof (cancel_inv o [] m b v HI E (not_elem_of_nil _) (Hto b)) as HI'. unfold mtlk_txmm_msg_cancel in HI'. rewrite E in HI'.
  destruct (free_spec o b k (ti_lnk _ _ HI) Hk Hq (Hto b k Hk)) as [Gf Gl _ Gb].
  set (o1 := _mtlk_txmm_free o b) in *.
  assert (looks (fun b' => b' <> b) o o1) as Hl.
  { intros b' Hne. apply strip_look. rewrite Gb. by rewrite list_lookup_alter_ne. }
  split; [|split].
  - eapply (ok_looks o _ (fun b' => b' <> b)); [intros b'; destruct (decide (b' = b)); [right|left]; lia|by split|done|exact Hl|].
    intros b' k' Hb' Hk' Hq'. apply dec_stable in Hb'. subst b'. cbn in Hk'. specialize (Gb b).
    rewrite Hk', list_lookup_alter_eq, Hk in Gb. cbn in Gb. apply (inj Some) in Gb. apply (f_equal bl_que) in Gb. cbn in Gb. congruence.
  - cbn. apply lookup_delete_eq.
  - apply (others_looks m o _ (fun b' => b' <> b)); [apply HI| | |exact Hl].
    + intros m' Hne. cbn. rewrite lookup_delete_ne by done. by rewrite Gf.
    + intros m' b' v' Hne E'. by eapply distinct_blocks; [apply HI|exact E|exact E'|].
Qed.

#[export] Instance txmm_laws : TxmmLaws base Msg Clb D tx_ok.
Proof.
  assert (forall o m, tx_ok o -> tx_in_use o m = true -> tx_in_flight o m = None ->
    exists b v k, tb_msgs o !! m = Some (b, v) /\ tb_blocks o !! b = Some k /\ bl_que k = MTLK_TXMMB_NONE) as Hidle.
  { intros o m [HI Hto] Hu Hf. cbn in Hu, Hf. rewrite bool_decide_eq_true in Hu. destruct Hu as [[b v] Hm].
    destruct (bi_msg _ (ti_binv _ _ HI) m b v Hm) as (k & Hk & Hq & _). exists b, v, k. split; [done|split; [done|]].
    unfold msg_block_of in Hf. rewrite Hm in Hf. cbn in Hf. rewrite Hk in Hf. cbn in Hf.
    pose proof (bi_clb _ (ti_binv _ _ HI) b k Hk) as Hc. specialize (Hto b k Hk). unfold request in Hf. unfold waiting in Hc.
    destruct (bl_que k); try done; destruct Hc as [c Hc]; auto; by rewrite Hc in Hf. }
  split.
  - intros o m _ Hu. cbn in *. unfold msg_block_of. destruct (tb_msgs o !! m); [done|done].
  - intros o m Hok. by apply get_facts.
  - intros o m Hok. by apply get_facts.
  - intros o m Hok He. destruct (get_facts o m Hok) as (_ & _ & Hg). rewrite He in Hg. destruct Hg as (H1 & H2 & H3).
    split; [|split; [by apply bool_decide_eq_true_2|done]]. cbn. by rewrite H1.
  - intros o m Hok He. destruct (get_facts o m Hok) as (_ & _ & Hg). rewrite He in Hg. destruct Hg as (H1 & H2).
    cbn in *. unfold msg_block_of. rewrite H1, H2. done.
  - intros o m c d tmo Hok Hu Hf. destruct (Hidle o m Hok Hu Hf) as (b & v & k & Hm & Hk & Hq).
    destruct (send_spec o m c d tmo b v k Hok Hm Hk Hq) as [_ [S1 S2 S3 S4]].
    eapply (ok_looks o _ (fun b' => b' <> b)); [intros b'; destruct (decide (b' = b)); [right|left]; lia|done|done|exact S3|].
    intros b' k' Hb' Hk'. apply dec_stable in Hb'. subst b'. rewrite Hk' in S4. cbn in S4. apply (inj Some) in S4.
    injection S4 as S4 _. by rewrite bool_decide_eq_false in S4.
  - intros o m c d tmo Hok Hu Hf. destruct (Hidle o m Hok Hu Hf) as (b & v & k & Hm & Hk & Hq).
    destruct (send_spec o m c d tmo b v k Hok Hm Hk Hq) as [_ [S1 S2 S3 S4]].
    apply (others_looks m o _ (fun b' => b' <> b)); [apply Hok|by rewrite S2| |exact S3].
    intros m' b' v' Hne E'. eapply distinct_blocks; [apply Hok|exact Hm|exact E'|done].
  - intros o m c d tmo Hok Hu Hf. destruct (Hidle o m Hok Hu Hf) as (b & v & k & Hm & Hk & Hq).
    destruct (send_spec o m c d tmo b v k Hok Hm Hk Hq) as [Hr [S1 S2 S3 S4]]. cbv zeta. rewrite Hr.
    set (o' := exec _ _) in *. change (bool_decide (is_Some (tb_msgs o' !! m)) = true /\ msg_block_of o' m ≫= request = Some (c, d)).
    unfold msg_block_of. rewrite S2, Hm. split; [done|]. cbn.
    destruct (tb_blocks o' !! b) as [k'|]; [|done]. cbn in *. apply (inj Some) in S4. by injection S4.
  - intros o m Hok. by apply cancel_spec.
  - intros o m Hok. by apply cancel_spec.
  - intros o m Hok. cbn. destruct (cancel_spec o m Hok) as (_ & H2 & _). rewrite H2. by apply bool_decide_eq_false_2.
Qed.

End TxmmInst.
