(* ===== verification/Addba.v ===== *)
(** * Addba: block acknowledgement negotiation (wireless/driver/shared/addba.c)

    One peer with its eight TIDs, the module object, the two reference
    limiters, the message transport behind its interface, and the clock.
    Every function of addba.c is one definition in the state monad; the locks
    and the log lines are not modelled, a failed assertion is an event. *)
From S2P Require Import Prelude Reflim TxmmIface.

Definition MTLK_ADDBA_NOF_TIDs : nat := 8.
Definition MTLK_DOT11_ADDBA_RESPONSE_TIMEOUT_MS : Z := 3000.
Definition MTLK_ADDBA_RSP_MAX_RETRANSMISSIONS : Z := 4.
Definition MTLK_DELBA_REQ_MAX_RETRANSMISSIONS : Z := 4.
Definition MTLK_DELBA_REQ_ON_RX_INTERVAL_MS : Z := 100.
Definition MTLK_ADDBA_MAX_REJECTS : Z := 5.
Definition MTLK_ADDBA_BA_TIMEOUT_UNIT_US : Z := 1024.
Definition MTLK_ADDBA_MIN_REORD_WIN_SIZE : Z := 1.
Definition MTLK_ADDBA_MAX_REORD_WIN_SIZE : Z := 64.
Definition MTLK_ADDBA_RES_CODE_SUCCESS : Z := 0.
Definition MTLK_ADDBA_RES_CODE_FAILURE : Z := 1.
Definition ADDBA_REJECT_INTERVAL_MIN : Z := 10000.
Definition ADDBA_REJECT_INTERVAL_MAX : Z := 160000.
Definition MTLK_ADDBA_RATE_ADAPTIVE : Z := 0xFFFF.
Definition INVALID_TAG_ID : Z := 255.
Definition MTLK_TS_ID_INVALID : Z := 255.
Definition UMI_OK : Z := 0.
Definition BA_DIR_ORIGINATOR : Z := 1.
Definition BA_DIR_RECIPIENT : Z := 0.
Definition UM_MAN_OPEN_AGGR_REQ : Z := 0x0414.
Definition UM_MAN_ADDBA_REQ_TX_REQ : Z := 0x0415.
Definition UM_MAN_ADDBA_RES_TX_REQ : Z := 0x0417.
Definition UM_MAN_DELBA_REQ : Z := 0x041A.
Definition UM_MAN_CLOSE_AGGR_REQ : Z := 0x041D.

Inductive mtlk_addba_peer_tx_state_e :=
| MTLK_ADDBA_TX_NONE | MTLK_ADDBA_TX_ADDBA_REQ_SENT | MTLK_ADDBA_TX_ADDBA_REQ_CFMD
| MTLK_ADDBA_TX_ADD_AGGR_REQ_SENT | MTLK_ADDBA_TX_AGGR_OPENED
| MTLK_ADDBA_TX_DEL_AGGR_REQ_SENT | MTLK_ADDBA_TX_STA_POWER_SAVE.

Inductive mtlk_addba_peer_rx_state_e :=
| MTLK_ADDBA_RX_NONE | MTLK_ADDBA_RX_ADDBA_NEGATIVE_RES_SENT
| MTLK_ADDBA_RX_ADDBA_POSITIVE_RES_SENT | MTLK_ADDBA_RX_REORD_IN_PROCESS
| MTLK_ADDBA_RX_DELBA_REQ_SENT | MTLK_ADDBA_RX_DELBA_REQ_SENT_WITHOUT_REORDERING.

#[export] Instance tx_state_eq_dec : EqDecision mtlk_addba_peer_tx_state_e.
Proof. solve_decision. Defined.
#[export] Instance rx_state_eq_dec : EqDecision mtlk_addba_peer_rx_state_e.
Proof. solve_decision. Defined.

(** [mtlk_addba_peer_cnt_id_e]. *)
Inductive mtlk_addba_peer_cnt_id_e :=
| CNT_AGGR_ACTIVE | CNT_REORD_ACTIVE
| CNT_RX_ADDBA_REQ_RECEIVED | CNT_RX_ADDBA_RES_CFMD_FAIL | CNT_RX_ADDBA_RES_CFMD_SUCCESS
| CNT_RX_ADDBA_RES_LOST | CNT_RX_ADDBA_RES_NEGATIVE_SENT | CNT_RX_ADDBA_RES_NOT_CFMD
| CNT_RX_ADDBA_RES_POSITIVE_SENT | CNT_RX_ADDBA_RES_REACHED | CNT_RX_ADDBA_RES_RETRANSMISSIONS
| CNT_RX_BAR_WITHOUT_REORDERING | CNT_RX_AGGR_PKT_WITHOUT_REORDERING
| CNT_RX_DELBA_REQ_CFMD_FAIL | CNT_RX_DELBA_REQ_CFMD_SUCCESS | CNT_RX_DELBA_REQ_LOST
| CNT_RX_DELBA_REQ_NOT_CFMD | CNT_RX_DELBA_REQ_RCV | CNT_RX_DELBA_REQ_REACHED
| CNT_RX_DELBA_REQ_RETRANSMISSIONS | CNT_RX_DELBA_REQ_SENT | CNT_RX_DELBA_SENT_BY_TIMEOUT
| CNT_TX_ACK_ON_BAR_DETECTED
| CNT_TX_ADDBA_REQ_CFMD_FAIL | CNT_TX_ADDBA_REQ_CFMD_SUCCESS | CNT_TX_ADDBA_REQ_NOT_CFMD
| CNT_TX_ADDBA_REQ_SENT | CNT_TX_ADDBA_RES_RCV_NEGATIVE | CNT_TX_ADDBA_RES_RCV_POSITIVE
| CNT_TX_ADDBA_RES_TIMEOUT | CNT_TX_CLOSE_AGGR_CFMD_FAIL | CNT_TX_CLOSE_AGGR_CFMD_SUCCESS
| CNT_TX_CLOSE_AGGR_NOT_CFMD | CNT_TX_CLOSE_AGGR_SENT
| CNT_TX_DELBA_REQ_CFMD_FAIL | CNT_TX_DELBA_REQ_CFMD_SUCCESS | CNT_TX_DELBA_REQ_LOST
| CNT_TX_DELBA_REQ_NOT_CFMD | CNT_TX_DELBA_REQ_RCV | CNT_TX_DELBA_REQ_REACHED
| CNT_TX_DELBA_REQ_RETRANSMISSIONS | CNT_TX_DELBA_REQ_SENT
| CNT_TX_OPEN_AGGR_CFMD_FAIL | CNT_TX_OPEN_AGGR_CFMD_SUCCESS | CNT_TX_OPEN_AGGR_NOT_CFMD
| CNT_TX_OPEN_AGGR_SENT.

(** ** Firmware messages (wireless/shared_mbss_mac/mhi_umi.h)

    The fields the driver sets or reads; status codes travel in the same
    buffer both ways. *)
Record UMI_OPEN_AGGR_REQ := OpenAggrReq {
  oa_sDA : Z; oa_u16AccessProtocol : Z; oa_u16MaxNumOfPackets : Z; oa_u16Status : Z;
  oa_u32MaxNumOfBytes : Z; oa_u32TimeoutInterval : Z; oa_u32MinSizeOfPacketInAggr : Z;
  oa_windowSize : Z; oa_u8TsId : Z }.
Record UMI_CLOSE_AGGR_REQ := CloseAggrReq {
  ca_sDA : Z; ca_u16AccessProtocol : Z; ca_u16Status : Z; ca_u8TsId : Z }.
Record UMI_ADDBA_REQ_SEND := AddbaReqSend {
  aq_sDA : Z; aq_u8DialogToken : Z; aq_u8BA_WinSize_O : Z; aq_u16AccessProtocol : Z;
  aq_u16BATimeout : Z; aq_u16Status : Z }.
Record UMI_ADDBA_RES_SEND := AddbaResSend {
  ar_sDA : Z; ar_u8DialogToken : Z; ar_u8WinSize : Z; ar_u16AccessProtocol : Z;
  ar_u16ResultCode : Z; ar_u16BATimeout : Z; ar_u16Status : Z }.
Record UMI_DELBA_REQ_SEND := DelbaReqSend {
  dr_sDA : Z; dr_u16Intiator : Z; dr_u16AccessProtocol : Z; dr_u16ResonCode : Z; dr_u16Status : Z }.

(** The payload a message is sent with, and the callback registered for it. *)
Inductive addba_payload :=
| POpenAggr (p : UMI_OPEN_AGGR_REQ) | PCloseAggr (p : UMI_CLOSE_AGGR_REQ)
| PAddbaReq (p : UMI_ADDBA_REQ_SEND) | PAddbaRes (p : UMI_ADDBA_RES_SEND)
| PDelbaReq (p : UMI_DELBA_REQ_SEND).

Inductive addba_clb := ClbDelbaReq | ClbCloseAggr | ClbOpenAggr | ClbAddbaReq | ClbAddbaRes.

(** The two message objects of a TID: [tx.man_msg] and [rx.man_msg]. *)
Inductive addba_msg := TxMsg (tid : Z) | RxMsg (tid : Z).

#[export] Instance addba_msg_eq_dec : EqDecision addba_msg.
Proof. solve_decision. Defined.

(** ** State *)

Record mtlk_addba_peer_tx_t := Tx {
  tx_state : mtlk_addba_peer_tx_state_e;
  tx_addba_req_cfmd_time : Z;
  tx_addba_req_dlgt : Z;
  tx_addba_res_rejects : Z;
  tx_delba_req_attempt : Z;
  tx_win_size_req : Z;
  tx_ts_id : Z;
  tx_reject_state : bool;
  tx_reject_time : Z;
  tx_reject_interval : Z;
}.

Record mtlk_addba_peer_rx_t := Rx {
  rx_state : mtlk_addba_peer_rx_state_e;
  rx_delba_timeout : Z;
  rx_req_tstamp : Z;
  rx_reorder_is_active : bool;
  rx_delba_req_attempt : Z;
  rx_addba_res_attempt : Z;
  rx_delba_on_rx_time : Z;
  rx_addba_res : UMI_ADDBA_RES_SEND;
}.

Record mtlk_addba_peer_tid_t := Tid { t_tx : mtlk_addba_peer_tx_t; t_rx : mtlk_addba_peer_rx_t }.

Record mtlk_addba_tid_cfg_t := TidCfg {
  use_aggr : bool;
  accept_aggr : bool;
  max_nof_packets : Z;
  max_nof_bytes : Z;
  timeout_interval : Z;
  min_packet_size_in_aggr : Z;
  addba_timeout : Z;
  aggr_win_size : Z;
}.

Definition zero_addba_res : UMI_ADDBA_RES_SEND := AddbaResSend 0 0 0 0 0 0 0.
Definition zero_tx : mtlk_addba_peer_tx_t := Tx MTLK_ADDBA_TX_NONE 0 0 0 0 0 0 false 0 0.
Definition zero_rx : mtlk_addba_peer_rx_t := Rx MTLK_ADDBA_RX_NONE 0 0 false 0 0 0 zero_addba_res.

#[export] Instance tid_inhabited : Inhabited mtlk_addba_peer_tid_t := populate (Tid zero_tx zero_rx).
#[export] Instance cfg_inhabited : Inhabited mtlk_addba_tid_cfg_t :=
  populate (TidCfg false false 0 0 0 0 0 0).

(** Outward API calls, statistics and failed assertions. *)
Inductive addba_ev :=
| EvStartAggr (tid : Z) | EvStopAggr (tid : Z)
| EvStartReord (tid ssn win_size : Z) | EvStopReord (tid : Z)
| EvReqRejected (tid : Z) | EvReqUnconfirmed (tid : Z)
| EvCntInc (tid : Z) (c : mtlk_addba_peer_cnt_id_e) | EvCntDec (tid : Z) (c : mtlk_addba_peer_cnt_id_e)
| EvAssertFailed.

Record world {T : Type} := World {
  w_cfg : list mtlk_addba_tid_cfg_t;
  w_next_dlg_token : Z;
  w_aggr_reflim : mtlk_reflim_t;
  w_reord_reflim : mtlk_reflim_t;
  w_addr : Z;
  w_tid : list mtlk_addba_peer_tid_t;
  w_is_active : bool;
  w_txmm : T;
  w_tick : nat;
  w_out : list addba_ev;
}.
Arguments world : clear implicits.

(** ** Field updates *)

Definition tx_set_state (s : mtlk_addba_peer_tx_state_e) (x : mtlk_addba_peer_tx_t) :=
  Tx s (tx_addba_req_cfmd_time x) (tx_addba_req_dlgt x) (tx_addba_res_rejects x) (tx_delba_req_attempt x)
     (tx_win_size_req x) (tx_ts_id x) (tx_reject_state x) (tx_reject_time x) (tx_reject_interval x).
Definition tx_set_cfmd_time (t : Z) (x : mtlk_addba_peer_tx_t) :=
  Tx (tx_state x) t (tx_addba_req_dlgt x) (tx_addba_res_rejects x) (tx_delba_req_attempt x)
     (tx_win_size_req x) (tx_ts_id x) (tx_reject_state x) (tx_reject_time x) (tx_reject_interval x).
Definition tx_set_dlgt (d : Z) (x : mtlk_addba_peer_tx_t) :=
  Tx (tx_state x) (tx_addba_req_cfmd_time x) d (tx_addba_res_rejects x) (tx_delba_req_attempt x)
     (tx_win_size_req x) (tx_ts_id x) (tx_reject_state x) (tx_reject_time x) (tx_reject_interval x).
Definition tx_set_rejects (n : Z) (x : mtlk_addba_peer_tx_t) :=
  Tx (tx_state x) (tx_addba_req_cfmd_time x) (tx_addba_req_dlgt x) n (tx_delba_req_attempt x)
     (tx_win_size_req x) (tx_ts_id x) (tx_reject_state x) (tx_reject_time x) (tx_reject_interval x).
Definition tx_set_delba_attempt (n : Z) (x : mtlk_addba_peer_tx_t) :=
  Tx (tx_state x) (tx_addba_req_cfmd_time x) (tx_addba_req_dlgt x) (tx_addba_res_rejects x) n
     (tx_win_size_req x) (tx_ts_id x) (tx_reject_state x) (tx_reject_time x) (tx_reject_interval x).
Definition tx_set_win_size_req (n : Z) (x : mtlk_addba_peer_tx_t) :=
  Tx (tx_state x) (tx_addba_req_cfmd_time x) (tx_addba_req_dlgt x) (tx_addba_res_rejects x) (tx_delba_req_attempt x)
     n (tx_ts_id x) (tx_reject_state x) (tx_reject_time x) (tx_reject_interval x).
Definition tx_set_ts_id (n : Z) (x : mtlk_addba_peer_tx_t) :=
  Tx (tx_state x) (tx_addba_req_cfmd_time x) (tx_addba_req_dlgt x) (tx_addba_res_rejects x) (tx_delba_req_attempt x)
     (tx_win_size_req x) n (tx_reject_state x) (tx_reject_time x) (tx_reject_interval x).
Definition tx_set_reject (st : bool) (t iv : Z) (x : mtlk_addba_peer_tx_t) :=
  Tx (tx_state x) (tx_addba_req_cfmd_time x) (tx_addba_req_dlgt x) (tx_addba_res_rejects x) (tx_delba_req_attempt x)
     (tx_win_size_req x) (tx_ts_id x) st t iv.

Definition rx_set_state (s : mtlk_addba_peer_rx_state_e) (x : mtlk_addba_peer_rx_t) :=
  Rx s (rx_delba_timeout x) (rx_req_tstamp x) (rx_reorder_is_active x) (rx_delba_req_attempt x)
     (rx_addba_res_attempt x) (rx_delba_on_rx_time x) (rx_addba_res x).
Definition rx_set_delba_timeout (t : Z) (x : mtlk_addba_peer_rx_t) :=
  Rx (rx_state x) t (rx_req_tstamp x) (rx_reorder_is_active x) (rx_delba_req_attempt x)
     (rx_addba_res_attempt x) (rx_delba_on_rx_time x) (rx_addba_res x).
Definition rx_set_req_tstamp (t : Z) (x : mtlk_addba_peer_rx_t) :=
  Rx (rx_state x) (rx_delba_timeout x) t (rx_reorder_is_active x) (rx_delba_req_attempt x)
     (rx_addba_res_attempt x) (rx_delba_on_rx_time x) (rx_addba_res x).
Definition rx_set_reorder (b : bool) (x : mtlk_addba_peer_rx_t) :=
  Rx (rx_state x) (rx_delba_timeout x) (rx_req_tstamp x) b (rx_delba_req_attempt x)
     (rx_addba_res_attempt x) (rx_delba_on_rx_time x) (rx_addba_res x).
Definition rx_set_delba_attempt (n : Z) (x : mtlk_addba_peer_rx_t) :=
  Rx (rx_state x) (rx_delba_timeout x) (rx_req_tstamp x) (rx_reorder_is_active x) n
     (rx_addba_res_attempt x) (rx_delba_on_rx_time x) (rx_addba_res x).
Definition rx_set_res_attempt (n : Z) (x : mtlk_addba_peer_rx_t) :=
  Rx (rx_state x) (rx_delba_timeout x) (rx_req_tstamp x) (rx_reorder_is_active x) (rx_delba_req_attempt x)
     n (rx_delba_on_rx_time x) (rx_addba_res x).
Definition rx_set_on_rx_time (t : Z) (x : mtlk_addba_peer_rx_t) :=
  Rx (rx_state x) (rx_delba_timeout x) (rx_req_tstamp x) (rx_reorder_is_active x) (rx_delba_req_attempt x)
     (rx_addba_res_attempt x) t (rx_addba_res x).
Definition rx_set_addba_res (r : UMI_ADDBA_RES_SEND) (x : mtlk_addba_peer_rx_t) :=
  Rx (rx_state x) (rx_delba_timeout x) (rx_req_tstamp x) (rx_reorder_is_active x) (rx_delba_req_attempt x)
     (rx_addba_res_attempt x) (rx_delba_on_rx_time x) r.

Section world_setters.
Context {T : Type}.
Implicit Types w : world T.

Definition set_cfg (c : list mtlk_addba_tid_cfg_t) w :=
  World T c (w_next_dlg_token w) (w_aggr_reflim w) (w_reord_reflim w) (w_addr w) (w_tid w)
        (w_is_active w) (w_txmm w) (w_tick w) (w_out w).
Definition set_next_dlg (d : Z) w :=
  World T (w_cfg w) d (w_aggr_reflim w) (w_reord_reflim w) (w_addr w) (w_tid w)
        (w_is_active w) (w_txmm w) (w_tick w) (w_out w).
Definition set_aggr_reflim (r : mtlk_reflim_t) w :=
  World T (w_cfg w) (w_next_dlg_token w) r (w_reord_reflim w) (w_addr w) (w_tid w)
        (w_is_active w) (w_txmm w) (w_tick w) (w_out w).
Definition set_reord_reflim (r : mtlk_reflim_t) w :=
  World T (w_cfg w) (w_next_dlg_token w) (w_aggr_reflim w) r (w_addr w) (w_tid w)
        (w_is_active w) (w_txmm w) (w_tick w) (w_out w).
Definition set_addr (a : Z) w :=
  World T (w_cfg w) (w_next_dlg_token w) (w_aggr_reflim w) (w_reord_reflim w) a (w_tid w)
        (w_is_active w) (w_txmm w) (w_tick w) (w_out w).
Definition set_tid (l : list mtlk_addba_peer_tid_t) w :=
  World T (w_cfg w) (w_next_dlg_token w) (w_aggr_reflim w) (w_reord_reflim w) (w_addr w) l
        (w_is_active w) (w_txmm w) (w_tick w) (w_out w).
Definition set_active (b : bool) w :=
  World T (w_cfg w) (w_next_dlg_token w) (w_aggr_reflim w) (w_reord_reflim w) (w_addr w) (w_tid w)
        b (w_txmm w) (w_tick w) (w_out w).
Definition set_txmm (t : T) w :=
  World T (w_cfg w) (w_next_dlg_token w) (w_aggr_reflim w) (w_reord_reflim w) (w_addr w) (w_tid w)
        (w_is_active w) t (w_tick w) (w_out w).
Definition set_tick (n : nat) w :=
  World T (w_cfg w) (w_next_dlg_token w) (w_aggr_reflim w) (w_reord_reflim w) (w_addr w) (w_tid w)
        (w_is_active w) (w_txmm w) n (w_out w).
Definition add_out (e : addba_ev) w :=
  World T (w_cfg w) (w_next_dlg_token w) (w_aggr_reflim w) (w_reord_reflim w) (w_addr w) (w_tid w)
        (w_is_active w) (w_txmm w) (w_tick w) (w_out w ++ [e]).

Definition tid_of w (tid : Z) : mtlk_addba_peer_tid_t := w_tid w !!! Z.to_nat tid.
Definition tx_of w tid := t_tx (tid_of w tid).
Definition rx_of w tid := t_rx (tid_of w tid).
Definition cfg_of w (tid : Z) : mtlk_addba_tid_cfg_t := w_cfg w !!! Z.to_nat tid.
End world_setters.

(** ** Operations *)

(** [mtlk_aux_is_11n_rate] (mtlkaux.h). *)
Definition mtlk_aux_is_11n_rate (rate : Z) : bool := (15 <=? rate) && (rate <=? 31).

Definition _mtlk_addba_is_allowed_rate (rate : Z) : bool :=
  negb (negb (rate =? MTLK_ADDBA_RATE_ADAPTIVE) && negb (mtlk_aux_is_11n_rate (u8 rate))).

Definition _mtlk_addba_correct_res_win_size (win_size : Z) : Z :=
  if win_size =? 0 then MTLK_ADDBA_MAX_REORD_WIN_SIZE else win_size.

Definition ADDBA_TU_TO_MS (nof_tu : Z) : Z := u32 (nof_tu * MTLK_ADDBA_BA_TIMEOUT_UNIT_US) / 1000.

Definition _mtlk_addba_is_aggr_on (state : mtlk_addba_peer_tx_state_e) : bool :=
  match state with
  | MTLK_ADDBA_TX_AGGR_OPENED | MTLK_ADDBA_TX_DEL_AGGR_REQ_SENT => true
  | _ => false
  end.

Section Addba.
Context {T : Type} {ops : TxmmOps T addba_msg addba_clb addba_payload}.
(** The millisecond clock, as the values its successive readings return, and
    the peer's [get_last_rx_timestamp] at a reading of the clock. *)
Context (clock : nat -> Z) (get_last_rx_timestamp : nat -> Z -> Z).

Abbreviation M := (ST (world T)).

Definition ev (e : addba_ev) : M unit := modify (add_out e).
Definition cntr_inc (tid : Z) (c : mtlk_addba_peer_cnt_id_e) : M unit := ev (EvCntInc tid c).
Definition cntr_dec (tid : Z) (c : mtlk_addba_peer_cnt_id_e) : M unit := ev (EvCntDec tid c).
Definition mtlk_assert (b : bool) : M unit := when (negb b) (ev EvAssertFailed).
Definition get_tx (tid : Z) : M mtlk_addba_peer_tx_t := gets (fun w => tx_of w tid).
Definition get_rx (tid : Z) : M mtlk_addba_peer_rx_t := gets (fun w => rx_of w tid).
Definition get_cfg (tid : Z) : M mtlk_addba_tid_cfg_t := gets (fun w => cfg_of w tid).
Definition upd_tx (tid : Z) (f : mtlk_addba_peer_tx_t -> mtlk_addba_peer_tx_t) : M unit :=
  modify (fun w => set_tid (alter (fun t => Tid (f (t_tx t)) (t_rx t)) (Z.to_nat tid) (w_tid w)) w).
Definition upd_rx (tid : Z) (f : mtlk_addba_peer_rx_t -> mtlk_addba_peer_rx_t) : M unit :=
  modify (fun w => set_tid (alter (fun t => Tid (t_tx t) (f (t_rx t))) (Z.to_nat tid) (w_tid w)) w).
Definition now_ms : M Z := fun w => (u32 (clock (w_tick w)), set_tick (S (w_tick w)) w).
(** [mtlk_osal_ms_time_diff]. *)
Definition time_diff (t1 t2 : Z) : Z := u32 (t1 - t2).

Definition aggr_try_ref : M bool := fun w =>
  let '(b, r) := mtlk_reflim_try_ref (w_aggr_reflim w) in (b, set_aggr_reflim r w).
Definition aggr_unref : M unit := fun w => (tt, set_aggr_reflim (mtlk_reflim_unref (w_aggr_reflim w)).2 w).
Definition reord_try_ref : M bool := fun w =>
  let '(b, r) := mtlk_reflim_try_ref (w_reord_reflim w) in (b, set_reord_reflim r w).
Definition reord_unref : M unit := fun w => (tt, set_reord_reflim (mtlk_reflim_unref (w_reord_reflim w)).2 w).

Definition txmm_get (m : addba_msg) : M bool := fun w =>
  let '(r, t) := tx_get_empty_data m (w_txmm w) in (r, set_txmm t w).
Definition txmm_send (m : addba_msg) (c : addba_clb) (p : addba_payload) : M Z := fun w =>
  let '(r, t) := tx_send m c p 0 (w_txmm w) in (r, set_txmm t w).
Definition txmm_cancel (m : addba_msg) : M unit := fun w =>
  let '(r, t) := tx_cancel m (w_txmm w) in (r, set_txmm t w).

Definition _mtlk_addba_peer_reordering_start (tid ssn win_size : Z) : M Z :=
  ok ← reord_try_ref;
  if negb ok then mret MTLK_ERR_NO_RESOURCES
  else rx ← get_rx tid;
       when (negb (rx_reorder_is_active rx))
         (ev (EvStartReord tid ssn win_size) ;;
          upd_rx tid (rx_set_reorder true) ;;
          cntr_inc tid CNT_REORD_ACTIVE) ;;
       mret MTLK_ERR_OK.

Definition _mtlk_addba_peer_reset_rx_state (tid : Z) : M unit :=
  upd_rx tid (rx_set_state MTLK_ADDBA_RX_NONE) ;;
  upd_rx tid (rx_set_delba_attempt 0) ;;
  upd_rx tid (rx_set_res_attempt 0).

Definition _mtlk_addba_peer_reordering_stop (tid : Z) : M unit :=
  _mtlk_addba_peer_reset_rx_state tid ;;
  rx ← get_rx tid;
  when (rx_reorder_is_active rx)
    (upd_rx tid (rx_set_reorder false) ;;
     ev (EvStopReord tid) ;;
     reord_unref ;;
     cntr_dec tid CNT_REORD_ACTIVE).

Definition _mtlk_addba_is_reord_on (tid : Z) : M bool :=
  rx ← get_rx tid; mret (rx_reorder_is_active rx).

Definition _mtlk_addba_peer_reset_tx_state (tid : Z) : M bool :=
  tx ← get_tx tid;
  if decide (tx_state tx <> MTLK_ADDBA_TX_NONE) then
    when (bool_decide (tx_state tx <> MTLK_ADDBA_TX_STA_POWER_SAVE))
      (aggr_unref ;; cntr_dec tid CNT_AGGR_ACTIVE) ;;
    upd_tx tid (tx_set_state MTLK_ADDBA_TX_NONE) ;;
    upd_tx tid (tx_set_dlgt INVALID_TAG_ID) ;;
    upd_tx tid (tx_set_ts_id MTLK_TS_ID_INVALID) ;;
    mret (_mtlk_addba_is_aggr_on (tx_state tx))
  else mret false.

(** *** Confirmation callbacks

    [confirmed]: the reason is [MTLK_TXMM_CLBR_CONFIRMED].  All of them answer
    [MTLK_TXMM_CLBA_FREE]. *)

Definition _mtlk_addba_peer_on_delba_req_tx_cfm_clb (p : UMI_DELBA_REQ_SEND) (confirmed : bool) : M unit :=
  let tid := dr_u16AccessProtocol p in
  let dir := if dr_u16Intiator p =? 0 then BA_DIR_RECIPIENT else BA_DIR_ORIGINATOR in
  let stat i := if dir =? BA_DIR_ORIGINATOR
    then nth i [CNT_TX_DELBA_REQ_NOT_CFMD; CNT_TX_DELBA_REQ_CFMD_FAIL] CNT_TX_DELBA_REQ_CFMD_SUCCESS
    else nth i [CNT_RX_DELBA_REQ_NOT_CFMD; CNT_RX_DELBA_REQ_CFMD_FAIL] CNT_RX_DELBA_REQ_CFMD_SUCCESS in
  (if negb confirmed then cntr_inc tid (stat 0%nat)
   else if negb (dr_u16Status p =? UMI_OK) then cntr_inc tid (stat 1%nat)
   else cntr_inc tid (stat 2%nat)) ;;
  if dir =? BA_DIR_ORIGINATOR then
    tx ← get_tx tid;
    when (tx_delba_req_attempt tx =? 0) (upd_tx tid (tx_set_delba_attempt 1))
  else
    rx ← get_rx tid;
    when (rx_delba_req_attempt rx =? 0) (upd_rx tid (rx_set_delba_attempt 1)).

Definition _mtlk_addba_peer_on_close_aggr_cfm_clb (p : UMI_CLOSE_AGGR_REQ) (confirmed : bool) : M unit :=
  let tid := ca_u16AccessProtocol p in
  (if negb confirmed then cntr_inc tid CNT_TX_CLOSE_AGGR_NOT_CFMD
   else if negb (ca_u16Status p =? UMI_OK) then cntr_inc tid CNT_TX_CLOSE_AGGR_CFMD_FAIL
   else cntr_inc tid CNT_TX_CLOSE_AGGR_CFMD_SUCCESS) ;;
  stop ← _mtlk_addba_peer_reset_tx_state tid;
  when stop (ev (EvStopAggr tid)).

Definition _mtlk_addba_peer_on_open_aggr_cfm_clb (p : UMI_OPEN_AGGR_REQ) (confirmed : bool) : M unit :=
  let tid := oa_u16AccessProtocol p in
  (if negb confirmed then cntr_inc tid CNT_TX_OPEN_AGGR_NOT_CFMD
   else if negb (oa_u16Status p =? UMI_OK) then cntr_inc tid CNT_TX_OPEN_AGGR_CFMD_FAIL
   else cntr_inc tid CNT_TX_OPEN_AGGR_CFMD_SUCCESS ;; upd_tx tid (tx_set_ts_id (oa_u8TsId p))) ;;
  tx ← get_tx tid;
  mtlk_assert (bool_decide (tx_state tx = MTLK_ADDBA_TX_ADD_AGGR_REQ_SENT)) ;;
  upd_tx tid (tx_set_state MTLK_ADDBA_TX_AGGR_OPENED) ;;
  ev (EvStartAggr tid).

Definition _mtlk_addba_peer_on_addba_req_tx_cfm_clb (p : UMI_ADDBA_REQ_SEND) (confirmed : bool) : M unit :=
  let tid := aq_u16AccessProtocol p in
  (if negb confirmed then cntr_inc tid CNT_TX_ADDBA_REQ_NOT_CFMD
   else if negb (aq_u16Status p =? UMI_OK) then cntr_inc tid CNT_TX_ADDBA_REQ_CFMD_FAIL
   else cntr_inc tid CNT_TX_ADDBA_REQ_CFMD_SUCCESS) ;;
  upd_tx tid (tx_set_state MTLK_ADDBA_TX_ADDBA_REQ_CFMD) ;;
  now ← now_ms;
  upd_tx tid (tx_set_cfmd_time now).

Definition _mtlk_addba_peer_on_addba_res_tx_cfm_clb (p : UMI_ADDBA_RES_SEND) (confirmed : bool) : M unit :=
  let tid := ar_u16AccessProtocol p in
  (if negb confirmed then cntr_inc tid CNT_RX_ADDBA_RES_NOT_CFMD
   else if negb (ar_u16Status p =? UMI_OK) then cntr_inc tid CNT_RX_ADDBA_RES_CFMD_FAIL
   else cntr_inc tid CNT_RX_ADDBA_RES_CFMD_SUCCESS) ;;
  rx ← get_rx tid;
  when (rx_addba_res_attempt rx =? 0) (upd_rx tid (rx_set_res_attempt 1)).

(** *** Requests sent *)

Definition _mtlk_addba_peer_on_addba_req_sent (tid : Z) : M unit :=
  upd_tx tid (tx_set_state MTLK_ADDBA_TX_ADDBA_REQ_SENT) ;;
  dlg ← gets w_next_dlg_token;
  upd_tx tid (tx_set_dlgt dlg) ;;
  modify (set_next_dlg (let d := u8 (dlg + 1) in if d =? INVALID_TAG_ID then u8 (d + 1) else d)) ;;
  cntr_inc tid CNT_AGGR_ACTIVE ;;
  cntr_inc tid CNT_TX_ADDBA_REQ_SENT.

(** The window size an ADDBA request asks for. *)
Definition addba_req_win_size (cfg : mtlk_addba_tid_cfg_t) : Z :=
  let win := aggr_win_size cfg in
  if win =? 0 then win
  else if win >? MTLK_ADDBA_MAX_REORD_WIN_SIZE then MTLK_ADDBA_MAX_REORD_WIN_SIZE
  else if win <? MTLK_ADDBA_MIN_REORD_WIN_SIZE then MTLK_ADDBA_MIN_REORD_WIN_SIZE
  else win.

Definition _mtlk_addba_peer_fill_addba_req (tid : Z) : M UMI_ADDBA_REQ_SEND :=
  cfg ← get_cfg tid;
  let win_size_req := addba_req_win_size cfg in
  addr ← gets w_addr;
  dlg ← gets w_next_dlg_token;
  upd_tx tid (tx_set_win_size_req win_size_req) ;;
  mret (AddbaReqSend addr dlg win_size_req tid (addba_timeout cfg) UMI_OK).

Definition _mtlk_addba_peer_tx_addba_req (tid : Z) (ps_mode : bool) : M unit :=
  tx ← get_tx tid;
  if decide (tx_state tx <> MTLK_ADDBA_TX_NONE) then mret tt
  else if ps_mode then upd_tx tid (tx_set_state MTLK_ADDBA_TX_STA_POWER_SAVE)
  else
    ok ← aggr_try_ref;
    when ok
      (got ← txmm_get (TxMsg tid);
       res ← (if got : bool then
                req ← _mtlk_addba_peer_fill_addba_req tid;
                res ← txmm_send (TxMsg tid) ClbAddbaReq (PAddbaReq req);
                when (res =? MTLK_ERR_OK) (_mtlk_addba_peer_on_addba_req_sent tid) ;;
                mret res
              else mret MTLK_ERR_UNKNOWN);
       when (negb (res =? MTLK_ERR_OK)) aggr_unref).

Definition _mtlk_addba_peer_close_aggr_req (tid : Z) : M unit :=
  tx ← get_tx tid;
  if decide (tx_state tx <> MTLK_ADDBA_TX_ADD_AGGR_REQ_SENT /\ tx_state tx <> MTLK_ADDBA_TX_AGGR_OPENED)
  then mret tt
  else if tx_ts_id tx =? MTLK_TS_ID_INVALID then mret tt
  else
    got ← txmm_get (TxMsg tid);
    if negb got then mret tt
    else
      addr ← gets w_addr;
      sres ← txmm_send (TxMsg tid) ClbCloseAggr (PCloseAggr (CloseAggrReq addr tid UMI_OK (tx_ts_id tx)));
      when (sres =? MTLK_ERR_OK)
        (upd_tx tid (tx_set_state MTLK_ADDBA_TX_DEL_AGGR_REQ_SENT) ;;
         cntr_inc tid CNT_TX_CLOSE_AGGR_SENT).

Definition _mtlk_addba_peer_send_delba_req (tid dir : Z) : M unit :=
  got ← txmm_get (RxMsg tid);
  when got
    (addr ← gets w_addr;
     let intiator := if dir =? BA_DIR_ORIGINATOR then 1 else 0 in
     sres ← txmm_send (RxMsg tid) ClbDelbaReq
              (PDelbaReq (DelbaReqSend addr intiator tid MTLK_ADDBA_RES_CODE_SUCCESS UMI_OK));
     if negb (sres =? MTLK_ERR_OK) then mret tt
     else if dir =? BA_DIR_RECIPIENT then
       on ← _mtlk_addba_is_reord_on tid;
       (if on : bool then upd_rx tid (rx_set_state MTLK_ADDBA_RX_DELBA_REQ_SENT)
        else upd_rx tid (rx_set_state MTLK_ADDBA_RX_DELBA_REQ_SENT_WITHOUT_REORDERING)) ;;
       cntr_inc tid CNT_RX_DELBA_REQ_SENT
     else when (dir =? BA_DIR_ORIGINATOR) (cntr_inc tid CNT_TX_DELBA_REQ_SENT)).

(** The TIDs in the order the loops visit them. *)
Definition all_tids : list Z := [0; 1; 2; 3; 4; 5; 6; 7].

(** The two [memset]s up to [man_msg]. *)
Definition clear_tx_head (x : mtlk_addba_peer_tx_t) : mtlk_addba_peer_tx_t :=
  tx_set_state MTLK_ADDBA_TX_NONE (tx_set_cfmd_time 0 (tx_set_dlgt 0 (tx_set_rejects 0 x))).
Definition clear_rx_head (x : mtlk_addba_peer_rx_t) : mtlk_addba_peer_rx_t :=
  rx_set_state MTLK_ADDBA_RX_NONE (rx_set_delba_timeout 0 (rx_set_req_tstamp 0 x)).

Definition peer_stop_tid (tid : Z) : M unit :=
  stop ← _mtlk_addba_peer_reset_tx_state tid;
  txmm_cancel (TxMsg tid) ;;
  when stop (ev (EvStopAggr tid)) ;;
  _mtlk_addba_peer_reset_rx_state tid ;;
  txmm_cancel (RxMsg tid) ;;
  _mtlk_addba_peer_reordering_stop tid ;;
  upd_tx tid clear_tx_head ;;
  upd_rx tid clear_rx_head ;;
  now ← now_ms;
  upd_rx tid (rx_set_on_rx_time now).

Definition _mtlk_addba_peer_stop : M unit := for_each all_tids peer_stop_tid.

(** *** Timers *)

Definition check_addba_res_rx_timeout (tid : Z) : M unit :=
  tx ← get_tx tid;
  notify ← (match tx_state tx with
    | MTLK_ADDBA_TX_ADDBA_REQ_CFMD =>
        now ← now_ms;
        if MTLK_DOT11_ADDBA_RESPONSE_TIMEOUT_MS <=? time_diff now (tx_addba_req_cfmd_time tx) then
          stop ← _mtlk_addba_peer_reset_tx_state tid;
          mtlk_assert (negb stop) ;;
          cntr_inc tid CNT_TX_ADDBA_RES_TIMEOUT ;;
          mret true
        else mret false
    | MTLK_ADDBA_TX_NONE =>
        if tx_reject_state tx then
          now ← now_ms;
          if tx_reject_interval tx <=? time_diff now (tx_reject_time tx) then
            let iv := u32 (tx_reject_interval tx * 2) in
            let iv := if iv >? ADDBA_REJECT_INTERVAL_MAX then ADDBA_REJECT_INTERVAL_MAX else iv in
            upd_tx tid (tx_set_reject false (tx_reject_time tx) iv) ;;
            mret true
          else mret false
        else mret false
    | _ => mret false
    end : M bool);
  when notify (ev (EvReqUnconfirmed tid)).

Definition _mtlk_addba_peer_check_addba_res_rx_timeouts : M unit :=
  for_each all_tids check_addba_res_rx_timeout.

Definition check_delba_timeout (tid : Z) : M unit :=
  rx ← get_rx tid;
  when (bool_decide (rx_state rx = MTLK_ADDBA_RX_REORD_IN_PROCESS) && negb (rx_delba_timeout rx =? 0))
    (last_rx ← gets (fun w => get_last_rx_timestamp (w_tick w) tid);
     now ← now_ms;
     when (rx_delba_timeout rx <=? time_diff now last_rx)
       (cntr_inc tid CNT_RX_DELBA_SENT_BY_TIMEOUT ;;
        _mtlk_addba_peer_send_delba_req tid BA_DIR_RECIPIENT)).

Definition _mtlk_addba_peer_check_delba_timeouts : M unit := for_each all_tids check_delba_timeout.

(** *** Module and peer life cycle *)

Definition mtlk_addba_init (aggr reord : mtlk_reflim_t) (cfg : list mtlk_addba_tid_cfg_t) : M Z :=
  modify (set_cfg cfg) ;;
  modify (set_aggr_reflim aggr) ;;
  modify (set_reord_reflim reord) ;;
  modify (set_next_dlg 0) ;;
  mret MTLK_ERR_OK.

Definition mtlk_addba_reconfigure (cfg : list mtlk_addba_tid_cfg_t) : M Z :=
  modify (set_cfg cfg) ;; mret MTLK_ERR_OK.

Definition mtlk_addba_peer_init : M Z :=
  modify (set_active false) ;;
  for_each all_tids (fun tid => upd_tx tid (tx_set_ts_id MTLK_TS_ID_INVALID)) ;;
  mret MTLK_ERR_OK.

Definition mtlk_addba_peer_cleanup : M unit :=
  active ← gets w_is_active;
  mtlk_assert (negb active).

Definition mtlk_addba_peer_start (addr : Z) (dot11n_mode : bool) : M Z :=
  active ← gets w_is_active;
  mtlk_assert (negb active) ;;
  modify (set_addr addr) ;;
  when dot11n_mode (_mtlk_addba_peer_stop ;; modify (set_active true)) ;;
  mret MTLK_ERR_OK.

Definition mtlk_addba_peer_stop (dot11n_mode : bool) : M unit :=
  when dot11n_mode
    (active ← gets w_is_active;
     mtlk_assert active ;;
     modify (set_active false) ;;
     _mtlk_addba_peer_stop) ;;
  modify (set_addr 0).

(** *** Received frames *)

(** [tid_idx < SIZEOF(peer->tid)] *)
Definition tid_ok (tid : Z) : bool := tid <? Z.of_nat MTLK_ADDBA_NOF_TIDs.

Definition mtlk_addba_peer_on_delba_req_rx (tid res_code initiator : Z) : M unit :=
  if negb (tid_ok tid) then mret tt
  else
    active ← gets w_is_active;
    when active
      (if negb (initiator =? 0) then
         cntr_inc tid CNT_RX_DELBA_REQ_RCV ;;
         _mtlk_addba_peer_reordering_stop tid
       else
         cntr_inc tid CNT_TX_DELBA_REQ_RCV ;;
         _mtlk_addba_peer_close_aggr_req tid).

(** The window an accepted aggregation is opened with; [None] below the
    minimum, where the response is ignored. *)
Definition select_win_size (win_size_req win_size_rsp : Z) : option Z :=
  let win_size_fw := if win_size_req =? 0 then win_size_rsp else Z.min win_size_req win_size_rsp in
  if win_size_fw >? MTLK_ADDBA_MAX_REORD_WIN_SIZE then Some MTLK_ADDBA_MAX_REORD_WIN_SIZE
  else if win_size_fw <? MTLK_ADDBA_MIN_REORD_WIN_SIZE then None
  else Some win_size_fw.

Definition on_addba_accepted (tid win_size_rsp : Z) : M unit :=
  tx ← get_tx tid;
  cntr_inc tid CNT_TX_ADDBA_RES_RCV_POSITIVE ;;
  upd_tx tid (tx_set_rejects 0) ;;
  upd_tx tid (fun x => tx_set_reject (tx_reject_state x) (tx_reject_time x) ADDBA_REJECT_INTERVAL_MIN x) ;;
  got ← txmm_get (TxMsg tid);
  if negb got then mret tt
  else
    match select_win_size (tx_win_size_req tx) win_size_rsp with
    | None => mret tt                              (* goto out, the message stays attached *)
    | Some win_size_fw =>
        addr ← gets w_addr;
        cfg ← get_cfg tid;
        sres ← txmm_send (TxMsg tid) ClbOpenAggr (POpenAggr
                 (OpenAggrReq addr tid (max_nof_packets cfg) UMI_OK (max_nof_bytes cfg)
                    (timeout_interval cfg) (min_packet_size_in_aggr cfg) win_size_fw 0));
        when (sres =? MTLK_ERR_OK)
          (upd_tx tid (tx_set_state MTLK_ADDBA_TX_ADD_AGGR_REQ_SENT) ;;
           cntr_inc tid CNT_TX_OPEN_AGGR_SENT)
    end.

(** Whether the upper layer is told about the refusal. *)
Definition on_addba_refused (tid : Z) : M bool :=
  stop ← _mtlk_addba_peer_reset_tx_state tid;
  mtlk_assert (negb stop) ;;
  cntr_inc tid CNT_TX_ADDBA_RES_RCV_NEGATIVE ;;
  upd_tx tid (fun x => tx_set_rejects (u8 (tx_addba_res_rejects x + 1)) x) ;;
  tx ← get_tx tid;
  if tx_addba_res_rejects tx <? MTLK_ADDBA_MAX_REJECTS then mret true
  else
    upd_tx tid (tx_set_rejects 0) ;;
    now ← now_ms;
    upd_tx tid (fun x => tx_set_reject true now (tx_reject_interval x) x) ;;
    mret false.

Definition mtlk_addba_peer_on_addba_res_rx (res_code tid win_size_rsp dlgt : Z) : M unit :=
  if negb (tid_ok tid) then mret tt
  else
    active ← gets w_is_active;
    when active
      (tx ← get_tx tid;
       notify_reject ←
         (if negb (tx_addba_req_dlgt tx =? dlgt) then mret false
          else if decide (tx_state tx <> MTLK_ADDBA_TX_ADDBA_REQ_SENT /\
                          tx_state tx <> MTLK_ADDBA_TX_ADDBA_REQ_CFMD) then mret false
          else if res_code =? MTLK_ADDBA_RES_CODE_SUCCESS
          then on_addba_accepted tid win_size_rsp ;; mret false
          else on_addba_refused tid);
       when notify_reject (ev (EvReqRejected tid))).

Definition _mtlk_addba_peer_send_rx_addba_res (tid : Z) : M Z :=
  got ← txmm_get (RxMsg tid);
  if negb got then mret MTLK_ERR_NO_RESOURCES
  else
    rx ← get_rx tid;
    err ← txmm_send (RxMsg tid) ClbAddbaRes (PAddbaRes (rx_addba_res rx));
    (if negb (err =? MTLK_ERR_OK) then mret tt
     else if ar_u16ResultCode (rx_addba_res rx) =? MTLK_ADDBA_RES_CODE_SUCCESS then
       upd_rx tid (rx_set_state MTLK_ADDBA_RX_ADDBA_POSITIVE_RES_SENT) ;;
       now ← now_ms;
       upd_rx tid (rx_set_req_tstamp now) ;;
       cntr_inc tid CNT_RX_ADDBA_RES_POSITIVE_SENT
     else
       upd_rx tid (rx_set_state MTLK_ADDBA_RX_ADDBA_NEGATIVE_RES_SENT) ;;
       cntr_inc tid CNT_RX_ADDBA_RES_NEGATIVE_SENT) ;;
    mret err.

(** [goto out]: the request is dropped. *)
Definition addba_req_dropped (rx : mtlk_addba_peer_rx_t) (dlgt : Z) : bool :=
  bool_decide (rx_state rx <> MTLK_ADDBA_RX_NONE) &&
  ((dlgt =? ar_u8DialogToken (rx_addba_res rx)) ||
   bool_decide (rx_state rx = MTLK_ADDBA_RX_ADDBA_POSITIVE_RES_SENT \/
                rx_state rx = MTLK_ADDBA_RX_ADDBA_NEGATIVE_RES_SENT)).

Definition res_set_code (code : Z) (r : UMI_ADDBA_RES_SEND) : UMI_ADDBA_RES_SEND :=
  AddbaResSend (ar_sDA r) (ar_u8DialogToken r) (ar_u8WinSize r) (ar_u16AccessProtocol r)
               code (ar_u16BATimeout r) (ar_u16Status r).

Definition set_res_code (tid code : Z) : M unit :=
  upd_rx tid (fun x => rx_set_addba_res (res_set_code code (rx_addba_res x)) x).

Definition mtlk_addba_peer_on_addba_req_rx (ssn tid win_size dlgt tmout ack_policy rate : Z) : M unit :=
  if negb (tid_ok tid) then mret tt
  else
    active ← gets w_is_active;
    when active
      (cntr_inc tid CNT_RX_ADDBA_REQ_RECEIVED ;;
       rx ← get_rx tid;
       if addba_req_dropped rx dlgt then mret tt
       else
         _mtlk_addba_peer_reordering_stop tid ;;
         addr ← gets w_addr;
         upd_rx tid (fun x => let r := rx_addba_res x in
           rx_set_addba_res (AddbaResSend addr dlgt (ar_u8WinSize r) tid
             (ar_u16ResultCode r) (ar_u16BATimeout r) UMI_OK) x) ;;
         let win_size := _mtlk_addba_correct_res_win_size win_size in
         cfg ← get_cfg tid;
         (if negb (_mtlk_addba_is_allowed_rate rate) then set_res_code tid MTLK_ADDBA_RES_CODE_FAILURE
          else if negb (accept_aggr cfg) then set_res_code tid MTLK_ADDBA_RES_CODE_FAILURE
          else if ack_policy =? 0 then set_res_code tid MTLK_ADDBA_RES_CODE_FAILURE
          else
            r ← _mtlk_addba_peer_reordering_start tid ssn win_size;
            if negb (r =? MTLK_ERR_OK) then set_res_code tid MTLK_ADDBA_RES_CODE_FAILURE
            else upd_rx tid (fun x => let r := rx_addba_res x in
                   rx_set_addba_res (AddbaResSend (ar_sDA r) (ar_u8DialogToken r) win_size
                     (ar_u16AccessProtocol r) MTLK_ADDBA_RES_CODE_SUCCESS tmout (ar_u16Status r)) x)) ;;
         err ← _mtlk_addba_peer_send_rx_addba_res tid;
         if negb (err =? MTLK_ERR_OK) then _mtlk_addba_peer_reordering_stop tid
         else
           on ← _mtlk_addba_is_reord_on tid;
           when on (upd_rx tid (rx_set_delba_timeout (ADDBA_TU_TO_MS tmout)))).

(** *** Transmission status of the frames sent *)

Definition _mtlk_addba_peer_on_rx_delba_req_tx_status (tid status : Z) : M unit :=
  rx ← get_rx tid;
  if status =? UMI_OK then
    (match rx_state rx with
     | MTLK_ADDBA_RX_DELBA_REQ_SENT => _mtlk_addba_peer_reordering_stop tid
     | MTLK_ADDBA_RX_DELBA_REQ_SENT_WITHOUT_REORDERING => _mtlk_addba_peer_reset_rx_state tid
     | _ => mret tt
     end) ;;
    cntr_inc tid CNT_RX_DELBA_REQ_REACHED
  else if decide (rx_state rx = MTLK_ADDBA_RX_DELBA_REQ_SENT_WITHOUT_REORDERING) then
    _mtlk_addba_peer_reset_rx_state tid ;;
    cntr_inc tid CNT_RX_DELBA_REQ_LOST
  else if decide (rx_state rx <> MTLK_ADDBA_RX_DELBA_REQ_SENT) then
    upd_rx tid (rx_set_delba_attempt 0) ;;
    cntr_inc tid CNT_RX_DELBA_REQ_LOST
  else
    mtlk_assert (negb (rx_delba_req_attempt rx =? 0)) ;;
    if MTLK_DELBA_REQ_MAX_RETRANSMISSIONS <=? rx_delba_req_attempt rx then
      upd_rx tid (rx_set_delba_attempt 0) ;;
      _mtlk_addba_peer_reordering_stop tid ;;
      cntr_inc tid CNT_RX_DELBA_REQ_LOST
    else
      upd_rx tid (rx_set_delba_attempt (u8 (rx_delba_req_attempt rx + 1))) ;;
      _mtlk_addba_peer_send_delba_req tid BA_DIR_RECIPIENT ;;
      cntr_inc tid CNT_RX_DELBA_REQ_RETRANSMISSIONS.

Definition _mtlk_addba_peer_on_tx_delba_req_tx_status (tid status : Z) : M unit :=
  tx ← get_tx tid;
  if status =? UMI_OK then cntr_inc tid CNT_TX_DELBA_REQ_REACHED
  else if decide (tx_state tx <> MTLK_ADDBA_TX_NONE /\ tx_state tx <> MTLK_ADDBA_TX_DEL_AGGR_REQ_SENT) then
    upd_tx tid (tx_set_delba_attempt 0) ;;
    cntr_inc tid CNT_TX_DELBA_REQ_LOST
  else
    mtlk_assert (negb (tx_delba_req_attempt tx =? 0)) ;;
    if MTLK_DELBA_REQ_MAX_RETRANSMISSIONS <=? tx_delba_req_attempt tx then
      upd_tx tid (tx_set_delba_attempt 0) ;;
      cntr_inc tid CNT_TX_DELBA_REQ_LOST
    else
      upd_tx tid (tx_set_delba_attempt (u8 (tx_delba_req_attempt tx + 1))) ;;
      _mtlk_addba_peer_send_delba_req tid BA_DIR_ORIGINATOR ;;
      cntr_inc tid CNT_TX_DELBA_REQ_RETRANSMISSIONS.

Definition _mtlk_addba_peer_on_addba_res_tx_req_tx_status (tid status : Z) : M unit :=
  rx ← get_rx tid;
  if status =? UMI_OK then
    (match rx_state rx with
     | MTLK_ADDBA_RX_ADDBA_POSITIVE_RES_SENT => upd_rx tid (rx_set_state MTLK_ADDBA_RX_REORD_IN_PROCESS)
     | MTLK_ADDBA_RX_ADDBA_NEGATIVE_RES_SENT => _mtlk_addba_peer_reset_rx_state tid
     | _ => mret tt
     end) ;;
    upd_rx tid (rx_set_res_attempt 0) ;;
    cntr_inc tid CNT_RX_ADDBA_RES_REACHED
  else if decide (rx_state rx <> MTLK_ADDBA_RX_ADDBA_POSITIVE_RES_SENT /\
                  rx_state rx <> MTLK_ADDBA_RX_ADDBA_NEGATIVE_RES_SENT) then
    upd_rx tid (rx_set_res_attempt 0)
  else
    mtlk_assert (negb (rx_addba_res_attempt rx =? 0)) ;;
    if MTLK_ADDBA_RSP_MAX_RETRANSMISSIONS <=? rx_addba_res_attempt rx then
      upd_rx tid (rx_set_res_attempt 0) ;;
      upd_rx tid (rx_set_state MTLK_ADDBA_RX_NONE) ;;
      _mtlk_addba_peer_reordering_stop tid ;;
      cntr_inc tid CNT_RX_ADDBA_RES_LOST
    else
      upd_rx tid (rx_set_res_attempt (u8 (rx_addba_res_attempt rx + 1))) ;;
      _ ← _mtlk_addba_peer_send_rx_addba_res tid;
      cntr_inc tid CNT_RX_ADDBA_RES_RETRANSMISSIONS.

Definition mtlk_addba_peer_on_ba_tx_status (um_id tid initiator status : Z) : M unit :=
  active ← gets w_is_active;
  if negb active then mret tt
  else if negb (tid_ok tid) then mret tt
  else if um_id =? UM_MAN_DELBA_REQ then
    if negb (initiator =? 0) then _mtlk_addba_peer_on_tx_delba_req_tx_status tid status
    else _mtlk_addba_peer_on_rx_delba_req_tx_status tid status
  else if um_id =? UM_MAN_ADDBA_RES_TX_REQ then
    _mtlk_addba_peer_on_addba_res_tx_req_tx_status tid status
  else mret tt.

(** *** Requests of the upper layers *)

(** Common body of [mtlk_addba_delba_req] and [mtlk_addba_delba_req_all]. *)
Definition terminate_aggr (tid : Z) : M unit :=
  tx ← get_tx tid;
  if decide (tx_state tx <> MTLK_ADDBA_TX_ADD_AGGR_REQ_SENT /\ tx_state tx <> MTLK_ADDBA_TX_AGGR_OPENED)
  then mret tt
  else
    _mtlk_addba_peer_close_aggr_req tid ;;
    _mtlk_addba_peer_send_delba_req tid BA_DIR_ORIGINATOR.

Definition mtlk_addba_delba_req (tid : Z) : M unit :=
  mtlk_assert (tid_ok tid) ;;
  active ← gets w_is_active;
  if negb active then mret tt else terminate_aggr tid.

Definition mtlk_addba_delba_req_all : M unit :=
  active ← gets w_is_active;
  if negb active then mret tt else for_each all_tids terminate_aggr.

Definition mtlk_addba_peer_on_ack_on_bar (tid : Z) : M unit :=
  active ← gets w_is_active;
  if negb active then mret tt
  else if negb (tid_ok tid) then mret tt
  else
    cntr_inc tid CNT_TX_ACK_ON_BAR_DETECTED ;;
    mtlk_addba_delba_req tid.

Definition no_reordering (rx : mtlk_addba_peer_rx_t) : bool :=
  bool_decide (rx_state rx = MTLK_ADDBA_RX_NONE \/ rx_state rx = MTLK_ADDBA_RX_ADDBA_NEGATIVE_RES_SENT).

Definition mtlk_addba_peer_on_bar (tid : Z) : M unit :=
  active ← gets w_is_active;
  if negb active then mret tt
  else if negb (tid_ok tid) then mret tt
  else
    rx ← get_rx tid;
    when (no_reordering rx)
      (cntr_inc tid CNT_RX_BAR_WITHOUT_REORDERING ;;
       _mtlk_addba_peer_send_delba_req tid BA_DIR_RECIPIENT).

Definition mtlk_addba_peer_iterate : M unit :=
  active ← gets w_is_active;
  when active
    (_mtlk_addba_peer_check_delba_timeouts ;;
     _mtlk_addba_peer_check_addba_res_rx_timeouts).

Definition mtlk_addba_on_qos_without_reord (tid : Z) : M unit :=
  active ← gets w_is_active;
  if negb active then mret tt
  else if negb (tid_ok tid) then mret tt
  else
    now ← now_ms;
    rx ← get_rx tid;
    when (MTLK_DELBA_REQ_ON_RX_INTERVAL_MS <=? time_diff now (rx_delba_on_rx_time rx))
      (upd_rx tid (rx_set_on_rx_time now) ;;
       when (no_reordering rx)
         (cntr_inc tid CNT_RX_AGGR_PKT_WITHOUT_REORDERING ;;
          _mtlk_addba_peer_send_delba_req tid BA_DIR_RECIPIENT)).

Definition mtlk_addba_peer_start_aggr_negotiation (tid : Z) (ps_mode : bool) : M unit :=
  active ← gets w_is_active;
  mtlk_assert active ;;
  mtlk_assert (tid_ok tid) ;;
  cfg ← get_cfg tid;
  when (use_aggr cfg) (_mtlk_addba_peer_tx_addba_req tid ps_mode).

Definition mtlk_addba_peer_reset_power_save (tid : Z) : M bool :=
  active ← gets w_is_active;
  mtlk_assert active ;;
  mtlk_assert (tid_ok tid) ;;
  tx ← get_tx tid;
  if decide (tx_state tx = MTLK_ADDBA_TX_STA_POWER_SAVE) then
    upd_tx tid (tx_set_state MTLK_ADDBA_TX_NONE) ;; mret true
  else mret false.

(** The snapshot [mtlk_addba_peer_status] pushes to the clipboard. *)
Definition mtlk_addba_peer_status : M (Z * bool * list mtlk_addba_peer_tid_t) :=
  gets (fun w => (w_addr w, w_is_active w, w_tid w)).
End Addba.
