(* ===== verification/AddbaAcct.v ===== *)
(** * AddbaAcct: who holds the aggregation and reordering references *)
From S2P Require Import Prelude Reflim TxmmIface Addba.

(** ** Running the operations symbolically *)

Section run.
Context {T : Type} {ops : TxmmOps T addba_msg addba_clb addba_payload} (clock : nat -> Z) {B : Type}.
Implicit Types (w : world T).

Lemma run_now (k : Z -> ST (world T) B) w :
  exec (now_ms clock ≫= k) w = exec (k (u32 (clock (w_tick w)))) (set_tick (S (w_tick w)) w).
Proof. done. Qed.
Lemma run_aggr_try_ref (k : bool -> ST (world T) B) w :
  exec (aggr_try_ref ≫= k) w = exec (k (mtlk_reflim_try_ref (w_aggr_reflim w)).1)
    (set_aggr_reflim (mtlk_reflim_try_ref (w_aggr_reflim w)).2 w).
Proof. unfold exec, mbind, st_bind, aggr_try_ref. by destruct (mtlk_reflim_try_ref _). Qed.
Lemma run_reord_try_ref (k : bool -> ST (world T) B) w :
  exec (reord_try_ref ≫= k) w = exec (k (mtlk_reflim_try_ref (w_reord_reflim w)).1)
    (set_reord_reflim (mtlk_reflim_try_ref (w_reord_reflim w)).2 w).
Proof. unfold exec, mbind, st_bind, reord_try_ref. by destruct (mtlk_reflim_try_ref _). Qed.
Lemma run_aggr_unref (k : unit -> ST (world T) B) w :
  exec (aggr_unref ≫= k) w = exec (k tt) (set_aggr_reflim (mtlk_reflim_unref (w_aggr_reflim w)).2 w).
Proof. done. Qed.
Lemma run_end_aggr_unref w :
  exec aggr_unref w = set_aggr_reflim (mtlk_reflim_unref (w_aggr_reflim w)).2 w.
Proof. done. Qed.
Lemma run_reord_unref (k : unit -> ST (world T) B) w :
  exec (reord_unref ≫= k) w = exec (k tt) (set_reord_reflim (mtlk_reflim_unref (w_reord_reflim w)).2 w).
Proof. done. Qed.
Lemma run_txmm_get m (k : bool -> ST (world T) B) w :
  exec (txmm_get m ≫= k) w = exec (k (tx_get_empty_data m (w_txmm w)).1)
    (set_txmm (tx_get_empty_data m (w_txmm w)).2 w).
Proof. unfold exec, mbind, st_bind, txmm_get. by destruct (tx_get_empty_data _ _). Qed.
Lemma run_txmm_send m c p (k : Z -> ST (world T) B) w :
  exec (txmm_send m c p ≫= k) w = exec (k (tx_send m c p 0 (w_txmm w)).1)
    (set_txmm (tx_send m c p 0 (w_txmm w)).2 w).
Proof. unfold exec, mbind, st_bind, txmm_send. by destruct (tx_send _ _ _ _ _). Qed.
Lemma run_txmm_cancel m (k : unit -> ST (world T) B) w :
  exec (txmm_cancel m ≫= k) w = exec (k tt) (set_txmm (tx_cancel m (w_txmm w)).2 w).
Proof. unfold exec, mbind, st_bind, txmm_cancel. by destruct (tx_cancel _ _) as [[] ?]. Qed.
Lemma run_upd_rx tid f (k : unit -> ST (world T) B) w :
  exec (upd_rx tid f ≫= k) w = exec (k tt)
    (set_tid (alter (fun t => Tid (t_tx t) (f (t_rx t))) (Z.to_nat tid) (w_tid w)) w).
Proof. done. Qed.
End run.

Ltac world_simpl :=
  cbn [w_cfg w_next_dlg_token w_aggr_reflim w_reord_reflim w_addr w_tid w_is_active w_txmm w_tick w_out
       set_cfg set_next_dlg set_aggr_reflim set_reord_reflim set_addr set_tid set_active set_txmm set_tick
       add_out fst snd] in *.

(** Run one statement, chosen by the head of the program. *)
Ltac run_step :=
  match goal with
  | |- context [exec (mbind ?k ?m) ?w] =>
      lazymatch m with
      | mret _ => rewrite run_ret
      | gets _ => rewrite run_gets
      | modify _ => rewrite run_modify
      | mbind _ _ => rewrite run_assoc
      | now_ms _ => rewrite run_now
      | aggr_try_ref => rewrite run_aggr_try_ref
      | reord_try_ref => rewrite run_reord_try_ref
      | aggr_unref => rewrite run_aggr_unref
      | reord_unref => rewrite run_reord_unref
      | txmm_get _ => rewrite run_txmm_get
      | txmm_send _ _ _ => rewrite run_txmm_send
      | txmm_cancel _ => rewrite run_txmm_cancel
      end; cbv beta
  | |- context [exec ?m ?w] =>
      lazymatch m with
      | mret _ => rewrite run_end_ret
      | gets _ => rewrite run_end_gets
      | modify _ => rewrite run_end_modify
      | aggr_unref => rewrite run_end_aggr_unref
      end; cbv beta
  end.

(** Run until a branch, and split it. *)
Ltac run1 :=
  unfold cfg_of in *; unfold cntr_inc, cntr_dec, ev, get_tx, get_rx, get_cfg, cfg_of, upd_tx, upd_rx, mtlk_assert, when;
  repeat run_step; world_simpl.
Ltac run_split := first [case_bool_decide | case_decide | case_match].
Ltac run := repeat (run1; run_split); run1.

(** The state in which a TID holds an aggregation reference. *)
Definition aggr_held (s : mtlk_addba_peer_tx_state_e) : bool :=
  match s with MTLK_ADDBA_TX_NONE | MTLK_ADDBA_TX_STA_POWER_SAVE => false | _ => true end.

Section AddbaAcct.
Context {T : Type} {ops : TxmmOps T addba_msg addba_clb addba_payload}.
Context (clock : nat -> Z) (get_last_rx_timestamp : nat -> Z -> Z).
Implicit Types w : world T.
Abbreviation M := (ST (world T)).

Definition aggr_count w : Z := countb (fun t => aggr_held (tx_state (t_tx t))) (w_tid w).
Definition reord_count w : Z := countb (fun t => rx_reorder_is_active (t_rx t)) (w_tid w).

Definition wf w : Prop := length (w_tid w) = MTLK_ADDBA_NOF_TIDs.

Definition valid_tid (tid : Z) : Prop := 0 <= tid < 8.

Lemma wf_lookup w tid : wf w -> valid_tid tid ->
  w_tid w !! Z.to_nat tid = Some (tid_of w tid).
Proof.
  intros Hw Ht. apply list_lookup_lookup_total_lt. rewrite Hw. unfold MTLK_ADDBA_NOF_TIDs, valid_tid in *. lia.
Qed.

(** References taken minus references held, for both limiters; the TIDs and
    the limits stay; the number held grows only within the limit. *)
Record acct w w' : Prop := {
  ac_wf : wf w';
  ac_aggr : u32 (rl_cur (w_aggr_reflim w') - aggr_count w') = u32 (rl_cur (w_aggr_reflim w) - aggr_count w);
  ac_aggr_max : rl_max (w_aggr_reflim w') = rl_max (w_aggr_reflim w);
  ac_reord : u32 (rl_cur (w_reord_reflim w') - reord_count w') = u32 (rl_cur (w_reord_reflim w) - reord_count w);
  ac_reord_max : rl_max (w_reord_reflim w') = rl_max (w_reord_reflim w);
  ac_aggr_cap : u32 (rl_cur (w_aggr_reflim w) - aggr_count w) + 8 < 2 ^ 32 ->
    aggr_count w' <= aggr_count w \/
    u32 (rl_cur (w_aggr_reflim w) - aggr_count w) + aggr_count w' <= rl_max (w_aggr_reflim w);
  ac_reord_cap : u32 (rl_cur (w_reord_reflim w) - reord_count w) + 8 < 2 ^ 32 ->
    reord_count w' <= reord_count w \/
    u32 (rl_cur (w_reord_reflim w) - reord_count w) + reord_count w' <= rl_max (w_reord_reflim w);
  ac_aggr_u32 : u32 (rl_cur (w_aggr_reflim w)) = rl_cur (w_aggr_reflim w) ->
    u32 (rl_cur (w_aggr_reflim w')) = rl_cur (w_aggr_reflim w');
  ac_reord_u32 : u32 (rl_cur (w_reord_reflim w)) = rl_cur (w_reord_reflim w) ->
    u32 (rl_cur (w_reord_reflim w')) = rl_cur (w_reord_reflim w');
}.

Definition acct_rel w w' : Prop := wf w -> acct w w'.

#[export] Instance acct_rel_preorder : PreOrder acct_rel.
Proof.
  split.
  - intros w Hw. split; [done..|left; lia|left; lia|done|done].
  - intros w1 w2 w3 H12 H23 Hw. destruct (H12 Hw) as [A1 A2 A3 A4 A5 A6 A7 A8 A9].
    destruct (H23 A1) as [B1 B2 B3 B4 B5 B6 B7 B8 B9].
    split; [congruence..| | |auto|auto]; intros Hb.
    + rewrite A2, A3 in B6. destruct (A6 Hb), (B6 Hb); lia.
    + rewrite A4, A5 in B7. destruct (A7 Hb), (B7 Hb); lia.
Qed.

Lemma counts_range w : wf w -> 0 <= aggr_count w <= 8 /\ 0 <= reord_count w <= 8.
Proof.
  intros Hw. pose proof (countb_range (fun t => aggr_held (tx_state (t_tx t))) (w_tid w)).
  pose proof (countb_range (fun t => rx_reorder_is_active (t_rx t)) (w_tid w)).
  unfold wf, MTLK_ADDBA_NOF_TIDs in Hw. rewrite Hw in *. unfold aggr_count, reord_count. lia.
Qed.

(** One limiter: what the change of one TID's reference means for the count. *)
Lemma cap_step (cur count max cur' count' : Z) (b b' : bool) :
  0 <= count' <= 8 -> count' = count - Z.b2z b + Z.b2z b' ->
  u32 cur' = u32 (cur - Z.b2z b + Z.b2z b') ->
  (b' = true -> b = true \/ u32 cur' <= max) ->
  u32 (cur - count) + 8 < 2 ^ 32 ->
  count' <= count \/ u32 (cur - count) + count' <= max.
Proof.
  intros Hr Hc Hcur Hb Hbase. destruct b', b; cbn in *; try (left; lia).
  destruct (Hb eq_refl) as [?|Hle]; [done|]. right. rewrite Hcur in Hle.
  rewrite <-(u32_small (u32 (cur - count) + count')); [|pose proof (u32_range (cur - count)); lia].
  rewrite u32_add_l. replace (cur - count + count') with (cur - 0 + 1) by lia. done.
Qed.

Lemma u32_sub_cong a b c : u32 a = u32 b -> u32 (a - c) = u32 (b - c).
Proof. intros H. rewrite <-(u32_sub_l a), H. apply u32_sub_l. Qed.

(** The counts after a change of one TID. *)
Lemma aggr_count_alter f w w' tid :
  wf w -> valid_tid tid -> w_tid w' = alter f (Z.to_nat tid) (w_tid w) ->
  aggr_count w' = aggr_count w - Z.b2z (aggr_held (tx_state (tx_of w tid)))
                  + Z.b2z (aggr_held (tx_state (t_tx (f (tid_of w tid))))).
Proof.
  intros Hw Ht Hl. unfold aggr_count. rewrite Hl.
  by rewrite (countb_alter _ _ _ _ _ (wf_lookup w tid Hw Ht)).
Qed.

Lemma reord_count_alter f w w' tid :
  wf w -> valid_tid tid -> w_tid w' = alter f (Z.to_nat tid) (w_tid w) ->
  reord_count w' = reord_count w - Z.b2z (rx_reorder_is_active (rx_of w tid))
                  + Z.b2z (rx_reorder_is_active (t_rx (f (tid_of w tid)))).
Proof.
  intros Hw Ht Hl. unfold reord_count. rewrite Hl.
  by rewrite (countb_alter _ _ _ _ _ (wf_lookup w tid Hw Ht)).
Qed.

(** A step that changes one TID and moves each limiter by as much as the TID's
    own references change. *)
Lemma acct_step f w w' tid :
  wf w -> valid_tid tid -> w_tid w' = alter f (Z.to_nat tid) (w_tid w) ->
  rl_max (w_aggr_reflim w') = rl_max (w_aggr_reflim w) ->
  rl_max (w_reord_reflim w') = rl_max (w_reord_reflim w) ->
  u32 (rl_cur (w_aggr_reflim w')) = u32 (rl_cur (w_aggr_reflim w)
    - Z.b2z (aggr_held (tx_state (tx_of w tid))) + Z.b2z (aggr_held (tx_state (t_tx (f (tid_of w tid)))))) ->
  u32 (rl_cur (w_reord_reflim w')) = u32 (rl_cur (w_reord_reflim w)
    - Z.b2z (rx_reorder_is_active (rx_of w tid)) + Z.b2z (rx_reorder_is_active (t_rx (f (tid_of w tid))))) ->
  (aggr_held (tx_state (t_tx (f (tid_of w tid)))) = true -> aggr_held (tx_state (tx_of w tid)) = true \/
    u32 (rl_cur (w_aggr_reflim w')) <= rl_max (w_aggr_reflim w)) ->
  (rx_reorder_is_active (t_rx (f (tid_of w tid))) = true -> rx_reorder_is_active (rx_of w tid) = true \/
    u32 (rl_cur (w_reord_reflim w')) <= rl_max (w_reord_reflim w)) ->
  (u32 (rl_cur (w_aggr_reflim w)) = rl_cur (w_aggr_reflim w) ->
    u32 (rl_cur (w_aggr_reflim w')) = rl_cur (w_aggr_reflim w')) ->
  (u32 (rl_cur (w_reord_reflim w)) = rl_cur (w_reord_reflim w) ->
    u32 (rl_cur (w_reord_reflim w')) = rl_cur (w_reord_reflim w')) ->
  acct w w'.
Proof.
  intros Hw Ht Hl Hm1 Hm2 Ha Hr Hca Hcr Hu1 Hu2.
  assert (wf w') as Hw' by (unfold wf; by rewrite Hl, length_alter).
  destruct (counts_range w' Hw') as [Hr1 Hr2].
  split; [done| |done| |done|
    exact (cap_step _ _ _ _ _ _ _ Hr1 (aggr_count_alter f w w' tid Hw Ht Hl) Ha Hca)|
    exact (cap_step _ _ _ _ _ _ _ Hr2 (reord_count_alter f w w' tid Hw Ht Hl) Hr Hcr)|done|done].
  - rewrite (aggr_count_alter f w w' tid Hw Ht Hl). apply (u32_sub_cong _ _ (aggr_count w
      - Z.b2z (aggr_held (tx_state (tx_of w tid))) + Z.b2z (aggr_held (tx_state (t_tx (f (tid_of w tid))))))) in Ha.
    rewrite Ha. f_equal. lia.
  - rewrite (reord_count_alter f w w' tid Hw Ht Hl). apply (u32_sub_cong _ _ (reord_count w
      - Z.b2z (rx_reorder_is_active (rx_of w tid)) + Z.b2z (rx_reorder_is_active (t_rx (f (tid_of w tid)))))) in Hr.
    rewrite Hr. f_equal. lia.
Qed.

Lemma alter_id_tid w tid : w_tid w = alter (fun t => t) (Z.to_nat tid) (w_tid w).
Proof. symmetry. by apply list_alter_id. Qed.

Lemma try_ref_cur_true r : (mtlk_reflim_try_ref r).1 = true ->
  rl_cur (mtlk_reflim_try_ref r).2 = u32 (rl_cur r + 1).
Proof. unfold mtlk_reflim_try_ref. by case_match. Qed.

Lemma try_ref_cur_le r : (mtlk_reflim_try_ref r).1 = true ->
  u32 (rl_cur (mtlk_reflim_try_ref r).2) <= rl_max r.
Proof.
  unfold mtlk_reflim_try_ref. case_match; [|done]. intros _. simpl. rewrite u32_idemp. by zbool.
Qed.

Lemma try_ref_cur_false r : (mtlk_reflim_try_ref r).1 = false ->
  rl_cur (mtlk_reflim_try_ref r).2 = u32 (u32 (rl_cur r + 1) - 1).
Proof. unfold mtlk_reflim_try_ref. by case_match. Qed.
End AddbaAcct.

(** Establish [acct] after [run]: gather the changes of the TID, then compare
    the limiters modulo 2^32. *)
Ltac u32_lia :=
  autorewrite with wave; repeat rewrite u32_idemp; f_equal; lia.
Ltac alter_merge := repeat (rewrite list_alter_alter; cbn [t_tx t_rx]).
Ltac acct_tac w tid Hw Ht :=
  alter_merge; world_simpl;
  first [ eapply (acct_step _ w _ tid Hw Ht); [world_simpl; reflexivity|..]
        | eapply (acct_step (fun t => t) w _ tid Hw Ht); [world_simpl; apply alter_id_tid|..] ];
  world_simpl; rewrite ?unref_max, ?try_ref_max; try done; cbn.

(** Read the TID back through the updates made so far. *)
Ltac tid_simpl w tid Hw Ht :=
  unfold tx_of, rx_of, tid_of in *; world_simpl;
  let Hlen := fresh "Hlen" in
  assert (Hlen : (Z.to_nat tid < length (w_tid w))%nat)
    by (rewrite Hw; unfold MTLK_ADDBA_NOF_TIDs, valid_tid in *; lia);
  repeat match goal with
  | |- context [alter _ (Z.to_nat tid) _ !!! Z.to_nat tid] =>
      rewrite alter_total by (rewrite ?length_alter; exact Hlen)
  | H : context [alter _ (Z.to_nat tid) _ !!! Z.to_nat tid] |- _ =>
      rewrite alter_total in H by (rewrite ?length_alter; exact Hlen)
  end; clear Hlen.

Ltac acct_done w tid Hw Ht :=
  tid_simpl w tid Hw Ht;
  repeat match goal with
  | H : negb (mtlk_reflim_try_ref _).1 = true |- _ => apply negb_true_iff in H
  | H : negb (mtlk_reflim_try_ref _).1 = false |- _ => apply negb_false_iff in H
  | H : (mtlk_reflim_try_ref _).1 = true |- _ =>
      let Hle := fresh "Hle" in
      pose proof (try_ref_cur_le _ H) as Hle; apply try_ref_cur_true in H; rewrite H in Hle; rewrite ?H
  | H : (mtlk_reflim_try_ref _).1 = false |- _ => apply try_ref_cur_false in H; rewrite ?H
  end;
  destruct (w_tid w !!! Z.to_nat tid) as [[tx_st ? ? ? ? ? ? ? ? ?] [? ? ? ? ? ? ? ?]]; cbn in *;
  try (destruct tx_st; try (exfalso; intuition congruence));
  repeat match goal with b : bool |- _ => destruct b end; try done; try (intros _; by auto);
  cbn; try (intros _; autorewrite with wave; done); autorewrite with wave; f_equal; lia.

Ltac acct_solve w tid Hw Ht := acct_tac w tid Hw Ht; acct_done w tid Hw Ht.

Section AddbaAcct2.
Context {T : Type} {ops : TxmmOps T addba_msg addba_clb addba_payload}.
Context (clock : nat -> Z) (get_last_rx_timestamp : nat -> Z -> Z).
Implicit Types w : world T.
Abbreviation M := (ST (world T)).

Lemma reset_tx_acct tid : valid_tid tid -> within acct_rel (_mtlk_addba_peer_reset_tx_state (T := T) tid).
Proof.
  intros Ht w Hw. unfold _mtlk_addba_peer_reset_tx_state. run.
  all: acct_solve w tid Hw Ht.
Qed.

Lemma tx_addba_req_acct tid ps : valid_tid tid -> within acct_rel (_mtlk_addba_peer_tx_addba_req (T := T) tid ps).
Proof.
  intros Ht w Hw. unfold _mtlk_addba_peer_tx_addba_req, _mtlk_addba_peer_fill_addba_req,
    _mtlk_addba_peer_on_addba_req_sent. run.
  all: acct_solve w tid Hw Ht.
Qed.

Lemma reset_rx_acct tid : valid_tid tid -> within acct_rel (_mtlk_addba_peer_reset_rx_state (T := T) tid).
Proof.
  intros Ht w Hw. unfold _mtlk_addba_peer_reset_rx_state. run.
  all: acct_solve w tid Hw Ht.
Qed.

Lemma reordering_stop_acct tid : valid_tid tid -> within acct_rel (_mtlk_addba_peer_reordering_stop (T := T) tid).
Proof.
  intros Ht w Hw. unfold _mtlk_addba_peer_reordering_stop, _mtlk_addba_peer_reset_rx_state. run.
  all: acct_solve w tid Hw Ht.
Qed.

Lemma send_delba_acct tid dir : valid_tid tid -> within acct_rel (_mtlk_addba_peer_send_delba_req (T := T) tid dir).
Proof.
  intros Ht w Hw. unfold _mtlk_addba_peer_send_delba_req, _mtlk_addba_is_reord_on. run.
  all: acct_solve w tid Hw Ht.
Qed.

Lemma close_aggr_acct tid : valid_tid tid -> within acct_rel (_mtlk_addba_peer_close_aggr_req (T := T) tid).
Proof.
  intros Ht w Hw. unfold _mtlk_addba_peer_close_aggr_req. run.
  all: acct_solve w tid Hw Ht.
Qed.

Lemma send_res_acct tid : valid_tid tid -> within acct_rel (_mtlk_addba_peer_send_rx_addba_res (T := T) clock tid).
Proof.
  intros Ht w Hw. unfold _mtlk_addba_peer_send_rx_addba_res. run.
  all: acct_solve w tid Hw Ht.
Qed.

(** Single statements that touch no reference. *)
Lemma quiet_run {A} (m : M A) :
  (forall w, w_tid (exec m w) = w_tid w /\ w_aggr_reflim (exec m w) = w_aggr_reflim w /\
             w_reord_reflim (exec m w) = w_reord_reflim w) ->
  within acct_rel m.
Proof.
  intros Hf w Hw. destruct (Hf w) as (E1 & E2 & E3).
  eapply (acct_step (fun t => t) w _ 0 Hw); [unfold valid_tid; lia|..]; rewrite ?E1, ?E2, ?E3; try done; [apply alter_id_tid|..];
    try (intros; by left); f_equal; unfold tx_of, rx_of; lia.
Qed.

Lemma quiet_acct (f : world T -> world T) :
  (forall w, w_tid (f w) = w_tid w /\ w_aggr_reflim (f w) = w_aggr_reflim w /\
             w_reord_reflim (f w) = w_reord_reflim w) ->
  within acct_rel (modify f).
Proof. intros Hf. by apply quiet_run. Qed.

Lemma ev_acct e : within acct_rel (ev (T := T) e).
Proof. by apply quiet_acct. Qed.

Lemma assert_acct b : within acct_rel (mtlk_assert (T := T) b).
Proof. apply within_when; [apply _|apply ev_acct]. Qed.

Lemma upd_tx_acct tid f :
  valid_tid tid -> (forall x, aggr_held (tx_state (f x)) = aggr_held (tx_state x)) ->
  within acct_rel (upd_tx (T := T) tid f).
Proof.
  intros Ht Hf w Hw. unfold upd_tx. rewrite run_end_modify.
  eapply (acct_step _ w _ tid Hw Ht); [reflexivity|done..| | | | |done|done]; cbn; rewrite ?Hf; try by left.
  all: f_equal; unfold tx_of, rx_of; lia.
Qed.

Lemma upd_rx_acct tid f :
  valid_tid tid -> (forall x, rx_reorder_is_active (f x) = rx_reorder_is_active x) ->
  within acct_rel (upd_rx (T := T) tid f).
Proof.
  intros Ht Hf w Hw. unfold upd_rx. rewrite run_end_modify.
  eapply (acct_step _ w _ tid Hw Ht); [reflexivity|done..| | | | |done|done]; cbn; rewrite ?Hf; try by left.
  all: f_equal; unfold tx_of, rx_of; lia.
Qed.

Lemma now_acct : within acct_rel (now_ms (T := T) clock).
Proof. by apply quiet_run. Qed.

Lemma txmm_get_acct m : within acct_rel (txmm_get (ops := ops) m).
Proof.
  apply quiet_run. intros w. unfold txmm_get, exec. by destruct (tx_get_empty_data m (w_txmm w)).
Qed.

Lemma txmm_send_acct m c p : within acct_rel (txmm_send (ops := ops) m c p).
Proof.
  apply quiet_run. intros w. unfold txmm_send, exec. by destruct (tx_send m c p 0 (w_txmm w)).
Qed.

Lemma txmm_cancel_acct m : within acct_rel (txmm_cancel (ops := ops) m).
Proof.
  apply quiet_run. intros w. unfold txmm_cancel, exec. by destruct (tx_cancel m (w_txmm w)).
Qed.

(** Where the code may set a state that holds a reference without taking one:
    the confirmations are expected only while the TID holds it. *)
Lemma upd_tx_held_acct tid f w :
  wf w -> valid_tid tid ->
  aggr_held (tx_state (tx_of w tid)) = true ->
  aggr_held (tx_state (f (tx_of w tid))) = true ->
  acct w (exec (upd_tx (T := T) tid f) w).
Proof.
  intros Hw Ht H1 H2. unfold upd_tx. rewrite run_end_modify.
  eapply (acct_step _ w _ tid Hw Ht); [reflexivity|done..| | | | |done|done]; cbn; unfold tx_of, rx_of in *;
    rewrite ?H1, ?H2; try (by left); f_equal; lia.
Qed.
End AddbaAcct2.

Create HintDb acct.
#[export] Hint Resolve ev_acct assert_acct now_acct txmm_get_acct txmm_send_acct txmm_cancel_acct
  reset_tx_acct reset_rx_acct reordering_stop_acct send_delba_acct close_aggr_acct send_res_acct
  tx_addba_req_acct : acct.
#[export] Hint Extern 1 (within acct_rel (modify _)) => (apply quiet_acct; done) : acct.
#[export] Hint Extern 1 (within acct_rel (upd_tx _ _)) => (apply upd_tx_acct; [done|done]) : acct.
#[export] Hint Extern 1 (within acct_rel (upd_rx _ _)) => (apply upd_rx_acct; [done|done]) : acct.

(** Walk down a program whose statements all balance. *)
Ltac acct_walk :=
  repeat first
    [ solve [auto with acct wave]
    | apply within_bind; [typeclasses eauto| |intros ?]
    | apply within_when; [typeclasses eauto|]
    | match goal with
      | |- within _ (if ?b then _ else _) => destruct b
      | |- within _ (match ?x with _ => _ end) => destruct x
      end
    | apply within_ret; typeclasses eauto
    | apply within_gets; typeclasses eauto ].

Section AddbaAcct3.
Context {T : Type} {ops : TxmmOps T addba_msg addba_clb addba_payload}.
Context (clock : nat -> Z) (get_last_rx_timestamp : nat -> Z -> Z).
Implicit Types w : world T.

Lemma all_tids_valid tid : tid ∈ all_tids -> valid_tid tid.
Proof. unfold all_tids, valid_tid. rewrite !elem_of_cons. intros Hx. repeat destruct Hx as [->|Hx]; try lia. by apply not_elem_of_nil in Hx. Qed.

Lemma delba_cfm_acct p b : valid_tid (dr_u16AccessProtocol p) ->
  within acct_rel (_mtlk_addba_peer_on_delba_req_tx_cfm_clb (T := T) p b).
Proof. intros Ht. unfold _mtlk_addba_peer_on_delba_req_tx_cfm_clb, cntr_inc, get_tx, get_rx. acct_walk. Qed.

Lemma close_aggr_cfm_acct p b : valid_tid (ca_u16AccessProtocol p) ->
  within acct_rel (_mtlk_addba_peer_on_close_aggr_cfm_clb (T := T) p b).
Proof. intros Ht. unfold _mtlk_addba_peer_on_close_aggr_cfm_clb, cntr_inc. acct_walk. Qed.

Lemma addba_res_cfm_acct p b : valid_tid (ar_u16AccessProtocol p) ->
  within acct_rel (_mtlk_addba_peer_on_addba_res_tx_cfm_clb (T := T) p b).
Proof. intros Ht. unfold _mtlk_addba_peer_on_addba_res_tx_cfm_clb, cntr_inc, get_rx. acct_walk. Qed.

Lemma delba_timeout_acct tid : valid_tid tid ->
  within acct_rel (check_delba_timeout (T := T) (ops := ops) clock get_last_rx_timestamp tid).
Proof. intros Ht. unfold check_delba_timeout, cntr_inc, get_rx. acct_walk. Qed.

Lemma addba_timeout_acct tid : valid_tid tid ->
  within acct_rel (check_addba_res_rx_timeout (T := T) clock tid).
Proof. intros Ht. unfold check_addba_res_rx_timeout, cntr_inc, get_tx. acct_walk. Qed.

Lemma delba_rx_acct tid res_code ini : valid_tid tid ->
  within acct_rel (mtlk_addba_peer_on_delba_req_rx (ops := ops) tid res_code ini).
Proof. intros Ht. unfold mtlk_addba_peer_on_delba_req_rx, cntr_inc. acct_walk. Qed.

Lemma refused_acct tid : valid_tid tid -> within acct_rel (on_addba_refused (T := T) clock tid).
Proof. intros Ht. unfold on_addba_refused, cntr_inc, get_tx. acct_walk. Qed.

Lemma rx_delba_status_acct tid st : valid_tid tid ->
  within acct_rel (_mtlk_addba_peer_on_rx_delba_req_tx_status (ops := ops) tid st).
Proof. intros Ht. unfold _mtlk_addba_peer_on_rx_delba_req_tx_status, cntr_inc, get_rx. acct_walk. Qed.

Lemma tx_delba_status_acct tid st : valid_tid tid ->
  within acct_rel (_mtlk_addba_peer_on_tx_delba_req_tx_status (ops := ops) tid st).
Proof. intros Ht. unfold _mtlk_addba_peer_on_tx_delba_req_tx_status, cntr_inc, get_tx. acct_walk. Qed.

Lemma addba_res_status_acct tid st : valid_tid tid ->
  within acct_rel (_mtlk_addba_peer_on_addba_res_tx_req_tx_status (ops := ops) clock tid st).
Proof. intros Ht. unfold _mtlk_addba_peer_on_addba_res_tx_req_tx_status, cntr_inc, get_rx. acct_walk. Qed.

Lemma terminate_acct tid : valid_tid tid -> within acct_rel (terminate_aggr (ops := ops) tid).
Proof. intros Ht. unfold terminate_aggr, get_tx. acct_walk. Qed.

Lemma reset_tx_none tid w : wf w -> valid_tid tid ->
  tx_state (tx_of (exec (_mtlk_addba_peer_reset_tx_state (T := T) tid) w) tid) = MTLK_ADDBA_TX_NONE.
Proof.
  intros Hw Ht. unfold _mtlk_addba_peer_reset_tx_state. run; tid_simpl w tid Hw Ht; done.
Qed.

Lemma peer_stop_tid_acct tid : valid_tid tid -> within acct_rel (peer_stop_tid (ops := ops) clock tid).
Proof.
  intros Ht w Hw. unfold peer_stop_tid. rewrite exec_bind.
  pose proof (reset_tx_acct tid Ht w Hw) as Ha. pose proof (reset_tx_none tid w Hw Ht) as Hn.
  generalize dependent (exec (_mtlk_addba_peer_reset_tx_state tid) w). intros w1 Ha Hn.
  generalize (eval (_mtlk_addba_peer_reset_tx_state tid) w). intros stop.
  assert (wf w1) as Hw1 by apply Ha. assert (acct_rel w w1) as Hr by (by intros _).
  refine ((transitivity (R := acct_rel) Hr _) Hw). intros _. clear Ha Hr Hw w.
  unfold _mtlk_addba_peer_reordering_stop, _mtlk_addba_peer_reset_rx_state. run.
  all: acct_solve w1 tid Hw1 Ht.
Qed.

Lemma peer_stop_acct : within acct_rel (_mtlk_addba_peer_stop (ops := ops) clock).
Proof.
  apply within_for_each; [apply _|]. intros tid Ht. apply peer_stop_tid_acct. by apply all_tids_valid.
Qed.

Lemma addba_res_rx_acct res_code tid win dlgt : valid_tid tid ->
  within acct_rel (mtlk_addba_peer_on_addba_res_rx (ops := ops) clock res_code tid win dlgt).
Proof.
  intros Ht w Hw. unfold mtlk_addba_peer_on_addba_res_rx, on_addba_accepted. run.
  all: try acct_solve w tid Hw Ht.
  all: apply (within_bind acct_rel); [by apply refused_acct| |done].
  all: intros []; simpl; [apply ev_acct|apply within_ret; apply _].
Qed.

(** A new reordering takes its reference only from an inactive TID. *)
Lemma reordering_start_acct tid ssn win w : wf w -> valid_tid tid ->
  rx_reorder_is_active (rx_of w tid) = false ->
  acct w (exec (_mtlk_addba_peer_reordering_start (T := T) tid ssn win) w).
Proof.
  intros Hw Ht Hin. unfold _mtlk_addba_peer_reordering_start. run.
  all: acct_solve w tid Hw Ht.
Qed.

Lemma reordering_stop_inactive tid w : wf w -> valid_tid tid ->
  rx_reorder_is_active (rx_of (exec (_mtlk_addba_peer_reordering_stop (T := T) tid) w) tid) = false.
Proof.
  intros Hw Ht. unfold _mtlk_addba_peer_reordering_stop, _mtlk_addba_peer_reset_rx_state.
  run; tid_simpl w tid Hw Ht; done.
Qed.

(** What follows the decision on a request. *)
Lemma send_res_or_stop_acct tid tmout : valid_tid tid ->
  within acct_rel (err ← _mtlk_addba_peer_send_rx_addba_res (ops := ops) clock tid;
    if negb (err =? MTLK_ERR_OK) then _mtlk_addba_peer_reordering_stop tid
    else on ← _mtlk_addba_is_reord_on tid;
         when on (upd_rx tid (rx_set_delba_timeout (ADDBA_TU_TO_MS tmout)))).
Proof. intros Ht. unfold _mtlk_addba_is_reord_on, get_rx. acct_walk. Qed.

Lemma addba_req_rx_acct ssn tid win dlgt tmout ack rate : valid_tid tid ->
  within acct_rel (mtlk_addba_peer_on_addba_req_rx (ops := ops) clock ssn tid win dlgt tmout ack rate).
Proof.
  intros Ht. unfold mtlk_addba_peer_on_addba_req_rx, cntr_inc, get_rx, get_cfg.
  destruct (negb (tid_ok tid)); [apply within_ret, _|].
  apply within_bind; [apply _|apply within_gets, _|intros []; [|apply within_ret, _]]. simpl.
  apply within_bind; [apply _|apply ev_acct|intros _].
  apply within_bind; [apply _|apply within_gets, _|intros rx].
  destruct (addba_req_dropped rx dlgt); [apply within_ret, _|].
  (* the rest runs with reordering stopped *)
  intros w Hw. rewrite exec_bind.
  pose proof (reordering_stop_acct tid Ht w Hw) as Ha.
  pose proof (reordering_stop_inactive tid w Hw Ht) as Hn.
  generalize dependent (exec (_mtlk_addba_peer_reordering_stop tid) w). intros w1 Ha Hn.
  assert (wf w1) as Hw1 by apply Ha. assert (acct_rel w w1) as Hr by (by intros _).
  refine ((transitivity (R := acct_rel) Hr _) Hw). clear Ha Hr Hw w. intros _.
  rewrite run_gets, run_upd_rx.
  set (w2 := set_tid _ w1).
  assert (acct w1 w2) as Ha2 by acct_solve w1 tid Hw1 Ht.
  assert (rx_reorder_is_active (rx_of w2 tid) = false) as Hn2.
  { subst w2. tid_simpl w1 tid Hw1 Ht. done. }
  clearbody w2. assert (wf w2) as Hw2 by apply Ha2. assert (acct_rel w1 w2) as Hr by (by intros _).
  refine ((transitivity (R := acct_rel) Hr _) Hw1). clear Ha2 Hr Hw1 Hn w1. intros _.
  rewrite run_gets, exec_bind.
  set (w3 := exec _ w2).
  assert (acct_rel w2 w3) as Hr3; [|exact (transitivity (R := acct_rel) Hr3 (send_res_or_stop_acct tid tmout Ht w3) Hw2)].
  subst w3. intros _. unfold set_res_code.
  destruct (negb (_mtlk_addba_is_allowed_rate rate)); [by apply upd_rx_acct|].
  destruct (negb _); [by apply upd_rx_acct|].
  destruct (ack =? 0); [by apply upd_rx_acct|]. rewrite exec_bind.
  set (w3 := exec _ w2).
  assert (acct_rel w2 w3) as Hr3 by (intros _; by apply reordering_start_acct).
  refine ((transitivity (R := acct_rel) Hr3 _) Hw2). case_match; by apply upd_rx_acct.
Qed.

(** A confirmation finds the TID holding its reference. *)
Lemma open_aggr_cfm_acct p b w : wf w -> valid_tid (oa_u16AccessProtocol p) ->
  aggr_held (tx_state (tx_of w (oa_u16AccessProtocol p))) = true ->
  acct w (exec (_mtlk_addba_peer_on_open_aggr_cfm_clb (T := T) p b) w).
Proof.
  intros Hw Ht Hh. unfold _mtlk_addba_peer_on_open_aggr_cfm_clb. run.
  all: acct_solve w (oa_u16AccessProtocol p) Hw Ht.
Qed.

Lemma addba_req_cfm_acct p b w : wf w -> valid_tid (aq_u16AccessProtocol p) ->
  aggr_held (tx_state (tx_of w (aq_u16AccessProtocol p))) = true ->
  acct w (exec (_mtlk_addba_peer_on_addba_req_tx_cfm_clb clock (T := T) p b) w).
Proof.
  intros Hw Ht Hh. unfold _mtlk_addba_peer_on_addba_req_tx_cfm_clb. run.
  all: acct_solve w (aq_u16AccessProtocol p) Hw Ht.
Qed.

Lemma reset_ps_acct tid : valid_tid tid -> within acct_rel (mtlk_addba_peer_reset_power_save (T := T) tid).
Proof.
  intros Ht w Hw. unfold mtlk_addba_peer_reset_power_save. run.
  all: acct_solve w tid Hw Ht.
Qed.

Lemma for_all_tids_acct (body : Z -> ST (world T) unit) :
  (forall tid, valid_tid tid -> within acct_rel (body tid)) -> within acct_rel (for_each all_tids body).
Proof. intros Hb. apply within_for_each; [apply _|]. intros tid Ht. by apply Hb, all_tids_valid. Qed.
End AddbaAcct3.
