(* ===== verification/AddbaInv.v ===== *)
(** * AddbaInv: the states a TID goes through and the message it waits for

    The invariant of the negotiation module over any transport that keeps the
    laws of [TxmmLaws]: which message a TID has in flight in which state, when
    reordering runs, and the range of the counters.  Each operation preserves
    it. *)
From S2P Require Import Prelude Reflim TxmmIface Addba AddbaAcct.

(** ** The invariant of one TID *)

(** The state of the transmitting side and the answer it waits for, with the
    windows and the dialog token the messages carry.  A request refused before
    its own confirmation leaves the confirmation outstanding. *)
Definition flight_ok (tid : Z) (st : mtlk_addba_peer_tx_state_e) (fl : option (addba_clb * addba_payload)) : Prop :=
  match fl with
  | None =>
      match st with
      | MTLK_ADDBA_TX_NONE | MTLK_ADDBA_TX_ADDBA_REQ_CFMD | MTLK_ADDBA_TX_AGGR_OPENED
      | MTLK_ADDBA_TX_STA_POWER_SAVE => True
      | _ => False
      end
  | Some (ClbAddbaReq, PAddbaReq p) =>
      aq_u16AccessProtocol p = tid /\
      match st with
      | MTLK_ADDBA_TX_ADDBA_REQ_SENT | MTLK_ADDBA_TX_NONE | MTLK_ADDBA_TX_STA_POWER_SAVE => True
      | _ => False
      end /\ 0 <= aq_u8BA_WinSize_O p <= 64 /\ 0 <= aq_u8DialogToken p < 255
  | Some (ClbOpenAggr, POpenAggr p) =>
      oa_u16AccessProtocol p = tid /\ st = MTLK_ADDBA_TX_ADD_AGGR_REQ_SENT /\ 1 <= oa_windowSize p <= 64
  | Some (ClbCloseAggr, PCloseAggr p) => ca_u16AccessProtocol p = tid /\ st = MTLK_ADDBA_TX_DEL_AGGR_REQ_SENT
  | _ => False
  end.

Definition rx_flight_ok (tid : Z) (fl : option (addba_clb * addba_payload)) : Prop :=
  match fl with
  | None => True
  | Some (ClbDelbaReq, PDelbaReq p) => dr_u16AccessProtocol p = tid
  | Some (ClbAddbaRes, PAddbaRes p) => ar_u16AccessProtocol p = tid
  | _ => False
  end.

Definition tx_bounds (x : mtlk_addba_peer_tx_t) : Prop :=
  0 <= tx_win_size_req x <= 64 /\ 0 <= tx_addba_res_rejects x < MTLK_ADDBA_MAX_REJECTS /\
  0 <= tx_delba_req_attempt x <= MTLK_DELBA_REQ_MAX_RETRANSMISSIONS /\
  0 <= tx_reject_interval x <= ADDBA_REJECT_INTERVAL_MAX /\
  0 <= tx_addba_req_dlgt x <= 255.

(** The states of the receiving side in which reordering runs. *)
Definition rx_reordering (s : mtlk_addba_peer_rx_state_e) : bool :=
  match s with
  | MTLK_ADDBA_RX_ADDBA_POSITIVE_RES_SENT | MTLK_ADDBA_RX_REORD_IN_PROCESS
  | MTLK_ADDBA_RX_DELBA_REQ_SENT => true
  | _ => false
  end.

(** The response kept for retransmission says what the state says. *)
Definition res_matches (tid : Z) (s : mtlk_addba_peer_rx_state_e) (r : UMI_ADDBA_RES_SEND) : Prop :=
  match s with
  | MTLK_ADDBA_RX_ADDBA_POSITIVE_RES_SENT =>
      ar_u16AccessProtocol r = tid /\ (ar_u16ResultCode r =? MTLK_ADDBA_RES_CODE_SUCCESS) = true
  | MTLK_ADDBA_RX_ADDBA_NEGATIVE_RES_SENT =>
      ar_u16AccessProtocol r = tid /\ (ar_u16ResultCode r =? MTLK_ADDBA_RES_CODE_SUCCESS) = false
  | _ => True
  end.

Definition rx_attempts (x : mtlk_addba_peer_rx_t) : Prop :=
  0 <= rx_delba_req_attempt x <= MTLK_DELBA_REQ_MAX_RETRANSMISSIONS /\
  0 <= rx_addba_res_attempt x <= MTLK_ADDBA_RSP_MAX_RETRANSMISSIONS.

Definition tx_inv (tid : Z) (x : mtlk_addba_peer_tx_t) fl : Prop :=
  flight_ok tid (tx_state x) fl /\ tx_bounds x.

Definition rx_inv (tid : Z) (x : mtlk_addba_peer_rx_t) : Prop :=
  rx_reorder_is_active x = rx_reordering (rx_state x) /\
  res_matches tid (rx_state x) (rx_addba_res x) /\ rx_attempts x.

(** While a request is being answered: reordering was started exactly if the
    answer is going to be positive. *)
Definition rx_deciding (tid : Z) (x : mtlk_addba_peer_rx_t) : Prop :=
  rx_state x = MTLK_ADDBA_RX_NONE /\
  ar_u16AccessProtocol (rx_addba_res x) = tid /\
  rx_reorder_is_active x = (ar_u16ResultCode (rx_addba_res x) =? MTLK_ADDBA_RES_CODE_SUCCESS) /\
  rx_attempts x.

(** After reordering was stopped. *)
Definition rx_idle (x : mtlk_addba_peer_rx_t) : Prop :=
  rx_state x = MTLK_ADDBA_RX_NONE /\ rx_reorder_is_active x = false /\ rx_attempts x.

Definition msg_tid (m : addba_msg) : Z := match m with TxMsg tid | RxMsg tid => tid end.

Section AddbaInv.
Context {T : Type} {ops : TxmmOps T addba_msg addba_clb addba_payload} {tx_ok : T -> Prop}.
Context {laws : TxmmLaws T addba_msg addba_clb addba_payload tx_ok}.
Context (clock : nat -> Z) (get_last_rx_timestamp : nat -> Z -> Z).
Implicit Types w : world T.

Definition flight w m := tx_in_flight (w_txmm w) m.

(** The invariant, with the receiving side of [tid] in a condition [Q]. *)
Record sinv_at (tid : Z) (Q : mtlk_addba_peer_rx_t -> Prop) w : Prop := {
  sa_wf : wf w;
  sa_ok : tx_ok (w_txmm w);
  sa_dlg : 0 <= w_next_dlg_token w < 255;
  sa_tx t : valid_tid t -> tx_inv t (tx_of w t) (flight w (TxMsg t));
  sa_rxf t : valid_tid t -> rx_flight_ok t (flight w (RxMsg t));
  sa_rx t : valid_tid t -> t <> tid -> rx_inv t (rx_of w t);
  sa_at : Q (rx_of w tid);
}.

Definition sinv w : Prop := forall tid, valid_tid tid -> sinv_at tid (rx_inv tid) w.

Lemma sinv_of_at tid w : valid_tid tid -> sinv_at tid (rx_inv tid) w -> sinv w.
Proof.
  intros Ht [H1 H2 H3 H4 H5 H6 H7] t Hv. split; try done.
  - intros t' Hv' _. destruct (decide (t' = tid)) as [->|]; auto.
  - destruct (decide (t = tid)) as [->|]; auto.
Qed.

Lemma sinv_at_mono tid Q Q' w : (forall x, Q x -> Q' x) -> sinv_at tid Q w -> sinv_at tid Q' w.
Proof. intros HQ [H1 H2 H3 H4 H5 H6 H7]. split; auto. Qed.

Lemma rx_idle_inv tid x : rx_idle x -> rx_inv tid x.
Proof. intros (H1 & H2 & H3). unfold rx_inv. by rewrite H1. Qed.

(** What a call does to the transport, as far as the TID's messages tell. *)
Definition txs (tid : Z) (t t' : T) : Prop :=
  tx_ok t' /\ forall m, msg_tid m <> tid -> tx_in_flight t' m = tx_in_flight t m.

Lemma txs_refl tid t : tx_ok t -> txs tid t t.
Proof. done. Qed.

Lemma get_flight m t m' : tx_ok t ->
  tx_in_flight (tx_get_empty_data m t).2 m' = tx_in_flight t m'.
Proof.
  intros Hok. change (tx_get_empty_data m t).2 with (exec (tx_get_empty_data m) t).
  destruct (decide (m' = m)) as [->|Hne]; [|by apply (tx_get_others t m Hok)].
  destruct (eval (tx_get_empty_data m) t) eqn:E.
  - destruct (tx_get_done t m Hok E) as (H1 & _ & ->). by rewrite (tx_flight_use t m Hok H1).
  - by apply tx_get_fail.
Qed.

Lemma get_txs m t tid : tx_ok t -> txs tid t (tx_get_empty_data m t).2.
Proof. intros Hok. split; [by apply (tx_get_ok t m)|]. intros. by apply get_flight. Qed.

Lemma get_true_none m t : tx_ok t -> (tx_get_empty_data m t).1 = true -> tx_in_flight t m = None.
Proof. intros Hok E. destruct (tx_get_done t m Hok E) as (H1 & _). by apply tx_flight_use. Qed.

Section sent.
Context (m : addba_msg) (c : addba_clb) (p : addba_payload) (tmo : Z) (t : T).
Context (Hok : tx_ok t) (Hgot : (tx_get_empty_data m t).1 = true).

Lemma send_txs tid : msg_tid m = tid -> txs tid t (tx_send m c p tmo (tx_get_empty_data m t).2).2.
Proof.
  intros Hm. destruct (tx_get_done t m Hok Hgot) as (_ & H2 & H3). pose proof (tx_get_ok t m Hok) as H1.
  split; [by apply (tx_send_ok _ m c p tmo H1)|]. intros m' Hne.
  destruct (tx_send_others _ m c p tmo H1 H2 H3 m') as [_ E]; [by intros ->|].
  etransitivity; [exact E|]. by apply get_flight.
Qed.

Lemma send_flight_ne m' : m' <> m ->
  tx_in_flight (tx_send m c p tmo (tx_get_empty_data m t).2).2 m' = tx_in_flight t m'.
Proof.
  intros Hne. destruct (tx_get_done t m Hok Hgot) as (_ & H2 & H3). pose proof (tx_get_ok t m Hok) as H1.
  destruct (tx_send_others _ m c p tmo H1 H2 H3 m' Hne) as [_ E].
  etransitivity; [exact E|]. by apply get_flight.
Qed.

Lemma send_flight_eq :
  tx_in_flight (tx_send m c p tmo (tx_get_empty_data m t).2).2 m =
  if (tx_send m c p tmo (tx_get_empty_data m t).2).1 =? MTLK_ERR_OK then Some (c, p) else None.
Proof.
  destruct (tx_get_done t m Hok Hgot) as (_ & H2 & H3). pose proof (tx_get_ok t m Hok) as H1.
  apply (tx_send_done _ m c p tmo H1 H2 H3).
Qed.
End sent.

Lemma cancel_flight m t m' : tx_ok t ->
  tx_in_flight (tx_cancel m t).2 m' = if decide (m' = m) then None else tx_in_flight t m'.
Proof.
  intros Hok. case_decide as Hd.
  - subst m'. apply tx_flight_use; [by apply (tx_cancel_ok t m)|by apply (tx_cancel_done t m)].
  - by apply (tx_cancel_others t m Hok).
Qed.

Lemma cancel_txs m t tid : tx_ok t -> msg_tid m = tid -> txs tid t (tx_cancel m t).2.
Proof.
  intros Hok Hm. split; [by apply (tx_cancel_ok t m)|]. intros m' Hne. rewrite cancel_flight by done.
  rewrite decide_False; [done|]. by intros ->.
Qed.

(** Both messages of a TID cancelled, as [mtlk_addba_peer_stop] does. *)
Lemma cancel_both tid t : tx_ok t ->
  let t' := (tx_cancel (RxMsg tid) (tx_cancel (TxMsg tid) t).2).2 in
  txs tid t t' /\ tx_in_flight t' (TxMsg tid) = None /\ tx_in_flight t' (RxMsg tid) = None.
Proof.
  intros Hok t'. assert (tx_ok (tx_cancel (TxMsg tid) t).2) as Hok1 by (by apply (tx_cancel_ok t (TxMsg tid))).
  destruct (cancel_txs (RxMsg tid) _ tid Hok1) as [H1 H2]; [done|].
  destruct (cancel_txs (TxMsg tid) t tid Hok) as [_ H3]; [done|].
  split_and!; [split; [done|]|..].
  - intros m Hm. unfold t'. by rewrite H2, H3.
  - unfold t'. rewrite (cancel_flight (RxMsg tid)), (cancel_flight (TxMsg tid)) by done. rewrite decide_False by done. by rewrite decide_True.
  - unfold t'. rewrite cancel_flight by done. by rewrite decide_True.
Qed.

(** The transport takes an answered message back. *)
Definition released (m : addba_msg) (t t' : T) : Prop :=
  tx_ok t' /\ tx_in_flight t' m = None /\ forall m', m' <> m -> tx_in_flight t' m' = tx_in_flight t m'.

Lemma released_txs m t t' : released m t t' -> txs (msg_tid m) t t'.
Proof. intros (H1 & H2 & H3). split; [done|]. intros m' Hm. apply H3. congruence. Qed.

(** One step of one TID. *)
Lemma sinv_step f w w' tid Q Q' :
  valid_tid tid -> sinv_at tid Q w -> w_tid w' = alter f (Z.to_nat tid) (w_tid w) ->
  0 <= w_next_dlg_token w' < 255 -> txs tid (w_txmm w) (w_txmm w') ->
  tx_inv tid (t_tx (f (tid_of w tid))) (flight w' (TxMsg tid)) ->
  rx_flight_ok tid (flight w' (RxMsg tid)) ->
  Q' (t_rx (f (tid_of w tid))) ->
  sinv_at tid Q' w'.
Proof.
  intros Ht [Hw Hok Hd Htx Hrf Hrx Hat] Hl Hd' [Hok' Hfl] Htx' Hrf' Hrx'.
  assert (tid_of w' tid = f (tid_of w tid)) as Heq.
  { unfold tid_of. rewrite Hl. apply alter_total. rewrite Hw. unfold valid_tid, MTLK_ADDBA_NOF_TIDs in *. lia. }
  assert (forall t, valid_tid t -> t <> tid -> tid_of w' t = tid_of w t) as Hne.
  { intros t Hv Hn. unfold tid_of. rewrite Hl. apply alter_total_ne. unfold valid_tid in *. lia. }
  split; try done.
  - unfold wf. by rewrite Hl, length_alter.
  - intros t Hv. unfold tx_of. destruct (decide (t = tid)) as [->|Hn]; [by rewrite Heq|].
    rewrite Hne by done. unfold flight. rewrite Hfl by done. by apply Htx.
  - intros t Hv. destruct (decide (t = tid)) as [->|Hn]; [done|]. unfold flight. rewrite Hfl by done. by apply Hrf.
  - intros t Hv Hn. unfold rx_of. rewrite Hne by done. by apply Hrx.
  - unfold rx_of. by rewrite Heq.
Qed.
End AddbaInv.
