(* ===== verification/AddbaOps.v ===== *)
(** * AddbaOps: each negotiation operation preserves the invariant *)
From S2P Require Import Prelude Reflim TxmmIface Addba AddbaAcct AddbaInv.

(** Apply [sinv_step] to a finished run, then decide the four conditions. *)
Ltac sinv_start w tid Ht Hs :=
  alter_merge; world_simpl;
  first [ eapply (sinv_step _ w _ tid _ _ Ht Hs); [world_simpl; reflexivity|..]
        | eapply (sinv_step (fun t => t) w _ tid _ _ Ht Hs); [world_simpl; apply alter_id_tid|..] ];
  unfold flight in *; world_simpl.

Ltac sinv_txs :=
  first [ by apply txs_refl | by apply get_txs | by apply send_txs | by apply cancel_txs | by apply cancel_both ].

Ltac sinv_flights Htok :=
  repeat first
    [ rewrite (proj1 (proj2 (cancel_both _ _ Htok)))
    | rewrite (proj2 (proj2 (cancel_both _ _ Htok)))
    | rewrite send_flight_eq by done
    | rewrite send_flight_ne by done
    | rewrite get_flight by done
    | match goal with
      | H : ((tx_send _ _ _ _ _).1 =? MTLK_ERR_OK) = _ |- _ => rewrite H
      end ].

Ltac sinv_facts w tid Ht Hs :=
  pose proof (sa_wf _ _ _ Hs) as Hwf;
  pose proof (sa_ok _ _ _ Hs) as Htok;
  pose proof (sa_dlg _ _ _ Hs) as Hdlg;
  pose proof (sa_tx _ _ _ Hs tid Ht) as Htx;
  pose proof (sa_rxf _ _ _ Hs tid Ht) as Hrxf;
  pose proof (sa_at _ _ _ Hs) as Hat;
  repeat match goal with
  | H : (tx_get_empty_data ?m _).1 = true |- _ =>
      lazymatch goal with
      | _ : tx_in_flight _ m = None |- _ => fail
      | _ => pose proof (get_true_none m _ Htok H)
      end
  | H : negb (tx_get_empty_data _ _).1 = false |- _ => apply negb_false_iff in H
  | H : negb (tx_get_empty_data _ _).1 = true |- _ => apply negb_true_iff in H
  | H : negb (_ =? _) = false |- _ => apply negb_false_iff in H
  | H : negb (_ =? _) = true |- _ => apply negb_true_iff in H
  end.

Ltac tid_split w tid :=
  unfold tx_of, rx_of, tid_of in *;
  destruct (w_tid w !!! Z.to_nat tid) as [[tx_st ? ? ? ? ? ? ? ? ?] [rx_st ? ? ? ? ? ? ?]];
  unfold tx_inv, rx_inv, rx_idle, rx_deciding, tx_bounds, rx_attempts, MTLK_ADDBA_MAX_REJECTS,
    MTLK_DELBA_REQ_MAX_RETRANSMISSIONS, MTLK_ADDBA_RSP_MAX_RETRANSMISSIONS,
    ADDBA_REJECT_INTERVAL_MAX in *;
  cbn in *; subst;
  try match goal with
  | H : ~ (?st <> _ /\ _) |- _ => is_var st; destruct st; try (exfalso; clear - H; intuition congruence)
  end; cbn in *; subst;
  repeat match goal with
  | |- context [u8 ?x] =>
      lazymatch goal with _ : 0 <= u8 x < 256 |- _ => fail | _ => pose proof (u8_range x); pose proof (u8_le x) end
  | |- context [u32 ?x] =>
      lazymatch goal with _ : 0 <= u32 x < 4294967296 |- _ => fail | _ => pose proof (u32_range x) end
  end; zbool.

Ltac sinv_done :=
  repeat match goal with
  | H : context [tx_in_flight ?t ?m] |- _ => progress (rewrite ?H in * )
  end;
  try done; split_and?; try lia; try done; try tauto; try congruence;
  try solve [match goal with
    | Htx : flight_ok _ ?st (tx_in_flight ?t ?m) /\ _ |- _ =>
        try (is_var st; destruct st; try (exfalso; intuition congruence));
        destruct (tx_in_flight t m) as [[[] []]|]; cbn in *; destruct_and?; simplify_eq/=; split_and?;
        first [done | tauto | lia | congruence]
    end].

Ltac sinv_solve w tid Ht Hs :=
  sinv_start w tid Ht Hs;
  try done; try sinv_txs;
  match goal with Htok : _ (w_txmm w) |- _ => sinv_flights Htok end;
  match goal with Hwf : wf w |- _ => tid_simpl w tid Hwf Ht end; tid_split w tid;
  sinv_done.

Section AddbaOps.
Context {T : Type} {ops : TxmmOps T addba_msg addba_clb addba_payload} {tx_ok : T -> Prop}.
Context {laws : TxmmLaws T addba_msg addba_clb addba_payload tx_ok}.
Context (clock : nat -> Z) (get_last_rx_timestamp : nat -> Z -> Z).
Implicit Types w : world T.
Abbreviation sinv_at := (sinv_at (tx_ok := tx_ok)).

(** The invariant kept by a program that works on [tid]. *)
Definition sinv_rel (tid : Z) w w' : Prop := sinv_at tid (rx_inv tid) w -> sinv_at tid (rx_inv tid) w'.

#[export] Instance sinv_rel_preorder tid : PreOrder (sinv_rel tid).
Proof. split; unfold sinv_rel; [by intros ?|]. intros ???. auto. Qed.

Lemma reordering_stop_any tid Q w : valid_tid tid -> sinv_at tid Q w ->
  sinv_at tid rx_idle (exec (_mtlk_addba_peer_reordering_stop tid) w).
Proof.
  intros Ht Hs. unfold _mtlk_addba_peer_reordering_stop, _mtlk_addba_peer_reset_rx_state.
  sinv_facts w tid Ht Hs. run.
  all: sinv_solve w tid Ht Hs.
Qed.

Lemma close_aggr_sinv tid : valid_tid tid -> within (sinv_rel tid) (_mtlk_addba_peer_close_aggr_req tid).
Proof.
  intros Ht w Hs. unfold _mtlk_addba_peer_close_aggr_req. run.
  all: sinv_facts w tid Ht Hs.
  all: sinv_solve w tid Ht Hs.
Qed.

Lemma send_delba_sinv tid dir : valid_tid tid -> within (sinv_rel tid) (_mtlk_addba_peer_send_delba_req tid dir).
Proof.
  intros Ht w Hs. unfold _mtlk_addba_peer_send_delba_req, _mtlk_addba_is_reord_on. run.
  all: sinv_facts w tid Ht Hs.
  all: sinv_solve w tid Ht Hs.
Qed.

Lemma win_req_range c : 0 <= addba_req_win_size c <= 64.
Proof.
  unfold addba_req_win_size, MTLK_ADDBA_MAX_REORD_WIN_SIZE, MTLK_ADDBA_MIN_REORD_WIN_SIZE.
  repeat case_match; zbool; lia.
Qed.

Lemma next_token_range d :
  0 <= (if u8 (d + 1) =? INVALID_TAG_ID then u8 (u8 (d + 1) + 1) else u8 (d + 1)) < 255.
Proof.
  pose proof (u8_range (d + 1)). unfold INVALID_TAG_ID. case_match; zbool; [|lia].
  rewrite H0. vm_compute. done.
Qed.

Lemma tx_addba_req_sinv tid ps : valid_tid tid -> within (sinv_rel tid) (_mtlk_addba_peer_tx_addba_req tid ps).
Proof.
  intros Ht w Hs. unfold _mtlk_addba_peer_tx_addba_req, _mtlk_addba_peer_fill_addba_req,
    _mtlk_addba_peer_on_addba_req_sent. pose proof (win_req_range (cfg_of w tid)) as Hwin.
  pose proof (next_token_range (w_next_dlg_token w)) as Hnext. cbv zeta. run.
  all: sinv_facts w tid Ht Hs.
  all: sinv_solve w tid Ht Hs.
Qed.

(** What follows the decision on a request. *)
Lemma send_res_or_stop_sinv tid tmout w : valid_tid tid -> sinv_at tid (rx_deciding tid) w ->
  sinv_at tid (rx_inv tid) (exec (err ← _mtlk_addba_peer_send_rx_addba_res clock tid;
    if negb (err =? MTLK_ERR_OK) then _mtlk_addba_peer_reordering_stop tid
    else on ← _mtlk_addba_is_reord_on tid;
         when on (upd_rx tid (rx_set_delba_timeout (ADDBA_TU_TO_MS tmout)))) w).
Proof.
  intros Ht Hs. unfold _mtlk_addba_peer_send_rx_addba_res, _mtlk_addba_is_reord_on,
    _mtlk_addba_peer_reordering_stop, _mtlk_addba_peer_reset_rx_state. run.
  all: sinv_facts w tid Ht Hs.
  all: sinv_solve w tid Ht Hs.
Qed.

(** ** Statements that keep the invariant wherever they stand *)

Lemma quiet_sinv {A} tid (m : ST (world T) A) : valid_tid tid ->
  (forall w, w_tid (exec m w) = w_tid w /\ w_txmm (exec m w) = w_txmm w /\
             w_next_dlg_token (exec m w) = w_next_dlg_token w) ->
  within (sinv_rel tid) m.
Proof.
  intros Ht Hm w Hs. destruct (Hm w) as (E1 & E2 & E3). sinv_facts w tid Ht Hs.
  eapply (sinv_step (fun t => t) w _ tid _ _ Ht Hs); unfold flight in *; rewrite ?E1, ?E2, ?E3;
    [apply alter_id_tid|done|by apply txs_refl|done..].
Qed.

Lemma ev_sinv tid e : valid_tid tid -> within (sinv_rel tid) (ev e).
Proof. intros Ht. by apply quiet_sinv. Qed.

Lemma assert_sinv tid b : valid_tid tid -> within (sinv_rel tid) (mtlk_assert b).
Proof. intros Ht. apply within_when; [apply _|by apply ev_sinv]. Qed.

Lemma now_sinv tid : valid_tid tid -> within (sinv_rel tid) (now_ms clock).
Proof. intros Ht. by apply quiet_sinv. Qed.

Lemma upd_tx_sinv tid f : valid_tid tid ->
  (forall x, tx_state (f x) = tx_state x) -> (forall x, tx_bounds x -> tx_bounds (f x)) ->
  within (sinv_rel tid) (upd_tx tid f).
Proof.
  intros Ht Hf Hb w Hs. sinv_facts w tid Ht Hs. unfold upd_tx. rewrite run_end_modify.
  eapply (sinv_step _ w _ tid _ _ Ht Hs); unfold flight in *; cbn; [done|done|by apply txs_refl| |done..].
  destruct Htx as [H1 H2]. split; [cbn; rewrite Hf; done|by apply Hb].
Qed.

Lemma upd_rx_sinv tid f : valid_tid tid -> (forall x, rx_inv tid x -> rx_inv tid (f x)) ->
  within (sinv_rel tid) (upd_rx tid f).
Proof.
  intros Ht Hf w Hs. sinv_facts w tid Ht Hs. unfold upd_rx. rewrite run_end_modify.
  eapply (sinv_step _ w _ tid _ _ Ht Hs); unfold flight in *; cbn; [done|done|by apply txs_refl|done..|].
  by apply Hf.
Qed.

Lemma reordering_stop_sinv tid : valid_tid tid -> within (sinv_rel tid) (_mtlk_addba_peer_reordering_stop tid).
Proof.
  intros Ht w Hs. eapply sinv_at_mono; [|by eapply reordering_stop_any]. intros x. apply rx_idle_inv.
Qed.

(** ** The operations *)

Lemma select_win_size_range r s n : select_win_size r s = Some n -> 1 <= n <= 64.
Proof.
  unfold select_win_size, MTLK_ADDBA_MAX_REORD_WIN_SIZE, MTLK_ADDBA_MIN_REORD_WIN_SIZE. intros H.
  repeat case_match; simplify_eq; zbool; lia.
Qed.

Lemma addba_res_rx_sinv r tid win d : valid_tid tid ->
  within (sinv_rel tid) (mtlk_addba_peer_on_addba_res_rx clock r tid win d).
Proof.
  intros Ht w Hs. unfold mtlk_addba_peer_on_addba_res_rx, on_addba_accepted, on_addba_refused,
    _mtlk_addba_peer_reset_tx_state. run.
  all: sinv_facts w tid Ht Hs.
  all: repeat match goal with H : select_win_size _ _ = Some _ |- _ => apply select_win_size_range in H end.
  all: sinv_solve w tid Ht Hs.
Qed.

Lemma res_status_sinv tid st : valid_tid tid ->
  within (sinv_rel tid) (_mtlk_addba_peer_on_addba_res_tx_req_tx_status clock tid st).
Proof.
  intros Ht w Hs. unfold _mtlk_addba_peer_on_addba_res_tx_req_tx_status, _mtlk_addba_peer_send_rx_addba_res,
    _mtlk_addba_peer_reordering_stop, _mtlk_addba_peer_reset_rx_state. run.
  all: sinv_facts w tid Ht Hs.
  all: sinv_solve w tid Ht Hs.
Qed.

Lemma rx_delba_status_sinv tid st : valid_tid tid ->
  within (sinv_rel tid) (_mtlk_addba_peer_on_rx_delba_req_tx_status tid st).
Proof.
  intros Ht w Hs. unfold _mtlk_addba_peer_on_rx_delba_req_tx_status, _mtlk_addba_peer_send_delba_req,
    _mtlk_addba_is_reord_on, _mtlk_addba_peer_reordering_stop, _mtlk_addba_peer_reset_rx_state. run.
  all: sinv_facts w tid Ht Hs.
  all: sinv_solve w tid Ht Hs.
Qed.

Lemma tx_delba_status_sinv tid st : valid_tid tid ->
  within (sinv_rel tid) (_mtlk_addba_peer_on_tx_delba_req_tx_status tid st).
Proof.
  intros Ht w Hs. unfold _mtlk_addba_peer_on_tx_delba_req_tx_status, _mtlk_addba_peer_send_delba_req,
    _mtlk_addba_is_reord_on. run.
  all: sinv_facts w tid Ht Hs.
  all: sinv_solve w tid Ht Hs.
Qed.

Lemma addba_timeout_sinv tid : valid_tid tid ->
  within (sinv_rel tid) (check_addba_res_rx_timeout clock tid).
Proof.
  intros Ht w Hs. unfold check_addba_res_rx_timeout, _mtlk_addba_peer_reset_tx_state. run.
  all: sinv_facts w tid Ht Hs.
  all: sinv_solve w tid Ht Hs.
Qed.

Lemma reset_ps_sinv tid : valid_tid tid -> within (sinv_rel tid) (mtlk_addba_peer_reset_power_save tid).
Proof.
  intros Ht w Hs. unfold mtlk_addba_peer_reset_power_save. run.
  all: sinv_facts w tid Ht Hs.
  all: sinv_solve w tid Ht Hs.
Qed.

(** What stopping leaves of a TID. *)
Definition stopped_tid (now : Z) (t : mtlk_addba_peer_tid_t) : mtlk_addba_peer_tid_t :=
  let x := t_tx t in
  let x := if decide (tx_state x = MTLK_ADDBA_TX_NONE) then x else tx_set_ts_id MTLK_TS_ID_INVALID x in
  Tid (clear_tx_head x)
      (rx_set_on_rx_time now (clear_rx_head (rx_set_reorder false
         (rx_set_res_attempt 0 (rx_set_delba_attempt 0 (t_rx t)))))).

Lemma alter_ext_at {A} `{!Inhabited A} (f g : A -> A) (l : list A) i :
  f (l !!! i) = g (l !!! i) -> alter f i l = alter g i l.
Proof.
  intros Hfg. apply list_alter_ext; [|done]. intros x Hx. by apply list_lookup_total_correct in Hx as <-.
Qed.

Lemma peer_stop_tid_exec tid w : valid_tid tid -> wf w ->
  let w' := exec (peer_stop_tid clock tid) w in
  w_tid w' = alter (stopped_tid (u32 (clock (w_tick w)))) (Z.to_nat tid) (w_tid w) /\
  w_txmm w' = (tx_cancel (RxMsg tid) (tx_cancel (TxMsg tid) (w_txmm w)).2).2 /\
  w_next_dlg_token w' = w_next_dlg_token w.
Proof.
  intros Ht Hw. unfold peer_stop_tid, _mtlk_addba_peer_reset_tx_state, _mtlk_addba_peer_reordering_stop,
    _mtlk_addba_peer_reset_rx_state. cbv zeta. run.
  all: alter_merge; split_and!; world_simpl; try done.
  all: apply alter_ext_at; tid_simpl w tid Hw Ht; destruct (w_tid w !!! Z.to_nat tid) as [[] []]; cbn in *; subst.
  all: unfold stopped_tid; cbn; rewrite ?decide_True by done; rewrite ?decide_False by done; try done.
Qed.

Lemma peer_stop_tid_sinv tid : valid_tid tid -> within (sinv_rel tid) (peer_stop_tid clock tid).
Proof.
  intros Ht w Hs. sinv_facts w tid Ht Hs. destruct (peer_stop_tid_exec tid w Ht Hwf) as (E1 & E2 & E3).
  destruct (cancel_both tid (w_txmm w) Htok) as (C1 & C2 & C3).
  eapply (sinv_step _ w _ tid _ _ Ht Hs); [exact E1|by rewrite E3|by rewrite E2|..];
    unfold flight; rewrite ?E2, ?C2, ?C3; try done; unfold stopped_tid; tid_split w tid.
  case_decide; cbn; destruct_and?; split_and?; lia.
Qed.

Lemma addba_req_rx_sinv ssn tid win d tmout ack rate : valid_tid tid ->
  within (sinv_rel tid) (mtlk_addba_peer_on_addba_req_rx clock ssn tid win d tmout ack rate).
Proof.
  intros Ht. unfold mtlk_addba_peer_on_addba_req_rx, cntr_inc, get_rx, get_cfg.
  destruct (negb (tid_ok tid)); [apply within_ret, _|].
  apply within_bind; [apply _|apply within_gets, _|intros []; [|apply within_ret, _]]. simpl.
  apply within_bind; [apply _|by apply ev_sinv|intros _].
  apply within_bind; [apply _|apply within_gets, _|intros rx].
  destruct (addba_req_dropped rx d); [apply within_ret, _|].
  intros w0 Hs0. rewrite exec_bind.
  pose proof (reordering_stop_any tid _ w0 Ht Hs0) as Hs. clear Hs0.
  generalize dependent (exec (_mtlk_addba_peer_reordering_stop (T := T) tid) w0). clear w0.
  intros w Hs. rewrite run_gets, run_upd_rx, run_gets, exec_bind.
  apply send_res_or_stop_sinv; [done|]. unfold set_res_code, _mtlk_addba_peer_reordering_start.
  run.
  all: sinv_facts w tid Ht Hs.
  all: sinv_solve w tid Ht Hs.
Qed.

(** ** Answers: the callback runs, then the message is free again *)

Ltac cfm_start tid Hrel m :=
  let Hr := fresh "Hr" in
  pose proof (released_txs _ _ _ Hrel) as Hr;
  let Hok' := fresh "Hok'" in let Hn := fresh "Hn" in let Hne := fresh "Hne" in
  destruct Hrel as (Hok' & Hn & Hne);
  pose proof (Hne m ltac:(done)).

Lemma open_aggr_cfm_sinv p0 p b w t' : let tid := oa_u16AccessProtocol p in
  valid_tid tid -> sinv_at tid (rx_inv tid) w -> released (tx_ok := tx_ok) (TxMsg tid) (w_txmm w) t' ->
  flight w (TxMsg tid) = Some (ClbOpenAggr, POpenAggr p0) ->
  sinv_at tid (rx_inv tid) (set_txmm t' (exec (_mtlk_addba_peer_on_open_aggr_cfm_clb p b) w)).
Proof.
  intros tid Ht Hs Hrel Hfl. cfm_start tid Hrel (RxMsg tid).
  unfold _mtlk_addba_peer_on_open_aggr_cfm_clb. fold tid. run.
  all: sinv_facts w tid Ht Hs; rewrite Hfl in Htx; destruct Htx as [[_ [Hst _]] Hb].
  all: sinv_solve w tid Ht Hs.
Qed.

Lemma close_aggr_cfm_sinv p0 p b w t' : let tid := ca_u16AccessProtocol p in
  valid_tid tid -> sinv_at tid (rx_inv tid) w -> released (tx_ok := tx_ok) (TxMsg tid) (w_txmm w) t' ->
  flight w (TxMsg tid) = Some (ClbCloseAggr, PCloseAggr p0) ->
  sinv_at tid (rx_inv tid) (set_txmm t' (exec (_mtlk_addba_peer_on_close_aggr_cfm_clb p b) w)).
Proof.
  intros tid Ht Hs Hrel Hfl. cfm_start tid Hrel (RxMsg tid).
  unfold _mtlk_addba_peer_on_close_aggr_cfm_clb, _mtlk_addba_peer_reset_tx_state. fold tid. run.
  all: sinv_facts w tid Ht Hs; rewrite Hfl in Htx; destruct Htx as [[_ Hst] Hb].
  all: sinv_solve w tid Ht Hs.
Qed.

Lemma addba_req_cfm_sinv p0 p b w t' : let tid := aq_u16AccessProtocol p in
  valid_tid tid -> sinv_at tid (rx_inv tid) w -> released (tx_ok := tx_ok) (TxMsg tid) (w_txmm w) t' ->
  flight w (TxMsg tid) = Some (ClbAddbaReq, PAddbaReq p0) ->
  sinv_at tid (rx_inv tid) (set_txmm t' (exec (_mtlk_addba_peer_on_addba_req_tx_cfm_clb clock p b) w)).
Proof.
  intros tid Ht Hs Hrel Hfl. cfm_start tid Hrel (RxMsg tid).
  unfold _mtlk_addba_peer_on_addba_req_tx_cfm_clb. fold tid. run.
  all: sinv_facts w tid Ht Hs; rewrite Hfl in Htx; destruct Htx as [[_ [Hst _]] Hb].
  all: sinv_solve w tid Ht Hs.
Qed.

Lemma addba_res_cfm_sinv p b w t' : let tid := ar_u16AccessProtocol p in
  valid_tid tid -> sinv_at tid (rx_inv tid) w -> released (tx_ok := tx_ok) (RxMsg tid) (w_txmm w) t' ->
  sinv_at tid (rx_inv tid) (set_txmm t' (exec (_mtlk_addba_peer_on_addba_res_tx_cfm_clb p b) w)).
Proof.
  intros tid Ht Hs Hrel. cfm_start tid Hrel (TxMsg tid).
  unfold _mtlk_addba_peer_on_addba_res_tx_cfm_clb. fold tid. run.
  all: sinv_facts w tid Ht Hs.
  all: sinv_solve w tid Ht Hs.
Qed.

Lemma delba_cfm_sinv p b w t' : let tid := dr_u16AccessProtocol p in
  valid_tid tid -> sinv_at tid (rx_inv tid) w -> released (tx_ok := tx_ok) (RxMsg tid) (w_txmm w) t' ->
  sinv_at tid (rx_inv tid) (set_txmm t' (exec (_mtlk_addba_peer_on_delba_req_tx_cfm_clb p b) w)).
Proof.
  intros tid Ht Hs Hrel. cfm_start tid Hrel (TxMsg tid).
  unfold _mtlk_addba_peer_on_delba_req_tx_cfm_clb. fold tid. cbv zeta.
  destruct (dr_u16Intiator p =? 0); cbn [Z.eqb BA_DIR_RECIPIENT BA_DIR_ORIGINATOR]; run.
  all: sinv_facts w tid Ht Hs.
  all: sinv_solve w tid Ht Hs.
Qed.
End AddbaOps.

Create HintDb sinv.
#[export] Hint Resolve ev_sinv assert_sinv now_sinv close_aggr_sinv send_delba_sinv tx_addba_req_sinv
  reordering_stop_sinv addba_res_rx_sinv res_status_sinv rx_delba_status_sinv tx_delba_status_sinv
  addba_timeout_sinv reset_ps_sinv peer_stop_tid_sinv addba_req_rx_sinv : sinv.

(** Walk down a program whose statements all keep the invariant. *)
Ltac sinv_walk :=
  repeat first
    [ solve [auto with sinv wave]
    | apply within_bind; [typeclasses eauto| |intros ?]
    | apply within_when; [typeclasses eauto|]
    | match goal with
      | |- within _ (if ?b then _ else _) => destruct b
      | |- within _ (match ?x with _ => _ end) => destruct x
      end
    | apply within_ret; typeclasses eauto
    | apply within_gets; typeclasses eauto ].
