(* ===== verification/AddbaSys.v ===== *)
(** * AddbaSys: the negotiation module as a transition system

    A step is one call of the module's API, one answer of the transport to a
    message in flight, or the transport working on its own. *)
From S2P Require Import Prelude Reflim TxmmIface Addba AddbaAcct AddbaInv AddbaOps.

Inductive addba_call :=
| CReconfigure (cfg : list mtlk_addba_tid_cfg_t)
| CPeerStart (addr : Z) (dot11n_mode : bool)
| CPeerStop (dot11n_mode : bool)
| CDelbaRx (tid res_code initiator : Z)
| CAddbaResRx (res_code tid win_size_rsp dlgt : Z)
| CAddbaReqRx (ssn tid win_size dlgt tmout ack_policy rate : Z)
| CBaTxStatus (um_id tid initiator status : Z)
| CAckOnBar (tid : Z)
| CBar (tid : Z)
| CIterate
| CQosWithoutReord (tid : Z)
| CDelbaReq (tid : Z)
| CDelbaReqAll
| CStartNegotiation (tid : Z) (ps_mode : bool)
| CResetPowerSave (tid : Z).

(** The TID an answered message belongs to. *)
Definition payload_tid (p : addba_payload) : Z :=
  match p with
  | POpenAggr p => oa_u16AccessProtocol p | PCloseAggr p => ca_u16AccessProtocol p
  | PAddbaReq p => aq_u16AccessProtocol p | PAddbaRes p => ar_u16AccessProtocol p
  | PDelbaReq p => dr_u16AccessProtocol p
  end.

(** The confirmation carries the payload back with the firmware's status (and
    the traffic stream it opened) filled in. *)
Definition answered (p p' : addba_payload) : Prop :=
  match p, p' with
  | POpenAggr p, POpenAggr p' => oa_u16AccessProtocol p' = oa_u16AccessProtocol p
  | PCloseAggr p, PCloseAggr p' => ca_u16AccessProtocol p' = ca_u16AccessProtocol p
  | PAddbaReq p, PAddbaReq p' => aq_u16AccessProtocol p' = aq_u16AccessProtocol p
  | PAddbaRes p, PAddbaRes p' => ar_u16AccessProtocol p' = ar_u16AccessProtocol p
  | PDelbaReq p, PDelbaReq p' =>
      dr_u16AccessProtocol p' = dr_u16AccessProtocol p /\ dr_u16Intiator p' = dr_u16Intiator p
  | _, _ => False
  end.

Section AddbaSys.
Context {T : Type} {ops : TxmmOps T addba_msg addba_clb addba_payload}.
Context (clock : nat -> Z) (get_last_rx_timestamp : nat -> Z -> Z).
Implicit Types w : world T.

Definition ignore {A} (m : ST (world T) A) : ST (world T) unit := m ;; mret tt.

Definition run_call (c : addba_call) : ST (world T) unit :=
  match c with
  | CReconfigure cfg => ignore (mtlk_addba_reconfigure cfg)
  | CPeerStart addr n => ignore (mtlk_addba_peer_start clock addr n)
  | CPeerStop n => mtlk_addba_peer_stop clock n
  | CDelbaRx tid r i => mtlk_addba_peer_on_delba_req_rx tid r i
  | CAddbaResRx r tid win d => mtlk_addba_peer_on_addba_res_rx clock r tid win d
  | CAddbaReqRx ssn tid win d tmout ack rate => mtlk_addba_peer_on_addba_req_rx clock ssn tid win d tmout ack rate
  | CBaTxStatus id tid i st => mtlk_addba_peer_on_ba_tx_status clock id tid i st
  | CAckOnBar tid => mtlk_addba_peer_on_ack_on_bar tid
  | CBar tid => mtlk_addba_peer_on_bar tid
  | CIterate => mtlk_addba_peer_iterate clock get_last_rx_timestamp
  | CQosWithoutReord tid => mtlk_addba_on_qos_without_reord clock tid
  | CDelbaReq tid => mtlk_addba_delba_req tid
  | CDelbaReqAll => mtlk_addba_delba_req_all
  | CStartNegotiation tid ps => mtlk_addba_peer_start_aggr_negotiation tid ps
  | CResetPowerSave tid => ignore (mtlk_addba_peer_reset_power_save tid)
  end.

(** TIDs are unsigned; three calls only assert that theirs is in range. *)
Definition call_ok (c : addba_call) : Prop :=
  match c with
  | CDelbaRx tid _ _ | CAddbaResRx _ tid _ _ | CAddbaReqRx _ tid _ _ _ _ _ | CBaTxStatus _ tid _ _
  | CAckOnBar tid | CBar tid | CQosWithoutReord tid => 0 <= tid
  | CDelbaReq tid | CStartNegotiation tid _ | CResetPowerSave tid => valid_tid tid
  | _ => True
  end.

(** The callback registered with a message, run on its answer. *)
Definition run_clb (c : addba_clb) (p : addba_payload) (confirmed : bool) : ST (world T) unit :=
  match c, p with
  | ClbDelbaReq, PDelbaReq p => _mtlk_addba_peer_on_delba_req_tx_cfm_clb p confirmed
  | ClbCloseAggr, PCloseAggr p => _mtlk_addba_peer_on_close_aggr_cfm_clb p confirmed
  | ClbOpenAggr, POpenAggr p => _mtlk_addba_peer_on_open_aggr_cfm_clb p confirmed
  | ClbAddbaReq, PAddbaReq p => _mtlk_addba_peer_on_addba_req_tx_cfm_clb clock p confirmed
  | ClbAddbaRes, PAddbaRes p => _mtlk_addba_peer_on_addba_res_tx_cfm_clb p confirmed
  | _, _ => mret tt
  end.

(** The answer to an ADDBA request is late when the exchange it started is
    over: the peer has already refused it. *)
Definition late_answer w (c : addba_clb) (p : addba_payload) : Prop :=
  c = ClbAddbaReq /\ aggr_held (tx_state (tx_of w (payload_tid p))) = false.

Lemma tid_ok_valid tid : 0 <= tid -> tid_ok tid = true -> valid_tid tid.
Proof. unfold tid_ok, valid_tid, MTLK_ADDBA_NOF_TIDs. intros ? H. zbool. lia. Qed.

(** ** Accounting, call by call *)

Lemma within_ignore {A} (m : ST (world T) A) : within acct_rel m -> within acct_rel (ignore m).
Proof. intros Hm. apply within_bind; [apply _|done|]. intros a. apply within_ret, _. Qed.

Lemma close_and_delba_acct tid : valid_tid tid -> within acct_rel (mtlk_addba_delba_req (ops := ops) tid).
Proof.
  intros Ht. unfold mtlk_addba_delba_req. pose proof (terminate_acct (T := T) tid Ht). acct_walk.
Qed.

Ltac tid_checked tid :=
  destruct (tid_ok tid) eqn:Hok; [apply tid_ok_valid in Hok; [|done]|]; simpl.

Lemma run_call_acct c : call_ok c -> within acct_rel (run_call c).
Proof.
  destruct c; simpl; intros Hok0; unfold mtlk_addba_reconfigure, mtlk_addba_peer_start, mtlk_addba_peer_stop,
    mtlk_addba_peer_on_ba_tx_status, mtlk_addba_peer_on_ack_on_bar, mtlk_addba_peer_on_bar, mtlk_addba_peer_iterate,
    mtlk_addba_on_qos_without_reord, mtlk_addba_delba_req_all, mtlk_addba_peer_start_aggr_negotiation,
    _mtlk_addba_peer_check_addba_res_rx_timeouts, _mtlk_addba_peer_check_delba_timeouts, cntr_inc, get_rx, get_cfg.
  all: try apply within_ignore.
  - acct_walk.
  - pose proof (peer_stop_acct (T := T) clock). acct_walk.
  - pose proof (peer_stop_acct (T := T) clock). acct_walk.
  - destruct (tid_ok tid) eqn:E; [by apply delba_rx_acct, tid_ok_valid|].
    unfold mtlk_addba_peer_on_delba_req_rx. rewrite E. apply within_ret, _.
  - destruct (tid_ok tid) eqn:E; [by apply addba_res_rx_acct, tid_ok_valid|].
    unfold mtlk_addba_peer_on_addba_res_rx. rewrite E. apply within_ret, _.
  - destruct (tid_ok tid) eqn:E; [by apply addba_req_rx_acct, tid_ok_valid|].
    unfold mtlk_addba_peer_on_addba_req_rx. rewrite E. apply within_ret, _.
  - destruct (tid_ok tid) eqn:E; simpl; [|acct_walk]. apply tid_ok_valid in E; [|done].
    pose proof (tx_delba_status_acct (T := T) tid status E). pose proof (rx_delba_status_acct (T := T) tid status E).
    pose proof (addba_res_status_acct (T := T) clock tid status E). acct_walk.
  - destruct (tid_ok tid) eqn:E; simpl; [|acct_walk]. apply tid_ok_valid in E; [|done].
    pose proof (close_and_delba_acct tid E). acct_walk.
  - destruct (tid_ok tid) eqn:E; simpl; [|acct_walk]. apply tid_ok_valid in E; [|done]. acct_walk.
  - pose proof (for_all_tids_acct (T := T) _ (delba_timeout_acct clock get_last_rx_timestamp)).
    pose proof (for_all_tids_acct (T := T) _ (addba_timeout_acct clock)). acct_walk.
  - destruct (tid_ok tid) eqn:E; simpl; [|acct_walk]. apply tid_ok_valid in E; [|done]. acct_walk.
  - by apply close_and_delba_acct.
  - pose proof (for_all_tids_acct (T := T) _ terminate_acct). acct_walk.
  - acct_walk.
  - by apply reset_ps_acct.
Qed.

Lemma run_clb_acct c p b w : wf w -> valid_tid (payload_tid p) ->
  (c = ClbOpenAggr \/ c = ClbAddbaReq -> aggr_held (tx_state (tx_of w (payload_tid p))) = true) ->
  acct w (exec (run_clb c p b) w).
Proof.
  intros Hw Ht Hh. destruct c, p; simpl in *; try (by apply (within_ret acct_rel)).
  - by apply delba_cfm_acct.
  - by apply close_aggr_cfm_acct.
  - apply open_aggr_cfm_acct; auto.
  - apply addba_req_cfm_acct; auto.
  - by apply addba_res_cfm_acct.
Qed.

(** ** The invariant, call by call *)

Context {tx_ok : T -> Prop} {laws : TxmmLaws T addba_msg addba_clb addba_payload tx_ok}.
Abbreviation sinv := (sinv (tx_ok := tx_ok)).

Definition keeps w w' : Prop := sinv w -> sinv w'.

#[export] Instance keeps_preorder : PreOrder keeps.
Proof. split; unfold keeps; [by intros ?|]. intros ???. auto. Qed.

Lemma within_keeps {A} tid (m : ST (world T) A) :
  valid_tid tid -> within (sinv_rel tid (tx_ok := tx_ok)) m -> within keeps m.
Proof. intros Ht Hm w Hs. eapply sinv_of_at; [done|]. by apply Hm, Hs. Qed.

Lemma within_keeps_quiet {A} (m : ST (world T) A) :
  (forall w, w_tid (exec m w) = w_tid w /\ w_txmm (exec m w) = w_txmm w /\
             w_next_dlg_token (exec m w) = w_next_dlg_token w) ->
  within keeps m.
Proof. intros Hm. eapply (within_keeps 0); [done|]. by apply quiet_sinv. Qed.

Lemma for_all_tids_keeps (body : Z -> ST (world T) unit) :
  (forall tid, valid_tid tid -> within (sinv_rel tid (tx_ok := tx_ok)) (body tid)) ->
  within keeps (for_each all_tids body).
Proof.
  intros Hb. apply within_for_each; [apply _|]. intros tid Ht. apply all_tids_valid in Ht.
  by apply (within_keeps tid), Hb.
Qed.

Lemma terminate_sinv tid : valid_tid tid -> within (sinv_rel tid (tx_ok := tx_ok)) (terminate_aggr tid).
Proof. intros Ht. unfold terminate_aggr, get_tx. sinv_walk. Qed.

Lemma delba_timeout_sinv tid : valid_tid tid ->
  within (sinv_rel tid (tx_ok := tx_ok)) (check_delba_timeout clock get_last_rx_timestamp tid).
Proof. intros Ht. unfold check_delba_timeout, cntr_inc, get_rx. sinv_walk. Qed.

Lemma delba_req_sinv tid : valid_tid tid ->
  within (sinv_rel tid (tx_ok := tx_ok)) (mtlk_addba_delba_req tid).
Proof.
  intros Ht. unfold mtlk_addba_delba_req. pose proof (terminate_sinv tid Ht). sinv_walk.
Qed.

Lemma run_call_sinv c : call_ok c -> within keeps (run_call c).
Proof.
  destruct c; simpl; intros Hok0; unfold mtlk_addba_reconfigure, mtlk_addba_peer_start, mtlk_addba_peer_stop,
    mtlk_addba_peer_on_ba_tx_status, mtlk_addba_peer_on_ack_on_bar, mtlk_addba_peer_on_bar, mtlk_addba_peer_iterate,
    mtlk_addba_on_qos_without_reord, mtlk_addba_delba_req_all, mtlk_addba_peer_start_aggr_negotiation,
    _mtlk_addba_peer_check_addba_res_rx_timeouts, _mtlk_addba_peer_check_delba_timeouts, cntr_inc, get_rx, get_cfg.
  all: try (apply within_bind; [apply _| |intros ?; apply within_ret, _]).
  all: pose proof (for_all_tids_keeps _ (peer_stop_tid_sinv clock (tx_ok := tx_ok))) as Hstop.
  - by apply within_keeps_quiet.
  - apply within_bind; [apply _|apply within_gets, _|intros a].
    apply within_bind; [apply _|apply within_when; [apply _|by apply within_keeps_quiet]|intros _].
    apply within_bind; [apply _|by apply within_keeps_quiet|intros _].
    apply within_bind; [apply _| |intros _; apply within_ret, _].
    apply within_when; [apply _|]. apply within_bind; [apply _|done|intros _; by apply within_keeps_quiet].
  - apply within_bind; [apply _| |intros _; by apply within_keeps_quiet].
    apply within_when; [apply _|]. apply within_bind; [apply _|apply within_gets, _|intros a].
    apply within_bind; [apply _|apply within_when; [apply _|by apply within_keeps_quiet]|intros _].
    apply within_bind; [apply _|by apply within_keeps_quiet|done].
  - unfold mtlk_addba_peer_on_delba_req_rx, cntr_inc. destruct (tid_ok tid) eqn:E; simpl; [|apply within_ret, _].
    apply tid_ok_valid in E; [|done]. apply (within_keeps tid _ E). sinv_walk.
  - destruct (tid_ok tid) eqn:E; [apply tid_ok_valid in E; [|done]; apply (within_keeps tid _ E); auto with sinv|].
    unfold mtlk_addba_peer_on_addba_res_rx. rewrite E. apply within_ret, _.
  - destruct (tid_ok tid) eqn:E; [apply tid_ok_valid in E; [|done]; apply (within_keeps tid _ E); auto with sinv|].
    unfold mtlk_addba_peer_on_addba_req_rx. rewrite E. apply within_ret, _.
  - destruct (tid_ok tid) eqn:E; simpl; [apply tid_ok_valid in E; [|done]; apply (within_keeps tid _ E)|
      apply (within_keeps 0); [done|]]; sinv_walk.
  - destruct (tid_ok tid) eqn:E; simpl; [apply tid_ok_valid in E; [|done]; apply (within_keeps tid _ E)|
      apply (within_keeps 0); [done|]]; [pose proof (delba_req_sinv tid E)|]; sinv_walk.
  - destruct (tid_ok tid) eqn:E; simpl; [apply tid_ok_valid in E; [|done]; apply (within_keeps tid _ E)|
      apply (within_keeps 0); [done|]]; sinv_walk.
  - apply within_bind; [apply _|apply within_gets, _|intros a]. apply within_when; [apply _|].
    apply within_bind; [apply _|apply for_all_tids_keeps, delba_timeout_sinv|intros _].
    apply for_all_tids_keeps. auto with sinv.
  - destruct (tid_ok tid) eqn:E; simpl; [apply tid_ok_valid in E; [|done]; apply (within_keeps tid _ E)|
      apply (within_keeps 0); [done|]]; [|sinv_walk].
    apply within_bind; [apply _|apply within_gets, _|intros []; [|apply within_ret, _]].
    apply within_bind; [apply _|by apply now_sinv|intros now].
    apply within_bind; [apply _|apply within_gets, _|intros x]. apply within_when; [apply _|].
    apply within_bind; [apply _|by apply upd_rx_sinv|intros _]. sinv_walk.
  - by apply (within_keeps tid), delba_req_sinv.
  - apply within_bind; [apply _|apply within_gets, _|intros []]; [|apply within_ret, _].
    apply for_all_tids_keeps, terminate_sinv.
  - apply (within_keeps tid); [done|]. sinv_walk.
  - by apply (within_keeps tid), reset_ps_sinv.
Qed.
End AddbaSys.

(** * What holds in every reachable state of the negotiation

    Steps of one peer among others: its API calls, answers of the transport,
    the transport's own work, and other peers taking and releasing references
    of the two shared limiters. *)

Section AddbaProps.
Context {T : Type} {ops : TxmmOps T addba_msg addba_clb addba_payload} {tx_ok : T -> Prop}.
Context {laws : TxmmLaws T addba_msg addba_clb addba_payload tx_ok}.
Context (clock : nat -> Z) (get_last_rx_timestamp : nat -> Z -> Z).
Implicit Types w : world T.
Abbreviation sinv := (sinv (tx_ok := tx_ok)).

(** The module and one peer as [mtlk_addba_init] and [mtlk_addba_peer_init]
    leave them, on zeroed memory. *)
Definition addba_boot (aggr reord : mtlk_reflim_t) (cfg : list mtlk_addba_tid_cfg_t) (t : T) : world T :=
  exec (mtlk_addba_init aggr reord cfg ;; mtlk_addba_peer_init)
    (World T [] 0 (mtlk_reflim_init 0) (mtlk_reflim_init 0) 0
       (replicate MTLK_ADDBA_NOF_TIDs (Tid zero_tx zero_rx)) false t 0 []).

(** The peer's own steps. [timely]: no answer to an ADDBA request comes after
    its refusal. *)
Inductive own_step (timely : bool) : world T -> world T -> Prop :=
| step_call c w : call_ok c ->
    own_step timely w (exec (run_call clock get_last_rx_timestamp c) w)
| step_answer m c p0 p b w t' :
    valid_tid (msg_tid m) -> flight w m = Some (c, p0) -> answered p0 p ->
    released (tx_ok := tx_ok) m (w_txmm w) t' ->
    (timely = true -> ~ late_answer w c p) ->
    own_step timely w (set_txmm t' (exec (run_clb clock c p b) w))
| step_transport w t' :
    tx_ok t' -> (forall m, tx_in_flight t' m = flight w m) -> own_step timely w (set_txmm t' w).

(** With other peers, which give back only references they have taken. *)
Inductive addba_step (timely : bool) : world T -> world T -> Prop :=
| step_own w w' : own_step timely w w' -> addba_step timely w w'
| step_others_take w :
    addba_step timely w (set_aggr_reflim (mtlk_reflim_try_ref (w_aggr_reflim w)).2 w)
| step_others_take_reord w :
    addba_step timely w (set_reord_reflim (mtlk_reflim_try_ref (w_reord_reflim w)).2 w)
| step_others_release w : aggr_count w < rl_cur (w_aggr_reflim w) ->
    addba_step timely w (set_aggr_reflim (mtlk_reflim_unref (w_aggr_reflim w)).2 w)
| step_others_release_reord w : reord_count w < rl_cur (w_reord_reflim w) ->
    addba_step timely w (set_reord_reflim (mtlk_reflim_unref (w_reord_reflim w)).2 w).

(** The limiters start empty; the transport starts with nothing in flight. *)
Definition addba_reachable (timely : bool) (max_aggr max_reord : Z) w : Prop :=
  exists cfg t, tx_ok t /\ (forall m, tx_in_flight t m = None) /\
    rtc (addba_step timely)
      (addba_boot (mtlk_reflim_init max_aggr) (mtlk_reflim_init max_reord) cfg t) w.

(** States reached from [w0] by steps [own] of the peer, with the numbers of
    references the other peers hold of the two limiters. *)
Inductive counted (own : world T -> world T -> Prop) (w0 : world T) : Z -> Z -> world T -> Prop :=
| ct_start : counted own w0 0 0 w0
| ct_own oa or w w' : counted own w0 oa or w -> own w w' -> counted own w0 oa or w'
| ct_take oa or w : counted own w0 oa or w ->
    counted own w0 (oa + Z.b2z (mtlk_reflim_try_ref (w_aggr_reflim w)).1) or (set_aggr_reflim (mtlk_reflim_try_ref (w_aggr_reflim w)).2 w)
| ct_take_reord oa or w : counted own w0 oa or w ->
    counted own w0 oa (or + Z.b2z (mtlk_reflim_try_ref (w_reord_reflim w)).1) (set_reord_reflim (mtlk_reflim_try_ref (w_reord_reflim w)).2 w)
| ct_release oa or w : counted own w0 oa or w -> 0 < oa ->
    counted own w0 (oa - 1) or (set_aggr_reflim (mtlk_reflim_unref (w_aggr_reflim w)).2 w)
| ct_release_reord oa or w : counted own w0 oa or w -> 0 < or ->
    counted own w0 oa (or - 1) (set_reord_reflim (mtlk_reflim_unref (w_reord_reflim w)).2 w).

(** The same from the start of the module, no answer being late. *)
Definition addba_counted (max_aggr max_reord oa or : Z) w : Prop :=
  exists cfg t, tx_ok t /\ (forall m, tx_in_flight t m = None) /\
    counted (own_step true) (addba_boot (mtlk_reflim_init max_aggr) (mtlk_reflim_init max_reord) cfg t) oa or w.

(** ** The invariant *)

Lemma answered_tid p p' : answered p p' -> payload_tid p' = payload_tid p.
Proof. destruct p, p'; simpl; try done. tauto. Qed.

Lemma answer_sinv m c p0 p b w t' :
  sinv w -> valid_tid (msg_tid m) -> flight w m = Some (c, p0) -> answered p0 p ->
  released (tx_ok := tx_ok) m (w_txmm w) t' ->
  sinv (set_txmm t' (exec (run_clb clock c p b) w)).
Proof.
  intros Hs Hm Hfl Ha Hrel. pose proof (answered_tid _ _ Ha) as Htid.
  destruct m as [tid|tid]; simpl in Hm; specialize (Hs tid Hm) as Hst.
  - pose proof (sa_tx _ _ _ Hst tid Hm) as [Hf _]. rewrite Hfl in Hf.
    destruct c, p0; try done; destruct p; try done; simpl in *; destruct Hf as [Hf _]; rewrite Hf in Htid.
    + apply (sinv_of_at tid); [done|]. subst tid. by apply (close_aggr_cfm_sinv p0).
    + apply (sinv_of_at tid); [done|]. subst tid. by apply (open_aggr_cfm_sinv p0).
    + apply (sinv_of_at tid); [done|]. subst tid. by apply (addba_req_cfm_sinv clock p0).
  - pose proof (sa_rxf _ _ _ Hst tid Hm) as Hf. rewrite Hfl in Hf.
    destruct c, p0; try done; destruct p; try done; simpl in *; rewrite Hf in Htid;
      apply (sinv_of_at tid); try done; subst tid.
    + by apply delba_cfm_sinv.
    + by apply addba_res_cfm_sinv.
Qed.

Lemma sinv_ext w w' : sinv w -> w_tid w' = w_tid w -> tx_ok (w_txmm w') ->
  (forall m, flight w' m = flight w m) -> w_next_dlg_token w' = w_next_dlg_token w -> sinv w'.
Proof.
  intros Hs E1 E2 E3 E4 tid Ht. pose proof (Hs tid Ht) as Hst. sinv_facts w tid Ht Hst.
  apply (sinv_step (fun t => t) w w' tid _ _ Ht Hst); rewrite ?E3, ?E4; try done.
  - rewrite E1. apply alter_id_tid.
  - split; [done|]. intros m _. apply E3.
Qed.

Lemma own_sinv timely w w' : sinv w -> own_step timely w w' -> sinv w'.
Proof.
  intros Hs Hstep. destruct Hstep.
  - by apply run_call_sinv.
  - by eapply answer_sinv.
  - by eapply sinv_ext.
Qed.

Lemma step_sinv timely w w' : sinv w -> addba_step timely w w' -> sinv w'.
Proof.
  intros Hs Hstep. assert (tx_ok (w_txmm w)) as Hok by (by eapply sa_ok, (Hs 0)).
  destruct Hstep.
  - by eapply own_sinv.
  - by eapply sinv_ext.
  - by eapply sinv_ext.
  - by eapply sinv_ext.
  - by eapply sinv_ext.
Qed.

Lemma valid_tid_cases tid : valid_tid tid ->
  tid = 0 \/ tid = 1 \/ tid = 2 \/ tid = 3 \/ tid = 4 \/ tid = 5 \/ tid = 6 \/ tid = 7.
Proof. unfold valid_tid. lia. Qed.

Lemma boot_tid aggr reord cfg t tid : valid_tid tid ->
  tid_of (addba_boot aggr reord cfg t) tid = Tid (tx_set_ts_id MTLK_TS_ID_INVALID zero_tx) zero_rx.
Proof. intros Ht. by destruct (valid_tid_cases tid Ht) as [->|[->|[->|[->|[->|[->|[->| ->]]]]]]]. Qed.

Lemma boot_sinv aggr reord cfg t : tx_ok t -> (forall m, tx_in_flight t m = None) ->
  sinv (addba_boot aggr reord cfg t).
Proof.
  intros Hok Hn tid Ht.
  split; try done; try (intros t' Ht'; unfold tx_of, rx_of; rewrite ?boot_tid by done).
  - change (flight _ _) with (tx_in_flight t (TxMsg t')). by rewrite Hn.
  - change (flight _ _) with (tx_in_flight t (RxMsg t')). by rewrite Hn.
  - done.
  - unfold rx_of. by rewrite boot_tid.
Qed.

Lemma reachable_sinv timely ma mr w : addba_reachable timely ma mr w -> sinv w.
Proof.
  intros (cfg & t & Hok & Hn & Hsteps). pose proof (boot_sinv (mtlk_reflim_init ma) (mtlk_reflim_init mr) cfg t Hok Hn) as Hs.
  revert Hs. generalize dependent (addba_boot (mtlk_reflim_init ma) (mtlk_reflim_init mr) cfg t).
  intros w0 Hsteps. induction Hsteps; [done|]. intros Hs. eauto using step_sinv.
Qed.

(** ** The limiters *)

(** The limiters count the peer's references and those of the others, within
    their maxima. *)
Record linv (ma mr oa or : Z) w : Prop := {
  li_aggr : rl_cur (w_aggr_reflim w) = aggr_count w + oa;
  li_aggr_max : rl_max (w_aggr_reflim w) = ma;
  li_aggr_limit : 0 <= oa /\ aggr_count w + oa <= ma;
  li_reord : rl_cur (w_reord_reflim w) = reord_count w + or;
  li_reord_max : rl_max (w_reord_reflim w) = mr;
  li_reord_limit : 0 <= or /\ reord_count w + or <= mr;
}.

Lemma limit_kept (cur' count count' o max : Z) :
  0 <= count <= 8 -> 0 <= count' <= 8 -> max + 8 < 2 ^ 32 -> 0 <= o /\ count + o <= max ->
  u32 (cur' - count') = u32 (count + o - count) -> (u32 (count + o) = count + o -> u32 cur' = cur') ->
  (u32 (count + o - count) + 8 < 2 ^ 32 -> count' <= count \/ u32 (count + o - count) + count' <= max) ->
  cur' = count' + o /\ count' + o <= max.
Proof.
  intros Hc Hc' Hm Hcur E Hu Hcap. replace (count + o - count) with o in E, Hcap by lia. rewrite (u32_small o) in E, Hcap by lia.
  specialize (Hu (u32_small (count + o) ltac:(lia))). specialize (Hcap ltac:(lia)).
  assert (cur' = count' + o) as ->; [|lia].
  rewrite <-Hu. replace cur' with (cur' - count' + count') by lia. rewrite <-u32_add_l, E, (Z.add_comm o).
  apply u32_small. lia.
Qed.

Lemma acct_linv ma mr oa or w w' : ma + 8 < 2 ^ 32 -> mr + 8 < 2 ^ 32 -> wf w ->
  acct w w' -> linv ma mr oa or w -> linv ma mr oa or w'.
Proof.
  intros Ha Hr Hw [A1 A2 A3 A4 A5 A6 A7 A8 A9] [L1 L2 L3 L4 L5 L6].
  destruct (counts_range w Hw) as [C1 C2]. destruct (counts_range w' A1) as [C3 C4].
  rewrite L1, ?L2 in *. rewrite L4, ?L5 in *.
  destruct (limit_kept (rl_cur (w_aggr_reflim w')) (aggr_count w) (aggr_count w') oa ma) as [E1 E2]; try done.
  destruct (limit_kept (rl_cur (w_reord_reflim w')) (reord_count w) (reord_count w') or mr) as [E3 E4]; try done.
  split; try done; lia.
Qed.

Lemma try_ref_linv r max : rl_max r = max -> max + 8 < 2 ^ 32 -> 0 <= rl_cur r <= max ->
  let g := mtlk_reflim_try_ref r in
  rl_cur g.2 = rl_cur r + Z.b2z g.1 /\ rl_cur r <= rl_cur r + Z.b2z g.1 <= max.
Proof.
  intros <- Hm Hr. unfold mtlk_reflim_try_ref. case_match; zbool; simpl.
  - rewrite u32_small in * by lia. lia.
  - rewrite u32_sub_l. rewrite u32_small by lia. lia.
Qed.

Lemma late_held w c p0 p m : valid_tid (msg_tid m) -> sinv w -> flight w m = Some (c, p0) -> answered p0 p ->
  ~ late_answer w c p ->
  valid_tid (payload_tid p) /\
  (c = ClbOpenAggr \/ c = ClbAddbaReq -> aggr_held (tx_state (tx_of w (payload_tid p))) = true).
Proof.
  intros Hm Hs Hfl Ha Hl. pose proof (answered_tid _ _ Ha) as Htid.
  assert (payload_tid p = msg_tid m) as E.
  { rewrite Htid. destruct m as [tid|tid]; simpl in *.
    - pose proof (sa_tx _ _ _ (Hs tid Hm) tid Hm) as [Hf _]. rewrite Hfl in Hf. destruct c, p0; try done; apply Hf.
    - pose proof (sa_rxf _ _ _ (Hs tid Hm) tid Hm) as Hf. rewrite Hfl in Hf. destruct c, p0; try done; apply Hf. }
  split; [by rewrite E|]. intros [->| ->].
  - rewrite E. destruct m as [tid|tid]; simpl in *.
    + pose proof (sa_tx _ _ _ (Hs tid Hm) tid Hm) as [Hf _]. rewrite Hfl in Hf. destruct p0; try done.
      by destruct Hf as (_ & -> & _).
    + pose proof (sa_rxf _ _ _ (Hs tid Hm) tid Hm) as Hf. rewrite Hfl in Hf. by destruct p0.
  - destruct (aggr_held _) eqn:Eh; [done|]. exfalso. apply Hl. by split.
Qed.

Lemma acct_set_txmm w w' t : acct w w' -> acct w (set_txmm t w').
Proof. intros [A1 A2 A3 A4 A5 A6 A7 A8 A9]. by split. Qed.

Lemma own_linv ma mr oa or w w' : ma + 8 < 2 ^ 32 -> mr + 8 < 2 ^ 32 -> sinv w -> linv ma mr oa or w ->
  own_step true w w' -> linv ma mr oa or w'.
Proof.
  intros H3 H4 Hs Hl Hstep. assert (wf w) as Hw by (by eapply sa_wf, (Hs 0)).
  destruct Hstep as [c w Hc|m c p0 p b w t' Hm Hfl Ha Hrel Htime|w t' Hok Hf].
  - eapply acct_linv; [..|done]; try done. by apply run_call_acct.
  - destruct (late_held w c p0 p m Hm Hs Hfl Ha (Htime eq_refl)) as [Hv Hh].
    eapply acct_linv; [..|done]; try done. apply acct_set_txmm. by apply run_clb_acct.
  - destruct Hl. by split.
Qed.

Lemma linv_aggr ma mr oa oa' or w r : linv ma mr oa or w -> rl_cur r = aggr_count w + oa' -> rl_max r = ma ->
  0 <= oa' /\ aggr_count w + oa' <= ma -> linv ma mr oa' or (set_aggr_reflim r w).
Proof. intros [] ???. by split. Qed.

Lemma linv_reord ma mr oa or or' w r : linv ma mr oa or w -> rl_cur r = reord_count w + or' -> rl_max r = mr ->
  0 <= or' /\ reord_count w + or' <= mr -> linv ma mr oa or' (set_reord_reflim r w).
Proof. intros [] ???. by split. Qed.

(** Whatever the peer's own steps are, when they are steps of this module. *)
Lemma counted_linv own ma mr w0 oa or w : ma + 8 < 2 ^ 32 -> mr + 8 < 2 ^ 32 ->
  (forall w w', sinv w -> own w w' -> own_step true w w') -> sinv w0 -> linv ma mr 0 0 w0 ->
  counted own w0 oa or w -> sinv w /\ linv ma mr oa or w.
Proof.
  intros Ha Hr Hown Hs0 Hl0. induction 1 as [|oa or w w' _ [Hs Hl] Hst|oa or w _ [Hs Hl]|oa or w _ [Hs Hl]|oa or w _ [Hs Hl] Ho|oa or w _ [Hs Hl] Ho].
  1: done.
  1: { apply Hown in Hst; [|done]. split; [by eapply own_sinv|by eapply own_linv]. }
  all: assert (tx_ok (w_txmm w)) as Hok by (by eapply sa_ok, (Hs 0)); assert (wf w) as Hw by (by eapply sa_wf, (Hs 0)).
  all: destruct (counts_range w Hw) as [C1 C2]; destruct Hl as [L1 L2 L3 L4 L5 L6]; (split; [by eapply sinv_ext|]).
  - destruct (try_ref_linv (w_aggr_reflim w) ma L2 Ha) as (E1 & E2); [lia|]. apply (linv_aggr _ _ oa); [by split|..]; rewrite ?try_ref_max; lia.
  - destruct (try_ref_linv (w_reord_reflim w) mr L5 Hr) as (E1 & E2); [lia|]. apply (linv_reord _ _ _ or); [by split|..]; rewrite ?try_ref_max; lia.
  - apply (linv_aggr _ _ oa); [by split|cbn; rewrite u32_small by lia; lia|done|lia].
  - apply (linv_reord _ _ _ or); [by split|cbn; rewrite u32_small by lia; lia|done|lia].
Qed.

Lemma boot_linv ma mr cfg t : 0 <= ma -> 0 <= mr -> linv ma mr 0 0 (addba_boot (mtlk_reflim_init ma) (mtlk_reflim_init mr) cfg t).
Proof. by split. Qed.

(** Every reachable state without late answers is reached with some numbers. *)
Lemma reachable_counted ma mr w : 0 <= ma -> 0 <= mr -> ma + 8 < 2 ^ 32 -> mr + 8 < 2 ^ 32 ->
  addba_reachable true ma mr w -> exists oa or, addba_counted ma mr oa or w.
Proof.
  intros H1 H2 H3 H4 (cfg & t & Hok & Hn & Hsteps). set (w0 := addba_boot _ _ _ _) in Hsteps.
  assert (sinv w0) as Hs0 by (by apply boot_sinv). pose proof (boot_linv ma mr cfg t H1 H2) as Hl0. fold w0 in Hl0.
  enough (exists oa or, counted (own_step true) w0 oa or w) as (oa & or & Hc) by (exists oa, or, cfg, t; by split_and!).
  clearbody w0. revert w Hsteps. apply rtc_ind_r; [exists 0, 0; constructor|]. intros w1 w2 _ Hst (oa & or & Hc).
  destruct (counted_linv _ ma mr w0 oa or w1 H3 H4 (fun _ _ _ H => H) Hs0 Hl0 Hc) as [_ [L1 L2 L3 L4 L5 L6]].
  destruct Hst as [w w' Hst|w|w|w Hlt|w Hlt]; eexists _, _.
  - by eapply ct_own.
  - by apply ct_take.
  - by apply ct_take_reord.
  - apply ct_release; [exact Hc|lia].
  - apply ct_release_reord; [exact Hc|lia].
Qed.
End AddbaProps.
