(* ===== verification/AddbaThms.v ===== *)
(** * AddbaThms: the properties of the negotiation module *)
From S2P Require Import Prelude Reflim TxmmIface Addba AddbaAcct AddbaInv AddbaOps AddbaSys.

Section AddbaThms.
Context {T : Type} {ops : TxmmOps T addba_msg addba_clb addba_payload} {tx_ok : T -> Prop}.
Context {laws : TxmmLaws T addba_msg addba_clb addba_payload tx_ok}.
Context (clock : nat -> Z) (get_last_rx_timestamp : nat -> Z -> Z).
Implicit Types w : world T.
Abbreviation addba_reachable := (addba_reachable (tx_ok := tx_ok) clock get_last_rx_timestamp).
Abbreviation addba_counted := (addba_counted (tx_ok := tx_ok) clock get_last_rx_timestamp).
Abbreviation sinv := (sinv (tx_ok := tx_ok)).

(** C3. Reference accounting: as long as no answer to an ADDBA request comes
    after that request was refused, in every state reachable by API calls,
    received frames, answers of the transport and other peers' traffic the
    aggregation limiter is exactly the number of this peer's TIDs between an
    ADDBA request and the end of their aggregation plus the references [oa] the
    other peers have taken and not given back, the reordering limiter that of
    its TIDs that reorder plus [or], and neither exceeds its maximum.  So the
    peer leaks no reference, and no release wraps a counter below zero. *)
Theorem addba_references_bounded ma mr oa or w :
  0 <= ma < 2 ^ 32 - 8 -> 0 <= mr < 2 ^ 32 - 8 -> addba_counted ma mr oa or w ->
  rl_cur (w_aggr_reflim w) = aggr_count w + oa /\ rl_cur (w_aggr_reflim w) <= ma /\
  rl_cur (w_reord_reflim w) = reord_count w + or /\ rl_cur (w_reord_reflim w) <= mr /\
  0 <= aggr_count w /\ 0 <= oa /\ 0 <= reord_count w /\ 0 <= or.
Proof.
  intros Ha Hr (cfg & t & Hok & Hn & Hw).
  destruct (counted_linv clock get_last_rx_timestamp _ ma mr _ oa or w ltac:(lia) ltac:(lia) (fun _ _ _ H => H)
    (boot_sinv _ _ cfg t Hok Hn) (boot_linv ma mr cfg t ltac:(lia) ltac:(lia)) Hw) as [Hs [L1 L2 L3 L4 L5 L6]].
  assert (wf w) as Hwf by (by eapply sa_wf, (Hs 0)). destruct (counts_range w Hwf). lia.
Qed.

(** C12. Protocol of a TID: its aggregation state says which answer it waits
    for (an OPEN or CLOSE request is in flight exactly in the state named after
    it, a sent ADDBA request has its confirmation outstanding, and nothing is
    in flight once it is confirmed or the aggregation is open), and reordering
    runs exactly in the three receiving states that mean an accepted
    agreement. *)
Theorem addba_tid_protocol timely ma mr w tid :
  addba_reachable timely ma mr w -> valid_tid tid ->
  let st := tx_state (tx_of w tid) in
  let fl := flight w (TxMsg tid) in
  (st = MTLK_ADDBA_TX_ADD_AGGR_REQ_SENT <-> exists p, fl = Some (ClbOpenAggr, POpenAggr p)) /\
  (st = MTLK_ADDBA_TX_DEL_AGGR_REQ_SENT <-> exists p, fl = Some (ClbCloseAggr, PCloseAggr p)) /\
  (st = MTLK_ADDBA_TX_ADDBA_REQ_SENT -> exists p, fl = Some (ClbAddbaReq, PAddbaReq p)) /\
  (st = MTLK_ADDBA_TX_ADDBA_REQ_CFMD \/ st = MTLK_ADDBA_TX_AGGR_OPENED -> fl = None) /\
  rx_reorder_is_active (rx_of w tid) = rx_reordering (rx_state (rx_of w tid)).
Proof.
  intros Hw Ht st fl. pose proof (reachable_sinv _ _ _ _ _ _ Hw tid Ht) as Hs.
  destruct (sa_tx _ _ _ Hs tid Ht) as [Hf _]. fold st fl in Hf. destruct (sa_at _ _ _ Hs) as [Hrx _].
  split_and!; [..|done]; destruct st, fl as [[[] []]|]; simpl in Hf;
    repeat match goal with
    | |- _ <-> _ => split
    | |- _ -> _ => intros ?
    | H : exists _, _ |- _ => destruct H
    end; try done; try (by eexists); try (exfalso; intuition congruence).
Qed.

(** What goes on the air: an aggregation is opened with a window of 1 to
    64 frames, an ADDBA request asks for at most 64 and never carries the
    reserved token 255, and no frame is retransmitted more than four times. *)
Theorem addba_bounds timely ma mr w tid :
  addba_reachable timely ma mr w -> valid_tid tid ->
  (forall p, flight w (TxMsg tid) = Some (ClbOpenAggr, POpenAggr p) -> 1 <= oa_windowSize p <= 64) /\
  (forall p, flight w (TxMsg tid) = Some (ClbAddbaReq, PAddbaReq p) ->
     0 <= aq_u8BA_WinSize_O p <= 64 /\ 0 <= aq_u8DialogToken p < INVALID_TAG_ID) /\
  0 <= rx_addba_res_attempt (rx_of w tid) <= MTLK_ADDBA_RSP_MAX_RETRANSMISSIONS /\
  0 <= rx_delba_req_attempt (rx_of w tid) <= MTLK_DELBA_REQ_MAX_RETRANSMISSIONS /\
  0 <= tx_delba_req_attempt (tx_of w tid) <= MTLK_DELBA_REQ_MAX_RETRANSMISSIONS /\
  0 <= tx_addba_res_rejects (tx_of w tid) < MTLK_ADDBA_MAX_REJECTS /\
  0 <= tx_reject_interval (tx_of w tid) <= ADDBA_REJECT_INTERVAL_MAX.
Proof.
  intros Hw Ht. pose proof (reachable_sinv _ _ _ _ _ _ Hw tid Ht) as Hs.
  destruct (sa_tx _ _ _ Hs tid Ht) as [Hf Hb]. destruct (sa_at _ _ _ Hs) as (_ & _ & Hat).
  unfold tx_bounds, rx_attempts in *. destruct_and?. split_and!; try done.
  - intros p E. rewrite E in Hf. apply Hf.
  - intros p E. rewrite E in Hf. destruct Hf as (_ & _ & ? & ?). done.
Qed.

(** The confirmation of an OPEN request finds the TID waiting for it: its
    assertion holds, the TID becomes opened and the upper layer is told to
    start aggregating, once. *)
Theorem addba_open_confirmed timely ma mr w tid p0 p :
  addba_reachable timely ma mr w -> valid_tid tid ->
  flight w (TxMsg tid) = Some (ClbOpenAggr, POpenAggr p0) -> answered (POpenAggr p0) (POpenAggr p) ->
  oa_u16Status p = UMI_OK ->
  let w' := exec (_mtlk_addba_peer_on_open_aggr_cfm_clb (T := T) p true) w in
  w_out w' = w_out w ++ [EvCntInc tid CNT_TX_OPEN_AGGR_CFMD_SUCCESS; EvStartAggr tid] /\
  tx_state (tx_of w' tid) = MTLK_ADDBA_TX_AGGR_OPENED /\ tx_ts_id (tx_of w' tid) = oa_u8TsId p.
Proof.
  intros Hw Ht Hfl Ha Hst. pose proof (reachable_sinv _ _ _ _ _ _ Hw tid Ht) as Hs.
  pose proof (sa_wf _ _ _ Hs) as Hwf. destruct (sa_tx _ _ _ Hs tid Ht) as [Hf _]. rewrite Hfl in Hf.
  destruct Hf as (E & Htx & _). simpl in Ha. rewrite E in Ha.
  unfold _mtlk_addba_peer_on_open_aggr_cfm_clb. rewrite Ha, Hst. cbn [negb Z.eqb UMI_OK]. cbv zeta. run.
  all: tid_simpl w tid Hwf Ht; try done; split_and!; try done; try (by rewrite <-app_assoc).
  all: exfalso; clear - Htx H; simpl in *; by rewrite Htx in H.
Qed.

(** ** Stopping a peer *)

Lemma valid_tid_0 : valid_tid 0.
Proof. done. Qed.

(** Nothing of the TID is left: no state, no reordering, no message. *)
Definition tid_stopped w (tid : Z) : Prop :=
  tx_state (tx_of w tid) = MTLK_ADDBA_TX_NONE /\ rx_state (rx_of w tid) = MTLK_ADDBA_RX_NONE /\
  rx_reorder_is_active (rx_of w tid) = false /\
  tx_in_use (w_txmm w) (TxMsg tid) = false /\ tx_in_use (w_txmm w) (RxMsg tid) = false.

Lemma cancel_both_use tid t : tx_ok t ->
  let t' := (tx_cancel (RxMsg tid) (tx_cancel (TxMsg tid) t).2).2 in
  tx_in_use t' (TxMsg tid) = false /\ tx_in_use t' (RxMsg tid) = false /\
  forall m, msg_tid m <> tid -> tx_in_use t' m = tx_in_use t m.
Proof.
  intros Hok t'. assert (tx_ok (tx_cancel (TxMsg tid) t).2) as Hok1 by (by apply (tx_cancel_ok t (TxMsg tid))).
  split_and!.
  - unfold t'. destruct (tx_cancel_others _ (RxMsg tid) Hok1 (TxMsg tid)) as [E _]; [done|].
    etransitivity; [exact E|]. by apply (tx_cancel_done t).
  - by apply (tx_cancel_done _ (RxMsg tid)).
  - intros m Hm. destruct (tx_cancel_others _ (RxMsg tid) Hok1 m) as [E1 _]; [by intros ->|].
    destruct (tx_cancel_others _ (TxMsg tid) Hok m) as [E2 _]; [by intros ->|].
    etransitivity; [exact E1|exact E2].
Qed.

Lemma peer_stop_tid_stopped tid w : valid_tid tid -> sinv w ->
  let w' := exec (peer_stop_tid clock tid) w in
  tid_stopped w' tid /\ forall t, valid_tid t -> t <> tid -> tid_stopped w t -> tid_stopped w' t.
Proof.
  intros Ht Hs w'. pose proof (sa_wf _ _ _ (Hs tid Ht)) as Hwf. pose proof (sa_ok _ _ _ (Hs tid Ht)) as Hok.
  destruct (peer_stop_tid_exec clock tid w Ht Hwf) as (E1 & E2 & _).
  destruct (cancel_both_use tid (w_txmm w) Hok) as (U1 & U2 & U3).
  assert (Z.to_nat tid < length (w_tid w))%nat as Hlen
    by (rewrite Hwf; unfold MTLK_ADDBA_NOF_TIDs, valid_tid in *; lia).
  unfold tid_stopped, tx_of, rx_of, tid_of, w'. rewrite E1, E2. split.
  - rewrite alter_total by done. by rewrite U1, U2.
  - intros t Hv Hne (H1 & H2 & H3 & H4 & H5).
    rewrite alter_total_ne by (unfold valid_tid in *; lia). rewrite !U3 by done. done.
Qed.

Lemma stop_all_stopped l w : sinv w -> (forall t, t ∈ l -> valid_tid t) ->
  let w' := exec (for_each l (peer_stop_tid clock)) w in
  sinv w' /\ forall t, valid_tid t -> t ∈ l \/ tid_stopped w t -> tid_stopped w' t.
Proof.
  revert w. induction l as [|x l IH]; intros w Hs Hl; simpl.
  - split; [done|]. intros t _ [Ht|Ht]; [by apply not_elem_of_nil in Ht|done].
  - rewrite exec_bind. assert (valid_tid x) as Hx by (apply Hl; left).
    destruct (peer_stop_tid_stopped x w Hx Hs) as [H1 H2].
    assert (sinv (exec (peer_stop_tid clock x) w)) as Hs1.
    { apply (sinv_of_at x _ Hx). by apply peer_stop_tid_sinv, Hs. }
    destruct (IH _ Hs1) as [H3 H4]; [intros t Ht; apply Hl; by right|]. split; [done|].
    intros t Hv Ht. apply H4; [done|]. destruct (decide (t = x)) as [->|Hne]; [by right|].
    destruct Ht as [Ht|Ht]; [|right; by apply H2]. apply elem_of_cons in Ht as [->|Ht]; [done|by left].
Qed.

Lemma elem_of_all_tids t : valid_tid t -> t ∈ all_tids.
Proof.
  intros Ht. unfold all_tids. rewrite !elem_of_cons. destruct (valid_tid_cases t Ht); tauto.
Qed.

Lemma countb_none w (f : mtlk_addba_peer_tid_t -> bool) : wf w ->
  (forall t, valid_tid t -> f (tid_of w t) = false) -> countb f (w_tid w) = 0.
Proof.
  intros Hw Hf. apply countb_zero. intros x Hx. apply list_elem_of_lookup in Hx as [i Hi].
  pose proof (lookup_lt_Some _ _ _ Hi) as Hlt. rewrite Hw in Hlt. unfold MTLK_ADDBA_NOF_TIDs in Hlt.
  specialize (Hf (Z.of_nat i)). unfold valid_tid, tid_of in Hf. rewrite Nat2Z.id in Hf.
  rewrite (list_lookup_total_correct _ _ _ Hi) in Hf. apply Hf. lia.
Qed.

Lemma stop_keeps_active : within (fun a b => w_is_active b = w_is_active a) (_mtlk_addba_peer_stop (T := T) clock).
Proof.
  apply within_for_each; [split; [by intros ?|intros ???; congruence]|].
  intros t _ a. unfold peer_stop_tid, _mtlk_addba_peer_reset_tx_state, _mtlk_addba_peer_reordering_stop,
    _mtlk_addba_peer_reset_rx_state. run; done.
Qed.

(** Stopping a peer releases everything it holds: every TID is idle, none
    reorders, none of its sixteen messages is attached any more, and exactly
    the references the peer held are given back to the two limiters. *)
Theorem addba_peer_stop_releases timely ma mr w :
  addba_reachable timely ma mr w -> w_is_active w = true ->
  let w' := exec (mtlk_addba_peer_stop clock true) w in
  (forall tid, valid_tid tid -> tid_stopped w' tid) /\
  w_is_active w' = false /\ w_addr w' = 0 /\
  u32 (rl_cur (w_aggr_reflim w')) = u32 (rl_cur (w_aggr_reflim w) - aggr_count w) /\
  u32 (rl_cur (w_reord_reflim w')) = u32 (rl_cur (w_reord_reflim w) - reord_count w).
Proof.
  intros Hw Hact w'. pose proof (reachable_sinv _ _ _ _ _ _ Hw) as Hs.
  set (w1 := set_active false w).
  set (w2 := exec (_mtlk_addba_peer_stop clock) w1).
  assert (w' = set_addr 0 w2) as ->.
  { unfold w', mtlk_addba_peer_stop, when. rewrite exec_bind. unfold mtlk_assert, when.
    rewrite exec_bind, exec_bind. unfold eval, exec, gets. cbn. rewrite Hact. cbn. unfold w2, w1.
    unfold exec, mbind, st_bind. cbn. destruct (_mtlk_addba_peer_stop clock (set_active false w)). done. }
  assert (sinv w1) as Hs1 by (eapply sinv_ext; [exact Hs|reflexivity|exact (sa_ok _ _ _ (Hs 0 valid_tid_0))|reflexivity|reflexivity]).
  destruct (stop_all_stopped all_tids w1 Hs1) as [Hs2 Hst]; [intros t; apply all_tids_valid|].
  change (exec (for_each all_tids (peer_stop_tid clock)) w1) with w2 in Hs2, Hst.
  assert (forall tid, valid_tid tid -> tid_stopped w2 tid) as Hall.
  { intros tid Ht. apply Hst; [done|]. left. by apply elem_of_all_tids. }
  assert (wf w1) as Hw1 by exact (sa_wf _ _ _ (Hs1 0 valid_tid_0)).
  assert (wf w2) as Hw2 by exact (sa_wf _ _ _ (Hs2 0 valid_tid_0)).
  destruct (peer_stop_acct (T := T) clock w1 Hw1) as [_ A1 _ A2 _ _ _ _ _].
  fold w2 in A1, A2.
  assert (aggr_count w2 = 0) as C1.
  { apply countb_none; [done|]. intros t Ht. destruct (Hall t Ht) as (E & _). unfold tx_of in E. by rewrite E. }
  assert (reord_count w2 = 0) as C2.
  { apply countb_none; [done|]. intros t Ht. destruct (Hall t Ht) as (_ & _ & E & _). done. }
  rewrite C1, Z.sub_0_r in A1. rewrite C2, Z.sub_0_r in A2.
  assert (w_is_active w2 = false) as Hact2 by apply stop_keeps_active.
  by split_and!.
Qed.

(** ** Answers to received requests *)

(** When a request is accepted: [mtlk_addba_peer_on_addba_req_rx]'s decision. *)
Definition req_accepted w (tid ack_policy rate : Z) : bool :=
  _mtlk_addba_is_allowed_rate rate && accept_aggr (cfg_of w tid) && negb (ack_policy =? 0) &&
  (mtlk_reflim_try_ref (w_reord_reflim w)).1.

(** The answer to a request, in the state [w'] it leaves. *)
Definition req_answer (acc : bool) (tid ssn win dlgt tmout : Z) w w' : Prop :=
  rx_state (rx_of w' tid) = (if acc then MTLK_ADDBA_RX_ADDBA_POSITIVE_RES_SENT
                             else MTLK_ADDBA_RX_ADDBA_NEGATIVE_RES_SENT) /\
  rx_reorder_is_active (rx_of w' tid) = acc /\
  (exists r, flight w' (RxMsg tid) = Some (ClbAddbaRes, PAddbaRes r) /\
     ar_u8DialogToken r = dlgt /\ ar_u16AccessProtocol r = tid /\
     ar_u16ResultCode r = (if acc then MTLK_ADDBA_RES_CODE_SUCCESS else MTLK_ADDBA_RES_CODE_FAILURE) /\
     (acc = true -> ar_u8WinSize r = win /\ ar_u16BATimeout r = tmout)) /\
  (EvStartReord tid ssn win ∈ w_out w' <-> acc = true \/ EvStartReord tid ssn win ∈ w_out w).

(** The point of decision: reordering runs exactly for an accepted request,
    the response is filled in and not yet sent. *)
Record req_decided (acc : bool) (tid ssn win dlgt tmout : Z) w w' : Prop := {
  rd_wf : wf w';
  rd_txmm : w_txmm w' = w_txmm w;
  rd_state : rx_state (rx_of w' tid) = MTLK_ADDBA_RX_NONE;
  rd_active : rx_reorder_is_active (rx_of w' tid) = acc;
  rd_token : ar_u8DialogToken (rx_addba_res (rx_of w' tid)) = dlgt;
  rd_tid : ar_u16AccessProtocol (rx_addba_res (rx_of w' tid)) = tid;
  rd_code : ar_u16ResultCode (rx_addba_res (rx_of w' tid)) =
    (if acc then MTLK_ADDBA_RES_CODE_SUCCESS else MTLK_ADDBA_RES_CODE_FAILURE);
  rd_win : acc = true -> ar_u8WinSize (rx_addba_res (rx_of w' tid)) = win /\
    ar_u16BATimeout (rx_addba_res (rx_of w' tid)) = tmout;
  rd_out : EvStartReord tid ssn win ∈ w_out w' <-> acc = true \/ EvStartReord tid ssn win ∈ w_out w;
}.

Lemma send_decided acc tid ssn win dlgt tmout w w1 :
  req_decided acc tid ssn win dlgt tmout w w1 -> valid_tid tid -> tx_ok (w_txmm w) ->
  eval (tx_get_empty_data (RxMsg tid)) (w_txmm w) = true ->
  (forall c p (t : T), eval (tx_send (RxMsg tid) c p 0) t = MTLK_ERR_OK) ->
  req_answer acc tid ssn win dlgt tmout w
    (exec (err ← _mtlk_addba_peer_send_rx_addba_res clock tid;
       if negb (err =? MTLK_ERR_OK) then _mtlk_addba_peer_reordering_stop tid
       else on ← _mtlk_addba_is_reord_on tid;
            when on (upd_rx tid (rx_set_delba_timeout (ADDBA_TU_TO_MS tmout)))) w1).
Proof.
  intros [Hwf Htx Hst Hact Htok Htid Hcode Hwin Hout] Ht Hok Hget Hsend. rewrite <-Htx in *. clear Htx.
  unfold _mtlk_addba_peer_send_rx_addba_res, _mtlk_addba_is_reord_on.
  rewrite run_assoc, run_txmm_get. change (tx_get_empty_data (RxMsg tid) (w_txmm w1)).1 with
    (eval (tx_get_empty_data (RxMsg tid)) (w_txmm w1)). rewrite Hget. cbn [negb].
  unfold get_rx. rewrite run_assoc, run_gets, run_assoc, run_txmm_send.
  change (tx_send (RxMsg tid) ?c ?p 0 ?t).1 with (eval (tx_send (RxMsg tid) c p 0) t).
  rewrite Hsend. cbn [negb Z.eqb MTLK_ERR_OK].
  change (rx_of (set_txmm _ w1) tid) with (rx_of w1 tid). rewrite Hcode. world_simpl.
  destruct acc; cbn [Z.eqb MTLK_ADDBA_RES_CODE_SUCCESS MTLK_ADDBA_RES_CODE_FAILURE]; run.
  all: try discriminate; alter_merge; unfold req_answer, flight; world_simpl; rewrite send_flight_eq by done.
  all: change (tx_send (RxMsg tid) ?c ?p 0 ?t).1 with (eval (tx_send (RxMsg tid) c p 0) t); rewrite Hsend.
  all: tid_simpl w1 tid Hwf Ht; simpl; rewrite ?Hact.
  all: try (exfalso; simpl in *; congruence).
  all: split_and!; try done; [by eexists|].
  all: rewrite elem_of_app, list_elem_of_singleton; naive_solver.
Qed.
(** Stopping the reordering of a TID that does not reorder. *)
Lemma stop_inactive tid w : wf w -> valid_tid tid -> rx_reorder_is_active (rx_of w tid) = false ->
  exec (_mtlk_addba_peer_reordering_stop tid) w =
  set_tid (alter (fun t => Tid (t_tx t) (rx_set_res_attempt 0 (rx_set_delba_attempt 0
    (rx_set_state MTLK_ADDBA_RX_NONE (t_rx t))))) (Z.to_nat tid) (w_tid w)) w.
Proof.
  intros Hw Ht Hin. unfold _mtlk_addba_peer_reordering_stop, _mtlk_addba_peer_reset_rx_state. run.
  all: alter_merge; try done. exfalso. tid_simpl w tid Hw Ht. simpl in H. congruence.
Qed.

Lemma decide_request tid ssn win dlgt tmout ack rate w : wf w -> valid_tid tid ->
  rx_state (rx_of w tid) = MTLK_ADDBA_RX_NONE -> rx_reorder_is_active (rx_of w tid) = false ->
  ar_u8DialogToken (rx_addba_res (rx_of w tid)) = dlgt -> ar_u16AccessProtocol (rx_addba_res (rx_of w tid)) = tid ->
  req_decided (req_accepted w tid ack rate) tid ssn win dlgt tmout w
    (exec (if negb (_mtlk_addba_is_allowed_rate rate) then set_res_code tid MTLK_ADDBA_RES_CODE_FAILURE
           else if negb (accept_aggr (cfg_of w tid)) then set_res_code tid MTLK_ADDBA_RES_CODE_FAILURE
           else if ack =? 0 then set_res_code tid MTLK_ADDBA_RES_CODE_FAILURE
           else
             r ← _mtlk_addba_peer_reordering_start tid ssn win;
             if negb (r =? MTLK_ERR_OK) then set_res_code tid MTLK_ADDBA_RES_CODE_FAILURE
             else upd_rx tid (fun x => let r := rx_addba_res x in
                    rx_set_addba_res (AddbaResSend (ar_sDA r) (ar_u8DialogToken r) win
                      (ar_u16AccessProtocol r) MTLK_ADDBA_RES_CODE_SUCCESS tmout (ar_u16Status r)) x)) w).
Proof.
  intros Hw Ht H1 H2 H3 H4. unfold req_accepted, set_res_code, _mtlk_addba_peer_reordering_start.
  destruct (_mtlk_addba_is_allowed_rate rate), (accept_aggr (cfg_of w tid)), (ack =? 0),
    (mtlk_reflim_try_ref (w_reord_reflim w)).1 eqn:Htry; cbn [negb andb]; run; try discriminate.
  all: rewrite ?Htry in *; try discriminate; alter_merge; zbool.
  all: tid_simpl w tid Hw Ht; try (exfalso; simpl in *; congruence).
  all: split; unfold wf, tx_of, rx_of, tid_of; world_simpl; rewrite ?length_alter, ?alter_total
    by (rewrite Hw; unfold MTLK_ADDBA_NOF_TIDs, valid_tid in *; lia); try done.
  all: rewrite ?elem_of_app, ?list_elem_of_singleton; try naive_solver.
Qed.

Lemma req_decided_from acc tid ssn win dlgt tmout w w1 w2 :
  w_txmm w1 = w_txmm w -> (EvStartReord tid ssn win ∈ w_out w1 <-> EvStartReord tid ssn win ∈ w_out w) ->
  req_decided acc tid ssn win dlgt tmout w1 w2 -> req_decided acc tid ssn win dlgt tmout w w2.
Proof. intros E1 E2 []. split; try done; [congruence|]. by rewrite <-E2. Qed.

(** A request received for an idle TID is answered once with the token it
    carried: positively, echoing the window (64 when the request leaves it
    open) after reordering was started with it, exactly when the rate, the
    configuration, the acknowledgement policy and the reordering limiter allow
    it; negatively otherwise. *)
Theorem addba_request_answered timely ma mr w ssn tid win dlgt tmout ack rate :
  addba_reachable timely ma mr w -> valid_tid tid -> w_is_active w = true ->
  rx_state (rx_of w tid) = MTLK_ADDBA_RX_NONE ->
  eval (tx_get_empty_data (RxMsg tid)) (w_txmm w) = true ->
  (forall c p (t : T), eval (tx_send (RxMsg tid) c p 0) t = MTLK_ERR_OK) ->
  req_answer (req_accepted w tid ack rate) tid ssn (if win =? 0 then 64 else win) dlgt tmout w
    (exec (mtlk_addba_peer_on_addba_req_rx clock ssn tid win dlgt tmout ack rate) w).
Proof.
  intros Hw Ht Hact Hst Hget Hsend. pose proof (reachable_sinv _ _ _ _ _ _ Hw tid Ht) as Hs.
  sinv_facts w tid Ht Hs. destruct Hat as (Hre & _ & _). rewrite Hst in Hre.
  assert (tid_ok tid = true) as Hok by (unfold tid_ok, valid_tid, MTLK_ADDBA_NOF_TIDs in *; apply Z.ltb_lt; lia).
  assert (addba_req_dropped (rx_of w tid) dlgt = false) as Hdrop by (unfold addba_req_dropped; by rewrite Hst).
  unfold mtlk_addba_peer_on_addba_req_rx, _mtlk_addba_correct_res_win_size, MTLK_ADDBA_MAX_REORD_WIN_SIZE.
  rewrite Hok. cbn [negb]. rewrite run_gets, Hact. unfold when at 1, cntr_inc, ev, get_rx, get_cfg.
  generalize (if win =? 0 then 64 else win). intros win'.
  rewrite run_modify, run_gets. set (w0 := add_out _ w).
  change (rx_of w0 tid) with (rx_of w tid). rewrite Hdrop, exec_bind, stop_inactive by done.
  rewrite run_gets, run_upd_rx, run_gets, exec_bind. cbv zeta.
  set (w2 := set_tid _ (set_tid _ w0)).
  assert (w_tid w2 = alter (fun t => Tid (t_tx t) (rx_set_addba_res
    (AddbaResSend (w_addr w) dlgt (ar_u8WinSize (rx_addba_res (t_rx t))) tid
       (ar_u16ResultCode (rx_addba_res (t_rx t))) (ar_u16BATimeout (rx_addba_res (t_rx t))) UMI_OK)
    (rx_set_res_attempt 0 (rx_set_delba_attempt 0 (rx_set_state MTLK_ADDBA_RX_NONE (t_rx t))))))
    (Z.to_nat tid) (w_tid w)) as E2 by (subst w2 w0; world_simpl; by alter_merge).
  apply (send_decided _ _ _ _ _ _ _ _); try done.
  apply (req_decided_from _ _ _ _ _ _ _ w2); [done|subst w2 w0; world_simpl; rewrite elem_of_app, list_elem_of_singleton; naive_solver|].
  change (req_accepted w tid ack rate) with (req_accepted w2 tid ack rate).
  assert (rx_of w2 tid = t_rx ((fun t => Tid (t_tx t) (rx_set_addba_res
    (AddbaResSend (w_addr w) dlgt (ar_u8WinSize (rx_addba_res (t_rx t))) tid
       (ar_u16ResultCode (rx_addba_res (t_rx t))) (ar_u16BATimeout (rx_addba_res (t_rx t))) UMI_OK)
    (rx_set_res_attempt 0 (rx_set_delba_attempt 0 (rx_set_state MTLK_ADDBA_RX_NONE (t_rx t)))))) (tid_of w tid))) as E3.
  { unfold rx_of, tid_of. rewrite E2. rewrite alter_total; [done|].
    rewrite Hwf. unfold MTLK_ADDBA_NOF_TIDs, valid_tid in *. lia. }
  apply decide_request; rewrite ?E3; try done. unfold wf. by rewrite E2, length_alter.
Qed.

(** ** Where the code departs from what it means to do *)

Lemma timeout_fires w tid : wf w -> valid_tid tid ->
  tx_state (tx_of w tid) = MTLK_ADDBA_TX_ADDBA_REQ_CFMD ->
  MTLK_DOT11_ADDBA_RESPONSE_TIMEOUT_MS <=
    time_diff (u32 (clock (w_tick w))) (tx_addba_req_cfmd_time (tx_of w tid)) ->
  let w' := exec (check_addba_res_rx_timeout (T := T) clock tid) w in
  rl_cur (w_aggr_reflim w') = u32 (rl_cur (w_aggr_reflim w) - 1) /\
  tx_state (tx_of w' tid) = MTLK_ADDBA_TX_NONE.
Proof.
  intros Hw Ht Hst Htime. unfold check_addba_res_rx_timeout, _mtlk_addba_peer_reset_tx_state. cbv zeta. run.
  all: tid_simpl w tid Hw Ht; zbool; try (exfalso; simpl in *; congruence); try lia; try done.
Qed.

(** A confirmation that arrives after the peer's refusal revives the
    request: the TID, idle and holding no reference, becomes CONFIRMED, and
    when no response follows within three seconds the timeout gives back a
    reference that was never taken; with no other reference outstanding the
    limiter wraps to 2^32 - 1 and grants nothing any more. *)
Theorem addba_late_confirm_underflow w p b :
  let tid := aq_u16AccessProtocol p in
  wf w -> valid_tid tid -> tx_state (tx_of w tid) = MTLK_ADDBA_TX_NONE ->
  MTLK_DOT11_ADDBA_RESPONSE_TIMEOUT_MS <=
    time_diff (u32 (clock (S (w_tick w)))) (u32 (clock (w_tick w))) ->
  let w1 := exec (_mtlk_addba_peer_on_addba_req_tx_cfm_clb (T := T) clock p b) w in
  let w2 := exec (check_addba_res_rx_timeout (T := T) clock tid) w1 in
  tx_state (tx_of w1 tid) = MTLK_ADDBA_TX_ADDBA_REQ_CFMD /\ w_aggr_reflim w1 = w_aggr_reflim w /\
  rl_cur (w_aggr_reflim w2) = u32 (rl_cur (w_aggr_reflim w) - 1) /\
  (rl_cur (w_aggr_reflim w) = 0 -> rl_cur (w_aggr_reflim w2) = 2 ^ 32 - 1).
Proof.
  intros tid Hw Ht Hst Htime w1 w2.
  assert (wf w1 /\ tx_state (tx_of w1 tid) = MTLK_ADDBA_TX_ADDBA_REQ_CFMD /\
    w_aggr_reflim w1 = w_aggr_reflim w /\ w_tick w1 = S (w_tick w) /\
    tx_addba_req_cfmd_time (tx_of w1 tid) = u32 (clock (w_tick w))) as (H1 & H2 & H3 & H4 & H5).
  { unfold w1, _mtlk_addba_peer_on_addba_req_tx_cfm_clb. fold tid. run; alter_merge;
      unfold wf; world_simpl; tid_simpl w tid Hw Ht; by rewrite ?length_alter. }
  destruct (timeout_fires w1 tid H1 Ht H2) as [H6 _]; [by rewrite H4, H5|].
  fold w2 in H6. rewrite H3 in H6. split_and!; try done. intros E. by rewrite H6, E.
Qed.

(** A TID the peer has never accepted has reject interval 0, which doubling
    leaves 0: after [MTLK_ADDBA_MAX_REJECTS] refusals the very next timer tick
    ends the back-off and asks again, whatever the time. *)
Theorem addba_reject_without_backoff w tid :
  wf w -> valid_tid tid -> tx_state (tx_of w tid) = MTLK_ADDBA_TX_NONE ->
  tx_reject_state (tx_of w tid) = true -> tx_reject_interval (tx_of w tid) = 0 ->
  let w' := exec (check_addba_res_rx_timeout (T := T) clock tid) w in
  w_out w' = w_out w ++ [EvReqUnconfirmed tid] /\
  tx_reject_state (tx_of w' tid) = false /\ tx_reject_interval (tx_of w' tid) = 0.
Proof.
  intros Hw Ht Hst Hrs Hri. unfold check_addba_res_rx_timeout. cbv zeta. run.
  all: tid_simpl w tid Hw Ht; try congruence; rewrite ?Hri in *; try done.
  exfalso. zbool. unfold time_diff in *. pose proof (u32_range (u32 (clock (w_tick w))
    - tx_reject_time (t_tx (w_tid w !!! Z.to_nat tid)))). lia.
Qed.

(** A response that accepts with a window below the minimum is ignored only
    after the TID's message was taken: the message stays attached with nothing
    in flight, no answer will ever release it, and every later attempt to
    negotiate the TID ends without a request being sent. *)
Theorem addba_small_window_leak w tid win dlgt :
  wf w -> tx_ok (w_txmm w) -> valid_tid tid -> w_is_active w = true ->
  tx_state (tx_of w tid) = MTLK_ADDBA_TX_ADDBA_REQ_CFMD -> tx_addba_req_dlgt (tx_of w tid) = dlgt ->
  eval (tx_get_empty_data (TxMsg tid)) (w_txmm w) = true ->
  select_win_size (tx_win_size_req (tx_of w tid)) win = None ->
  let w1 := exec (mtlk_addba_peer_on_addba_res_rx clock MTLK_ADDBA_RES_CODE_SUCCESS tid win dlgt) w in
  tx_in_use (w_txmm w1) (TxMsg tid) = true /\ flight w1 (TxMsg tid) = None /\
  (forall w2, tx_ok (w_txmm w2) -> tx_in_use (w_txmm w2) (TxMsg tid) = true ->
     tx_state (tx_of w2 tid) = MTLK_ADDBA_TX_NONE ->
     let w3 := exec (_mtlk_addba_peer_tx_addba_req tid false) w2 in
     w_tid w3 = w_tid w2 /\ tx_in_use (w_txmm w3) (TxMsg tid) = true /\
     flight w3 (TxMsg tid) = flight w2 (TxMsg tid)).
Proof.
  intros Hw Hok Ht Hact Hst Hd Hget Hsel w1.
  destruct (tx_get_done _ _ Hok Hget) as (_ & Huse & Hfl).
  assert (w_txmm w1 = exec (tx_get_empty_data (TxMsg tid)) (w_txmm w)) as Ew.
  { unfold w1, mtlk_addba_peer_on_addba_res_rx, on_addba_accepted. run.
    all: tid_simpl w tid Hw Ht; unfold eval in *; zbool; try (exfalso; simpl in *; intuition congruence); try done.
    all: exfalso; unfold tid_ok, valid_tid, MTLK_ADDBA_NOF_TIDs in *; zbool; lia. }
  unfold flight. rewrite Ew. split; [done|]; split; [done|].
  intros w2 Hok2 Huse2 Hst2. set (w3 := exec _ w2).
  assert (eval (tx_get_empty_data (TxMsg tid)) (w_txmm w2) = false) as Hg.
  { destruct (eval (tx_get_empty_data (TxMsg tid)) (w_txmm w2)) eqn:E; [|done]. destruct (tx_get_done _ _ Hok2 E) as [E' _]. congruence. }
  destruct (tx_get_fail _ _ Hok2 Hg) as [F1 F2].
  assert (w_tid w3 = w_tid w2 /\ w_txmm w3 = exec (tx_get_empty_data (TxMsg tid)) (w_txmm w2)
    \/ w_tid w3 = w_tid w2 /\ w_txmm w3 = w_txmm w2) as Hw3.
  { unfold w3, _mtlk_addba_peer_tx_addba_req. run; unfold eval in *; try congruence; auto. }
  destruct Hw3 as [[-> ->]|[-> ->]]; [by rewrite F1, F2|done].
Qed.
End AddbaThms.
