(* ===== verification/AddbaExamples.v ===== *)
(** * AddbaExamples: a concrete transport and concrete runs of the negotiation

    The simplest transport that keeps the laws, and reachable states in which
    the hypotheses of the properties hold. *)
From S2P Require Import Prelude Reflim TxmmIface Addba AddbaAcct AddbaInv AddbaOps AddbaSys AddbaThms.

(** Each message is free, attached, or in flight with its request. *)
Definition mailbox : Type := addba_msg -> option (option (addba_clb * addba_payload)).
Definition post (m : addba_msg) (v : option (option (addba_clb * addba_payload))) (t : mailbox) : mailbox :=
  fun m' => if decide (m' = m) then v else t m'.
Definition is_used (o : option (option (addba_clb * addba_payload))) : bool :=
  match o with Some _ => true | None => false end.

#[export] Instance mailbox_ops : TxmmOps mailbox addba_msg addba_clb addba_payload := {
  tx_get_empty_data m := fun t => if is_used (t m) then (false, t) else (true, post m (Some None) t);
  tx_send m c d _ := fun t => (MTLK_ERR_OK, post m (Some (Some (c, d))) t);
  tx_cancel m := fun t => (tt, post m None t);
  tx_in_use t m := is_used (t m);
  tx_in_flight t m := match t m with Some fl => fl | None => None end;
}.

Definition mailbox_ok (t : mailbox) : Prop := True.

Lemma post_eq m v t : post m v t m = v.
Proof. unfold post. by rewrite decide_True. Qed.
Lemma post_ne m m' v t : m' <> m -> post m v t m' = t m'.
Proof. intros. unfold post. by rewrite decide_False. Qed.

#[export] Instance mailbox_laws : TxmmLaws mailbox addba_msg addba_clb addba_payload mailbox_ok.
Proof.
  split; try done; unfold tx_others, exec, eval; simpl.
  - intros t m _. by destruct (t m).
  - intros t m _ m' Hm. destruct (is_used (t m)); simpl; rewrite ?post_ne by done; done.
  - intros t m _. destruct (is_used (t m)) eqn:E; simpl; [done|]. intros _. by rewrite !post_eq.
  - intros t m _. destruct (is_used (t m)) eqn:E; simpl; [by rewrite E|done].
  - intros t m c d tmo _ _ _ m' Hm. by rewrite !post_ne.
  - intros t m c d tmo _ _ _. by rewrite !post_eq.
  - intros t m _ m' Hm. by rewrite !post_ne.
  - intros t m _. by rewrite post_eq.
Qed.

Definition demo_clock (n : nat) : Z := Z.of_nat n * 5000.
Definition demo_rx (n : nat) (tid : Z) : Z := 0.
Definition demo_cfg : list mtlk_addba_tid_cfg_t := replicate 8 (TidCfg true true 10 12000 3 10 0 32).
Definition demo_boot : world mailbox :=
  addba_boot (mtlk_reflim_init 2) (mtlk_reflim_init 2) demo_cfg (fun _ => None).

Abbreviation demo_counted := (addba_counted (tx_ok := mailbox_ok) demo_clock demo_rx 2 2).
Abbreviation demo_reachable := (addba_reachable (tx_ok := mailbox_ok) demo_clock demo_rx true 2 2).

Definition demo_call (c : addba_call) (w : world mailbox) : world mailbox :=
  exec (run_call demo_clock demo_rx c) w.

(** The transport answers the message in flight with [f] applied to its payload. *)
Definition demo_answer (m : addba_msg) (f : addba_payload -> addba_payload) (w : world mailbox) : world mailbox :=
  match flight w m with
  | Some (c, p) => set_txmm (post m None (w_txmm w)) (exec (run_clb demo_clock c (f p) true) w)
  | None => w
  end.

Lemma demo_boot_reachable : demo_reachable demo_boot.
Proof. exists demo_cfg, (fun _ => None). by split. Qed.

Lemma demo_own_reachable w w' : own_step (tx_ok := mailbox_ok) demo_clock demo_rx true w w' -> demo_reachable w -> demo_reachable w'.
Proof.
  intros Ho (cfg & t & Hok & Hn & Hs). exists cfg, t. split_and!; [done|done|].
  eapply rtc_r; [exact Hs|]. by apply step_own.
Qed.

Lemma demo_own_counted oa or w w' : own_step (tx_ok := mailbox_ok) demo_clock demo_rx true w w' -> demo_counted oa or w -> demo_counted oa or w'.
Proof. intros Ho (cfg & t & Hok & Hn & Hs). exists cfg, t. split_and!; [done|done|]. by eapply ct_own. Qed.

Lemma demo_call_reachable c w : call_ok c -> demo_reachable w -> demo_reachable (demo_call c w).
Proof. intros Hc. by apply demo_own_reachable, step_call. Qed.
Lemma demo_call_counted oa or c w : call_ok c -> demo_counted oa or w -> demo_counted oa or (demo_call c w).
Proof. intros Hc. by apply demo_own_counted, step_call. Qed.

Lemma demo_answer_own m c p0 f w : valid_tid (msg_tid m) -> flight w m = Some (c, p0) ->
  answered p0 (f p0) -> ~ late_answer w c (f p0) -> own_step (tx_ok := mailbox_ok) demo_clock demo_rx true w (demo_answer m f w).
Proof.
  intros Hm Hf Ha Hl. unfold demo_answer. rewrite Hf.
  eapply (step_answer _ _ true m c p0 (f p0) true w); try done.
  split; [done|]. split.
  - change (match post m None (w_txmm w) m with Some fl => fl | None => None end = None). by rewrite post_eq.
  - intros m' Hne. change (match post m None (w_txmm w) m' with Some fl => fl | None => None end =
      match w_txmm w m' with Some fl => fl | None => None end). by rewrite post_ne.
Qed.

(** Connected; request sent; confirmed; accepted, so the OPEN request is out. *)
Definition demo1 := demo_call (CPeerStart 0xAA true) demo_boot.
Definition demo2 := demo_call (CStartNegotiation 0 false) demo1.
Definition demo3 := demo_answer (TxMsg 0) (fun p => p) demo2.
Definition demo4 := demo_call (CAddbaResRx MTLK_ADDBA_RES_CODE_SUCCESS 0 200 0) demo3.
(** From [demo2], refused before the confirmation. *)
Definition demo_refused := demo_call (CAddbaResRx MTLK_ADDBA_RES_CODE_FAILURE 0 0 0) demo2.

Definition demo_aq : UMI_ADDBA_REQ_SEND := AddbaReqSend 0xAA 0 32 0 0 0.
Definition demo_oa : UMI_OPEN_AGGR_REQ := OpenAggrReq 0xAA 0 10 0 12000 3 10 32 0.

Lemma demo1_reachable : demo_reachable demo1.
Proof. apply demo_call_reachable; [done|apply demo_boot_reachable]. Qed.
Lemma demo2_reachable : demo_reachable demo2.
Proof. apply demo_call_reachable; [done|apply demo1_reachable]. Qed.
Lemma demo3_own : own_step (tx_ok := mailbox_ok) demo_clock demo_rx true demo2 demo3.
Proof.
  apply (demo_answer_own (TxMsg 0) ClbAddbaReq (PAddbaReq demo_aq)); [done|vm_compute; reflexivity|done|].
  intros [_ H]. vm_compute in H. discriminate.
Qed.
Lemma demo3_reachable : demo_reachable demo3.
Proof. eapply demo_own_reachable; [apply demo3_own|apply demo2_reachable]. Qed.
Lemma demo4_reachable : demo_reachable demo4.
Proof. apply demo_call_reachable; [done|apply demo3_reachable]. Qed.

(** Another peer takes a reference meanwhile. *)
Definition demo5 : world mailbox := set_aggr_reflim (mtlk_reflim_try_ref (w_aggr_reflim demo4)).2 demo4.

Lemma demo5_counted : demo_counted 1 0 demo5.
Proof.
  assert (demo_counted 0 0 demo4) as (cfg & t & Hok & Hn & Hs).
  { apply demo_call_counted; [done|]. eapply demo_own_counted; [apply demo3_own|]. do 2 (apply demo_call_counted; [done|]).
    exists demo_cfg, (fun _ => None). split_and!; [done|done|apply ct_start]. }
  exists cfg, t. split_and!; [done|done|]. apply ct_take in Hs. by vm_compute (Z.b2z _) in Hs.
Qed.

Lemma addba_references_bounded_witness :
  aggr_count demo5 = 1 /\ rl_cur (w_aggr_reflim demo5) = aggr_count demo5 + 1 /\ rl_cur (w_aggr_reflim demo5) <= 2.
Proof.
  split; [vm_compute; reflexivity|].
  destruct (addba_references_bounded demo_clock demo_rx 2 2 1 0 demo5 ltac:(lia) ltac:(lia) demo5_counted)
    as (H1 & H2 & _). by split.
Defined.

Lemma addba_tid_protocol_witness :
  tx_state (tx_of demo4 0) = MTLK_ADDBA_TX_ADD_AGGR_REQ_SENT /\
  exists p, flight demo4 (TxMsg 0) = Some (ClbOpenAggr, POpenAggr p).
Proof.
  split; [vm_compute; reflexivity|].
  destruct (addba_tid_protocol demo_clock demo_rx true 2 2 demo4 0 demo4_reachable ltac:(done)) as (H1 & _).
  apply H1. vm_compute. reflexivity.
Defined.

Lemma addba_bounds_witness :
  flight demo4 (TxMsg 0) = Some (ClbOpenAggr, POpenAggr demo_oa) /\ 1 <= oa_windowSize demo_oa <= 64.
Proof.
  assert (flight demo4 (TxMsg 0) = Some (ClbOpenAggr, POpenAggr demo_oa)) as Hf by (vm_compute; reflexivity).
  split; [exact Hf|].
  exact (proj1 (addba_bounds demo_clock demo_rx true 2 2 demo4 0 demo4_reachable valid_tid_0) demo_oa Hf).
Defined.

Lemma addba_open_confirmed_witness :
  tx_state (tx_of (exec (_mtlk_addba_peer_on_open_aggr_cfm_clb demo_oa true) demo4) 0) = MTLK_ADDBA_TX_AGGR_OPENED.
Proof.
  apply (addba_open_confirmed demo_clock demo_rx true 2 2 demo4 0 demo_oa demo_oa demo4_reachable);
    [done|vm_compute; reflexivity|reflexivity|reflexivity].
Defined.

Lemma addba_peer_stop_releases_witness :
  aggr_count demo4 = 1 /\ tid_stopped (exec (mtlk_addba_peer_stop demo_clock true) demo4) 0.
Proof.
  split; [vm_compute; reflexivity|].
  exact (proj1 (addba_peer_stop_releases demo_clock demo_rx true 2 2 demo4 demo4_reachable
    ltac:(vm_compute; reflexivity)) 0 valid_tid_0).
Defined.

Lemma addba_request_answered_witness :
  rx_state (rx_of (exec (mtlk_addba_peer_on_addba_req_rx demo_clock 7 1 0 5 0 1 0xFFFF) demo1) 1)
  = MTLK_ADDBA_RX_ADDBA_POSITIVE_RES_SENT.
Proof.
  apply (addba_request_answered demo_clock demo_rx true 2 2 demo1 7 1 0 5 0 1 0xFFFF demo1_reachable);
    [done|vm_compute; reflexivity|vm_compute; reflexivity|vm_compute; reflexivity|done].
Defined.

Lemma addba_late_confirm_underflow_witness :
  flight demo_refused (TxMsg 0) = Some (ClbAddbaReq, PAddbaReq demo_aq) /\
  rl_cur (w_aggr_reflim (exec (check_addba_res_rx_timeout demo_clock 0)
    (exec (_mtlk_addba_peer_on_addba_req_tx_cfm_clb demo_clock demo_aq true) demo_refused))) = 2 ^ 32 - 1.
Proof.
  split; [vm_compute; reflexivity|].
  apply (addba_late_confirm_underflow demo_clock demo_refused demo_aq true);
    [vm_compute; reflexivity|done|vm_compute; reflexivity|vm_compute; discriminate|vm_compute; reflexivity].
Defined.

(** A TID refused five times in a row since the peer connected. *)
Definition demo_reject_once (w : world mailbox) : world mailbox :=
  let w := demo_call (CStartNegotiation 0 false) w in
  let w := demo_answer (TxMsg 0) (fun p => p) w in
  demo_call (CAddbaResRx MTLK_ADDBA_RES_CODE_FAILURE 0 0 (tx_addba_req_dlgt (tx_of w 0))) w.
Definition demo_rejected := demo_reject_once (demo_reject_once (demo_reject_once
  (demo_reject_once (demo_reject_once demo1)))).

Lemma addba_reject_without_backoff_witness :
  tx_reject_state (tx_of demo_rejected 0) = true /\
  tx_reject_state (tx_of (exec (check_addba_res_rx_timeout demo_clock 0) demo_rejected) 0) = false.
Proof.
  split; [vm_compute; reflexivity|].
  apply (addba_reject_without_backoff demo_clock demo_rejected 0);
    [vm_compute; reflexivity|done|vm_compute; reflexivity|vm_compute; reflexivity|vm_compute; reflexivity].
Defined.

Lemma addba_small_window_leak_witness :
  tx_in_use (w_txmm (exec (mtlk_addba_peer_on_addba_res_rx demo_clock MTLK_ADDBA_RES_CODE_SUCCESS 0 0 0) demo3))
    (TxMsg 0) = true.
Proof.
  refine (proj1 (addba_small_window_leak (tx_ok := mailbox_ok) demo_clock demo3 0 0 0 _ _ _ _ _ _ _ _));
    [vm_compute; reflexivity|exact I|exact valid_tid_0|vm_compute; reflexivity..].
Defined.
