(* ===== verification/AddbaTxmm.v ===== *)
(** * AddbaTxmm: the negotiation running over the real transport

    A confirmation answered by the owner with FREE is the transport's "taking
    the message back", and ADDBA over txmm.c keeps both modules' invariants. *)
From S2P Require Import Prelude TxmmRing Txmm TxmmInv TxmmOps TxmmSafe TxmmTimer TxmmProps TxmmIface TxmmInst.
From S2P Require Import Reflim Addba AddbaAcct AddbaInv AddbaOps AddbaSys AddbaThms.

(** ** Confirmations seen through the interface *)

Section confirm.
Context {Msg : Type} `{Countable Msg} {Clb : Type} {Slot : Type} `{EqDecision Slot} {Pool : Type} {D : Type}.
Context (msg_get_from_pool : Pool -> option Slot * Pool) (msg_free_to_pool : Slot -> Pool -> Pool).
Context (run_clb : Clb -> mtlk_txmm_data_t -> mtlk_txmm_clb_reason_e -> mtlk_txmm_clb_action_e * mtlk_txmm_data_t).
Context (enc : D -> mtlk_txmm_data_t) (dec : Z -> list Z -> D) (vap now : Z).
Abbreviation base := (mtlk_txmm_base_t (Msg := Msg) (Clb := Clb) (Slot := Slot) (Pool := Pool)).
Implicit Types (o : base) (m : Msg) (b : nat).
#[local] Instance ops : TxmmOps base Msg Clb D := txmm_ops msg_get_from_pool msg_free_to_pool enc dec vap now.
Abbreviation tx_ok := (TxmmInst.tx_ok (Msg := Msg) (Clb := Clb) (Slot := Slot) (Pool := Pool)).

Lemma start_ok max_msgs size pool junk payloads : (0 < max_msgs)%nat -> (forall q, length (junk q) = max_msgs) ->
  let o := mtlk_txmm_start (mtlk_txmm_init max_msgs size pool junk payloads) : base in
  tx_ok o /\ forall m, tx_in_use o m = false /\ tx_in_flight o m = None.
Proof.
  intros Hn Hj o. split; [split|].
  - apply (inv_ext (mtlk_txmm_init max_msgs size pool junk payloads)); [done..|]. by apply txmm_init_inv.
  - intros b k. cbn. rewrite list_lookup_fmap. by intros (i & _ & ->)%fmap_Some_1.
  - intros m. cbn. unfold msg_block_of. cbn. by rewrite lookup_empty.
Qed.

(** C22. The transport implements its interface: started, it satisfies [tx_ok]
    with nothing in flight, and while [tx_ok] holds getting, sending and
    cancelling a message do to that message what its owner is promised, leave
    every other message as it was, also when the call moves other requests on
    to the firmware, and keep [tx_ok]. *)
Theorem txmm_implements_iface max_msgs size pool junk payloads : (forall d, dec (data_id (enc d)) (data_payload (enc d)) = d) ->
  (0 < max_msgs)%nat -> (forall q, length (junk q) = max_msgs) ->
  TxmmLaws base Msg Clb D tx_ok /\
  let o := mtlk_txmm_start (mtlk_txmm_init max_msgs size pool junk payloads) : base in
  tx_ok o /\ forall m, tx_in_use o m = false /\ tx_in_flight o m = None.
Proof. intros He Hn Hj. split; [by apply txmm_laws|]. by apply start_ok. Qed.

Hypothesis clb_frees : forall c d, (run_clb c d MTLK_TXMM_CLBR_CONFIRMED).1 = MTLK_TXMM_CLBA_FREE.

(** Delivering a block taken out of SENT, whose owner frees it. *)
Lemma deliver_frees o b k m v : txmm_inv o [b] -> tb_blocks o !! b = Some k -> bl_msg k = Some m ->
  tb_msgs o !! m = Some (b, v) ->
  exists o', _mtlk_txmm_call_usr_clb_locked run_clb o b MTLK_TXMM_CLBR_CONFIRMED now = Some (false, o') /\
    tb_msgs o' = delete m (tb_msgs o) /\ looks dec (fun b' => b' <> b) o o' /\
    (forall k', tb_blocks o' !! b = Some k' -> bl_que k' = MTLK_TXMMB_FREE).
Proof.
  intros HI Hk Hkm Hm. destruct (ti_flight _ _ HI b) as (k0 & Hk0 & Hq & c & Hc); [left|]. simplify_eq.
  unfold _mtlk_txmm_call_usr_clb_locked, block_of. rewrite (list_lookup_total_correct _ _ _ Hk), Hkm, Hm, Hc.
  pose proof (clb_frees c (bl_data k)) as Hf. destruct (run_clb c (bl_data k) MTLK_TXMM_CLBR_CONFIRMED) as [action d'].
  cbn in Hf. subst action. set (o1 := upd_block b (bl_set_data d') (emit (EvClb c (bl_data k) MTLK_TXMM_CLBR_CONFIRMED) o)).
  destruct (upd_quiet (emit (EvClb c (bl_data k) MTLK_TXMM_CLBR_CONFIRMED) o) None b (bl_set_data d')) as [Ho1 Hb1];
    [apply quiet_data|apply HI|by destruct (ti_binv _ _ HI)|].
  assert (tb_blocks o1 !! b = Some (bl_set_data d' k)) as Hk1 by (cbn; by rewrite list_lookup_alter_eq, Hk).
  assert (olnk (Some b) o1) as Hd1 by (apply olnk_detach; [exact Ho1|by eapply olk_none]).
  destruct (free_buf_detached o1 b _ Hd1 Hk1) with (order := false) as [[Gf Gl _ Gb] _]; [cbn; congruence|].
  eexists. split; [done|split; [|split]].
  - cbn. by rewrite Gf.
  - intros b' Hne. apply strip_look. cbn. rewrite Gb, list_lookup_alter_ne by done. cbn. by rewrite list_lookup_alter_ne.
  - intros k' Hk'. cbn in Hk'. specialize (Gb b). rewrite Hk', list_lookup_alter_eq, Hk1 in Gb.
    apply (inj Some), (f_equal bl_que) in Gb. exact Gb.
Qed.

(** The payload of block [k] after the confirmation's bytes were copied in. *)
Definition confirmed_payload o (k : mtlk_txmm_block_t (Msg := Msg) (Clb := Clb) (Slot := Slot)) (payload : list Z) : D :=
  dec (data_id (bl_data k)) (memcpy (data_payload (bl_data k)) payload (Z.to_nat (tb_max_payload_size o))).

(** The confirmed slot is in the block of a message in flight. *)
Lemma confirmed_in_flight o s b : tx_ok o -> confirmed_block o s = Some b ->
  exists k m c v, tb_blocks o !! b = Some k /\ bl_que k = MTLK_TXMMB_SENT /\ bl_msg k = Some m /\ bl_clb k = Some c /\
    tb_msgs o !! m = Some (b, v) /\ tx_in_flight o m = Some (c, dec (data_id (bl_data k)) (data_payload (bl_data k))).
Proof.
  intros [HI Hto] Hb. pose proof (on_cfm_dequeue_spec o [] s HI) as [H1 H2].
  destruct (on_cfm_dequeue o s) as [r o1] eqn:Hd. cbn [fst snd] in H1, H2. subst r. rewrite Hb in *.
  destruct H2 as (_ & _ & _ & Hperm & _).
  assert (exists p, olk o b = Some (MTLK_TXMMB_SENT, p)) as [p (k & Hk & Hkq & _)%olk_Some].
  { apply elem_of_cont; [apply HI|done|]. rewrite Hperm. left. }
  destruct (bi_blk _ (ti_binv _ _ HI) b k Hk) as (m & v & Hkm & Hm); [congruence|].
  destruct (bi_clb _ (ti_binv _ _ HI) b k Hk) as [c Hc]; [rewrite Hkq; by right; left|].
  exists k, m, c, v. repeat (split; [done|]). cbn. unfold msg_block_of. rewrite Hm. cbn. rewrite Hk. cbn.
  unfold request. by rewrite Hkq, Hc.
Qed.

Lemma confirmation_releases o s b k m payload : tx_ok o -> confirmed_block o s = Some b ->
  tb_blocks o !! b = Some k -> bl_msg k = Some m ->
  exists o', _mtlk_txmm_on_cfm run_clb o s payload now = Some (MTLK_ERR_OK, o') /\ tx_ok o' /\ tx_in_use o' m = false /\ tx_in_flight o' m = None /\ tx_others m o o'.
Proof.
  intros [HI Hto] Hb Hk Hkm. destruct (confirmed_in_flight o s b) as (k0 & m0 & c & v & Hk0 & Hkq & Hkm0 & Hc & Hm & _); [by split|done|].
  simplify_eq. pose proof (on_cfm_dequeue_spec o [] s HI) as [H1 H2]. unfold _mtlk_txmm_on_cfm.
  destruct (on_cfm_dequeue o s) as [r o1] eqn:Hd. cbn [fst snd] in H1, H2. subst r. rewrite Hb in *.
  destruct H2 as (I1 & Hoth & Hbare & Hperm & Hqs).
  assert (tb_msgs o1 = tb_msgs o) as Hms.
  { unfold on_cfm_dequeue in Hd. case_match; [by simplify_eq/=|]. case_match; simplify_eq/=.
    unfold _mtlk_txmm_del_buf_from_que. case_match; [|done]. case_match; [|done]. by case_match. }
  pose proof (Hbare b) as Hbb. rewrite Hk in Hbb. destruct (tb_blocks o1 !! b) as [k1|] eqn:Hk1; [|done].
  cbn in Hbb. apply (inj Some) in Hbb. assert (bl_msg k1 = bl_msg k) as Hkm1 by (by apply (f_equal bl_msg) in Hbb).
  set (d := Data (data_id (bl_data (block_of o1 b))) (memcpy (data_payload (bl_data (block_of o1 b))) payload
    (Z.to_nat (tb_max_payload_size o1))) (data_payload_size (bl_data (block_of o1 b)))).
  pose proof (cfm_copy_inv o1 [] b payload I1) as I2. fold d in I2. set (o2 := upd_block b (bl_set_data d) o1) in *.
  destruct (deliver_frees o2 b (bl_set_data d k1) m v I2) as (o' & E1 & E2 & E3 & E4);
    [cbn; by rewrite list_lookup_alter_eq, Hk1|cbn; congruence|cbn; by rewrite Hms|].
  destruct (deliver_inv run_clb o2 [] b MTLK_TXMM_CLBR_CONFIRMED now I2) as (r' & o'' & E1' & I3).
  rewrite E1 in E1'. injection E1' as <- <-.
  assert (looks dec (fun b' => b' <> b) o o') as Hl.
  { eapply looks_trans; [by apply looks_others|]. eapply looks_trans; [apply upd_looks|exact E3]. }
  assert (tb_msgs o' = delete m (tb_msgs o)) as Hm' by (rewrite E2; cbn; by rewrite Hms).
  exists o'. split; [|split; [|split; [|split]]].
  - unfold on_cfm_deliver. fold d. fold o2. by rewrite E1.
  - eapply (ok_looks dec o _ (fun b' => b' <> b)); [intros b'; destruct (decide (b' = b)); [right|left]; lia|by split|done|exact Hl|].
    intros b' k' Hb' Hk'. apply dec_stable in Hb'. subst b'. by rewrite (E4 _ Hk').
  - cbn. by rewrite Hm', lookup_delete_eq.
  - cbn. unfold msg_block_of. by rewrite Hm', lookup_delete_eq.
  - apply (others_looks msg_get_from_pool msg_free_to_pool enc dec vap now m o _ (fun b' => b' <> b)); [apply HI| | |exact Hl].
    + intros m' Hne. by rewrite Hm', lookup_delete_ne.
    + intros m' b' v' Hne E. by eapply distinct_blocks; [apply HI|exact Hm|exact E|].
Qed.

(** What the users' proofs assume of an answer is what a confirmation does:
    when the firmware confirms the slot of a message in flight, its owner is
    called once with the confirmation's payload and, on answering FREE, the
    message is no longer in flight or in use, every other message is as it
    was, and the transport keeps its promises. *)
Theorem txmm_confirmation_releases o s b payload : tx_ok o -> confirmed_block o s = Some b ->
  exists m c d o', tx_in_flight o m = Some (c, d) /\
    _mtlk_txmm_on_cfm run_clb o s payload now = Some (MTLK_ERR_OK, o') /\
    tx_ok o' /\ tx_in_use o' m = false /\ tx_in_flight o' m = None /\ tx_others m o o'.
Proof.
  intros Hok Hb. destruct (confirmed_in_flight o s b Hok Hb) as (k & m & c & v & Hk & _ & Hkm & _ & _ & Hf).
  destruct (confirmation_releases o s b k m payload Hok Hb Hk Hkm) as (o' & H1 & H2). by exists m, c, (dec (data_id (bl_data k)) (data_payload (bl_data k))), o'.
Qed.

(** Handing waiting messages to the firmware changes nothing for the owners. *)
Lemma pump_ok o pmsg : tx_ok o ->
  let o' := (mtlk_txmm_pump msg_get_from_pool msg_free_to_pool o pmsg).2 in
  tx_ok o' /\ forall m, tx_in_flight o' m = tx_in_flight o m.
Proof.
  intros Hok. pose proof Hok as [HI _]. pose proof (pump_inv msg_get_from_pool msg_free_to_pool o [] pmsg HI) as HI'.
  pose proof (pump_looks msg_get_from_pool msg_free_to_pool dec o pmsg HI) as [Hl Hm].
  assert (forall o1, txmm_inv o1 [] -> looks dec (fun _ => True) o o1 -> tb_msgs o1 = tb_msgs o ->
    tx_ok o1 /\ forall m, tx_in_flight o1 m = tx_in_flight o m) as Hgoal.
  { intros o1 HI1 Hl1 Hm1. split.
    - eapply (ok_looks dec o _ (fun _ => True)); [by left|done|done|exact Hl1|]. intros b k []. done.
    - intros m. cbn. unfold msg_block_of. rewrite Hm1. destruct (tb_msgs o !! m) as [[b v]|]; [|done]. cbn. specialize (Hl1 b I).
      destruct (tb_blocks o1 !! b), (tb_blocks o !! b); try done. cbn in *. apply (inj Some) in Hl1. by injection Hl1. }
  unfold mtlk_txmm_pump. destruct (_mtlk_txmm_pump _ _ _ _) as [[[os ov] st] o1]. cbn [snd] in *.
  destruct os, ov, st; cbn [snd]; apply Hgoal; try done; by apply (inv_ext o1).
Qed.

End confirm.

(** ** ADDBA over TXMM *)

#[export] Instance addba_msg_countable : Countable addba_msg.
Proof.
  apply (inj_countable' (fun m => match m with TxMsg t => inl t | RxMsg t => inr t end)
    (fun s => match s with inl t => TxMsg t | inr t => RxMsg t end)). by intros [].
Defined.

Section composed.
Context {Slot : Type} `{EqDecision Slot} {Pool : Type}.
Context (msg_get_from_pool : Pool -> option Slot * Pool) (msg_free_to_pool : Slot -> Pool -> Pool).
Context (enc : addba_payload -> mtlk_txmm_data_t) (dec : Z -> list Z -> addba_payload) (vap now : Z).
Context (clock : nat -> Z) (get_last_rx_timestamp : nat -> Z -> Z).
Abbreviation base := (mtlk_txmm_base_t (Msg := addba_msg) (Clb := addba_clb) (Slot := Slot) (Pool := Pool)).
#[local] Instance addba_tx_ops : TxmmOps base addba_msg addba_clb addba_payload :=
  txmm_ops msg_get_from_pool msg_free_to_pool enc dec vap now.
Abbreviation tx_ok := (TxmmInst.tx_ok (Msg := addba_msg) (Clb := addba_clb) (Slot := Slot) (Pool := Pool)).

(** ADDBA's callbacks all answer FREE, leaving the payload as it was delivered. *)
Definition frees (c : addba_clb) (d : mtlk_txmm_data_t) (r : mtlk_txmm_clb_reason_e) :
  mtlk_txmm_clb_action_e * mtlk_txmm_data_t := (MTLK_TXMM_CLBA_FREE, d).

(** One step of the two modules: a call of the negotiation's API, whose sends
    and cancels are txmm.c's; the firmware's confirmation of a slot, delivered
    by [_mtlk_txmm_on_cfm] to the callback of the block's message; or txmm.c
    handing waiting messages to the firmware.  The firmware leaves the TID (and
    the initiator) of the request where it was, and does not confirm an ADDBA
    request after the peer has refused it. *)
Inductive joint_step : world base -> world base -> Prop :=
| joint_call c w : call_ok c -> joint_step w (exec (run_call clock get_last_rx_timestamp c) w)
| joint_confirm s b k m c payload r o' w :
    let o := w_txmm w in
    let p := confirmed_payload dec o k payload in
    confirmed_block o s = Some b -> tb_blocks o !! b = Some k -> bl_msg k = Some m -> bl_clb k = Some c ->
    _mtlk_txmm_on_cfm frees o s payload now = Some (r, o') -> valid_tid (msg_tid m) ->
    answered (dec (data_id (bl_data k)) (data_payload (bl_data k))) p -> ~ late_answer w c p ->
    joint_step w (set_txmm o' (exec (run_clb clock c p true) w))
| joint_pump pmsg w :
    joint_step w (set_txmm (mtlk_txmm_pump msg_get_from_pool msg_free_to_pool (w_txmm w) pmsg).2 w).

(** Both modules from their initialisation, the other peers holding [oa] and
    [or] references. *)
Definition joint_reachable (ma mr : Z) (max_msgs : nat) (size : Z) (oa or : Z) (w : world base) : Prop :=
  exists cfg pool junk payloads, (0 < max_msgs)%nat /\ (forall q, length (junk q) = max_msgs) /\
    counted joint_step (addba_boot (mtlk_reflim_init ma) (mtlk_reflim_init mr) cfg
      (mtlk_txmm_start (mtlk_txmm_init max_msgs size pool junk payloads))) oa or w.

Lemma joint_own w w' : sinv (tx_ok := tx_ok) w -> joint_step w w' -> own_step (tx_ok := tx_ok) clock get_last_rx_timestamp true w w'.
Proof.
  intros Hs Hst. assert (tx_ok (w_txmm w)) as Hok by (by eapply sa_ok, (Hs 0)).
  destruct Hst as [c w Hc|s b k m c payload r o' w o p Hb Hk Hkm Hkc Hr Hv Ha Hl|pmsg w].
  - by apply step_call.
  - destruct (confirmed_in_flight msg_get_from_pool msg_free_to_pool enc dec vap now o s b Hok Hb) as (k1 & m1 & c1 & v & Hk1 & _ & Hm1 & Hc1 & _ & Hf).
    destruct (confirmation_releases msg_get_from_pool msg_free_to_pool frees enc dec vap now (fun _ _ => eq_refl) o s b k m payload Hok Hb Hk Hkm)
      as (o1 & Hr1 & H1 & H2 & H3 & H4).
    simplify_eq. eapply (step_answer _ _ true m c _ p true); [done|exact Hf|done| |done]. split_and!; [done|done|intros m' Hne; by apply H4].
  - destruct (pump_ok msg_get_from_pool msg_free_to_pool enc dec vap now (w_txmm w) pmsg Hok) as [H1 H2]. by apply step_transport.
Qed.

(** C23. The two modules together: with txmm.c as the transport, started by
    [mtlk_txmm_init] and [mtlk_txmm_start], and the negotiation's API calls, the
    firmware's confirmations through [_mtlk_txmm_on_cfm] and txmm.c's pump as the
    steps, in every reachable state each limiter is exactly this peer's
    references plus those other peers hold, within its maximum; the transport's
    queues and blocks are consistent; and a TID waiting for the confirmation of
    its OPEN request has exactly that request in a QUEUED or SENT block of the
    transport.  The firmware is assumed to keep the TID of a request in its
    confirmation and not to confirm an ADDBA request after its refusal (a late
    confirmation breaks the accounting), and requests are laid out so that they
    can be read back. *)
Theorem addba_over_txmm ma mr max_msgs size oa or w tid : (forall d, dec (data_id (enc d)) (data_payload (enc d)) = d) ->
  0 <= ma < 2 ^ 32 - 8 -> 0 <= mr < 2 ^ 32 - 8 -> valid_tid tid -> joint_reachable ma mr max_msgs size oa or w ->
  (rl_cur (w_aggr_reflim w) = aggr_count w + oa /\ rl_cur (w_aggr_reflim w) <= ma) /\
  (rl_cur (w_reord_reflim w) = reord_count w + or /\ rl_cur (w_reord_reflim w) <= mr) /\
  txmm_inv (w_txmm w) [] /\
  (tx_state (tx_of w tid) = MTLK_ADDBA_TX_ADD_AGGR_REQ_SENT ->
   exists b v k p, tb_msgs (w_txmm w) !! TxMsg tid = Some (b, v) /\ tb_blocks (w_txmm w) !! b = Some k /\
     (bl_que k = MTLK_TXMMB_QUEUED \/ bl_que k = MTLK_TXMMB_SENT) /\ bl_clb k = Some ClbOpenAggr /\
     dec (data_id (bl_data k)) (data_payload (bl_data k)) = POpenAggr p).
Proof.
  intros He Ha Hr Ht (cfg & pool & junk & payloads & Hn & Hj & Hw).
  pose proof (txmm_laws (Msg := addba_msg) (Clb := addba_clb) msg_get_from_pool msg_free_to_pool enc dec vap now He) as laws.
  destruct (start_ok (Msg := addba_msg) (Clb := addba_clb) msg_get_from_pool msg_free_to_pool enc dec vap now max_msgs size pool junk payloads Hn Hj) as [Hok Hnf].
  destruct (counted_linv clock get_last_rx_timestamp joint_step ma mr _ oa or w ltac:(lia) ltac:(lia) joint_own
    (boot_sinv _ _ cfg _ Hok (fun m => proj2 (Hnf m))) (boot_linv ma mr cfg _ ltac:(lia) ltac:(lia)) Hw) as [Hs [L1 L2 L3 L4 L5 L6]].
  specialize (Hs tid Ht). split; [lia|split; [lia|split; [apply Hs|]]].
  intros Hst. destruct (sa_ok _ _ _ Hs) as [_ Hto]. destruct (sa_tx _ _ _ Hs tid Ht) as [Hf _].
  rewrite Hst in Hf. unfold flight in Hf. cbn in Hf. unfold msg_block_of in Hf.
  destruct (tb_msgs (w_txmm w) !! TxMsg tid) as [[b v]|] eqn:Em; [|done]. cbn in Hf.
  destruct (tb_blocks (w_txmm w) !! b) as [k|] eqn:Ek; [|done]. cbn in Hf. specialize (Hto b k Ek).
  exists b, v, k. unfold request in Hf.
  destruct (bl_que k); try done; (destruct (bl_clb k) as [[]|]; cbn in Hf; try done);
    destruct (dec _ _) as [p|p|p|p|p] eqn:Ed; try done; try (exfalso; intuition congruence).
  all: exists p; auto 10.
Qed.

End composed.

(** ** Examples *)

(** A transport with a counter for the firmware's slots and payloads of Z. *)
Definition demo_get (n : Z) : option Z * Z := (Some n, n + 1).
Definition demo_put (s n : Z) : Z := n.
Definition demo_enc (p : Z * list Z) : mtlk_txmm_data_t := Data p.1 p.2 0.
Definition demo_dec (id : Z) (l : list Z) : Z * list Z := (id, l).
Definition demo_frees (c : Z) (d : mtlk_txmm_data_t) (r : mtlk_txmm_clb_reason_e) :
  mtlk_txmm_clb_action_e * mtlk_txmm_data_t := (MTLK_TXMM_CLBA_FREE, d).
Abbreviation demo_base := (mtlk_txmm_base_t (Msg := Z) (Clb := Z) (Slot := Z) (Pool := Z)).
#[local] Instance demo_ops : TxmmOps demo_base Z Z (Z * list Z) := txmm_ops demo_get demo_put demo_enc demo_dec 0 0.
Definition demo_txmm : demo_base :=
  mtlk_txmm_start (mtlk_txmm_init 4 16 100 (fun _ => [0; 0; 0; 0]%nat) (fun _ => [])).
(** Message 7 got its payload and was sent in slot 100. *)
Definition demo_sent : demo_base :=
  exec (tx_send 7 55 (1, [2; 3]) 0) (exec (tx_get_empty_data 7) demo_txmm).

Lemma demo_dec_enc d : demo_dec (data_id (demo_enc d)) (data_payload (demo_enc d)) = d.
Proof. by destruct d. Qed.
Lemma demo_clb_frees (c : Z) d : (demo_frees c d MTLK_TXMM_CLBR_CONFIRMED).1 = MTLK_TXMM_CLBA_FREE.
Proof. done. Qed.

Lemma demo_txmm_ok : TxmmInst.tx_ok demo_txmm /\ forall m, tx_in_use demo_txmm m = false /\ tx_in_flight demo_txmm m = None.
Proof. apply (start_ok (Msg := Z) (Clb := Z) demo_get demo_put demo_enc demo_dec 0 0); [lia|done]. Qed.

Lemma txmm_implements_iface_witness : TxmmLaws demo_base Z Z (Z * list Z) TxmmInst.tx_ok /\ TxmmInst.tx_ok demo_txmm.
Proof.
  destruct (txmm_implements_iface (Msg := Z) (Clb := Z) demo_get demo_put demo_enc demo_dec 0 0 4 16 100 (fun _ => [0; 0; 0; 0]%nat) (fun _ => []))
    as [H1 [H2 _]]; [by intros []|lia|done|]. split; [exact H1|exact H2].
Defined.

Lemma txmm_confirmation_releases_witness : tx_in_flight demo_sent 7 = Some (55, (1, [2; 3])) /\
  exists m o', _mtlk_txmm_on_cfm demo_frees demo_sent 100 [9] 0 = Some (MTLK_ERR_OK, o') /\ tx_in_use o' m = false.
Proof.
  split; [vm_compute; reflexivity|].
  destruct demo_txmm_ok as [Hok Hn].
  pose proof (txmm_laws (Msg := Z) (Clb := Z) demo_get demo_put demo_enc demo_dec 0 0 demo_dec_enc) as laws.
  assert (TxmmInst.tx_ok demo_sent) as Hs.
  { apply (tx_send_ok (tx_ok := TxmmInst.tx_ok)); [by apply (tx_get_ok (tx_ok := TxmmInst.tx_ok))|vm_compute; reflexivity|vm_compute; reflexivity]. }
  assert (confirmed_block demo_sent 100 = Some 0%nat) as Hc by (vm_compute; reflexivity).
  destruct (txmm_confirmation_releases demo_get demo_put demo_frees demo_enc demo_dec 0 0 demo_clb_frees demo_sent 100 0%nat [9] Hs Hc) as (m & c & d & o' & _ & H1 & _ & H2 & _).
  exists m, o'. split; [exact H1|exact H2].
Defined.

(** A layout of the UMI structures. *)
Definition umi_enc (p : addba_payload) : mtlk_txmm_data_t :=
  match p with
  | POpenAggr (OpenAggrReq a b c d e f g h i) => Data UM_MAN_OPEN_AGGR_REQ [a; b; c; d; e; f; g; h; i] 0
  | PCloseAggr (CloseAggrReq a b c d) => Data UM_MAN_CLOSE_AGGR_REQ [a; b; c; d] 0
  | PAddbaReq (AddbaReqSend a b c d e f) => Data UM_MAN_ADDBA_REQ_TX_REQ [a; b; c; d; e; f] 0
  | PAddbaRes (AddbaResSend a b c d e f g) => Data UM_MAN_ADDBA_RES_TX_REQ [a; b; c; d; e; f; g] 0
  | PDelbaReq (DelbaReqSend a b c d e) => Data UM_MAN_DELBA_REQ [a; b; c; d; e] 0
  end.
Definition umi_dec (id : Z) (l : list Z) : addba_payload :=
  match l with
  | [a; b; c; d; e; f; g; h; i] => POpenAggr (OpenAggrReq a b c d e f g h i)
  | [a; b; c; d; e; f; g] => PAddbaRes (AddbaResSend a b c d e f g)
  | [a; b; c; d; e; f] => PAddbaReq (AddbaReqSend a b c d e f)
  | [a; b; c; d; e] => PDelbaReq (DelbaReqSend a b c d e)
  | [a; b; c; d] => PCloseAggr (CloseAggrReq a b c d)
  | _ => PCloseAggr (CloseAggrReq 0 0 0 0)
  end.
Lemma umi_dec_enc d : umi_dec (data_id (umi_enc d)) (data_payload (umi_enc d)) = d.
Proof. by destruct d as [[]|[]|[]|[]|[]]. Qed.

Abbreviation umi_base := (mtlk_txmm_base_t (Msg := addba_msg) (Clb := addba_clb) (Slot := Z) (Pool := Z)).
#[local] Instance umi_ops : TxmmOps umi_base addba_msg addba_clb addba_payload :=
  txmm_ops demo_get demo_put umi_enc umi_dec 0 0.
Definition umi_clock (n : nat) : Z := Z.of_nat n * 5000.
Definition umi_rx (n : nat) (tid : Z) : Z := 0.
Definition umi_cfg : list mtlk_addba_tid_cfg_t := replicate 8 (TidCfg true true 10 12000 3 10 0 32).
Definition umi_txmm : umi_base := mtlk_txmm_start (mtlk_txmm_init 4 16 100 (fun _ => [0; 0; 0; 0]%nat) (fun _ => [])).
Definition umi_boot : world umi_base := addba_boot (mtlk_reflim_init 2) (mtlk_reflim_init 2) umi_cfg umi_txmm.
Abbreviation umi_step := (joint_step demo_get demo_put umi_enc umi_dec 0 0 umi_clock umi_rx).
Definition umi_call (c : addba_call) : world umi_base -> world umi_base := exec (run_call umi_clock umi_rx c).

(** A connected peer asks for an aggregation of TID 0; the firmware confirms the
    ADDBA request, sent in slot 100, and the peer accepts, so that the OPEN
    request is in slot 101. *)
Definition umi_asked : world umi_base := umi_call (CStartNegotiation 0 false) (umi_call (CPeerStart 0xAA true) umi_boot).
Abbreviation umi_confirm := (_mtlk_txmm_on_cfm frees (w_txmm umi_asked) 100 [0xAA; 0; 32; 0; 0; 0] 0).
Definition umi_aq : UMI_ADDBA_REQ_SEND := AddbaReqSend 0xAA 0 32 0 0 0.
Definition umi_confirmed : world umi_base :=
  set_txmm (match umi_confirm with Some (_, o) => o | None => w_txmm umi_asked end)
    (exec (run_clb umi_clock ClbAddbaReq (PAddbaReq umi_aq) true) umi_asked).
Definition umi_world : world umi_base := umi_call (CAddbaResRx MTLK_ADDBA_RES_CODE_SUCCESS 0 32 0) umi_confirmed.

Lemma umi_confirm_step : umi_step umi_asked umi_confirmed.
Proof.
  destruct (tb_blocks (w_txmm umi_asked) !! 0%nat) as [k|] eqn:Hk; [|by vm_compute in Hk].
  destruct umi_confirm as [[r o']|] eqn:Hc; [|by vm_compute in Hc]. unfold umi_confirmed. rewrite Hc.
  assert (confirmed_payload umi_dec (w_txmm umi_asked) k [0xAA; 0; 32; 0; 0; 0] = PAddbaReq umi_aq) as Hp
    by (vm_compute in Hk; injection Hk as <-; vm_compute; reflexivity).
  rewrite <-Hp. apply (joint_confirm demo_get demo_put umi_enc umi_dec 0 0 umi_clock umi_rx 100 0%nat k (TxMsg 0) ClbAddbaReq [0xAA; 0; 32; 0; 0; 0] r o' umi_asked).
  - by vm_compute.
  - exact Hk.
  - vm_compute in Hk. by injection Hk as <-.
  - vm_compute in Hk. by injection Hk as <-.
  - exact Hc.
  - exact valid_tid_0.
  - rewrite Hp. clear Hc Hp. vm_compute in Hk. by injection Hk as <-.
  - rewrite Hp. clear. intros [_ H]. by vm_compute in H.
Qed.

Lemma umi_reachable : joint_reachable demo_get demo_put umi_enc umi_dec 0 0 umi_clock umi_rx 2 2 4 16 0 0 umi_world.
Proof.
  exists umi_cfg, 100, (fun _ => [0; 0; 0; 0]%nat), (fun _ => []). split; [lia|split; [done|]].
  eapply ct_own; [|by apply joint_call]. eapply ct_own; [|apply umi_confirm_step].
  eapply ct_own; [|by apply joint_call]. eapply ct_own; [|by apply joint_call]. apply ct_start.
Qed.

Lemma addba_over_txmm_witness : rl_cur (w_aggr_reflim umi_world) = aggr_count umi_world + 0 /\
  exists b v, tb_msgs (w_txmm umi_world) !! TxMsg 0 = Some (b, v).
Proof.
  destruct (addba_over_txmm demo_get demo_put umi_enc umi_dec 0 0 umi_clock umi_rx 2 2 4 16 0 0 umi_world 0
    umi_dec_enc ltac:(lia) ltac:(lia) valid_tid_0 umi_reachable) as ((H1 & _) & _ & _ & H4).
  split; [exact H1|]. destruct H4 as (b & v & _ & _ & H & _); [vm_compute; reflexivity|]. by exists b, v.
Defined.
