(* ===== verification/Replay.v ===== *)
(** * Replay: replay detection on the receive path (wireless/driver/linux/core.c)

    [_detect_replay] compares the 48-bit packet number of a protected frame
    with the last one accepted on its queue, byte string against byte string;
    [mtlk_detect_replay_or_sendup] delivers the frame or drops it with all its
    sub-frames. *)
From S2P Require Import Prelude.
From Stdlib Require Import Sorted.

Definition IW_ENCODE_ALG_TKIP : Z := 2.
Definition IW_ENCODE_ALG_CCMP : Z := 3.
Definition UMI_NOTIFICATION_MIC_FAILURE : Z := 1.

(** What the receive path reads of a network buffer and its private area. *)
Record mtlk_nbuf_t := Nbuf {
  nb_id : Z;
  nb_src_cipher : option Z;        (** the source station, if known, and its cipher *)
  nb_directed : bool;              (** [MTLK_NBUFF_DIRECTED] *)
  nb_mcast_src : bool;             (** a multicast or broadcast source address *)
  nb_rsc_buf : list Z;
  nb_rcn_bits : Z;
  nb_sub_frames : list Z;          (** the rest of an A-MSDU *)
}.

Inductive rx_ev :=
| EvSendUp (id : Z) | EvFree (id : Z) | EvReplayed (mcast : bool) | EvMicFailure (pairwise : bool).

(** [memcmp] on byte strings of equal length. *)
Fixpoint memcmp (a b : list Z) : Z :=
  match a, b with
  | x :: a, y :: b => if x =? y then memcmp a b else x - y
  | _, _ => 0
  end.

(** The value of a big-endian byte string, and the string of a value. *)
Definition be_value (l : list Z) : Z := foldl (fun v b => v * 256 + b) 0 l.
Fixpoint be_bytes (n : nat) (v : Z) : list Z :=
  match n with
  | O => []
  | S n => be_bytes n (v / 256) ++ [v `mod` 256]
  end.

Definition get_cipher (group_cipher : Z) (nb : mtlk_nbuf_t) : Z :=
  if nb_directed nb then default 0 (nb_src_cipher nb) else group_cipher.

Definition rsc_byte (nb : mtlk_nbuf_t) (i : nat) : Z := nb_rsc_buf nb !!! i.

Definition parse_and_get_replay_counter (nb : mtlk_nbuf_t) (cipher : Z) : Z * list Z :=
  if negb (cipher =? IW_ENCODE_ALG_TKIP) && negb (cipher =? IW_ENCODE_ALG_CCMP) then (1, [])
  else (0, [rsc_byte nb 7; rsc_byte nb 6; rsc_byte nb 5; rsc_byte nb 4] ++
           if cipher =? IW_ENCODE_ALG_TKIP then [rsc_byte nb 0; rsc_byte nb 2]
           else [rsc_byte nb 1; rsc_byte nb 0]).

(** The packet number of the last fragment: 64-bit addition on the big-endian
    value, of which the low six bytes are kept. *)
Definition add_fragments (rc : list Z) (nfrags : Z) : list Z :=
  if nfrags =? 0 then rc else be_bytes 6 (be_value rc + nfrags).

(** Result, new [last_rc] and what happened besides. *)
Definition _detect_replay (group_cipher : Z) (nb : mtlk_nbuf_t) (last_rc : list Z) : Z * list Z * list rx_ev :=
  let cipher := get_cipher group_cipher nb in
  if negb (cipher =? IW_ENCODE_ALG_TKIP) && negb (cipher =? IW_ENCODE_ALG_CCMP) then (0, last_rc, [])
  else
    let rc := (parse_and_get_replay_counter nb cipher).2 in
    if memcmp rc last_rc <=? 0 then (1, last_rc, [EvReplayed (nb_mcast_src nb)])
    else if negb (Z.land (nb_rcn_bits nb) UMI_NOTIFICATION_MIC_FAILURE =? 0) then
      (2, last_rc, if cipher =? IW_ENCODE_ALG_TKIP then [EvMicFailure (nb_directed nb)] else [])
    else (0, add_fragments rc (Z.shiftr (Z.land (nb_rcn_bits nb) 0xf0) 4), []).

Definition mtlk_df_nbuf_free_sub_frames (nb : mtlk_nbuf_t) : list rx_ev :=
  EvFree <$> (nb_id nb :: nb_sub_frames nb).
Definition send_up_sub_frames (nb : mtlk_nbuf_t) : list rx_ev :=
  EvSendUp <$> (nb_id nb :: nb_sub_frames nb).

Definition mtlk_detect_replay_or_sendup (group_cipher : Z) (nb : mtlk_nbuf_t) (rsn : list Z)
  : Z * list Z * list rx_ev :=
  let '(res, rsn, evs) := match nb_src_cipher nb with
                          | Some _ => _detect_replay group_cipher nb rsn
                          | None => (0, rsn, [])
                          end in
  (res, rsn, evs ++ if negb (res =? 0) then mtlk_df_nbuf_free_sub_frames nb else send_up_sub_frames nb).

(** ** Byte strings and numbers *)

Definition is_byte (b : Z) : Prop := 0 <= b < 256.

Lemma be_value_app a b : be_value (a ++ b) = be_value a * 256 ^ Z.of_nat (length b) + be_value b.
Proof.
  unfold be_value. rewrite foldl_app. generalize (foldl (fun v b => v * 256 + b) 0 a) as v.
  induction b as [|x b IH] using rev_ind; intros v; simpl; [lia|].
  rewrite !foldl_snoc, IH. rewrite length_app, Nat2Z.inj_add, Z.pow_add_r by lia. simpl. lia.
Qed.

Lemma be_value_cons x l : be_value (x :: l) = x * 256 ^ Z.of_nat (length l) + be_value l.
Proof. change (x :: l) with ([x] ++ l). by rewrite be_value_app. Qed.

Lemma be_value_range l : Forall is_byte l -> 0 <= be_value l < 256 ^ Z.of_nat (length l).
Proof.
  induction 1 as [|x l Hx Hl IH]; [done|]. rewrite be_value_cons. unfold is_byte in Hx.
  simpl length. rewrite Nat2Z.inj_succ, Z.pow_succ_r by lia. nia.
Qed.

Lemma be_value_bytes n v : 0 <= v -> be_value (be_bytes n v) = v `mod` 256 ^ Z.of_nat n.
Proof.
  revert v. induction n as [|n IH]; intros v Hv; cbn [be_bytes]; [symmetry; apply Z.mod_1_r|].
  rewrite be_value_app, IH by (apply Z.div_pos; lia).
  change (be_value [v `mod` 256]) with (v `mod` 256). change (256 ^ Z.of_nat (length [v `mod` 256])) with 256.
  rewrite Nat2Z.inj_succ, Z.pow_succ_r by lia.
  rewrite Z.rem_mul_r by (try apply Z.pow_pos_nonneg; lia). lia.
Qed.

Lemma be_bytes_length n v : length (be_bytes n v) = n.
Proof. revert v. induction n as [|n IH]; intros v; simpl; [done|]. rewrite length_app, IH. simpl. lia. Qed.

Lemma be_bytes_byte n v : Forall is_byte (be_bytes n v).
Proof.
  revert v. induction n as [|n IH]; intros v; simpl; [done|]. apply Forall_app. split; [done|].
  constructor; [|done]. apply Z.mod_pos_bound. lia.
Qed.

(** Comparing the strings compares the numbers. *)
Lemma memcmp_value a b : Forall is_byte a -> Forall is_byte b -> length a = length b ->
  (memcmp a b <= 0 <-> be_value a <= be_value b).
Proof.
  intros Ha. revert b. induction Ha as [|x a Hx Ha IH]; intros b Hb Hlen; destruct b as [|y b]; try done.
  inversion Hb as [|? ? Hy Hb']; subst. injection Hlen as Hlen. simpl memcmp. rewrite !be_value_cons, Hlen.
  pose proof (be_value_range _ Ha). pose proof (be_value_range _ Hb'). rewrite Hlen in *. unfold is_byte in *.
  case_match; zbool; [subst; rewrite IH by done; lia|]. nia.
Qed.

(** ** What replay detection guarantees *)

Definition frame_cipher (group_cipher : Z) (nb : mtlk_nbuf_t) : bool :=
  (get_cipher group_cipher nb =? IW_ENCODE_ALG_TKIP) || (get_cipher group_cipher nb =? IW_ENCODE_ALG_CCMP).
(** The packet number the frame carries. *)
Definition frame_pn (group_cipher : Z) (nb : mtlk_nbuf_t) : Z :=
  be_value (parse_and_get_replay_counter nb (get_cipher group_cipher nb)).2.
Definition frame_nfrags (nb : mtlk_nbuf_t) : Z := Z.shiftr (Z.land (nb_rcn_bits nb) 0xf0) 4.
Definition frame_wf (nb : mtlk_nbuf_t) : Prop :=
  Forall is_byte (nb_rsc_buf nb) /\ length (nb_rsc_buf nb) = 8%nat /\ is_byte (nb_rcn_bits nb).
Definition rsc_wf (rsc : list Z) : Prop := Forall is_byte rsc /\ length rsc = 6%nat.

Lemma frame_nfrags_range nb : frame_wf nb -> 0 <= frame_nfrags nb < 16.
Proof.
  intros (_ & _ & Hb). unfold frame_nfrags, is_byte in *.
  rewrite Z.shiftr_land. change (Z.shiftr 0xf0 4) with (Z.ones 4). rewrite Z.land_ones by lia.
  apply Z.mod_pos_bound. lia.
Qed.

Lemma rsc_byte_byte nb i : frame_wf nb -> (i < 8)%nat -> is_byte (rsc_byte nb i).
Proof.
  intros (Hf & Hl & _) Hi. unfold rsc_byte. rewrite Forall_lookup in Hf. apply (Hf i).
  apply list_lookup_lookup_total_lt. lia.
Qed.

Lemma parse_wf nb c : frame_wf nb -> (c =? IW_ENCODE_ALG_TKIP) || (c =? IW_ENCODE_ALG_CCMP) = true ->
  rsc_wf (parse_and_get_replay_counter nb c).2.
Proof.
  intros Hw Hc. unfold parse_and_get_replay_counter.
  destruct (c =? IW_ENCODE_ALG_TKIP), (c =? IW_ENCODE_ALG_CCMP); try done; simpl;
    (split; [|done]); repeat constructor; apply rsc_byte_byte; try done; lia.
Qed.

Lemma add_fragments_wf rc n : rsc_wf rc -> rsc_wf (add_fragments rc n).
Proof. intros Hw. unfold add_fragments. case_match; [done|]. split; [apply be_bytes_byte|apply be_bytes_length]. Qed.

Lemma add_fragments_value rc n : rsc_wf rc -> 0 <= n ->
  be_value (add_fragments rc n) = (be_value rc + n) `mod` 2 ^ 48.
Proof.
  intros [Hb Hl] Hn. pose proof (be_value_range _ Hb) as Hr. rewrite Hl in Hr. unfold add_fragments.
  case_match; zbool; [subst; rewrite Z.add_0_r, Z.mod_small; [done|lia]|].
  rewrite be_value_bytes by lia. done.
Qed.

Lemma send_up_elem nb id : EvSendUp id ∈ send_up_sub_frames nb <-> id ∈ nb_id nb :: nb_sub_frames nb.
Proof. unfold send_up_sub_frames. rewrite list_elem_of_fmap. naive_solver. Qed.
Lemma send_up_no_free nb id : EvFree id ∈ send_up_sub_frames nb <-> False.
Proof. unfold send_up_sub_frames. rewrite list_elem_of_fmap. naive_solver. Qed.
Lemma free_elem nb id : EvFree id ∈ mtlk_df_nbuf_free_sub_frames nb <-> id ∈ nb_id nb :: nb_sub_frames nb.
Proof. unfold mtlk_df_nbuf_free_sub_frames. rewrite list_elem_of_fmap. naive_solver. Qed.
Lemma free_no_send_up nb id : EvSendUp id ∈ mtlk_df_nbuf_free_sub_frames nb <-> False.
Proof. unfold mtlk_df_nbuf_free_sub_frames. rewrite list_elem_of_fmap. naive_solver. Qed.

(** Replay detection in terms of numbers: a protected frame is delivered
    exactly when its 48-bit packet number is above the last one and it has no
    MIC failure, and the number remembered then is that of its last fragment
    (modulo 2^48); otherwise the frame and its sub-frames are freed and the
    counter stays. *)
Theorem replay_detect_spec group_cipher nb last : frame_wf nb -> rsc_wf last ->
  is_Some (nb_src_cipher nb) -> frame_cipher group_cipher nb = true ->
  let pn := frame_pn group_cipher nb in
  let accepted := (be_value last <? pn) && (Z.land (nb_rcn_bits nb) UMI_NOTIFICATION_MIC_FAILURE =? 0) in
  let '(res, last', evs) := mtlk_detect_replay_or_sendup group_cipher nb last in
  rsc_wf last' /\ (res = 0 <-> accepted = true) /\
  be_value last' = (if accepted then (pn + frame_nfrags nb) `mod` 2 ^ 48 else be_value last) /\
  (forall id, EvSendUp id ∈ evs <-> accepted = true /\ id ∈ nb_id nb :: nb_sub_frames nb) /\
  (forall id, EvFree id ∈ evs <-> accepted = false /\ id ∈ nb_id nb :: nb_sub_frames nb).
Proof.
  intros Hf Hl [c Hc] Hci pn accepted. unfold mtlk_detect_replay_or_sendup. rewrite Hc.
  unfold _detect_replay. unfold frame_cipher in Hci. rewrite <-negb_orb, Hci. cbn [negb].
  pose proof (parse_wf nb _ Hf Hci) as Hp. destruct Hl as [Hlb Hll], Hp as [Hpb Hpl] eqn:Ep.
  pose proof (memcmp_value _ _ Hpb Hlb ltac:(congruence)) as Hm. fold (frame_pn group_cipher nb) in Hm. fold pn in Hm.
  unfold accepted. destruct (memcmp _ last <=? 0) eqn:E1; zbool.
  - apply Hm in E1. rewrite (proj2 (Z.ltb_ge _ _)) by done. cbn [andb].
    cbn [Z.eqb negb]. split_and!; try done; intros id.
    + rewrite elem_of_app, free_no_send_up, list_elem_of_singleton. naive_solver.
    + rewrite elem_of_app, free_elem, list_elem_of_singleton. naive_solver.
  - assert (be_value last < pn) as E2 by (destruct (Z.lt_ge_cases (be_value last) pn); [done|apply Hm in H; lia]).
    rewrite (proj2 (Z.ltb_lt _ _)) by done. cbn [andb].
    destruct (Z.land (nb_rcn_bits nb) UMI_NOTIFICATION_MIC_FAILURE =? 0) eqn:E3; cbn [negb].
    + pose proof (frame_nfrags_range nb Hf). cbn [Z.eqb negb]. split_and!; try done.
      * by apply add_fragments_wf.
      * rewrite add_fragments_value; [done|done|fold (frame_nfrags nb); lia].
      * intros id. rewrite elem_of_app, send_up_elem. set_solver.
      * intros id. rewrite elem_of_app, send_up_no_free. set_solver.
    + cbn [Z.eqb negb]. split_and!; try done; intros id; rewrite elem_of_app, ?free_no_send_up, ?free_elem; case_match; set_solver.
Qed.

(** The packet numbers delivered out of a stream of received frames. *)
Fixpoint rx_stream (group_cipher : Z) (last : list Z) (l : list mtlk_nbuf_t) : list Z :=
  match l with
  | [] => []
  | nb :: l =>
      let '(res, last, _) := mtlk_detect_replay_or_sendup group_cipher nb last in
      if res =? 0 then frame_pn group_cipher nb :: rx_stream group_cipher last l
      else rx_stream group_cipher last l
  end.

(** A frame whose packet numbers stay within 48 bits. *)
Definition frame_ok (group_cipher : Z) (nb : mtlk_nbuf_t) : Prop :=
  frame_wf nb /\ is_Some (nb_src_cipher nb) /\ frame_cipher group_cipher nb = true /\
  frame_pn group_cipher nb + frame_nfrags nb < 2 ^ 48.

Lemma detect_value group_cipher nb last : frame_ok group_cipher nb -> rsc_wf last ->
  let r := mtlk_detect_replay_or_sendup group_cipher nb last in
  rsc_wf r.1.2 /\
  (r.1.1 = 0 -> be_value last < frame_pn group_cipher nb /\
     be_value r.1.2 = frame_pn group_cipher nb + frame_nfrags nb) /\
  (r.1.1 <> 0 -> r.1.2 = last) /\
  (be_value last < frame_pn group_cipher nb -> Z.land (nb_rcn_bits nb) UMI_NOTIFICATION_MIC_FAILURE = 0 -> r.1.1 = 0).
Proof.
  intros (Hf & [c Hc] & Hci & Hpn) Hl r. unfold r, mtlk_detect_replay_or_sendup. rewrite Hc.
  unfold _detect_replay. pose proof Hci as Hci'. unfold frame_cipher in Hci'. rewrite <-negb_orb, Hci'. cbn [negb].
  pose proof (parse_wf nb _ Hf Hci') as Hp. destruct Hl as [Hlb Hll].
  pose proof (memcmp_value _ _ (proj1 Hp) Hlb ltac:(rewrite (proj2 Hp); done)) as Hm.
  pose proof (frame_nfrags_range nb Hf) as Hn. pose proof (be_value_range _ (proj1 Hp)) as Hpr.
  fold (frame_pn group_cipher nb) in Hm, Hpr.
  destruct (memcmp _ last <=? 0) eqn:E1; zbool; [|destruct (Z.land (nb_rcn_bits nb) UMI_NOTIFICATION_MIC_FAILURE =? 0) eqn:E2].
  - apply Hm in E1. cbn [fst snd]. split; [done|split; [done|split; [done|lia]]].
  - cbn [negb fst snd]. split; [by apply add_fragments_wf|split; [|done]]. intros _. rewrite add_fragments_value; [|done|fold (frame_nfrags nb); lia].
    fold (frame_pn group_cipher nb) (frame_nfrags nb). rewrite Z.mod_small by lia. split; [|done].
    destruct (Z.lt_ge_cases (be_value last) (frame_pn group_cipher nb)) as [?|Hge]; [done|apply Hm in Hge; lia].
  - zbool. cbn [negb fst snd]. split; [done|split; [done|split; [done|lia]]].
Qed.

(** The identities a call sends up: all of the frame's, or none. *)
Definition sends (evs : list rx_ev) : list Z := omap (fun e => match e with EvSendUp id => Some id | _ => None end) evs.
Lemma detect_sends group_cipher nb last :
  let r := mtlk_detect_replay_or_sendup group_cipher nb last in
  sends r.2 = if r.1.1 =? 0 then nb_id nb :: nb_sub_frames nb else [].
Proof.
  assert (forall l, sends (EvSendUp <$> l) = l) as H1 by (intros l; induction l as [|x l IH]; [done|]; cbn; f_equal; apply IH).
  assert (forall l, sends (EvFree <$> l) = []) as H2 by (intros l; induction l as [|x l IH]; [done|]; apply IH).
  assert (forall a b, sends (a ++ b) = sends a ++ sends b) as H3 by (intros; apply omap_app).
  cbv zeta. unfold mtlk_detect_replay_or_sendup, _detect_replay, send_up_sub_frames, mtlk_df_nbuf_free_sub_frames.
  destruct (nb_src_cipher nb); [|apply H1].
  destruct (negb (get_cipher group_cipher nb =? IW_ENCODE_ALG_TKIP) && _); [apply H1|].
  destruct (memcmp _ last <=? 0); [apply H2|].
  destruct (negb (Z.land _ _ =? 0)); [|apply H1]. cbn [negb Z.eqb fst snd]. rewrite H3, H2. by case_match.
Qed.

(** C5. Replay protection: out of any stream of protected frames on one queue,
    the frames delivered have strictly increasing packet numbers, all above
    the number the queue started from; so no packet number is delivered
    twice, in whatever order frames are repeated or reordered. *)
Theorem replay_protection group_cipher last l : rsc_wf last -> Forall (frame_ok group_cipher) l ->
  StronglySorted Z.lt (rx_stream group_cipher last l) /\
  Forall (fun pn => be_value last < pn) (rx_stream group_cipher last l).
Proof.
  intros Hl Hf. revert last Hl. induction Hf as [|nb l Hnb Hf IH]; intros last Hl; [by split; constructor|].
  simpl rx_stream. destruct (detect_value group_cipher nb last Hnb Hl) as (H1 & H2 & H3 & _). pose proof (frame_nfrags_range nb (proj1 Hnb)).
  destruct (mtlk_detect_replay_or_sendup group_cipher nb last) as [[res last'] evs]; cbn [fst snd] in *.
  destruct (IH last' H1) as [I1 I2]. destruct (res =? 0) eqn:E; zbool.
  - destruct (H2 E) as [H4 H5]. split; (constructor; [done|]).
    + eapply Forall_impl; [exact I2|]. simpl. lia.
    + eapply Forall_impl; [exact I2|]. simpl. lia.
  - rewrite <-(H3 E). done.
Qed.

(** ** Examples *)

Lemma rsc_wf_zero x : is_byte x -> rsc_wf [0; 0; 0; 0; 0; x].
Proof. intros. split; [|done]. repeat (apply Forall_cons; split; [unfold is_byte in *; lia|]). by apply Forall_nil. Qed.

Definition demo_frame (pn : Z) (bits : Z) : mtlk_nbuf_t :=
  Nbuf pn (Some IW_ENCODE_ALG_CCMP) true false [pn; 0; 0; 0; 0; 0; 0; 0] bits [].

Lemma demo_frame_ok pn bits : 0 <= pn < 256 -> 0 <= bits < 256 -> frame_ok IW_ENCODE_ALG_CCMP (demo_frame pn bits).
Proof.
  intros Hp Hb. assert (frame_wf (demo_frame pn bits)) as Hw
    by (split; [repeat (apply Forall_cons; split; [unfold is_byte; lia|]); by apply Forall_nil|done]).
  split; [done|split; [by eexists|split; [done|]]]. pose proof (frame_nfrags_range _ Hw).
  change (frame_pn IW_ENCODE_ALG_CCMP (demo_frame pn bits)) with pn. lia.
Qed.

Lemma replay_detect_spec_witness :
  let '(res, last, evs) := mtlk_detect_replay_or_sendup 0 (demo_frame 9 0) [0; 0; 0; 0; 0; 8] in
  be_value last = 9 /\ EvSendUp 9 ∈ evs.
Proof.
  destruct (replay_detect_spec 0 (demo_frame 9 0) [0; 0; 0; 0; 0; 8]
    (proj1 (demo_frame_ok 9 0 ltac:(lia) ltac:(lia)))) as (_ & _ & H1 & H2 & _);
    [by apply rsc_wf_zero|by eexists|done|].
  split; [exact H1|]. apply H2. split; [vm_compute; reflexivity|left].
Defined.

Lemma replay_protection_witness :
  rx_stream IW_ENCODE_ALG_CCMP [0; 0; 0; 0; 0; 0]
    [demo_frame 5 0; demo_frame 5 0; demo_frame 7 0x20; demo_frame 9 0; demo_frame 6 0; demo_frame 10 0] = [5; 7; 10] /\
  StronglySorted Z.lt [5; 7; 10].
Proof.
  split; [vm_compute; reflexivity|].
  refine (proj1 (replay_protection IW_ENCODE_ALG_CCMP [0; 0; 0; 0; 0; 0]
    [demo_frame 5 0; demo_frame 5 0; demo_frame 7 0x20; demo_frame 9 0; demo_frame 6 0; demo_frame 10 0] _ _)).
  - by apply rsc_wf_zero.
  - repeat (apply Forall_cons; split; [apply demo_frame_ok; lia|]). by apply Forall_nil.
Defined.
