(* ===== verification/Rod.v ===== *)
(** * Rod: the reordering queue of one receive TID (wireless/driver/shared/rod.c)

    The queue with its 64 slots, the statistics objects it opens, and a log of
    what it did with packets. A packet handed to replay detection
    ([mtlk_rod_detect_replay_or_sendup], a wrapper of Replay's
    [mtlk_detect_replay_or_sendup]) is logged with what that call did. The
    queue's lock is not modelled: each function here runs under it. A slot
    index outside the 64-entry array, a division by a zero window and a use of
    a deleted statistics object are logged as faults. *)
From S2P Require Import Prelude Replay.

Definition SEQUENCE_NUMBER_LIMIT : Z := 0x1000.
Definition MAX_REORD_WINDOW : Z := 64.
Definition ROD_QUEUE_FLUSH_TIMEOUT_MS : Z := 1000.

(** Unsigned arithmetic: the queue's head is a [uint32]. *)
Definition SEQ_DISTANCE (seq1 seq2 : Z) : Z :=
  u32 (seq2 - seq1 + SEQUENCE_NUMBER_LIMIT) `mod` SEQUENCE_NUMBER_LIMIT.

Inductive rod_info_cnt_id_e := ROD_CNT_TOO_OLD | ROD_CNT_DUPLICATE.

Record reordering_stats := RStats {
  too_old : Z; duplicate : Z; queued : Z; overflows : Z; lost : Z
}.

Record reordering_queue := Rq {
  vap_handle : Z;
  used : Z;
  count : Z;
  head : Z;
  window_size : Z;
  last_sent : Z;
  nbuf : list (option mtlk_nbuf_t);
  last_rx_time : Z;
  stats : reordering_stats;
  rsc : list Z;
  wss : option Z;
}.

Inductive rod_fault := FaultSlot | FaultWss.
Inductive rod_ev :=
| RodUp (nb : mtlk_nbuf_t) (evs : list rx_ev)
| RodFree (nb : mtlk_nbuf_t) (evs : list rx_ev)
| RodCnt (id : rod_info_cnt_id_e)
| RodFault (f : rod_fault).

(** The queue, the statistics objects in existence and the log. *)
Record rod := Rod { q : reordering_queue; wss_live : list Z; wss_next : Z; log : list rod_ev }.

Definition emit (e : rod_ev) (w : rod) : rod := Rod (q w) (wss_live w) (wss_next w) (log w ++ [e]).
Definition upd (f : reordering_queue -> reordering_queue) (w : rod) : rod :=
  Rod (f (q w)) (wss_live w) (wss_next w) (log w).

Definition set_slot (i : Z) (b : option mtlk_nbuf_t) (r : reordering_queue) : reordering_queue :=
  Rq (vap_handle r) (used r) (count r) (head r) (window_size r) (last_sent r) (<[Z.to_nat i := b]> (nbuf r))
     (last_rx_time r) (stats r) (rsc r) (wss r).
Definition set_count (c : Z) (r : reordering_queue) : reordering_queue :=
  Rq (vap_handle r) (used r) c (head r) (window_size r) (last_sent r) (nbuf r) (last_rx_time r) (stats r) (rsc r) (wss r).
Definition set_head (h : Z) (r : reordering_queue) : reordering_queue :=
  Rq (vap_handle r) (used r) (count r) h (window_size r) (last_sent r) (nbuf r) (last_rx_time r) (stats r) (rsc r) (wss r).
Definition set_last_sent (t : Z) (r : reordering_queue) : reordering_queue :=
  Rq (vap_handle r) (used r) (count r) (head r) (window_size r) t (nbuf r) (last_rx_time r) (stats r) (rsc r) (wss r).
Definition set_stats (f : reordering_stats -> reordering_stats) (r : reordering_queue) : reordering_queue :=
  Rq (vap_handle r) (used r) (count r) (head r) (window_size r) (last_sent r) (nbuf r) (last_rx_time r) (f (stats r))
     (rsc r) (wss r).
Definition set_rsc (c : list Z) (r : reordering_queue) : reordering_queue :=
  Rq (vap_handle r) (used r) (count r) (head r) (window_size r) (last_sent r) (nbuf r) (last_rx_time r) (stats r) c (wss r).
Definition set_used (u : Z) (r : reordering_queue) : reordering_queue :=
  Rq (vap_handle r) u (count r) (head r) (window_size r) (last_sent r) (nbuf r) (last_rx_time r) (stats r) (rsc r) (wss r).
Definition set_wss (x : option Z) (r : reordering_queue) : reordering_queue :=
  Rq (vap_handle r) (used r) (count r) (head r) (window_size r) (last_sent r) (nbuf r) (last_rx_time r) (stats r) (rsc r) x.

Definition inc_too_old (s : reordering_stats) : reordering_stats :=
  RStats (u32 (too_old s + 1)) (duplicate s) (queued s) (overflows s) (lost s).
Definition inc_duplicate (s : reordering_stats) : reordering_stats :=
  RStats (too_old s) (u32 (duplicate s + 1)) (queued s) (overflows s) (lost s).
Definition inc_queued (s : reordering_stats) : reordering_stats :=
  RStats (too_old s) (duplicate s) (u32 (queued s + 1)) (overflows s) (lost s).
Definition inc_overflows (s : reordering_stats) : reordering_stats :=
  RStats (too_old s) (duplicate s) (queued s) (u32 (overflows s + 1)) (lost s).
Definition inc_lost (s : reordering_stats) : reordering_stats :=
  RStats (too_old s) (duplicate s) (queued s) (overflows s) (u32 (lost s + 1)).

(** A slot index as the code computes and uses it. *)
Definition slot_of (r : reordering_queue) (seq : Z) : Z := seq `mod` window_size r.
Definition slot_at (r : reordering_queue) (i : Z) : option mtlk_nbuf_t := nbuf r !!! Z.to_nat i.
Definition touch (i : Z) (w : rod) : rod :=
  if (0 <? window_size (q w)) && (i <? MAX_REORD_WINDOW) then w else emit (RodFault FaultSlot) w.

Section operations.
(** The group cipher of the core behind a VAP, the kernel's [time_after] and
    conversion of milliseconds, and the clock during the call. *)
Context (group_cipher : Z -> Z) (time_after : Z -> Z -> bool) (ms_to_timestamp timestamp_to_ms : Z -> Z) (now : Z).

Definition mtlk_rod_detect_replay_or_sendup (nb : mtlk_nbuf_t) (w : rod) : rod :=
  let '(_, rsc', evs) := mtlk_detect_replay_or_sendup (group_cipher (vap_handle (q w))) nb (rsc (q w)) in
  emit (RodUp nb evs) (upd (set_rsc rsc') w).

Definition rod_free (nb : mtlk_nbuf_t) (w : rod) : rod := emit (RodFree nb (mtlk_df_nbuf_free_sub_frames nb)) w.

Definition retire_slot (slot : Z) (w : rod) : rod :=
  let slot := slot_of (q w) slot in
  let w := touch slot w in
  match slot_at (q w) slot with
  | Some nb =>
      let w := mtlk_rod_detect_replay_or_sendup nb w in
      upd (fun r => set_count (u32 (count r - 1)) (set_last_sent now (set_slot slot None r))) w
  | None => upd (set_stats inc_lost) w
  end.

(** One turn of the loop of [rod_move_window]. *)
Definition move_head (w : rod) : rod :=
  let w := retire_slot (head (q w)) w in upd (fun r => set_head (u32 (head r + 1)) r) w.
Definition wrap_head (w : rod) : rod := upd (fun r => set_head (head r `mod` SEQUENCE_NUMBER_LIMIT) r) w.
Definition rod_move_window (n : Z) (w : rod) : rod := wrap_head (Nat.iter (Z.to_nat n) move_head w).

Fixpoint flush_loop (fuel : nat) (w : rod) : rod :=
  match fuel with
  | O => w
  | S fuel => if count (q w) =? 0 then w else flush_loop fuel (rod_move_window 1 w)
  end.
Definition mtlk_flush_rod_queue (w : rod) : rod := flush_loop (Z.to_nat (2 * window_size (q w))) w.

Definition mtlk_handle_rod_queue_timer (w : rod) : rod :=
  if used (q w) =? 1 then
    if negb (count (q w) =? 0) && time_after now (last_sent (q w) + ms_to_timestamp ROD_QUEUE_FLUSH_TIMEOUT_MS)
    then mtlk_flush_rod_queue w else w
  else w.

(** The statistics objects: creating one may fail for want of memory. *)
Definition wss_create (created : bool) (w : rod) : rod :=
  if created then Rod (set_wss (Some (wss_next w)) (q w)) (wss_next w :: wss_live w) (wss_next w + 1) (log w)
  else upd (set_wss None) w.
Definition wss_delete (w : rod) : rod :=
  match wss (q w) with
  | Some x =>
      if decide (x ∈ wss_live w) then Rod (q w) (filter (fun y => y <> x) (wss_live w)) (wss_next w) (log w)
      else emit (RodFault FaultWss) w
  | None => emit (RodFault FaultWss) w
  end.

(** [created] and [opened] are the outcomes of creating the statistics object
    and of opening its counters. *)
Definition mtlk_create_rod_queue (vap win_size ssn : Z) (created : bool) (opened : Z) (w : rod) : Z * rod :=
  let w := if used (q w) =? 1 then mtlk_flush_rod_queue w else w in
  let w := wss_create created w in
  if negb created then (MTLK_ERR_NO_MEM, w)
  else if negb (opened =? MTLK_ERR_OK) then (opened, wss_delete w)
  else (MTLK_ERR_OK, upd (fun r => Rq vap 1 0 ssn win_size now (nbuf r) (timestamp_to_ms now) (RStats 0 0 0 0 0) (rsc r) (wss r)) w).

Definition mtlk_clear_rod_queue (w : rod) : rod :=
  if negb (used (q w) =? 1) then w
  else wss_delete (upd (set_used 0) (mtlk_flush_rod_queue w)).

(** The loop of [retire_rod_queue] from slot [loc]. *)
Fixpoint retire_loop (fuel : nat) (loc : Z) (w : rod) : rod :=
  match fuel with
  | O => w
  | S fuel =>
      match slot_at (q (touch loc w)) loc with
      | None => touch loc w
      | Some _ =>
          let w := retire_slot loc (touch loc w) in
          let loc := if window_size (q w) <=? loc + 1 then 0 else loc + 1 in
          retire_loop fuel loc (upd (fun r => set_head (u32 (head r + 1)) r) w)
      end
  end.
Definition retire_rod_queue (w : rod) : rod :=
  wrap_head (retire_loop (S (Z.to_nat (window_size (q w)))) (slot_of (q w) (head (q w))) w).

Definition __mtlk_rod_inc_cnt (id : rod_info_cnt_id_e) (w : rod) : rod := emit (RodCnt id) w.

Definition drop_too_old (nb : mtlk_nbuf_t) (w : rod) : rod :=
  rod_free nb (__mtlk_rod_inc_cnt ROD_CNT_TOO_OLD (upd (set_stats inc_too_old) w)).
Definition drop_duplicate (nb : mtlk_nbuf_t) (w : rod) : rod :=
  __mtlk_rod_inc_cnt ROD_CNT_DUPLICATE (upd (set_stats inc_duplicate) (rod_free nb w)).
(** Make room for a sequence number beyond the window. *)
Definition slide_for (diff : Z) (w : rod) : rod :=
  if window_size (q w) <=? diff then
    rod_move_window (diff - window_size (q w) + 1) (upd (set_stats inc_overflows) w)
  else w.
Definition insert_slot (loc : Z) (nb : mtlk_nbuf_t) (w : rod) : rod :=
  upd (fun r => set_stats inc_queued (set_count (u32 (count r + 1)) (set_slot loc (Some nb) r))) w.

Definition mtlk_reorder_packet (seq : Z) (nb : mtlk_nbuf_t) (w : rod) : bool * rod :=
  if used (q w) =? 0 then (false, mtlk_rod_detect_replay_or_sendup nb w)
  else
    let diff := SEQ_DISTANCE (head (q w)) seq in
    if SEQUENCE_NUMBER_LIMIT / 2 <? diff then (true, drop_too_old nb w)
    else
      let w := slide_for diff w in
      let loc := slot_of (q w) seq in
      let w := touch loc w in
      match slot_at (q w) loc with
      | None => (true, retire_rod_queue (insert_slot loc nb w))
      | Some _ => (true, drop_duplicate nb w)
      end.

Definition mtlk_rod_process_bar (ssn : Z) (w : rod) : Z * rod :=
  if used (q w) =? 0 then (-1, w)
  else
    let diff := SEQ_DISTANCE (head (q w)) ssn in
    if SEQUENCE_NUMBER_LIMIT / 2 <? diff then (0, w)
    else (0, retire_rod_queue (rod_move_window diff w)).

End operations.

Definition mtlk_rod_queue_set_last_rx_time (t : Z) (r : reordering_queue) : reordering_queue :=
  Rq (vap_handle r) (used r) (count r) (head r) (window_size r) (last_sent r) (nbuf r) t (stats r) (rsc r) (wss r).
Definition mtlk_rod_queue_get_last_rx_time (r : reordering_queue) : Z := last_rx_time r.
Definition mtlk_is_used_rod_queue (r : reordering_queue) : Z := used r.
Definition mtlk_get_rod_stats (r : reordering_queue) : option reordering_stats :=
  if used r =? 0 then None else Some (stats r).
Definition mtlk_rod_queue_clear_reply_counter (r : reordering_queue) : reordering_queue :=
  set_rsc (replicate 6 0) r.
(** A station is zeroed when it is allocated. *)
Definition rod_boot : rod :=
  Rod (Rq 0 0 0 0 0 0 (replicate 64 None) 0 (RStats 0 0 0 0 0) (replicate 6 0) None) [] 0 [].
