(* ===== verification/RodInv.v ===== *)
(** * RodInv: the invariant of the reordering queue and what its loops preserve *)
From Stdlib Require Import Permutation.
From S2P Require Import Prelude Replay Rod.

(** Packets held in the window, and packets the queue has parted with. *)
Definition window (r : reordering_queue) : list mtlk_nbuf_t := omap (fun b => b) (nbuf r).
Definition ev_nbuf (e : rod_ev) : option mtlk_nbuf_t :=
  match e with RodUp nb _ | RodFree nb _ => Some nb | _ => None end.
Definition gone (l : list rod_ev) : list mtlk_nbuf_t := omap ev_nbuf l.
Definition is_fault (e : rod_ev) : bool := match e with RodFault _ => true | _ => false end.
Definition faults (l : list rod_ev) : Z := countb is_fault l.

Definition occupied (b : option mtlk_nbuf_t) : bool := match b with Some _ => true | None => false end.

(** The queue in use. *)
Record rq_on (r : reordering_queue) : Prop := {
  on_used : used r = 1;
  on_window : 0 < window_size r <= MAX_REORD_WINDOW;
  on_len : length (nbuf r) = 64%nat;
  on_count : count r = countb occupied (nbuf r);
  on_head : 0 <= head r;
  on_high : forall i, window_size r <= i -> slot_at r i = None;
}.

(** What a stretch of code working on the window leaves alone: the queue's
    identity, the statistics objects, the packets as a whole. *)
Record tame (w w' : rod) : Prop := {
  tame_used : used (q w') = used (q w);
  tame_window : window_size (q w') = window_size (q w);
  tame_vap : vap_handle (q w') = vap_handle (q w);
  tame_wss : wss (q w') = wss (q w);
  tame_live : wss_live w' = wss_live w;
  tame_next : wss_next w' = wss_next w;
  tame_faults : faults (log w') = faults (log w);
  tame_packets : window (q w') ++ gone (log w') ≡ₚ window (q w) ++ gone (log w);
}.

#[export] Instance tame_preorder : PreOrder tame.
Proof.
  split; [by intros w; constructor|].
  intros x y z [] []. constructor; try congruence. etransitivity; eassumption.
Qed.

(** ** Slots *)

Lemma slot_of_range r s : 0 < window_size r <= MAX_REORD_WINDOW -> 0 <= slot_of r s < window_size r.
Proof. intros. apply Z.mod_pos_bound. lia. Qed.

Lemma slot_at_set r i b j : length (nbuf r) = 64%nat -> 0 <= i < 64 -> 0 <= j ->
  slot_at (set_slot i b r) j = if i =? j then b else slot_at r j.
Proof.
  intros Hl Hi Hj. unfold slot_at. cbn [set_slot nbuf]. rewrite !list_lookup_total_alt. case_match; zbool.
  - subst. rewrite list_lookup_insert_eq by lia. done.
  - rewrite list_lookup_insert_ne by lia. done.
Qed.

Lemma slot_at_lookup r i : length (nbuf r) = 64%nat -> 0 <= i < 64 -> nbuf r !! Z.to_nat i = Some (slot_at r i).
Proof. intros Hl Hi. apply list_lookup_lookup_total_lt. lia. Qed.

Lemma touch_id w i : rq_on (q w) -> i < window_size (q w) -> touch i w = w.
Proof.
  intros [] Hi. unfold touch. rewrite (proj2 (Z.ltb_lt _ _)) by lia. rewrite (proj2 (Z.ltb_lt _ _)) by lia. done.
Qed.

Lemma window_take l i nb : l !! i = Some (Some nb) ->
  omap (fun b : option mtlk_nbuf_t => b) l ≡ₚ nb :: omap (fun b => b) (<[i := None]> l).
Proof.
  revert i. induction l as [|b l IH]; intros [|i] H; simplify_eq/=; [done|].
  destruct b as [nb'|]; simpl; rewrite (IH _ H); [apply perm_swap|done].
Qed.

Lemma window_put l i nb : l !! i = Some None ->
  omap (fun b : option mtlk_nbuf_t => b) (<[i := Some nb]> l) ≡ₚ nb :: omap (fun b => b) l.
Proof.
  revert i. induction l as [|b l IH]; intros [|i] H; simplify_eq/=; [done|].
  destruct b as [nb'|]; simpl; rewrite (IH _ H); [apply perm_swap|done].
Qed.

Lemma gone_app l1 l2 : gone (l1 ++ l2) = gone l1 ++ gone l2.
Proof. apply omap_app. Qed.
Lemma faults_app l1 l2 : faults (l1 ++ l2) = faults l1 + faults l2.
Proof. apply countb_app. Qed.

Lemma count_range r : rq_on r -> 0 <= count r <= 64.
Proof. intros []. pose proof (countb_range occupied (nbuf r)). rewrite on_len0 in *. lia. Qed.

Lemma slot_none_insert r i : length (nbuf r) = 64%nat -> 0 <= i < 64 -> slot_at r i = None ->
  <[Z.to_nat i := None]> (nbuf r) = nbuf r.
Proof. intros Hl Hi Hn. apply list_insert_id. rewrite slot_at_lookup by done. by rewrite Hn. Qed.

Section loops.
Context (group_cipher : Z -> Z) (now : Z).

Abbreviation retire := (retire_slot group_cipher now).

(** Retiring a slot empties it and counts what it held. *)
Lemma retire_slot_spec s w : rq_on (q w) ->
  let w' := retire s w in
  rq_on (q w') /\ tame w w' /\ head (q w') = head (q w) /\
  nbuf (q w') = <[Z.to_nat (slot_of (q w) s) := None]> (nbuf (q w)) /\
  count (q w') = count (q w) - Z.b2z (occupied (slot_at (q w) (slot_of (q w) s))).
Proof.
  intros Hon. pose proof (slot_of_range (q w) s (on_window _ Hon)) as Hs. pose proof (on_window _ Hon) as HW.
  unfold MAX_REORD_WINDOW in HW. cbv zeta. unfold retire_slot. rewrite touch_id by (try done; lia).
  set (i := slot_of (q w) s) in *. pose proof (slot_at_lookup (q w) i (on_len _ Hon) ltac:(lia)) as Hi.
  destruct (slot_at (q w) i) as [nb|] eqn:E.
  - unfold mtlk_rod_detect_replay_or_sendup.
    destruct (mtlk_detect_replay_or_sendup _ nb (rsc (q w))) as [[res rsc'] evs].
    pose proof (count_range _ Hon) as Hc. pose proof (on_count _ Hon) as Hcnt.
    pose proof (countb_insert occupied None _ _ _ Hi) as Hci. pose proof (countb_pos occupied _ _ _ Hi eq_refl) as Hp.
    cbn [occupied Z.b2z] in *.
    assert (u32 (count (q w) - 1) = count (q w) - 1) as Hu by (apply u32_small; lia).
    split; [|split; [|by cbn]].
    + destruct Hon. constructor; cbn -[u32 Z.to_nat countb insert]; try done.
      * by rewrite length_insert.
      * rewrite Hu. lia.
      * intros j Hj. specialize (on_high0 j Hj). unfold slot_at in *. cbn -[Z.to_nat] in *.
        rewrite list_lookup_total_insert_ne by lia. done.
    + constructor; cbn -[u32 Z.to_nat countb insert]; try done; [rewrite faults_app; cbn; lia|].
      rewrite gone_app. unfold window. cbn -[Z.to_nat]. rewrite (window_take _ _ _ Hi).
      rewrite app_assoc. rewrite <-Permutation_cons_append. done.
  - cbn [occupied Z.b2z]. split; [by destruct Hon; constructor|split; [by constructor|split; [done|]]].
    cbn -[Z.to_nat]. rewrite (slot_none_insert (q w) i (on_len _ Hon) ltac:(lia) E). split; [done|lia].
Qed.

Lemma retire_slot_at s w j : rq_on (q w) -> 0 <= j ->
  slot_at (q (retire s w)) j = if slot_of (q w) s =? j then None else slot_at (q w) j.
Proof.
  intros Hon Hj. destruct (retire_slot_spec s w Hon) as (_ & _ & _ & Hn & _).
  pose proof (slot_of_range (q w) s (on_window _ Hon)) as Hs. pose proof (on_window _ Hon) as HW.
  unfold MAX_REORD_WINDOW in HW. rewrite <-slot_at_set; [|apply Hon|lia|done].
  unfold slot_at at 1. by rewrite Hn.
Qed.

Lemma set_head_on w h : rq_on (q w) -> 0 <= h -> let w' := upd (fun r => set_head h r) w in rq_on (q w') /\ tame w w'.
Proof. intros [] Hh. split; by constructor. Qed.

Lemma set_head_fn_on w f : rq_on (q w) -> 0 <= f (head (q w)) ->
  let w' := upd (fun r => set_head (f (head r)) r) w in rq_on (q w') /\ tame w w'.
Proof. intros [] Hh. split; by constructor. Qed.

Lemma move_head_spec w : rq_on (q w) ->
  let w' := move_head group_cipher now w in
  rq_on (q w') /\ tame w w' /\ head (q w') = u32 (head (q w) + 1).
Proof.
  intros Hon. destruct (retire_slot_spec (head (q w)) w Hon) as (H1 & H2 & H3 & _).
  destruct (set_head_fn_on (retire (head (q w)) w) (fun h => u32 (h + 1)) H1) as [H4 H5]; [apply u32_range|].
  split; [done|split; [by etransitivity|]]. cbn -[u32]. by rewrite H3.
Qed.

Lemma move_heads_spec n w : rq_on (q w) ->
  let w' := Nat.iter n (move_head group_cipher now) w in rq_on (q w') /\ tame w w'.
Proof.
  intros Hon. induction n as [|n [IH1 IH2]]; [by split|].
  destruct (move_head_spec _ IH1) as (H1 & H2 & _). split; [done|by etransitivity].
Qed.

Lemma wrap_head_spec w : rq_on (q w) ->
  let w' := wrap_head w in rq_on (q w') /\ tame w w' /\ 0 <= head (q w') < 4096.
Proof.
  intros Hon. assert (0 <= head (q w) `mod` SEQUENCE_NUMBER_LIMIT < 4096) as Hm by (apply Z.mod_pos_bound; done).
  destruct (set_head_fn_on w (fun h => h `mod` SEQUENCE_NUMBER_LIMIT) Hon) as [H1 H2]; [lia|].
  split; [done|split; [done|exact Hm]].
Qed.

Lemma rod_move_window_spec n w : rq_on (q w) ->
  let w' := rod_move_window group_cipher now n w in rq_on (q w') /\ tame w w' /\ 0 <= head (q w') < 4096.
Proof.
  intros Hon. destruct (move_heads_spec (Z.to_nat n) w Hon) as [H1 H2].
  destruct (wrap_head_spec _ H1) as (H3 & H4 & H5). split; [done|split; [by etransitivity|done]].
Qed.

Lemma retire_loop_spec fuel loc w : rq_on (q w) -> 0 <= loc < window_size (q w) ->
  let w' := retire_loop group_cipher now fuel loc w in rq_on (q w') /\ tame w w'.
Proof.
  revert loc w. induction fuel as [|fuel IH]; intros loc w Hon Hloc; [by split|]. cbn [retire_loop].
  rewrite touch_id by (try done; lia). destruct (slot_at (q w) loc) as [nb|]; [|by split].
  destruct (retire_slot_spec loc w Hon) as (H1 & H2 & _).
  destruct (set_head_fn_on (retire loc w) (fun h => u32 (h + 1)) H1) as [H4 H5]; [apply u32_range|].
  edestruct IH as [H6 H7]; [exact H4|..|split; [exact H6|]].
  - cbn. rewrite (tame_window _ _ H2). case_match; zbool; lia.
  - etransitivity; [|exact H7]. by etransitivity.
Qed.

Lemma retire_rod_queue_spec w : rq_on (q w) ->
  let w' := retire_rod_queue group_cipher now w in rq_on (q w') /\ tame w w' /\ 0 <= head (q w') < 4096.
Proof.
  intros Hon. destruct (retire_loop_spec (S (Z.to_nat (window_size (q w)))) (slot_of (q w) (head (q w))) w Hon) as [H1 H2];
    [by apply slot_of_range, Hon|].
  destruct (wrap_head_spec _ H1) as (H3 & H4 & H5). split; [done|split; [by etransitivity|done]].
Qed.

(** ** The flush loop comes to an end *)

Abbreviation move1 := (rod_move_window group_cipher now 1).
Abbreviation moves k w := (Nat.iter k (rod_move_window group_cipher now 1) w).

Lemma move1_on w : rq_on (q w) -> rq_on (q (move1 w)).
Proof. intros Hon. by destruct (rod_move_window_spec 1 w Hon) as (H & _). Qed.

Lemma move1_at w j : rq_on (q w) -> 0 <= j ->
  slot_at (q (move1 w)) j = if slot_of (q w) (head (q w)) =? j then None else slot_at (q w) j.
Proof.
  intros Hon Hj. transitivity (slot_at (q (retire (head (q w)) w)) j); [done|]. by apply retire_slot_at.
Qed.

Lemma u32_mod_seq x : u32 x `mod` 4096 = x `mod` 4096.
Proof. unfold u32. apply Z.mod_mod_divide. by exists 1048576. Qed.

Lemma move1_head w : rq_on (q w) -> head (q (move1 w)) = (head (q w) + 1) `mod` 4096.
Proof.
  intros Hon. destruct (move_head_spec w Hon) as (_ & _ & Hh). cbv zeta in Hh.
  transitivity (head (q (move_head group_cipher now w)) `mod` 4096); [done|]. rewrite Hh. apply u32_mod_seq.
Qed.

Lemma moves_spec k w : rq_on (q w) -> rq_on (q (moves k w)) /\ tame w (moves k w).
Proof.
  intros Hon. induction k as [|k [IH1 IH2]]; [by split|]. rewrite Nat.iter_succ.
  destruct (rod_move_window_spec 1 _ IH1) as (H1 & H2 & _). split; [done|by etransitivity].
Qed.

Lemma moves_empty k w j : rq_on (q w) -> 0 <= j -> slot_at (q w) j = None -> slot_at (q (moves k w)) j = None.
Proof.
  intros Hon Hj Hn. induction k as [|k IH]; [done|]. rewrite Nat.iter_succ.
  rewrite move1_at by (try apply moves_spec; done). by case_match.
Qed.

(** Without a wrap of the sequence number, [k] moves empty [k] successive slots. *)
Lemma moves_cover k w : rq_on (q w) -> head (q w) < 4096 -> head (q w) + Z.of_nat k <= 4096 ->
  head (q (moves k w)) = (head (q w) + Z.of_nat k) `mod` 4096 /\
  (forall j, 0 <= j < Z.of_nat k -> slot_at (q (moves k w)) (slot_of (q w) (head (q w) + j)) = None).
Proof.
  intros Hon Hlt Hk. pose proof (on_head _ Hon) as Hh0. induction k as [|k IH].
  - cbn [Nat.iter]. rewrite Z.add_0_r, Z.mod_small by lia. split; [done|lia].
  - destruct IH as [IH1 IH2]; [lia|]. rewrite Nat.iter_succ. destruct (moves_spec k w Hon) as [H1 H2].
    rewrite (Z.mod_small (_ + Z.of_nat k)) in IH1 by lia. split; [rewrite move1_head, IH1 by done; f_equal; lia|].
    intros j Hj. assert (0 <= slot_of (q w) (head (q w) + j)) as Hs by (apply Z.mod_pos_bound, (on_window _ Hon)).
    rewrite move1_at by done. unfold slot_of at 1. rewrite (tame_window _ _ H2), IH1.
    destruct (Z.eq_dec j (Z.of_nat k)) as [->|Hjk]; [by rewrite (proj2 (Z.eqb_eq _ _))|].
    case_match; [done|]. apply IH2. lia.
Qed.

Lemma residue_hit h W i : 0 < W -> 0 <= i < W -> exists j, 0 <= j < W /\ (h + j) `mod` W = i.
Proof.
  intros HW Hi. exists ((i - h) `mod` W). split; [by apply Z.mod_pos_bound|].
  rewrite Zplus_mod_idemp_r. replace (h + (i - h)) with i by lia. by apply Z.mod_small.
Qed.

Lemma moves_cover_all k w i : rq_on (q w) -> head (q w) + window_size (q w) <= 4096 ->
  window_size (q w) <= Z.of_nat k -> 0 <= i -> slot_at (q (moves k w)) i = None.
Proof.
  intros Hon Hh Hk Hi. pose proof (on_window _ Hon) as HW. set (W := window_size (q w)) in *.
  destruct (Z.le_gt_cases W i) as [Hhigh|Hlow]; [by apply moves_empty, on_high|].
  replace k with ((k - Z.to_nat W) + Z.to_nat W)%nat by lia. rewrite Nat.iter_add.
  destruct (moves_spec (Z.to_nat W) w Hon) as [H1 H2].
  apply moves_empty; [done|lia|]. destruct (residue_hit (head (q w)) W i) as (j & Hj & Hji); [lia|lia|].
  destruct (moves_cover (Z.to_nat W) w Hon ltac:(lia) ltac:(lia)) as [_ H3].
  rewrite <-Hji. apply H3. lia.
Qed.

Lemma flush_loop_cases fuel w : rq_on (q w) ->
  count (q (flush_loop group_cipher now fuel w)) = 0 \/ flush_loop group_cipher now fuel w = moves fuel w.
Proof.
  revert w. induction fuel as [|fuel IH]; intros w Hon; [by right|]. cbn [flush_loop].
  case_match; zbool; [by left|]. destruct (IH _ (move1_on w Hon)) as [H1|H1]; [by left|].
  right. by rewrite H1, Nat.iter_succ_r.
Qed.

Lemma flush_loop_spec fuel w : rq_on (q w) ->
  let w' := flush_loop group_cipher now fuel w in rq_on (q w') /\ tame w w' /\ (head (q w) < 4096 -> head (q w') < 4096).
Proof.
  revert w. induction fuel as [|fuel IH]; intros w Hon; [by split|]. cbn [flush_loop].
  case_match; [by split|]. destruct (rod_move_window_spec 1 w Hon) as (H1 & H2 & H3).
  destruct (IH _ H1) as (H4 & H5 & H6). split; [done|split; [by etransitivity|lia]].
Qed.

Lemma all_empty_count r : rq_on r -> (forall i, 0 <= i -> slot_at r i = None) -> count r = 0.
Proof.
  intros Hon He. rewrite (on_count _ Hon). apply countb_zero. intros b Hb.
  apply list_elem_of_lookup in Hb as [i Hi]. specialize (He (Z.of_nat i) ltac:(lia)). unfold slot_at in He.
  rewrite Nat2Z.id in He. apply list_lookup_total_correct in Hi. rewrite He in Hi. by subst.
Qed.

(** Twice the window is enough fuel, whatever the window. *)
Lemma flush_empties w fuel : rq_on (q w) -> head (q w) < 4096 -> 2 * window_size (q w) <= Z.of_nat fuel ->
  count (q (flush_loop group_cipher now fuel w)) = 0.
Proof.
  intros Hon Hh Hf. destruct (flush_loop_cases fuel w Hon) as [?|Hm]; [done|rewrite Hm].
  destruct (moves_spec fuel w Hon) as [H1 _]. apply all_empty_count; [done|]. intros i Hi.
  pose proof (on_window _ Hon) as HW. unfold MAX_REORD_WINDOW in HW. pose proof (on_head _ Hon).
  destruct (Z.le_gt_cases (head (q w) + window_size (q w)) 4096) as [Hle|Hgt]; [apply moves_cover_all; try done; lia|].
  set (k := Z.to_nat (4096 - head (q w))). replace fuel with ((fuel - k) + k)%nat by lia. rewrite Nat.iter_add.
  destruct (moves_spec k w Hon) as [H2 H3]. destruct (moves_cover k w Hon Hh ltac:(lia)) as [H4 _].
  replace (head (q w) + Z.of_nat k) with 4096 in H4 by lia. change (4096 `mod` 4096) with 0 in H4.
  apply moves_cover_all; rewrite ?(tame_window _ _ H3), ?H4; try done; lia.
Qed.

Lemma count_zero_window r : rq_on r -> count r = 0 -> window r = [].
Proof.
  intros Hon Hc. rewrite (on_count _ Hon) in Hc. unfold window. revert Hc. generalize (nbuf r) as l.
  induction l as [|b l IH]; simpl; intros Hc; [done|]. pose proof (countb_range occupied l).
  destruct b; simpl in *; [lia|by apply IH].
Qed.

Lemma flush_spec w : rq_on (q w) -> head (q w) < 4096 ->
  let w' := mtlk_flush_rod_queue group_cipher now w in
  rq_on (q w') /\ tame w w' /\ head (q w') < 4096 /\ count (q w') = 0.
Proof.
  intros Hon Hh. destruct (flush_loop_spec (Z.to_nat (2 * window_size (q w))) w Hon) as (H1 & H2 & H3).
  split; [done|split; [done|split; [by apply H3|]]]. pose proof (on_window _ Hon). apply flush_empties; try done; lia.
Qed.

End loops.

(** * Every operation of the reordering queue keeps its invariant and
    accounts for every packet *)

(** An operation that takes in the packets [l]. *)
Record takes (l : list mtlk_nbuf_t) (w w' : rod) : Prop := {
  takes_used : used (q w') = used (q w);
  takes_wss : wss (q w') = wss (q w);
  takes_live : wss_live w' = wss_live w;
  takes_faults : faults (log w') = faults (log w);
  takes_packets : window (q w') ++ gone (log w') ≡ₚ l ++ window (q w) ++ gone (log w);
}.

Lemma tame_takes w w' : tame w w' -> takes [] w w'.
Proof. intros []. by constructor. Qed.
Lemma takes_tame l w w' w'' : takes l w w' -> tame w' w'' -> takes l w w''.
Proof. intros [] []. constructor; try congruence. etransitivity; eassumption. Qed.
Lemma tame_takes_trans l w w' w'' : tame w w' -> takes l w' w'' -> takes l w w''.
Proof. intros [] []. constructor; try congruence. etransitivity; [eassumption|]. by apply Permutation_app_head. Qed.

(** At rest a used queue has its head reduced and an unused one is empty. *)
Definition rq_rest (r : reordering_queue) : Prop :=
  (rq_on r /\ head r < 4096) \/
  (used r = 0 /\ length (nbuf r) = 64%nat /\ forall i, 0 <= i -> slot_at r i = None).
(** One statistics object while in use, none otherwise. *)
Definition wss_ok (w : rod) : Prop :=
  if used (q w) =? 1 then exists x, wss (q w) = Some x /\ wss_live w = [x] else wss_live w = [].
Definition rod_ok (w : rod) : Prop := rq_rest (q w) /\ wss_ok w.

Lemma wss_ok_takes l w w' : takes l w w' -> wss_ok w -> wss_ok w'.
Proof. intros []. unfold wss_ok. by rewrite takes_used0, takes_wss0, takes_live0. Qed.

Lemma seq_distance h s : 0 <= h < 4096 -> 0 <= s < 4096 -> SEQ_DISTANCE h s = (s - h) `mod` 4096.
Proof.
  intros Hh Hs. unfold SEQ_DISTANCE, SEQUENCE_NUMBER_LIMIT. rewrite u32_mod_seq.
  replace (s - h + 4096) with (s - h + 1 * 4096) by lia. apply Z_mod_plus_full.
Qed.

Lemma empty_window r : (forall i, 0 <= i -> slot_at r i = None) -> window r = [].
Proof.
  intros He. unfold window. assert (forall b, b ∈ nbuf r -> b = None) as Hb.
  { intros b Hb. apply list_elem_of_lookup in Hb as [i Hi]. specialize (He (Z.of_nat i) ltac:(lia)). unfold slot_at in He.
    rewrite Nat2Z.id in He. apply list_lookup_total_correct in Hi. congruence. }
  revert Hb. generalize (nbuf r) as l. induction l as [|b l IH]; intros Hb; [done|]. simpl.
  rewrite (Hb b) by left. apply IH. intros b' Hb'. apply Hb. by right.
Qed.

Section ops.
Context (group_cipher : Z -> Z) (time_after : Z -> Z -> bool) (ms_to_timestamp timestamp_to_ms : Z -> Z) (now : Z).

Lemma sendup_takes nb w : takes [nb] w (mtlk_rod_detect_replay_or_sendup group_cipher nb w).
Proof.
  unfold mtlk_rod_detect_replay_or_sendup. destruct (mtlk_detect_replay_or_sendup _ nb (rsc (q w))) as [[res rsc'] evs].
  constructor; try done; cbn [emit upd log q].
  - rewrite faults_app. cbn. lia.
  - rewrite gone_app. cbn. change (window (set_rsc rsc' (q w))) with (window (q w)).
    rewrite app_assoc, <-Permutation_cons_append. done.
Qed.

Lemma sendup_rest nb w : rq_rest (q w) -> rq_rest (q (mtlk_rod_detect_replay_or_sendup group_cipher nb w)).
Proof.
  unfold mtlk_rod_detect_replay_or_sendup. destruct (mtlk_detect_replay_or_sendup _ nb (rsc (q w))) as [[res rsc'] evs].
  intros [[[] H]|H]; [left; split; [by constructor|done]|by right].
Qed.

Lemma drop_too_old_takes nb w : takes [nb] w (drop_too_old nb w).
Proof.
  constructor; try done; cbn [drop_too_old rod_free __mtlk_rod_inc_cnt emit upd log q].
  - rewrite !faults_app. cbn. lia.
  - rewrite !gone_app. cbn. change (window (set_stats inc_too_old (q w))) with (window (q w)).
    rewrite app_nil_r, app_assoc, <-Permutation_cons_append. done.
Qed.

Lemma drop_duplicate_takes nb w : takes [nb] w (drop_duplicate nb w).
Proof.
  constructor; try done; cbn [drop_duplicate rod_free __mtlk_rod_inc_cnt emit upd log q].
  - rewrite !faults_app. cbn. lia.
  - rewrite !gone_app. cbn. change (window (set_stats inc_duplicate (q w))) with (window (q w)).
    rewrite app_nil_r, app_assoc, <-Permutation_cons_append. done.
Qed.

Lemma insert_slot_spec i nb w : rq_on (q w) -> 0 <= i < window_size (q w) -> slot_at (q w) i = None ->
  let w' := insert_slot i nb w in rq_on (q w') /\ takes [nb] w w' /\ head (q w') = head (q w).
Proof.
  intros Hon Hi He. pose proof (on_window _ Hon) as HW. unfold MAX_REORD_WINDOW in HW.
  pose proof (slot_at_lookup (q w) i (on_len _ Hon) ltac:(lia)) as Hl. rewrite He in Hl.
  pose proof (count_range _ Hon) as Hc. pose proof (on_count _ Hon) as Hcnt.
  pose proof (countb_insert occupied (Some nb) _ _ _ Hl) as Hci. cbn [occupied Z.b2z] in Hci.
  split; [|split; [|done]].
  - destruct Hon as [? ? ? ? ? Hhigh]. constructor; cbn -[u32 Z.to_nat countb insert]; try done.
    + by rewrite length_insert.
    + rewrite u32_small by lia. lia.
    + intros j Hj. specialize (Hhigh j Hj). unfold slot_at in *. cbn -[Z.to_nat] in *.
      rewrite list_lookup_total_insert_ne by lia. done.
  - constructor; cbn -[u32 Z.to_nat countb insert]; try done. unfold window. cbn -[Z.to_nat].
    by rewrite (window_put _ _ _ Hl).
Qed.

Lemma slide_for_spec diff w : rq_on (q w) -> head (q w) < 4096 ->
  let w' := slide_for group_cipher now diff w in rq_on (q w') /\ tame w w' /\ head (q w') < 4096.
Proof.
  intros Hon Hh. unfold slide_for. case_match; [|by split].
  assert (rq_on (q (upd (set_stats inc_overflows) w))) as H1 by (destruct Hon; by constructor).
  destruct (rod_move_window_spec group_cipher now (diff - window_size (q w) + 1) _ H1) as (H2 & H3 & H4).
  split; [done|split; [|lia]]. etransitivity; [|exact H3]. by constructor.
Qed.

Lemma reorder_packet_spec seq nb w : rq_rest (q w) -> 0 <= seq < 4096 ->
  let w' := (mtlk_reorder_packet group_cipher now seq nb w).2 in
  rq_rest (q w') /\ takes [nb] w w'.
Proof.
  intros Hr Hs. unfold mtlk_reorder_packet. destruct Hr as [[Hon Hh]|Hoff].
  2:{ rewrite (proj1 Hoff). split; [apply sendup_rest; by right|apply sendup_takes]. }
  rewrite (on_used _ Hon). cbn [Z.eqb]. case_match; [split; [|apply drop_too_old_takes]|].
  { left. destruct Hon. split; [by constructor|done]. }
  destruct (slide_for_spec (SEQ_DISTANCE (head (q w)) seq) w Hon Hh) as (H1 & H2 & H3).
  set (w1 := slide_for _ _ _ _) in *. pose proof (slot_of_range (q w1) seq (on_window _ H1)) as Hi.
  rewrite touch_id by (try done; lia). destruct (slot_at (q w1) (slot_of (q w1) seq)) as [nb'|] eqn:E.
  - split; [|eapply tame_takes_trans; [exact H2|apply drop_duplicate_takes]].
    left. destruct H1. split; [by constructor|done].
  - destruct (insert_slot_spec _ nb w1 H1 Hi E) as (H4 & H5 & H6).
    destruct (retire_rod_queue_spec group_cipher now _ H4) as (H7 & H8 & H9).
    split; [left; split; [done|apply H9]|]. eapply takes_tame; [|exact H8]. by eapply tame_takes_trans.
Qed.

Lemma process_bar_spec ssn w : rq_rest (q w) ->
  let w' := (mtlk_rod_process_bar group_cipher now ssn w).2 in rq_rest (q w') /\ takes [] w w'.
Proof.
  intros Hr. unfold mtlk_rod_process_bar. destruct Hr as [[Hon Hh]|Hoff].
  2:{ rewrite (proj1 Hoff). split; [by right|by apply tame_takes]. }
  rewrite (on_used _ Hon). cbn [Z.eqb]. case_match; [split; [by left|by apply tame_takes]|].
  destruct (rod_move_window_spec group_cipher now (SEQ_DISTANCE (head (q w)) ssn) w Hon) as (H1 & H2 & H3).
  destruct (retire_rod_queue_spec group_cipher now _ H1) as (H4 & H5 & H6).
  split; [left; split; [done|apply H6]|]. apply tame_takes. by etransitivity.
Qed.

Lemma timer_spec w : rq_rest (q w) ->
  let w' := mtlk_handle_rod_queue_timer group_cipher time_after ms_to_timestamp now w in
  rq_rest (q w') /\ takes [] w w'.
Proof.
  intros Hr. unfold mtlk_handle_rod_queue_timer. case_match; zbool; [|split; [done|by apply tame_takes]].
  destruct Hr as [[Hon Hh]|Hoff]; [|destruct Hoff; lia]. case_match; [|split; [by left|by apply tame_takes]].
  destruct (flush_spec group_cipher now w Hon Hh) as (H1 & H2 & H3 & _). split; [by left|by apply tame_takes].
Qed.

(** A fresh queue takes over the empty slots of the old one. *)
Lemma create_spec vap win ssn created opened w : rod_ok w -> used (q w) = 0 ->
  0 < win <= MAX_REORD_WINDOW -> 0 <= ssn < 4096 ->
  let w' := (mtlk_create_rod_queue group_cipher timestamp_to_ms now vap win ssn created opened w).2 in
  rod_ok w' /\ window (q w') = [] /\ faults (log w') = faults (log w) /\ gone (log w') = gone (log w).
Proof.
  intros [Hr Hw] Hu HW Hs. unfold wss_ok in Hw. rewrite Hu in Hw. cbn [Z.eqb] in Hw.
  destruct Hr as [[Hon _]|(_ & Hl & He)]; [destruct Hon; congruence|].
  unfold mtlk_create_rod_queue. rewrite Hu. cbn [Z.eqb]. unfold wss_create. pose proof (empty_window _ He) as Hwin.
  destruct created; cbn [negb].
  - destruct (negb (opened =? MTLK_ERR_OK)) eqn:Eo.
    + unfold wss_delete. cbn [set_wss wss q wss_live wss_next]. rewrite decide_True by left.
      cbn [snd q log]. split; [|done]. split; [by right|]. unfold wss_ok. cbn [q set_wss used wss_live]. rewrite Hu, Hw.
      rewrite filter_cons_False by (intros H; by apply H). done.
    + split; [|done]. split; [left; split; [|cbn; lia]|].
      * constructor; cbn -[countb]; try done; try lia; [|intros i Hi; apply He; lia].
        symmetry. apply countb_zero. intros b Hb.
        apply list_elem_of_lookup in Hb as [i Hi]. specialize (He (Z.of_nat i) ltac:(lia)). unfold slot_at in He.
        rewrite Nat2Z.id in He. apply list_lookup_total_correct in Hi. rewrite He in Hi. by subst.
      * unfold wss_ok. cbn. rewrite Hw. by eexists.
  - split; [|done]. split; [by right|]. unfold wss_ok. cbn [snd upd q set_wss used wss_live Z.eqb]. by rewrite Hu, Hw.
Qed.

Lemma clear_spec w : rod_ok w ->
  let w' := mtlk_clear_rod_queue group_cipher now w in
  rod_ok w' /\ used (q w') = 0 /\ window (q w') = [] /\ faults (log w') = faults (log w) /\
  gone (log w') ≡ₚ window (q w) ++ gone (log w).
Proof.
  intros [Hr Hw]. unfold mtlk_clear_rod_queue. destruct Hr as [[Hon Hh]|(Hu & Hl & He)].
  - rewrite (on_used _ Hon). cbn [Z.eqb negb]. destruct (flush_spec group_cipher now w Hon Hh) as (H1 & H2 & H3 & H4).
    set (w1 := mtlk_flush_rod_queue _ _ _) in *. pose proof (count_zero_window _ H1 H4) as H5.
    pose proof (tame_packets _ _ H2) as H6. rewrite H5 in H6. cbn [app] in H6.
    unfold wss_ok in Hw. rewrite (on_used _ Hon) in Hw. destruct Hw as (x & Hx & Hlive).
    unfold wss_delete. cbn [upd set_used q wss wss_live wss_next log].
    rewrite (tame_wss _ _ H2), Hx, (tame_live _ _ H2), Hlive, decide_True by left.
    cbn [q log wss_live]. rewrite filter_cons_False by (intros H; by apply H). rewrite filter_nil.
    split; [|split; [done|split; [exact H5|split; [apply H2|done]]]]. split; [right|done].
    split; [done|split; [apply H1|]]. intros i Hi. destruct H1 as [_ _ Hlen Hc _ _]. cbn. change (slot_at (q w1) i = None).
    destruct (slot_at (q w1) i) as [nb|] eqn:E; [|done]. exfalso. unfold slot_at in E.
    destruct (nbuf (q w1) !! Z.to_nat i) as [b|] eqn:El; [|rewrite list_lookup_total_alt, El in E; done].
    pose proof (list_lookup_total_correct _ _ _ El) as Eb. rewrite E in Eb. subst b.
    pose proof (countb_pos occupied _ _ _ El eq_refl). lia.
  - rewrite Hu. cbn [Z.eqb negb]. pose proof (empty_window _ He) as Hwin. rewrite Hwin.
    split; [split; [by right|done]|]. done.
Qed.

End ops.
