(* ===== verification/RodWin.v ===== *)
(** * RodWin: the sliding window a reordering queue implements

    The specification has no array and no wrap-around: a window over unbounded
    sequence numbers, its next number, and the packets waiting at or above it.
    It is implemented when the window size divides 4096. *)
From S2P Require Import Prelude Replay Rod RodInv.
From Stdlib Require Import Sorted.

Record awin := Awin { a_next : Z; a_buf : gmap Z mtlk_nbuf_t }.

(** Move the window up to [m]; what it releases, in order. *)
Definition a_move (m : Z) (a : awin) : awin := Awin m (filter (fun p => m <= p.1) (a_buf a)).
Definition released (a : awin) (m : Z) : list (Z * mtlk_nbuf_t) :=
  omap (fun s => (fun nb => (s, nb)) <$> a_buf a !! s) (seqZ (a_next a) (m - a_next a)).
Definition a_put (s : Z) (nb : mtlk_nbuf_t) (a : awin) : awin := Awin (a_next a) (<[s := nb]> (a_buf a)).

(** [m] is the first number missing from the window. *)
Definition first_gap (a : awin) (m : Z) : Prop :=
  a_next a <= m /\ (forall s, a_next a <= s < m -> is_Some (a_buf a !! s)) /\ a_buf a !! m = None.

Inductive win_op := WPacket (s : Z) (nb : mtlk_nbuf_t) | WBar (s : Z) | WTimer.

Inductive win_step (W : Z) (a : awin) : win_op -> list (Z * mtlk_nbuf_t) -> awin -> Prop :=
| win_old s nb : s < a_next a -> win_step W a (WPacket s nb) [] a
| win_dup s nb : a_next a <= s -> is_Some (a_buf a !! s) -> win_step W a (WPacket s nb) [] a
| win_new s nb a1 m : a_next a <= s -> a_buf a !! s = None ->
    a1 = a_move (Z.max (a_next a) (s - W + 1)) a -> first_gap (a_put s nb a1) m ->
    win_step W a (WPacket s nb) (released a (a_next a1) ++ released (a_put s nb a1) m) (a_move m (a_put s nb a1))
| win_bar_old s : s < a_next a -> win_step W a (WBar s) [] a
| win_bar s m : a_next a <= s -> first_gap (a_move s a) m ->
    win_step W a (WBar s) (released a s ++ released (a_move s a) m) (a_move m (a_move s a))
| win_quiet : win_step W a WTimer [] a
| win_flush m : a_next a <= m -> a_buf (a_move m a) = ∅ -> win_step W a WTimer (released a m) (a_move m a).

(** ** How the queue represents a window *)

Definition ev_up (e : rod_ev) : option mtlk_nbuf_t := match e with RodUp nb _ => Some nb | _ => None end.
Definition handed (l : list rod_ev) : list mtlk_nbuf_t := omap ev_up l.
Lemma handed_app l1 l2 : handed (l1 ++ l2) = handed l1 ++ handed l2.
Proof. apply omap_app. Qed.

Record wrel (w : rod) (a : awin) : Prop := {
  wr_on : rq_on (q w);
  wr_head : head (q w) `mod` 4096 = a_next a `mod` 4096;
  wr_slots : forall s, a_next a <= s < a_next a + window_size (q w) -> slot_at (q w) (slot_of (q w) s) = a_buf a !! s;
  wr_dom : forall s nb, a_buf a !! s = Some nb -> a_next a <= s < a_next a + window_size (q w);
}.

(** From [w], code that hands up [out] and leaves the window [a']. *)
Definition yields (w w' : rod) (out : list (Z * mtlk_nbuf_t)) (a' : awin) : Prop :=
  wrel w' a' /\ window_size (q w') = window_size (q w) /\ handed (log w') = handed (log w) ++ out.*2.

Lemma yields_trans w w1 w2 out1 out2 a1 a2 :
  yields w w1 out1 a1 -> yields w1 w2 out2 a2 -> yields w w2 (out1 ++ out2) a2.
Proof.
  intros (_ & H1 & H2) (H3 & H4 & H5). split; [done|split; [congruence|]].
  by rewrite H5, H2, fmap_app, (assoc_L (++)).
Qed.

Lemma released_nil a m : m <= a_next a -> released a m = [].
Proof. intros. unfold released. by rewrite seqZ_nil by lia. Qed.

Lemma released_snoc a m : a_next a <= m ->
  released a (m + 1) = released a m ++ option_list ((fun nb => (m, nb)) <$> a_buf a !! m).
Proof.
  intros Hm. unfold released. replace (m + 1 - a_next a) with ((m - a_next a) + 1) by lia.
  rewrite seqZ_app by lia. rewrite omap_app. f_equal. replace (a_next a + (m - a_next a)) with m by lia.
  change (seqZ m 1) with (Z.add 0 m :: []). rewrite Z.add_0_l. simpl. by destruct (a_buf a !! m).
Qed.

Lemma a_move_lookup m a s : a_buf (a_move m a) !! s = if m <=? s then a_buf a !! s else None.
Proof.
  cbn. case_match eqn:E; zbool.
  - destruct (a_buf a !! s) as [nb|] eqn:El; [by apply map_lookup_filter_Some|].
    apply map_lookup_filter_None. by left.
  - apply map_lookup_filter_None. right. intros nb _. cbn. lia.
Qed.

Section simulation.
Context (group_cipher : Z -> Z) (time_after : Z -> Z -> bool) (ms_to_timestamp : Z -> Z) (now : Z).

Implicit Types (w : rod) (a : awin).

Lemma slot_of_congr w x y : (window_size (q w) | 4096) -> 0 < window_size (q w) ->
  x `mod` 4096 = y `mod` 4096 -> slot_of (q w) x = slot_of (q w) y.
Proof.
  intros Hd HW He. unfold slot_of. rewrite <-(Z.mod_mod_divide x 4096), <-(Z.mod_mod_divide y 4096) by done. by rewrite He.
Qed.

Lemma slot_of_next r x : slot_of r (x + window_size r) = slot_of r x.
Proof. unfold slot_of. replace (x + window_size r) with (x + 1 * window_size r) by lia. apply Z_mod_plus_full. Qed.

Lemma slot_of_inj w x y : 0 < window_size (q w) -> slot_of (q w) x = slot_of (q w) y ->
  Z.abs (x - y) < window_size (q w) -> x = y.
Proof.
  intros HW He Ha. unfold slot_of in He. set (W := window_size (q w)) in *.
  assert ((x - y) `mod` W = 0) as Hm by (rewrite Zminus_mod, He, Z.sub_diag; apply Z.mod_0_l; lia).
  apply Z.mod_divide in Hm as [k Hk]; [|lia]. apply Z.abs_lt in Ha.
  assert (k <= -1 \/ k = 0 \/ 1 <= k) as [|[|]] by lia; nia.
Qed.

Lemma mod_4096_succ x y : x `mod` 4096 = y `mod` 4096 -> u32 (x + 1) `mod` 4096 = (y + 1) `mod` 4096.
Proof. intros He. rewrite u32_mod_seq, <-Zplus_mod_idemp_l, He, Zplus_mod_idemp_l. done. Qed.

(** One turn of the moving loop releases the next number, present or not. *)
Lemma move_head_rel w a : wrel w a -> (window_size (q w) | 4096) ->
  yields w (move_head group_cipher now w) (released a (a_next a + 1)) (a_move (a_next a + 1) a).
Proof.
  intros [Hon Hh Hs Hd] HW. destruct (move_head_spec group_cipher now w Hon) as (H1 & H2 & H3).
  pose proof (on_window _ Hon) as Hw.
  assert (slot_of (q w) (head (q w)) = slot_of (q w) (a_next a)) as Hslot by (apply slot_of_congr; try done; lia).
  split; [|split; [by apply tame_window|]].
  - constructor; [done|..]; rewrite ?(tame_window _ _ H2).
    + rewrite H3. cbn [a_next a_move]. by apply mod_4096_succ.
    + cbn [a_next a_move]. intros s Hr. rewrite a_move_lookup, (proj2 (Z.leb_le _ _)) by lia.
      assert (slot_of (q (move_head group_cipher now w)) s = slot_of (q w) s) as ->
        by (unfold slot_of; by rewrite (tame_window _ _ H2)).
      transitivity (slot_at (q (retire_slot group_cipher now (head (q w)) w)) (slot_of (q w) s)); [done|].
      rewrite retire_slot_at by (try done; by apply slot_of_range). rewrite Hslot.
      destruct (Z.eqb_spec (slot_of (q w) (a_next a)) (slot_of (q w) s)) as [He|Hne].
      * destruct (a_buf a !! s) as [nb|] eqn:Eb; [|done]. exfalso. pose proof (Hd _ _ Eb).
        apply slot_of_inj in He; lia.
      * apply Hs. destruct (Z.eq_dec s (a_next a + window_size (q w))) as [->|]; [|lia].
        exfalso. apply Hne. by rewrite slot_of_next.
    + cbn [a_next a_move]. intros s nb. rewrite a_move_lookup. case_match; zbool; [|done]. intros E. specialize (Hd _ _ E). lia.
  - rewrite released_snoc, released_nil by lia. cbn [app].
    unfold move_head, retire_slot. rewrite touch_id by (try done; by apply slot_of_range).
    rewrite Hslot. rewrite <-(Hs (a_next a)) by lia. destruct (slot_at (q w) (slot_of (q w) (a_next a))) as [nb|].
    + unfold mtlk_rod_detect_replay_or_sendup. destruct (mtlk_detect_replay_or_sendup _ nb (rsc (q w))) as [[res rsc'] evs].
      cbn -[u32]. by rewrite handed_app.
    + cbn. by rewrite app_nil_r.
Qed.

Lemma a_move_move m m' a : m <= m' -> a_move m' (a_move m a) = a_move m' a.
Proof.
  intros Hm. unfold a_move at 1 3. f_equal. apply map_eq. intros s.
  change (a_buf (a_move m' (a_move m a)) !! s = a_buf (a_move m' a) !! s). rewrite !a_move_lookup.
  case_match; [|done]. zbool. by rewrite (proj2 (Z.leb_le m s)) by lia.
Qed.

Lemma a_move_id w a : wrel w a -> a_move (a_next a) a = a.
Proof.
  intros H. destruct a as [nx buf]. unfold a_move. f_equal. apply map_filter_id.
  intros s nb E. cbn. specialize (wr_dom _ _ H s nb E). cbn. lia.
Qed.

Lemma released_step a m : a_next a <= m -> released a (m + 1) = released a m ++ released (a_move m a) (m + 1).
Proof.
  intros Hm. rewrite released_snoc by done. f_equal.
  rewrite (released_snoc (a_move m a)) by done. rewrite released_nil by done.
  rewrite a_move_lookup, (proj2 (Z.leb_le m m)) by lia. done.
Qed.

Lemma released_split m0 m a : a_next a <= m0 <= m -> released a m = released a m0 ++ released (a_move m0 a) m.
Proof.
  intros Hm. replace m with (m0 + Z.of_nat (Z.to_nat (m - m0))) by lia. generalize (Z.to_nat (m - m0)) as n.
  induction n as [|n IH]; [by rewrite Z.add_0_r, (released_nil (a_move m0 a)), app_nil_r by done|].
  rewrite Nat2Z.inj_succ, <-Z.add_1_r, Z.add_assoc, released_snoc, IH, <-(assoc_L (++)) by lia. f_equal.
  rewrite (released_snoc (a_move m0 a)) by (cbn [a_next a_move]; lia). by rewrite a_move_lookup, (proj2 (Z.leb_le m0 _)) by lia.
Qed.

Lemma slot_step W x : 0 < W -> (if W <=? x `mod` W + 1 then 0 else x `mod` W + 1) = (x + 1) `mod` W.
Proof.
  intros HW. pose proof (Z.mod_pos_bound x W HW). rewrite <-Zplus_mod_idemp_l. destruct (Z.leb_spec W (x `mod` W + 1)).
  - replace (x `mod` W + 1) with W by lia. symmetry. by apply Z_mod_same_full.
  - symmetry. apply Z.mod_small. lia.
Qed.

Lemma yields_refl w a : wrel w a -> yields w w [] a.
Proof. intros. split; [done|split; [done|]]. cbn. by rewrite app_nil_r. Qed.

Lemma moves_rel n w a : wrel w a -> (window_size (q w) | 4096) ->
  yields w (Nat.iter n (move_head group_cipher now) w) (released a (a_next a + Z.of_nat n)) (a_move (a_next a + Z.of_nat n) a).
Proof.
  intros Hw Hd. induction n as [|n IH].
  - rewrite Z.add_0_r, released_nil by lia. rewrite (a_move_id w) by done. by apply yields_refl.
  - rewrite Nat.iter_succ, Nat2Z.inj_succ, <-Z.add_1_r, Z.add_assoc, released_step by lia.
    rewrite <-(a_move_move (a_next a + Z.of_nat n) (a_next a + Z.of_nat n + 1)) by lia. eapply yields_trans; [exact IH|].
    destruct IH as (H1 & H2 & _). by apply (move_head_rel _ _ H1); rewrite H2.
Qed.

Lemma wrap_head_rel w a : wrel w a -> yields w (wrap_head w) [] a.
Proof.
  intros Hw. destruct (wrap_head_spec w (wr_on _ _ Hw)) as (H1 & H2 & _).
  split; [|split; [done|by rewrite app_nil_r]]. destruct Hw as [Ho Hh Hs Hd]. constructor; [done| |done|done].
  cbn. rewrite <-Hh. apply Z.mod_mod. done.
Qed.

Lemma move_window_rel n w a : wrel w a -> (window_size (q w) | 4096) -> 0 <= n ->
  yields w (rod_move_window group_cipher now n w) (released a (a_next a + n)) (a_move (a_next a + n) a).
Proof.
  intros Hw Hd Hn. pose proof (moves_rel (Z.to_nat n) w a Hw Hd) as Hm. rewrite Z2Nat.id in Hm by done.
  rewrite <-(app_nil_r (released _ _)). eapply yields_trans; [exact Hm|]. apply wrap_head_rel, Hm.
Qed.

Lemma no_release w a : wrel w a -> a_buf a !! a_next a = None ->
  exists m, first_gap a m /\ yields w w (released a m) (a_move m a).
Proof.
  intros Hw Hn. exists (a_next a). split; [split; [lia|split; [lia|done]]|].
  rewrite released_nil, (a_move_id w) by (done || lia). by apply yields_refl.
Qed.

Lemma retire_loop_S fuel loc w : retire_loop group_cipher now (S fuel) loc w =
  match slot_at (q (touch loc w)) loc with
  | None => touch loc w
  | Some _ =>
      let w' := retire_slot group_cipher now loc (touch loc w) in
      retire_loop group_cipher now fuel (if window_size (q w') <=? loc + 1 then 0 else loc + 1)
        (upd (fun r => set_head (u32 (head r + 1)) r) w')
  end.
Proof. done. Qed.

(** Retiring from the head stops at the first gap: the fuel bounds the packets waiting. *)
Lemma retire_loop_rel fuel w a : wrel w a -> (window_size (q w) | 4096) ->
  (forall s nb, a_buf a !! s = Some nb -> s < a_next a + Z.of_nat fuel) ->
  exists m, first_gap a m /\
    yields w (retire_loop group_cipher now (S fuel) (slot_of (q w) (a_next a)) w) (released a m) (a_move m a).
Proof.
  revert w a. induction fuel as [|fuel IH]; intros w a Hw Hd Hf.
  all: rewrite retire_loop_S; cbv zeta; pose proof (on_window _ (wr_on _ _ Hw)) as HW.
  all: rewrite touch_id by (try apply Hw; by apply slot_of_range); rewrite (wr_slots _ _ Hw) by lia.
  all: destruct (a_buf a !! a_next a) as [nb|] eqn:E.
  - specialize (Hf _ _ E). lia.
  - by apply no_release.
  - assert (upd (fun r => set_head (u32 (head r + 1)) r) (retire_slot group_cipher now (slot_of (q w) (a_next a)) w)
            = move_head group_cipher now w) as Hmh.
    { unfold move_head. f_equal. unfold retire_slot.
      assert (slot_of (q w) (slot_of (q w) (a_next a)) = slot_of (q w) (head (q w))) as ->; [|done].
      rewrite (slot_of_congr w (head (q w)) (a_next a)) by (try done; try apply Hw; lia). apply Z.mod_mod. lia. }
    destruct (move_head_rel w a Hw Hd) as (H1 & H2 & H3). cbn -[move_head] in H2.
    edestruct (IH _ _ H1) as (m & (G1 & G2 & G3) & Hy); [by rewrite H2|..].
    { intros s nb'. rewrite a_move_lookup. case_match; [|done]. intros Eb. specialize (Hf _ _ Eb). cbn [a_next a_move]. lia. }
    cbn [a_next a_move] in G1. exists m. split.
    + split; [lia|split]; [|by rewrite a_move_lookup, (proj2 (Z.leb_le _ _)) in G3 by lia].
      intros s Hs. destruct (Z.eq_dec s (a_next a)) as [->|]; [by eexists|].
      specialize (G2 s ltac:(cbn [a_next a_move]; lia)). by rewrite a_move_lookup, (proj2 (Z.leb_le _ _)) in G2 by lia.
    + rewrite (released_split (a_next a + 1)) by lia. rewrite <-(a_move_move (a_next a + 1) m) by lia.
      eapply yields_trans; [exact (conj H1 (conj H2 H3))|]. rewrite Hmh.
      assert (window_size (q (retire_slot group_cipher now (slot_of (q w) (a_next a)) w)) = window_size (q w)) as HWr
        by (apply tame_window, retire_slot_spec, Hw). rewrite HWr.
      unfold slot_of in *. rewrite slot_step by lia. rewrite H2 in Hy. exact Hy.
  - by apply no_release.
Qed.

(** ** The operations *)

Lemma retire_queue_rel w a : wrel w a -> (window_size (q w) | 4096) ->
  exists m, first_gap a m /\ yields w (retire_rod_queue group_cipher now w) (released a m) (a_move m a).
Proof.
  intros Hw Hd. pose proof (on_window _ (wr_on _ _ Hw)) as HW.
  destruct (retire_loop_rel (Z.to_nat (window_size (q w))) w a Hw Hd) as (m & Hg & Hy).
  { intros s nb E. pose proof (wr_dom _ _ Hw _ _ E). lia. }
  exists m. split; [done|]. rewrite <-(app_nil_r (released _ _)). unfold retire_rod_queue.
  rewrite (slot_of_congr w (head (q w)) (a_next a)) by (try done; try apply Hw; lia).
  eapply yields_trans; [exact Hy|]. apply wrap_head_rel, Hy.
Qed.

Lemma put_rel s nb w a : wrel w a -> a_next a <= s < a_next a + window_size (q w) -> a_buf a !! s = None ->
  yields w (insert_slot (slot_of (q w) s) nb w) [] (a_put s nb a).
Proof.
  intros [Hon Hh Hs Hd] Hr Hn. pose proof (on_window _ Hon) as HW. pose proof (slot_of_range (q w) s HW) as Hi.
  rewrite <-Hs in Hn by done. destruct (insert_slot_spec _ nb w Hon Hi Hn) as (H1 & H2 & H3).
  split; [|split; [done|by rewrite app_nil_r]]. constructor; [done|done|..]; cbn [a_next a_put].
  - intros x Hx. cbn in Hx. change (slot_of (q (insert_slot (slot_of (q w) s) nb w)) x) with (slot_of (q w) x).
    transitivity (slot_at (set_slot (slot_of (q w) s) (Some nb) (q w)) (slot_of (q w) x)); [done|].
    unfold MAX_REORD_WINDOW in HW. rewrite slot_at_set by first [by apply on_len|lia|by apply slot_of_range].
    cbn. destruct (Z.eqb_spec (slot_of (q w) s) (slot_of (q w) x)) as [He|Hne].
    + apply slot_of_inj in He; [|lia|lia]. subst. by rewrite lookup_insert_eq.
    + rewrite lookup_insert_ne by congruence. by apply Hs.
  - intros x nb'. cbn. rewrite lookup_insert_Some. intros [[<- _]|[_ E]]; [done|by eapply Hd].
Qed.

(** The unbounded number a 12-bit sequence number stands for, seen from [next]. *)
Definition unwrap (next seq : Z) : Z :=
  let d := (seq - next) `mod` 4096 in if 2048 <? d then next + d - 4096 else next + d.

Lemma unwrap_mod next seq : 0 <= seq < 4096 -> unwrap next seq `mod` 4096 = seq.
Proof.
  intros Hs. unfold unwrap.
  assert (forall k, (next + (seq - next) `mod` 4096 + k * 4096) `mod` 4096 = seq) as H.
  { intros k. rewrite Z_mod_plus_full, Zplus_mod_idemp_r. replace (next + (seq - next)) with seq by lia. by apply Z.mod_small. }
  case_match.
  - replace (next + (seq - next) `mod` 4096 - 4096) with (next + (seq - next) `mod` 4096 + -1 * 4096) by lia. apply H.
  - rewrite <-(Z.add_0_r (next + _)). apply (H 0).
Qed.

Lemma seq_distance_rel w a seq : wrel w a -> head (q w) < 4096 -> 0 <= seq < 4096 ->
  SEQ_DISTANCE (head (q w)) seq = (seq - a_next a) `mod` 4096.
Proof.
  intros Hw Hh Hs. pose proof (on_head _ (wr_on _ _ Hw)). rewrite seq_distance by lia.
  rewrite <-(Zminus_mod_idemp_r seq (head (q w))), (wr_head _ _ Hw). by rewrite Zminus_mod_idemp_r.
Qed.

(** Counting and dropping packets does not touch the window. *)
Lemma stats_wrel f w w' a : wrel w a -> q w' = set_stats f (q w) -> wrel w' a.
Proof.
  intros [Ho Hh Hs Hd] Hq. constructor; rewrite ?Hq; [|done|exact Hs|exact Hd]. destruct Ho. by constructor.
Qed.

Lemma stats_rel f w a : wrel w a -> yields w (upd (set_stats f) w) [] a.
Proof. intros Hw. split; [by eapply stats_wrel|split; [done|by rewrite app_nil_r]]. Qed.

Lemma drop_too_old_rel nb w a : wrel w a -> yields w (drop_too_old nb w) [] a.
Proof.
  intros Hw. split; [by eapply stats_wrel|split; [done|]].
  cbn [drop_too_old rod_free __mtlk_rod_inc_cnt emit upd log]. rewrite !handed_app. cbn. by rewrite !app_nil_r.
Qed.

Lemma drop_duplicate_rel nb w a : wrel w a -> yields w (drop_duplicate nb w) [] a.
Proof.
  intros Hw. split; [by eapply stats_wrel|split; [done|]].
  cbn [drop_duplicate rod_free __mtlk_rod_inc_cnt emit upd log]. rewrite !handed_app. cbn. by rewrite !app_nil_r.
Qed.

Lemma slide_rel s w a : wrel w a -> (window_size (q w) | 4096) -> a_next a <= s ->
  yields w (slide_for group_cipher now (s - a_next a) w)
    (released a (Z.max (a_next a) (s - window_size (q w) + 1))) (a_move (Z.max (a_next a) (s - window_size (q w) + 1)) a).
Proof.
  intros Hw Hd Hs. unfold slide_for. destruct (Z.leb_spec (window_size (q w)) (s - a_next a)).
  - rewrite Z.max_r by lia. destruct (stats_rel inc_overflows w a Hw) as (H1 & H2 & H3).
    change (released a (s - window_size (q w) + 1)) with ([] ++ released a (s - window_size (q w) + 1)).
    eapply yields_trans; [exact (conj H1 (conj H2 H3))|].
    replace (s - window_size (q w) + 1) with (a_next a + (s - a_next a - window_size (q w) + 1)) by lia.
    apply move_window_rel; [done|done|lia].
  - rewrite Z.max_l, released_nil, (a_move_id w) by (done || lia). by apply yields_refl.
Qed.

Lemma packet_rel seq nb w a : wrel w a -> head (q w) < 4096 -> (window_size (q w) | 4096) -> 0 <= seq < 4096 ->
  exists out a', win_step (window_size (q w)) a (WPacket (unwrap (a_next a) seq) nb) out a' /\
    yields w (mtlk_reorder_packet group_cipher now seq nb w).2 out a'.
Proof.
  intros Hw Hh Hd Hs. unfold mtlk_reorder_packet. rewrite (on_used _ (wr_on _ _ Hw)). cbn [Z.eqb].
  rewrite (seq_distance_rel w a) by done. pose proof (unwrap_mod (a_next a) seq Hs) as Hu.
  unfold unwrap in *. set (d := (seq - a_next a) `mod` 4096) in *.
  assert (0 <= d < 4096) as Hdr by (by apply Z.mod_pos_bound). change (SEQUENCE_NUMBER_LIMIT / 2) with 2048.
  case_match; zbool.
  - exists [], a. split; [apply win_old; lia|by apply drop_too_old_rel].
  - set (s := a_next a + d) in *. replace d with (s - a_next a) by lia.
    pose proof (slide_rel s w a Hw Hd ltac:(lia)) as Hsl. set (w1 := slide_for _ _ _ w) in *.
    set (m0 := Z.max (a_next a) (s - window_size (q w) + 1)) in *. destruct Hsl as (H1 & H2 & H3).
    pose proof (on_window _ (wr_on _ _ Hw)) as HW.
    assert (slot_of (q w1) seq = slot_of (q w1) s) as Hsl
      by (apply slot_of_congr; rewrite ?H2; try done; [lia|rewrite Hu; by apply Z.mod_small]).
    rewrite Hsl. rewrite touch_id by (try apply H1; apply slot_of_range, H1).
    rewrite (wr_slots _ _ H1) by (cbn [a_next a_move]; lia).
    rewrite a_move_lookup, (proj2 (Z.leb_le _ _)) by lia.
    destruct (a_buf a !! s) as [nb'|] eqn:E.
    + exists [], a. split; [apply win_dup; [lia|by eexists]|]. pose proof (wr_dom _ _ Hw _ _ E).
      assert (w1 = w) as -> by (unfold w1, slide_for; by rewrite (proj2 (Z.leb_gt _ _)) by lia). by apply drop_duplicate_rel.
    + destruct (put_rel s nb w1 _ H1) as (P1 & P2 & P3); [cbn [a_next a_move]; lia|by rewrite a_move_lookup, (proj2 (Z.leb_le _ _)) by lia|].
      edestruct (retire_queue_rel _ _ P1) as (m & Hg & Hy); [by rewrite P2, H2|].
      exists (released a m0 ++ released (a_put s nb (a_move m0 a)) m), (a_move m (a_put s nb (a_move m0 a))).
      split; [apply (win_new _ _ s nb (a_move m0 a) m); [lia|done|done|exact Hg]|].
      eapply yields_trans; [exact (conj H1 (conj H2 H3))|].
      change (released (a_put s nb (a_move m0 a)) m) with ([] ++ released (a_put s nb (a_move m0 a)) m).
      eapply yields_trans; [exact (conj P1 (conj P2 P3))|exact Hy].
Qed.

Lemma bar_rel ssn w a : wrel w a -> head (q w) < 4096 -> (window_size (q w) | 4096) -> 0 <= ssn < 4096 ->
  exists out a', win_step (window_size (q w)) a (WBar (unwrap (a_next a) ssn)) out a' /\
    yields w (mtlk_rod_process_bar group_cipher now ssn w).2 out a'.
Proof.
  intros Hw Hh Hd Hs. unfold mtlk_rod_process_bar. rewrite (on_used _ (wr_on _ _ Hw)). cbn [Z.eqb].
  rewrite (seq_distance_rel w a) by done. unfold unwrap. set (d := (ssn - a_next a) `mod` 4096).
  assert (0 <= d < 4096) as Hdr by (by apply Z.mod_pos_bound). change (SEQUENCE_NUMBER_LIMIT / 2) with 2048.
  case_match; zbool; [exists [], a; split; [apply win_bar_old; lia|by apply yields_refl]|].
  destruct (move_window_rel d w a Hw Hd ltac:(lia)) as (H1 & H2 & H3).
  edestruct (retire_queue_rel _ _ H1) as (m & Hg & Hy); [by rewrite H2|].
  eexists _, _. split; [eapply win_bar; [lia|exact Hg]|]. eapply yields_trans; [exact (conj H1 (conj H2 H3))|exact Hy].
Qed.

Lemma flush_loop_rel fuel w a : wrel w a -> (window_size (q w) | 4096) ->
  exists m, a_next a <= m /\ yields w (flush_loop group_cipher now fuel w) (released a m) (a_move m a).
Proof.
  revert w a. induction fuel as [|fuel IH]; intros w a Hw Hd.
  all: assert (exists m, a_next a <= m /\ yields w w (released a m) (a_move m a)) as Hid
    by (exists (a_next a); split; [lia|]; rewrite released_nil, (a_move_id w) by (done || lia); by apply yields_refl).
  - exact Hid.
  - cbn [flush_loop]. destruct (count (q w) =? 0); [exact Hid|].
    pose proof (move_window_rel 1 w a Hw Hd ltac:(lia)) as H1.
    destruct (IH _ _ (proj1 H1)) as (m & Hm & Hy); [by rewrite (proj1 (proj2 H1))|]. cbn [a_next a_move] in Hm.
    exists m. split; [lia|]. rewrite (released_split (a_next a + 1)) by lia.
    rewrite <-(a_move_move (a_next a + 1) m) by lia. eapply yields_trans; [exact H1|exact Hy].
Qed.

Lemma wrel_empty w a : wrel w a -> count (q w) = 0 -> a_buf a = ∅.
Proof.
  intros Hw Hc. apply map_eq. intros s. rewrite lookup_empty. destruct (a_buf a !! s) as [nb|] eqn:E; [|done].
  pose proof (wr_dom _ _ Hw _ _ E) as Hr. rewrite <-(wr_slots _ _ Hw) in E by done. exfalso.
  pose proof (wr_on _ _ Hw) as Hon. pose proof (slot_of_range (q w) s (on_window _ Hon)) as Hi.
  pose proof (on_window _ Hon) as HW. unfold MAX_REORD_WINDOW in HW.
  pose proof (slot_at_lookup _ (slot_of (q w) s) (on_len _ Hon) ltac:(lia)) as Hl. rewrite E in Hl.
  pose proof (countb_pos occupied _ _ _ Hl eq_refl). rewrite (on_count _ Hon) in Hc. lia.
Qed.

Lemma timer_rel w a : wrel w a -> head (q w) < 4096 -> (window_size (q w) | 4096) ->
  exists out a', win_step (window_size (q w)) a WTimer out a' /\
    yields w (mtlk_handle_rod_queue_timer group_cipher time_after ms_to_timestamp now w) out a'.
Proof.
  intros Hw Hh Hd. unfold mtlk_handle_rod_queue_timer. rewrite (on_used _ (wr_on _ _ Hw)). cbn [Z.eqb Pos.eqb].
  case_match; [|exists [], a; split; [apply win_quiet|by apply yields_refl]].
  destruct (flush_loop_rel (Z.to_nat (2 * window_size (q w))) w a Hw Hd) as (m & Hm & Hy).
  eexists _, _. split; [|exact Hy]. apply win_flush; [done|]. eapply wrel_empty; [apply Hy|].
  pose proof (on_window _ (wr_on _ _ Hw)). apply flush_empties; [apply Hw|done|lia].
Qed.

End simulation.
