(* ===== verification/RodThms.v ===== *)
(** * RodThms: the properties of the reordering queue *)
From Stdlib Require Import Permutation Sorted.
From S2P Require Import Prelude Replay Rod RodInv RodWin.

(** What happens to one queue, and when. *)
Inductive rod_op :=
| OpPacket (seq : Z) (nb : mtlk_nbuf_t) | OpBar (ssn : Z) | OpTimer
| OpCreate (vap win ssn : Z) (created : bool) (opened : Z) | OpClear.

Definition op_packets (op : rod_op) : list mtlk_nbuf_t := match op with OpPacket _ nb => [nb] | _ => [] end.
(** 12-bit sequence numbers; a queue is created when not in use, with a window the array can hold. *)
Definition op_ok (w : rod) (op : rod_op) : Prop :=
  match op with
  | OpPacket s _ | OpBar s => 0 <= s < 4096
  | OpCreate _ win s _ _ => used (q w) = 0 /\ 0 < win <= MAX_REORD_WINDOW /\ 0 <= s < 4096
  | _ => True
  end.
(** The operations of an agreement in force. *)
Definition is_traffic (op : rod_op) : bool :=
  match op with OpPacket s _ | OpBar s => (0 <=? s) && (s <? 4096) | OpTimer => true | _ => false end.

Section theorems.
Context (group_cipher : Z -> Z) (time_after : Z -> Z -> bool) (ms_to_timestamp timestamp_to_ms : Z -> Z).

Definition exec_op (now : Z) (op : rod_op) (w : rod) : rod :=
  match op with
  | OpPacket s nb => (mtlk_reorder_packet group_cipher now s nb w).2
  | OpBar s => (mtlk_rod_process_bar group_cipher now s w).2
  | OpTimer => mtlk_handle_rod_queue_timer group_cipher time_after ms_to_timestamp now w
  | OpCreate vap win s c o => (mtlk_create_rod_queue group_cipher timestamp_to_ms now vap win s c o w).2
  | OpClear => mtlk_clear_rod_queue group_cipher now w
  end.
Definition run (l : list (Z * rod_op)) (w : rod) : rod := foldl (fun w p => exec_op p.1 p.2 w) w l.

(** States of a queue, with the packets it has been given. *)
Inductive rod_reach : list mtlk_nbuf_t -> rod -> Prop :=
| reach_boot : rod_reach [] rod_boot
| reach_step l w now op : rod_reach l w -> op_ok w op -> rod_reach (op_packets op ++ l) (exec_op now op w).

Lemma rod_boot_ok : rod_ok rod_boot.
Proof.
  split; [|done]. right. split; [done|split; [done|]]. intros i _. unfold slot_at. cbn -[replicate].
  rewrite list_lookup_total_alt. destruct (replicate 64 None !! Z.to_nat i) as [b|] eqn:E; [|done].
  apply lookup_replicate in E as [-> _]. done.
Qed.

Lemma takes_reach l w w' packets : takes l w w' ->
  faults (log w) = 0 /\ window (q w) ++ gone (log w) ≡ₚ packets ->
  faults (log w') = 0 /\ window (q w') ++ gone (log w') ≡ₚ l ++ packets.
Proof. intros [] [Hf Hp]. split; [congruence|]. by rewrite takes_packets, Hp. Qed.

(** Everything given to the queue is accounted for. *)
Definition rod_holds (packets : list mtlk_nbuf_t) (w : rod) : Prop :=
  rod_ok w /\ faults (log w) = 0 /\ window (q w) ++ gone (log w) ≡ₚ packets.

Lemma exec_op_holds now op l w : rod_holds l w -> op_ok w op -> rod_holds (op_packets op ++ l) (exec_op now op w).
Proof.
  intros ([Hr Hw] & IH2) Hop. destruct op as [s nb|s| |vap win s c o|]; cbn [op_ok exec_op op_packets] in *.
  - destruct (reorder_packet_spec group_cipher now s nb w Hr Hop) as [H1 H2].
    split; [split; [done|by eapply wss_ok_takes]|]. by eapply takes_reach.
  - destruct (process_bar_spec group_cipher now s w Hr) as [H1 H2].
    split; [split; [done|by eapply wss_ok_takes]|]. by eapply takes_reach.
  - destruct (timer_spec group_cipher time_after ms_to_timestamp now w Hr) as [H1 H2].
    split; [split; [done|by eapply wss_ok_takes]|]. by eapply takes_reach.
  - destruct Hop as (Hu & HW & Hs).
    destruct (create_spec group_cipher timestamp_to_ms now vap win s c o w (conj Hr Hw) Hu HW Hs) as (H1 & H2 & H3 & H4).
    destruct IH2 as [I1 I2]. split; [done|]. rewrite H2, H3, H4. split; [done|].
    destruct Hr as [[[] _]|(_ & _ & He)]; [congruence|]. by rewrite (empty_window _ He) in I2.
  - destruct (clear_spec group_cipher now w (conj Hr Hw)) as (H1 & H2 & H3 & H4 & H5).
    destruct IH2 as [I1 I2]. split; [done|]. rewrite H3, H4, H5. by split.
Qed.

Lemma holds_unused packets w : rod_holds packets w -> used (q w) = 0 -> window (q w) = [].
Proof. intros [[[[[] _]|(_ & _ & He)] _] _] Hu; [congruence|]. by apply empty_window. Qed.

(** C9. Under packets, block ack requests, timer ticks, creations and clearings
    with 12-bit numbers, where a queue is created only when not in use and with
    a window of 1 to [MAX_REORD_WINDOW] ([op_ok]; the other cases overrun the
    array or leak, [RodErr.rod_window_overrun] and
    [RodErr.rod_recreate_leaks]): in every state of a queue no access left the
    array, no statistics object was used after its deletion, exactly one is
    held while the queue is in use, and every packet given to the queue is,
    exactly once, handed to replay detection, freed, or waiting in the window;
    nothing waits in a queue not in use. *)
Theorem rod_conserves packets w : rod_reach packets w ->
  rod_ok w /\ faults (log w) = 0 /\ window (q w) ++ gone (log w) ≡ₚ packets /\ (used (q w) = 0 -> window (q w) = []).
Proof.
  intros H. assert (rod_holds packets w) as Hh.
  { induction H as [|l w now op H IH Hop]; [by split; [apply rod_boot_ok|]|by apply exec_op_holds]. }
  pose proof Hh as (H1 & H2 & H3). split; [done|split; [done|split; [done|]]]. by eapply holds_unused.
Qed.

Lemma flush_loop_done fuel now w : count (q w) = 0 -> flush_loop group_cipher now fuel w = w.
Proof. intros Hc. destruct fuel as [|fuel]; [done|]. cbn [flush_loop]. by rewrite Hc. Qed.

Lemma flush_loop_more fuel k now w : count (q (flush_loop group_cipher now fuel w)) = 0 ->
  flush_loop group_cipher now (fuel + k) w = flush_loop group_cipher now fuel w.
Proof.
  revert w. induction fuel as [|fuel IH]; intros w Hc; [by apply flush_loop_done|]. cbn [flush_loop Nat.add] in *.
  destruct (count (q w) =? 0); [done|]. by apply IH.
Qed.

(** The flush loop, which runs until the count of held packets is zero,
    ends after at most two turns per slot, for every window size and also when
    the sequence number wraps on the way: more fuel changes nothing, the queue
    is empty, and every packet it held has left it. *)
Theorem rod_flush_terminates now w fuel : rq_on (q w) -> head (q w) < 4096 -> 2 * window_size (q w) <= Z.of_nat fuel ->
  let w' := flush_loop group_cipher now fuel w in
  w' = mtlk_flush_rod_queue group_cipher now w /\ count (q w') = 0 /\ window (q w') = [] /\
  gone (log w') ≡ₚ window (q w) ++ gone (log w).
Proof.
  intros Hon Hh Hf. destruct (flush_spec group_cipher now w Hon Hh) as (H1 & H2 & _ & H3).
  assert (flush_loop group_cipher now fuel w = mtlk_flush_rod_queue group_cipher now w) as ->.
  { unfold mtlk_flush_rod_queue in *. pose proof (on_window _ Hon).
    replace fuel with (Z.to_nat (2 * window_size (q w)) + (fuel - Z.to_nat (2 * window_size (q w))))%nat by lia.
    by apply flush_loop_more. }
  pose proof (count_zero_window _ H1 H3) as H4. split; [done|split; [done|split; [done|]]].
  pose proof (tame_packets _ _ H2) as Hp. rewrite H4 in Hp. exact Hp.
Qed.

(** ** Refinement *)

Definition win_label (a : awin) (op : rod_op) : win_op :=
  match op with
  | OpPacket s nb => WPacket (unwrap (a_next a) s) nb
  | OpBar s => WBar (unwrap (a_next a) s)
  | _ => WTimer
  end.

Lemma traffic_rest now op w : is_traffic op = true -> rq_on (q w) -> head (q w) < 4096 ->
  head (q (exec_op now op w)) < 4096.
Proof.
  intros Ht Hon Hh. assert (rq_rest (q w)) as Hr by (by left). destruct op; try done; cbn [is_traffic exec_op] in *; zbool.
  - destruct (reorder_packet_spec group_cipher now seq nb w Hr ltac:(lia)) as [[[_ H1]|[H1 _]] H2]; [done|].
    rewrite (takes_used _ _ _ H2), (on_used _ Hon) in H1. done.
  - destruct (process_bar_spec group_cipher now ssn w Hr) as [[[_ H1]|[H1 _]] H2]; [done|].
    rewrite (takes_used _ _ _ H2), (on_used _ Hon) in H1. done.
  - destruct (timer_spec group_cipher time_after ms_to_timestamp now w Hr) as [[[_ H1]|[H1 _]] H2]; [done|].
    rewrite (takes_used _ _ _ H2), (on_used _ Hon) in H1. done.
Qed.

Lemma traffic_rel now op w a : is_traffic op = true -> wrel w a -> head (q w) < 4096 -> (window_size (q w) | 4096) ->
  exists out a', win_step (window_size (q w)) a (win_label a op) out a' /\ yields w (exec_op now op w) out a'.
Proof.
  intros Ht Hw Hh Hd. destruct op; try done; cbn [is_traffic exec_op win_label] in *; zbool.
  - apply packet_rel; try done; lia.
  - apply bar_rel; try done; lia.
  - by apply timer_rel.
Qed.


End theorems.

(** * What reaches the layers above the reordering queue

    Order and provenance of the packets handed to replay detection, and their
    composition with replay detection itself. *)

(** ** Ascending runs of numbered packets *)

Fixpoint ascending (lo : Z) (l : list (Z * mtlk_nbuf_t)) (hi : Z) : Prop :=
  match l with
  | [] => lo <= hi
  | p :: l => lo <= p.1 /\ ascending (p.1 + 1) l hi
  end.

Lemma ascending_app lo mid hi l1 l2 : ascending lo l1 mid -> ascending mid l2 hi -> ascending lo (l1 ++ l2) hi.
Proof.
  revert lo. induction l1 as [|p l1 IH]; intros lo; simpl.
  - destruct l2 as [|p l2]; simpl; [lia|]. intros H [H1 H2]. split; [lia|done].
  - intros [H1 H2] H3. split; [done|by apply IH].
Qed.

Lemma ascending_range lo hi l p : ascending lo l hi -> p ∈ l -> lo <= p.1 < hi.
Proof.
  revert lo. induction l as [|x l IH]; intros lo H Hp; [by apply elem_of_nil in Hp|]. destruct H as [H1 H2].
  assert (forall m, ascending m l hi -> m <= hi) as Hm.
  { clear. induction l as [|y l IH]; intros m; simpl; [done|]. intros [H1 H2]. apply IH in H2. lia. }
  apply elem_of_cons in Hp as [->|Hp]; [specialize (Hm _ H2); lia|]. specialize (IH _ H2 Hp). lia.
Qed.

Lemma ascending_sorted lo hi l : ascending lo l hi -> StronglySorted Z.lt l.*1.
Proof.
  revert lo. induction l as [|p l IH]; intros lo H; [constructor|]. destruct H as [H1 H2]. simpl. constructor; [by eapply IH|].
  apply Forall_forall. intros x Hx. apply list_elem_of_fmap in Hx as (y & -> & Hy).
  pose proof (ascending_range _ _ _ _ H2 Hy). lia.
Qed.

Lemma released_ascending a m : a_next a <= m -> ascending (a_next a) (released a m) m.
Proof.
  intros Hm. replace m with (a_next a + Z.of_nat (Z.to_nat (m - a_next a))) by lia.
  generalize (Z.to_nat (m - a_next a)) as n. induction n as [|n IH]; [rewrite released_nil by lia; simpl; lia|].
  rewrite Nat2Z.inj_succ, <-Z.add_1_r, Z.add_assoc, released_snoc by lia. eapply ascending_app; [exact IH|].
  destruct (a_buf a !! _); simpl; lia.
Qed.

Lemma released_elem a m s nb : (s, nb) ∈ released a m -> a_buf a !! s = Some nb.
Proof.
  unfold released. rewrite list_elem_of_omap. intros (x & _ & Hx). destruct (a_buf a !! x) eqn:E; simplify_eq/=. done.
Qed.

Lemma a_move_elem m a s nb : a_buf (a_move m a) !! s = Some nb -> a_buf a !! s = Some nb.
Proof. rewrite a_move_lookup. by case_match. Qed.

(** ** One step of the window *)

(** The packets of [P] in the window or given to it. *)
Definition label_packet (l : win_op) (s : Z) (nb : mtlk_nbuf_t) : Prop :=
  match l with WPacket s' nb' => s = s' /\ nb = nb' | _ => False end.

Lemma win_step_spec W a l out a' : win_step W a l out a' ->
  ascending (a_next a) out (a_next a') /\
  (forall s nb, (s, nb) ∈ out \/ a_buf a' !! s = Some nb -> a_buf a !! s = Some nb \/ label_packet l s nb) /\
  (a_buf a !! a_next a = None -> a_buf a' !! a_next a' = None).
Proof.
  destruct 1 as [s nb Hs|s nb Hs Hd|s nb a1 m Hs Hn -> (G1 & G2 & G3)|s Hs|s m Hs (G1 & G2 & G3)| |m Hm He].
  1,2,4,6: split; [simpl; lia|split; [|done]]; intros ? ? [[]%elem_of_nil|?]; by left.
  - cbn [a_next a_put a_move] in *. split; [|split].
    + eapply ascending_app; [apply released_ascending; cbn; lia|exact (released_ascending (a_put s nb (a_move (Z.max (a_next a) (s - W + 1)) a)) m G1)].
    + assert (forall x y, a_buf (a_put s nb (a_move (Z.max (a_next a) (s - W + 1)) a)) !! x = Some y ->
        a_buf a !! x = Some y \/ label_packet (WPacket s nb) x y) as Hp.
      { intros x y. cbn [a_buf a_put]. rewrite lookup_insert_Some. intros [[<- <-]|[_ E]]; [by right|left].
        by eapply a_move_elem. }
      intros x y [Hx|Hx]; [|by apply Hp, (a_move_elem m)].
      apply elem_of_app in Hx as [Hx|Hx]; apply released_elem in Hx; [by left|by apply Hp].
    + intros _. rewrite a_move_lookup. by case_match.
  - cbn [a_next a_move] in *. split; [|split].
    + eapply ascending_app; [by apply released_ascending|]. by apply (released_ascending (a_move s a)).
    + intros x y [Hx|Hx]; left; [|by do 2 eapply a_move_elem].
      apply elem_of_app in Hx as [Hx|Hx]; apply released_elem in Hx; [done|by eapply a_move_elem].
    + intros _. rewrite a_move_lookup. by case_match.
  - split; [by apply released_ascending|split].
    + intros x y [Hx|Hx]; left; [by eapply released_elem|by eapply a_move_elem].
    + intros _. by rewrite He.
Qed.

Section order.
Context (group_cipher : Z -> Z) (time_after : Z -> Z -> bool) (ms_to_timestamp timestamp_to_ms : Z -> Z).
Abbreviation run := (RodThms.run group_cipher time_after ms_to_timestamp timestamp_to_ms).
Abbreviation exec_op := (RodThms.exec_op group_cipher time_after ms_to_timestamp timestamp_to_ms).

(** A queue just created. *)
Record fresh (w : rod) : Prop := {
  fresh_on : rq_on (q w);
  fresh_head : head (q w) < 4096;
  fresh_div : (window_size (q w) | 4096);
  fresh_empty : forall i, 0 <= i -> slot_at (q w) i = None;
}.

Lemma fresh_rel w : fresh w -> wrel w (Awin (head (q w)) ∅).
Proof.
  intros [Hon Hh Hd He]. constructor; [done|done|..]; cbn; [|done]. intros s _. rewrite lookup_empty.
  apply He, slot_of_range, (on_window _ Hon).
Qed.

Definition traffic (ops : list (Z * rod_op)) : Prop := Forall (fun p => is_traffic p.2 = true) ops.

(** A packet is one of those received, under a number its 12-bit one stands for. *)
Definition received (ops : list (Z * rod_op)) (s : Z) (nb : mtlk_nbuf_t) : Prop :=
  OpPacket (s `mod` 4096) nb ∈ ops.*2.

Lemma run_order (P : Z -> mtlk_nbuf_t -> Prop) ops w a : traffic ops -> wrel w a -> head (q w) < 4096 ->
  (window_size (q w) | 4096) -> (forall s nb, a_buf a !! s = Some nb -> P s nb) ->
  (forall s nb, received ops s nb -> P s nb) -> a_buf a !! a_next a = None ->
  exists out a', wrel (run ops w) a' /\ window_size (q (run ops w)) = window_size (q w) /\ handed (log (run ops w)) = handed (log w) ++ out.*2 /\
    ascending (a_next a) out (a_next a') /\ (forall s nb, (s, nb) ∈ out -> P s nb) /\ a_buf a' !! a_next a' = None.
Proof.
  intros Ht. revert w a. induction Ht as [|[t op] ops Hop Ht IH]; intros w a Hw Hh Hd Hb HP Hg.
  - exists [], a. split; [done|split; [done|]]. cbn. rewrite app_nil_r. split; [done|split; [lia|split; [|done]]].
    intros s nb []%elem_of_nil.
  - cbn [snd] in Hop. destruct (traffic_rel group_cipher time_after ms_to_timestamp timestamp_to_ms t op w a Hop Hw Hh Hd)
      as (out & a1 & H1 & H2 & H3 & H4).
    destruct (win_step_spec _ _ _ _ _ H1) as (H5 & H6 & H7).
    assert (forall s nb, (s, nb) ∈ out \/ a_buf a1 !! s = Some nb -> P s nb) as H8.
    { intros s nb Hs. destruct (H6 s nb Hs) as [E|E]; [by apply Hb|]. apply HP.
      destruct op; try done; cbn [win_label label_packet is_traffic] in *; try done. destruct E as [-> ->].
      zbool. unfold received. rewrite unwrap_mod by lia. left. }
    pose proof (traffic_rest group_cipher time_after ms_to_timestamp timestamp_to_ms t op w Hop (wr_on _ _ Hw) Hh) as H9.
    edestruct (IH _ a1 H2 H9) as (out' & a' & I1 & I1' & I2 & I3 & I4 & I5); [by rewrite H3|by auto| |by auto|].
    { intros s nb Hr. apply HP. by right. }
    exists (out ++ out'), a'. split; [exact I1|split; [by rewrite <-H3|split; [|split; [by eapply ascending_app|split; [|done]]]]].
    + change (run ((t, op) :: ops) w) with (run ops (exec_op t op w)). rewrite I2, H4, fmap_app. by rewrite (assoc_L (++)).
    + intros s nb [Hs|Hs]%elem_of_app; [by apply H8; left|by apply I4].
Qed.


End order.
