(* ===== verification/RodReplay.v ===== *)
(** * RodReplay: the reordering queue and replay detection together

    Each packet handed up is judged against the counter the previous one left,
    so the packets delivered are those of one replay-checked stream. *)
From S2P Require Import Prelude Replay Rod RodInv RodWin RodThms.
From Stdlib Require Import Sorted.

(** What the log says of the packets handed up. *)
Definition up_of (e : rod_ev) : option (mtlk_nbuf_t * list rx_ev) :=
  match e with RodUp nb evs => Some (nb, evs) | _ => None end.
Definition ups (l : list rod_ev) : list (mtlk_nbuf_t * list rx_ev) := omap up_of l.
Definition sent_up (l : list rod_ev) : list Z := ups l ≫= (fun p => sends p.2).

(** Successive calls of replay detection, from counter [r] to [r']. *)
Fixpoint chain (gc : Z) (r : list Z) (l : list (mtlk_nbuf_t * list rx_ev)) (r' : list Z) : Prop :=
  match l with
  | [] => r' = r
  | p :: l =>
      let d := mtlk_detect_replay_or_sendup gc p.1 r in
      p.2 = d.2 /\ chain gc d.1.2 l r'
  end.

Lemma chain_app gc r l1 r1 l2 r2 : chain gc r l1 r1 -> chain gc r1 l2 r2 -> chain gc r (l1 ++ l2) r2.
Proof. revert r. induction l1 as [|p l1 IH]; intros r; simpl; [by intros ->|]. intros [H1 H2] H3. split; [done|by apply IH]. Qed.

Lemma ups_app l1 l2 : ups (l1 ++ l2) = ups l1 ++ ups l2.
Proof. apply omap_app. Qed.
Lemma ups_handed l : (ups l).*1 = handed l.
Proof. induction l as [|[] l IH]; cbn; [done|f_equal; exact IH|exact IH..]. Qed.

Section compose.
Context (group_cipher : Z -> Z) (time_after : Z -> Z -> bool) (ms_to_timestamp timestamp_to_ms : Z -> Z).

Definition chained (w w' : rod) : Prop :=
  vap_handle (q w') = vap_handle (q w) /\
  exists ext, ups (log w') = ups (log w) ++ ext /\ chain (group_cipher (vap_handle (q w))) (rsc (q w)) ext (rsc (q w')).

#[local] Instance chained_preorder : PreOrder chained.
Proof.
  split; [intros w; split; [done|]; exists []; by rewrite app_nil_r|].
  intros x y z [H1 (e1 & H2 & H3)] [H4 (e2 & H5 & H6)]. split; [congruence|]. exists (e1 ++ e2).
  rewrite H5, H2, <-(assoc_L (++)). split; [done|]. rewrite H1 in H6. by eapply chain_app.
Qed.

Lemma chained_upd f w : vap_handle (f (q w)) = vap_handle (q w) -> rsc (f (q w)) = rsc (q w) -> chained w (upd f w).
Proof. intros H1 H2. split; [done|]. exists []. rewrite app_nil_r. split; [done|exact H2]. Qed.

Lemma chained_emit e w : up_of e = None -> chained w (emit e w).
Proof. intros H. split; [done|]. exists []. rewrite app_nil_r. split; [|done]. cbn. rewrite ups_app. cbn. rewrite H. by rewrite app_nil_r. Qed.

Lemma chained_touch i w : chained w (touch i w).
Proof. unfold touch. case_match; [done|by apply chained_emit]. Qed.

Lemma chained_sendup nb w : chained w (mtlk_rod_detect_replay_or_sendup group_cipher nb w).
Proof.
  unfold mtlk_rod_detect_replay_or_sendup.
  destruct (mtlk_detect_replay_or_sendup (group_cipher (vap_handle (q w))) nb (rsc (q w))) as [[res rsc'] evs] eqn:E.
  split; [done|]. exists [(nb, evs)]. cbn. rewrite ups_app, E. by split.
Qed.

#[local] Hint Resolve chained_touch chained_sendup : wave.

Lemma chained_retire now s w : chained w (retire_slot group_cipher now s w).
Proof.
  unfold retire_slot. etransitivity; [apply (chained_touch (slot_of (q w) s))|]. case_match; [|by apply chained_upd].
  etransitivity; [apply chained_sendup|]. by apply chained_upd.
Qed.

Lemma chained_move now n w : chained w (rod_move_window group_cipher now n w).
Proof.
  unfold rod_move_window. etransitivity; [|by apply chained_upd].
  generalize (Z.to_nat n) as k. induction k as [|k IH]; [done|]. rewrite Nat.iter_succ. etransitivity; [exact IH|].
  unfold move_head. etransitivity; [apply chained_retire|]. by apply chained_upd.
Qed.

Lemma chained_slide now d w : chained w (slide_for group_cipher now d w).
Proof. unfold slide_for. case_match; [|done]. etransitivity; [|apply chained_move]. by apply chained_upd. Qed.

Lemma chained_flush_loop now fuel w : chained w (flush_loop group_cipher now fuel w).
Proof.
  revert w. induction fuel as [|fuel IH]; intros w; [done|]. cbn [flush_loop]. case_match; [done|].
  etransitivity; [apply chained_move|apply IH].
Qed.

Lemma chained_retire_loop now fuel loc w : chained w (retire_loop group_cipher now fuel loc w).
Proof.
  revert loc w. induction fuel as [|fuel IH]; intros loc w; [done|]. rewrite retire_loop_S.
  etransitivity; [apply (chained_touch loc)|]. case_match; [|done]. cbv zeta.
  etransitivity; [apply (chained_retire now loc)|]. etransitivity; [|apply IH]. by apply chained_upd.
Qed.

Lemma chained_retire_queue now w : chained w (retire_rod_queue group_cipher now w).
Proof. unfold retire_rod_queue. etransitivity; [apply chained_retire_loop|]. by apply chained_upd. Qed.

Lemma chained_traffic now op w : is_traffic op = true ->
  chained w (exec_op group_cipher time_after ms_to_timestamp timestamp_to_ms now op w).
Proof.
  intros Ht. destruct op; try done; cbn [exec_op].
  - unfold mtlk_reorder_packet. case_match; [apply chained_sendup|]. case_match.
    { etransitivity; [by apply (chained_upd (set_stats inc_too_old))|].
      etransitivity; [by apply (chained_emit (RodCnt ROD_CNT_TOO_OLD))|]. by apply chained_emit. }
    etransitivity; [apply (chained_slide now (SEQ_DISTANCE (head (q w)) seq))|].
    set (w1 := slide_for _ _ _ w). etransitivity; [apply (chained_touch (slot_of (q w1) seq))|]. case_match; cbn [snd].
    + etransitivity; [by apply (chained_emit (RodFree nb (mtlk_df_nbuf_free_sub_frames nb)))|].
      etransitivity; [by apply (chained_upd (set_stats inc_duplicate))|]. by apply chained_emit.
    + etransitivity; [|apply chained_retire_queue]. by apply chained_upd.
  - unfold mtlk_rod_process_bar. case_match; [done|]. case_match; [done|]. cbn [snd].
    etransitivity; [apply chained_move|apply chained_retire_queue].
  - unfold mtlk_handle_rod_queue_timer. case_match; [|done]. case_match; [|done]. apply chained_flush_loop.
Qed.

Lemma chained_run ops w : traffic ops -> chained w (run group_cipher time_after ms_to_timestamp timestamp_to_ms ops w).
Proof.
  intros Ht. revert w. induction Ht as [|[t op] ops Hop Ht IH]; intros w; [done|].
  etransitivity; [by apply (chained_traffic t op)|apply IH].
Qed.

(** ** Streams of numbered packets *)

(** The packets of a stream that replay detection accepts. *)
Fixpoint accepted (gc : Z) (r : list Z) (l : list (Z * mtlk_nbuf_t)) : list (Z * mtlk_nbuf_t) :=
  match l with
  | [] => []
  | p :: l =>
      let d := mtlk_detect_replay_or_sendup gc p.2 r in
      if d.1.1 =? 0 then p :: accepted gc d.1.2 l else accepted gc d.1.2 l
  end.

Definition sub_frames (nb : mtlk_nbuf_t) : list Z := nb_id nb :: nb_sub_frames nb.

Lemma chain_sends gc r ext r' l : chain gc r ext r' -> ext.*1 = l.*2 ->
  ext ≫= (fun p => sends p.2) = accepted gc r l ≫= (fun p => sub_frames p.2).
Proof.
  revert r ext. induction l as [|p l IH]; intros r [|[nb evs] ext]; try done. cbn [chain].
  intros [H1 H2] H3. injection H3 as -> H3. cbn [snd fst accepted] in *. subst evs.
  rewrite bind_cons. cbn [snd]. rewrite (detect_sends gc p.2 r). case_match; [rewrite bind_cons; f_equal|]; by apply IH.
Qed.

Definition pn_of (gc : Z) (p : Z * mtlk_nbuf_t) : Z := frame_pn gc p.2.
Definition pn_end (gc : Z) (p : Z * mtlk_nbuf_t) : Z := frame_pn gc p.2 + frame_nfrags p.2.

Lemma accepted_increasing gc r l : rsc_wf r -> Forall (fun p => frame_ok gc p.2) l ->
  StronglySorted Z.lt (pn_of gc <$> accepted gc r l) /\ Forall (fun p => be_value r < pn_of gc p) (accepted gc r l).
Proof.
  intros Hr Hl. revert r Hr. induction Hl as [|p l Hp Hl IH]; intros r Hr; [by split; constructor|]. cbn [accepted].
  destruct (detect_value gc p.2 r Hp Hr) as (H1 & H2 & H3 & _). cbv zeta in *.
  pose proof (frame_nfrags_range p.2 (proj1 Hp)). destruct (IH _ H1) as [I1 I2].
  destruct (Z.eqb_spec (mtlk_detect_replay_or_sendup gc p.2 r).1.1 0) as [E|E].
  - destruct (H2 E) as [H4 H5]. rewrite H5 in I2. split; constructor; try done.
    + apply Forall_fmap. eapply Forall_impl; [exact I2|]. cbn. unfold pn_of. lia.
    + eapply Forall_impl; [exact I2|]. cbn. unfold pn_of. lia.
  - by rewrite (H3 E) in *.
Qed.

(** Packet numbers following the sequence numbers, and no MIC failures. *)
Definition numbered (gc : Z) (l : list (Z * mtlk_nbuf_t)) : Prop :=
  (forall p, p ∈ l -> Z.land (nb_rcn_bits p.2) UMI_NOTIFICATION_MIC_FAILURE = 0) /\
  (forall p1 p2, p1 ∈ l -> p2 ∈ l -> p1.1 < p2.1 -> pn_end gc p1 < pn_of gc p2).

Lemma accepted_all gc r lo l hi : rsc_wf r -> Forall (fun p => frame_ok gc p.2) l -> ascending lo l hi ->
  numbered gc l -> (forall p, p ∈ l -> be_value r < pn_of gc p) -> accepted gc r l = l.
Proof.
  intros Hr Hl. revert r lo Hr. induction Hl as [|p l Hp Hl IH]; intros r lo Hr Ha [Hn1 Hn2] Hlt; [done|]. cbn [accepted].
  destruct (detect_value gc p.2 r Hp Hr) as (H1 & H2 & _ & H4). cbv zeta in *.
  assert ((mtlk_detect_replay_or_sendup gc p.2 r).1.1 = 0) as E by (apply H4; [apply Hlt; left|apply Hn1; left]).
  destruct (H2 E) as [_ H5]. rewrite E. cbn [Z.eqb]. f_equal. destruct Ha as [_ Ha]. eapply IH; [done|exact Ha|..].
  - split; [intros p1 Hp1; apply Hn1; by right|]. intros p1 p2 Hp1 Hp2. apply Hn2; by right.
  - intros p2 Hp2. rewrite H5. change (pn_end gc p < pn_of gc p2). apply Hn2; [left|by right|].
    pose proof (ascending_range _ _ _ _ Ha Hp2). lia.
Qed.


End compose.
