(* ===== verification/RodErr.v ===== *)
(** * RodErr: where the reordering queue goes wrong

    Window sizes that do not divide 4096, window sizes beyond the slot array,
    and creating a queue that is in use. *)
From S2P Require Import Prelude Reflim TxmmIface Addba Replay Rod RodInv RodWin RodThms RodReplay.
From Stdlib Require Import Permutation Sorted.

(** A queue just created with window [W] and head [h]. *)
Definition new_queue (W h : Z) : rod :=
  Rod (Rq 0 1 0 h W 0 (replicate 64 None) 0 (RStats 0 0 0 0 0) (replicate 6 0) (Some 0)) [0] 1 [].

Section errors.
Context (group_cipher : Z -> Z) (timestamp_to_ms : Z -> Z).

(** The log only grows. *)
Definition log_le (w w' : rod) : Prop := log w `prefix_of` log w'.
#[local] Instance log_le_preorder : PreOrder log_le.
Proof. split; [intros w; unfold log_le; reflexivity|]. intros x y z. unfold log_le. apply transitivity. Qed.

Lemma log_le_touch i w : log_le w (touch i w).
Proof. unfold touch. case_match; [done|]. by eexists. Qed.

Lemma log_le_retire now s w : log_le w (retire_slot group_cipher now s w).
Proof.
  unfold retire_slot. etransitivity; [apply (log_le_touch (slot_of (q w) s))|]. case_match; [|by eexists; rewrite app_nil_r].
  unfold mtlk_rod_detect_replay_or_sendup.
  destruct (mtlk_detect_replay_or_sendup _ _ _) as [[res rsc'] evs]. by eexists.
Qed.

Lemma log_le_retire_queue now w : log_le w (retire_rod_queue group_cipher now w).
Proof.
  unfold retire_rod_queue. generalize (S (Z.to_nat (window_size (q w)))) (slot_of (q w) (head (q w))). intros fuel loc.
  change (log_le w (retire_loop group_cipher now fuel loc w)). revert loc w.
  induction fuel as [|fuel IH]; intros loc w; [done|]. rewrite retire_loop_S.
  etransitivity; [apply (log_le_touch loc)|]. case_match; [|done]. cbv zeta.
  etransitivity; [apply (log_le_retire now loc)|]. apply (IH _ (upd _ _)).
Qed.

Lemma log_le_elem w w' e : log_le w w' -> e ∈ log w -> e ∈ log w'.
Proof. intros [k Hk] He. rewrite Hk. apply elem_of_app. by left. Qed.

(** A peer may ask for a window of up to 255 (the negotiation only replaces
    0), and the queue is created with it; a packet within such a window whose
    slot is 64 or more is then stored outside the array of 64 slots. *)
Theorem rod_window_overrun now W h seq nb w : 64 < W < 256 -> w = new_queue W h -> 0 <= h < 4096 -> 0 <= seq < 4096 ->
  SEQ_DISTANCE h seq < W -> MAX_REORD_WINDOW <= seq `mod` W ->
  _mtlk_addba_correct_res_win_size W = W /\ RodFault FaultSlot ∈ log (mtlk_reorder_packet group_cipher now seq nb w).2.
Proof.
  intros HW -> Hh Hs Hd Hslot. split.
  { unfold _mtlk_addba_correct_res_win_size. case_match; zbool; [lia|done]. }
  unfold mtlk_reorder_packet. cbn [used q new_queue Z.eqb head].
  change (SEQUENCE_NUMBER_LIMIT / 2) with 2048. rewrite (proj2 (Z.ltb_ge _ _)) by lia.
  unfold slide_for. cbn [window_size q new_queue]. rewrite (proj2 (Z.leb_gt _ _)) by lia.
  unfold slot_of. cbn [window_size q new_queue]. unfold touch. cbn [window_size q new_queue].
  rewrite (proj2 (Z.ltb_ge (seq `mod` W) _)) by lia. rewrite andb_false_r.
  assert (slot_at (q (emit (RodFault FaultSlot) (new_queue W h))) (seq `mod` W) = None) as E.
  { unfold slot_at. cbn [emit q new_queue nbuf]. rewrite list_lookup_total_alt, lookup_ge_None_2; [done|].
    rewrite length_replicate. unfold MAX_REORD_WINDOW in Hslot. lia. }
  rewrite E. cbn [snd]. eapply log_le_elem; [apply log_le_retire_queue|]. left.
Qed.

Lemma flush_id now w : count (q w) = 0 -> mtlk_flush_rod_queue group_cipher now w = w.
Proof. intros Hc. unfold mtlk_flush_rod_queue. by rewrite flush_loop_done. Qed.

(** Creating a queue in use, which the code allows for ("TS already
    exist"), flushes it but forgets its statistics object: after a successful
    creation two objects exist and clearing the queue deletes only the new
    one; after a failed one the queue stays in use without an object, and
    clearing it deletes through a null or stale pointer. *)
Theorem rod_recreate_leaks now vap win ssn created opened w x : rod_ok w -> used (q w) = 1 ->
  wss (q w) = Some x -> x < wss_next w -> 0 < win <= MAX_REORD_WINDOW -> 0 <= ssn < 4096 ->
  let '(res, w1) := mtlk_create_rod_queue group_cipher timestamp_to_ms now vap win ssn created opened w in
  let w2 := mtlk_clear_rod_queue group_cipher now w1 in
  used (q w1) = 1 /\ used (q w2) = 0 /\ x ∈ wss_live w2 /\ (res <> MTLK_ERR_OK -> faults (log w2) = faults (log w) + 1).
Proof.
  intros [[[Hon Hh]|[]] Hw] Hu Hx Hnew HW Hs; [|congruence].
  unfold wss_ok in Hw. rewrite Hu, Hx in Hw. destruct Hw as (y & [= <-] & Hlive).
  unfold mtlk_create_rod_queue. rewrite Hu. cbn [Z.eqb Pos.eqb].
  destruct (flush_spec group_cipher now w Hon Hh) as (H1 & H2 & H3 & H4). set (w0 := mtlk_flush_rod_queue _ _ w) in *.
  pose proof (tame_live _ _ H2) as HL. pose proof (tame_next _ _ H2) as HN. pose proof (tame_faults _ _ H2) as HF.
  rewrite Hlive in HL. pose proof (on_used _ H1) as Hu1. destruct created; cbn [negb].
  - unfold wss_create. rewrite HL, HN. destruct (Z.eqb_spec opened MTLK_ERR_OK) as [Ho|Ho]; cbn [negb].
    + unfold mtlk_clear_rod_queue. cbn [upd q used Z.eqb Pos.eqb negb]. rewrite flush_id by done.
      unfold wss_delete. cbn [upd q set_used set_wss wss wss_live used]. rewrite decide_True by left. cbn [q used wss_live log].
      split; [done|split; [done|split; [|done]]]. apply list_elem_of_filter. split; [lia|right; left].
    + unfold wss_delete at 1 2 3 4. cbn [q set_wss wss wss_live wss_next log]. rewrite decide_True by left.
      unfold mtlk_clear_rod_queue. cbn [q set_wss used]. rewrite Hu1. cbn [Z.eqb Pos.eqb negb].
      rewrite flush_id by exact H4. unfold wss_delete. cbn [upd q set_used set_wss wss wss_live used log].
      rewrite decide_False by (intros [H5 _]%list_elem_of_filter; by apply H5). cbn [emit q used wss_live log].
      split; [done|split; [done|split]]; [apply list_elem_of_filter; split; [lia|right; left]|].
      intros _. rewrite faults_app. cbn [log upd]. rewrite HF. done.
  - unfold mtlk_clear_rod_queue, wss_create. cbn [upd q set_wss used]. rewrite Hu1. cbn [Z.eqb Pos.eqb negb].
    rewrite flush_id by exact H4. unfold wss_delete. cbn [upd q set_used set_wss wss wss_live emit used log]. rewrite HL.
    split; [done|split; [done|split; [left|]]]. intros _. rewrite faults_app. cbn [log upd]. rewrite HF. done.
Qed.

(** A window that does not divide 4096 loses packets when the sequence
    number wraps: with 4095 waiting, the number (4096 mod W) - 1 after the
    wrap falls into the same slot although it lies in the window, and its
    packet is counted as a duplicate and freed. (17 is the one size where the
    two numbers are a window apart.) *)
Theorem rod_window_collision now W nb1 nb2 : 0 < W <= 64 -> 4096 `mod` W <> 0 -> W <> 17 ->
  let s := 4096 `mod` W - 1 in
  let w := (mtlk_reorder_packet group_cipher now 4095 nb1 (new_queue W 4094)).2 in
  let w' := (mtlk_reorder_packet group_cipher now s nb2 w).2 in
  SEQ_DISTANCE (head (q w)) s < W /\ s <> 4095 /\
  slot_at (q w') (slot_of (q w') s) = Some nb1 /\
  log w' = log w ++ [RodFree nb2 (mtlk_df_nbuf_free_sub_frames nb2); RodCnt ROD_CNT_DUPLICATE] /\
  duplicate (stats (q w')) = 1.
Proof.
  intros HW Hm H17. destruct W as [|p|p]; try lia.
  do 7 (destruct p as [p|p|]; [| |try (by exfalso; apply Hm; reflexivity); try (by vm_compute)]); try lia.
  all: try (by exfalso; apply Hm; reflexivity).
Qed.

End errors.
