(* ===== verification/RodExamples.v ===== *)
(** * RodExamples: the reordering queue on concrete traffic *)
From S2P Require Import Prelude Replay Rod RodInv RodWin RodThms RodReplay RodErr.
From Stdlib Require Import Permutation Sorted.

Definition demo_cipher (vap : Z) : Z := IW_ENCODE_ALG_CCMP.
Definition demo_after (a b : Z) : bool := b <? a.
Definition demo_ms (x : Z) : Z := x.
Abbreviation demo_run := (run demo_cipher demo_after demo_ms demo_ms).
Abbreviation demo_exec := (exec_op demo_cipher demo_after demo_ms demo_ms).

Lemma new_queue_fresh W h : 0 < W <= 64 -> 0 <= h < 4096 -> (W | 4096) -> fresh (new_queue W h).
Proof.
  intros HW Hh Hd.
  assert (forall i, slot_at (q (new_queue W h)) i = None) as He.
  { intros i. unfold slot_at. cbn -[replicate]. rewrite list_lookup_total_alt.
    destruct (replicate 64 None !! Z.to_nat i) as [b|] eqn:E; [|done]. apply lookup_replicate in E as [-> _]. done. }
  constructor; [|cbn; lia|done|by intros]. constructor; cbn; try done; lia.
Qed.

(** Frames 1, 3, 2 around a wrap of the sequence number, one repeated, and a
    block ack request. *)
Definition demo_ops : list (Z * rod_op) :=
  [ (10, OpPacket 4095 (demo_frame 2 0)); (11, OpPacket 0 (demo_frame 3 0)); (12, OpPacket 0 (demo_frame 3 0));
    (13, OpPacket 4094 (demo_frame 1 0)); (14, OpPacket 3 (demo_frame 6 0)); (15, OpBar 2); (16, OpPacket 2 (demo_frame 5 0)) ].

Example demo_ops_order :
  nb_id <$> handed (log (demo_run demo_ops (new_queue 8 4094))) = [1; 2; 3; 5; 6] /\
  sent_up (log (demo_run demo_ops (new_queue 8 4094))) = [1; 2; 3; 5; 6] /\
  duplicate (stats (q (demo_run demo_ops (new_queue 8 4094)))) = 1.
Proof. vm_compute. done. Qed.

Lemma demo_traffic : traffic demo_ops.
Proof. repeat (apply Forall_cons; split; [done|]). by apply Forall_nil. Qed.


Lemma demo_frames_ok s nb : received demo_ops s nb -> frame_ok IW_ENCODE_ALG_CCMP nb.
Proof.
  unfold received. cbn. intros H.
  repeat (apply elem_of_cons in H as [H|H]; [try discriminate H; injection H as _ ->; apply demo_frame_ok; lia|]).
  by apply elem_of_nil in H.
Qed.



Lemma rod_flush_terminates_witness :
  let w := demo_run [(1, OpPacket 4095 (demo_frame 2 0)); (2, OpPacket 3 (demo_frame 6 0))] (new_queue 8 4094) in
  count (q w) = 2 /\ count (q (flush_loop demo_cipher 3 16 w)) = 0.
Proof.
  split; [vm_compute; reflexivity|].
  refine (proj1 (proj2 (rod_flush_terminates demo_cipher 3
    (demo_run [(1, OpPacket 4095 (demo_frame 2 0)); (2, OpPacket 3 (demo_frame 6 0))] (new_queue 8 4094)) 16 _ _ _))).
  - constructor; [vm_compute; done|vm_compute; done|vm_compute; done|vm_compute; done|vm_compute; done|].
    intros i Hi. assert (window_size (q (demo_run [(1, OpPacket 4095 (demo_frame 2 0)); (2, OpPacket 3 (demo_frame 6 0))] (new_queue 8 4094))) = 8) as HW by (vm_compute; reflexivity).
    rewrite HW in Hi. unfold slot_at.
    assert (nbuf (q (demo_run [(1, OpPacket 4095 (demo_frame 2 0)); (2, OpPacket 3 (demo_frame 6 0))] (new_queue 8 4094)))
      = [None; None; None; Some (demo_frame 6 0); None; None; None; Some (demo_frame 2 0)] ++ replicate 56 None) as -> by (vm_compute; reflexivity).
    rewrite list_lookup_total_alt, lookup_app_r by (simpl; lia).
    destruct (replicate 56 None !! (_ - _)%nat) as [b|] eqn:E; [|done]. apply lookup_replicate in E as [-> _]. done.
  - vm_compute. reflexivity.
  - vm_compute. discriminate.
Defined.

Lemma rod_conserves_witness : exists w, rod_reach demo_cipher demo_after demo_ms demo_ms [demo_frame 2 0; demo_frame 1 0] w /\ faults (log w) = 0.
Proof.
  exists (demo_exec 5 OpClear (demo_exec 3 (OpPacket 7 (demo_frame 2 0)) (demo_exec 2 (OpPacket 5 (demo_frame 1 0))
    (demo_exec 1 (OpCreate 0 16 5 true 0) rod_boot)))).
  assert (rod_reach demo_cipher demo_after demo_ms demo_ms [demo_frame 2 0; demo_frame 1 0]
    (demo_exec 5 OpClear (demo_exec 3 (OpPacket 7 (demo_frame 2 0)) (demo_exec 2 (OpPacket 5 (demo_frame 1 0))
    (demo_exec 1 (OpCreate 0 16 5 true 0) rod_boot))))) as Hr.
  { apply (reach_step _ _ _ _ _ _ 5 OpClear); [|done].
    apply (reach_step _ _ _ _ [demo_frame 1 0] _ 3 (OpPacket 7 (demo_frame 2 0))); [|done].
    apply (reach_step _ _ _ _ [] _ 2 (OpPacket 5 (demo_frame 1 0))); [|done].
    apply (reach_step _ _ _ _ [] _ 1 (OpCreate 0 16 5 true 0)); [apply reach_boot|]. done. }
  split; [exact Hr|]. exact (proj1 (proj2 (rod_conserves _ _ _ _ _ _ Hr))).
Defined.

Lemma rod_window_collision_witness :
  duplicate (stats (q (mtlk_reorder_packet demo_cipher 2 15 (demo_frame 18 0)
    (mtlk_reorder_packet demo_cipher 2 4095 (demo_frame 2 0) (new_queue 48 4094)).2).2)) = 1.
Proof.
  exact (proj2 (proj2 (proj2 (proj2 (rod_window_collision demo_cipher 2 48 (demo_frame 2 0) (demo_frame 18 0)
    ltac:(lia) ltac:(discriminate) ltac:(discriminate)))))).
Defined.

Lemma rod_window_overrun_witness :
  RodFault FaultSlot ∈ log (mtlk_reorder_packet demo_cipher 2 70 (demo_frame 2 0) (new_queue 200 0)).2.
Proof.
  refine (proj2 (rod_window_overrun demo_cipher 2 200 0 70 (demo_frame 2 0) (new_queue 200 0) _ eq_refl _ _ _ _));
    try lia; vm_compute; done.
Defined.

Lemma rod_recreate_leaks_witness :
  0 ∈ wss_live (mtlk_clear_rod_queue demo_cipher 3 (mtlk_create_rod_queue demo_cipher demo_ms 2 0 16 9 true 0 (new_queue 8 5)).2).
Proof.
  refine (proj1 (proj2 (proj2 (rod_recreate_leaks demo_cipher demo_ms 2 0 16 9 true 0 (new_queue 8 5) 0 _ eq_refl eq_refl _ _ _)))).
  - pose proof (new_queue_fresh 8 5 ltac:(lia) ltac:(lia) (Z.divide_factor_l 8 512)) as Hf.
    split; [left; split; [apply Hf|done]|]. exists 0. done.
  - done.
  - done.
  - done.
Defined.
