(* ===== verification/Sq.v ===== *)
(** * Sq: the send queue (wireless/driver/shared/mtlk_sq.c, linux/mtlk_sq_osdep.c)

    Packets wait per peer and per access category; [mtlk_sq_flush] hands them
    to the hardware, round robin over the peers of a category, categories in
    order of priority. The source's arrays over the four access categories are
    lists of per-category records. The answer of the transmit path
    ([_mtlk_sq_send_to_hw], that is [mtlk_xmit]) to the [n]-th packet it is
    given is [hw n packet]: the theorems hold for every [hw]. A multicast
    packet is queued as clones that share one [extra]; freed memory, a lookup
    of something that does not exist and an exhausted fuel are logged as
    faults. Every function here but the size counter updates of [enqueue] runs
    under the queue's lock. *)
From S2P Require Import Prelude.

Definition NTS_PRIORITIES : nat := 4.
Definition AC_BE : nat := 0.
Definition AC_BK : nat := 1.
Definition AC_VI : nat := 2.
Definition AC_VO : nat := 3.
Definition AC_HIGHEST : nat := AC_VO.
Definition MTLK_PACKETS_IN_MAC_DURING_PM : Z := 3.
Definition MTLK_SQ_TX_LIMIT_DEFAULT : Z := 64.
Definition MTLK_SQ_TX_LIMIT_LEGACY : Z := 2.

Definition sorted_qos_queues : list nat := [AC_BK; AC_BE; AC_VI; AC_VO].
Definition mtlk_get_ac_by_number (number : nat) : nat := sorted_qos_queues !!! number.

(** The send queue's view of a packet: its flags, destination, VAP, and the
    shared data of a multicast clone. *)
Record nbuf := Nbuf {
  nb_id : Z; urgent : bool; rmcast : bool; nb_vap : Z; dst_sta : option Z; extra : option Z
}.
Record extra_t := Extra { ref_cnt : Z; extra_ac : nat; extra_front : bool }.

Record peer_ac := PeerAc {
  buflist : list nbuf; limit_per_ac : Z; used_per_ac : Z;
  p_pushed : Z; p_sent_to_um : Z; p_limit_dropped : Z
}.
Record mtlk_sq_peer_ctx_t := PeerCtx {
  pacs : list peer_ac; limit_cfg : Z; limit : Z; used : Z; vap_handle : option Z; ps_mode_enabled : bool
}.
Record queue_ac := QueueAc {
  peer_list : list Z; size : Z; global_queue_limit : Z; peer_queue_limit : Z;
  q_pushed : Z; q_sent_to_um : Z; q_limit_dropped : Z
}.

Inductive drop_reason := SQ_OVERFLOW | DRV_NO_RESOURCES.
Inductive sq_fault := FaultPeer | FaultExtra | FaultFuel.
Inductive sq_ev :=
| SqPush (p : Z) (ac : nat) (front : bool) (nb : nbuf)
| SqRefuse (p : Z) (ac : nat) (nb : nbuf)
| SqSent (p : Z) (ac : nat) (nb : nbuf)
| SqFree (p : Z) (ac : nat) (nb : nbuf)
| SqCancel (p : Z) (ac : nat) (nb : nbuf)
| SqFreeClone (nb : nbuf)
| SqExtraFree (k : Z)
| SqDropped (sta : Z) (why : drop_reason)
| SqFault (f : sq_fault).

Record mtlk_sq_t := Sq {
  acs : list queue_ac; peers : gmap Z mtlk_sq_peer_ctx_t;
  flush_in_progress : Z; flush_count : Z; hw_tx_prohibited : bool;
  extras : gmap Z extra_t; next_extra : Z;
  hw_calls : nat; log : list sq_ev
}.

#[export] Instance nbuf_eq_dec : EqDecision nbuf.
Proof. solve_decision. Defined.
#[export] Instance peer_ac_inhabited : Inhabited peer_ac := populate (PeerAc [] 0 0 0 0 0).
#[export] Instance peer_ctx_inhabited : Inhabited mtlk_sq_peer_ctx_t := populate (PeerCtx [] 0 0 0 None false).
#[export] Instance queue_ac_inhabited : Inhabited queue_ac := populate (QueueAc [] 0 0 0 0 0 0).
#[export] Instance extra_inhabited : Inhabited extra_t := populate (Extra 0 0 false).

(** ** Updates *)

Definition emit (e : sq_ev) (s : mtlk_sq_t) : mtlk_sq_t :=
  Sq (acs s) (peers s) (flush_in_progress s) (flush_count s) (hw_tx_prohibited s)
     (extras s) (next_extra s) (hw_calls s) (log s ++ [e]).
Definition set_acs (a : list queue_ac) (s : mtlk_sq_t) : mtlk_sq_t :=
  Sq a (peers s) (flush_in_progress s) (flush_count s) (hw_tx_prohibited s)
     (extras s) (next_extra s) (hw_calls s) (log s).
Definition set_peers (m : gmap Z mtlk_sq_peer_ctx_t) (s : mtlk_sq_t) : mtlk_sq_t :=
  Sq (acs s) m (flush_in_progress s) (flush_count s) (hw_tx_prohibited s)
     (extras s) (next_extra s) (hw_calls s) (log s).
Definition set_flag (f : Z) (s : mtlk_sq_t) : mtlk_sq_t :=
  Sq (acs s) (peers s) f (flush_count s) (hw_tx_prohibited s)
     (extras s) (next_extra s) (hw_calls s) (log s).
Definition set_flush_count (c : Z) (s : mtlk_sq_t) : mtlk_sq_t :=
  Sq (acs s) (peers s) (flush_in_progress s) c (hw_tx_prohibited s)
     (extras s) (next_extra s) (hw_calls s) (log s).
Definition set_prohibited (b : bool) (s : mtlk_sq_t) : mtlk_sq_t :=
  Sq (acs s) (peers s) (flush_in_progress s) (flush_count s) b
     (extras s) (next_extra s) (hw_calls s) (log s).
Definition set_extras (m : gmap Z extra_t) (s : mtlk_sq_t) : mtlk_sq_t :=
  Sq (acs s) (peers s) (flush_in_progress s) (flush_count s) (hw_tx_prohibited s)
     m (next_extra s) (hw_calls s) (log s).
Definition set_next_extra (k : Z) (s : mtlk_sq_t) : mtlk_sq_t :=
  Sq (acs s) (peers s) (flush_in_progress s) (flush_count s) (hw_tx_prohibited s)
     (extras s) k (hw_calls s) (log s).
Definition inc_hw_calls (s : mtlk_sq_t) : mtlk_sq_t :=
  Sq (acs s) (peers s) (flush_in_progress s) (flush_count s) (hw_tx_prohibited s)
     (extras s) (next_extra s) (S (hw_calls s)) (log s).

Definition upd_ac (ac : nat) (f : queue_ac -> queue_ac) (s : mtlk_sq_t) : mtlk_sq_t :=
  set_acs (alter f ac (acs s)) s.
Definition upd_peer (p : Z) (f : mtlk_sq_peer_ctx_t -> mtlk_sq_peer_ctx_t) (s : mtlk_sq_t) : mtlk_sq_t :=
  set_peers (alter f p (peers s)) s.
Definition upd_pac (ac : nat) (f : peer_ac -> peer_ac) (c : mtlk_sq_peer_ctx_t) : mtlk_sq_peer_ctx_t :=
  PeerCtx (alter f ac (pacs c)) (limit_cfg c) (limit c) (used c) (vap_handle c) (ps_mode_enabled c).

Definition set_size (z : Z) (a : queue_ac) : queue_ac :=
  QueueAc (peer_list a) z (global_queue_limit a) (peer_queue_limit a) (q_pushed a) (q_sent_to_um a) (q_limit_dropped a).
Definition set_list (l : list Z) (a : queue_ac) : queue_ac :=
  QueueAc l (size a) (global_queue_limit a) (peer_queue_limit a) (q_pushed a) (q_sent_to_um a) (q_limit_dropped a).
Definition set_queue_limits (g p : Z) (a : queue_ac) : queue_ac :=
  QueueAc (peer_list a) (size a) g p (q_pushed a) (q_sent_to_um a) (q_limit_dropped a).
Definition inc_q_pushed (a : queue_ac) : queue_ac :=
  QueueAc (peer_list a) (size a) (global_queue_limit a) (peer_queue_limit a) (u32 (q_pushed a + 1)) (q_sent_to_um a) (q_limit_dropped a).
Definition inc_q_sent (a : queue_ac) : queue_ac :=
  QueueAc (peer_list a) (size a) (global_queue_limit a) (peer_queue_limit a) (q_pushed a) (u32 (q_sent_to_um a + 1)) (q_limit_dropped a).
Definition inc_q_dropped (a : queue_ac) : queue_ac :=
  QueueAc (peer_list a) (size a) (global_queue_limit a) (peer_queue_limit a) (q_pushed a) (q_sent_to_um a) (u32 (q_limit_dropped a + 1)).

Definition set_buflist (l : list nbuf) (a : peer_ac) : peer_ac :=
  PeerAc l (limit_per_ac a) (used_per_ac a) (p_pushed a) (p_sent_to_um a) (p_limit_dropped a).
Definition set_limit_per_ac (l : Z) (a : peer_ac) : peer_ac :=
  PeerAc (buflist a) l (used_per_ac a) (p_pushed a) (p_sent_to_um a) (p_limit_dropped a).
Definition set_used_per_ac (u : Z) (a : peer_ac) : peer_ac :=
  PeerAc (buflist a) (limit_per_ac a) u (p_pushed a) (p_sent_to_um a) (p_limit_dropped a).
Definition inc_p_pushed (a : peer_ac) : peer_ac :=
  PeerAc (buflist a) (limit_per_ac a) (used_per_ac a) (u32 (p_pushed a + 1)) (p_sent_to_um a) (p_limit_dropped a).
Definition inc_p_sent (a : peer_ac) : peer_ac :=
  PeerAc (buflist a) (limit_per_ac a) (used_per_ac a) (p_pushed a) (u32 (p_sent_to_um a + 1)) (p_limit_dropped a).
Definition inc_p_dropped (a : peer_ac) : peer_ac :=
  PeerAc (buflist a) (limit_per_ac a) (used_per_ac a) (p_pushed a) (p_sent_to_um a) (u32 (p_limit_dropped a + 1)).
Definition set_used (u : Z) (c : mtlk_sq_peer_ctx_t) : mtlk_sq_peer_ctx_t :=
  PeerCtx (pacs c) (limit_cfg c) (limit c) u (vap_handle c) (ps_mode_enabled c).

Definition ac_of (s : mtlk_sq_t) (ac : nat) : queue_ac := acs s !!! ac.
Definition peer_of (s : mtlk_sq_t) (p : Z) : mtlk_sq_peer_ctx_t := peers s !!! p.
Definition pac_of (s : mtlk_sq_t) (p : Z) (ac : nat) : peer_ac := pacs (peer_of s p) !!! ac.
Definition buf_of (s : mtlk_sq_t) (p : Z) (ac : nat) : list nbuf := buflist (pac_of s p ac).
Definition set_buf (p : Z) (ac : nat) (l : list nbuf) : mtlk_sq_t -> mtlk_sq_t :=
  upd_peer p (upd_pac ac (set_buflist l)).
Definition inc_size (ac : nat) : mtlk_sq_t -> mtlk_sq_t := upd_ac ac (fun a => set_size (u32 (size a + 1)) a).
Definition dec_size (ac : nat) : mtlk_sq_t -> mtlk_sq_t := upd_ac ac (fun a => set_size (u32 (size a - 1)) a).

(** ** The data shared by the clones of a multicast packet *)

Definition extra_of (nb : nbuf) (s : mtlk_sq_t) : option (Z * extra_t) :=
  k ← extra nb; x ← extras s !! k; Some (k, x).

Definition mtlk_nbuf_priv_extra_create_and_attach (alloc : bool) (ac : nat) (front : bool) (nb : nbuf)
    (s : mtlk_sq_t) : Z * nbuf * mtlk_sq_t :=
  if alloc then
    let k := next_extra s in
    (MTLK_ERR_OK, Nbuf (nb_id nb) (urgent nb) (rmcast nb) (nb_vap nb) (dst_sta nb) (Some k),
     set_next_extra (k + 1) (set_extras (<[k := Extra 1 ac front]> (extras s)) s))
  else
    (MTLK_ERR_NO_MEM, Nbuf (nb_id nb) (urgent nb) (rmcast nb) (nb_vap nb) (dst_sta nb) None, s).

Definition mtlk_nbuf_priv_extra_attach (from to : nbuf) (s : mtlk_sq_t) : nbuf * mtlk_sq_t :=
  let to := Nbuf (nb_id to) (urgent to) (rmcast to) (nb_vap to) (dst_sta to) (extra from) in
  match extra_of from s with
  | Some (k, x) => (to, set_extras (<[k := Extra (u32 (ref_cnt x + 1)) (extra_ac x) (extra_front x)]> (extras s)) s)
  | None => (to, emit (SqFault FaultExtra) s)
  end.

Definition mtlk_nbuf_priv_extra_detach (nb : nbuf) (s : mtlk_sq_t) : bool * mtlk_sq_t :=
  match extra_of nb s with
  | Some (k, x) =>
      let r := u32 (ref_cnt x - 1) in
      if r =? 0 then (true, emit (SqExtraFree k) (set_extras (delete k (extras s)) s))
      else (false, set_extras (<[k := Extra r (extra_ac x) (extra_front x)]> (extras s)) s)
  | None => (false, emit (SqFault FaultExtra) s)
  end.

Definition mtlk_nbuf_priv_extra_get_ac (nb : nbuf) (s : mtlk_sq_t) : nat :=
  match extra_of nb s with Some (_, x) => extra_ac x | None => 0%nat end.
Definition mtlk_nbuf_priv_extra_get_front (nb : nbuf) (s : mtlk_sq_t) : bool :=
  match extra_of nb s with Some (_, x) => extra_front x | None => false end.

Definition mtlk_sq_enqueue_clone_end (nb : nbuf) (s : mtlk_sq_t) : mtlk_sq_t :=
  let ac := mtlk_nbuf_priv_extra_get_ac nb s in
  let '(last_ref, s) := mtlk_nbuf_priv_extra_detach nb s in
  if last_ref then dec_size ac s else s.

Definition _mtlk_sq_release_packet (ac : nat) (nb : nbuf) (s : mtlk_sq_t) : mtlk_sq_t :=
  if rmcast nb then mtlk_sq_enqueue_clone_end nb s else dec_size ac s.

(** ** Peers: registration, removal, cancellation *)

Definition mtlk_sq_init : mtlk_sq_t :=
  Sq (replicate NTS_PRIORITIES (QueueAc [] 0 0 0 0 0 0)) ∅ 0 0 false ∅ 0 0 [].

Definition mtlk_sq_peer_ctx_init (p : Z) (lim : Z) (vap : option Z) (s : mtlk_sq_t) : mtlk_sq_t :=
  let c := PeerCtx (replicate NTS_PRIORITIES (PeerAc [] 0 0 0 0 0)) (u32 lim) (u32 lim) 0 vap false in
  set_acs (fmap (fun a => set_list (p :: peer_list a) a) (acs s)) (set_peers (<[p := c]> (peers s)) s).

(** [while (!mtlk_df_nbuf_list_is_empty(buflist)) { pop_front; release; free }]. *)
Fixpoint drain (p : Z) (ac : nat) (l : list nbuf) (s : mtlk_sq_t) : mtlk_sq_t :=
  match l with
  | [] => s
  | nb :: l =>
      let s := set_buf p ac l s in
      let s := _mtlk_sq_release_packet ac nb s in
      drain p ac l (emit (SqFree p ac nb) s)
  end.

Definition remove_from_list (p : Z) (ac : nat) : mtlk_sq_t -> mtlk_sq_t :=
  upd_ac ac (fun a => set_list (filter (fun x => x <> p) (peer_list a)) a).

Fixpoint for_acs (l : list nat) (body : nat -> mtlk_sq_t -> mtlk_sq_t) (s : mtlk_sq_t) : mtlk_sq_t :=
  match l with [] => s | i :: l => for_acs l body (body i s) end.
Definition all_acs : list nat := seq 0 NTS_PRIORITIES.

(** After the loop the peer's memory goes with its station. *)
Definition mtlk_sq_peer_ctx_cleanup (p : Z) (s : mtlk_sq_t) : mtlk_sq_t :=
  let s := for_acs all_acs (fun i s =>
    let s := remove_from_list p i s in drain p i (buf_of s p i) s) s in
  set_peers (delete p (peers s)) s.

Definition mtlk_sq_peer_ctx_cancel_all_packets (p : Z) (s : mtlk_sq_t) : mtlk_sq_t :=
  for_acs all_acs (fun i s => drain p i (buf_of s p i) s) s.

(** The walk over the list that removes the packets of one VAP; [kept] are the
    entries already passed. *)
Fixpoint cancel_vap (vap : Z) (p : Z) (ac : nat) (kept l : list nbuf) (s : mtlk_sq_t) : mtlk_sq_t :=
  match l with
  | [] => s
  | nb :: l =>
      if vap =? nb_vap nb then
        let s := set_buf p ac (kept ++ l) s in
        let s := _mtlk_sq_release_packet ac nb s in
        cancel_vap vap p ac kept l (emit (SqCancel p ac nb) s)
      else cancel_vap vap p ac (kept ++ [nb]) l s
  end.

Definition mtlk_sq_peer_ctx_cancel_all_packets_for_vap (p vap : Z) (s : mtlk_sq_t) : mtlk_sq_t :=
  for_acs all_acs (fun i s => cancel_vap vap p i [] (buf_of s p i) s) s.

Definition mtlk_sq_peer_ctx_on_rcvry_restore (p lim : Z) (s : mtlk_sq_t) : mtlk_sq_t :=
  upd_peer p (fun c =>
    PeerCtx (fmap (fun a => set_used_per_ac 0 (set_limit_per_ac 0 a)) (pacs c)) (u32 lim) (u32 lim) 0 (vap_handle c) false) s.

Definition mtlk_sq_set_pm_enabled (p : Z) (enabled : bool) (s : mtlk_sq_t) : mtlk_sq_t :=
  upd_peer p (fun c =>
    let lim := if enabled then Z.min MTLK_PACKETS_IN_MAC_DURING_PM (limit_cfg c) else limit_cfg c in
    PeerCtx (pacs c) (limit_cfg c) lim (used c) (vap_handle c) enabled) s.

(** Connecting a U-APSD station sets a limit for the categories of its bitmap. *)
Definition UAPSD_SET_AC_LIMIT (p : Z) (ac : nat) (max_sp : Z) : mtlk_sq_t -> mtlk_sq_t :=
  upd_peer p (upd_pac ac (set_limit_per_ac (u32 max_sp))).

Definition mtlk_sq_on_tx_cfm (p : Z) (ac : nat) (s : mtlk_sq_t) : mtlk_sq_t :=
  let s := upd_peer p (fun c => set_used (u32 (used c - 1)) c) s in
  upd_peer p (upd_pac ac (fun a => set_used_per_ac (u32 (used_per_ac a - 1)) a)) s.

Definition mtlk_sq_is_empty (c : mtlk_sq_peer_ctx_t) : bool := used c =? 0.

Definition mtlk_sq_tx_enable : mtlk_sq_t -> mtlk_sq_t := set_prohibited false.
Definition mtlk_sq_tx_disable : mtlk_sq_t -> mtlk_sq_t := set_prohibited true.
Definition mtlk_sq_is_tx_enabled (s : mtlk_sq_t) : bool := hw_tx_prohibited s.

(** ** Enqueueing *)

Definition mtlk_sq_enqueue_pkt (p : Z) (nb : nbuf) (ac : nat) (front : bool) (s : mtlk_sq_t) : Z * mtlk_sq_t :=
  if negb front
     && ((global_queue_limit (ac_of s ac) <=? size (ac_of s ac))
         || (peer_queue_limit (ac_of s ac) <=? Z.of_nat (length (buf_of s p ac))))
  then
    let s := upd_peer p (upd_pac ac inc_p_dropped) (upd_ac ac inc_q_dropped s) in
    (MTLK_ERR_NO_RESOURCES, emit (SqRefuse p ac nb) s)
  else
    let s := if front then set_buf p ac (nb :: buf_of s p ac) s
             else set_buf p ac (buf_of s p ac ++ [nb]) s in
    let s := upd_peer p (upd_pac ac inc_p_pushed) (upd_ac ac inc_q_pushed s) in
    (MTLK_ERR_OK, emit (SqPush p ac front nb) s).

Definition _mtlk_sq_switch_if_urgent (nb : nbuf) (ac : nat) (front : bool) : nat * bool :=
  if urgent nb then (AC_HIGHEST, true) else (ac, front).

(** [bcast] is the broadcast context of the core the packet leaves through. *)
Definition mtlk_xmit_sq_enqueue (bcast : Z) (nb : nbuf) (ac : nat) (front : bool) (s : mtlk_sq_t) : Z * mtlk_sq_t :=
  let p := match dst_sta nb with Some sta => sta | None => bcast end in
  mtlk_sq_enqueue_pkt p nb ac front s.

Definition mtlk_sq_enqueue (bcast : Z) (ac : nat) (front : bool) (nb : nbuf) (s : mtlk_sq_t) : Z * mtlk_sq_t :=
  let '(ac, front) := _mtlk_sq_switch_if_urgent nb ac front in
  let s := inc_size ac s in
  let '(res, s) := mtlk_xmit_sq_enqueue bcast nb ac front s in
  if res =? MTLK_ERR_OK then (res, s) else (res, dec_size ac s).

Definition mtlk_sq_enqueue_clone_begin (alloc : bool) (ac : nat) (front : bool) (nb : nbuf) (s : mtlk_sq_t)
    : Z * nbuf * mtlk_sq_t :=
  let '(ac, front) := _mtlk_sq_switch_if_urgent nb ac front in
  let '(res, nb, s) := mtlk_nbuf_priv_extra_create_and_attach alloc ac front nb s in
  if res =? MTLK_ERR_OK then (res, nb, inc_size ac s) else (res, nb, s).

(** [clone] is the buffer [skb_clone] returns, if any; it inherits the VAP. *)
Definition mtlk_sq_enqueue_clone (bcast : Z) (clone : option Z) (nb : nbuf) (sta : Z) (s : mtlk_sq_t) : Z * mtlk_sq_t :=
  match clone with
  | None => (MTLK_ERR_NO_MEM, emit (SqDropped sta DRV_NO_RESOURCES) s)
  | Some id =>
      let c := Nbuf id false true (nb_vap nb) (Some sta) None in
      let '(c, s) := mtlk_nbuf_priv_extra_attach nb c s in
      let '(res, s) := mtlk_xmit_sq_enqueue bcast c (mtlk_nbuf_priv_extra_get_ac nb s)
                         (mtlk_nbuf_priv_extra_get_front nb s) s in
      if res =? MTLK_ERR_OK then (res, s) else
      let s := emit (SqDropped sta SQ_OVERFLOW) s in
      let '(_, s) := mtlk_nbuf_priv_extra_detach c s in
      (res, emit (SqFreeClone c) s)
  end.

(** ** Sending *)

Section hw.
Context (hw : nat -> nbuf -> Z).

Definition _mtlk_sq_send_to_hw (nb : nbuf) (s : mtlk_sq_t) : Z * mtlk_sq_t :=
  (hw (hw_calls s) nb, inc_hw_calls s).

(** May the peer send no further packet of this category now? *)
Definition at_limit (c : mtlk_sq_peer_ctx_t) (ac : nat) : bool :=
  let a := pacs c !!! ac in
  if ps_mode_enabled c && negb (limit_per_ac a =? 0)
  then limit_per_ac a <=? used_per_ac a
  else limit c <=? used c.

Definition count_sent (p : Z) (ac : nat) (s : mtlk_sq_t) : mtlk_sq_t :=
  let s := upd_peer p (fun c => set_used (u32 (used c + 1)) c) s in
  let s := upd_peer p (upd_pac ac (fun a => set_used_per_ac (u32 (used_per_ac a + 1)) a)) s in
  upd_peer p (upd_pac ac inc_p_sent) (upd_ac ac inc_q_sent s).

(** The body of the loop over the peers: [continue], a packet processed, or a
    [return]. *)
Inductive served := SvContinue | SvPacket | SvReturn (res : Z).

Definition serve_peer (ac : nat) (p : Z) (s : mtlk_sq_t) : served * mtlk_sq_t :=
  match peers s !! p with
  | None => (SvContinue, emit (SqFault FaultPeer) s)
  | Some c =>
      match buf_of s p ac with
      | [] => (SvContinue, s)
      | nb :: rest =>
          if at_limit c ac then (SvContinue, s) else
          let s := set_buf p ac rest s in
          let '(res, s) := if hw_tx_prohibited s then (MTLK_ERR_PROHIB, s) else _mtlk_sq_send_to_hw nb s in
          if res =? MTLK_ERR_OK then
            let s := _mtlk_sq_release_packet ac nb s in
            (SvPacket, emit (SqSent p ac nb) (count_sent p ac s))
          else if (res =? MTLK_ERR_PROHIB) || (res =? MTLK_ERR_NO_RESOURCES) then
            (SvReturn MTLK_ERR_PROHIB, set_buf p ac (nb :: buf_of s p ac) s)
          else if res =? MTLK_ERR_PKT_DROPPED then
            let s := _mtlk_sq_release_packet ac nb s in
            (SvPacket, emit (SqFree p ac nb) s)
          else
            let s := _mtlk_sq_release_packet ac nb s in
            (SvReturn MTLK_ERR_UNKNOWN, emit (SqFree p ac nb) s)
      end
  end.

(** One round over the peers: an early [return], or the number of packets. *)
Fixpoint serve_round (ac : nat) (l : list Z) (packets_sent : Z) (s : mtlk_sq_t) : (Z + Z) * mtlk_sq_t :=
  match l with
  | [] => (inr packets_sent, s)
  | p :: l =>
      match serve_peer ac p s with
      | (SvContinue, s) => serve_round ac l packets_sent s
      | (SvPacket, s) => serve_round ac l (packets_sent + 1) s
      | (SvReturn res, s) => (inl res, s)
      end
  end.

Definition mtlk_dlist_shift (l : list Z) : list Z :=
  match l with x :: l => l ++ [x] | [] => [] end.

(** [do { ... } while (packets_sent)]. *)
Fixpoint process_loop (fuel : nat) (ac : nat) (s : mtlk_sq_t) : Z * mtlk_sq_t :=
  match fuel with
  | O => (MTLK_ERR_UNKNOWN, emit (SqFault FaultFuel) s)
  | S fuel =>
      match serve_round ac (peer_list (ac_of s ac)) 0 s with
      | (inl res, s) => (res, s)
      | (inr packets_sent, s) =>
          if packets_sent =? 0
          then (MTLK_ERR_OK, upd_ac ac (fun a => set_list (mtlk_dlist_shift (peer_list a)) a) s)
          else process_loop fuel ac s
      end
  end.

(** Packets waiting in a category, over the peers of its list. *)
Definition waiting (s : mtlk_sq_t) (ac : nat) : list nbuf := l ← peer_list (ac_of s ac); buf_of s l ac.

(** Every round but the last takes a packet off the queue. *)
Definition process_packets_by_ac (ac : nat) (s : mtlk_sq_t) : Z * mtlk_sq_t :=
  process_loop (S (length (waiting s ac))) ac s.

(** [for (i = NTS_PRIORITIES; i > 0; i--)], left on the first error. *)
Fixpoint flush_acs (i : nat) (s : mtlk_sq_t) : mtlk_sq_t :=
  match i with
  | O => s
  | S i =>
      let '(res, s) := process_packets_by_ac (mtlk_get_ac_by_number i) s in
      if res =? MTLK_ERR_OK then flush_acs i s else s
  end.

(** The loop of a flush; [arrivals] are the numbers of flush requests other
    threads register during each pass, after the last of which none arrive. *)
Fixpoint sq_flush_loop (arrivals : list Z) (s : mtlk_sq_t) : mtlk_sq_t :=
  let initial_flush_count := flush_count s in
  let s := set_flag 1 s in
  let s := flush_acs NTS_PRIORITIES s in
  let s := set_flag 0 s in
  match arrivals with
  | [] => s
  | n :: arrivals =>
      let s := set_flush_count (u32 (flush_count s + n)) s in
      if initial_flush_count =? flush_count s then s else sq_flush_loop arrivals s
  end.

Definition mtlk_sq_flush (arrivals : list Z) (s : mtlk_sq_t) : mtlk_sq_t :=
  if negb (flush_in_progress s =? 0) then set_flush_count (u32 (flush_count s + 1)) s
  else sq_flush_loop arrivals (set_flag 1 s).
End hw.

(** ** Limits *)

Definition s32 (x : Z) : Z := (x + 2 ^ 31) `mod` 2 ^ 32 - 2 ^ 31.

Definition mtlk_sq_get_limit (s : mtlk_sq_t) (ac : nat) : Z := global_queue_limit (ac_of s ac).
Definition mtlk_sq_get_qsize (s : mtlk_sq_t) (ac : nat) : Z := u16 (size (ac_of s ac)).

(** [(100*peer_queue_limit)/global_queue_limit] in C's [int]; dividing by zero traps. *)
Definition peer_ratio (a : queue_ac) : option Z :=
  if global_queue_limit a =? 0 then None
  else Some (Z.quot (s32 (100 * peer_queue_limit a)) (global_queue_limit a)).

Definition sq_get_limits (s : mtlk_sq_t) (num : nat) : list Z := map (mtlk_sq_get_limit s) (seq 0 num).
Definition sq_get_peer_limits (s : mtlk_sq_t) (num : nat) : option (list Z) :=
  mapM (fun i => peer_ratio (ac_of s i)) (seq 0 num).

Fixpoint set_limits_loop (l : list (nat * Z)) (s : mtlk_sq_t) : option mtlk_sq_t :=
  match l with
  | [] => Some s
  | (i, g) :: l =>
      ratio ← peer_ratio (ac_of s i);
      set_limits_loop l (upd_ac i (set_queue_limits (u16 g) (u16 (Z.quot (s32 (ratio * g)) 100))) s)
  end.

(** [global] are the [int32] limits a user asks for; [None] is a trap. *)
Definition sq_set_limits (global : list Z) (s : mtlk_sq_t) : option (Z * mtlk_sq_t) :=
  if negb (Z.of_nat (length global) =? Z.of_nat NTS_PRIORITIES) then Some (MTLK_ERR_PARAMS, s)
  else if existsb (fun g => g <=? 0) global then Some (MTLK_ERR_PARAMS, s)
  else s ← set_limits_loop (zip all_acs global) s; Some (MTLK_ERR_OK, s).

Fixpoint set_peer_limits_loop (l : list (nat * Z)) (s : mtlk_sq_t) : mtlk_sq_t :=
  match l with
  | [] => s
  | (i, r) :: l =>
      let g := global_queue_limit (ac_of s i) in
      set_peer_limits_loop l (upd_ac i (set_queue_limits g (u16 (Z.max 1 (Z.quot (s32 (r * g)) 100)))) s)
  end.

Definition sq_set_peer_limits (ratio : list Z) (s : mtlk_sq_t) : Z * mtlk_sq_t :=
  if negb (Z.of_nat (length ratio) =? Z.of_nat NTS_PRIORITIES) then (MTLK_ERR_PARAMS, s)
  else if existsb (fun r => (r <? 5) || (100 <? r)) ratio then (MTLK_ERR_PARAMS, s)
  else (MTLK_ERR_OK, set_peer_limits_loop (zip all_acs ratio) s).

(** The limits [sq_init] sets after [mtlk_sq_init]. *)
Definition sq_init : mtlk_sq_t :=
  set_acs (zip_with (fun a gp => set_queue_limits gp.1 gp.2 a) (acs mtlk_sq_init)
             [(800, 600); (50, 38); (1100, 825); (100, 75)]) mtlk_sq_init.
