(* ===== verification/SqInv.v ===== *)
(** * SqInv: the invariants of the send queue and the lemmas that carry them

    [fifo] is the abstract queue of one peer and category: what the events of
    the log do to it. [sq_wf] relates the lists of peers to the peers,
    [acct_on] the size counters and reference counts to what waits. *)
From S2P Require Import Prelude Sq.

(** ** Reading an updated state *)

Definition has_ac (s : mtlk_sq_t) (p : Z) (ac : nat) : Prop :=
  exists c, peers s !! p = Some c /\ (ac < length (pacs c))%nat.

Lemma peer_of_upd p f s c : peers s !! p = Some c -> peer_of (upd_peer p f s) p = f c.
Proof. intros Hc. unfold peer_of, upd_peer, set_peers; cbn [peers]. by rewrite lookup_total_alt, lookup_alter_eq, Hc. Qed.

Lemma peer_of_some s p c : peers s !! p = Some c -> peer_of s p = c.
Proof. intros Hc. unfold peer_of. by rewrite lookup_total_alt, Hc. Qed.

Lemma peer_of_upd_ne p q f s : p <> q -> peer_of (upd_peer p f s) q = peer_of s q.
Proof. intros Hc. unfold peer_of, upd_peer, set_peers; cbn [peers]. by rewrite !lookup_total_alt, lookup_alter_ne. Qed.

(** An update that leaves the packets of a peer alone leaves every buffer alone. *)
Lemma buf_of_upd_peer p f s :
  (forall c ac, buflist (pacs (f c) !!! ac) = buflist (pacs c !!! ac)) ->
  forall q ac, buf_of (upd_peer p f s) q ac = buf_of s q ac.
Proof.
  intros Hf q ac. unfold buf_of, pac_of. destruct (decide (p = q)) as [->|Hn].
  - destruct (peers s !! q) as [c|] eqn:Hc.
    + by rewrite (peer_of_upd _ _ _ _ Hc), (peer_of_some _ _ _ Hc), Hf.
    + unfold peer_of, upd_peer, set_peers; cbn [peers]. by rewrite !lookup_total_alt, lookup_alter_eq, Hc.
  - by rewrite peer_of_upd_ne.
Qed.

Lemma buflist_alter (g : peer_ac -> peer_ac) (l : list peer_ac) (i j : nat) :
  (forall a, buflist (g a) = buflist a) -> buflist (alter g i l !!! j) = buflist (l !!! j).
Proof.
  intros Hg. destruct (decide (i = j)) as [->|]; [|by rewrite alter_total_ne].
  destruct (decide (j < length l)%nat); [by rewrite alter_total, Hg|].
  rewrite !list_lookup_total_alt, list_lookup_alter_eq. by destruct (l !! j) eqn:E; simpl; rewrite ?Hg.
Qed.

Lemma buf_of_upd_pac p i (g : peer_ac -> peer_ac) s q ac :
  (forall a, buflist (g a) = buflist a) -> buf_of (upd_peer p (upd_pac i g) s) q ac = buf_of s q ac.
Proof. intros Hg. apply buf_of_upd_peer. intros c j. by apply buflist_alter. Qed.

Lemma buf_of_set_buf p ac l s : has_ac s p ac -> buf_of (set_buf p ac l s) p ac = l.
Proof.
  intros (c & Hc & Hl). unfold buf_of, pac_of, set_buf. rewrite (peer_of_upd _ _ _ _ Hc).
  unfold upd_pac; cbn [pacs]. by rewrite alter_total.
Qed.

Lemma buf_of_set_buf_ne p ac l s q ac' : (p, ac) <> (q, ac') -> buf_of (set_buf p ac l s) q ac' = buf_of s q ac'.
Proof.
  intros Hn. unfold set_buf, buf_of, pac_of. destruct (decide (p = q)) as [<-|]; [|by rewrite peer_of_upd_ne].
  destruct (peers s !! p) as [c|] eqn:Hc.
  - rewrite (peer_of_upd _ _ _ _ Hc), (peer_of_some _ _ _ Hc). unfold upd_pac; cbn [pacs].
    rewrite alter_total_ne; [done|]. by intros ->.
  - unfold peer_of, upd_peer, set_peers; cbn [peers]. by rewrite !lookup_total_alt, lookup_alter_eq, Hc.
Qed.

Lemma ac_of_upd ac f s : (ac < length (acs s))%nat -> ac_of (upd_ac ac f s) ac = f (ac_of s ac).
Proof. intros Hl. unfold ac_of, upd_ac, set_acs; cbn [acs]. by apply alter_total. Qed.

Lemma ac_of_upd_ne ac f s i : ac <> i -> ac_of (upd_ac ac f s) i = ac_of s i.
Proof. intros Hl. unfold ac_of, upd_ac, set_acs; cbn [acs]. by apply alter_total_ne. Qed.

(** A field an update of a category keeps is kept in every category. *)
Lemma ac_of_upd_keeps {A} (g : queue_ac -> A) ac f s i :
  (forall a, g (f a) = g a) -> g (ac_of (upd_ac ac f s) i) = g (ac_of s i).
Proof.
  intros Hg. destruct (decide (ac = i)) as [->|]; [|by rewrite ac_of_upd_ne].
  destruct (decide (i < length (acs s))%nat); [by rewrite ac_of_upd, Hg|].
  unfold ac_of, upd_ac, set_acs; cbn [acs]. rewrite !list_lookup_total_alt, list_lookup_alter_eq.
  destruct (acs s !! i) eqn:E; simpl; [by rewrite Hg|done].
Qed.

(** ** The abstract queue of a peer and category *)

Fixpoint remove_first (nb : nbuf) (l : list nbuf) : list nbuf :=
  match l with [] => [] | x :: l => if decide (x = nb) then l else x :: remove_first nb l end.

Definition on_chan (p : Z) (ac : nat) (q : Z) (i : nat) : bool := bool_decide (p = q /\ ac = i).

(** What an event does to the queue of [(p, ac)]; [None] when it cannot. *)
Definition fifo_ev (p : Z) (ac : nat) (e : sq_ev) (b : list nbuf) : option (list nbuf) :=
  match e with
  | SqPush q i front nb => Some (if on_chan p ac q i then (if front then nb :: b else b ++ [nb]) else b)
  | SqSent q i nb | SqFree q i nb =>
      if on_chan p ac q i
      then match b with x :: b => if decide (x = nb) then Some b else None | [] => None end
      else Some b
  | SqCancel q i nb =>
      if on_chan p ac q i then (if decide (nb ∈ b) then Some (remove_first nb b) else None) else Some b
  | _ => Some b
  end.

Fixpoint fifo (p : Z) (ac : nat) (evs : list sq_ev) (b : list nbuf) : option (list nbuf) :=
  match evs with [] => Some b | e :: evs => b ← fifo_ev p ac e b; fifo p ac evs b end.

Lemma fifo_app p ac l1 l2 b : fifo p ac (l1 ++ l2) b = (b ← fifo p ac l1 b; fifo p ac l2 b).
Proof. revert b. induction l1 as [|e l1 IH]; intros b; [reflexivity|]. cbn. destruct (fifo_ev p ac e b); cbn; [apply IH|done]. Qed.

(** A run of the code is a run of every abstract queue. *)
Definition tracks (s s' : mtlk_sq_t) : Prop :=
  exists evs, log s' = log s ++ evs /\
  forall p ac, fifo p ac evs (buf_of s p ac) = Some (buf_of s' p ac).

#[export] Instance tracks_preorder : PreOrder tracks.
Proof.
  split.
  - intros s. exists []. split; [by rewrite app_nil_r|]. done.
  - intros a b c (e1 & L1 & H1) (e2 & L2 & H2). exists (e1 ++ e2).
    split; [by rewrite L2, L1, app_assoc|]. intros p ac. rewrite fifo_app, H1. apply H2.
Qed.

(** Events of no queue. *)
Definition silent (e : sq_ev) : Prop := forall p ac b, fifo_ev p ac e b = Some b.

Lemma fifo_silent p ac evs b : Forall silent evs -> fifo p ac evs b = Some b.
Proof. induction 1 as [|e evs He Hs IH]; [done|]. simpl. by rewrite He. Qed.

(** A step that changes only the queue of [(p, ac)], and logs it in [e] after
    silent events. *)
Lemma tracks_step p ac pre e s s' :
  log s' = log s ++ pre ++ [e] -> Forall silent pre ->
  fifo_ev p ac e (buf_of s p ac) = Some (buf_of s' p ac) ->
  (forall q i, (p, ac) <> (q, i) -> fifo_ev q i e (buf_of s q i) = Some (buf_of s q i)) ->
  (forall q i, (p, ac) <> (q, i) -> buf_of s' q i = buf_of s q i) ->
  tracks s s'.
Proof.
  intros Hlog Hpre He Hother Hbuf. exists (pre ++ [e]). split; [done|]. intros q i.
  rewrite fifo_app, fifo_silent by done. cbn.
  destruct (decide ((p, ac) = (q, i))) as [Heq|Hn].
  - injection Heq as <- <-. rewrite He. done.
  - rewrite Hother by done. by rewrite Hbuf.
Qed.

Lemma tracks_quiet evs s s' :
  log s' = log s ++ evs -> Forall silent evs -> (forall q i, buf_of s' q i = buf_of s q i) -> tracks s s'.
Proof. intros Hlog Hs Hb. exists evs. split; [done|]. intros q i. by rewrite fifo_silent, Hb. Qed.

(** ** The peers and their lists *)

Definition shape (s s' : mtlk_sq_t) : Prop :=
  length (acs s') = length (acs s) /\
  (forall i, peer_list (ac_of s' i) ≡ₚ peer_list (ac_of s i)) /\
  (forall p, fmap (fun c => length (pacs c)) (peers s' !! p) = fmap (fun c => length (pacs c)) (peers s !! p)).

#[export] Instance shape_preorder : PreOrder shape.
Proof.
  split; [done|]. intros a b c (A1 & A2 & A3) (B1 & B2 & B3). repeat split.
  - congruence.
  - intros i. by rewrite B2.
  - intros p. by rewrite B3.
Qed.

Definition sq_wf (s : mtlk_sq_t) : Prop :=
  length (acs s) = NTS_PRIORITIES /\
  (forall p c, peers s !! p = Some c -> length (pacs c) = NTS_PRIORITIES) /\
  (forall i, (i < NTS_PRIORITIES)%nat ->
     NoDup (peer_list (ac_of s i)) /\ forall p, p ∈ peer_list (ac_of s i) <-> is_Some (peers s !! p)).

Lemma shape_some s s' p : shape s s' -> is_Some (peers s' !! p) <-> is_Some (peers s !! p).
Proof.
  intros (_ & _ & Hp). specialize (Hp p).
  destruct (peers s' !! p), (peers s !! p); simpl in Hp; split; intros [? ?]; simplify_eq; eauto.
Qed.

Lemma shape_wf s s' : shape s s' -> sq_wf s -> sq_wf s'.
Proof.
  intros Hsh (W1 & W2 & W3). pose proof Hsh as (S1 & S2 & S3). split; [congruence|]. split.
  - intros p c Hc. specialize (S3 p). rewrite Hc in S3. simpl in S3.
    destruct (peers s !! p) as [c'|] eqn:Hc'; simpl in S3; [|done].
    injection S3 as ->. by eapply W2.
  - intros i Hi. destruct (W3 i Hi) as [Hn Hl]. split; [by rewrite S2|].
    intros p. by rewrite S2, Hl, (shape_some _ _ _ Hsh).
Qed.

Lemma shape_upd_ac i f s : (forall a, peer_list (f a) ≡ₚ peer_list a) -> shape s (upd_ac i f s).
Proof.
  intros Hf. repeat split.
  - unfold upd_ac, set_acs; cbn [acs]. by rewrite length_alter.
  - intros j. destruct (decide (i = j)) as [->|]; [|by rewrite ac_of_upd_ne].
    destruct (decide (j < length (acs s))%nat); [by rewrite ac_of_upd|].
    unfold ac_of, upd_ac, set_acs; cbn [acs]. rewrite !list_lookup_total_alt, list_lookup_alter_eq.
    by destruct (acs s !! j) eqn:E; simpl; rewrite ?Hf.
Qed.

Lemma shape_upd_peer p f s : (forall c, length (pacs (f c)) = length (pacs c)) -> shape s (upd_peer p f s).
Proof.
  intros Hf. split; [done|split; [done|]]. intros q. unfold upd_peer, set_peers; cbn [peers].
  destruct (decide (p = q)) as [->|]; [|by rewrite lookup_alter_ne].
  rewrite lookup_alter_eq. destruct (peers s !! q); simpl; by rewrite ?Hf.
Qed.

Lemma shape_upd_pac p i g s : shape s (upd_peer p (upd_pac i g) s).
Proof. apply shape_upd_peer. intros c. by unfold upd_pac; cbn [pacs]; rewrite length_alter. Qed.

Lemma shape_set_buf p i l s : shape s (set_buf p i l s).
Proof. apply shape_upd_pac. Qed.

Lemma shape_has_ac s s' p i : shape s s' -> has_ac s p i -> has_ac s' p i.
Proof.
  intros (_ & _ & Hp) (c & Hc & Hl). specialize (Hp p). rewrite Hc in Hp.
  destruct (peers s' !! p) as [c'|] eqn:E; simpl in Hp; [|done]. injection Hp as Hp. exists c'. split; [done|]. lia.
Qed.

Lemma wf_has_ac s p c i : sq_wf s -> peers s !! p = Some c -> (i < NTS_PRIORITIES)%nat -> has_ac s p i.
Proof. intros (_ & W & _) Hc Hi. exists c. split; [done|]. by rewrite (W _ _ Hc). Qed.

(** ** Releasing a packet: sizes and shared data change, queues do not *)

Record calm (s s' : mtlk_sq_t) : Prop := {
  calm_shape : shape s s';
  calm_peers : peers s' = peers s;
  calm_log : exists evs, log s' = log s ++ evs /\ Forall silent evs;
  calm_hw : hw_tx_prohibited s' = hw_tx_prohibited s /\ hw_calls s' = hw_calls s
}.

#[export] Instance calm_preorder : PreOrder calm.
Proof.
  split.
  - intros s. split; try done. exists []. by rewrite app_nil_r.
  - intros a b c [A1 A2 (e1 & L1 & F1) [A3 A4]] [B1 B2 (e2 & L2 & F2) [B3 B4]]. split.
    + by transitivity b.
    + congruence.
    + exists (e1 ++ e2). rewrite L2, L1, app_assoc. split; [done|]. by apply Forall_app.
    + split; congruence.
Qed.

Lemma calm_buf s s' p i : calm s s' -> buf_of s' p i = buf_of s p i.
Proof. intros [_ H _ _]. unfold buf_of, pac_of, peer_of. by rewrite H. Qed.

Lemma calm_upd_ac i f s : (forall a, peer_list (f a) = peer_list a) -> calm s (upd_ac i f s).
Proof. intros Hf. split; try done; [apply shape_upd_ac; intros a; by rewrite Hf|]. exists []. by rewrite app_nil_r. Qed.

Lemma calm_emit e s : silent e -> calm s (emit e s).
Proof. intros He. split; try done. exists [e]. split; [done|]. by apply Forall_singleton. Qed.

Lemma calm_extras m s : calm s (set_extras m s).
Proof. split; try done. exists []. by rewrite app_nil_r. Qed.

#[export] Hint Resolve calm_upd_ac calm_emit calm_extras : wave.

Lemma detach_calm nb s : calm s (mtlk_nbuf_priv_extra_detach nb s).2.
Proof.
  unfold mtlk_nbuf_priv_extra_detach. destruct (extra_of nb s) as [[k x]|]; [|by apply calm_emit].
  cbn zeta. destruct (_ =? 0); cbn [snd]; [|apply calm_extras].
  etransitivity; [apply calm_extras|]. by apply calm_emit.
Qed.

Lemma clone_end_calm nb s : calm s (mtlk_sq_enqueue_clone_end nb s).
Proof.
  unfold mtlk_sq_enqueue_clone_end. pose proof (detach_calm nb s) as Hd.
  destruct (mtlk_nbuf_priv_extra_detach nb s) as [b s1]. cbn [snd] in Hd.
  destruct b; [|done]. etransitivity; [exact Hd|]. by apply calm_upd_ac.
Qed.

Lemma release_calm i nb s : calm s (_mtlk_sq_release_packet i nb s).
Proof. unfold _mtlk_sq_release_packet. destruct (rmcast nb); [apply clone_end_calm|by apply calm_upd_ac]. Qed.

(** Taking the packet [nb] off a queue, releasing it and logging it. *)
Lemma tracks_leave p i l nb e s :
  has_ac s p i ->
  fifo_ev p i e (buf_of s p i) = Some l ->
  (forall q j b, (p, i) <> (q, j) -> fifo_ev q j e b = Some b) ->
  tracks s (emit e (_mtlk_sq_release_packet i nb (set_buf p i l s))).
Proof.
  intros Ha He Hne. set (s1 := set_buf p i l s).
  destruct (calm_log _ _ (release_calm i nb s1)) as (evs & Hlog & Hs).
  assert (forall q j, buf_of (emit e (_mtlk_sq_release_packet i nb s1)) q j = buf_of s1 q j) as Hb.
  { intros q j. change (buf_of (_mtlk_sq_release_packet i nb s1) q j = buf_of s1 q j).
    apply calm_buf, release_calm. }
  apply (tracks_step p i evs e); [|done| | |].
  - cbn [emit log]. rewrite Hlog. by rewrite <- app_assoc.
  - rewrite Hb. unfold s1. rewrite buf_of_set_buf by done. done.
  - intros q j Hn. by apply Hne.
  - intros q j Hn. rewrite Hb. by apply buf_of_set_buf_ne.
Qed.

Lemma on_chan_refl p i : on_chan p i p i = true.
Proof. by apply bool_decide_eq_true. Qed.

Lemma on_chan_ne p i q j : (p, i) <> (q, j) -> on_chan q j p i = false.
Proof. intros Hn. apply bool_decide_eq_false. intros [-> ->]. done. Qed.

Lemma fifo_pop p i e nb l :
  e = SqSent p i nb \/ e = SqFree p i nb -> fifo_ev p i e (nb :: l) = Some l.
Proof. intros [-> | ->]; cbn [fifo_ev]; rewrite on_chan_refl; by rewrite decide_True. Qed.

Lemma fifo_other p i e nb q j b :
  (exists f, e = SqPush p i f nb) \/ e = SqSent p i nb \/ e = SqFree p i nb \/ e = SqCancel p i nb ->
  (p, i) <> (q, j) -> fifo_ev q j e b = Some b.
Proof. intros He Hn. destruct He as [[f ->]|[-> |[-> | ->]]]; cbn [fifo_ev]; by rewrite on_chan_ne. Qed.

Lemma leave_shape p i l nb e s : shape s (emit e (_mtlk_sq_release_packet i nb (set_buf p i l s))).
Proof.
  transitivity (set_buf p i l s); [apply shape_set_buf|].
  apply (calm_shape _ _ (release_calm i nb (set_buf p i l s))).
Qed.
