(* ===== verification/SqAcct.v ===== *)
(** * SqAcct: the size counters and the reference counts of the send queue

    [acct_on] relates the size counter of each category, the packets waiting
    in it and the shared data of multicast clones; [held] are the shared data
    whose original packet is still being cloned. *)
From S2P Require Import Prelude Sq SqInv.

Lemma countb_perm {A} (f : A -> bool) l l' : l ≡ₚ l' -> countb f l = countb f l'.
Proof. induction 1; simpl; lia. Qed.

Lemma countb_cons {A} (f : A -> bool) x l : countb f (x :: l) = Z.b2z (f x) + countb f l.
Proof. done. Qed.

(** ** Counting shared data by category *)

Definition in_ac (i : nat) (kx : Z * extra_t) : bool := bool_decide (extra_ac kx.2 = i).
Definition mcount (i : nat) (m : gmap Z extra_t) : Z := countb (in_ac i) (map_to_list m).

Lemma mcount_insert_new i k x m :
  m !! k = None -> mcount i (<[k := x]> m) = Z.b2z (in_ac i (k, x)) + mcount i m.
Proof. intros Hk. unfold mcount. by rewrite (countb_perm _ _ _ (map_to_list_insert m k x Hk)). Qed.

Lemma mcount_delete i k x m :
  m !! k = Some x -> mcount i (delete k m) = mcount i m - Z.b2z (in_ac i (k, x)).
Proof. intros Hk. unfold mcount. rewrite <- (countb_perm _ _ _ (map_to_list_delete m k x Hk)). simpl. lia. Qed.

Lemma mcount_update i k x y m :
  m !! k = Some x -> extra_ac y = extra_ac x -> mcount i (<[k := y]> m) = mcount i m.
Proof.
  intros Hk Hy. rewrite <- insert_delete_eq.
  rewrite mcount_insert_new by apply lookup_delete_eq. rewrite (mcount_delete i k x m Hk).
  unfold in_ac. cbn [snd]. rewrite Hy. lia.
Qed.

(** ** The invariant *)

Definition plain (nb : nbuf) : bool := negb (rmcast nb).
Definition clone_of (k : Z) (nb : nbuf) : bool := rmcast nb && bool_decide (extra nb = Some k).
Definition occ (k : Z) (l : list Z) : Z := countb (Z.eqb k) l.
Definition holders (held : list Z) (w : list nbuf) (k : Z) : Z := occ k held + countb (clone_of k) w.

Record acct_on (sz : nat -> Z) (w : nat -> list nbuf) (m : gmap Z extra_t) (nx : Z) (held : list Z) : Prop := {
  acct_size : forall i, (i < NTS_PRIORITIES)%nat -> sz i = u32 (countb plain (w i) + mcount i m);
  acct_extra : forall k x, m !! k = Some x ->
    (extra_ac x < NTS_PRIORITIES)%nat /\ k < nx /\
    ref_cnt x = holders held (w (extra_ac x)) k /\ 0 < ref_cnt x < 2 ^ 32;
  acct_clone : forall i nb, (i < NTS_PRIORITIES)%nat -> nb ∈ w i -> rmcast nb = true ->
    exists k x, extra nb = Some k /\ m !! k = Some x /\ extra_ac x = i;
  acct_held : forall k, k ∈ held -> is_Some (m !! k)
}.

Lemma clone_of_plain k nb : plain nb = true -> clone_of k nb = false.
Proof. unfold plain, clone_of. by destruct (rmcast nb). Qed.

Lemma acct_perm sz w w' m nx held :
  (forall i, (i < NTS_PRIORITIES)%nat -> w' i ≡ₚ w i) -> acct_on sz w m nx held -> acct_on sz w' m nx held.
Proof.
  intros Hw [A1 A2 A3 A4]. split; [| | |done].
  - intros i Hi. by rewrite (countb_perm _ _ _ (Hw i Hi)), A1.
  - intros k x Hk. destruct (A2 k x Hk) as (Hx & Hn & Hr & H0). refine (conj Hx (conj Hn (conj _ H0))).
    unfold holders. by rewrite (countb_perm _ _ _ (Hw _ Hx)).
  - intros i nb Hi Hnb. rewrite (Hw i Hi) in Hnb. by apply A3.
Qed.

Lemma acct_sizes sz sz' w m nx held :
  (forall i, (i < NTS_PRIORITIES)%nat -> sz' i = sz i) -> acct_on sz w m nx held -> acct_on sz' w m nx held.
Proof. intros Hs [A1 A2 A3 A4]. split; try done. intros i Hi. by rewrite Hs, A1. Qed.

(** Replacing what waits in one category. *)
Definition put {A} (i : nat) (v : A) (f : nat -> A) (j : nat) : A := if decide (i = j) then v else f j.
Lemma put_eq {A} i (v : A) f : put i v f i = v.
Proof. unfold put. by rewrite decide_True. Qed.
Lemma put_ne {A} i j (v : A) f : i <> j -> put i v f j = f j.
Proof. intros. unfold put. by rewrite decide_False. Qed.

Lemma acct_plain_in sz w m nx held i nb l :
  (i < NTS_PRIORITIES)%nat -> plain nb = true -> l ≡ₚ nb :: w i -> acct_on sz w m nx held ->
  acct_on (put i (u32 (sz i + 1)) sz) (put i l w) m nx held.
Proof.
  intros Hi Hp Hl [A1 A2 A3 A4]. split; [| | |done].
  - intros j Hj. destruct (decide (i = j)) as [<-|Hn]; [|rewrite !put_ne by done; by apply A1].
    rewrite !put_eq, A1, u32_add_l, (countb_perm _ _ _ Hl) by done. rewrite countb_cons, Hp. f_equal. cbn. lia.
  - intros k x Hk. destruct (A2 k x Hk) as (Hx & Hn & Hr & H0). refine (conj Hx (conj Hn (conj _ H0))).
    destruct (decide (i = extra_ac x)) as [Heq|Hne]; [|by rewrite put_ne].
    rewrite Heq, put_eq, Hr. unfold holders. by rewrite (countb_perm _ _ _ Hl), Heq, countb_cons, clone_of_plain.
  - intros j nb' Hj Hin Hr. destruct (decide (i = j)) as [<-|Hn]; [|rewrite put_ne in Hin by done; by apply A3].
    rewrite put_eq, Hl in Hin. apply elem_of_cons in Hin as [-> |Hin]; [unfold plain in Hp; by rewrite Hr in Hp|by apply A3].
Qed.

Lemma acct_plain_out sz w m nx held i nb l :
  (i < NTS_PRIORITIES)%nat -> plain nb = true -> w i ≡ₚ nb :: l -> acct_on sz w m nx held ->
  acct_on (put i (u32 (sz i - 1)) sz) (put i l w) m nx held.
Proof.
  intros Hi Hp Hl [A1 A2 A3 A4]. split; [| | |done].
  - intros j Hj. destruct (decide (i = j)) as [<-|Hn]; [|rewrite !put_ne by done; by apply A1].
    rewrite !put_eq, A1, u32_sub_l, (countb_perm _ _ _ Hl) by done. rewrite countb_cons, Hp. f_equal. cbn. lia.
  - intros k x Hk. destruct (A2 k x Hk) as (Hx & Hn & Hr & H0). refine (conj Hx (conj Hn (conj _ H0))).
    destruct (decide (i = extra_ac x)) as [Heq|Hne]; [|by rewrite put_ne].
    rewrite Heq, put_eq, Hr. unfold holders. by rewrite <- Heq, (countb_perm _ _ _ Hl), countb_cons, clone_of_plain.
  - intros j nb' Hj Hin Hr. destruct (decide (i = j)) as [<-|Hn]; [|rewrite put_ne in Hin by done; by apply A3].
    rewrite put_eq in Hin. apply A3; [done| |done]. rewrite Hl. by right.
Qed.

(** The original packet and its shared data. *)
Lemma acct_create sz w m nx held i f :
  (i < NTS_PRIORITIES)%nat -> acct_on sz w m nx held ->
  acct_on (put i (u32 (sz i + 1)) sz) w (<[nx := Extra 1 i f]> m) (nx + 1) (nx :: held).
Proof.
  intros Hi [A1 A2 A3 A4].
  assert (m !! nx = None) as Hfresh.
  { destruct (m !! nx) as [x|] eqn:E; [|done]. destruct (A2 _ _ E) as (_ & ? & _). lia. }
  assert (forall j, (j < NTS_PRIORITIES)%nat -> countb (clone_of nx) (w j) = 0) as Hnone.
  { intros j Hj. apply countb_zero. intros nb Hin. unfold clone_of. destruct (rmcast nb) eqn:E; [|done].
    destruct (A3 j nb Hj Hin E) as (k & x & He & Hk & _). rewrite He. cbn.
    apply bool_decide_eq_false. intros [= ->]. congruence. }
  assert (occ nx held = 0) as Hocc.
  { apply countb_zero. intros k Hin. apply Z.eqb_neq. intros <-. destruct (A4 _ Hin). congruence. }
  split.
  - intros j Hj. rewrite mcount_insert_new by done. unfold in_ac at 1. cbn [snd extra_ac].
    destruct (decide (i = j)) as [<-|Hn].
    + rewrite put_eq, A1, u32_add_l, bool_decide_true by done. f_equal. cbn. lia.
    + rewrite put_ne, A1, bool_decide_false by congruence. f_equal.
  - intros k x Hk. destruct (decide (k = nx)) as [->|Hne].
    + rewrite lookup_insert_eq in Hk. injection Hk as <-. cbn [extra_ac ref_cnt]. split; [done|split; [lia|split; [|lia]]].
      unfold holders, occ. rewrite countb_cons, Z.eqb_refl, (Hnone i Hi). change (countb (Z.eqb nx) held) with (occ nx held).
      rewrite Hocc. done.
    + rewrite lookup_insert_ne in Hk by congruence. destruct (A2 k x Hk) as (Hx & Hn & Hr & H0).
      refine (conj Hx (conj _ (conj _ H0))); [lia|]. rewrite Hr. unfold holders, occ. rewrite countb_cons.
      assert ((k =? nx) = false) as -> by by apply Z.eqb_neq. cbn. lia.
  - intros j nb Hj Hin Hr. destruct (A3 j nb Hj Hin Hr) as (k & x & He & Hk & Hx).
    exists k, x. repeat split; try done. rewrite lookup_insert_ne; [done|]. intros <-. congruence.
  - intros k Hin. apply elem_of_cons in Hin as [-> |Hin]; [rewrite lookup_insert_eq; eauto|].
    destruct (A4 k Hin) as [x Hx]. rewrite lookup_insert_ne; [eauto|]. intros <-. congruence.
Qed.

Lemma countb_in_pos {A} (f : A -> bool) l x : x ∈ l -> f x = true -> 1 <= countb f l.
Proof. intros [i Hi]%list_elem_of_lookup Hf. by eapply countb_pos. Qed.

(** A clone joins the packets waiting in its category. *)
Lemma acct_clone_in sz w m nx held k x nb l :
  m !! k = Some x -> rmcast nb = true -> extra nb = Some k -> ref_cnt x + 1 < 2 ^ 32 ->
  l ≡ₚ nb :: w (extra_ac x) -> acct_on sz w m nx held ->
  acct_on sz (put (extra_ac x) l w) (<[k := Extra (u32 (ref_cnt x + 1)) (extra_ac x) (extra_front x)]> m) nx held.
Proof.
  intros Hk Hnb He Hsmall Hl [A1 A2 A3 A4]. destruct (A2 k x Hk) as (Hx & Hn & Hr & H0).
  assert (plain nb = false) as Hp by (unfold plain; by rewrite Hnb).
  rewrite u32_small by lia. split.
  - intros i Hi. rewrite (mcount_update _ k x) by done. rewrite A1 by done. f_equal.
    destruct (decide (extra_ac x = i)) as [<-|]; [|by rewrite put_ne].
    by rewrite put_eq, (countb_perm _ _ _ Hl), countb_cons, Hp.
  - intros k' x' Hk'. destruct (decide (k' = k)) as [->|Hne].
    + rewrite lookup_insert_eq in Hk'. injection Hk' as <-. cbn [extra_ac ref_cnt].
      split; [done|split; [done|split; [|lia]]]. rewrite put_eq, Hr. unfold holders.
      rewrite (countb_perm _ _ _ Hl), countb_cons. unfold clone_of at 2.
      rewrite Hnb, bool_decide_true by done. cbn. lia.
    + rewrite lookup_insert_ne in Hk' by congruence. destruct (A2 k' x' Hk') as (B1 & B2 & B3 & B4).
      refine (conj B1 (conj B2 (conj _ B4))). rewrite B3. unfold holders. f_equal.
      destruct (decide (extra_ac x = extra_ac x')) as [Heq|]; [|by rewrite put_ne].
      rewrite Heq, put_eq, (countb_perm _ _ _ Hl), countb_cons, Heq. unfold clone_of at 2.
      rewrite He, bool_decide_false by congruence. rewrite andb_false_r. done.
  - intros i nb' Hi Hin Hr'.
    assert (nb' = nb /\ i = extra_ac x \/ nb' ∈ w i) as [[-> ->]|Hin'].
    { destruct (decide (extra_ac x = i)) as [<-|]; [|rewrite put_ne in Hin by done; by right].
      rewrite put_eq, Hl in Hin. apply elem_of_cons in Hin as [-> |]; [by left|by right]. }
    + exists k, (Extra (ref_cnt x + 1) (extra_ac x) (extra_front x)). split; [done|].
      split; [apply lookup_insert_eq|done].
    + destruct (A3 i nb' Hi Hin' Hr') as (k' & x' & B1 & B2 & B3). destruct (decide (k' = k)) as [->|].
      * exists k, (Extra (ref_cnt x + 1) (extra_ac x) (extra_front x)). split; [done|].
        split; [apply lookup_insert_eq|]. cbn. congruence.
      * exists k', x'. by rewrite lookup_insert_ne.
  - intros k' Hin. destruct (A4 k' Hin) as [x' Hx']. destruct (decide (k' = k)) as [->|].
    + rewrite lookup_insert_eq. eauto.
    + rewrite lookup_insert_ne by congruence. eauto.
Qed.

(** One of the holders of [k] goes: the count drops, and with the last one the
    shared data and the category's size. *)
Section drop.
Context (sz : nat -> Z) (w w' : nat -> list nbuf) (m : gmap Z extra_t) (nx : Z) (held held' : list Z) (k : Z) (x : extra_t).
Context (Hk : m !! k = Some x) (Hacct : acct_on sz w m nx held)
  (Hpl : forall j, (j < NTS_PRIORITIES)%nat -> countb plain (w' j) = countb plain (w j))
  (Hho : forall k' x', m !! k' = Some x' ->
     holders held' (w' (extra_ac x')) k' = holders held (w (extra_ac x')) k' - Z.b2z (k' =? k))
  (Hw : forall j nb, (j < NTS_PRIORITIES)%nat -> nb ∈ w' j -> nb ∈ w j)
  (Hh : forall k', k' ∈ held' -> k' ∈ held).

Lemma holders_after : holders held' (w' (extra_ac x)) k = ref_cnt x - 1.
Proof.
  destruct (acct_extra _ _ _ _ _ Hacct k x Hk) as (_ & _ & Hr & _).
  rewrite (Hho k x Hk), Z.eqb_refl. cbn. lia.
Qed.

Lemma acct_drop_other k' x' :
  m !! k' = Some x' -> k' <> k ->
  (extra_ac x' < NTS_PRIORITIES)%nat /\ k' < nx /\
  ref_cnt x' = holders held' (w' (extra_ac x')) k' /\ 0 < ref_cnt x' < 2 ^ 32.
Proof.
  intros Hk' Hne. destruct (acct_extra _ _ _ _ _ Hacct k' x' Hk') as (B1 & B2 & B3 & B4).
  refine (conj B1 (conj B2 (conj _ B4))). rewrite B3, (Hho k' x' Hk').
  assert ((k' =? k) = false) as -> by (by apply Z.eqb_neq). cbn. lia.
Qed.

Lemma acct_drop_last :
  ref_cnt x = 1 -> acct_on (put (extra_ac x) (u32 (sz (extra_ac x) - 1)) sz) w' (delete k m) nx held'.
Proof.
  intros E. pose proof holders_after as Hzero. unfold holders, occ in Hzero. destruct Hacct as [A1 A2 A3 A4].
  pose proof (countb_range (Z.eqb k) held') as R1. pose proof (countb_range (clone_of k) (w' (extra_ac x))) as R2.
  assert (k ∉ held') as Hgone.
  { intros Hin. pose proof (countb_in_pos (Z.eqb k) held' k Hin (Z.eqb_refl k)). lia. }
  split.
  - intros i Hi. rewrite (mcount_delete i k x) by done. unfold in_ac. cbn [snd].
    destruct (decide (extra_ac x = i)) as [<-|Hne].
    + rewrite put_eq, A1, Hpl, bool_decide_true, u32_sub_l by done. f_equal. cbn. lia.
    + rewrite put_ne, A1, Hpl, bool_decide_false by done. f_equal. cbn. lia.
  - intros k' x' Hk'. apply lookup_delete_Some in Hk' as [Hne Hk']. apply acct_drop_other; [done|congruence].
  - intros i nb Hi Hin Hrm. destruct (A3 i nb Hi (Hw i nb Hi Hin) Hrm) as (k' & x' & B1 & B2 & B3).
    exists k', x'. split; [done|]. split; [|done]. apply lookup_delete_Some. split; [|done]. intros <-.
    assert (x' = x) as -> by congruence. subst i.
    assert (clone_of k nb = true) as Hc by (unfold clone_of; rewrite Hrm, B1; by apply bool_decide_eq_true).
    pose proof (countb_in_pos (clone_of k) _ nb Hin Hc). lia.
  - intros k' Hin. destruct (A4 k' (Hh k' Hin)) as [x' Hx']. exists x'. apply lookup_delete_Some.
    split; [|done]. by intros <-.
Qed.

Lemma acct_drop_more :
  ref_cnt x <> 1 -> acct_on sz w' (<[k := Extra (ref_cnt x - 1) (extra_ac x) (extra_front x)]> m) nx held'.
Proof.
  intros E. pose proof holders_after as Hafter. destruct Hacct as [A1 A2 A3 A4].
  destruct (A2 k x Hk) as (Hx & Hn & Hr & H0). split.
  - intros i Hi. rewrite (mcount_update _ k x) by done. by rewrite A1, Hpl.
  - intros k' x' Hk'. destruct (decide (k' = k)) as [->|Hne].
    + rewrite lookup_insert_eq in Hk'. injection Hk' as <-. cbn [extra_ac ref_cnt].
      split; [done|split; [done|split; lia]].
    + rewrite lookup_insert_ne in Hk' by congruence. by apply acct_drop_other.
  - intros i nb Hi Hin Hrm. destruct (A3 i nb Hi (Hw i nb Hi Hin) Hrm) as (k' & x' & B1 & B2 & B3).
    destruct (decide (k' = k)) as [->|].
    + exists k, (Extra (ref_cnt x - 1) (extra_ac x) (extra_front x)). split; [done|].
      split; [apply lookup_insert_eq|]. cbn. congruence.
    + exists k', x'. by rewrite lookup_insert_ne.
  - intros k' Hin. destruct (A4 k' (Hh k' Hin)) as [x' Hx']. destruct (decide (k' = k)) as [->|].
    + rewrite lookup_insert_eq. eauto.
    + rewrite lookup_insert_ne by congruence. eauto.
Qed.
End drop.

(** ** The invariant of a state *)

Definition no_fault (l : list sq_ev) : Prop := forall f, SqFault f ∉ l.

Definition acct (held : list Z) (s : mtlk_sq_t) : Prop :=
  acct_on (fun i => size (ac_of s i)) (waiting s) (extras s) (next_extra s) held /\ no_fault (log s).

Lemma no_fault_app l l' : no_fault l -> no_fault l' -> no_fault (l ++ l').
Proof. intros H1 H2 f [Hin|Hin]%elem_of_app; [by eapply H1|by eapply H2]. Qed.

Lemma no_fault_one e : (forall f, e <> SqFault f) -> no_fault [e].
Proof. intros He f Hin%list_elem_of_singleton. by apply (He f). Qed.

Lemma acct_emit held e s : (forall f, e <> SqFault f) -> acct held s -> acct held (emit e s).
Proof. intros He [A N]. split; [exact A|]. apply no_fault_app; [done|by apply no_fault_one]. Qed.

Lemma waiting_ext s s' i :
  peer_list (ac_of s' i) = peer_list (ac_of s i) -> (forall q, buf_of s' q i = buf_of s q i) -> waiting s' i = waiting s i.
Proof. intros Hl Hb. unfold waiting. rewrite Hl. by apply list_bind_ext. Qed.

Lemma bind_same (f g : Z -> list nbuf) l : (forall q, q ∈ l -> f q = g q) -> (l ≫= f) = (l ≫= g).
Proof.
  induction l as [|q l IH]; intros Hfg; [done|]. rewrite !bind_cons, Hfg by left.
  f_equal. apply IH. intros q' Hq'. apply Hfg. by right.
Qed.

(** What waits for one peer, and the rest. *)
Lemma waiting_split s p i :
  sq_wf s -> (i < NTS_PRIORITIES)%nat -> is_Some (peers s !! p) ->
  exists rest, forall s', peer_list (ac_of s' i) = peer_list (ac_of s i) ->
    (forall q, q <> p -> buf_of s' q i = buf_of s q i) -> waiting s' i ≡ₚ buf_of s' p i ++ rest.
Proof.
  intros (_ & _ & W) Hi Hp. destruct (W i Hi) as [Hnd Hin]. apply Hin in Hp.
  apply list_elem_of_split in Hp as (l1 & l2 & Hl). rewrite Hl in Hnd.
  apply NoDup_app in Hnd as (_ & Hd & Hnd2). apply NoDup_cons in Hnd2 as [Hd2 _].
  exists ((q ← l1; buf_of s q i) ++ (q ← l2; buf_of s q i)). intros s' Hl' Hb.
  unfold waiting. rewrite Hl', Hl, bind_app, bind_cons.
  rewrite (bind_same (fun q => buf_of s' q i) (fun q => buf_of s q i) l1),
    (bind_same (fun q => buf_of s' q i) (fun q => buf_of s q i) l2).
  - rewrite !app_assoc. apply Permutation_app_tail, Permutation_app_comm.
  - intros q Hq. apply Hb. by intros ->.
  - intros q Hq. apply Hb. intros ->. apply (Hd p Hq). left.
Qed.

Lemma waiting_other s s' p i :
  (i < NTS_PRIORITIES)%nat -> sq_wf s -> ~ is_Some (peers s !! p) ->
  peer_list (ac_of s' i) = peer_list (ac_of s i) -> (forall q, q <> p -> buf_of s' q i = buf_of s q i) ->
  waiting s' i = waiting s i.
Proof.
  intros Hi (_ & _ & W) Hp Hl Hb. destruct (W i Hi) as [_ Hin]. unfold waiting. rewrite Hl.
  apply bind_same. intros q Hq. apply Hb. intros ->. by apply Hp, Hin.
Qed.

Lemma acct_frame held s s' :
  (forall i, (i < NTS_PRIORITIES)%nat -> size (ac_of s' i) = size (ac_of s i)) ->
  (forall i, (i < NTS_PRIORITIES)%nat -> waiting s' i ≡ₚ waiting s i) ->
  extras s' = extras s -> next_extra s' = next_extra s -> (no_fault (log s) -> no_fault (log s')) ->
  acct held s -> acct held s'.
Proof.
  intros Hs Hw He Hn Hf [A N]. split; [|auto]. rewrite He, Hn. eapply acct_sizes; [exact Hs|].
  by eapply acct_perm.
Qed.

Lemma size_upd i z s : (i < length (acs s))%nat ->
  forall j, size (ac_of (upd_ac i (fun a => set_size (z a) a) s) j) = put i (z (ac_of s i)) (fun j => size (ac_of s j)) j.
Proof.
  intros Hi j. destruct (decide (i = j)) as [<-|Hn]; [by rewrite put_eq, ac_of_upd|by rewrite put_ne, ac_of_upd_ne].
Qed.

Lemma waiting_upd_ac i f s j : (forall a, peer_list (f a) = peer_list a) -> waiting (upd_ac i f s) j = waiting s j.
Proof. intros Hf. apply waiting_ext; [by apply (ac_of_upd_keeps peer_list)|done]. Qed.

(** [acct] after a change of the size of one category. *)
Lemma acct_resize held i z s w m nx :
  (i < NTS_PRIORITIES)%nat -> length (acs s) = NTS_PRIORITIES ->
  acct_on (put i (z (ac_of s i)) (fun j => size (ac_of s j))) w m nx held ->
  (forall j, (j < NTS_PRIORITIES)%nat -> waiting s j ≡ₚ w j) -> m = extras s -> nx = next_extra s -> no_fault (log s) ->
  acct held (upd_ac i (fun a => set_size (z a) a) s).
Proof.
  intros Hi Hl A Hw -> -> Hf. split; [|exact Hf]. eapply acct_sizes; [|eapply acct_perm; [|exact A]].
  - intros j _. apply size_upd. by rewrite Hl.
  - intros j Hj. rewrite waiting_upd_ac by done. by apply Hw.
Qed.

(** A holder of the shared data of [nb] goes: a clone leaves, or the original. *)
Lemma acct_clone_end held held' w nb s k x :
  extra nb = Some k -> extras s !! k = Some x -> length (acs s) = NTS_PRIORITIES -> no_fault (log s) ->
  acct_on (fun i => size (ac_of s i)) w (extras s) (next_extra s) held ->
  (forall j, (j < NTS_PRIORITIES)%nat -> countb plain (waiting s j) = countb plain (w j)) ->
  (forall k' x', extras s !! k' = Some x' ->
     holders held' (waiting s (extra_ac x')) k' = holders held (w (extra_ac x')) k' - Z.b2z (k' =? k)) ->
  (forall j nb', (j < NTS_PRIORITIES)%nat -> nb' ∈ waiting s j -> nb' ∈ w j) ->
  (forall k', k' ∈ held' -> k' ∈ held) ->
  acct held' (mtlk_sq_enqueue_clone_end nb s).
Proof.
  intros Hx Hk Hlen Hf A P1 P2 P3 P4. destruct (acct_extra _ _ _ _ _ A k x Hk) as (Hac & _ & _ & H0).
  unfold mtlk_sq_enqueue_clone_end, mtlk_nbuf_priv_extra_get_ac, mtlk_nbuf_priv_extra_detach, extra_of.
  rewrite Hx. cbn. rewrite Hk. cbn. rewrite u32_small by lia.
  destruct (ref_cnt x - 1 =? 0) eqn:E; [apply Z.eqb_eq in E|apply Z.eqb_neq in E].
  - eapply (acct_resize held' (extra_ac x) (fun a => u32 (size a - 1)) _ (waiting s) (delete k (extras s)) (next_extra s)); try done.
    + apply (acct_drop_last (fun i => size (ac_of s i)) w (waiting s) (extras s) (next_extra s) held held' k x); try done; lia.
    + by apply no_fault_app, no_fault_one.
  - split; [|done]. apply (acct_drop_more (fun i => size (ac_of s i)) w (waiting s) (extras s) (next_extra s) held held' k x); try done; lia.
Qed.

(** The packet [nb], already taken off its queue, is released. *)
Lemma acct_release held i nb s0 s1 :
  (i < NTS_PRIORITIES)%nat -> length (acs s1) = NTS_PRIORITIES -> acct held s0 ->
  (forall j, size (ac_of s1 j) = size (ac_of s0 j)) ->
  waiting s0 i ≡ₚ nb :: waiting s1 i ->
  (forall j, (j < NTS_PRIORITIES)%nat -> j <> i -> waiting s1 j ≡ₚ waiting s0 j) ->
  extras s1 = extras s0 -> next_extra s1 = next_extra s0 -> no_fault (log s1) ->
  acct held (_mtlk_sq_release_packet i nb s1).
Proof.
  intros Hi Hlen [A N] Hs Hw Hother He Hn Hf.
  apply (acct_sizes _ (fun i => size (ac_of s1 i))) in A; [|done]. rewrite <- He, <- Hn in A.
  unfold _mtlk_sq_release_packet. destruct (rmcast nb) eqn:Hrm.
  - assert (nb ∈ waiting s0 i) as Hin by (rewrite Hw; left).
    destruct (acct_clone _ _ _ _ _ A i nb Hi Hin Hrm) as (k & x & Hx & Hk & Hac).
    eapply (acct_clone_end held held (waiting s0)); try done.
    + intros j Hj. destruct (decide (j = i)) as [->|Hne]; [|by apply countb_perm, Hother].
      rewrite (countb_perm _ _ _ Hw), countb_cons. unfold plain at 2. by rewrite Hrm.
    + intros k' x' Hk'. destruct (acct_extra _ _ _ _ _ A k' x' Hk') as (Hac' & _). unfold holders.
      destruct (decide (extra_ac x' = i)) as [Heq|Hne].
      * rewrite Heq, (countb_perm _ _ _ Hw), countb_cons. unfold clone_of at 2. rewrite Hrm, Hx.
        destruct (decide (k' = k)) as [->|]; [rewrite bool_decide_true, Z.eqb_refl by done; cbn; lia|].
        rewrite bool_decide_false by congruence. assert ((k' =? k) = false) as -> by (by apply Z.eqb_neq). cbn. lia.
      * rewrite (countb_perm _ _ _ (Hother _ Hac' Hne)).
        assert ((k' =? k) = false) as -> by (apply Z.eqb_neq; intros ->; congruence). cbn. lia.
    + intros j nb' Hj Hin'. destruct (decide (j = i)) as [->|Hne]; [rewrite Hw; by right|by rewrite <- Hother].
  - eapply (acct_resize held i (fun a => u32 (size a - 1)) _ (put i (waiting s1 i) (waiting s0)) (extras s1) (next_extra s1)); try done.
    + apply (acct_plain_out (fun j => size (ac_of s1 j)) _ _ _ _ i nb); [done| |done|done]. unfold plain. by rewrite Hrm.
    + intros j Hj. destruct (decide (i = j)) as [<-|]; [by rewrite put_eq|rewrite put_ne by done; auto].
Qed.
