(* ===== verification/SqOps.v ===== *)
(** * SqOps: every operation of the send queue keeps its invariants

    [advance s s']: from a well-formed state the peers and their lists stay
    (up to the order of the lists), the abstract queues follow the log, and
    the counters stay right. *)
From S2P Require Import Prelude Sq SqInv SqAcct.

Definition advance (s s' : mtlk_sq_t) : Prop :=
  sq_wf s -> shape s s' /\ tracks s s' /\ forall held, acct held s -> acct held s'.

#[export] Instance advance_preorder : PreOrder advance.
Proof.
  split.
  - intros s _. split; [reflexivity|split; [reflexivity|done]].
  - intros a b c Hab Hbc Hwf. destruct (Hab Hwf) as (S1 & T1 & A1).
    destruct (Hbc (shape_wf _ _ S1 Hwf)) as (S2 & T2 & A2). split; [by transitivity b|].
    split; [by transitivity b|]. intros held H. auto.
Qed.

Lemma advance_wf s s' : advance s s' -> sq_wf s -> sq_wf s'.
Proof. intros Ha Hwf. destruct (Ha Hwf) as (S1 & _). by eapply shape_wf. Qed.

(** ** Steps that move no packet *)

Lemma advance_peer p f s :
  (forall c, length (pacs (f c)) = length (pacs c)) ->
  (forall c i, buflist (pacs (f c) !!! i) = buflist (pacs c !!! i)) -> advance s (upd_peer p f s).
Proof.
  intros Hl Hb Hwf. assert (forall q i, buf_of (upd_peer p f s) q i = buf_of s q i) as Hsame by by apply buf_of_upd_peer.
  split; [by apply shape_upd_peer|]. split.
  - apply (tracks_quiet []); [by rewrite app_nil_r|done|done].
  - intros held [A N]. split; [|exact N]. eapply acct_perm; [|exact A].
    intros i _. by rewrite (waiting_ext s (upd_peer p f s)).
Qed.

Lemma advance_pac p i g s : (forall a, buflist (g a) = buflist a) -> advance s (upd_peer p (upd_pac i g) s).
Proof.
  intros Hg. apply advance_peer.
  - intros c. unfold upd_pac; cbn [pacs]. by rewrite length_alter.
  - intros c j. by apply buflist_alter.
Qed.

Lemma advance_ac i f s :
  (forall a, peer_list (f a) ≡ₚ peer_list a) -> (forall a, size (f a) = size a) -> advance s (upd_ac i f s).
Proof.
  intros Hl Hs Hwf. assert (shape s (upd_ac i f s)) as Hsh by by apply shape_upd_ac. split; [done|]. split.
  - apply (tracks_quiet []); [by rewrite app_nil_r|done|done].
  - intros held. apply acct_frame; try done.
    + intros j _. by apply (ac_of_upd_keeps size).
    + intros j _. unfold waiting. destruct Hsh as (_ & Hsh & _). by rewrite Hsh.
Qed.

Lemma advance_emit e s : silent e -> (forall f, e <> SqFault f) -> advance s (emit e s).
Proof.
  intros He Hf Hwf. split; [done|]. split; [by apply (tracks_quiet [e]); [|apply Forall_singleton|]|].
  intros held. by apply acct_emit.
Qed.

Lemma advance_same s s' :
  acs s' = acs s -> peers s' = peers s -> extras s' = extras s -> next_extra s' = next_extra s -> log s' = log s ->
  advance s s'.
Proof.
  intros E1 E2 E3 E4 E5 Hwf.
  assert (forall i, ac_of s' i = ac_of s i) as Ha by (intros; unfold ac_of; by rewrite E1).
  assert (forall p i, buf_of s' p i = buf_of s p i) as Hb by (intros; unfold buf_of, pac_of, peer_of; by rewrite E2).
  split; [repeat split; [by rewrite E1|intros; by rewrite Ha|intros; by rewrite E2]|]. split.
  - apply (tracks_quiet []); [by rewrite app_nil_r|done|done].
  - intros held. apply (acct_frame held s); try done.
    + intros i _. by rewrite Ha.
    + intros i _. rewrite (waiting_ext s s'); [done|by rewrite Ha|done].
    + by rewrite E5.
Qed.

(** ** A packet leaves its queue *)

Definition leaves (p : Z) (i : nat) (nb : nbuf) (e : sq_ev) : Prop :=
  e = SqSent p i nb \/ e = SqFree p i nb \/ e = SqCancel p i nb.

Lemma leaves_other p i nb e q j b : leaves p i nb e -> (p, i) <> (q, j) -> fifo_ev q j e b = Some b.
Proof. intros He. apply (fifo_other p i e nb). tauto. Qed.

Lemma waiting_set_buf s p i l :
  sq_wf s -> (i < NTS_PRIORITIES)%nat -> is_Some (peers s !! p) ->
  exists rest, waiting s i ≡ₚ buf_of s p i ++ rest /\ waiting (set_buf p i l s) i ≡ₚ l ++ rest /\
  forall j, j <> i -> waiting (set_buf p i l s) j = waiting s j.
Proof.
  intros Hwf Hi Hp. destruct (waiting_split s p i Hwf Hi Hp) as [rest Hrest]. exists rest.
  destruct Hp as [c Hc]. pose proof (wf_has_ac s p c i Hwf Hc Hi) as Ha. split; [by apply Hrest|]. split.
  - rewrite Hrest; [by rewrite buf_of_set_buf|done|]. intros q Hq. apply buf_of_set_buf_ne. congruence.
  - intros j Hj. apply waiting_ext; [done|]. intros q. apply buf_of_set_buf_ne. congruence.
Qed.

Lemma advance_leave p i nb l e s :
  is_Some (peers s !! p) -> (i < NTS_PRIORITIES)%nat -> leaves p i nb e ->
  fifo_ev p i e (buf_of s p i) = Some l -> buf_of s p i ≡ₚ nb :: l ->
  advance s (emit e (_mtlk_sq_release_packet i nb (set_buf p i l s))).
Proof.
  intros Hp Hi He Hf Hb Hwf. split; [apply leave_shape|]. split.
  { destruct Hp as [c Hc]. apply tracks_leave; [by eapply wf_has_ac|done|].
    intros q j b. by apply (leaves_other p i nb). }
  intros held Ha. apply acct_emit; [by destruct He as [->|[->| ->]]|].
  destruct (waiting_set_buf s p i l Hwf Hi Hp) as (rest & W1 & W2 & W3).
  apply (acct_release held i nb s); try done.
  - by destruct Hwf.
  - rewrite W1, W2, Hb. done.
  - intros j _ Hj. by rewrite W3.
  - by destruct Ha.
Qed.

Lemma buf_of_leave p i l e nb s :
  has_ac s p i -> buf_of (emit e (_mtlk_sq_release_packet i nb (set_buf p i l s))) p i = l.
Proof.
  intros Ha. change (buf_of (_mtlk_sq_release_packet i nb (set_buf p i l s)) p i = l).
  rewrite (calm_buf _ _ _ _ (release_calm i nb (set_buf p i l s))). by apply buf_of_set_buf.
Qed.

Lemma drain_advance p i s :
  sq_wf s -> is_Some (peers s !! p) -> (i < NTS_PRIORITIES)%nat ->
  forall l, buf_of s p i = l -> advance s (drain p i l s) /\ buf_of (drain p i l s) p i = [].
Proof.
  intros Hwf Hp Hi l. revert s Hwf Hp. induction l as [|nb l IH]; intros s Hwf Hp Hb; [done|]. cbn [drain].
  set (s1 := emit (SqFree p i nb) (_mtlk_sq_release_packet i nb (set_buf p i l s))).
  assert (advance s s1) as Hs1.
  { apply advance_leave; try done; [by right; left| |by rewrite Hb].
    rewrite Hb. apply (fifo_pop p i _ nb). by right. }
  destruct (Hs1 Hwf) as (Sh & _). destruct (IH s1) as [IH1 IH2].
  - by eapply advance_wf.
  - by apply (shape_some _ _ p Sh).
  - destruct Hp as [c Hc]. apply buf_of_leave. by eapply wf_has_ac.
  - split; [by transitivity s1|done].
Qed.

Lemma remove_first_mid nb (a b : list nbuf) : nb ∉ a -> remove_first nb (a ++ nb :: b) = a ++ b.
Proof.
  induction a as [|x a IH]; intros Hn; simpl; [by rewrite decide_True|].
  rewrite not_elem_of_cons in Hn. destruct Hn. rewrite decide_False by congruence. f_equal. auto.
Qed.

Lemma cancel_vap_advance vap p i l : forall kept s,
  sq_wf s -> is_Some (peers s !! p) -> (i < NTS_PRIORITIES)%nat ->
  buf_of s p i = kept ++ l -> Forall (fun nb => nb_vap nb <> vap) kept ->
  advance s (cancel_vap vap p i kept l s) /\
  buf_of (cancel_vap vap p i kept l s) p i = kept ++ filter (fun nb => nb_vap nb <> vap) l.
Proof.
  induction l as [|nb l IH]; intros kept s Hwf Hp Hi Hb Hk; [done|]. cbn [cancel_vap].
  destruct (vap =? nb_vap nb) eqn:E; [apply Z.eqb_eq in E|apply Z.eqb_neq in E].
  - set (s1 := emit (SqCancel p i nb) (_mtlk_sq_release_packet i nb (set_buf p i (kept ++ l) s))).
    assert (nb ∉ kept) as Hn. { intros Hin. rewrite Forall_forall in Hk. by apply (Hk nb Hin). }
    assert (advance s s1) as Hs1.
    { apply advance_leave; try done; [by right; right| |].
      - cbn [fifo_ev]. rewrite on_chan_refl, Hb, decide_True by set_solver. by rewrite remove_first_mid.
      - rewrite Hb. by rewrite Permutation_middle. }
    destruct (Hs1 Hwf) as (Sh & _). destruct (IH kept s1) as [IH1 IH2]; try done.
    + by eapply advance_wf.
    + by apply (shape_some _ _ p Sh).
    + destruct Hp as [c Hc]. apply buf_of_leave. by eapply wf_has_ac.
    + split; [by transitivity s1|]. rewrite IH2, filter_cons_False; [done|]. intros Hne. by apply Hne.
  - destruct (IH (kept ++ [nb]) s) as [IH1 IH2]; try done.
    + by rewrite <- app_assoc.
    + apply Forall_app. split; [done|]. by apply Forall_singleton.
    + split; [done|]. rewrite IH2, <- app_assoc, filter_cons_True by done. done.
Qed.

(** * What a flush does with what waits

    [sends i s s'] is what processing category [i] may do; [idle] says a peer
    has nothing it may send. A round without a packet leaves every peer idle;
    a flush that the hardware does not stop leaves every peer idle in every
    category. *)

Definition total (s : mtlk_sq_t) : Z := Z.of_nat (length (all_acs ≫= waiting s)).

(** Neither [used] counter can wrap while what waits is sent. *)
Definition room (s : mtlk_sq_t) : Prop :=
  forall p c, peers s !! p = Some c -> 0 <= used c /\ used c + total s < 2 ^ 32.

Definition idle (s : mtlk_sq_t) (p : Z) (i : nat) : Prop :=
  buf_of s p i = [] \/ at_limit (peer_of s p) i = true.

(** What stays of a peer while category [i] is processed. *)
Definition peer_grows (i : nat) (c c' : mtlk_sq_peer_ctx_t) : Prop :=
  limit c' = limit c /\ ps_mode_enabled c' = ps_mode_enabled c /\ used c <= used c' /\
  forall j, j <> i -> pacs c' !!! j = pacs c !!! j.

Record sends (i : nat) (s s' : mtlk_sq_t) : Prop := {
  sends_advance : advance s s';
  sends_prohibited : hw_tx_prohibited s' = hw_tx_prohibited s;
  sends_buf : forall p j, j <> i -> buf_of s' p j = buf_of s p j;
  sends_grow : sq_wf s -> room s -> room s' /\
    forall p c, peers s !! p = Some c -> exists c', peers s' !! p = Some c' /\ peer_grows i c c'
}.

Lemma peer_grows_trans i a b c : peer_grows i a b -> peer_grows i b c -> peer_grows i a c.
Proof.
  intros (A1 & A2 & A3 & A4) (B1 & B2 & B3 & B4). split; [congruence|]. split; [congruence|]. split; [lia|].
  intros j Hj. by rewrite B4, A4.
Qed.

#[export] Instance sends_preorder i : PreOrder (sends i).
Proof.
  split.
  - intros s. split; [reflexivity|done|done|]. intros _ Hr. split; [done|]. intros p c Hc. exists c. repeat split; done || lia.
  - intros a b c [A1 A2 A3 A4] [B1 B2 B3 B4]. split.
    + by transitivity b.
    + congruence.
    + intros p j Hj. by rewrite B3, A3.
    + intros Hwf Hr. destruct (A4 Hwf Hr) as [Hr1 G1].
      destruct (B4 (advance_wf _ _ A1 Hwf) Hr1) as [Hr2 G2]. split; [done|].
      intros p c0 Hc. destruct (G1 p c0 Hc) as (c1 & Hc1 & P1). destruct (G2 p c1 Hc1) as (c2 & Hc2 & P2).
      exists c2. split; [done|]. by eapply peer_grows_trans.
Qed.

Lemma sends_idle i s s' p j :
  sends i s s' -> sq_wf s -> room s -> is_Some (peers s !! p) -> j <> i -> idle s p j -> idle s' p j.
Proof.
  intros Hs Hwf Hr [c Hc] Hj [Hb|Hl]; [left; by rewrite (sends_buf _ _ _ Hs)|right].
  destruct (sends_grow _ _ _ Hs Hwf Hr) as [_ G]. destruct (G p c Hc) as (c' & Hc' & G1 & G2 & G3 & G4).
  rewrite (peer_of_some _ _ _ Hc) in Hl. rewrite (peer_of_some _ _ _ Hc'). unfold at_limit in *.
  rewrite G1, G2, (G4 j Hj). destruct (_ && _); [done|]. apply Z.leb_le in Hl. apply Z.leb_le. lia.
Qed.

(** ** A packet is sent or dropped *)

Lemma total_perm s s' : (forall j, waiting s' j ≡ₚ waiting s j) -> total s' = total s.
Proof.
  intros Hw. unfold total. f_equal. induction all_acs as [|j l IH]; [done|].
  rewrite !bind_cons, !length_app, IH, (Permutation_length (Hw j)). done.
Qed.

Lemma bind_length_one (f g : nat -> list nbuf) l i :
  NoDup l -> i ∈ l -> length (f i) = S (length (g i)) -> (forall j, j <> i -> f j = g j) ->
  length (l ≫= f) = S (length (l ≫= g)).
Proof.
  induction l as [|x l IH]; intros Hnd Hi Hlen Hother; [by apply not_elem_of_nil in Hi|].
  apply NoDup_cons in Hnd as [Hx Hnd]. rewrite !bind_cons, !length_app.
  destruct (decide (x = i)) as [->|Hne].
  - rewrite Hlen. assert ((l ≫= f) = (l ≫= g)) as ->; [|lia].
    clear -Hx Hother. induction l as [|y l IH]; [done|]. apply not_elem_of_cons in Hx as [H1 H2].
    rewrite !bind_cons, Hother by done. by rewrite IH.
  - rewrite Hother by done. apply elem_of_cons in Hi as [->|Hi]; [done|].
    rewrite (IH Hnd Hi Hlen Hother). lia.
Qed.

Lemma ac_in i : (i < NTS_PRIORITIES)%nat -> i ∈ all_acs.
Proof. intros Hi. unfold all_acs. apply elem_of_seq. lia. Qed.

Lemma total_set_buf s p i nb l :
  sq_wf s -> (i < NTS_PRIORITIES)%nat -> is_Some (peers s !! p) -> buf_of s p i = nb :: l ->
  total s = total (set_buf p i l s) + 1.
Proof.
  intros Hwf Hi Hp Hb. destruct (waiting_set_buf s p i l Hwf Hi Hp) as (rest & W1 & W2 & W3). unfold total.
  rewrite (bind_length_one (waiting s) (waiting (set_buf p i l s)) all_acs i); [lia| | | |].
  - apply NoDup_seq.
  - by apply ac_in.
  - rewrite (Permutation_length W1), (Permutation_length W2), Hb. done.
  - intros j Hj. by rewrite W3.
Qed.

Lemma total_calm s s' : (forall j, peer_list (ac_of s' j) = peer_list (ac_of s j)) ->
  (forall p j, buf_of s' p j = buf_of s p j) -> total s' = total s.
Proof. intros Hl Hb. apply total_perm. intros j. by rewrite (waiting_ext s s'). Qed.

(** The peer of a packet just taken off. *)
Definition popped (i : nat) (l : list nbuf) (c : mtlk_sq_peer_ctx_t) : mtlk_sq_peer_ctx_t := upd_pac i (set_buflist l) c.
Definition counted (i : nat) (c : mtlk_sq_peer_ctx_t) : mtlk_sq_peer_ctx_t :=
  upd_pac i inc_p_sent (upd_pac i (fun a => set_used_per_ac (u32 (used_per_ac a + 1)) a) (set_used (u32 (used c + 1)) c)).

Lemma peers_leave e i nb p l s :
  peers (emit e (_mtlk_sq_release_packet i nb (set_buf p i l s))) = alter (popped i l) p (peers s).
Proof. cbn [emit peers]. by rewrite (calm_peers _ _ (release_calm i nb (set_buf p i l s))). Qed.

Lemma map_alter_alter {A} (f g : A -> A) k (m : gmap Z A) : alter f k (alter g k m) = alter (fun x => f (g x)) k m.
Proof.
  apply map_eq. intros j. destruct (decide (k = j)) as [->|]; [|by rewrite !lookup_alter_ne].
  rewrite !lookup_alter_eq. by destruct (m !! j).
Qed.

Lemma peers_count_sent p i s : peers (count_sent p i s) = alter (counted i) p (peers s).
Proof.
  unfold count_sent, upd_peer, set_peers, upd_ac, set_acs; cbn [peers].
  by rewrite !map_alter_alter.
Qed.

Lemma upd_pac_other i g c j : j <> i -> pacs (upd_pac i g c) !!! j = pacs c !!! j.
Proof. intros Hj. unfold upd_pac; cbn [pacs]. by apply alter_total_ne. Qed.

Lemma popped_grows i l c : peer_grows i c (popped i l c).
Proof. split; [done|split; [done|split; [done|]]]. intros j Hj. by apply upd_pac_other. Qed.

Lemma counted_grows i c : 0 <= used c -> used c + 1 < 2 ^ 32 -> peer_grows i c (counted i c) /\ used (counted i c) = used c + 1.
Proof.
  intros H0 Hu. assert (used (counted i c) = used c + 1) as Hc by (apply u32_small; lia).
  split; [|done]. split; [done|split; [done|split; [lia|]]]. intros j Hj. unfold counted.
  by rewrite !upd_pac_other.
Qed.

(** Processing of category [i] that changes the peer [p] alone. *)
Lemma sends_one i p c f s s' :
  peers s !! p = Some c -> peers s' = alter f p (peers s) -> advance s s' -> hw_tx_prohibited s' = hw_tx_prohibited s ->
  (forall q j, j <> i -> buf_of s' q j = buf_of s q j) ->
  total s = total s' + 1 ->
  (0 <= used c -> used c + 1 < 2 ^ 32 -> peer_grows i c (f c) /\ used (f c) <= used c + 1) ->
  sends i s s'.
Proof.
  intros Hc Hp Ha Hh Hb Ht Hf. split; [done|done|done|]. intros Hwf Hr.
  pose proof (Hr p c Hc) as [Hr1 Hr2]. assert (0 <= total s') as Hpos by (unfold total; lia).
  destruct Hf as [Hg Hu]; [lia|lia|]. split.
  - intros q c' Hq. rewrite Hp in Hq. destruct (decide (p = q)) as [<-|Hne].
    + rewrite lookup_alter_eq, Hc in Hq. injection Hq as <-. destruct Hg as (_ & _ & ? & _). lia.
    + rewrite lookup_alter_ne in Hq by done. destruct (Hr q c' Hq). lia.
  - intros q c' Hq. rewrite Hp. destruct (decide (p = q)) as [<-|Hne].
    + rewrite lookup_alter_eq, Hq. eexists. split; [done|]. by assert (c' = c) as -> by congruence.
    + rewrite lookup_alter_ne by done. exists c'. split; [done|]. split; [done|]. split; [done|]. split; [lia|done].
Qed.

Lemma leave_buf_other e i nb p l s q j :
  j <> i -> buf_of (emit e (_mtlk_sq_release_packet i nb (set_buf p i l s))) q j = buf_of s q j.
Proof.
  intros Hj. change (buf_of (_mtlk_sq_release_packet i nb (set_buf p i l s)) q j = buf_of s q j).
  rewrite (calm_buf _ _ _ _ (release_calm i nb (set_buf p i l s))). apply buf_of_set_buf_ne. congruence.
Qed.

Lemma release_lists i nb s j : peer_list (ac_of (_mtlk_sq_release_packet i nb s) j) = peer_list (ac_of s j).
Proof.
  assert (forall k, peer_list (ac_of (mtlk_sq_enqueue_clone_end k s) j) = peer_list (ac_of s j)) as Hend.
  { intros k. unfold mtlk_sq_enqueue_clone_end.
    assert (peer_list (ac_of (mtlk_nbuf_priv_extra_detach k s).2 j) = peer_list (ac_of s j)) as Hd.
    { unfold mtlk_nbuf_priv_extra_detach. destruct (extra_of k s) as [[? ?]|]; [|done]. cbn zeta. by destruct (_ =? 0). }
    destruct (mtlk_nbuf_priv_extra_detach k s) as [[] s1]; [|done].
    unfold dec_size. by rewrite (ac_of_upd_keeps peer_list). }
  unfold _mtlk_sq_release_packet. destruct (rmcast nb); [apply Hend|].
  unfold dec_size. by rewrite (ac_of_upd_keeps peer_list).
Qed.

Lemma leave_total e i nb p l s :
  sq_wf s -> (i < NTS_PRIORITIES)%nat -> is_Some (peers s !! p) -> buf_of s p i = nb :: l ->
  total s = total (emit e (_mtlk_sq_release_packet i nb (set_buf p i l s))) + 1.
Proof.
  intros Hwf Hi Hp Hb. rewrite (total_set_buf s p i nb l) by done. f_equal. symmetry. apply total_calm.
  - intros j. apply release_lists.
  - intros q j. apply (calm_buf (set_buf p i l s) (_mtlk_sq_release_packet i nb (set_buf p i l s))), release_calm.
Qed.

Lemma leave_prohibited e i nb p l s :
  hw_tx_prohibited (emit e (_mtlk_sq_release_packet i nb (set_buf p i l s))) = hw_tx_prohibited s.
Proof. cbn [emit hw_tx_prohibited]. by destruct (calm_hw _ _ (release_calm i nb (set_buf p i l s))). Qed.

(** Dropping the first packet of [p]. *)
Lemma sends_free i p c nb l s :
  sq_wf s -> peers s !! p = Some c -> (i < NTS_PRIORITIES)%nat -> buf_of s p i = nb :: l ->
  sends i s (emit (SqFree p i nb) (_mtlk_sq_release_packet i nb (set_buf p i l s))).
Proof.
  intros Hwf Hc Hi Hb. assert (is_Some (peers s !! p)) as Hp by eauto.
  apply (sends_one i p c (popped i l)); try done.
  - apply peers_leave.
  - apply advance_leave; try done; [by right; left| |by rewrite Hb]. rewrite Hb. apply (fifo_pop p i _ nb). by right.
  - apply leave_prohibited.
  - intros q j Hj. by apply leave_buf_other.
  - by apply leave_total.
  - intros _ _. split; [apply popped_grows|]. cbn. lia.
Qed.

Lemma count_sent_advance p i s : advance s (count_sent p i s).
Proof.
  unfold count_sent.
  transitivity (upd_peer p (fun c => set_used (u32 (used c + 1)) c) s); [by apply advance_peer|].
  set (s1 := upd_peer p _ s).
  transitivity (upd_peer p (upd_pac i (fun a => set_used_per_ac (u32 (used_per_ac a + 1)) a)) s1); [by apply advance_pac|].
  set (s2 := upd_peer p _ s1).
  transitivity (upd_ac i inc_q_sent s2); [by apply advance_ac|]. by apply advance_pac.
Qed.

Lemma count_sent_buf p i s q j : buf_of (count_sent p i s) q j = buf_of s q j.
Proof.
  unfold count_sent. rewrite buf_of_upd_pac by done.
  set (s1 := upd_peer p (fun c => set_used (u32 (used c + 1)) c) s).
  set (s2 := upd_peer p (upd_pac i (fun a => set_used_per_ac (u32 (used_per_ac a + 1)) a)) s1).
  change (buf_of s2 q j = buf_of s q j). unfold s2. rewrite buf_of_upd_pac by done. unfold s1. by rewrite buf_of_upd_peer.
Qed.

Lemma count_sent_lists p i s j : peer_list (ac_of (count_sent p i s) j) = peer_list (ac_of s j).
Proof. unfold count_sent. apply (ac_of_upd_keeps peer_list i inc_q_sent s j). done. Qed.

(** Sending the first packet of [p]. *)
Lemma sends_sent i p c nb l s :
  sq_wf s -> peers s !! p = Some c -> (i < NTS_PRIORITIES)%nat -> buf_of s p i = nb :: l ->
  sends i s (count_sent p i (emit (SqSent p i nb) (_mtlk_sq_release_packet i nb (set_buf p i l s)))).
Proof.
  intros Hwf Hc Hi Hb. assert (is_Some (peers s !! p)) as Hp by eauto.
  set (s1 := emit (SqSent p i nb) (_mtlk_sq_release_packet i nb (set_buf p i l s))).
  apply (sends_one i p c (fun c => counted i (popped i l c))); try done.
  - rewrite peers_count_sent. unfold s1. rewrite peers_leave. by rewrite map_alter_alter.
  - transitivity s1; [|apply count_sent_advance].
    apply advance_leave; try done; [by left| |by rewrite Hb]. rewrite Hb. apply (fifo_pop p i _ nb). by left.
  - apply leave_prohibited.
  - intros q j Hj. rewrite count_sent_buf. by apply leave_buf_other.
  - rewrite (leave_total (SqSent p i nb) i nb p l s) by done. f_equal. symmetry.
    apply total_calm; [apply count_sent_lists|apply count_sent_buf].
  - intros H1 H2. destruct (counted_grows i (popped i l c)) as [G U]; [done|done|]. split.
    + eapply peer_grows_trans; [apply popped_grows|exact G].
    + rewrite U. cbn. lia.
Qed.
