(* ===== verification/SqFlush.v ===== *)
(** * SqFlush: a pass over the send queue ends and leaves nothing sendable *)
From S2P Require Import Prelude Sq SqInv SqAcct SqOps.

(** Putting a packet back where it was taken from. *)
Lemma set_buf_back p i l s : peers (set_buf p i (buf_of s p i) (set_buf p i l s)) = peers s.
Proof.
  unfold set_buf, upd_peer, set_peers; cbn [peers]. rewrite map_alter_alter. apply map_eq. intros q.
  destruct (decide (p = q)) as [<-|]; [|by rewrite lookup_alter_ne]. rewrite lookup_alter_eq.
  destruct (peers s !! p) as [c|] eqn:Hc; [|done]. simpl. f_equal. unfold upd_pac; cbn [pacs limit_cfg limit used vap_handle ps_mode_enabled].
  rewrite list_alter_alter. destruct c as [pa lc li us vh ps]; cbn [pacs limit_cfg limit used vap_handle ps_mode_enabled]. f_equal.
  apply list_eq. intros j. destruct (decide (i = j)) as [<-|]; [|by rewrite list_lookup_alter_ne].
  rewrite list_lookup_alter_eq. destruct (pa !! i) as [a|] eqn:Ha; [|done]. simpl. f_equal.
  unfold buf_of, pac_of. rewrite (peer_of_some _ _ _ Hc). cbn [pacs].
  rewrite (list_lookup_total_correct _ _ _ Ha). by destruct a.
Qed.

Lemma sends_same i s s' :
  acs s' = acs s -> peers s' = peers s -> extras s' = extras s -> next_extra s' = next_extra s -> log s' = log s ->
  hw_tx_prohibited s' = hw_tx_prohibited s -> sends i s s'.
Proof.
  intros E1 E2 E3 E4 E5 E6.
  assert (forall p j, buf_of s' p j = buf_of s p j) as Hb by (intros; unfold buf_of, pac_of, peer_of; by rewrite E2).
  split; [by apply advance_same|done|by intros|]. intros _ Hr.
  assert (total s' = total s) as Ht. { apply total_calm; [|done]. intros j. unfold ac_of. by rewrite E1. }
  split.
  - intros p c Hc. rewrite E2 in Hc. rewrite Ht. exact (Hr p c Hc).
  - intros p c Hc. exists c. rewrite E2. split; [done|]. split; [done|split; [done|split; [lia|done]]].
Qed.

Lemma leave_waiting e i nb p l s :
  sq_wf s -> (i < NTS_PRIORITIES)%nat -> is_Some (peers s !! p) -> buf_of s p i = nb :: l ->
  length (waiting s i) = S (length (waiting (emit e (_mtlk_sq_release_packet i nb (set_buf p i l s))) i)).
Proof.
  intros Hwf Hi Hp Hb. destruct (waiting_set_buf s p i l Hwf Hi Hp) as (rest & W1 & W2 & _).
  rewrite (waiting_ext (set_buf p i l s) (emit e (_mtlk_sq_release_packet i nb (set_buf p i l s)))).
  - rewrite (Permutation_length W1), (Permutation_length W2), Hb. done.
  - apply release_lists.
  - intros q. apply (calm_buf (set_buf p i l s) (_mtlk_sq_release_packet i nb (set_buf p i l s))), release_calm.
Qed.

Lemma sends_back i p nb rest s :
  has_ac s p i -> buf_of s p i = nb :: rest ->
  forall s2, peers s2 = peers (set_buf p i rest s) -> acs s2 = acs s -> extras s2 = extras s ->
    next_extra s2 = next_extra s -> log s2 = log s -> hw_tx_prohibited s2 = hw_tx_prohibited s ->
    sends i s (set_buf p i (nb :: buf_of s2 p i) s2).
Proof.
  intros Ha Hb s2 Hp2 Ha2 He2 Hn2 Hl2 Hh2. assert (buf_of s2 p i = rest) as ->.
  { unfold buf_of, pac_of, peer_of. rewrite Hp2. by apply buf_of_set_buf. }
  apply sends_same; try done. rewrite <- (set_buf_back p i rest s), Hb.
  unfold set_buf, upd_peer, set_peers; cbn [peers]. by rewrite Hp2.
Qed.

Lemma count_sent_waiting p i s j : waiting (count_sent p i s) j = waiting s j.
Proof. apply waiting_ext; [apply count_sent_lists|]. intros q. apply count_sent_buf. Qed.

Section hw.
Context (hw : nat -> nbuf -> Z).

(** The hardware accepts or drops whatever it is given. *)
Definition takes_all : Prop := forall n nb, hw n nb = MTLK_ERR_OK \/ hw n nb = MTLK_ERR_PKT_DROPPED.
Definition stopped (s : mtlk_sq_t) : Prop := hw_tx_prohibited s = true \/ ~ takes_all.

Definition served_by (i : nat) (p : Z) (s : mtlk_sq_t) (r : served * mtlk_sq_t) : Prop :=
  match r with
  | (SvContinue, s') => s' = s /\ idle s p i
  | (SvPacket, s') => sends i s s' /\ (forall j, peer_list (ac_of s' j) = peer_list (ac_of s j)) /\
      length (waiting s i) = S (length (waiting s' i))
  | (SvReturn res, s') => sends i s s' /\ res <> MTLK_ERR_OK /\ stopped s
  end.

Lemma sends_calls i s : sends i s (inc_hw_calls s).
Proof. by apply sends_same. Qed.

Lemma serve_peer_spec i p s :
  sq_wf s -> is_Some (peers s !! p) -> (i < NTS_PRIORITIES)%nat -> served_by i p s (serve_peer hw i p s).
Proof.
  intros Hwf [c Hc] Hi. unfold serve_peer. rewrite Hc. destruct (buf_of s p i) as [|nb rest] eqn:Hb; [split; [done|by left]|].
  destruct (at_limit c i) eqn:El; [split; [done|right; by rewrite (peer_of_some _ _ _ Hc)]|]. cbv zeta.
  pose proof (sends_back i p nb rest s (wf_has_ac _ _ _ _ Hwf Hc Hi) Hb) as Hback.
  destruct (hw_tx_prohibited s) eqn:Hh.
  { change (hw_tx_prohibited (set_buf p i rest s)) with (hw_tx_prohibited s). rewrite Hh. cbn.
    split; [by apply Hback|]. split; [done|by left]. }
  change (hw_tx_prohibited (set_buf p i rest s)) with (hw_tx_prohibited s). rewrite Hh. unfold _mtlk_sq_send_to_hw.
  set (s1 := inc_hw_calls s). change (inc_hw_calls (set_buf p i rest s)) with (set_buf p i rest s1).
  change (hw_calls (set_buf p i rest s)) with (hw_calls s).
  set (res := hw (hw_calls s) nb). assert (sq_wf s1) as Hwf1 by done.
  destruct (res =? MTLK_ERR_OK) eqn:E1.
  { split; [transitivity s1; [apply sends_calls|by apply (sends_sent i p c nb rest s1)]|]. split.
    - intros j. etransitivity; [apply count_sent_lists|]. apply (release_lists i nb (set_buf p i rest s1) j).
    - change (waiting s i) with (waiting s1 i). rewrite (leave_waiting (SqSent p i nb) i nb p rest s1); eauto. f_equal. f_equal. symmetry.
      exact (count_sent_waiting p i (emit (SqSent p i nb) (_mtlk_sq_release_packet i nb (set_buf p i rest s1))) i). }
  apply Z.eqb_neq in E1. destruct ((res =? MTLK_ERR_PROHIB) || (res =? MTLK_ERR_NO_RESOURCES)) eqn:E2.
  { split; [by apply Hback|]. split; [done|]. right. intros Hall. destruct (Hall (hw_calls s) nb) as [Hr|Hr]; [done|].
    fold res in Hr. rewrite Hr in E2. done. }
  destruct (res =? MTLK_ERR_PKT_DROPPED) eqn:E3.
  { split; [transitivity s1; [apply sends_calls|by apply (sends_free i p c nb rest s1)]|]. split.
    - intros j. apply (release_lists i nb (set_buf p i rest s1) j).
    - by apply (leave_waiting (SqFree p i nb) i nb p rest s1); eauto. }
  split; [transitivity s1; [apply sends_calls|by apply (sends_free i p c nb rest s1)]|]. split; [done|].
  right. intros Hall. apply Z.eqb_neq in E3. by destruct (Hall (hw_calls s) nb).
Qed.

Lemma sends_wf i s s' : sends i s s' -> sq_wf s -> sq_wf s'.
Proof. intros Hs. apply advance_wf, sends_advance with i. exact Hs. Qed.

Lemma sends_some i s s' p : sends i s s' -> sq_wf s -> is_Some (peers s !! p) -> is_Some (peers s' !! p).
Proof. intros Hs Hwf. destruct (sends_advance _ _ _ Hs Hwf) as (Sh & _). by apply (shape_some _ _ p Sh). Qed.

(** A round: nothing happened and all are idle, or packets went, or it stopped. *)
Lemma serve_round_spec i l : forall n s,
  sq_wf s -> (forall p, p ∈ l -> is_Some (peers s !! p)) -> (i < NTS_PRIORITIES)%nat ->
  match serve_round hw i l n s with
  | (inr m, s') => sends i s s' /\ (forall j, peer_list (ac_of s' j) = peer_list (ac_of s j)) /\ n <= m /\
      length (waiting s i) = (Z.to_nat (m - n) + length (waiting s' i))%nat /\
      (m = n -> s' = s /\ forall p, p ∈ l -> idle s p i)
  | (inl res, s') => sends i s s' /\ res <> MTLK_ERR_OK /\ stopped s
  end.
Proof.
  induction l as [|p l IH]; intros n s Hwf Hl Hi; cbn [serve_round].
  { split; [reflexivity|]. split; [done|]. split; [lia|]. rewrite Z.sub_diag. split; [done|].
    intros _. split; [done|]. by intros p Hp%not_elem_of_nil. }
  pose proof (serve_peer_spec i p s Hwf (Hl p (list_elem_of_here _ _)) Hi) as Hsp.
  destruct (serve_peer hw i p s) as [[| |res] s1]; cbn [served_by] in Hsp.
  - destruct Hsp as [-> Hidle]. specialize (IH n s Hwf (fun q Hq => Hl q (list_elem_of_further _ _ _ Hq)) Hi).
    destruct (serve_round hw i l n s) as [[res|m] s']; [done|].
    destruct IH as (H1 & H2 & H3 & H4 & H5). repeat (split; [done|]). intros Hm. destruct (H5 Hm) as [-> Hall].
    split; [done|]. intros q Hq. apply elem_of_cons in Hq as [->|Hq]; [done|auto].
  - destruct Hsp as (Hs & Hlist & Hlen). specialize (IH (n + 1) s1 (sends_wf _ _ _ Hs Hwf)).
    specialize (IH (fun q Hq => sends_some _ _ _ q Hs Hwf (Hl q (list_elem_of_further _ _ _ Hq))) Hi).
    destruct (serve_round hw i l (n + 1) s1) as [[res|m] s'].
    + destruct IH as (H1 & H2 & H3). split; [by transitivity s1|]. split; [done|].
      unfold stopped in *. by rewrite (sends_prohibited _ _ _ Hs) in H3.
    + destruct IH as (H1 & H2 & H3 & H4 & H5). split; [by transitivity s1|].
      split; [intros j; by rewrite H2, Hlist|]. split; [lia|]. split; lia.
  - done.
Qed.

(** A category: processed to the end, or stopped. *)
Definition processed (i : nat) (s : mtlk_sq_t) (r : Z * mtlk_sq_t) : Prop :=
  sends i s r.2 /\
  (if r.1 =? MTLK_ERR_OK then forall p, is_Some (peers r.2 !! p) -> idle r.2 p i else stopped s).

Lemma shift_perm (l : list Z) : mtlk_dlist_shift l ≡ₚ l.
Proof. destruct l as [|x l]; [done|]. cbn [mtlk_dlist_shift]. by rewrite Permutation_app_comm. Qed.

Lemma sends_shift i s : sends i s (upd_ac i (fun a => set_list (mtlk_dlist_shift (peer_list a)) a) s).
Proof.
  assert (advance s (upd_ac i (fun a => set_list (mtlk_dlist_shift (peer_list a)) a) s)) as Ha.
  { apply advance_ac; [|done]. intros a. apply shift_perm. }
  split; [done|done|by intros|]. intros Hwf Hr. split.
  - intros p c Hc. assert (total (upd_ac i (fun a => set_list (mtlk_dlist_shift (peer_list a)) a) s) = total s) as ->; [|exact (Hr p c Hc)].
    apply total_perm. intros j. destruct (Ha Hwf) as ((_ & Hsh & _) & _). unfold waiting. by rewrite Hsh.
  - intros p c Hc. exists c. split; [done|]. split; [done|split; [done|split; [lia|done]]].
Qed.

Lemma process_loop_spec i fuel : forall s,
  sq_wf s -> (i < NTS_PRIORITIES)%nat -> (length (waiting s i) < fuel)%nat -> processed i s (process_loop hw fuel i s).
Proof.
  induction fuel as [|fuel IH]; intros s Hwf Hi Hfuel; [lia|]. cbn [process_loop].
  pose proof Hwf as (_ & _ & W). destruct (W i Hi) as [_ Hin].
  pose proof (serve_round_spec i (peer_list (ac_of s i)) 0 s Hwf (fun p Hp => proj1 (Hin p) Hp) Hi) as Hr.
  destruct (serve_round hw i (peer_list (ac_of s i)) 0 s) as [[res|m] s1].
  { destruct Hr as (H1 & H2 & H3). split; [done|]. cbn [fst]. by apply Z.eqb_neq in H2 as ->. }
  destruct Hr as (H1 & H2 & H3 & H4 & H5). destruct (m =? 0) eqn:E; [apply Z.eqb_eq in E|apply Z.eqb_neq in E].
  - destruct (H5 E) as [-> Hidle]. split; [apply sends_shift|]. cbn [fst snd]. intros p Hp. apply (Hidle p), Hin, Hp.
  - destruct (IH s1) as [G1 G2]; [by eapply sends_wf|done|lia|]. split; [by transitivity s1|].
    destruct (_ =? _); [done|]. unfold stopped in *. by rewrite (sends_prohibited _ _ _ H1) in G2.
Qed.

Lemma process_packets_by_ac_spec i s :
  sq_wf s -> (i < NTS_PRIORITIES)%nat -> processed i s (process_packets_by_ac hw i s).
Proof. intros Hwf Hi. apply process_loop_spec; [done|done|lia]. Qed.

(** ** A flush *)

Definition ac_no : nat -> nat := mtlk_get_ac_by_number.

Lemma ac_no_lt n : (n < NTS_PRIORITIES)%nat -> (ac_no n < NTS_PRIORITIES)%nat.
Proof. intros Hn. unfold NTS_PRIORITIES in *. do 4 (destruct n as [|n]; [apply Nat.ltb_lt; reflexivity|]). lia. Qed.

Lemma ac_no_inj n m : (n < NTS_PRIORITIES)%nat -> (m < NTS_PRIORITIES)%nat -> ac_no n = ac_no m -> n = m.
Proof.
  unfold NTS_PRIORITIES. intros Hn Hm.
  do 4 (destruct n as [|n]; [do 4 (destruct m as [|m]; [by vm_compute|]); lia|]). lia.
Qed.

Definition idle_all (s : mtlk_sq_t) (i : nat) : Prop := forall p, is_Some (peers s !! p) -> idle s p i.

(** Categories [m..k-1] have been processed to the end; category [m-1] is
    where the hardware stopped it, and lower ones were not touched. *)
Definition flushed (k : nat) (s s' : mtlk_sq_t) : Prop :=
  exists m, (m <= k)%nat /\ (forall n, (m <= n < k)%nat -> idle_all s' (ac_no n)) /\
  (m = 0%nat \/ stopped s /\ forall n p, (S n < m)%nat -> buf_of s' p (ac_no n) = buf_of s p (ac_no n)).

Record passes (s s' : mtlk_sq_t) : Prop := {
  passes_advance : advance s s';
  passes_prohibited : hw_tx_prohibited s' = hw_tx_prohibited s;
  passes_room : sq_wf s -> room s -> room s'
}.

#[export] Instance passes_preorder : PreOrder passes.
Proof.
  split; [by intros s; split|]. intros a b c [A1 A2 A3] [B1 B2 B3]. split; [by transitivity b|congruence|].
  intros Hwf Hr. apply B3; [|by apply A3]. by eapply advance_wf.
Qed.

Lemma sends_passes i s s' : sends i s s' -> passes s s'.
Proof. intros Hs. split; [apply Hs|apply Hs|]. intros Hwf Hr. by apply (sends_grow _ _ _ Hs). Qed.

Lemma advance_some s s' p : advance s s' -> sq_wf s -> is_Some (peers s' !! p) <-> is_Some (peers s !! p).
Proof. intros Ha Hwf. destruct (Ha Hwf) as (Sh & _). by apply shape_some. Qed.

Lemma flush_acs_spec k : forall s,
  (k <= NTS_PRIORITIES)%nat -> sq_wf s -> room s ->
  passes s (flush_acs hw k s) /\ flushed k s (flush_acs hw k s) /\
  forall n, (k <= n < NTS_PRIORITIES)%nat ->
    (idle_all s (ac_no n) -> idle_all (flush_acs hw k s) (ac_no n)) /\
    forall p, buf_of (flush_acs hw k s) p (ac_no n) = buf_of s p (ac_no n).
Proof.
  induction k as [|k IH]; intros s Hk Hwf Hr; cbn [flush_acs].
  { split; [reflexivity|]. split; [exists 0%nat; split; [lia|split; [lia|by left]]|done]. }
  assert ((k < NTS_PRIORITIES)%nat) as Hk' by lia.
  destruct (process_packets_by_ac_spec (ac_no k) s Hwf (ac_no_lt k Hk')) as [Hs Hres].
  unfold ac_no in *. fold (ac_no k) in *. destruct (process_packets_by_ac hw (ac_no k) s) as [res s1]. cbn [fst snd] in *.
  assert (sq_wf s1) as Hwf1 by by eapply sends_wf. assert (room s1) as Hr1 by by apply (sends_grow _ _ _ Hs).
  assert (forall n, (k < n < NTS_PRIORITIES)%nat -> idle_all s (ac_no n) -> idle_all s1 (ac_no n)) as Hkeep.
  { intros n Hn Hi p Hp. eapply sends_idle; try done; [|intros Heq; apply ac_no_inj in Heq; lia|apply Hi];
      by apply (advance_some _ _ p (sends_advance _ _ _ Hs) Hwf). }
  assert (forall n p, (n < NTS_PRIORITIES)%nat -> n <> k -> buf_of s1 p (ac_no n) = buf_of s p (ac_no n)) as Hbuf.
  { intros n p Hn Hnk. apply (sends_buf _ _ _ Hs). intros Heq. apply ac_no_inj in Heq; lia. }
  destruct (res =? MTLK_ERR_OK) eqn:E.
  - destruct (IH s1) as (P & (m & M1 & M2 & M3) & Q); [lia|done|done|]. split; [|split].
    + transitivity s1; [by eapply sends_passes|done].
    + exists m. split; [lia|]. split.
      * intros n Hn. destruct (decide (n = k)) as [->|]; [by apply Q; [lia|]|apply M2; lia].
      * destruct M3 as [->|[M3 M4]]; [by left|right]. unfold stopped in *.
        rewrite (sends_prohibited _ _ _ Hs) in M3. split; [done|]. intros n p Hn. rewrite M4, Hbuf by lia. done.
    + intros n Hn. destruct (Q n) as [Q1 Q2]; [lia|]. split; [intros Hi; by apply Q1, Hkeep; [lia|]|].
      intros p. rewrite Q2. apply Hbuf; lia.
  - split; [by eapply sends_passes|]. split.
    + exists (S k). split; [lia|]. split; [lia|]. right. split; [done|]. intros n p Hn. apply Hbuf; lia.
    + intros n Hn. split; [apply Hkeep; lia|]. intros p. apply Hbuf; lia.
Qed.

Lemma passes_same s s' :
  acs s' = acs s -> peers s' = peers s -> extras s' = extras s -> next_extra s' = next_extra s -> log s' = log s ->
  hw_tx_prohibited s' = hw_tx_prohibited s -> passes s s'.
Proof. intros. by apply (sends_passes 0), sends_same. Qed.

Lemma idle_same s s' i : peers s' = peers s -> idle_all s i -> idle_all s' i.
Proof. intros Hp Hi p Hs. unfold idle, buf_of, pac_of, peer_of in *. rewrite Hp in *. by apply Hi. Qed.

Lemma flushed_same k s1 s s' s2 :
  peers s = peers s1 -> peers s2 = peers s' -> hw_tx_prohibited s = hw_tx_prohibited s1 -> flushed k s s' -> flushed k s1 s2.
Proof.
  intros H1 H2 H3 (m & M1 & M2 & M3). exists m. split; [done|]. split; [intros n Hn; eapply idle_same; [done|by apply M2]|].
  unfold stopped in *. rewrite H3 in M3. destruct M3 as [->|[M3 M4]]; [by left|right]. split; [done|].
  intros n p Hn. specialize (M4 n p Hn). unfold buf_of, pac_of, peer_of in *. by rewrite H2, M4, H1.
Qed.

(** Whatever arrives meanwhile, the last pass leaves what it should. *)
Lemma sq_flush_loop_spec arrivals : forall s, sq_wf s -> room s ->
  passes s (sq_flush_loop hw arrivals s) /\
  exists s0, passes s s0 /\ (arrivals = [] -> peers s0 = peers s) /\ flushed NTS_PRIORITIES s0 (sq_flush_loop hw arrivals s).
Proof.
  induction arrivals as [|n arrivals IH]; intros s Hwf Hr; cbn [sq_flush_loop]; cbv zeta.
  all: set (s1 := set_flag 1 s); destruct (flush_acs_spec NTS_PRIORITIES s1 (le_n _) Hwf Hr) as (P & F & _);
    set (s2 := set_flag 0 (flush_acs hw NTS_PRIORITIES s1)) in *; assert (passes s s1) as P1 by (by apply passes_same);
    assert (passes s s2) as P2 by (transitivity s1; [done|transitivity (flush_acs hw NTS_PRIORITIES s1); [done|by apply passes_same]]).
  - split; [done|]. exists s1. split; [done|]. split; [done|]. by eapply flushed_same; [| | |exact F].
  - set (s3 := set_flush_count _ s2).
    assert (passes s s3) as P3 by (transitivity s2; [done|by apply passes_same]).
    destruct (_ =? _).
    + split; [done|]. exists s1. split; [done|]. split; [done|]. by eapply flushed_same; [| | |exact F].
    + destruct (IH s3) as (Q1 & s0 & Q2 & _ & Q4); [by eapply advance_wf, Hwf; apply P3|by apply P3|].
      split; [by transitivity s3|]. exists s0. split; [by transitivity s3|]. done.
Qed.
End hw.

(** ** A flush keeps the invariants, whatever the counters *)

Lemma flush_acs_advance hw k : forall s, (k <= NTS_PRIORITIES)%nat -> sq_wf s -> advance s (flush_acs hw k s).
Proof.
  induction k as [|k IH]; intros s Hk Hwf; cbn [flush_acs]; [reflexivity|].
  destruct (process_packets_by_ac_spec hw (ac_no k) s Hwf (ac_no_lt k Hk)) as [Hs _].
  unfold ac_no in Hs. destruct (process_packets_by_ac hw (mtlk_get_ac_by_number k) s) as [res s1]. cbn [snd] in Hs.
  pose proof (sends_advance _ _ _ Hs) as Ha. destruct (_ =? _); [|done].
  transitivity s1; [done|]. apply IH; [lia|by eapply advance_wf].
Qed.

Lemma sq_flush_advance hw arrivals s : sq_wf s -> advance s (mtlk_sq_flush hw arrivals s).
Proof.
  intros Hwf. unfold mtlk_sq_flush. destruct (negb _); [by apply advance_same|].
  transitivity (set_flag 1 s); [by apply advance_same|]. assert (sq_wf (set_flag 1 s)) as Hwf1 by done. revert Hwf1.
  generalize (set_flag 1 s) as s1. clear Hwf s. induction arrivals as [|n arrivals IH]; intros s Hwf; cbn [sq_flush_loop]; cbv zeta.
  all: set (s1 := set_flag 1 s); assert (advance s s1) as A1 by (by apply advance_same);
    pose proof (flush_acs_advance hw NTS_PRIORITIES s1 (le_n _) Hwf) as A2;
    set (s2 := flush_acs hw NTS_PRIORITIES s1) in *; assert (advance s2 (set_flag 0 s2)) as A3 by (by apply advance_same);
    assert (advance s (set_flag 0 s2)) as A by (transitivity s1; [done|by transitivity s2]).
  - exact A.
  - set (s3 := set_flush_count _ _). assert (advance s s3) as A4 by (transitivity (set_flag 0 s2); [done|by apply advance_same]).
    destruct (_ =? _); [done|]. transitivity s3; [done|]. apply IH. by eapply advance_wf.
Qed.
