(* ===== verification/SqEnq.v ===== *)
(** * SqEnq: packets enter the send queue, peers come and go *)
From S2P Require Import Prelude Sq SqInv SqAcct SqOps.

(** ** [mtlk_sq_enqueue_pkt] *)

Definition refuses (p : Z) (ac : nat) (front : bool) (s : mtlk_sq_t) : bool :=
  negb front
  && ((global_queue_limit (ac_of s ac) <=? size (ac_of s ac))
      || (peer_queue_limit (ac_of s ac) <=? Z.of_nat (length (buf_of s p ac)))).

Record entered (p : Z) (ac : nat) (nb : nbuf) (s : mtlk_sq_t) (r : Z * mtlk_sq_t) (ok : bool) : Prop := {
  entered_res : r.1 = if ok then MTLK_ERR_OK else MTLK_ERR_NO_RESOURCES;
  entered_shape : shape s r.2;
  entered_tracks : tracks s r.2;
  entered_extras : extras r.2 = extras s /\ next_extra r.2 = next_extra s;
  entered_size : forall j, size (ac_of r.2 j) = size (ac_of s j);
  entered_fault : no_fault (log s) -> no_fault (log r.2);
  entered_waiting : waiting r.2 ac ≡ₚ (if ok then nb :: waiting s ac else waiting s ac);
  entered_other : forall j, j <> ac -> waiting r.2 j = waiting s j
}.

(** Counting a packet or a drop changes nothing else. *)
Lemma count_waiting p i f g s j :
  (forall a, buflist (g a) = buflist a) -> (forall a, peer_list (f a) = peer_list a) ->
  waiting (upd_peer p (upd_pac i g) (upd_ac i f s)) j = waiting s j.
Proof.
  intros Hg Hf. apply waiting_ext; [by apply (ac_of_upd_keeps peer_list)|].
  intros q. rewrite buf_of_upd_pac by done. done.
Qed.

Lemma enqueue_pkt_spec p ac front nb s :
  sq_wf s -> is_Some (peers s !! p) -> (ac < NTS_PRIORITIES)%nat ->
  entered p ac nb s (mtlk_sq_enqueue_pkt p nb ac front s) (negb (refuses p ac front s)).
Proof.
  intros Hwf Hp Hac. unfold mtlk_sq_enqueue_pkt. fold (refuses p ac front s).
  destruct (refuses p ac front s) eqn:E; cbn [negb].
  - set (s1 := upd_peer p (upd_pac ac inc_p_dropped) (upd_ac ac inc_q_dropped s)).
    assert (shape s s1) as Hsh by (transitivity (upd_ac ac inc_q_dropped s); [by apply shape_upd_ac|apply shape_upd_pac]).
    split; cbn [fst snd].
    + done.
    + exact Hsh.
    + apply (tracks_quiet [SqRefuse p ac nb]); [done|by apply Forall_singleton|]. intros q i.
      change (buf_of s1 q i = buf_of s q i). unfold s1. by rewrite buf_of_upd_pac.
    + done.
    + intros j. apply (ac_of_upd_keeps size ac inc_q_dropped s j). done.
    + intros Hn. apply no_fault_app; [done|by apply no_fault_one].
    + change (waiting s1 ac ≡ₚ waiting s ac). unfold s1. by rewrite count_waiting.
    + intros j _. change (waiting s1 j = waiting s j). unfold s1. by rewrite count_waiting.
  - set (b := if front then nb :: buf_of s p ac else buf_of s p ac ++ [nb]).
    assert ((if front then set_buf p ac (nb :: buf_of s p ac) s else set_buf p ac (buf_of s p ac ++ [nb]) s) = set_buf p ac b s)
      as -> by (unfold b; by destruct front).
    set (s1 := set_buf p ac b s). set (s2 := upd_peer p (upd_pac ac inc_p_pushed) (upd_ac ac inc_q_pushed s1)).
    assert (has_ac s p ac) as Ha by (destruct Hp as [c Hc]; by eapply wf_has_ac).
    assert (forall q i, buf_of s2 q i = buf_of s1 q i) as Hb by (intros q i; unfold s2; by rewrite buf_of_upd_pac).
    split; cbn [fst snd].
    + done.
    + transitivity s1; [apply shape_set_buf|]. transitivity (upd_ac ac inc_q_pushed s1); [by apply shape_upd_ac|apply shape_upd_pac].
    + apply (tracks_step p ac [] (SqPush p ac front nb)); [done|by apply Forall_nil| | |].
      * cbn [fifo_ev]. rewrite on_chan_refl. f_equal. change (b = buf_of s2 p ac). rewrite Hb. symmetry. by apply buf_of_set_buf.
      * intros q i Hn. apply (fifo_other p ac _ nb); [by left; eexists|done].
      * intros q i Hn. change (buf_of s2 q i = buf_of s q i). rewrite Hb. by apply buf_of_set_buf_ne.
    + done.
    + intros j. apply (ac_of_upd_keeps size ac inc_q_pushed s1 j). done.
    + intros Hn. apply no_fault_app; [done|by apply no_fault_one].
    + destruct (waiting_set_buf s p ac b Hwf Hac Hp) as (rest & W1 & W2 & _).
      change (waiting s2 ac ≡ₚ nb :: waiting s ac). unfold s2. rewrite count_waiting by done. unfold s1.
      rewrite W1, W2. unfold b. destruct front; [done|]. by rewrite <- app_assoc, Permutation_middle.
    + intros j Hj. destruct (waiting_set_buf s p ac b Hwf Hac Hp) as (rest & _ & _ & W3).
      change (waiting s2 j = waiting s j). unfold s2. rewrite count_waiting by done. by apply W3.
Qed.

(** ** [mtlk_sq_enqueue] *)

Lemma acct_u32 held s i : acct held s -> (i < NTS_PRIORITIES)%nat -> u32 (size (ac_of s i)) = size (ac_of s i).
Proof. intros [A _] Hi. pose proof (acct_size _ _ _ _ _ A i Hi) as Hs. cbn in Hs. by rewrite Hs, u32_idemp. Qed.

Lemma shape_len s s' : shape s s' -> sq_wf s -> length (acs s') = NTS_PRIORITIES.
Proof. intros Sh Hwf. by destruct (shape_wf _ _ Sh Hwf). Qed.

Lemma inc_size_waiting i s j : waiting (inc_size i s) j = waiting s j.
Proof. unfold inc_size. by rewrite waiting_upd_ac. Qed.

Lemma inc_size_shape i s : shape s (inc_size i s).
Proof. by apply shape_upd_ac. Qed.

Lemma inc_size_calm i s : calm s (inc_size i s).
Proof. by apply calm_upd_ac. Qed.

Lemma dec_size_calm i s : calm s (dec_size i s).
Proof. by apply calm_upd_ac. Qed.

Lemma calm_tracks s s' : calm s s' -> tracks s s'.
Proof.
  intros Hc. pose proof Hc as [_ _ (evs & L & F) _]. apply (tracks_quiet evs); [done|done|].
  intros q i. by apply calm_buf.
Qed.

Definition dest (bcast : Z) (nb : nbuf) : Z := match dst_sta nb with Some sta => sta | None => bcast end.

Lemma enqueue_advance bcast ac front nb s :
  is_Some (peers s !! dest bcast nb) -> (ac < NTS_PRIORITIES)%nat -> rmcast nb = false ->
  advance s (mtlk_sq_enqueue bcast ac front nb s).2.
Proof.
  intros Hp Hac Hrm Hwf. unfold mtlk_sq_enqueue.
  assert (exists i f, _mtlk_sq_switch_if_urgent nb ac front = (i, f) /\ (i < NTS_PRIORITIES)%nat) as (i & f & -> & Hi).
  { unfold _mtlk_sq_switch_if_urgent. destruct (urgent nb); eexists _, _; split; [done| |done|done]. apply Nat.ltb_lt. reflexivity. }
  unfold mtlk_xmit_sq_enqueue. fold (dest bcast nb). set (p := dest bcast nb) in *. set (s1 := inc_size i s).
  pose proof (inc_size_calm i s : calm s s1) as C1. pose proof (inc_size_shape i s : shape s s1) as S1.
  pose proof (shape_wf _ _ S1 Hwf) as Hwf1.
  assert (is_Some (peers s1 !! p)) as Hp1 by done.
  pose proof (enqueue_pkt_spec p i f nb s1 Hwf1 Hp1 Hi) as E.
  destruct (mtlk_sq_enqueue_pkt p nb i f s1) as [res s2]. destruct (refuses p i f s1); cbn [negb] in E;
    destruct E as [E1 E2 E3 [E4 E5] E6 E7 E8 E9]; cbn [fst snd] in *; subst res; cbn.
  - split; [transitivity s1; [done|]; transitivity s2; [done|]; apply (calm_shape _ _ (dec_size_calm i s2))|]. split.
    { transitivity s1; [by apply calm_tracks|]. transitivity s2; [done|]. apply calm_tracks, dec_size_calm. }
    intros held Ha. apply (acct_frame held s); try done.
    + intros j Hj. unfold dec_size. rewrite (size_upd i (fun a => u32 (size a - 1))) by by rewrite (shape_len _ _ E2 Hwf1).
      destruct (decide (i = j)) as [<-|Hn]; [rewrite put_eq, E6|rewrite put_ne, E6 by done].
      * unfold s1, inc_size. rewrite (size_upd i (fun a => u32 (size a + 1))) by (destruct Hwf as [-> _]; done).
        rewrite put_eq, u32_sub_l, Z.add_simpl_r. by eapply acct_u32.
      * unfold s1, inc_size. rewrite (size_upd i (fun a => u32 (size a + 1))) by (destruct Hwf as [-> _]; done). by rewrite put_ne.
    + intros j Hj. unfold dec_size. rewrite waiting_upd_ac by done.
      destruct (decide (j = i)) as [->|]; [rewrite E8|rewrite E9 by done]; unfold s1; by rewrite inc_size_waiting.
  - split; [by transitivity s1|]. split; [transitivity s1; [by apply calm_tracks|done]|].
    intros held [A N]. split; [|by apply E7]. rewrite E4, E5. change (extras s1) with (extras s). change (next_extra s1) with (next_extra s).
    assert (plain nb = true) as Hpl by (unfold plain; by rewrite Hrm).
    pose proof (acct_plain_in _ _ _ _ _ i nb (nb :: waiting s i) Hi Hpl (reflexivity _) A) as A'.
    eapply acct_perm; [|eapply acct_sizes; [|exact A']].
    + intros j Hj. destruct (decide (i = j)) as [<-|]; [by rewrite put_eq, E8; unfold s1; rewrite inc_size_waiting|].
      rewrite put_ne, E9 by done. unfold s1. by rewrite inc_size_waiting.
    + intros j Hj. rewrite E6. unfold s1, inc_size. rewrite (size_upd i (fun a => u32 (size a + 1))) by (destruct Hwf as [-> _]; done). done.
Qed.

(** ** Multicast clones *)

Lemma clone_begin_spec alloc ac front nb s held :
  sq_wf s -> (ac < NTS_PRIORITIES)%nat -> acct held s ->
  let '(res, nb', s') := mtlk_sq_enqueue_clone_begin alloc ac front nb s in
  shape s s' /\ tracks s s' /\
  if alloc then res = MTLK_ERR_OK /\ extra nb' = Some (next_extra s) /\ acct (next_extra s :: held) s'
  else res = MTLK_ERR_NO_MEM /\ s' = s.
Proof.
  intros Hwf Hac [A N]. unfold mtlk_sq_enqueue_clone_begin.
  assert (exists i f, _mtlk_sq_switch_if_urgent nb ac front = (i, f) /\ (i < NTS_PRIORITIES)%nat) as (i & f & -> & Hi).
  { unfold _mtlk_sq_switch_if_urgent. destruct (urgent nb); eexists _, _; split; [done| |done|done]. apply Nat.ltb_lt. reflexivity. }
  unfold mtlk_nbuf_priv_extra_create_and_attach. destruct alloc; cbn; [|done].
  set (s1 := set_next_extra _ _). assert (calm s (inc_size i s1)) as C.
  { transitivity s1; [|apply inc_size_calm]. split; try done. exists []. by rewrite app_nil_r. }
  split; [apply C|]. split; [by apply calm_tracks|]. split; [done|]. split; [done|]. split; [|exact N].
  eapply acct_perm; [|eapply acct_sizes; [|exact (acct_create _ _ _ _ _ i f Hi A)]].
  - intros j _. by rewrite inc_size_waiting.
  - intros j _. unfold inc_size. rewrite (size_upd i (fun a => u32 (size a + 1))) by (destruct Hwf as [Hl _]; cbn; by rewrite Hl). done.
Qed.

Lemma clone_end_spec held held' nb k s :
  sq_wf s -> acct held s -> extra nb = Some k -> held ≡ₚ k :: held' ->
  shape s (mtlk_sq_enqueue_clone_end nb s) /\ tracks s (mtlk_sq_enqueue_clone_end nb s) /\
  acct held' (mtlk_sq_enqueue_clone_end nb s).
Proof.
  intros (Hl & _) [A N] Hx Hh. pose proof (clone_end_calm nb s) as C.
  split; [apply C|]. split; [by apply calm_tracks|].
  assert (k ∈ held) as Hin by (rewrite Hh; left). destruct (acct_held _ _ _ _ _ A k Hin) as [x Hk].
  eapply (acct_clone_end held held' (waiting s)); try done.
  - intros k' x' _. unfold holders, occ. rewrite (countb_perm _ _ _ Hh), countb_cons. lia.
  - intros k' Hk'. rewrite Hh. by right.
Qed.

Definition ref_room (k : Z) (s : mtlk_sq_t) : Prop := forall x, extras s !! k = Some x -> ref_cnt x + 1 < 2 ^ 32.

(** The same call with the lookups of the shared data done. *)
Lemma enqueue_clone_run bcast id nb sta k x s :
  extra nb = Some k -> extras s !! k = Some x ->
  let c := Nbuf id false true (nb_vap nb) (Some sta) (Some k) in
  let s1 := set_extras (<[k := Extra (u32 (ref_cnt x + 1)) (extra_ac x) (extra_front x)]> (extras s)) s in
  let r := mtlk_sq_enqueue_pkt sta c (extra_ac x) (extra_front x) s1 in
  mtlk_sq_enqueue_clone bcast (Some id) nb sta s =
  if r.1 =? MTLK_ERR_OK then r
  else (r.1, emit (SqFreeClone c) (mtlk_nbuf_priv_extra_detach c (emit (SqDropped sta SQ_OVERFLOW) r.2)).2).
Proof.
  intros Hx Hk. cbv zeta. unfold mtlk_sq_enqueue_clone, mtlk_nbuf_priv_extra_attach.
  unfold extra_of. rewrite Hx. cbn [mbind option_bind]. rewrite Hk. cbn [mbind option_bind].
  unfold mtlk_nbuf_priv_extra_get_ac, mtlk_nbuf_priv_extra_get_front, extra_of. rewrite Hx. cbn [mbind option_bind].
  cbn [extras set_extras]. rewrite lookup_insert_eq. cbn [mbind option_bind extra_ac extra_front].
  unfold mtlk_xmit_sq_enqueue. cbn [dst_sta nb_id urgent rmcast nb_vap].
  destruct (mtlk_sq_enqueue_pkt _ _ _ _ _) as [res s2]. cbn [fst snd]. destruct (res =? MTLK_ERR_OK); [done|].
  by destruct (mtlk_nbuf_priv_extra_detach _ _).
Qed.

(** Taking a reference and giving it back. *)
Lemma detach_back k x nb s :
  extra nb = Some k -> 0 < ref_cnt x < 2 ^ 32 ->
  extras s !! k = Some (Extra (u32 (ref_cnt x + 1)) (extra_ac x) (extra_front x)) ->
  mtlk_nbuf_priv_extra_detach nb s = (false, set_extras (<[k := x]> (extras s)) s).
Proof.
  intros Hx Hr Hk. unfold mtlk_nbuf_priv_extra_detach, extra_of. rewrite Hx. cbn [mbind option_bind]. rewrite Hk.
  cbn [mbind option_bind ref_cnt extra_ac extra_front]. rewrite u32_sub_l, Z.add_simpl_r, u32_small by lia.
  assert ((ref_cnt x =? 0) = false) as -> by (apply Z.eqb_neq; lia). by destruct x.
Qed.

Lemma enqueue_clone_spec held bcast clone nb sta k s :
  sq_wf s -> acct held s -> is_Some (peers s !! sta) -> extra nb = Some k -> k ∈ held -> ref_room k s ->
  let s' := (mtlk_sq_enqueue_clone bcast clone nb sta s).2 in
  shape s s' /\ tracks s s' /\ acct held s'.
Proof.
  intros Hwf Ha Hp Hx Hin Hroom. cbv zeta. destruct clone as [id|].
  2: by destruct (advance_emit (SqDropped sta DRV_NO_RESOURCES) s (fun _ _ _ => eq_refl) ltac:(done) Hwf) as (? & ? & ?); auto.
  pose proof Ha as [A N]. destruct (acct_held _ _ _ _ _ A k Hin) as [x Hk].
  destruct (acct_extra _ _ _ _ _ A k x Hk) as (Hac & _ & _ & Href). pose proof (Hroom x Hk) as Hsmall.
  rewrite (enqueue_clone_run bcast id nb sta k x s Hx Hk). cbv zeta.
  set (c := Nbuf _ _ _ _ _ _). set (s1 := set_extras _ s).
  assert (sq_wf s1) as Hwf1 by exact Hwf. assert (calm s s1) as C1 by apply calm_extras.
  pose proof (enqueue_pkt_spec sta (extra_ac x) (extra_front x) c s1 Hwf1 Hp Hac) as E.
  destruct (mtlk_sq_enqueue_pkt _ c _ _ s1) as [res s2]. destruct E as [E1 E2 E3 [E4 E5] E6 E7 E8 E9]. cbn [fst snd] in *.
  subst res. destruct (refuses _ _ _ s1); cbn [negb] in *; cbn [Z.eqb MTLK_ERR_NO_RESOURCES MTLK_ERR_OK Pos.eqb fst snd].
  - rewrite (detach_back k x c) by (done || (cbn; rewrite E4; apply lookup_insert_eq)). cbn [snd].
    set (s3 := set_extras _ _). assert (calm s2 (emit (SqFreeClone c) s3)) as C3.
    { transitivity (emit (SqDropped sta SQ_OVERFLOW) s2); [by apply calm_emit|].
      transitivity s3; [apply calm_extras|by apply calm_emit]. }
    split; [transitivity s1; [apply C1|]; transitivity s2; [done|apply C3]|].
    split; [transitivity s1; [by apply calm_tracks|]; transitivity s2; [done|exact (calm_tracks _ _ C3)]|].
    apply (acct_frame held s); try done.
    + intros j _. exact (E6 j).
    + intros j _. change (waiting s2 j ≡ₚ waiting s1 j).
      destruct (decide (j = extra_ac x)) as [->|Hn]; [exact E8|by rewrite E9].
    + cbn. rewrite E4. cbn. rewrite insert_insert_eq. by apply insert_id.
    + intros Hn. apply no_fault_app; [apply no_fault_app; [by apply E7|by apply no_fault_one]|by apply no_fault_one].
  - split; [transitivity s1; [apply C1|done]|]. split; [transitivity s1; [by apply calm_tracks|done]|].
    split; [|by apply E7]. rewrite E4, E5. cbn [extras next_extra s1 set_extras].
    pose proof (acct_clone_in _ _ _ _ _ k x c (c :: waiting s (extra_ac x)) Hk eq_refl eq_refl Hsmall (reflexivity _) A) as A'.
    eapply acct_perm; [|eapply acct_sizes; [|exact A']].
    + intros j Hj. destruct (decide (extra_ac x = j)) as [<-|Hn]; [by rewrite put_eq, E8|rewrite put_ne by done; by rewrite E9].
    + intros j _. exact (E6 j).
Qed.
