(* ===== verification/SqPeers.v ===== *)
(** * SqPeers: registering, cancelling and removing peers of the send queue *)
From S2P Require Import Prelude Sq SqInv SqAcct SqOps SqEnq.

(** ** [mtlk_sq_peer_ctx_init] *)

Lemma init_spec p lim vap s :
  sq_wf s -> peers s !! p = None ->
  let s' := mtlk_sq_peer_ctx_init p lim vap s in
  sq_wf s' /\ tracks s s' /\ (forall held, acct held s -> acct held s') /\
  forall q i, (q = p -> buf_of s' q i = []) /\ (q <> p -> buf_of s' q i = buf_of s q i).
Proof.
  intros (W1 & W2 & W3) Hp. cbv zeta. set (s' := mtlk_sq_peer_ctx_init p lim vap s).
  assert (forall i, (i < NTS_PRIORITIES)%nat -> ac_of s' i = set_list (p :: peer_list (ac_of s i)) (ac_of s i)) as Hac.
  { intros i Hi. unfold ac_of, s', mtlk_sq_peer_ctx_init, set_acs, set_peers; cbn [acs].
    apply list_lookup_total_correct. rewrite list_lookup_fmap.
    by rewrite (list_lookup_lookup_total_lt (acs s) i) by lia. }
  assert (forall q, q <> p -> peer_of s' q = peer_of s q) as Hq.
  { intros q Hq. unfold peer_of, s', mtlk_sq_peer_ctx_init, set_acs, set_peers; cbn [peers]. by rewrite lookup_total_insert_ne. }
  assert (forall i, buf_of s' p i = []) as Hnew.
  { intros i. unfold buf_of, pac_of, peer_of, s', mtlk_sq_peer_ctx_init, set_acs, set_peers; cbn [peers].
    rewrite lookup_total_insert_eq. cbn [pacs]. by do 5 (destruct i as [|i]; [done|]). }
  assert (forall i, buf_of s p i = []) as Hold.
  { intros i. unfold buf_of, pac_of, peer_of. rewrite lookup_total_alt, Hp. by destruct i. }
  assert (forall q i, buf_of s' q i = buf_of s q i) as Hbuf.
  { intros q i. destruct (decide (q = p)) as [->|Hn]; [by rewrite Hnew, Hold|]. unfold buf_of, pac_of. by rewrite Hq. }
  assert (forall i, (i < NTS_PRIORITIES)%nat -> waiting s' i = waiting s i) as Hw.
  { intros i Hi. unfold waiting. rewrite Hac by done. cbn [set_list peer_list]. rewrite bind_cons, Hnew. cbn.
    by apply list_bind_ext. }
  split; [|split; [|split]].
  - split; [cbn; by rewrite length_fmap|]. split.
    + intros q c Hc. cbn in Hc. apply lookup_insert_Some in Hc as [[_ <-]|[_ Hc]]; [done|by eapply W2].
    + intros i Hi. rewrite Hac by done. cbn [set_list peer_list]. destruct (W3 i Hi) as [Hnd Hin]. split.
      * apply NoDup_cons. split; [|done]. intros Hc%Hin. rewrite Hp in Hc. by destruct Hc.
      * intros q. cbn. rewrite elem_of_cons, Hin. destruct (decide (q = p)) as [->|Hn].
        -- rewrite lookup_insert_eq. split; [eauto|by left].
        -- rewrite lookup_insert_ne by done. naive_solver.
  - by apply (tracks_quiet []); [rewrite app_nil_r| |].
  - intros held. apply acct_frame; try done.
    + intros i Hi. by rewrite Hac.
    + intros i Hi. by rewrite Hw.
  - intros q i. split; [intros ->; apply Hnew|intros _; apply Hbuf].
Qed.

(** ** Draining every category of a peer *)

Lemma drain_buf_other p i l : forall s q j, (p, i) <> (q, j) -> buf_of (drain p i l s) q j = buf_of s q j.
Proof.
  induction l as [|nb l IH]; intros s q j Hn; [done|]. cbn [drain]. rewrite IH by done.
  change (buf_of (_mtlk_sq_release_packet i nb (set_buf p i l s)) q j = buf_of s q j).
  rewrite (calm_buf _ _ _ _ (release_calm i nb (set_buf p i l s))). by apply buf_of_set_buf_ne.
Qed.

Definition drain_all (p : Z) (l : list nat) : mtlk_sq_t -> mtlk_sq_t :=
  for_acs l (fun i s => drain p i (buf_of s p i) s).

Lemma drain_all_buf_other p l : forall s q j, (p <> q \/ j ∉ l) -> buf_of (drain_all p l s) q j = buf_of s q j.
Proof.
  unfold drain_all. induction l as [|i l IH]; intros s q j Hn; [done|]. cbn [for_acs].
  rewrite IH by (rewrite not_elem_of_cons in Hn; tauto). apply drain_buf_other.
  rewrite not_elem_of_cons in Hn. intros [= -> ->]. tauto.
Qed.

Lemma drain_all_spec p l : forall s,
  sq_wf s -> is_Some (peers s !! p) -> (forall i, i ∈ l -> (i < NTS_PRIORITIES)%nat) ->
  advance s (drain_all p l s) /\ forall i, i ∈ l -> buf_of (drain_all p l s) p i = [].
Proof.
  induction l as [|i l IH]; intros s Hwf Hp Hl.
  { split; [reflexivity|]. by intros i Hi%not_elem_of_nil. }
  destruct (drain_advance p i s Hwf Hp (Hl i (list_elem_of_here _ _)) _ eq_refl) as [D1 D2].
  set (s1 := drain p i (buf_of s p i) s) in *.
  change (drain_all p (i :: l) s) with (drain_all p l s1).
  destruct (IH s1) as [I1 I2].
  - by eapply advance_wf.
  - destruct (D1 Hwf) as (Sh & _). by apply (shape_some _ _ p Sh).
  - intros j Hj. apply Hl. by right.
  - split; [by transitivity s1|]. intros j Hj. destruct (decide (j ∈ l)) as [Hin|Hn]; [by apply I2|].
    apply elem_of_cons in Hj as [->|Hj]; [|done]. rewrite drain_all_buf_other by by right. done.
Qed.

(** ** Taking the peer off the lists commutes with draining *)

Lemma upd_ac_comm i j f g s : (forall a, f (g a) = g (f a)) -> upd_ac i f (upd_ac j g s) = upd_ac j g (upd_ac i f s).
Proof.
  intros Hfg. unfold upd_ac, set_acs; cbn [acs]. f_equal. destruct (decide (i = j)) as [->|Hn].
  - rewrite !list_alter_alter. apply list_eq. intros k. destruct (decide (j = k)) as [->|]; [|by rewrite !list_lookup_alter_ne].
    rewrite !list_lookup_alter_eq. destruct (acs s !! k); simpl; [|done]. by rewrite Hfg.
  - by apply list_alter_alter_ne.
Qed.

Lemma detach_remove p j nb s :
  mtlk_nbuf_priv_extra_detach nb (remove_from_list p j s) =
  ((mtlk_nbuf_priv_extra_detach nb s).1, remove_from_list p j (mtlk_nbuf_priv_extra_detach nb s).2).
Proof.
  unfold mtlk_nbuf_priv_extra_detach.
  change (extra_of nb (remove_from_list p j s)) with (extra_of nb s).
  destruct (extra_of nb s) as [[k x]|]; [|done]. cbv zeta. by destruct (_ =? 0).
Qed.

Lemma dec_size_remove p j i s : dec_size i (remove_from_list p j s) = remove_from_list p j (dec_size i s).
Proof. by apply upd_ac_comm. Qed.

Lemma release_remove p j i nb s :
  _mtlk_sq_release_packet i nb (remove_from_list p j s) = remove_from_list p j (_mtlk_sq_release_packet i nb s).
Proof.
  unfold _mtlk_sq_release_packet. destruct (rmcast nb); [|apply dec_size_remove].
  unfold mtlk_sq_enqueue_clone_end. rewrite detach_remove.
  change (mtlk_nbuf_priv_extra_get_ac nb (remove_from_list p j s)) with (mtlk_nbuf_priv_extra_get_ac nb s).
  destruct (mtlk_nbuf_priv_extra_detach nb s) as [[] s1]; cbn [fst snd]; [apply dec_size_remove|done].
Qed.

Lemma drain_remove p q j i l : forall s, drain p i l (remove_from_list q j s) = remove_from_list q j (drain p i l s).
Proof.
  induction l as [|nb l IH]; intros s; [done|]. cbn [drain].
  change (set_buf p i l (remove_from_list q j s)) with (remove_from_list q j (set_buf p i l s)).
  rewrite release_remove. apply (IH (emit (SqFree p i nb) (_mtlk_sq_release_packet i nb (set_buf p i l s)))).
Qed.

Definition remove_all (p : Z) (l : list nat) : mtlk_sq_t -> mtlk_sq_t := for_acs l (remove_from_list p).

Lemma drain_all_remove p q j l : forall s, drain_all p l (remove_from_list q j s) = remove_from_list q j (drain_all p l s).
Proof.
  unfold drain_all. induction l as [|i l IH]; intros s; [done|]. cbn [for_acs].
  change (buf_of (remove_from_list q j s) p i) with (buf_of s p i). by rewrite drain_remove, IH.
Qed.

Lemma cleanup_loop p l : forall s,
  for_acs l (fun i s => let s := remove_from_list p i s in drain p i (buf_of s p i) s) s =
  remove_all p l (drain_all p l s).
Proof.
  induction l as [|i l IH]; intros s; [done|]. cbn [for_acs]. cbv zeta. rewrite IH. unfold remove_all. cbn [for_acs].
  f_equal. change (buf_of (remove_from_list p i s) p i) with (buf_of s p i).
  by rewrite drain_remove, drain_all_remove.
Qed.

(** ** [mtlk_sq_peer_ctx_cleanup] *)

Lemma remove_all_spec p l : NoDup l -> forall s,
  (forall i, i ∈ l -> (i < length (acs s))%nat) ->
  let s' := remove_all p l s in
  length (acs s') = length (acs s) /\ peers s' = peers s /\ extras s' = extras s /\ next_extra s' = next_extra s /\
  log s' = log s /\ forall i, size (ac_of s' i) = size (ac_of s i) /\
    (i ∈ l -> peer_list (ac_of s' i) = filter (fun x => x <> p) (peer_list (ac_of s i))) /\
    (i ∉ l -> peer_list (ac_of s' i) = peer_list (ac_of s i)).
Proof.
  unfold remove_all. induction 1 as [|i l Hi Hnd IH]; intros s Hl; cbv zeta; cbn [for_acs].
  { do 5 (split; [done|]). intros j. split; [done|]. split; [by intros ?%not_elem_of_nil|done]. }
  set (s1 := remove_from_list p i s). assert (length (acs s1) = length (acs s)) as Hlen by apply length_alter.
  destruct (IH s1) as (A1 & A2 & A3 & A4 & A5 & A6).
  { intros j Hj. rewrite Hlen. apply Hl. by right. }
  split; [congruence|split; [exact A2|split; [exact A3|split; [exact A4|split; [exact A5|]]]]]. intros j. destruct (A6 j) as (B1 & B2 & B3).
  split; [rewrite B1; by apply (ac_of_upd_keeps size)|]. split.
  - intros Hj. destruct (decide (j ∈ l)) as [Hin|Hn].
    + rewrite B2 by done. unfold s1, remove_from_list. rewrite ac_of_upd_ne; [done|]. by intros <-.
    + apply elem_of_cons in Hj as [->|Hj]; [|done]. rewrite B3 by done. unfold s1, remove_from_list.
      rewrite ac_of_upd; [done|]. apply Hl. by left.
  - intros [Hji Hjl]%not_elem_of_cons. rewrite B3 by done. unfold s1, remove_from_list. by rewrite ac_of_upd_ne.
Qed.

Lemma bind_filter_nil p (f : Z -> list nbuf) l : f p = [] -> (filter (fun x => x <> p) l ≫= f) = (l ≫= f).
Proof.
  intros Hf. induction l as [|x l IH]; [done|]. destruct (decide (x = p)) as [->|Hn].
  - rewrite filter_cons_False by tauto. by rewrite bind_cons, Hf, IH.
  - rewrite filter_cons_True by done. by rewrite !bind_cons, IH.
Qed.

Lemma buf_of_out s p i : sq_wf s -> (NTS_PRIORITIES <= i)%nat -> buf_of s p i = [].
Proof.
  intros (_ & W & _) Hi. unfold buf_of, pac_of, peer_of. rewrite lookup_total_alt.
  destruct (peers s !! p) as [c|] eqn:E; [|by destruct i]. simpl.
  rewrite list_lookup_total_alt, lookup_ge_None_2; [done|]. by rewrite (W p c E).
Qed.

Lemma cleanup_spec p s :
  sq_wf s -> is_Some (peers s !! p) ->
  let s' := mtlk_sq_peer_ctx_cleanup p s in
  sq_wf s' /\ tracks s s' /\ (forall held, acct held s -> acct held s').
Proof.
  intros Hwf Hp. cbv zeta. unfold mtlk_sq_peer_ctx_cleanup. rewrite cleanup_loop.
  assert (forall i, i ∈ all_acs <-> (i < NTS_PRIORITIES)%nat) as Hacs.
  { intros i. unfold all_acs. rewrite elem_of_seq. lia. }
  destruct (drain_all_spec p all_acs s Hwf Hp) as [Ha He]; [by intros i ?%Hacs|].
  set (s1 := drain_all p all_acs s) in *. destruct (Ha Hwf) as (Sh & Tr & Ac).
  pose proof (shape_wf _ _ Sh Hwf) as (W1 & W2 & W3).
  destruct (remove_all_spec p all_acs (NoDup_seq _ _) s1) as (A1 & A2 & A3 & A4 & A5 & A6).
  { intros i Hi%Hacs. lia. }
  set (s2 := remove_all p all_acs s1) in *. set (s' := set_peers (delete p (peers s2)) s2).
  assert (forall q i, (i < NTS_PRIORITIES)%nat -> buf_of s' q i = buf_of s1 q i) as Hbuf.
  { intros q i Hi. destruct (decide (q = p)) as [->|Hn].
    - rewrite He by by apply Hacs. unfold buf_of, pac_of, peer_of, s'; cbn [set_peers peers].
      by rewrite lookup_total_alt, lookup_delete_eq.
    - unfold buf_of, pac_of, peer_of, s'; cbn [set_peers peers]. by rewrite lookup_total_delete_ne, A2. }
  assert (sq_wf s') as Hwf'.
  { split; [change (length (acs s2) = NTS_PRIORITIES); congruence|]. split.
    + intros q c Hc. change (delete p (peers s2) !! q = Some c) in Hc. apply lookup_delete_Some in Hc as [_ Hc]. rewrite A2 in Hc. by eapply W2.
    + intros i Hi. change (ac_of s' i) with (ac_of s2 i). destruct (A6 i) as (_ & B & _). rewrite B by by apply Hacs.
      destruct (W3 i Hi) as [Hnd Hin]. split; [by apply NoDup_filter|]. intros q.
      rewrite list_elem_of_filter, Hin. change (peers s') with (delete p (peers s2)). rewrite A2. destruct (decide (q = p)) as [->|Hn].
      * rewrite lookup_delete_eq. split; [tauto|]. by intros [? ?].
      * rewrite lookup_delete_ne by done. tauto. }
  split; [done|split].
  - transitivity s1; [done|]. apply (tracks_quiet []); [by rewrite app_nil_r|by apply Forall_nil|].
    intros q i. destruct (decide (i < NTS_PRIORITIES)%nat) as [|Hge]; [by apply Hbuf|].
    by rewrite !buf_of_out by (done || lia).
  - intros held Hh%Ac. revert Hh. apply acct_frame; try done.
    + intros i _. apply A6.
    + intros i Hi. unfold waiting. change (ac_of s' i) with (ac_of s2 i). destruct (A6 i) as (_ & B & _).
      rewrite B by by apply Hacs. rewrite (bind_same _ (fun l => buf_of s1 l i)) by by intros; apply Hbuf.
      by rewrite bind_filter_nil by by apply He, Hacs.
Qed.

Lemma cancel_all_advance p s : sq_wf s -> is_Some (peers s !! p) -> advance s (mtlk_sq_peer_ctx_cancel_all_packets p s).
Proof.
  intros Hwf Hp. apply drain_all_spec; try done. intros i Hi. unfold all_acs in Hi. apply elem_of_seq in Hi. lia.
Qed.

Lemma cancel_all_for_vap_advance p vap s :
  sq_wf s -> is_Some (peers s !! p) -> advance s (mtlk_sq_peer_ctx_cancel_all_packets_for_vap p vap s).
Proof.
  unfold mtlk_sq_peer_ctx_cancel_all_packets_for_vap.
  assert (forall i, i ∈ all_acs -> (i < NTS_PRIORITIES)%nat) as Hl.
  { intros i Hi. unfold all_acs in Hi. apply elem_of_seq in Hi. lia. }
  revert s. induction all_acs as [|i l IH]; intros s Hwf Hp; [reflexivity|]. cbn [for_acs].
  destruct (cancel_vap_advance vap p i (buf_of s p i) [] s Hwf Hp) as [Ha _]; [apply Hl; left|done|by apply Forall_nil|].
  set (s1 := cancel_vap vap p i [] (buf_of s p i) s) in *. transitivity s1; [done|]. apply IH.
  - intros j Hj. apply Hl. by right.
  - by eapply advance_wf.
  - destruct (Ha Hwf) as (Sh & _). by apply (shape_some _ _ p Sh).
Qed.
