(* ===== verification/SqSys.v ===== *)
(** * SqSys: the send queue as a system of operations

    [sq_reach] are the states any sequence of calls leads to, together with
    the shared data whose original packet is being cloned. *)
From S2P Require Import Prelude Sq SqInv SqAcct SqOps SqFlush SqEnq SqPeers.

Inductive sq_op :=
| OpPeerInit (p lim : Z) (vap : option Z)
| OpPeerCleanup (p : Z)
| OpCancelAll (p : Z)
| OpCancelVap (p vap : Z)
| OpRestore (p lim : Z)
| OpSetPm (p : Z) (enabled : bool)
| OpUapsd (p : Z) (ac : nat) (max_sp : Z)
| OpTxCfm (p : Z) (ac : nat)
| OpTxEnable (enable : bool)
| OpEnqueue (bcast : Z) (ac : nat) (front : bool) (nb : nbuf)
| OpCloneBegin (alloc : bool) (ac : nat) (front : bool) (nb : nbuf)
| OpClone (bcast : Z) (clone : option Z) (nb : nbuf) (sta : Z)
| OpCloneEnd (nb : nbuf)
| OpFlush (hw : nat -> nbuf -> Z) (arrivals : list Z)
| OpSetLimits (global : list Z)
| OpSetPeerLimits (ratio : list Z).

Definition sq_state : Type := list Z * mtlk_sq_t.

Fixpoint drop_one (k : Z) (l : list Z) : list Z :=
  match l with [] => [] | x :: l => if x =? k then l else x :: drop_one k l end.
Definition drop_key (k : option Z) (l : list Z) : list Z :=
  match k with Some k => drop_one k l | None => l end.

(** What the callers guarantee: peers are registered once and used while
    registered; only an original being cloned is cloned, and a packet that is
    not a clone is enqueued as such; the reference count does not wrap; the
    categories exist; no division by zero. *)
Definition op_ok (o : sq_op) (x : sq_state) : Prop :=
  let '(held, s) := x in
  match o with
  | OpPeerInit p _ _ => peers s !! p = None
  | OpPeerCleanup p | OpCancelAll p | OpCancelVap p _ => is_Some (peers s !! p)
  | OpRestore _ _ | OpSetPm _ _ | OpUapsd _ _ _ | OpTxCfm _ _ | OpTxEnable _ | OpFlush _ _ | OpSetPeerLimits _ => True
  | OpEnqueue bcast ac _ nb => is_Some (peers s !! dest bcast nb) /\ (ac < NTS_PRIORITIES)%nat /\ rmcast nb = false
  | OpCloneBegin _ ac _ _ => (ac < NTS_PRIORITIES)%nat
  | OpClone _ _ nb sta => is_Some (peers s !! sta) /\ exists k, extra nb = Some k /\ k ∈ held /\ ref_room k s
  | OpCloneEnd nb => exists k, extra nb = Some k /\ k ∈ held
  | OpSetLimits l => is_Some (sq_set_limits l s)
  end.

Definition exec_op (o : sq_op) (x : sq_state) : sq_state :=
  let '(held, s) := x in
  match o with
  | OpPeerInit p lim vap => (held, mtlk_sq_peer_ctx_init p lim vap s)
  | OpPeerCleanup p => (held, mtlk_sq_peer_ctx_cleanup p s)
  | OpCancelAll p => (held, mtlk_sq_peer_ctx_cancel_all_packets p s)
  | OpCancelVap p vap => (held, mtlk_sq_peer_ctx_cancel_all_packets_for_vap p vap s)
  | OpRestore p lim => (held, mtlk_sq_peer_ctx_on_rcvry_restore p lim s)
  | OpSetPm p b => (held, mtlk_sq_set_pm_enabled p b s)
  | OpUapsd p ac m => (held, UAPSD_SET_AC_LIMIT p ac m s)
  | OpTxCfm p ac => (held, mtlk_sq_on_tx_cfm p ac s)
  | OpTxEnable b => (held, if b then mtlk_sq_tx_enable s else mtlk_sq_tx_disable s)
  | OpEnqueue bcast ac front nb => (held, (mtlk_sq_enqueue bcast ac front nb s).2)
  | OpCloneBegin alloc ac front nb =>
      let '(res, nb', s') := mtlk_sq_enqueue_clone_begin alloc ac front nb s in
      (match extra nb' with Some k => k :: held | None => held end, s')
  | OpClone bcast clone nb sta => (held, (mtlk_sq_enqueue_clone bcast clone nb sta s).2)
  | OpCloneEnd nb => (drop_key (extra nb) held, mtlk_sq_enqueue_clone_end nb s)
  | OpFlush hw arrivals => (held, mtlk_sq_flush hw arrivals s)
  | OpSetLimits l => (held, match sq_set_limits l s with Some (_, s') => s' | None => s end)
  | OpSetPeerLimits l => (held, (sq_set_peer_limits l s).2)
  end.

Inductive sq_reach : sq_state -> Prop :=
| reach_start : sq_reach ([], sq_init)
| reach_step x o : sq_reach x -> op_ok o x -> sq_reach (exec_op o x).

(** A run of operations, for concrete inputs. *)
Definition sq_run (ops : list sq_op) : sq_state := foldl (fun x o => exec_op o x) ([], sq_init) ops.
Fixpoint ops_ok (ops : list sq_op) (x : sq_state) : Prop :=
  match ops with [] => True | o :: ops => op_ok o x /\ ops_ok ops (exec_op o x) end.

Lemma run_reach ops : ops_ok ops ([], sq_init) -> sq_reach (sq_run ops).
Proof.
  unfold sq_run. assert (forall x, sq_reach x -> ops_ok ops x -> sq_reach (foldl (fun x o => exec_op o x) x ops)) as H.
  { induction ops as [|o ops IH]; intros x Hx Hok; [done|]. destruct Hok as [H1 H2]. simpl. apply IH; [by constructor|done]. }
  intros Hok. apply H; [constructor|done].
Qed.

(** The callers' guarantees, decided. *)
Definition op_okb (o : sq_op) (x : sq_state) : bool :=
  let '(held, s) := x in
  let registered p := bool_decide (is_Some (peers s !! p)) in
  match o with
  | OpPeerInit p _ _ => negb (registered p)
  | OpPeerCleanup p | OpCancelAll p | OpCancelVap p _ => registered p
  | OpEnqueue bcast ac _ nb => registered (dest bcast nb) && (ac <? NTS_PRIORITIES)%nat && negb (rmcast nb)
  | OpCloneBegin _ ac _ _ => (ac <? NTS_PRIORITIES)%nat
  | OpClone _ _ nb sta =>
      registered sta &&
      match extra nb with
      | Some k => bool_decide (k ∈ held) && match extras s !! k with Some x => ref_cnt x + 1 <? 2 ^ 32 | None => true end
      | None => false
      end
  | OpCloneEnd nb => match extra nb with Some k => bool_decide (k ∈ held) | None => false end
  | OpSetLimits l => match sq_set_limits l s with Some _ => true | None => false end
  | _ => true
  end.

Lemma op_okb_ok o x : op_okb o x = true -> op_ok o x.
Proof.
  destruct x as [held s]. destruct o; cbn [op_okb op_ok]; try done; intros H; zbool;
    repeat match goal with H : bool_decide _ = true |- _ => apply bool_decide_eq_true in H end; try done.
  - apply bool_decide_eq_false in H. by apply eq_None_not_Some.
  - repeat split; try done. by apply Nat.ltb_lt.
  - by apply Nat.ltb_lt.
  - destruct (extra nb) as [k|]; [|done]. zbool.
    match goal with H : bool_decide (k ∈ held) = true |- _ => apply bool_decide_eq_true in H end.
    split; [done|]. exists k. repeat split; try done. intros x Hx.
    match goal with H : match extras s !! k with _ => _ end = true |- _ => rewrite Hx in H; by apply Z.ltb_lt in H end.
  - destruct (extra nb) as [k|]; [|done]. exists k. split; [done|]. by apply bool_decide_eq_true in H.
  - destruct (sq_set_limits global s) as [r|]; [by eexists|done].
Qed.

Fixpoint ops_okb (ops : list sq_op) (x : sq_state) : bool :=
  match ops with [] => true | o :: ops => op_okb o x && ops_okb ops (exec_op o x) end.

Lemma ops_okb_ok ops : forall x, ops_okb ops x = true -> ops_ok ops x.
Proof.
  induction ops as [|o ops IH]; intros x H; [done|]. cbn [ops_okb] in H. zbool.
  split; [by apply op_okb_ok|by apply IH].
Qed.

(** ** The invariant *)

Record sq_inv (x : sq_state) : Prop := {
  inv_wf : sq_wf x.2;
  inv_acct : acct x.1 x.2;
  inv_fifo : forall p i, fifo p i (log x.2) [] = Some (buf_of x.2 p i)
}.

Lemma drop_one_perm k l : k ∈ l -> l ≡ₚ k :: drop_one k l.
Proof.
  induction l as [|x l IH]; intros Hin; [by apply not_elem_of_nil in Hin|]. simpl.
  destruct (x =? k) eqn:E; [by apply Z.eqb_eq in E as ->|]. apply Z.eqb_neq in E.
  apply elem_of_cons in Hin as [->|Hin]; [done|]. rewrite (IH Hin) at 1. by apply Permutation_swap.
Qed.

Lemma init_wf : sq_wf sq_init.
Proof.
  split; [done|]. split; [by intros p c Hc|]. intros i Hi. unfold NTS_PRIORITIES in Hi.
  do 4 (destruct i as [|i]; [split; [by apply NoDup_nil|intros p; split; [by intros ?%not_elem_of_nil|by intros [? ?]]]|]). lia.
Qed.

Lemma init_buf p i : buf_of sq_init p i = [].
Proof. unfold buf_of, pac_of, peer_of. change (peers sq_init) with (∅ : gmap Z mtlk_sq_peer_ctx_t). rewrite lookup_total_empty. by destruct i. Qed.

Lemma init_acct : acct [] sq_init.
Proof.
  split; [|by intros f ?%not_elem_of_nil]. split.
  - intros i Hi. unfold NTS_PRIORITIES in Hi. do 4 (destruct i as [|i]; [done|]). lia.
  - by intros k x Hk.
  - intros i nb Hi Hin. unfold NTS_PRIORITIES in Hi. do 4 (destruct i as [|i]; [by apply not_elem_of_nil in Hin|]). lia.
  - by intros k ?%not_elem_of_nil.
Qed.

Lemma sq_inv_step held held' s s' :
  sq_inv (held, s) -> sq_wf s' -> tracks s s' -> acct held' s' -> sq_inv (held', s').
Proof.
  intros [I1 I2 I3] Hwf (evs & L & T) Ha. split; [done|done|]. intros p i. cbn [snd] in *.
  rewrite L, fifo_app, I3. exact (T p i).
Qed.

Lemma inv_advance held s s' : sq_inv (held, s) -> advance s s' -> sq_inv (held, s').
Proof.
  intros Hi Ha. pose proof Hi as [I1 I2 I3]. destruct (Ha I1) as (Sh & Tr & Ac).
  apply (sq_inv_step held held s s' Hi); [by eapply shape_wf|done|by apply Ac].
Qed.

Lemma restore_advance p lim s : advance s (mtlk_sq_peer_ctx_on_rcvry_restore p lim s).
Proof.
  apply advance_peer.
  - intros c. cbn [pacs]. by rewrite length_fmap.
  - intros c i. cbn [pacs]. rewrite !list_lookup_total_alt, list_lookup_fmap. by destruct (pacs c !! i).
Qed.

Lemma tx_cfm_advance p ac s : advance s (mtlk_sq_on_tx_cfm p ac s).
Proof.
  unfold mtlk_sq_on_tx_cfm. transitivity (upd_peer p (fun c => set_used (u32 (used c - 1)) c) s).
  - by apply advance_peer.
  - by apply advance_pac.
Qed.

Lemma set_limits_loop_advance l : forall s s', set_limits_loop l s = Some s' -> advance s s'.
Proof.
  induction l as [|[i g] l IH]; intros s s' Hs; cbn [set_limits_loop] in Hs; [by injection Hs as ->|].
  destruct (peer_ratio (ac_of s i)) as [r|]; cbn in Hs; [|done].
  etransitivity; [|by apply IH]. by apply advance_ac.
Qed.

Lemma set_limits_advance l s r s' : sq_set_limits l s = Some (r, s') -> advance s s'.
Proof.
  unfold sq_set_limits. intros Hs. destruct (negb _); [by injection Hs as _ ->|]. destruct (existsb _ l); [by injection Hs as _ ->|].
  destruct (set_limits_loop _ s) as [s1|] eqn:E; cbn in Hs; [|done]. injection Hs as _ ->. by eapply set_limits_loop_advance.
Qed.

Lemma set_peer_limits_loop_advance l : forall s, advance s (set_peer_limits_loop l s).
Proof.
  induction l as [|[i r] l IH]; intros s; cbn [set_peer_limits_loop]; [reflexivity|]. cbv zeta.
  etransitivity; [|apply IH]. by apply advance_ac.
Qed.

Lemma set_peer_limits_advance l s : advance s (sq_set_peer_limits l s).2.
Proof. unfold sq_set_peer_limits. destruct (negb _); [done|]. destruct (existsb _ l); [done|]. apply set_peer_limits_loop_advance. Qed.

Lemma exec_inv o x : sq_inv x -> op_ok o x -> sq_inv (exec_op o x).
Proof.
  destruct x as [held s]. intros Hi Hok. pose proof Hi as [Hwf Ha Hf]. cbn [fst snd] in *. destruct o; cbn [exec_op op_ok] in *.
  - destruct (init_spec p lim vap s Hwf Hok) as (A & B & C & _). by apply (sq_inv_step held held s); auto.
  - destruct (cleanup_spec p s Hwf Hok) as (A & B & C). by apply (sq_inv_step held held s); auto.
  - by apply (inv_advance held s), cancel_all_advance.
  - by apply (inv_advance held s), cancel_all_for_vap_advance.
  - apply (inv_advance held s); [done|apply restore_advance].
  - apply (inv_advance held s); [done|by apply advance_peer].
  - apply (inv_advance held s); [done|by apply advance_pac].
  - apply (inv_advance held s); [done|apply tx_cfm_advance].
  - apply (inv_advance held s); [done|]. destruct enable; by apply advance_same.
  - destruct Hok as (Hp & Hac & Hrm). apply (inv_advance held s); [done|by apply enqueue_advance].
  - pose proof (clone_begin_spec alloc ac front nb s held Hwf Hok Ha) as C.
    destruct (mtlk_sq_enqueue_clone_begin alloc ac front nb s) as [[res nb'] s'] eqn:E. destruct C as (Sh & Tr & C).
    destruct alloc; [destruct C as (_ & -> & C)|destruct C as [_ ->]].
    + apply (sq_inv_step held _ s); try done. by eapply shape_wf.
    + assert (extra nb' = None) as ->; [|done]. unfold mtlk_sq_enqueue_clone_begin in E.
      destruct (_mtlk_sq_switch_if_urgent nb ac front). cbn in E. by injection E as _ <-.
  - destruct Hok as (Hp & k & Hx & Hin & Hr).
    destruct (enqueue_clone_spec held bcast clone nb sta k s Hwf Ha Hp Hx Hin Hr) as (Sh & Tr & C).
    apply (sq_inv_step held held s); try done. by eapply shape_wf.
  - destruct Hok as (k & Hx & Hin). rewrite Hx. cbn [drop_key].
    destruct (clone_end_spec held (drop_one k held) nb k s Hwf Ha Hx (drop_one_perm k held Hin)) as (Sh & Tr & C).
    apply (sq_inv_step held _ s); try done. by eapply shape_wf.
  - apply (inv_advance held s); [done|by apply sq_flush_advance].
  - apply (inv_advance held s); [done|]. destruct Hok as [[r s'] Hs]. rewrite Hs. by eapply set_limits_advance.
  - apply (inv_advance held s); [done|apply set_peer_limits_advance].
Qed.

Lemma reach_inv x : sq_reach x -> sq_inv x.
Proof.
  induction 1 as [|x o Hr IH Hok]; [|by apply exec_inv]. split; [apply init_wf|apply init_acct|].
  intros p i. cbn [fst snd]. rewrite init_buf. done.
Qed.
