(* ===== verification/SqThms.v ===== *)
(** * SqThms: what the send queue guarantees *)
From S2P Require Import Prelude Sq SqInv SqAcct SqOps SqFlush SqEnq SqSys.

(** C8 In every state of the send queue the size counter of a category is the
    number of packets waiting in it, a multicast packet counted once however
    many clones of it wait; shared clone data lives exactly as long as the
    original is being cloned or a clone waits, with that many references;
    nothing is used after it was freed. *)
Theorem sq_accounting held s :
  sq_reach (held, s) ->
  (forall ac, (ac < NTS_PRIORITIES)%nat ->
     size (ac_of s ac) = u32 (countb plain (waiting s ac) + mcount ac (extras s)) /\
     NoDup (peer_list (ac_of s ac)) /\ (forall p, p ∈ peer_list (ac_of s ac) <-> is_Some (peers s !! p))) /\
  (forall k x, extras s !! k = Some x ->
     ref_cnt x = occ k held + countb (clone_of k) (waiting s (extra_ac x)) /\ 0 < ref_cnt x) /\
  (forall ac nb, (ac < NTS_PRIORITIES)%nat -> nb ∈ waiting s ac -> rmcast nb = true ->
     exists k x, extra nb = Some k /\ extras s !! k = Some x /\ extra_ac x = ac) /\
  (forall f, SqFault f ∉ log s).
Proof.
  intros [(W1 & W2 & W3) [A N] _]%reach_inv. cbn [fst snd] in *. split; [|split; [|split; [|done]]].
  - intros ac Hac. split; [apply (acct_size _ _ _ _ _ A ac Hac)|by apply W3].
  - intros k x Hk. destruct (acct_extra _ _ _ _ _ A k x Hk) as (_ & _ & Hr & H0). split; [done|lia].
  - intros ac nb Hac Hin Hrm. by apply (acct_clone _ _ _ _ _ A).
Qed.

(** ** The order of packets *)

Definition pushed (p : Z) (ac : nat) (l : list sq_ev) : list nbuf :=
  omap (fun e => match e with SqPush q i _ nb => if on_chan p ac q i then Some nb else None | _ => None end) l.
Definition departed (p : Z) (ac : nat) (l : list sq_ev) : list nbuf :=
  omap (fun e => match e with
    | SqSent q i nb | SqFree q i nb | SqCancel q i nb => if on_chan p ac q i then Some nb else None
    | _ => None end) l.
(** No packet was put in front, none was picked out by its VAP. *)
Definition in_turn (p : Z) (ac : nat) (l : list sq_ev) : Prop :=
  forall e, e ∈ l -> match e with
    | SqPush q i true _ | SqCancel q i _ => on_chan p ac q i = false
    | _ => True end.

Lemma in_turn_cons p ac e l : in_turn p ac (e :: l) ->
  (match e with SqPush q i true _ | SqCancel q i _ => on_chan p ac q i = false | _ => True end) /\ in_turn p ac l.
Proof. intros H. split; [apply H; left|]. intros e' He'. apply H. by right. Qed.

Lemma remove_first_perm nb (l : list nbuf) : nb ∈ l -> l ≡ₚ nb :: remove_first nb l.
Proof.
  induction l as [|x l IH]; intros Hin; [by apply not_elem_of_nil in Hin|]. simpl.
  destruct (decide (x = nb)) as [->|Hn]; [done|]. apply elem_of_cons in Hin as [->|Hin]; [done|].
  rewrite (IH Hin) at 1. by apply Permutation_swap.
Qed.

Lemma fifo_perm p ac l : forall b b', fifo p ac l b = Some b' -> b ++ pushed p ac l ≡ₚ departed p ac l ++ b'.
Proof.
  induction l as [|e l IH]; intros b b' Hf; cbn [fifo] in Hf; [injection Hf as ->; by rewrite app_nil_r|].
  destruct (fifo_ev p ac e b) as [b1|] eqn:E; [|done]. specialize (IH b1 b' Hf). clear Hf.
  destruct e; cbn in *; try (by simplify_eq); destruct (on_chan p ac _ _); simplify_eq/=; try done.
  - rewrite <- IH. destruct front; [by rewrite <- Permutation_middle|by rewrite <- app_assoc].
  - destruct b as [|x b]; [done|]. destruct (decide (x = nb)) as [->|]; simplify_eq. by rewrite <- IH.
  - destruct b as [|x b]; [done|]. destruct (decide (x = nb)) as [->|]; simplify_eq. by rewrite <- IH.
  - destruct (decide (nb ∈ b)) as [Hin|]; simplify_eq. rewrite <- IH. by rewrite (remove_first_perm nb b) at 1.
Qed.

Lemma fifo_order p ac l : forall b b',
  in_turn p ac l -> fifo p ac l b = Some b' -> b ++ pushed p ac l = departed p ac l ++ b'.
Proof.
  induction l as [|e l IH]; intros b b' Ht Hf; cbn [fifo] in Hf; [injection Hf as ->; by rewrite app_nil_r|].
  apply in_turn_cons in Ht as [Hte Ht].
  destruct (fifo_ev p ac e b) as [b1|] eqn:E; [|done]. specialize (IH b1 b' Ht Hf). clear Hf.
  destruct e; cbn in *; try (by simplify_eq); destruct (on_chan p ac _ _); simplify_eq/=; try done.
  - destruct front; [done|]. rewrite <- app_assoc in IH. exact IH.
  - destruct b as [|x b]; [done|]. destruct (decide (x = nb)) as [->|]; simplify_eq. cbn. f_equal. exact IH.
  - destruct b as [|x b]; [done|]. destruct (decide (x = nb)) as [->|]; simplify_eq. cbn. f_equal. exact IH.
Qed.

(** C1 Each peer's queue of a category is the double-ended queue the events
    describe: every packet accepted for it was exactly once sent, freed or
    cancelled, or waits; and when no packet was put in front (an urgent one)
    or cancelled by VAP, packets leave in the order they came. *)
Theorem sq_refines_fifo held s p ac :
  sq_reach (held, s) ->
  fifo p ac (log s) [] = Some (buf_of s p ac) /\
  pushed p ac (log s) ≡ₚ departed p ac (log s) ++ buf_of s p ac /\
  (in_turn p ac (log s) -> departed p ac (log s) ++ buf_of s p ac = pushed p ac (log s)).
Proof.
  intros [_ _ F]%reach_inv. specialize (F p ac). cbn [snd] in F. split; [done|]. split.
  - apply (fifo_perm p ac _ _ _ F).
  - intros Ht. symmetry. apply (fifo_order p ac _ _ _ Ht F).
Qed.

(** ** Flushing *)

(** C7. A flush that starts when none is in progress, from a reachable state in
    which no peer's counter of used packets can wrap ([room]), ends, whatever
    requests arrive meanwhile, and is work conserving: unless the hardware
    refuses a packet or transmission is prohibited, it leaves every peer
    without a packet it may send, in every category. Otherwise the categories
    of higher priority are done and, when no request arrived meanwhile, those
    of lower priority are untouched. *)
Theorem sq_flush_complete hw arrivals held s :
  sq_reach (held, s) -> flush_in_progress s = 0 -> room s ->
  let s' := mtlk_sq_flush hw arrivals s in
  (forall f, SqFault f ∉ log s') /\ sq_wf s' /\
  exists m, (m <= NTS_PRIORITIES)%nat /\
    (forall n p, (m <= n < NTS_PRIORITIES)%nat -> is_Some (peers s' !! p) -> idle s' p (mtlk_get_ac_by_number n)) /\
    (m = 0%nat \/ hw_tx_prohibited s = true \/ ~ takes_all hw) /\
    (arrivals = [] -> forall n p, (S n < m)%nat -> buf_of s' p (mtlk_get_ac_by_number n) = buf_of s p (mtlk_get_ac_by_number n)).
Proof.
  intros [W A _]%reach_inv H0 Hr. cbv zeta. cbn [fst snd] in *.
  pose proof (sq_flush_advance hw arrivals s W) as Ha. pose proof (advance_wf _ _ Ha W) as Hwf'.
  destruct (Ha W) as (_ & _ & Hacct). split; [exact (proj2 (Hacct _ A))|]. split; [done|].
  unfold mtlk_sq_flush. rewrite H0. cbn [Z.eqb negb].
  destruct (sq_flush_loop_spec hw arrivals (set_flag 1 s) W Hr) as (_ & s0 & P0 & Hn & m & M1 & M2 & M3).
  exists m. split; [done|]. split; [intros n p Hm; by apply M2|].
  destruct M3 as [->|[M3 M4]]; [split; [by left|lia]|]. split.
  - right. destruct M3 as [M3|M3]; [left|by right]. by rewrite (passes_prohibited _ _ P0) in M3.
  - intros Harr n p Hlt. unfold ac_no in M4. rewrite M4 by done.
    unfold buf_of, pac_of, peer_of. rewrite (Hn Harr). done.
Qed.

(** ** Enqueueing *)

(** The state differs at most in the number of waiting packets of [(p, ac)]. *)
Definition only_queue (p : Z) (ac : nat) (s s' : mtlk_sq_t) : Prop :=
  (forall q i, (p, ac) <> (q, i) -> buf_of s' q i = buf_of s q i) /\
  (forall i, i <> ac -> size (ac_of s' i) = size (ac_of s i)) /\ extras s' = extras s.

Lemma enqueue_pkt_buf p nb ac front s :
  sq_wf s -> is_Some (peers s !! p) -> (ac < NTS_PRIORITIES)%nat ->
  let s' := (mtlk_sq_enqueue_pkt p nb ac front s).2 in
  buf_of s' p ac = (if refuses p ac front s then buf_of s p ac
                    else if front then nb :: buf_of s p ac else buf_of s p ac ++ [nb]) /\
  forall q i, (p, ac) <> (q, i) -> buf_of s' q i = buf_of s q i.
Proof.
  intros Hwf [c Hc] Hac. cbv zeta. unfold mtlk_sq_enqueue_pkt. fold (refuses p ac front s).
  assert (has_ac s p ac) as Ha by by eapply wf_has_ac.
  assert (forall e g f s1 q i, (forall a, buflist (g a) = buflist a) ->
    buf_of (emit e (upd_peer p (upd_pac ac g) (upd_ac ac f s1))) q i = buf_of s1 q i) as Hb.
  { intros e g f s1 q i Hg. change (buf_of (upd_peer p (upd_pac ac g) (upd_ac ac f s1)) q i = buf_of s1 q i).
    rewrite buf_of_upd_pac by done. done. }
  destruct (refuses p ac front s); cbn [snd]; [split; [by apply Hb|intros q i _; by apply Hb]|].
  split; [rewrite Hb by done; destruct front; by apply buf_of_set_buf|].
  intros q i Hn. rewrite Hb by done. destruct front; by apply buf_of_set_buf_ne.
Qed.

(** A packet that is not a clone is refused exactly when it is not to go in
    front and its category's counter, this packet included, has reached the
    category's limit or its peer has reached the limit per peer; so a category
    never holds its limit of such packets. A refused packet changes no queue and
    no counter but the drop statistics; an accepted one goes to the back, or to
    the front when urgent or asked for, and is counted. *)
Theorem sq_enqueue_spec bcast ac front nb held s :
  sq_reach (held, s) -> is_Some (peers s !! dest bcast nb) -> (ac < NTS_PRIORITIES)%nat -> rmcast nb = false ->
  let i := if urgent nb then AC_HIGHEST else ac in
  let in_front := urgent nb || front in
  let p := dest bcast nb in
  let refused := negb in_front &&
    ((global_queue_limit (ac_of s i) <=? u32 (size (ac_of s i) + 1)) ||
     (peer_queue_limit (ac_of s i) <=? Z.of_nat (length (buf_of s p i)))) in
  let '(res, s') := mtlk_sq_enqueue bcast ac front nb s in
  res = (if refused then MTLK_ERR_NO_RESOURCES else MTLK_ERR_OK) /\
  only_queue p i s s' /\
  buf_of s' p i = (if refused then buf_of s p i else if in_front then nb :: buf_of s p i else buf_of s p i ++ [nb]) /\
  size (ac_of s' i) = (if refused then size (ac_of s i) else u32 (size (ac_of s i) + 1)) /\
  (in_front = false -> res = MTLK_ERR_OK -> size (ac_of s' i) < global_queue_limit (ac_of s i)).
Proof.
  intros Hr Hp Hac Hrm. pose proof (reach_inv _ Hr) as [W A _]. cbn [fst snd] in *. cbv zeta.
  set (i := if urgent nb then AC_HIGHEST else ac). set (f := urgent nb || front). set (p := dest bcast nb) in *.
  assert ((i < NTS_PRIORITIES)%nat) as Hi by (unfold i; destruct (urgent nb); [apply Nat.ltb_lt; reflexivity|done]).
  unfold mtlk_sq_enqueue. assert (_mtlk_sq_switch_if_urgent nb ac front = (i, f)) as ->
    by (unfold _mtlk_sq_switch_if_urgent, i, f; by destruct (urgent nb)).
  unfold mtlk_xmit_sq_enqueue. fold (dest bcast nb). fold p. set (s1 := inc_size i s).
  assert (sq_wf s1) as W1 by (eapply shape_wf; [apply inc_size_shape|done]).
  assert (length (acs s) = NTS_PRIORITIES) as Hlen by by destruct W.
  assert (forall j, size (ac_of s1 j) = put i (u32 (size (ac_of s i) + 1)) (fun j => size (ac_of s j)) j) as Hs1.
  { intros j. unfold s1, inc_size. rewrite (size_upd i (fun a => u32 (size a + 1))) by by rewrite Hlen. done. }
  assert (refuses p i f s1 = negb f && ((global_queue_limit (ac_of s i) <=? u32 (size (ac_of s i) + 1))
    || (peer_queue_limit (ac_of s i) <=? Z.of_nat (length (buf_of s p i))))) as Href.
  { unfold refuses. rewrite Hs1, put_eq. unfold s1 at 1 2, inc_size.
    by rewrite (ac_of_upd_keeps global_queue_limit), (ac_of_upd_keeps peer_queue_limit). }
  pose proof (enqueue_pkt_spec p i f nb s1 W1 Hp Hi) as E.
  destruct (enqueue_pkt_buf p nb i f s1 W1 Hp Hi) as [B1 B2]. rewrite <- Href.
  destruct (mtlk_sq_enqueue_pkt p nb i f s1) as [res s2]. destruct E as [E1 E2 _ [E4 E5] E6 _ _ _]. cbn [fst snd] in *. subst res.
  destruct (refuses p i f s1) eqn:E; cbn [negb] in *; cbn [Z.eqb MTLK_ERR_NO_RESOURCES MTLK_ERR_OK Pos.eqb].
  - assert (forall j, size (ac_of (dec_size i s2) j) = size (ac_of s j)) as Hs.
    { intros j. unfold dec_size. rewrite (size_upd i (fun a => u32 (size a - 1))) by by rewrite (shape_len _ _ E2 W1).
      destruct (decide (i = j)) as [<-|Hn]; [|by rewrite put_ne, E6, Hs1, put_ne].
      rewrite put_eq, E6, Hs1, put_eq, u32_sub_l, Z.add_simpl_r. by eapply acct_u32. }
    split; [done|]. split; [split; [done|split; [intros; apply Hs|done]]|]. split; [done|]. split; [apply Hs|done].
  - split; [done|]. split; [split; [done|split; [|done]]|].
    + intros j Hj. rewrite E6, Hs1. by rewrite put_ne.
    + split; [done|]. rewrite E6, Hs1, put_eq. split; [done|]. intros Hf _. rewrite Hf in Href. cbn in Href.
      symmetry in Href. apply orb_false_iff in Href as [Hlt _]. by apply Z.leb_gt in Hlt.
Qed.

(** ** Limits *)

Lemma set_limits_some l s s' : set_limits_loop l s = Some s' ->
  (forall i g, (i, g) ∈ l -> (i < length (acs s))%nat) -> NoDup l.*1 ->
  length (acs s') = length (acs s) /\
  forall i, (forall g, (i, g) ∈ l -> exists r, peer_ratio (ac_of s i) = Some r /\
      global_queue_limit (ac_of s' i) = u16 g /\ peer_queue_limit (ac_of s' i) = u16 (Z.quot (s32 (r * g)) 100)) /\
    (i ∉ l.*1 -> ac_of s' i = ac_of s i).
Proof.
  revert s. induction l as [|[i g] l IH]; intros s Hs Hl Hnd; cbn [set_limits_loop] in Hs.
  { injection Hs as <-. split; [done|]. intros i. split; [by intros g ?%not_elem_of_nil|done]. }
  destruct (peer_ratio (ac_of s i)) as [r|] eqn:Er; cbn in Hs; [|done]. set (s1 := upd_ac i _ s) in Hs.
  apply NoDup_cons in Hnd as [Hi Hnd]. cbn in Hi.
  assert (length (acs s1) = length (acs s)) as Hlen by apply length_alter.
  destruct (IH s1 Hs) as [L1 L2]; [intros j g' Hj; rewrite Hlen; apply (Hl j g'); by right|done|].
  split; [congruence|]. intros j. destruct (L2 j) as [P1 P2]. split.
  - intros g' Hin. apply elem_of_cons in Hin as [[= -> ->]|Hin].
    + exists r. split; [done|]. rewrite P2 by done. unfold s1. rewrite ac_of_upd; [done|]. apply (Hl i g). left.
    + destruct (P1 g' Hin) as (r' & H1 & H2). exists r'. split; [|done].
      unfold s1 in H1. rewrite ac_of_upd_ne in H1; [done|]. intros <-. apply Hi, list_elem_of_fmap. by exists (i, g').
  - intros [Hj1 Hj2]%not_elem_of_cons. rewrite P2 by done. unfold s1. by rewrite ac_of_upd_ne.
Qed.

Lemma zip_acs (l : list Z) i g :
  length l = NTS_PRIORITIES -> l !! i = Some g -> (i, g) ∈ zip all_acs l.
Proof.
  intros Hl Hi. apply list_elem_of_lookup. exists i. unfold all_acs. apply lookup_zip_with_Some.
  exists i, g. split; [done|]. split; [|done]. apply lookup_seq. apply lookup_lt_Some in Hi. lia.
Qed.

Lemma zip_acs_fst (l : list Z) : length l = NTS_PRIORITIES -> (zip all_acs l).*1 = all_acs.
Proof. intros Hl. apply fst_zip. unfold all_acs. rewrite length_seq. lia. Qed.

Definition acceptable (l : list Z) : Prop := length l = NTS_PRIORITIES /\ Forall (fun g => 0 < g) l.

Lemma acceptable_set l s : acceptable l ->
  sq_set_limits l s = (s' ← set_limits_loop (zip all_acs l) s; Some (MTLK_ERR_OK, s')).
Proof.
  intros [Hl Hg]. unfold sq_set_limits. rewrite Hl, Z.eqb_refl. cbn [negb].
  assert (existsb (fun g => g <=? 0) l = false) as ->; [|done]. clear Hl.
  induction Hg as [|g l Hg Hl IH]; [done|]. cbn. rewrite IH, orb_false_r. apply Z.leb_gt. lia.
Qed.

Lemma set_limits_at l s s' i g :
  sq_wf s -> acceptable l -> sq_set_limits l s = Some (MTLK_ERR_OK, s') -> l !! i = Some g ->
  exists r, peer_ratio (ac_of s i) = Some r /\ global_queue_limit (ac_of s' i) = u16 g /\
    peer_queue_limit (ac_of s' i) = u16 (Z.quot (s32 (r * g)) 100).
Proof.
  intros (W & _) Ha Hs Hi. rewrite acceptable_set in Hs by done. destruct Ha as [Hl Hg].
  destruct (set_limits_loop (zip all_acs l) s) as [s1|] eqn:E; cbn in Hs; [|done]. injection Hs as <-.
  destruct (set_limits_some _ _ _ E) as [_ H].
  - intros j g' Hin. rewrite W. apply (list_elem_of_fmap_2 fst) in Hin. rewrite zip_acs_fst in Hin by done.
    unfold all_acs in Hin. apply elem_of_seq in Hin. cbn in Hin. cbn. lia.
  - rewrite zip_acs_fst by done. apply NoDup_seq.
  - destruct (H i) as [H1 _]. apply H1. by apply zip_acs.
Qed.

Lemma zero_ratio_none l s i g :
  acceptable l -> l !! i = Some g -> sq_wf s -> global_queue_limit (ac_of s i) = 0 -> sq_set_limits l s = None.
Proof.
  intros Ha Hi Hwf Hz. destruct (sq_set_limits l s) as [[r s']|] eqn:E; [|done]. exfalso.
  assert (r = MTLK_ERR_OK) as ->.
  { rewrite acceptable_set in E by done. destruct (set_limits_loop _ s); cbn in E; [|done]. by injection E as <- _. }
  destruct (set_limits_at l s s' i g Hwf Ha E Hi) as (r & Hr & _). unfold peer_ratio in Hr. by rewrite Hz in Hr.
Qed.

Lemma refused_when_zero bcast ac nb s i :
  sq_wf s -> (ac < NTS_PRIORITIES)%nat -> i = ac -> urgent nb = false ->
  global_queue_limit (ac_of s i) = 0 \/ peer_queue_limit (ac_of s i) = 0 ->
  (mtlk_sq_enqueue bcast ac false nb s).1 = MTLK_ERR_NO_RESOURCES.
Proof.
  intros (Hlen & _) Hac -> Hu Hz. unfold mtlk_sq_enqueue, _mtlk_sq_switch_if_urgent. rewrite Hu.
  unfold mtlk_xmit_sq_enqueue, mtlk_sq_enqueue_pkt. set (s1 := inc_size ac s). cbn [negb andb].
  assert (global_queue_limit (ac_of s1 ac) = global_queue_limit (ac_of s ac)) as -> by by apply (ac_of_upd_keeps global_queue_limit).
  assert (peer_queue_limit (ac_of s1 ac) = peer_queue_limit (ac_of s ac)) as -> by by apply (ac_of_upd_keeps peer_queue_limit).
  assert (0 <= size (ac_of s1 ac)) as Hs.
  { unfold s1, inc_size. rewrite ac_of_upd by by rewrite Hlen. cbn. apply u32_range. }
  assert ((global_queue_limit (ac_of s ac) <=? size (ac_of s1 ac)) ||
    (peer_queue_limit (ac_of s ac) <=? Z.of_nat (length (buf_of s1 (match dst_sta nb with Some sta => sta | None => bcast end) ac))) = true) as ->.
  { apply orb_true_iff. destruct Hz as [-> | ->]; [left|right]; apply Z.leb_le; lia. }
  done.
Qed.

(** The limits are 16 bits wide but a requested limit is only checked to be
    positive: a multiple of 65536 is stored as 0, after which no packet enters
    the back of that category, reading the ratios and every further change of
    the limits divide by zero. A per-peer limit that was rounded down to 0
    stays 0 under every later change of the limits, and no packet enters the
    back of that category either. *)
Theorem sq_limit_errors held s i :
  sq_reach (held, s) -> (i < NTS_PRIORITIES)%nat ->
  (forall l s' g, acceptable l -> sq_set_limits l s = Some (MTLK_ERR_OK, s') -> l !! i = Some g -> u16 g = 0 ->
     sq_get_peer_limits s' NTS_PRIORITIES = None /\
     (forall l', acceptable l' -> sq_set_limits l' s' = None) /\
     (forall bcast nb, urgent nb = false -> (mtlk_sq_enqueue bcast i false nb s').1 = MTLK_ERR_NO_RESOURCES)) /\
  (peer_queue_limit (ac_of s i) = 0 ->
     forall l s', acceptable l -> sq_set_limits l s = Some (MTLK_ERR_OK, s') ->
     peer_queue_limit (ac_of s' i) = 0 /\
     (forall bcast nb, urgent nb = false -> (mtlk_sq_enqueue bcast i false nb s').1 = MTLK_ERR_NO_RESOURCES)).
Proof.
  intros [W _ _]%reach_inv Hi. cbn [snd] in W.
  assert (forall l s', sq_set_limits l s = Some (MTLK_ERR_OK, s') -> sq_wf s') as Hwf'.
  { intros l s' Hs. eapply advance_wf; [by eapply set_limits_advance|done]. }
  split.
  - intros l s' g Ha Hs Hl Hz. pose proof (Hwf' _ _ Hs) as W'.
    destruct (set_limits_at l s s' i g W Ha Hs Hl) as (r & _ & Hg & _). rewrite Hz in Hg. split; [|split].
    + unfold sq_get_peer_limits. destruct (mapM _ _) as [v|] eqn:E; [|done]. exfalso. apply mapM_Some_1 in E.
      assert (seq 0 NTS_PRIORITIES !! i = Some i) as Hs' by by apply lookup_seq_lt.
      destruct (Forall2_lookup_l _ _ _ _ _ E Hs') as (v' & _ & Hv). unfold peer_ratio in Hv. by rewrite Hg in Hv.
    + intros l' Ha'. pose proof Ha' as [Hl' _].
      destruct (lookup_lt_is_Some_2 l' i) as [g' Hg']; [by rewrite Hl'|]. by eapply zero_ratio_none.
    + intros bcast nb Hu. by apply (refused_when_zero bcast i nb s' i); [| | | |left].
  - intros Hp l s' Ha Hs. pose proof Ha as [Hl _].
    destruct (lookup_lt_is_Some_2 l i) as [g Hg]; [by rewrite Hl|].
    destruct (set_limits_at l s s' i g W Ha Hs Hg) as (r & Hr & _ & Hp').
    assert (r = 0) as ->.
    { unfold peer_ratio in Hr. rewrite Hp in Hr. destruct (_ =? 0); [done|]. by injection Hr as <-. }
    change (u16 (Z.quot (s32 (0 * g)) 100)) with 0 in Hp'. split; [done|].
    intros bcast nb Hu. by apply (refused_when_zero bcast i nb s' i); [eapply Hwf'| | | |right].
Qed.
