(* ===== verification/SqRace.v ===== *)
(** * SqRace: flush requests from several threads (mtlk_sq_flush, mtlk_sq.c)

    The statements of [mtlk_sq_flush] as steps of threads that share the
    in-progress flag, the counter of requests and the queue's lock. [posted]
    counts the pieces of work made available (a packet enqueued, a transmission
    confirmed) before a flush is called; [covered] is how many of them were
    available when some pass that has ended began, which is what SqThms shows a
    pass to serve. The source protects the flag by nothing and the counter by
    atomic operations, so every statement is a step of its own. *)
From S2P Require Import Prelude.

(** Where a thread is in [mtlk_sq_flush]. *)
Inductive fpc :=
| FOut                                   (* not in a flush *)
| FTest                                  (* if (flush_in_progress) *)
| FInc                                   (* atomic_inc(flush_count); return *)
| FRaise                                 (* flush_in_progress = 1 *)
| FLock                                  (* lock_acquire *)
| FRead                                  (* initial_flush_count = atomic_get(flush_count) *)
| FRaise2 (initial : Z)                  (* flush_in_progress = 1 *)
| FBegin (initial : Z)                   (* the pass begins *)
| FPass (initial : Z) (seen : nat)       (* the pass over the queues *)
| FLower (initial : Z)                   (* flush_in_progress = 0 *)
| FCompare (initial : Z)                 (* while (initial != atomic_get(flush_count)) *)
| FUnlock.                               (* lock_release *)

Record fsys := FSys {
  f_flag : Z; f_count : Z; f_lock : option nat; posted : nat; covered : nat; threads : list fpc
}.

Definition go (i : nat) (p : fpc) (s : fsys) : fsys :=
  FSys (f_flag s) (f_count s) (f_lock s) (posted s) (covered s) (<[i := p]> (threads s)).

(** The next statement of thread [i]; [None] when it waits for the lock. *)
Definition flush_step (i : nat) (s : fsys) : option fsys :=
  match threads s !! i with
  | None => None
  | Some FOut => Some (go i FTest (FSys (f_flag s) (f_count s) (f_lock s) (S (posted s)) (covered s) (threads s)))
  | Some FTest => Some (go i (if f_flag s =? 0 then FRaise else FInc) s)
  | Some FInc => Some (go i FOut (FSys (f_flag s) (u32 (f_count s + 1)) (f_lock s) (posted s) (covered s) (threads s)))
  | Some FRaise => Some (go i FLock (FSys 1 (f_count s) (f_lock s) (posted s) (covered s) (threads s)))
  | Some FLock =>
      match f_lock s with
      | None => Some (go i FRead (FSys (f_flag s) (f_count s) (Some i) (posted s) (covered s) (threads s)))
      | Some _ => None
      end
  | Some FRead => Some (go i (FRaise2 (f_count s)) s)
  | Some (FRaise2 n) => Some (go i (FBegin n) (FSys 1 (f_count s) (f_lock s) (posted s) (covered s) (threads s)))
  | Some (FBegin n) => Some (go i (FPass n (posted s)) s)
  | Some (FPass n seen) =>
      Some (go i (FLower n) (FSys (f_flag s) (f_count s) (f_lock s) (posted s) (Nat.max (covered s) seen) (threads s)))
  | Some (FLower n) => Some (go i (FCompare n) (FSys 0 (f_count s) (f_lock s) (posted s) (covered s) (threads s)))
  | Some (FCompare n) => Some (go i (if n =? f_count s then FUnlock else FRead) s)
  | Some FUnlock => Some (go i FOut (FSys (f_flag s) (f_count s) None (posted s) (covered s) (threads s)))
  end.

Definition flush_start (n : nat) : fsys := FSys 0 0 None 0 0 (replicate n FOut).

(** Every interleaving of [n] threads. *)
Inductive flush_reach (n : nat) : fsys -> Prop :=
| flush_reach_start : flush_reach n (flush_start n)
| flush_reach_step i s s' : flush_reach n s -> flush_step i s = Some s' -> flush_reach n s'.

(** A thread that has yet to read or to compare the counter. *)
Definition watching (p : fpc) : Prop :=
  match p with FOut | FTest | FInc | FUnlock => False | _ => True end.

(** Interleavings in which no increment comes after the comparison it was meant
    for: when a thread increments, some thread is still watching. *)
Inductive timely_reach (n : nat) : fsys -> Prop :=
| timely_start : timely_reach n (flush_start n)
| timely_step i s s' : timely_reach n s -> flush_step i s = Some s' ->
    (threads s !! i = Some FInc -> exists j p, threads s !! j = Some p /\ watching p) -> timely_reach n s'.

Lemma timely_flush_reach n s : timely_reach n s -> flush_reach n s.
Proof. induction 1; econstructor; eauto. Qed.

(** ** Invariants *)

(** What a thread remembers of the counter is not ahead of it. *)
Definition initial_of (p : fpc) : option Z :=
  match p with FRaise2 n | FBegin n | FPass n _ | FLower n | FCompare n => Some n | _ => None end.
Definition holds_flag (p : fpc) : Prop :=
  match p with FLock | FRead | FRaise2 _ | FBegin _ | FPass _ _ | FLower _ => True | _ => False end.
Definition incrementing (p : fpc) : bool := match p with FTest | FInc => true | _ => false end.

(** A thread whose flush will cover everything posted so far. *)
Definition will_cover (s : fsys) (p : fpc) : Prop :=
  match p with
  | FTest | FInc | FRaise | FLock | FRead | FRaise2 _ | FBegin _ => True
  | FPass n seen => seen = posted s \/ n <> f_count s
  | FLower n | FCompare n => n <> f_count s
  | FOut | FUnlock => False
  end.

Record finv (s : fsys) : Prop := {
  finv_count : 0 <= f_count s /\ f_count s + countb incrementing (threads s) <= Z.of_nat (posted s);
  finv_initial : forall i p n, threads s !! i = Some p -> initial_of p = Some n -> n <= f_count s;
  finv_seen : forall i n seen, threads s !! i = Some (FPass n seen) -> (seen <= posted s)%nat;
  finv_covered : (covered s <= posted s)%nat;
  finv_flag : f_flag s <> 0 -> exists i p, threads s !! i = Some p /\ holds_flag p
}.

Lemma start_thread n i p : replicate n FOut !! i = Some p -> p = FOut.
Proof. intros H. by apply lookup_replicate in H as [-> _]. Qed.

Lemma finv_start n : finv (flush_start n).
Proof.
  split; cbn [flush_start f_flag f_count f_lock posted covered threads].
  - split; [lia|]. rewrite countb_zero; [lia|]. intros p Hin. apply elem_of_replicate in Hin as [-> _]. done.
  - intros i p k ->%start_thread. done.
  - intros i k seen H%start_thread. done.
  - lia.
  - done.
Qed.

(** The thread [j] after thread [i] moved to [p]. *)
Lemma lookup_go i p s j q : threads (go i p s) !! j = Some q -> (j = i /\ q = p) \/ (j <> i /\ threads s !! j = Some q).
Proof.
  cbn. intros H. destruct (decide (i = j)) as [<-|Hn]; [|rewrite list_lookup_insert_ne in H by done; auto].
  left. apply list_lookup_insert_Some in H as [(_ & -> & _)|[? _]]; done.
Qed.

Lemma go_here i p s q : threads s !! i = Some q -> threads (go i p s) !! i = Some p.
Proof. intros H. cbn. apply list_lookup_insert_eq. by eapply lookup_lt_Some. Qed.

Lemma go_there i p s j q : i <> j -> threads s !! j = Some q -> threads (go i p s) !! j = Some q.
Proof. intros Hn H. cbn. by rewrite list_lookup_insert_ne. Qed.

Lemma finv_go i p q s flag count lock post cov :
  finv s -> threads s !! i = Some q ->
  0 <= f_count s <= count ->
  count + countb incrementing (threads s) - Z.b2z (incrementing q) + Z.b2z (incrementing p) <= Z.of_nat post ->
  (forall n, initial_of p = Some n -> n <= count) ->
  (forall n seen, p = FPass n seen -> (seen <= post)%nat) -> (posted s <= post)%nat -> (cov <= post)%nat ->
  (flag <> 0 -> holds_flag p \/ f_flag s <> 0 /\ ~ holds_flag q) ->
  finv (go i p (FSys flag count lock post cov (threads s))).
Proof.
  intros [I1 I2 I3 I4 I5] Hq Hc Hn Hi Hs Hp Hcov Hf. set (s1 := FSys _ _ _ _ _ _).
  assert (threads s1 !! i = Some q) as Hq1 by done. split.
  - split; [cbn; lia|]. unfold go, s1; cbn [f_count posted threads]. rewrite (countb_insert _ _ _ _ _ Hq). lia.
  - intros j r n Hj Hr. change (n <= count). apply lookup_go in Hj as [[-> ->]|[_ Hj]]; [by apply Hi|].
    specialize (I2 j r n Hj Hr). lia.
  - intros j n seen Hj. change (seen <= post)%nat. apply lookup_go in Hj as [[-> Heq]|[_ Hj]]; [by eapply Hs|].
    specialize (I3 j n seen Hj). lia.
  - done.
  - intros Hfl. destruct (Hf Hfl) as [H|[H Hnq]]; [exists i, p; split; [by eapply go_here|done]|].
    destruct (I5 H) as (j & r & Hj & Hr). exists j, r. split; [|done]. apply go_there; [|done]. intros <-. congruence.
Qed.

Lemma posted_step i s s' : flush_step i s = Some s' -> (posted s <= posted s')%nat.
Proof. unfold flush_step. intros H. repeat case_match; simplify_eq/=; lia. Qed.

Lemma go_eta i p s : go i p s = go i p (FSys (f_flag s) (f_count s) (f_lock s) (posted s) (covered s) (threads s)).
Proof. done. Qed.

Lemma finv_step i s s' : finv s -> flush_step i s = Some s' -> Z.of_nat (posted s') < 2 ^ 32 -> finv s'.
Proof.
  intros Hs Hstep Hlt. pose proof (posted_step _ _ _ Hstep) as Hmono. pose proof Hs as [I1 I2 I3 I4 I5].
  unfold flush_step in Hstep. destruct (threads s !! i) as [q|] eqn:Hq; [|done].
  destruct q; [..|]; try (destruct (f_lock s); [done|]); injection Hstep as <-; rewrite ?(go_eta i _ s);
    cbn [posted go] in Hlt, Hmono;
    (eapply finv_go; [done|exact Hq|..]; cbn [incrementing initial_of holds_flag Z.b2z];
     repeat match goal with |- context [if ?b then _ else _] => destruct b eqn:?; cbn [incrementing initial_of holds_flag Z.b2z] end;
     try done; try lia; try (by intros; simplify_eq; first [lia | by eapply I2, Hq || eauto]); try tauto).
  - pose proof (countb_pos incrementing _ _ _ Hq eq_refl). rewrite u32_small; lia.
  - pose proof (countb_pos incrementing _ _ _ Hq eq_refl). rewrite u32_small; lia.
  - specialize (I3 _ _ _ Hq). lia.
Qed.

Lemma reach_finv n s : flush_reach n s -> Z.of_nat (posted s) < 2 ^ 32 -> finv s.
Proof.
  induction 1 as [|i s s' _ IH Hstep]; [intros _; apply finv_start|]. intros Hlt.
  eapply finv_step; [apply IH|exact Hstep|done]. pose proof (posted_step _ _ _ Hstep). lia.
Qed.

(** ** Nothing is lost to timely increments *)

Definition covering (s : fsys) : Prop :=
  (covered s < posted s)%nat -> exists i p, threads s !! i = Some p /\ will_cover s p.

(** A thread that will cover everything still will after a step of another
    that posts nothing. *)
Lemma will_cover_mono s s' p n :
  will_cover s p -> posted s' = posted s -> f_count s <= f_count s' ->
  (initial_of p = Some n -> n <= f_count s) -> (forall m, initial_of p = Some m -> m = n) -> will_cover s' p.
Proof.
  intros Hw Hp Hc Hn Hm. destruct p; cbn in *; try done; try specialize (Hm _ eq_refl) as <-; try specialize (Hn eq_refl).
  - destruct Hw as [->|Hw]; [left; lia|right; lia].
  - lia.
  - lia.
Qed.

Lemma covering_new i p q s s1 :
  threads s !! i = Some q -> threads s1 = threads s -> will_cover s1 p -> covering (go i p s1).
Proof.
  intros Hq Ht Hp _. exists i, p. split; [apply (go_here i p s1 q); by rewrite Ht|]. by destruct p.
Qed.

(** Thread [i] goes from [q] to [p] and nothing is posted or counted. *)
Lemma covering_move i p q s flag lock cov :
  covering s -> threads s !! i = Some q -> (covered s <= cov)%nat ->
  (will_cover s q -> (cov < posted s)%nat -> will_cover s p) ->
  covering (go i p (FSys flag (f_count s) lock (posted s) cov (threads s))).
Proof.
  intros Hc Hq Hle Hw Hlt. cbn in Hlt. destruct (Hc ltac:(lia)) as (j & r & Hj & Hr).
  destruct (decide (i = j)) as [<-|Hn].
  - assert (r = q) as -> by congruence. specialize (Hw Hr Hlt).
    exists i, p. split; [by eapply go_here|]. by destruct p.
  - exists j, r. split; [by apply go_there|]. by destruct r.
Qed.

Lemma covering_step i s s' :
  finv s -> covering s -> flush_step i s = Some s' -> Z.of_nat (posted s') < 2 ^ 32 ->
  (threads s !! i = Some FInc -> exists j p, threads s !! j = Some p /\ watching p) -> covering s'.
Proof.
  intros Hs Hc Hstep Hlt Htimely. pose proof Hs as [[I1 I1'] I2 I3 I4 I5].
  unfold flush_step in Hstep. destruct (threads s !! i) as [q|] eqn:Hq; [|done].
  destruct q; try (destruct (f_lock s); [done|]); injection Hstep as <-.
  - by apply (covering_new i _ FOut s).
  - apply (covering_new i _ FTest s); [done|done|]. by destruct (_ =? _).
  - cbn [posted go] in Hlt. intros _. destruct (Htimely eq_refl) as (j & p & Hj & Hp). exists j, p.
    assert (i <> j) as Hn by (intros <-; rewrite Hq in Hj; by injection Hj as <-).
    split; [by apply go_there|]. pose proof (countb_pos incrementing _ _ _ Hq eq_refl).
    destruct p; cbn [watching will_cover go f_count posted] in *; try done; specialize (I2 j _ initial Hj eq_refl);
      rewrite u32_small by lia; [right; lia|lia|lia].
  - by apply (covering_new i _ FRaise s).
  - by apply (covering_new i _ FLock s).
  - by apply (covering_new i _ FRead s).
  - by apply (covering_new i _ (FRaise2 initial) s).
  - apply (covering_new i _ (FBegin initial) s); [done|done|by left].
  - apply (covering_move i _ (FPass initial seen)); try done; [lia|]. intros [->|Hw] Hcov; [lia|done].
  - by apply (covering_move i _ (FLower initial)).
  - destruct (initial =? f_count s) eqn:E.
    + rewrite go_eta. apply (covering_move i _ (FCompare initial)); try done. intros Hw. by apply Z.eqb_eq in E.
    + by apply (covering_new i _ (FCompare initial) s).
  - by apply (covering_move i _ FUnlock).
Qed.

Lemma timely_covering n s : timely_reach n s -> Z.of_nat (posted s) < 2 ^ 32 -> covering s.
Proof.
  induction 1 as [|i s s' Hr IH Hstep Ht].
  - intros _ Hlt. cbn in Hlt. lia.
  - intros Hlt. pose proof (posted_step _ _ _ Hstep). assert (Z.of_nat (posted s) < 2 ^ 32) as Hlt' by lia.
    eapply covering_step; [|by apply IH|exact Hstep|done|done]. eapply reach_finv; [|done]. by apply timely_flush_reach.
Qed.

(** All threads are outside [mtlk_sq_flush]. *)
Definition quiescent (s : fsys) : Prop := forall i p, threads s !! i = Some p -> p = FOut.

(** C25 The in-progress flag is only ever up while some thread is about to end a
    pass that lowers it; and the only way to lose a flush request is to
    increment the counter when no thread will look at it any more: in every
    interleaving of any number of threads in which each increment comes while
    some thread has yet to read or compare the counter, everything posted has
    been covered by a pass begun after it once all threads are out. *)
Theorem sq_flush_no_loss n s :
  timely_reach n s -> Z.of_nat (posted s) < 2 ^ 32 ->
  (f_flag s <> 0 -> exists i p, threads s !! i = Some p /\ holds_flag p) /\
  (quiescent s -> covered s = posted s).
Proof.
  intros Hr Hlt. pose proof (reach_finv n s (timely_flush_reach n s Hr) Hlt) as [_ _ _ I4 I5]. split; [done|].
  intros Hq. destruct (decide (covered s < posted s)%nat) as [Hl|]; [|lia].
  destruct (timely_covering n s Hr Hlt Hl) as (i & p & Hi & Hp). by rewrite (Hq i p Hi) in Hp.
Qed.

(** A schedule: the threads in the order they step. *)
Definition schedule (l : list nat) (s : fsys) : option fsys :=
  foldl (fun o i => o ≫= flush_step i) (Some s) l.

Lemma schedule_reach n l : forall s s', flush_reach n s -> schedule l s = Some s' -> flush_reach n s'.
Proof.
  unfold schedule. induction l as [|i l IH]; intros s s' Hr Hs; [by injection Hs as <-|]. simpl in Hs.
  destruct (flush_step i s) as [s1|] eqn:E; [|exfalso; clear -Hs; induction l as [|j l IHl]; [done|by apply IHl]].
  apply (IH s1); [by econstructor|done].
Qed.

(** Thread 0 flushes its own work; thread 1 posts during its pass and tests the
    flag, but increments the counter only after thread 0 has compared it. *)
Definition lost_schedule : list nat := [0; 0; 0; 0; 0; 0; 0; 1; 1; 0; 0; 0; 0; 1]%nat.

(** Test and increment are not one step, so [mtlk_sq_flush] called from two
    threads can lose a request: both can be out of it with the flag down and
    work posted that no pass covered, and the work waits until a further flush
    is requested. (In this tree one tasklet makes all the calls.) *)
Theorem sq_flush_signal_loss :
  exists s, flush_reach 2 s /\ quiescent s /\ f_flag s = 0 /\ f_lock s = None /\ (covered s < posted s)%nat /\
  forall i s', flush_step i s = Some s' -> posted s' = S (posted s).
Proof.
  exists (FSys 0 1 None 2 1 [FOut; FOut]). split.
  { apply (schedule_reach 2 lost_schedule (flush_start 2)); [constructor|reflexivity]. }
  split; [by intros [|[|i]] p [= <-]|].
  split; [done|split; [done|split; [cbn; lia|]]].
  intros [|[|i]] s'; cbn; [by intros [= <-]|by intros [= <-]|done].
Qed.

(** ** Concrete interleavings *)

Definition watchingb (p : fpc) : bool := match p with FOut | FTest | FInc | FUnlock => false | _ => true end.
Definition timelyb (i : nat) (s : fsys) : bool :=
  match threads s !! i with Some FInc => existsb watchingb (threads s) | _ => true end.
Fixpoint timely_run (l : list nat) (s : fsys) : option fsys :=
  match l with
  | [] => Some s
  | i :: l => if timelyb i s then s' ← flush_step i s; timely_run l s' else None
  end.

Lemma timely_run_reach n l : forall s s', timely_reach n s -> timely_run l s = Some s' -> timely_reach n s'.
Proof.
  induction l as [|i l IH]; intros s s' Hr Hs; cbn [timely_run] in Hs; [by injection Hs as <-|].
  destruct (timelyb i s) eqn:E; [|done]. destruct (flush_step i s) as [s1|] eqn:E1; [|done].
  apply (IH s1); [|done]. econstructor; [done|done|]. intros Hi. unfold timelyb in E. rewrite Hi in E.
  apply existsb_exists in E as (p & Hin%list_elem_of_In & Hp). apply list_elem_of_lookup in Hin as [j Hj].
  exists j, p. split; [done|]. by destruct p.
Qed.

(** Thread 1 asks for a flush during the pass of thread 0, which runs another. *)
Definition demo_schedule : list nat := [0; 0; 0; 0; 0; 0; 0; 1; 1; 1; 0; 0; 0; 0; 0; 0; 0; 0; 0; 0]%nat.

Lemma sq_flush_no_loss_witness :
  exists s, timely_run demo_schedule (flush_start 2) = Some s /\ covered s = posted s /\ posted s = 2%nat.
Proof.
  eexists. split; [vm_compute; reflexivity|]. split; [|reflexivity].
  apply (sq_flush_no_loss 2).
  - apply (timely_run_reach 2 demo_schedule (flush_start 2)); [constructor|vm_compute; reflexivity].
  - reflexivity.
  - intros [|[|i]] p H; [by injection H as <-|by injection H as <-|done].
Defined.
