(* ===== verification/SqExamples.v ===== *)
(** * SqExamples: the send queue's theorems at concrete inputs *)
From S2P Require Import Prelude Sq SqInv SqAcct SqOps SqFlush SqEnq SqSys SqThms.

(** Station 1 and the broadcast peer 9; two packets and an urgent one for the
    station, and a multicast packet cloned to it. *)
Definition pkt (id : Z) : nbuf := Nbuf id false false 0 (Some 1) None.
Definition eapol : nbuf := Nbuf 7 true false 0 (Some 1) None.
Definition mcast_pkt : nbuf := Nbuf 20 false false 0 None None.
Definition mcast_begun : nbuf := Nbuf 20 false false 0 None (Some 0).

Definition demo_ops : list sq_op :=
  [OpPeerInit 1 2 None; OpPeerInit 9 64 (Some 0);
   OpEnqueue 9 AC_BE false (pkt 1); OpEnqueue 9 AC_BE false (pkt 2); OpEnqueue 9 AC_BE false (pkt 3);
   OpEnqueue 9 AC_BE false eapol;
   OpCloneBegin true AC_VI false mcast_pkt; OpClone 9 (Some 21) mcast_begun 1; OpClone 9 (Some 22) mcast_begun 1].

Definition demo : sq_state := sq_run demo_ops.

Lemma reach_pair ops : ops_okb ops ([], sq_init) = true -> sq_reach ((sq_run ops).1, (sq_run ops).2).
Proof. intros H. rewrite <- surjective_pairing. by apply run_reach, ops_okb_ok. Qed.

Lemma demo_reach : sq_reach (demo.1, demo.2).
Proof. apply reach_pair. vm_compute. reflexivity. Qed.

(** Two clones and the original hold the shared data of the multicast packet. *)
Lemma sq_accounting_witness :
  size (ac_of demo.2 AC_BE) = 3 /\ size (ac_of demo.2 AC_VI) = 1 /\
  length (waiting demo.2 AC_VI) = 2%nat /\ exists x, extras demo.2 !! 0 = Some x /\ ref_cnt x = 3 /\ 0 < ref_cnt x.
Proof.
  destruct (sq_accounting demo.1 demo.2 demo_reach) as (_ & H & _).
  split; [vm_compute; reflexivity|]. split; [vm_compute; reflexivity|]. split; [vm_compute; reflexivity|].
  exists (Extra 3 AC_VI false). assert (extras demo.2 !! 0 = Some (Extra 3 AC_VI false)) as Hx by (vm_compute; reflexivity).
  split; [exact Hx|]. split; [reflexivity|]. apply (H 0 _ Hx).
Defined.

(** The station may have two packets in the hardware: the urgent one goes
    first, then the first clone; the rest waits. *)
Definition accept : nat -> nbuf -> Z := fun _ _ => MTLK_ERR_OK.
Definition flushed_demo : sq_state := sq_run (demo_ops ++ [OpFlush accept []]).

Definition in_turnb (p : Z) (ac : nat) (l : list sq_ev) : bool :=
  forallb (fun e => match e with SqPush q i true _ | SqCancel q i _ => negb (on_chan p ac q i) | _ => true end) l.

Lemma in_turnb_ok p ac l : in_turnb p ac l = true -> in_turn p ac l.
Proof.
  unfold in_turnb. rewrite forallb_forall. intros H e He%list_elem_of_In. specialize (H e He).
  destruct e as [q i [] nb| | | | | | | |]; try exact I; by apply negb_true_iff in H.
Qed.

Lemma sq_refines_fifo_witness :
  departed 1 AC_BE (log flushed_demo.2) ++ buf_of flushed_demo.2 1 AC_BE = [pkt 1; pkt 2; pkt 3] /\
  map nb_id (departed 1 AC_VO (log flushed_demo.2)) = [7] /\ map nb_id (departed 1 AC_VI (log flushed_demo.2)) = [21].
Proof.
  split; [|split; vm_compute; reflexivity].
  assert (sq_reach (flushed_demo.1, flushed_demo.2)) as Hr by (apply reach_pair; vm_compute; reflexivity).
  destruct (sq_refines_fifo flushed_demo.1 flushed_demo.2 1 AC_BE Hr) as (_ & _ & H).
  etransitivity; [apply H|vm_compute; reflexivity].
  apply in_turnb_ok. vm_compute. reflexivity.
Defined.

Lemma sq_flush_complete_witness :
  room demo.2 /\ buf_of demo.2 1 AC_BE <> [] /\ idle (mtlk_sq_flush accept [1] demo.2) 1 AC_BE.
Proof.
  assert (room demo.2) as Hr by (apply (bool_decide_unpack (map_Forall (fun _ c => 0 <= used c /\ used c + total demo.2 < 2 ^ 32) (peers demo.2))); vm_compute; exact I).
  split; [exact Hr|]. split; [vm_compute; discriminate|].
  destruct (sq_flush_complete accept [1] demo.1 demo.2 demo_reach) as (_ & _ & m & _ & Hi & [->|Hs] & _).
  - vm_compute. reflexivity.
  - exact Hr.
  - apply (Hi 1%nat); [unfold NTS_PRIORITIES; lia|]. apply (bool_decide_unpack (is_Some _)). vm_compute. exact I.
  - exfalso. destruct Hs as [Hs|Hs]; [vm_compute in Hs; discriminate|]. apply Hs. intros n nb. left. reflexivity.
Defined.

(** The best-effort limits are 800 and 600: a fourth packet is accepted. *)
Lemma sq_enqueue_spec_witness :
  let '(res, s') := mtlk_sq_enqueue 9 AC_BE false (pkt 4) demo.2 in
  res = MTLK_ERR_OK /\ buf_of s' 1 AC_BE = [pkt 1; pkt 2; pkt 3; pkt 4] /\ size (ac_of s' AC_BE) = 4.
Proof.
  pose proof (sq_enqueue_spec 9 AC_BE false (pkt 4) demo.1 demo.2 demo_reach) as H.
  change (dest 9 (pkt 4)) with 1 in H. change (urgent (pkt 4)) with false in H. cbv zeta iota in H.
  destruct (mtlk_sq_enqueue 9 AC_BE false (pkt 4) demo.2) as [res s'].
  destruct H as (H1 & _ & H3 & H4 & _).
  - apply (bool_decide_unpack (is_Some _)). vm_compute. exact I.
  - unfold AC_BE, NTS_PRIORITIES. lia.
  - reflexivity.
  - split; [rewrite H1; vm_compute; reflexivity|]. split; [rewrite H3|rewrite H4]; vm_compute; reflexivity.
Defined.

Lemma set_limits_res l s r r' s' : fst <$> sq_set_limits l s = Some r' -> sq_set_limits l s = Some (r, s') -> r = r'.
Proof. intros H E. rewrite E in H. cbn in H. congruence. Qed.

(** Asking for a limit of 65536 leaves 0. Asking for a limit of 1 rounds the
    limit per peer to 0, and asking for 800 again does not bring it back. *)
Lemma sq_limit_errors_witness :
  (exists s', sq_set_limits [65536; 50; 1100; 100] demo.2 = Some (MTLK_ERR_OK, s') /\
     sq_get_peer_limits s' NTS_PRIORITIES = None /\ sq_set_limits [800; 50; 1100; 100] s' = None) /\
  (exists s' s'', sq_set_limits [1; 50; 1100; 100] demo.2 = Some (MTLK_ERR_OK, s') /\
     sq_set_limits [800; 50; 1100; 100] s' = Some (MTLK_ERR_OK, s'') /\ peer_queue_limit (ac_of s'' AC_BE) = 0 /\
     (mtlk_sq_enqueue 9 AC_BE false (pkt 4) s'').1 = MTLK_ERR_NO_RESOURCES).
Proof.
  assert (AC_BE < NTS_PRIORITIES)%nat as Hi by (unfold AC_BE, NTS_PRIORITIES; lia).
  assert (forall a, 0 < a -> acceptable [a; 50; 1100; 100]) as Hacc.
  { intros a Ha. split; [reflexivity|]. repeat constructor; lia. }
  split.
  - destruct (sq_limit_errors demo.1 demo.2 AC_BE demo_reach Hi) as [H _].
    destruct (sq_set_limits [65536; 50; 1100; 100] demo.2) as [[r s']|] eqn:E; [|vm_compute in E; discriminate].
    assert (r = MTLK_ERR_OK) as -> by (eapply set_limits_res; [|exact E]; vm_compute; reflexivity).
    exists s'. split; [reflexivity|].
    destruct (H [65536; 50; 1100; 100] s' 65536 (Hacc 65536 ltac:(lia)) E eq_refl eq_refl) as (H1 & H2 & _).
    split; [exact H1|]. apply H2, Hacc. lia.
  - set (ops := demo_ops ++ [OpSetLimits [1; 50; 1100; 100]]).
    assert (sq_reach ((sq_run ops).1, (sq_run ops).2)) as Hr by (apply reach_pair; vm_compute; reflexivity).
    destruct (sq_limit_errors (sq_run ops).1 (sq_run ops).2 AC_BE Hr Hi) as [_ H].
    destruct (sq_set_limits [800; 50; 1100; 100] (sq_run ops).2) as [[r s'']|] eqn:E; [|vm_compute in E; discriminate].
    assert (r = MTLK_ERR_OK) as -> by (eapply set_limits_res; [|exact E]; vm_compute; reflexivity).
    destruct (H (ltac:(vm_compute; reflexivity)) [800; 50; 1100; 100] s'' (Hacc 800 ltac:(lia)) E) as [H1 H2].
    exists (sq_run ops).2, s''. split; [vm_compute; reflexivity|]. split; [exact E|]. split; [exact H1|]. apply H2. reflexivity.
Defined.
