(* ===== verification/Szr.v ===== *)
(** * Szr: the command serializer (wireless/driver/shared/mtlk_serializer.c, linux/mtlk_serializer_osdep.c)

    Commands wait in one list per priority and one kernel thread executes them.
    Every critical section, callback and wait is a step of its own, so callers,
    cancellers, blocked executions, the thread and the stop of the serializer
    interleave as they do on several processors.  Command objects belong to the
    callers: [cmds] holds the ones that exist, and reading another one is a
    [Fault]. *)
From S2P Require Import Prelude.

Definition MTLK_ERR_TIMEOUT : Z := -4.
Definition MTLK_ERR_NOT_READY : Z := -14.
Definition MTLK_ERR_BUSY : Z := -22.
Definition MTLK_ERR_CANCELED : Z := -24.

(** ** Data *)

Inductive serializer_result_t := MTLK_CMD_EXECUTED | MTLK_CMD_CANCELED.

#[export] Instance serializer_result_eq_dec : EqDecision serializer_result_t.
Proof. solve_decision. Defined.

(** A completion callback with its context: one of the caller's own, or
    [_szr_execute_blocked_cmpl_clb] with the context on the stack of the blocked
    execution named. *)
Inductive completion := UserClb (ctx : Z) | BlockedClb (frame : Z).

#[export] Instance completion_eq_dec : EqDecision completion.
Proof. solve_decision. Defined.

Record mtlk_command_t := Command {
  is_in_queue : bool;
  priority : nat;
  post_exec : completion;
  issuer_slid : Z
}.

(** Where a blocked execution stands, with its [szr_execute_blocked_cmpl_ctx_t]. *)
Inductive bpc := BWait | BCancel | BCancelClb | BWaitInf.

Record bctx := BCtx {
  b_cmd : Z;
  completion_event : bool;
  szr_result : serializer_result_t;
  b_pc : bpc
}.

(** The next statement of the serializer's thread. [TScan i e] is about to look
    at priority [i - 1] with [queues_are_empty = e]. *)
Inductive tpc := TWait | TCheck | TReset | TScan (i : nat) (e : bool) | TExec | TPost | TClear | TExit.

(** The next statement of [mtlk_serializer_start] and [mtlk_serializer_stop]. *)
Inductive spc := SStopped | SAcquire | SSetRunning | SRunning | SRelease | SWaitPending | SSetStop | SNotify | SJoin.

#[export] Instance spc_eq_dec : EqDecision spc.
Proof. solve_decision. Defined.

(** What happened, for the statements about it. *)
Inductive szr_ev :=
| EvAccept (p : nat) (c : Z) (k : completion)
| EvTake (p : nat) (c : Z)
| EvRemove (p : nat) (c : Z)
| EvRun (c : Z) (k : completion)
| EvDone (r : serializer_result_t) (c : Z) (k : completion)
| EvReturn (frame : Z) (res : Z).

Record mtlk_serializer_t := Szr {
  commands : list (list Z);
  num_priorities : nat;
  tasks_pending : Z;
  pending_evt : bool;
  is_running : bool;
  current_command : option Z;
  new_event : bool;
  osdep_stop : bool;
  szr_thread : tpc;
  szr_control : spc;
  cancelling : list (Z * option Z);
  cmds : gmap Z mtlk_command_t;
  ctxs : gmap Z bctx;
  szr_log : list szr_ev
}.

(** A statement ends, waits for somebody else, or touches an object that does not exist. *)
Inductive outcome := Next (s : mtlk_serializer_t) | Waits | Fault.

(** ** Setters *)

Section Setters.
Context (s : mtlk_serializer_t).

Definition set_commands q := Szr q (num_priorities s) (tasks_pending s) (pending_evt s) (is_running s) (current_command s) (new_event s) (osdep_stop s) (szr_thread s) (szr_control s) (cancelling s) (cmds s) (ctxs s) (szr_log s).
Definition set_pending t e := Szr (commands s) (num_priorities s) t e (is_running s) (current_command s) (new_event s) (osdep_stop s) (szr_thread s) (szr_control s) (cancelling s) (cmds s) (ctxs s) (szr_log s).
Definition set_running r := Szr (commands s) (num_priorities s) (tasks_pending s) (pending_evt s) r (current_command s) (new_event s) (osdep_stop s) (szr_thread s) (szr_control s) (cancelling s) (cmds s) (ctxs s) (szr_log s).
Definition set_current c := Szr (commands s) (num_priorities s) (tasks_pending s) (pending_evt s) (is_running s) c (new_event s) (osdep_stop s) (szr_thread s) (szr_control s) (cancelling s) (cmds s) (ctxs s) (szr_log s).
Definition set_event e := Szr (commands s) (num_priorities s) (tasks_pending s) (pending_evt s) (is_running s) (current_command s) e (osdep_stop s) (szr_thread s) (szr_control s) (cancelling s) (cmds s) (ctxs s) (szr_log s).
Definition set_stop b := Szr (commands s) (num_priorities s) (tasks_pending s) (pending_evt s) (is_running s) (current_command s) (new_event s) b (szr_thread s) (szr_control s) (cancelling s) (cmds s) (ctxs s) (szr_log s).
Definition set_thread t := Szr (commands s) (num_priorities s) (tasks_pending s) (pending_evt s) (is_running s) (current_command s) (new_event s) (osdep_stop s) t (szr_control s) (cancelling s) (cmds s) (ctxs s) (szr_log s).
Definition set_control c := Szr (commands s) (num_priorities s) (tasks_pending s) (pending_evt s) (is_running s) (current_command s) (new_event s) (osdep_stop s) (szr_thread s) c (cancelling s) (cmds s) (ctxs s) (szr_log s).
Definition set_cancelling l := Szr (commands s) (num_priorities s) (tasks_pending s) (pending_evt s) (is_running s) (current_command s) (new_event s) (osdep_stop s) (szr_thread s) (szr_control s) l (cmds s) (ctxs s) (szr_log s).
Definition set_cmds m := Szr (commands s) (num_priorities s) (tasks_pending s) (pending_evt s) (is_running s) (current_command s) (new_event s) (osdep_stop s) (szr_thread s) (szr_control s) (cancelling s) m (ctxs s) (szr_log s).
Definition set_ctxs m := Szr (commands s) (num_priorities s) (tasks_pending s) (pending_evt s) (is_running s) (current_command s) (new_event s) (osdep_stop s) (szr_thread s) (szr_control s) (cancelling s) (cmds s) m (szr_log s).
Definition szr_record e := Szr (commands s) (num_priorities s) (tasks_pending s) (pending_evt s) (is_running s) (current_command s) (new_event s) (osdep_stop s) (szr_thread s) (szr_control s) (cancelling s) (cmds s) (ctxs s) (szr_log s ++ [e]).
End Setters.

(** ** The remove lock (mtlkrmlock.h) *)

Definition mtlk_rmlock_acquire (s : mtlk_serializer_t) : mtlk_serializer_t :=
  set_pending s (tasks_pending s + 1) (pending_evt s).

Definition mtlk_rmlock_release (s : mtlk_serializer_t) : mtlk_serializer_t :=
  let n := tasks_pending s - 1 in set_pending s n (if n =? 0 then true else pending_evt s).

(** ** The operations *)

Definition mtlk_serializer_init (n : nat) : mtlk_serializer_t :=
  Szr (replicate n []) n 0 false false None false false TExit SStopped [] ∅ ∅ [].

Definition mtlk_command_init (c slid : Z) (s : mtlk_serializer_t) : mtlk_serializer_t :=
  set_cmds s (<[c := Command false 0 (UserClb 0) slid]> (cmds s)).

(** The object is the caller's to free afterwards. *)
Definition mtlk_command_cleanup (c : Z) (s : mtlk_serializer_t) : mtlk_serializer_t :=
  set_cmds s (delete c (cmds s)).

Definition _mtlk_serializer_osdep_notify (s : mtlk_serializer_t) : mtlk_serializer_t := set_event s true.

Definition queue_at (s : mtlk_serializer_t) (p : nat) : list Z := commands s !!! p.

(** Runs under the lock from its first to its last statement; [None] where it
    reads an object that does not exist. *)
Definition mtlk_serializer_enqueue (p : nat) (c : Z) (k : completion) (s : mtlk_serializer_t) : option (Z * mtlk_serializer_t) :=
  if negb (is_running s) then Some (MTLK_ERR_NOT_READY, s)
  else cmd ← cmds s !! c;
    if is_in_queue cmd then Some (MTLK_ERR_BUSY, s)
    else
      let s := set_commands s (<[p := queue_at s p ++ [c]]> (commands s)) in
      let s := set_cmds s (<[c := Command true p k (issuer_slid cmd)]> (cmds s)) in
      let s := _mtlk_serializer_osdep_notify (mtlk_rmlock_acquire s) in
      Some (MTLK_ERR_OK, szr_record s (EvAccept p c k)).

(** [mtlk_serializer_cancel] up to the release of the lock. *)
Definition cancel_locked (c : Z) (s : mtlk_serializer_t) : option (bool * mtlk_serializer_t) :=
  cmd ← cmds s !! c;
  if is_in_queue cmd then
    let p := priority cmd in
    let s := set_commands s (<[p := filter (fun x => x <> c) (queue_at s p)]> (commands s)) in
    let s := set_cmds s (<[c := Command false p (post_exec cmd) (issuer_slid cmd)]> (cmds s)) in
    Some (true, szr_record (mtlk_rmlock_release s) (EvRemove p c))
  else Some (false, s).

(** The call of a completion callback; [_szr_execute_blocked_cmpl_clb] writes to
    the context of its blocked execution. *)
Definition call_post_exec (r : serializer_result_t) (c : Z) (s : mtlk_serializer_t) : option mtlk_serializer_t :=
  cmd ← cmds s !! c;
  match post_exec cmd with
  | UserClb _ => Some (szr_record s (EvDone r c (post_exec cmd)))
  | BlockedClb k =>
      b ← ctxs s !! k;
      Some (szr_record (set_ctxs s (<[k := BCtx (b_cmd b) true r (b_pc b)]> (ctxs s))) (EvDone r c (post_exec cmd)))
  end.

Definition to_outcome (o : option mtlk_serializer_t) : outcome :=
  match o with Some s => Next s | None => Fault end.

(** The locked section of [_mtlk_serializer_process_commands] for priority [i]:
    the thread goes on to execute what it took, or to the next priority. *)
Definition take_command (i : nat) (e : bool) (s : mtlk_serializer_t) : option mtlk_serializer_t :=
  match queue_at s i with
  | [] => Some (set_thread s (match current_command s with Some _ => TExec | None => TScan i e end))
  | c :: l =>
      cmd ← cmds s !! c;
      let s := set_commands s (<[i := l]> (commands s)) in
      let s := set_cmds s (<[c := Command false (priority cmd) (post_exec cmd) (issuer_slid cmd)]> (cmds s)) in
      let s := mtlk_rmlock_release (set_current s (Some c)) in
      Some (set_thread (szr_record s (EvTake i c)) TExec)
  end.

(** One statement of [thread] and of [_mtlk_serializer_process_commands], which it calls. *)
Definition thread_step (s : mtlk_serializer_t) : outcome :=
  match szr_thread s with
  | TWait => if new_event s then Next (set_thread s TCheck) else Waits
  | TCheck => Next (set_thread s (if osdep_stop s then TExit else TReset))
  | TReset => Next (set_thread (set_event s false) (TScan (num_priorities s) true))
  | TScan 0 e => Next (set_thread s (if e then TWait else TScan (num_priorities s) true))
  | TScan (S i) e => to_outcome (take_command i e s)
  | TExec => to_outcome (c ← current_command s; cmd ← cmds s !! c;
               Some (set_thread (szr_record s (EvRun c (post_exec cmd))) TPost))
  | TPost => to_outcome (c ← current_command s; s ← call_post_exec MTLK_CMD_EXECUTED c s; Some (set_thread s TClear))
  | TClear => Next (set_thread (set_current s None) (TScan (num_priorities s) true))
  | TExit => Waits
  end.

(** One statement of [mtlk_serializer_start] and then of [mtlk_serializer_stop]. *)
Definition control_step (s : mtlk_serializer_t) : outcome :=
  match szr_control s with
  | SStopped =>
      let s := set_pending s 0 false in
      Next (set_control (set_thread (set_event (set_stop s false) false) TWait) SAcquire)
  | SAcquire => Next (set_control (mtlk_rmlock_acquire s) SSetRunning)
  | SSetRunning => Next (set_control (set_running s true) SRunning)
  | SRunning => Next (set_control (set_running s false) SRelease)
  | SRelease => Next (set_control (mtlk_rmlock_release s) SWaitPending)
  | SWaitPending => if pending_evt s then Next (set_control s SSetStop) else Waits
  | SSetStop => Next (set_control (set_stop s true) SNotify)
  | SNotify => Next (set_control (_mtlk_serializer_osdep_notify s) SJoin)
  | SJoin => match szr_thread s with TExit => Next (set_control s SStopped) | _ => Waits end
  end.

(** ** Blocked execution *)

Definition set_bpc (k : Z) (b : bctx) (pc : bpc) (s : mtlk_serializer_t) : mtlk_serializer_t :=
  set_ctxs s (<[k := BCtx (b_cmd b) (completion_event b) (szr_result b) pc]> (ctxs s)).

(** The function returns and its stack frame is gone. *)
Definition blocked_return (k : Z) (res : Z) (s : mtlk_serializer_t) : mtlk_serializer_t :=
  szr_record (set_ctxs s (delete k (ctxs s))) (EvReturn k res).

Definition result_code (r : serializer_result_t) : Z :=
  match r with MTLK_CMD_EXECUTED => MTLK_ERR_OK | MTLK_CMD_CANCELED => MTLK_ERR_CANCELED end.

Definition execute_blocked_begin (k : Z) (p : nat) (c : Z) (s : mtlk_serializer_t) : option mtlk_serializer_t :=
  '(res, s) ← mtlk_serializer_enqueue p c (BlockedClb k) s;
  if negb (res =? MTLK_ERR_OK) then Some (szr_record s (EvReturn k res))
  else Some (set_ctxs s (<[k := BCtx c false MTLK_CMD_CANCELED BWait]> (ctxs s))).

(** The next statement; [expired] is the time running out in the first wait. *)
Definition execute_blocked_step (expired : bool) (k : Z) (s : mtlk_serializer_t) : outcome :=
  match ctxs s !! k with
  | None => Waits
  | Some b =>
      match b_pc b with
      | BWait =>
          if completion_event b then Next (blocked_return k (result_code (szr_result b)) s)
          else if expired then Next (set_bpc k b BCancel s) else Waits
      | BCancel =>
          match cancel_locked (b_cmd b) s with
          | None => Fault
          | Some (true, s) => Next (set_bpc k b BCancelClb (set_cancelling s ((b_cmd b, Some k) :: cancelling s)))
          | Some (false, s) => Next (set_bpc k b BWaitInf s)
          end
      | BCancelClb =>
          to_outcome (s ← call_post_exec MTLK_CMD_CANCELED (b_cmd b) s;
            Some (blocked_return k MTLK_ERR_TIMEOUT
                    (set_cancelling s (filter (fun x => x.1 <> b_cmd b) (cancelling s)))))
      | BWaitInf =>
          if completion_event b then Next (blocked_return k (result_code (szr_result b)) s) else Waits
      end
  end.

(** ** Enumeration *)

Section Enum.
Context {A : Type} (enum_clb : A -> mtlk_command_t -> bool -> A * bool).

(** The callback reads the command, so the command must exist. *)
Definition enum_one (s : mtlk_serializer_t) (is_current : bool) (a : A) (c : Z) : option (A * bool) :=
  cmd ← cmds s !! c; Some (enum_clb a cmd is_current).

Fixpoint enum_list (s : mtlk_serializer_t) (a : A) (l : list Z) : option (A * bool) :=
  match l with
  | [] => Some (a, true)
  | c :: l => '(a, continue_enum) ← enum_one s false a c;
      if (continue_enum : bool) then enum_list s a l else Some (a, false)
  end.

Fixpoint enum_priorities (s : mtlk_serializer_t) (a : A) (i : nat) : option (A * bool) :=
  match i with
  | O => Some (a, true)
  | S i => '(a, continue_enum) ← enum_list s a (queue_at s i);
      if (continue_enum : bool) then enum_priorities s a i else Some (a, false)
  end.

Definition mtlk_serializer_enum_commands (s : mtlk_serializer_t) (a : A) : option A :=
  '(a, continue_enum) ← match current_command s with
                        | Some c => enum_one s true a c
                        | None => Some (a, true)
                        end;
  if (continue_enum : bool) then fst <$> enum_priorities s a (num_priorities s) else Some a.
End Enum.

(** ** The system *)

Inductive szr_label :=
| LInit (c slid : Z)
| LCleanup (c : Z)
| LEnqueue (p : nat) (c : Z) (ctx : Z)
| LCancel (c : Z)
| LCancelClb (c : Z)
| LThread
| LControl
| LBlock (k : Z) (p : nat) (c : Z)
| LBlockStep (expired : bool) (k : Z).

Definition szr_step (l : szr_label) (s : mtlk_serializer_t) : outcome :=
  match l with
  | LInit c slid => Next (mtlk_command_init c slid s)
  | LCleanup c => Next (mtlk_command_cleanup c s)
  | LEnqueue p c ctx => to_outcome (snd <$> mtlk_serializer_enqueue p c (UserClb ctx) s)
  | LCancel c => to_outcome ('(removed, s) ← cancel_locked c s;
      Some (if (removed : bool) then set_cancelling s ((c, None) :: cancelling s) else s))
  | LCancelClb c =>
      if bool_decide ((c, None) ∈ cancelling s) then
        to_outcome (s ← call_post_exec MTLK_CMD_CANCELED c s;
          Some (set_cancelling s (filter (fun x => x.1 <> c) (cancelling s))))
      else Waits
  | LThread => thread_step s
  | LControl => control_step s
  | LBlock k p c => to_outcome (execute_blocked_begin k p c s)
  | LBlockStep expired k => execute_blocked_step expired k s
  end.

(** ** What callers must respect *)

Definition executing (s : mtlk_serializer_t) : list Z :=
  match szr_thread s with TExec | TPost => option_list (current_command s) | _ => [] end.

(** Commands accepted whose completion callback has not been called. *)
Definition busy (s : mtlk_serializer_t) : list Z :=
  concat (commands s) ++ executing s ++ (cancelling s).*1.

Definition in_frame (s : mtlk_serializer_t) (c : Z) : Prop :=
  exists k b, ctxs s !! k = Some b /\ b_cmd b = c.

Definition idle (s : mtlk_serializer_t) (c : Z) : Prop := c ∉ busy s /\ ~ in_frame s c.

(** A command is enqueued while it waits (and refused) or while nobody has it:
    not from its being taken until its completion callback. *)
Definition may_enqueue (s : mtlk_serializer_t) (p : nat) (c : Z) : Prop :=
  (p < num_priorities s)%nat /\ is_Some (cmds s !! c) /\ (c ∈ concat (commands s) \/ idle s c).

Definition polite (l : szr_label) (s : mtlk_serializer_t) : Prop :=
  match l with
  | LInit c _ | LCleanup c => idle s c
  | LEnqueue p c _ => may_enqueue s p c
  | LCancel c => is_Some (cmds s !! c)
  | LBlock k p c => may_enqueue s p c /\ ctxs s !! k = None /\ forall e, e ∈ szr_log s -> forall p' c' r, e <> EvReturn k r /\ e <> EvAccept p' c' (BlockedClb k)
  | LCancelClb _ | LThread | LControl | LBlockStep _ _ => True
  end.

Inductive szr_reach (n : nat) : mtlk_serializer_t -> Prop :=
| szr_reach_init : szr_reach n (mtlk_serializer_init n)
| szr_reach_step l s s' : szr_reach n s -> polite l s -> szr_step l s = Next s' -> szr_reach n s'.
