(* ===== verification/SzrInv.v ===== *)
(** * SzrInv: the invariants of the command serializer

    [binv] speaks of the commands somebody is busy with, as a multiset, their
    completion callbacks, the blocked executions and the log; [sinv] of the
    lists, the counters, the thread and the control of the serializer. *)
From S2P Require Import Prelude Szr.
From Stdlib Require Import Permutation.

(** ** What the log says *)

Definition accepted (l : list szr_ev) : list (Z * completion) :=
  omap (fun e => match e with EvAccept _ c k => Some (c, k) | _ => None end) l.
Definition runs (l : list szr_ev) : list (Z * completion) :=
  omap (fun e => match e with EvRun c k => Some (c, k) | _ => None end) l.
Definition completed (l : list szr_ev) : list (Z * completion) :=
  omap (fun e => match e with EvDone _ c k => Some (c, k) | _ => None end) l.
Definition executed (l : list szr_ev) : list (Z * completion) :=
  omap (fun e => match e with EvDone MTLK_CMD_EXECUTED c k => Some (c, k) | _ => None end) l.

Lemma accepted_app l1 l2 : accepted (l1 ++ l2) = accepted l1 ++ accepted l2.
Proof. apply omap_app. Qed.
Lemma runs_app l1 l2 : runs (l1 ++ l2) = runs l1 ++ runs l2.
Proof. apply omap_app. Qed.
Lemma completed_app l1 l2 : completed (l1 ++ l2) = completed l1 ++ completed l2.
Proof. apply omap_app. Qed.
Lemma executed_app l1 l2 : executed (l1 ++ l2) = executed l1 ++ executed l2.
Proof. apply omap_app. Qed.
Create Rewrite HintDb szr.
#[export] Hint Rewrite accepted_app runs_app completed_app executed_app : szr.

(** Events that neither accept nor complete a command. *)
Definition neutral (e : szr_ev) : Prop :=
  match e with EvTake _ _ | EvRemove _ _ | EvRun _ _ | EvReturn _ _ => True | _ => False end.

(** ** Lists of lists *)

Lemma concat_split {A} (q : list (list A)) p l :
  q !! p = Some l -> exists rest, forall l', concat (<[p := l']> q) ≡ₚ l' ++ rest.
Proof.
  intros H. exists (concat (take p q) ++ concat (drop (S p) q)). intros l'.
  rewrite insert_take_drop by (by eapply lookup_lt_Some). rewrite concat_app. cbn.
  apply Permutation_app_swap_app.
Qed.

Lemma concat_insert_push {A} (q : list (list A)) p l x :
  q !! p = Some l -> concat (<[p := l ++ [x]]> q) ≡ₚ x :: concat q.
Proof.
  intros H. destruct (concat_split _ _ _ H) as [r Hr]. rewrite (Hr (l ++ [x])).
  rewrite <-(list_insert_id q p l H) at 1. rewrite (Hr l). by rewrite <-app_assoc, Permutation_middle.
Qed.

Lemma concat_insert_less {A} (q : list (list A)) p l l' x :
  q !! p = Some l -> l ≡ₚ x :: l' -> concat q ≡ₚ x :: concat (<[p := l']> q).
Proof.
  intros H Hl. destruct (concat_split _ _ _ H) as [r Hr]. rewrite (Hr l').
  rewrite <-(list_insert_id q p l H) at 1. by rewrite (Hr l), Hl.
Qed.

Lemma elem_of_concat {A} (q : list (list A)) x : x ∈ concat q <-> exists p l, q !! p = Some l /\ x ∈ l.
Proof.
  rewrite list_elem_of_In, in_concat. setoid_rewrite <-list_elem_of_In. split.
  - intros (l & [p Hp]%list_elem_of_lookup & Hx). eauto.
  - intros (p & l & Hp & Hx). exists l. split; [by eapply list_elem_of_lookup_2|done].
Qed.

Lemma filter_ne_notin (l : list Z) c : c ∉ l -> filter (fun x => x <> c) l = l.
Proof.
  induction l as [|x l IH]; intros Hn; [done|]. rewrite filter_cons_True by set_solver.
  rewrite IH; set_solver.
Qed.

Lemma filter_ne_perm (l : list Z) c : NoDup l -> c ∈ l -> l ≡ₚ c :: filter (fun x => x <> c) l.
Proof.
  induction l as [|x l IH]; intros Hn Hin; [set_solver|]. apply NoDup_cons in Hn as [Hx Hn].
  destruct (decide (x = c)) as [->|Hne].
  - rewrite filter_cons_False by auto. by rewrite filter_ne_notin.
  - rewrite filter_cons_True by done. apply elem_of_cons in Hin as [->|Hin]; [done|].
    rewrite (IH Hn Hin) at 1. constructor.
Qed.

Lemma filter_fst_perm {A} (l : list (Z * A)) c a :
  NoDup l.*1 -> (c, a) ∈ l -> l.*1 ≡ₚ c :: (filter (fun x => x.1 <> c) l).*1.
Proof.
  induction l as [|[x b] l IH]; intros Hn Hin; [set_solver|]. cbn in Hn. apply NoDup_cons in Hn as [Hx Hn].
  destruct (decide (x = c)) as [->|Hne].
  - rewrite filter_cons_False by (cbn; auto). cbn. f_equiv.
    clear IH Hin Hn. induction l as [|[y d] l IH]; [done|].
    rewrite filter_cons_True by (cbn; set_solver). cbn. f_equiv. apply IH. set_solver.
  - rewrite filter_cons_True by done. cbn. apply elem_of_cons in Hin as [?|Hin]; [simplify_eq|].
    rewrite (IH Hn Hin) at 1. constructor.
Qed.

(** ** Commands, callbacks, frames and the log *)

Definition post_of (P : gmap Z completion) (c : Z) : completion := default (UserClb 0) (P !! c).

Record binv (B : list Z) (P : gmap Z completion) (X : gmap Z bctx) (L : list szr_ev) : Prop := {
  b_nodup : NoDup B;
  b_alive : forall c, c ∈ B -> is_Some (P !! c);
  b_frame : forall k b, X !! k = Some b -> is_Some (P !! b_cmd b) /\
    if completion_event b then b_cmd b ∉ B /\ EvDone (szr_result b) (b_cmd b) (BlockedClb k) ∈ L
    else b_cmd b ∈ B /\ P !! b_cmd b = Some (BlockedClb k);
  b_owner : forall c k, c ∈ B -> P !! c = Some (BlockedClb k) ->
    exists b, X !! k = Some b /\ b_cmd b = c /\ completion_event b = false;
  b_acc : accepted L ≡ₚ completed L ++ map (fun c => (c, post_of P c)) B
}.

Section binv.
Context (B : list Z) (P : gmap Z completion) (X : gmap Z bctx) (L : list szr_ev).

Lemma binv_perm B' : binv B P X L -> B ≡ₚ B' -> binv B' P X L.
Proof.
  intros [Hn Ha Hf Ho Hc] Hp. split.
  - by rewrite <-Hp.
  - intros c. rewrite <-Hp. apply Ha.
  - intros k b Hk. destruct (Hf k b Hk) as [Hs Hb]. split; [done|].
    destruct (completion_event b); by rewrite <-Hp.
  - intros c k. rewrite <-Hp. apply Ho.
  - by rewrite <-Hp.
Qed.

Lemma binv_neutral e : binv B P X L -> neutral e -> binv B P X (L ++ [e]).
Proof.
  intros [Hn Ha Hf Ho Hc] He. split; auto.
  - intros k b Hk. destruct (Hf k b Hk) as [Hs Hb]. split; [done|].
    destruct (completion_event b); [|done]. set_solver.
  - autorewrite with szr. destruct e; try done; cbn; by rewrite !app_nil_r.
Qed.

Lemma post_map_insert c x : c ∉ B -> map (fun d => (d, post_of (<[c := x]> P) d)) B = map (fun d => (d, post_of P d)) B.
Proof.
  intros Hc. apply map_ext_in. intros d Hd%list_elem_of_In. unfold post_of.
  by rewrite lookup_insert_ne by set_solver.
Qed.

Lemma binv_insert c x :
  binv B P X L -> c ∉ B -> (forall k b, X !! k = Some b -> b_cmd b <> c) -> binv B (<[c := x]> P) X L.
Proof.
  intros [Hn Ha Hf Ho Hc] Hni Hx. split; auto.
  - intros d Hd. rewrite lookup_insert_ne by set_solver. auto.
  - intros k b Hk. rewrite lookup_insert_ne by (by apply not_eq_sym, (Hx k)). auto.
  - intros d k Hd. rewrite lookup_insert_ne by set_solver. auto.
  - by rewrite post_map_insert.
Qed.

Lemma binv_delete c :
  binv B P X L -> c ∉ B -> (forall k b, X !! k = Some b -> b_cmd b <> c) -> binv B (delete c P) X L.
Proof.
  intros [Hn Ha Hf Ho Hc] Hni Hx. split; auto.
  - intros d Hd. rewrite lookup_delete_ne by set_solver. auto.
  - intros k b Hk. rewrite lookup_delete_ne by (by apply not_eq_sym, (Hx k)). auto.
  - intros d k Hd. rewrite lookup_delete_ne by set_solver. auto.
  - rewrite Hc. f_equiv. replace (map (fun d => (d, post_of (delete c P) d)) B) with (map (fun d => (d, post_of P d)) B); [done|].
    apply map_ext_in. intros d Hd%list_elem_of_In. unfold post_of. by rewrite lookup_delete_ne by set_solver.
Qed.

(** A command is accepted, with a callback of the caller's own. *)
Lemma binv_push c p t :
  binv B P X L -> c ∉ B -> (forall k b, X !! k = Some b -> b_cmd b <> c) ->
  binv (c :: B) (<[c := UserClb t]> P) X (L ++ [EvAccept p c (UserClb t)]).
Proof.
  intros HB Hni Hx. destruct (binv_insert c (UserClb t) HB Hni Hx) as [Hn Ha Hf Ho Hc]. split.
  - by constructor.
  - intros d [->|Hd]%elem_of_cons; [|auto]. rewrite lookup_insert_eq. eauto.
  - intros k b Hk. destruct (Hf k b Hk) as [Hs Hb]. split; [done|]. pose proof (Hx _ _ Hk).
    destruct (completion_event b); set_solver.
  - intros d k [->|Hd]%elem_of_cons; [by rewrite lookup_insert_eq|auto].
  - autorewrite with szr. cbn. rewrite app_nil_r, Hc.
    unfold post_of at 2. rewrite lookup_insert_eq. cbn. solve_Permutation.
Qed.

(** A command is accepted by a blocked execution. *)
Lemma binv_push_blocked c p k pc :
  binv B P X L -> c ∉ B -> (forall k b, X !! k = Some b -> b_cmd b <> c) -> X !! k = None ->
  binv (c :: B) (<[c := BlockedClb k]> P) (<[k := BCtx c false MTLK_CMD_CANCELED pc]> X) (L ++ [EvAccept p c (BlockedClb k)]).
Proof.
  intros HB Hni Hx Hk. destruct (binv_insert c (BlockedClb k) HB Hni Hx) as [Hn Ha Hf Ho Hc]. split.
  - by constructor.
  - intros d [->|Hd]%elem_of_cons; [|auto]. rewrite lookup_insert_eq. eauto.
  - intros j b [[<- <-]|[Hj Hb]]%lookup_insert_Some; cbn.
    { rewrite lookup_insert_eq. split; [eauto|split; [left|done]]. }
    destruct (Hf j b Hb) as [Hs He]. split; [done|]. pose proof (Hx _ _ Hb).
    destruct (completion_event b); set_solver.
  - intros d j [->|Hd]%elem_of_cons Hp.
    { rewrite lookup_insert_eq in Hp. simplify_eq. rewrite lookup_insert_eq. eauto. }
    destruct (Ho d j Hd Hp) as (b & Hb & ? & ?). exists b. rewrite lookup_insert_ne by congruence. auto.
  - autorewrite with szr. cbn. rewrite app_nil_r, Hc.
    unfold post_of at 2. rewrite lookup_insert_eq. cbn. solve_Permutation.
Qed.
End binv.

Section binv_done.
Context (c : Z) (B : list Z) (P : gmap Z completion) (X : gmap Z bctx) (L : list szr_ev).

Lemma binv_done_acc r k :
  binv (c :: B) P X L -> P !! c = Some k ->
  accepted (L ++ [EvDone r c k]) ≡ₚ completed (L ++ [EvDone r c k]) ++ map (fun d => (d, post_of P d)) B.
Proof.
  intros HB Hk. autorewrite with szr. cbn. rewrite app_nil_r, (b_acc _ _ _ _ HB). cbn.
  unfold post_of at 1. rewrite Hk. cbn. solve_Permutation.
Qed.

Lemma binv_done_user r t :
  binv (c :: B) P X L -> P !! c = Some (UserClb t) -> binv B P X (L ++ [EvDone r c (UserClb t)]).
Proof.
  intros HB Hk. pose proof (binv_done_acc r _ HB Hk) as Hacc. destruct HB as [Hn Ha Hf Ho _].
  apply NoDup_cons in Hn as [Hc Hn]. split; auto.
  - intros d Hd. apply Ha. by right.
  - intros j b Hj. destruct (Hf j b Hj) as [Hs Hb]. split; [done|].
    destruct (completion_event b); [set_solver|]. destruct Hb as [[He|Hin]%elem_of_cons Hb]; [congruence|done].
  - intros d j Hd Hp. apply Ho; [by right|done].
Qed.

(** The callback of a blocked execution reports to its frame. *)
Lemma binv_done_blocked r k b :
  binv (c :: B) P X L -> P !! c = Some (BlockedClb k) -> X !! k = Some b ->
  binv B P (<[k := BCtx (b_cmd b) true r (b_pc b)]> X) (L ++ [EvDone r c (BlockedClb k)]).
Proof.
  intros HB Hk Hb. pose proof (binv_done_acc r _ HB Hk) as Hacc. destruct HB as [Hn Ha Hf Ho _].
  destruct (Ho c k) as (b' & Hb' & Hcmd & Hev); [by left|done|]. simplify_eq.
  apply NoDup_cons in Hn as [Hc Hn]. split; auto.
  - intros d Hd. apply Ha. by right.
  - intros j a [[<- <-]|[Hj Hja]]%lookup_insert_Some; cbn.
    { split; [eauto|split; [done|set_solver]]. }
    destruct (Hf j a Hja) as [Hs Ht]. split; [done|].
    destruct (completion_event a); [set_solver|]. destruct Ht as [[He|Hin]%elem_of_cons Ht]; [congruence|done].
  - intros d j Hd Hp. destruct (Ho d j) as (a & Hja & Had & Hae); [by right|done|].
    exists a. rewrite lookup_insert_ne by congruence. auto.
Qed.
End binv_done.

Section frames.
Context (B : list Z) (P : gmap Z completion) (X : gmap Z bctx) (L : list szr_ev).

Lemma binv_return k b :
  binv B P X L -> X !! k = Some b -> completion_event b = true -> binv B P (delete k X) L.
Proof.
  intros [Hn Ha Hf Ho Hc] Hk He. split; auto.
  - intros j a [Hj Hja]%lookup_delete_Some. auto.
  - intros d j Hd Hp. destruct (Ho d j Hd Hp) as (a & Hja & Had & Hae). exists a.
    rewrite lookup_delete_ne by congruence. auto.
Qed.

Lemma binv_pc k b pc :
  binv B P X L -> X !! k = Some b ->
  binv B P (<[k := BCtx (b_cmd b) (completion_event b) (szr_result b) pc]> X) L.
Proof.
  intros [Hn Ha Hf Ho Hc] Hk. split; auto.
  - intros j a [[<- <-]|[Hj Hja]]%lookup_insert_Some; cbn; auto.
  - intros d j Hd Hp. destruct (Ho d j Hd Hp) as (a & Hja & Had & Hae).
    destruct (decide (j = k)) as [->|Hne]; simplify_eq; eexists;
      [rewrite lookup_insert_eq; split; [done|]|rewrite lookup_insert_ne by done; split; [done|]]; auto.
Qed.
End frames.

(** ** The lists and the commands in them *)

Record q_ok (q : list (list Z)) (m : gmap Z mtlk_command_t) (n : nat) : Prop := {
  q_len : length q = n;
  q_flag : forall p l c, q !! p = Some l -> c ∈ l ->
    exists cmd, m !! c = Some cmd /\ is_in_queue cmd = true /\ priority cmd = p;
  q_queued : forall c cmd, m !! c = Some cmd -> is_in_queue cmd = true ->
    exists l, q !! priority cmd = Some l /\ c ∈ l
}.

Section q_ok.
Context (q : list (list Z)) (m : gmap Z mtlk_command_t) (n : nat).

Lemma q_lookup p : q_ok q m n -> (p < n)%nat -> q !! p = Some (q !!! p).
Proof. intros Hq Hp. apply list_lookup_lookup_total_lt. by rewrite (q_len _ _ _ Hq). Qed.

Lemma q_waiting c : q_ok q m n -> c ∈ concat q <-> exists cmd, m !! c = Some cmd /\ is_in_queue cmd = true.
Proof.
  intros Hq. rewrite elem_of_concat. split.
  - intros (p & l & Hp & Hc). destruct (q_flag _ _ _ Hq _ _ _ Hp Hc) as (cmd & ? & ? & ?). eauto.
  - intros (cmd & Hm & Hi). destruct (q_queued _ _ _ Hq _ _ Hm Hi) as (l & ? & ?). eauto.
Qed.

Lemma q_push p c cmd k slid :
  q_ok q m n -> (p < n)%nat -> m !! c = Some cmd -> is_in_queue cmd = false ->
  q_ok (<[p := (q !!! p) ++ [c]]> q) (<[c := Command true p k slid]> m) n.
Proof.
  intros Hq Hp Hm Hi. pose proof (q_lookup p Hq Hp) as Hl.
  assert (forall p' l, q !! p' = Some l -> c ∉ l) as Hni.
  { intros p' l Hp' Hin. destruct (q_flag _ _ _ Hq _ _ _ Hp' Hin) as (? & ? & ? & ?). congruence. }
  split.
  - rewrite length_insert. apply (q_len _ _ _ Hq).
  - intros p' l d Hp' Hd. apply list_lookup_insert_Some in Hp' as [(-> & <- & _)|[Hne Hp']].
    + apply elem_of_app in Hd as [Hd| ->%list_elem_of_singleton].
      * destruct (q_flag _ _ _ Hq _ _ _ Hl Hd) as (cmd' & ? & ? & ?). exists cmd'.
        rewrite lookup_insert_ne by congruence. auto.
      * eexists. by rewrite lookup_insert_eq.
    + destruct (q_flag _ _ _ Hq _ _ _ Hp' Hd) as (cmd' & ? & ? & ?). exists cmd'.
      rewrite lookup_insert_ne by congruence. auto.
  - intros d cmd' [[<- <-]|[Hne Hd]]%lookup_insert_Some Hi'; cbn.
    + eexists. rewrite list_lookup_insert_eq by (by rewrite (q_len _ _ _ Hq)). split; [done|set_solver].
    + destruct (q_queued _ _ _ Hq _ _ Hd Hi') as (l & Hl' & Hin).
      destruct (decide (p = priority cmd')) as [->|Hp']; simplify_eq.
      * eexists. rewrite list_lookup_insert_eq by (by rewrite (q_len _ _ _ Hq)). split; [done|].
        set_solver.
      * exists l. by rewrite list_lookup_insert_ne.
Qed.

(** One command leaves its list. *)
Lemma q_leave c cmd l l' k slid :
  q_ok q m n -> NoDup (concat q) -> m !! c = Some cmd -> q !! priority cmd = Some l -> l ≡ₚ c :: l' ->
  q_ok (<[priority cmd := l']> q) (<[c := Command false (priority cmd) k slid]> m) n.
Proof.
  intros Hq Hnd Hm Hl Hp. assert (c ∉ concat (<[priority cmd := l']> q)) as Hni.
  { rewrite (concat_insert_less _ _ _ _ _ Hl Hp) in Hnd. by apply NoDup_cons in Hnd as [? _]. }
  assert (forall p' l0 d, <[priority cmd:=l']> q !! p' = Some l0 -> d ∈ l0 -> d <> c /\ exists l1, q !! p' = Some l1 /\ d ∈ l1) as Hback.
  { intros p' l0 d Hp' Hd. split.
    - intros ->. apply Hni, elem_of_concat. eauto.
    - apply list_lookup_insert_Some in Hp' as [(<- & <- & _)|[_ Hp']]; [|eauto].
      exists l. split; [done|]. rewrite Hp. by right. }
  split.
  - rewrite length_insert. apply (q_len _ _ _ Hq).
  - intros p' l0 d Hp' Hd. destruct (Hback _ _ _ Hp' Hd) as (Hne & l1 & Hl1 & Hd1).
    destruct (q_flag _ _ _ Hq _ _ _ Hl1 Hd1) as (cmd' & ? & ? & ?). exists cmd'.
    by rewrite lookup_insert_ne.
  - intros d cmd' [[<- <-]|[Hne Hd]]%lookup_insert_Some Hi'; [done|].
    destruct (q_queued _ _ _ Hq _ _ Hd Hi') as (l0 & Hl0 & Hin).
    destruct (decide (priority cmd = priority cmd')) as [He|He].
    + rewrite <-He in *. exists l'. rewrite list_lookup_insert_eq by (by eapply lookup_lt_Some).
      split; [done|]. rewrite Hl in Hl0. simplify_eq. rewrite Hp in Hin. set_solver.
    + exists l0. by rewrite list_lookup_insert_ne.
Qed.

Lemma q_other c : q_ok q m n -> c ∉ concat q -> q_ok q (delete c m) n /\
  (forall cmd, is_in_queue cmd = false -> q_ok q (<[c := cmd]> m) n).
Proof.
  intros Hq Hc. assert (forall p l d, q !! p = Some l -> d ∈ l -> d <> c) as Hne.
  { intros p l d Hp Hd ->. apply Hc, elem_of_concat. eauto. }
  split; [|intros cmd Hi]; (split; [apply (q_len _ _ _ Hq)| |]).
  - intros p l d Hp Hd. rewrite lookup_delete_ne by (apply not_eq_sym; eauto). by eapply q_flag.
  - intros d cmd [Hd Hm]%lookup_delete_Some. by apply (q_queued _ _ _ Hq).
  - intros p l d Hp Hd. rewrite lookup_insert_ne by (apply not_eq_sym; eauto). by eapply q_flag.
  - intros d cmd' [[<- <-]|[Hd Hm]]%lookup_insert_Some; [congruence|]. by apply (q_queued _ _ _ Hq).
Qed.
End q_ok.

(** ** The abstract priority lists *)

(** What the log says a priority's list holds; [None] when a command is taken
    that is not the first of the list, or withdrawn that is not in it. *)
Definition fifo_ev (p : nat) (l : list Z) (e : szr_ev) : option (list Z) :=
  match e with
  | EvAccept q c _ => Some (if bool_decide (q = p) then l ++ [c] else l)
  | EvTake q c => if bool_decide (q = p) then
      match l with x :: l' => if bool_decide (x = c) then Some l' else None | [] => None end else Some l
  | EvRemove q c => if bool_decide (q = p) then
      if bool_decide (c ∈ l) then Some (filter (fun x => x <> c) l) else None else Some l
  | _ => Some l
  end.

Definition fifo (p : nat) (evs : list szr_ev) : option (list Z) :=
  foldl (fun o e => l ← o; fifo_ev p l e) (Some []) evs.

#[global] Arguments fifo : simpl never.

Lemma fifo_snoc p evs e : fifo p (evs ++ [e]) = l ← fifo p evs; fifo_ev p l e.
Proof. unfold fifo. by rewrite foldl_app. Qed.

(** ** The invariant *)

Definition posts (s : mtlk_serializer_t) : gmap Z completion := post_exec <$> cmds s.

(** The references of the remove lock that do not belong to a waiting command. *)
Definition held (c : spc) : Z :=
  match c with SSetRunning | SRunning | SRelease => 1 | _ => 0 end.

Definition control_ok (ctl : spc) (run stop evt : bool) (t : tpc) (w : list Z) : Prop :=
  match ctl with
  | SStopped => run = false /\ w = [] /\ t = TExit
  | SAcquire | SSetRunning => run = false /\ w = [] /\ evt = false /\ stop = false /\ t <> TExit
  | SRunning => run = true /\ evt = false /\ stop = false /\ t <> TExit
  | SRelease => run = false /\ evt = false /\ stop = false /\ t <> TExit
  | SWaitPending => run = false /\ (evt = true <-> w = []) /\ stop = false /\ t <> TExit
  | SSetStop => run = false /\ w = [] /\ stop = false /\ t <> TExit
  | SNotify | SJoin => run = false /\ w = [] /\ stop = true
  end.

Definition thread_ok (t : tpc) (cur : option Z) (n : nat) : Prop :=
  match t with
  | TExec | TPost | TClear => is_Some cur
  | TScan i e => cur = None /\ e = true /\ (i <= n)%nat
  | _ => cur = None
  end.

(** The thread will look at priority [p] before it sleeps. *)
Definition will_see (t : tpc) (p : nat) : Prop :=
  match t with TScan i _ => (p < i)%nat | TWait | TExit => False | _ => True end.

Definition canc_ok (l : list (Z * option Z)) (X : gmap Z bctx) : Prop :=
  forall c k, (c, Some k) ∈ l <-> exists b, X !! k = Some b /\ b_cmd b = c /\ b_pc b = BCancelClb.

Definition in_post (t : tpc) (cur : option Z) : list Z :=
  match t with TPost => option_list cur | _ => [] end.

Record sinv (s : mtlk_serializer_t) : Prop := {
  s_core : binv (busy s) (posts s) (ctxs s) (szr_log s);
  s_q : q_ok (commands s) (cmds s) (num_priorities s);
  s_canc : canc_ok (cancelling s) (ctxs s);
  s_thread : thread_ok (szr_thread s) (current_command s) (num_priorities s);
  s_pending : tasks_pending s = held (szr_control s) + Z.of_nat (length (concat (commands s)));
  s_control : control_ok (szr_control s) (is_running s) (osdep_stop s) (pending_evt s) (szr_thread s) (concat (commands s));
  s_wake : forall p l, commands s !! p = Some l -> l <> [] -> new_event s = true \/ will_see (szr_thread s) p;
  s_runs : runs (szr_log s) ≡ₚ executed (szr_log s) ++
    map (fun c => (c, post_of (posts s) c)) (in_post (szr_thread s) (current_command s));
  s_fifo : forall p l, commands s !! p = Some l -> fifo p (szr_log s) = Some l
}.
