(* ===== verification/SzrOps.v ===== *)
(** * SzrOps: every step of the command serializer keeps its invariant and
    touches only command objects and frames that exist *)
From S2P Require Import Prelude Szr SzrInv.
From Stdlib Require Import Permutation.

Lemma posts_lookup s c cmd : cmds s !! c = Some cmd -> posts s !! c = Some (post_exec cmd).
Proof. intros H. unfold posts. by rewrite lookup_fmap, H. Qed.

Lemma posts_alive s c : is_Some (posts s !! c) -> exists cmd, cmds s !! c = Some cmd /\ posts s !! c = Some (post_exec cmd).
Proof. unfold posts. rewrite lookup_fmap. intros [k Hk]. destruct (cmds s !! c) as [cmd|]; simplify_eq/=; eauto. Qed.

Lemma posts_same (m : gmap Z mtlk_command_t) c cmd f p sl :
  m !! c = Some cmd -> post_exec <$> <[c := Command f p (post_exec cmd) sl]> m = post_exec <$> m.
Proof. intros H. rewrite fmap_insert. cbn. apply insert_id. by rewrite lookup_fmap, H. Qed.

Lemma busy_alive s c : sinv s -> c ∈ busy s -> exists cmd, cmds s !! c = Some cmd /\ posts s !! c = Some (post_exec cmd).
Proof. intros Hs Hc. apply posts_alive. by eapply b_alive; [apply s_core|]. Qed.

Lemma idle_frames s c : idle s c -> c ∉ busy s /\ forall k b, ctxs s !! k = Some b -> b_cmd b <> c.
Proof. intros [Hb Hf]. split; [done|]. intros k b Hk He. apply Hf. by exists k, b. Qed.

Lemma in_post_busy s c : c ∈ in_post (szr_thread s) (current_command s) -> c ∈ busy s.
Proof.
  unfold busy, executing, in_post. destruct (szr_thread s); intros H; try by apply elem_of_nil in H.
  apply elem_of_app. right. apply elem_of_app. by left.
Qed.

Lemma in_post_map s c k :
  c ∉ busy s -> map (fun d => (d, post_of (<[c := k]> (posts s)) d)) (in_post (szr_thread s) (current_command s)) =
  map (fun d => (d, post_of (posts s) d)) (in_post (szr_thread s) (current_command s)).
Proof. intros Hc. apply post_map_insert. intros H. by apply Hc, in_post_busy. Qed.

(** ** Commands are accepted *)

Definition enqueued (s : mtlk_serializer_t) (p : nat) (c : Z) (k : completion) (slid : Z) (X : gmap Z bctx) : mtlk_serializer_t :=
  set_ctxs (szr_record (_mtlk_serializer_osdep_notify (mtlk_rmlock_acquire
    (set_cmds (set_commands s (<[p := queue_at s p ++ [c]]> (commands s))) (<[c := Command true p k slid]> (cmds s)))))
    (EvAccept p c k)) X.

Lemma enqueued_sinv s p c k cmd slid X :
  sinv s -> is_running s = true -> (p < num_priorities s)%nat -> cmds s !! c = Some cmd -> is_in_queue cmd = false ->
  c ∉ busy s -> canc_ok (cancelling s) X ->
  binv (c :: busy s) (<[c := k]> (posts s)) X (szr_log s ++ [EvAccept p c k]) ->
  sinv (enqueued s p c k slid X).
Proof.
  intros [Hc Hq Hn Ht Hp Hctl Hw Hr Hf] Hrun Hlt Hcmd Hi Hnb Hcx Hb.
  pose proof (q_lookup _ _ _ p Hq Hlt) as Hl. pose proof (concat_insert_push _ _ _ c Hl) as Hpm.
  split; cbn.
  - unfold posts. cbn. rewrite fmap_insert. eapply binv_perm; [exact Hb|]. unfold busy, queue_at. cbn. by rewrite Hpm.
  - by eapply q_push.
  - done.
  - done.
  - unfold queue_at. rewrite Hp, Hpm. cbn. lia.
  - destruct (szr_control s); cbn in *; try (destruct Hctl as [He _]; congruence). done.
  - auto.
  - autorewrite with szr. cbn. rewrite !app_nil_r, Hr. unfold posts. cbn. rewrite fmap_insert. cbn.
    fold (posts s). by rewrite in_post_map.
  - intros p' l Hp'. rewrite fifo_snoc. apply list_lookup_insert_Some in Hp' as [(-> & <- & _)|[Hne Hp']].
    + rewrite (Hf _ _ Hl). cbn. by rewrite bool_decide_true.
    + rewrite (Hf _ _ Hp'). cbn. by rewrite bool_decide_false.
Qed.

(** ** Commands leave their list *)

(** The part of the state a locked section that takes [c] off its list touches. *)
Definition unlisted (s : mtlk_serializer_t) (c : Z) (cmd : mtlk_command_t) (l' : list Z) : mtlk_serializer_t :=
  set_cmds (set_commands s (<[priority cmd := l']> (commands s)))
    (<[c := Command false (priority cmd) (post_exec cmd) (issuer_slid cmd)]> (cmds s)).

Lemma release_pending s : sinv s -> forall c q, concat (commands s) ≡ₚ c :: concat q ->
  let n := tasks_pending s - 1 in
  n = held (szr_control s) + Z.of_nat (length (concat q)) /\
  control_ok (szr_control s) (is_running s) (osdep_stop s) (if n =? 0 then true else pending_evt s) (szr_thread s) (concat q).
Proof.
  intros Hs c q Hperm n. pose proof (s_pending _ Hs) as Hp. rewrite Hperm in Hp. cbn in Hp.
  assert (n = held (szr_control s) + Z.of_nat (length (concat q))) as Hn by lia. split; [done|].
  pose proof (s_control _ Hs) as Hc. assert (concat (commands s) <> []) as Hne.
  { intros He. rewrite He in Hperm. by apply Permutation_nil_cons in Hperm. }
  destruct (szr_control s); cbn in *; destruct_and?; try done; destruct (n =? 0) eqn:E; zbool; try lia; try done.
  - repeat split; auto. intros _. apply nil_length_inv. lia.
  - repeat split; auto; [|intros He; rewrite He in Hn; cbn in Hn; lia].
    intros He. destruct Hne. tauto.
Qed.

Lemma busy_nodup s : sinv s -> NoDup (busy s).
Proof. intros Hs. eapply b_nodup, s_core, Hs. Qed.

Lemma unlisted_facts s c cmd l l' :
  sinv s -> cmds s !! c = Some cmd -> commands s !! priority cmd = Some l -> l ≡ₚ c :: l' ->
  let u := unlisted s c cmd l' in
  posts u = posts s /\ q_ok (commands u) (cmds u) (num_priorities s) /\
  concat (commands s) ≡ₚ c :: concat (commands u) /\
  (forall p l1, commands u !! p = Some l1 -> l1 <> [] -> exists l0, commands s !! p = Some l0 /\ l0 <> []).
Proof.
  intros Hs Hc Hl Hp u. repeat apply conj.
  - by apply posts_same.
  - eapply q_leave; eauto using s_q. pose proof (busy_nodup _ Hs) as H. unfold busy in H. by apply NoDup_app in H as [? _].
  - by eapply concat_insert_less.
  - intros p l1 [(<- & <- & _)|[_ H]]%list_lookup_insert_Some Hne; [|eauto].
    exists l. split; [done|]. intros ->. by apply Permutation_nil_cons in Hp.
Qed.

Definition withdrawn (s : mtlk_serializer_t) (c : Z) (cmd : mtlk_command_t) (o : option Z) (X : gmap Z bctx) : mtlk_serializer_t :=
  let l' := filter (fun x => x <> c) (queue_at s (priority cmd)) in
  set_ctxs (set_cancelling (szr_record (mtlk_rmlock_release (unlisted s c cmd l')) (EvRemove (priority cmd) c))
    ((c, o) :: cancelling s)) X.

Lemma withdrawn_sinv s c cmd o X :
  sinv s -> cmds s !! c = Some cmd -> is_in_queue cmd = true ->
  canc_ok ((c, o) :: cancelling s) X -> binv (busy s) (posts s) X (szr_log s) ->
  sinv (withdrawn s c cmd o X).
Proof.
  intros Hs Hc Hi Hcx Hb. destruct (q_queued _ _ _ (s_q _ Hs) _ _ Hc Hi) as (l & Hl & Hin).
  assert (queue_at s (priority cmd) = l) as Hqa by (by apply list_lookup_total_correct).
  assert (l ≡ₚ c :: filter (fun x => x <> c) l) as Hperm.
  { apply filter_ne_perm; [|done]. pose proof (busy_nodup _ Hs) as H. unfold busy in H.
    apply NoDup_app in H as [H _]. rewrite <-(list_insert_id _ _ _ Hl) in H.
    destruct (concat_split _ _ _ Hl) as [r Hr]. rewrite Hr in H. by apply NoDup_app in H as [? _]. }
  unfold withdrawn. rewrite Hqa. set (l' := filter _ l) in *.
  destruct (unlisted_facts s c cmd l l' Hs Hc Hl Hperm) as (Hpo & Hq & Hcc & Hw).
  destruct (release_pending _ Hs c _ Hcc) as [Hn Hctl]. set (u := unlisted s c cmd l') in *.
  split; try exact Hq; try exact Hctl; try exact Hn; try exact Hcx; cbn.
  - eapply binv_perm; [apply binv_neutral; [|done]|].
    + change (post_exec <$> _) with (posts u). rewrite Hpo. exact Hb.
    + unfold busy, executing. cbn -[concat]. rewrite Hcc. cbn. solve_Permutation.
  - apply (s_thread _ Hs).
  - intros p l1 Hl1 Hne. destruct (Hw p l1 Hl1 Hne) as (l0 & ? & ?). by eapply (s_wake _ Hs).
  - autorewrite with szr. cbn. rewrite !app_nil_r. change (post_exec <$> _) with (posts u). rewrite Hpo. apply (s_runs _ Hs).
  - intros p l1 Hl1. rewrite fifo_snoc. apply list_lookup_insert_Some in Hl1 as [(<- & <- & _)|[Hne Hl1]];
      rewrite (s_fifo _ Hs _ _ ltac:(eassumption)); cbn; [by rewrite !bool_decide_true by done|by rewrite bool_decide_false].
Qed.

(** The thread takes the first command of priority [i]. *)
Definition taken (s : mtlk_serializer_t) (i : nat) (c : Z) (cmd : mtlk_command_t) (l' : list Z) : mtlk_serializer_t :=
  set_thread (szr_record (mtlk_rmlock_release (set_current (unlisted s c cmd l') (Some c))) (EvTake i c)) TExec.

Lemma taken_sinv s i e c cmd l' :
  sinv s -> szr_thread s = TScan (S i) e -> commands s !! i = Some (c :: l') -> cmds s !! c = Some cmd -> priority cmd = i ->
  sinv (taken s i c cmd l').
Proof.
  intros Hs Ht Hl Hc Hpr. rewrite <-Hpr in Hl.
  destruct (unlisted_facts s c cmd _ l' Hs Hc Hl) as (Hpo & Hq & Hcc & Hw); [done|].
  destruct (release_pending _ Hs c _ Hcc) as [Hn Hctl]. set (u := unlisted s c cmd l') in *.
  split; try exact Hq; try exact Hn; cbn.
  - apply binv_neutral; [|done]. change (post_exec <$> _) with (posts u). rewrite Hpo.
    eapply binv_perm; [apply (s_core _ Hs)|]. unfold busy, executing. cbn -[concat]. rewrite Ht, Hcc.
    cbn. solve_Permutation.
  - apply (s_canc _ Hs).
  - eauto.
  - revert Hctl. rewrite Ht. cbn. destruct (szr_control s); cbn; naive_solver.
  - auto.
  - autorewrite with szr. cbn. rewrite !app_nil_r. rewrite (s_runs _ Hs), Ht. cbn. by rewrite app_nil_r.
  - intros p l1 Hl1. rewrite fifo_snoc. subst i.
    apply list_lookup_insert_Some in Hl1 as [(<- & <- & _)|[Hne Hl1]];
      rewrite (s_fifo _ Hs _ _ ltac:(eassumption)); cbn; [by rewrite !bool_decide_true by done|by rewrite bool_decide_false].
Qed.

(** ** Completion callbacks *)

(** What the callback of [post] leaves in the frames. *)
Definition reported (r : serializer_result_t) (post : completion) (X : gmap Z bctx) : gmap Z bctx :=
  match post with
  | UserClb _ => X
  | BlockedClb k => match X !! k with Some b => <[k := BCtx (b_cmd b) true r (b_pc b)]> X | None => X end
  end.

Lemma reported_pc r post X k b :
  X !! k = Some b -> exists e r', reported r post X !! k = Some (BCtx (b_cmd b) e r' (b_pc b)).
Proof.
  intros Hk. destruct post as [|j]; cbn; [destruct b; eauto|]. destruct (X !! j) as [a|] eqn:Hj; [|destruct b; eauto].
  destruct (decide (j = k)) as [->|Hne]; simplify_eq; [rewrite lookup_insert_eq; eauto|].
  rewrite lookup_insert_ne by done. destruct b; eauto.
Qed.

Lemma reported_back r post X k b :
  reported r post X !! k = Some b -> exists b', X !! k = Some b' /\ b_cmd b' = b_cmd b /\ b_pc b' = b_pc b.
Proof.
  destruct post as [|j]; cbn; [eauto|]. destruct (X !! j) as [a|] eqn:Hj; [|eauto].
  intros [[<- <-]|[Hne Hk]]%lookup_insert_Some; eauto.
Qed.

Lemma reported_canc r post X l : canc_ok l X -> canc_ok l (reported r post X).
Proof.
  intros Hl c k. rewrite (Hl c k). split.
  - intros (b & Hk & Hc & Hp). destruct (reported_pc r post X k b Hk) as (e & r' & H). eexists. split; [exact H|done].
  - intros (b & Hk & Hc & Hp). destruct (reported_back _ _ _ _ _ Hk) as (b' & ? & ? & ?). exists b'. naive_solver congruence.
Qed.

Lemma call_post_exec_ok r s c cmd B :
  sinv s -> cmds s !! c = Some cmd -> busy s ≡ₚ c :: B ->
  let X := reported r (post_exec cmd) (ctxs s) in
  call_post_exec r c s = Some (szr_record (set_ctxs s X) (EvDone r c (post_exec cmd))) /\
  binv B (posts s) X (szr_log s ++ [EvDone r c (post_exec cmd)]).
Proof.
  intros Hs Hc Hb. pose proof (binv_perm _ _ _ _ _ (s_core _ Hs) Hb) as HB. pose proof (posts_lookup _ _ _ Hc) as Hp.
  unfold call_post_exec. rewrite Hc. cbn. destruct (post_exec cmd) as [t|k]; cbn.
  - split; [by destruct s|by apply binv_done_user].
  - destruct (b_owner _ _ _ _ HB c k) as (b & Hk & _ & _); [by left|done|]. rewrite Hk. cbn.
    split; [done|by apply binv_done_blocked].
Qed.

Lemma cancelling_nodup s : sinv s -> NoDup (cancelling s).*1.
Proof.
  intros Hs. pose proof (busy_nodup _ Hs) as H. unfold busy in H.
  by apply NoDup_app in H as (_ & _ & (_ & _ & H)%NoDup_app).
Qed.

Lemma nodup_fst_eq {A} (l : list (Z * A)) c a b : NoDup l.*1 -> (c, a) ∈ l -> (c, b) ∈ l -> a = b.
Proof.
  intros Hn [i Hi]%list_elem_of_lookup [j Hj]%list_elem_of_lookup.
  assert (i = j) as ->; [|congruence].
  eapply NoDup_lookup; [exact Hn| |]; rewrite list_lookup_fmap; [by rewrite Hi|by rewrite Hj].
Qed.

(** The events of a completion, and what a command's completion leaves. *)
Lemma done_runs s r c k t cur P :
  runs (szr_log s ++ [EvDone r c k]) ≡ₚ executed (szr_log s ++ [EvDone r c k]) ++ map (fun d => (d, post_of P d)) (in_post t cur) <->
  runs (szr_log s) ≡ₚ executed (szr_log s) ++ match r with MTLK_CMD_EXECUTED => [(c, k)] | _ => [] end ++ map (fun d => (d, post_of P d)) (in_post t cur).
Proof. autorewrite with szr. cbn. rewrite app_nil_r, <-app_assoc. by destruct r. Qed.

Lemma done_fifo s r c k p : fifo p (szr_log s ++ [EvDone r c k]) = fifo p (szr_log s).
Proof. rewrite fifo_snoc. by destruct (fifo p (szr_log s)). Qed.

(** The callback of a cancelled command is called by its canceller. *)
Lemma cancel_clb_sinv s c o cmd X :
  sinv s -> (c, o) ∈ cancelling s -> cmds s !! c = Some cmd ->
  let l := filter (fun x => x.1 <> c) (cancelling s) in
  canc_ok l X ->
  (forall B, busy s ≡ₚ c :: B -> binv B (posts s) X (szr_log s ++ [EvDone MTLK_CMD_CANCELED c (post_exec cmd)])) ->
  sinv (set_cancelling (szr_record (set_ctxs s X) (EvDone MTLK_CMD_CANCELED c (post_exec cmd))) l).
Proof.
  intros Hs Hin Hc l Hcx HB. pose proof (cancelling_nodup _ Hs) as Hn.
  pose proof (filter_fst_perm _ _ _ Hn Hin) as Hperm. fold l in Hperm.
  split; cbn; try apply Hs; auto.
  - apply HB. unfold busy, executing. cbn. rewrite Hperm. solve_Permutation.
  - rewrite done_runs. apply (s_runs _ Hs).
  - intros p l1 Hl1. rewrite done_fifo. by apply (s_fifo _ Hs).
Qed.

Lemma canc_filter_none s c :
  sinv s -> (c, None) ∈ cancelling s -> canc_ok (filter (fun x => x.1 <> c) (cancelling s)) (ctxs s).
Proof.
  intros Hs Hin d k. rewrite <-(s_canc _ Hs d k), list_elem_of_filter. cbn. split; [tauto|].
  intros Hd. split; [|done]. intros ->. by pose proof (nodup_fst_eq _ _ _ _ (cancelling_nodup _ Hs) Hin Hd).
Qed.

Lemma canc_filter_frame s c k :
  sinv s -> (c, Some k) ∈ cancelling s -> canc_ok (filter (fun x => x.1 <> c) (cancelling s)) (delete k (ctxs s)).
Proof.
  intros Hs Hin d j. rewrite list_elem_of_filter. cbn. rewrite (s_canc _ Hs d j). split.
  - intros [Hd (b & Hj & Hb & Hp)]. exists b. rewrite lookup_delete_ne; [done|]. intros ->.
    apply Hd. apply (s_canc _ Hs) in Hin as (b' & ? & ? & ?). congruence.
  - intros (b & [Hne Hj]%lookup_delete_Some & Hb & Hp). split; [|eauto]. intros ->.
    assert ((c, Some j) ∈ cancelling s) as Hin' by (apply (s_canc _ Hs); eauto).
    pose proof (nodup_fst_eq _ _ _ _ (cancelling_nodup _ Hs) Hin Hin'). congruence.
Qed.

(** ** The thread *)

Definition moved (s : mtlk_serializer_t) (cur : option Z) (ev : bool) (t : tpc) : mtlk_serializer_t :=
  set_thread (set_event (set_current s cur) ev) t.

(** A thread outside the execution of a command. *)
Definition roams (t : tpc) : Prop := match t with TExec | TPost => False | _ => True end.

Lemma roams_lists t cur : roams t -> in_post t cur = [] /\ (match t with TExec | TPost => option_list cur | _ => [] end) = [].
Proof. by destruct t. Qed.

Lemma moved_sinv s cur ev t :
  sinv s -> roams (szr_thread s) -> roams t -> thread_ok t cur (num_priorities s) ->
  (t = TExit -> osdep_stop s = true) -> szr_thread s <> TExit ->
  (forall p l, commands s !! p = Some l -> l <> [] -> ev = true \/ will_see t p) ->
  sinv (moved s cur ev t).
Proof.
  intros Hs Hr Hr' Ht He Hne Hw.
  destruct (roams_lists t cur Hr') as [Hp' Hx'], (roams_lists _ (current_command s) Hr) as [Hp Hx].
  split; cbn; try apply Hs; auto.
  - pose proof (s_core _ Hs) as H. unfold busy, executing in H |- *. cbn. rewrite Hx'. by rewrite Hx in H.
  - pose proof (s_control _ Hs) as H. unfold control_ok in *.
    destruct (szr_control s); destruct_and?; split_and?; try done; intros ->; by rewrite He in *.
  - rewrite Hp'. pose proof (s_runs _ Hs) as H. by rewrite Hp in H.
Qed.

Lemma moved_eq s t : set_thread s t = moved s (current_command s) (new_event s) t.
Proof. by destruct s. Qed.

Lemma thread_running s c :
  sinv s -> (szr_thread s = TExec \/ szr_thread s = TPost) -> current_command s = Some c -> c ∈ busy s.
Proof.
  intros Hs Ht Hc. unfold busy, executing. rewrite Hc. apply elem_of_app. right. apply elem_of_app. left.
  destruct Ht as [-> | ->]; by left.
Qed.

Lemma exec_sinv s c cmd :
  sinv s -> szr_thread s = TExec -> current_command s = Some c -> cmds s !! c = Some cmd ->
  sinv (set_thread (szr_record s (EvRun c (post_exec cmd))) TPost).
Proof.
  intros Hs Ht Hcur Hc. split; cbn; try apply Hs.
  - apply binv_neutral; [|done]. pose proof (s_core _ Hs) as H. unfold busy, executing in *. by rewrite Ht in H.
  - eauto.
  - pose proof (s_control _ Hs) as H. rewrite Ht in H. unfold control_ok in *.
    destruct (szr_control s); naive_solver.
  - auto.
  - autorewrite with szr. cbn. rewrite app_nil_r, Hcur. pose proof (s_runs _ Hs) as H. rewrite Ht in H. cbn in H.
    rewrite app_nil_r in H. rewrite H. cbn. unfold post_of, posts. cbn. by rewrite lookup_fmap, Hc.
  - intros p l Hl. rewrite fifo_snoc, (s_fifo _ Hs _ _ Hl). done.
Qed.

Lemma post_sinv s c cmd :
  sinv s -> szr_thread s = TPost -> current_command s = Some c -> cmds s !! c = Some cmd ->
  sinv (set_thread (szr_record (set_ctxs s (reported MTLK_CMD_EXECUTED (post_exec cmd) (ctxs s)))
    (EvDone MTLK_CMD_EXECUTED c (post_exec cmd))) TClear).
Proof.
  intros Hs Ht Hcur Hc.
  assert (busy s ≡ₚ c :: (concat (commands s) ++ (cancelling s).*1)) as Hb.
  { unfold busy, executing. rewrite Ht, Hcur. cbn. solve_Permutation. }
  destruct (call_post_exec_ok MTLK_CMD_EXECUTED _ _ _ _ Hs Hc Hb) as [_ HB].
  split; cbn; try apply Hs.
  - exact HB.
  - apply reported_canc, Hs.
  - eauto.
  - pose proof (s_control _ Hs) as H. rewrite Ht in H. unfold control_ok in *.
    destruct (szr_control s); naive_solver.
  - auto.
  - apply (done_runs s _ _ _ TClear None (posts s)). cbn. pose proof (s_runs _ Hs) as H. rewrite Ht, Hcur in H. cbn in H. rewrite H.
    unfold post_of, posts. cbn. by rewrite lookup_fmap, Hc.
  - intros p l Hl. rewrite done_fifo. by apply (s_fifo _ Hs).
Qed.

(** The first command waiting at a priority exists and knows its priority. *)
Lemma head_command s i c l :
  sinv s -> commands s !! i = Some (c :: l) -> exists cmd, cmds s !! c = Some cmd /\ is_in_queue cmd = true /\ priority cmd = i.
Proof. intros Hs Hl. eapply (q_flag _ _ _ (s_q _ Hs)); [exact Hl|by left]. Qed.

(** A locked section that takes a command, or finds the list empty. *)
Lemma take_command_ok s i e :
  sinv s -> szr_thread s = TScan (S i) e ->
  (exists c l cmd, commands s !! i = Some (c :: l) /\ cmds s !! c = Some cmd /\ priority cmd = i /\
     take_command i e s = Some (taken s i c cmd l)) \/
  (commands s !! i = Some [] /\ take_command i e s = Some (set_thread s (TScan i e))).
Proof.
  intros Hs Ht. pose proof (s_thread _ Hs) as Hok. rewrite Ht in Hok. cbn in Hok. destruct Hok as (Hcur & _ & Hi).
  assert (commands s !! i = Some (queue_at s i)) as Hl by (eapply q_lookup; [apply (s_q _ Hs)|lia]).
  unfold take_command. destruct (queue_at s i) as [|c l].
  - right. split; [done|]. by rewrite Hcur.
  - left. destruct (head_command _ _ _ _ Hs Hl) as (cmd & Hc & _ & Hp). exists c, l, cmd. rewrite Hc. cbn.
    repeat split; auto. unfold taken, unlisted. by rewrite Hp.
Qed.

Lemma thread_step_ok s : sinv s -> thread_step s <> Fault /\ forall s', thread_step s = Next s' -> sinv s'.
Proof.
  intros Hs. pose proof (s_thread _ Hs) as Hok. unfold thread_step.
  destruct (szr_thread s) as [| | |[|i] e| | | |] eqn:Ht; cbn in Hok.
  - destruct (new_event s) eqn:He; split; try done. intros ? [= <-]. rewrite moved_eq.
    apply moved_sinv; rewrite ?Ht; auto; done.
  - split; [done|]. intros ? [= <-]. rewrite moved_eq. pose proof (s_wake _ Hs) as Hw. rewrite Ht in Hw.
    destruct (osdep_stop s) eqn:Hstop; apply moved_sinv; rewrite ?Ht; auto; try done.
    intros p l Hl Hne. exfalso. pose proof (s_control _ Hs) as Hc. rewrite Ht, Hstop in Hc.
    assert (concat (commands s) = []) as H0 by (destruct (szr_control s); cbn in Hc; naive_solver).
    destruct l as [|x l]; [done|]. assert (x ∈ concat (commands s)) as Hx; [|by rewrite H0 in Hx; apply elem_of_nil in Hx].
    apply elem_of_concat. exists p, (x :: l). split; [done|left].
  - split; [done|]. intros ? [= <-].
    change (sinv (set_thread (set_event s false) (TScan (num_priorities s) true))).
    replace (set_event s false) with (set_event (set_current s (current_command s)) false) by (by destruct s).
    apply moved_sinv; rewrite ?Ht; try done.
    intros p l Hl _. right. cbn. rewrite <-(q_len _ _ _ (s_q _ Hs)). by eapply lookup_lt_Some.
  - destruct Hok as (Hcur & -> & _). split; [done|]. intros ? [= <-]. rewrite moved_eq.
    apply moved_sinv; rewrite ?Ht; try done.
    intros p l Hl Hne. destruct (s_wake _ Hs p l Hl Hne) as [?|H]; [auto|]. rewrite Ht in H. cbn in H. lia.
  - destruct (take_command_ok s i e Hs Ht) as [(c & l & cmd & Hl & Hc & Hp & ->)|[Hl ->]]; cbn;
      (split; [done|]); intros ? [= <-]; [by eapply taken_sinv|].
    destruct Hok as (Hcur & -> & Hi). rewrite moved_eq. apply moved_sinv; rewrite ?Ht; try done.
    + rewrite Hcur. repeat split; lia.
    + intros p l Hl' Hne. destruct (s_wake _ Hs p l Hl' Hne) as [?|H]; [auto|]. rewrite Ht in H. cbn in H |- *.
      right. destruct (decide (p = i)) as [->|]; [congruence|lia].
  - destruct Hok as [c Hcur]. destruct (busy_alive s c Hs) as (cmd & Hc & _); [apply thread_running; auto|].
    rewrite Hcur. cbn. rewrite Hc. cbn. split; [done|]. intros ? [= <-]. by apply exec_sinv.
  - destruct Hok as [c Hcur]. destruct (busy_alive s c Hs) as (cmd & Hc & _); [apply thread_running; auto|].
    assert (busy s ≡ₚ c :: (concat (commands s) ++ (cancelling s).*1)) as Hb.
    { unfold busy, executing. rewrite Ht, Hcur. cbn. solve_Permutation. }
    rewrite Hcur. cbn. destruct (call_post_exec_ok MTLK_CMD_EXECUTED _ _ _ _ Hs Hc Hb) as [-> _].
    cbn. split; [done|]. intros ? [= <-]. by apply post_sinv.
  - split; [done|]. intros ? [= <-].
    replace (set_current s None) with (set_event (set_current s None) (new_event s)) by (by destruct s).
    apply moved_sinv; rewrite ?Ht; try done.
    intros p l Hl _. right. cbn. rewrite <-(q_len _ _ _ (s_q _ Hs)). by eapply lookup_lt_Some.
  - done.
Qed.

(** ** Start and stop *)

Lemma concat_nil_wake s p l : concat (commands s) = [] -> commands s !! p = Some l -> l = [].
Proof.
  intros H Hl. destruct l as [|x l]; [done|]. assert (x ∈ concat (commands s)) as Hx.
  { apply elem_of_concat. exists p, (x :: l). split; [done|left]. }
  rewrite H in Hx. by apply elem_of_nil in Hx.
Qed.

Lemma control_step_ok s : sinv s -> control_step s <> Fault /\ forall s', control_step s = Next s' -> sinv s'.
Proof.
  intros Hs. pose proof (s_control _ Hs) as Hc. pose proof (s_pending _ Hs) as Hp. unfold control_step.
  pose proof (concat_nil_wake s) as Hnil.
  destruct (szr_control s) eqn:Hctl; cbn in Hc, Hp.
  - split; [done|]. intros ? [= <-]. destruct Hc as (Hrun & Hw & Ht).
    pose proof (s_core _ Hs) as Hcore. pose proof (s_runs _ Hs) as Hruns. pose proof (s_thread _ Hs) as Hth.
    unfold busy, executing in Hcore. rewrite Ht in Hcore, Hruns, Hth.
    split; cbn; try apply Hs; auto; try done; [by rewrite Hw|]. intros p l Hl Hne. by destruct Hne; eauto.
  - split; [done|]. intros ? [= <-]. split; cbn; try apply Hs; [lia|naive_solver].
  - split; [done|]. intros ? [= <-]. split; cbn; try apply Hs; [done|naive_solver].
  - split; [done|]. intros ? [= <-]. split; cbn; try apply Hs; [done|naive_solver].
  - split; [done|]. intros ? [= <-]. split; cbn; try apply Hs; [lia|]. destruct Hc as (Hr & He & Hst & Ht).
    repeat split; auto; destruct (tasks_pending s - 1 =? 0) eqn:E; zbool; try congruence.
    + intros _. apply nil_length_inv. lia.
    + intros Hw. rewrite Hw in Hp. cbn in Hp. lia.
  - destruct (pending_evt s) eqn:He; [|done]. split; [done|]. intros ? [= <-].
    split; cbn; try apply Hs; [done|]. naive_solver.
  - split; [done|]. intros ? [= <-]. split; cbn; try apply Hs; [done|naive_solver].
  - split; [done|]. intros ? [= <-]. split; cbn; try apply Hs; auto.
  - destruct (szr_thread s) eqn:Ht; try done. split; [done|]. intros ? [= <-].
    split; cbn; try apply Hs; [done|]. naive_solver.
Qed.

(** ** Callers *)

Lemma may_enqueue_idle s p c cmd :
  sinv s -> may_enqueue s p c -> cmds s !! c = Some cmd -> is_in_queue cmd = false -> idle s c.
Proof.
  intros Hs (_ & _ & [Hw|Hidle]) Hc Hi; [|done].
  apply (q_waiting _ _ _ c (s_q _ Hs)) in Hw as (cmd' & ? & ?). congruence.
Qed.

(** The three ways [mtlk_serializer_enqueue] ends. *)
Lemma enqueue_cases s p c k :
  sinv s -> may_enqueue s p c ->
  (is_running s = false /\ mtlk_serializer_enqueue p c k s = Some (MTLK_ERR_NOT_READY, s)) \/
  (is_running s = true /\ c ∈ concat (commands s) /\ mtlk_serializer_enqueue p c k s = Some (MTLK_ERR_BUSY, s)) \/
  (exists cmd, is_running s = true /\ cmds s !! c = Some cmd /\ is_in_queue cmd = false /\ idle s c /\
     mtlk_serializer_enqueue p c k s = Some (MTLK_ERR_OK, enqueued s p c k (issuer_slid cmd) (ctxs s))).
Proof.
  intros Hs Hm. unfold mtlk_serializer_enqueue. destruct (is_running s) eqn:Hr; [|by left].
  right. destruct Hm as (Hp & [cmd Hc] & Hm). rewrite Hc. cbn. destruct (is_in_queue cmd) eqn:Hi.
  - left. repeat split. apply (q_waiting _ _ _ c (s_q _ Hs)). eauto.
  - right. exists cmd. assert (idle s c) by (eapply may_enqueue_idle; eauto; unfold may_enqueue; eauto). auto.
Qed.

Lemma enqueue_user_ok s p c t :
  sinv s -> may_enqueue s p c ->
  exists res s', mtlk_serializer_enqueue p c (UserClb t) s = Some (res, s') /\ sinv s'.
Proof.
  intros Hs Hm. destruct (enqueue_cases s p c (UserClb t) Hs Hm) as [[_ ->]|[(_ & _ & ->)|(cmd & Hr & Hc & Hi & Hidle & ->)]]; eauto.
  eexists _, _. split; [done|]. destruct (idle_frames _ _ Hidle) as [Hb Hx].
  eapply enqueued_sinv; eauto; [apply Hm|apply (s_canc _ Hs)|]. apply binv_push; auto. apply (s_core _ Hs).
Qed.

Lemma return_sinv s k b res :
  sinv s -> ctxs s !! k = Some b -> completion_event b = true -> b_pc b <> BCancelClb -> sinv (blocked_return k res s).
Proof.
  intros Hs Hk He Hpc. split; cbn; try apply Hs.
  - apply binv_neutral; [|done]. eapply binv_return; eauto. apply (s_core _ Hs).
  - intros c j. rewrite (s_canc _ Hs c j). split; intros (a & Hj & Ha & Hp); exists a; (split; [|done]).
    + rewrite lookup_delete_ne; [done|]. intros ->. by simplify_eq.
    + by apply lookup_delete_Some in Hj as [_ ?].
  - autorewrite with szr. cbn. rewrite !app_nil_r. apply (s_runs _ Hs).
  - intros p l Hl. rewrite fifo_snoc, (s_fifo _ Hs _ _ Hl). done.
Qed.

Lemma record_return_sinv s k res : sinv s -> sinv (szr_record s (EvReturn k res)).
Proof.
  intros Hs. split; cbn; try apply Hs.
  - apply binv_neutral; [|done]. apply (s_core _ Hs).
  - autorewrite with szr. cbn. rewrite !app_nil_r. apply (s_runs _ Hs).
  - intros p l Hl. rewrite fifo_snoc, (s_fifo _ Hs _ _ Hl). done.
Qed.

Lemma begin_ok s k p c :
  sinv s -> may_enqueue s p c -> ctxs s !! k = None ->
  exists s', execute_blocked_begin k p c s = Some s' /\ sinv s'.
Proof.
  intros Hs Hm Hk. unfold execute_blocked_begin.
  destruct (enqueue_cases s p c (BlockedClb k) Hs Hm) as [[_ ->]|[(_ & _ & ->)|(cmd & Hr & Hc & Hi & Hidle & ->)]]; cbn;
    [eauto using record_return_sinv..|].
  eexists. split; [done|]. destruct (idle_frames _ _ Hidle) as [Hb Hx].
  change (sinv (enqueued s p c (BlockedClb k) (issuer_slid cmd) (<[k := BCtx c false MTLK_CMD_CANCELED BWait]> (ctxs s)))).
  eapply enqueued_sinv; eauto; [apply Hm| |].
  - intros d j. rewrite (s_canc _ Hs d j). split.
    + intros (a & Hj & Ha & Hp). exists a. rewrite lookup_insert_ne; [done|congruence].
    + intros (a & [[<- <-]|[_ Hj]]%lookup_insert_Some & Ha & Hp); [done|eauto].
  - apply binv_push_blocked; auto. apply (s_core _ Hs).
Qed.

Lemma set_bpc_sinv s k b pc :
  sinv s -> ctxs s !! k = Some b -> b_pc b <> BCancelClb -> pc <> BCancelClb -> sinv (set_bpc k b pc s).
Proof.
  intros Hs Hk Hb Hpc. split; cbn; try apply Hs.
  - apply binv_pc; [apply (s_core _ Hs)|done].
  - intros c j. rewrite (s_canc _ Hs c j). destruct (decide (j = k)) as [->|Hne].
    + rewrite lookup_insert_eq, Hk. naive_solver.
    + by rewrite lookup_insert_ne.
Qed.

(** [cancel_locked] on a command that exists. *)
Lemma cancel_cases s c cmd :
  cmds s !! c = Some cmd ->
  (is_in_queue cmd = false /\ cancel_locked c s = Some (false, s)) \/
  (is_in_queue cmd = true /\ exists u, cancel_locked c s = Some (true, u) /\
     forall o, set_cancelling u ((c, o) :: cancelling u) = withdrawn s c cmd o (ctxs s)).
Proof.
  intros Hc. unfold cancel_locked. rewrite Hc. cbn. destruct (is_in_queue cmd); [right|by left].
  split; [done|]. eexists. split; [done|]. done.
Qed.

Lemma cancel_ok s c :
  sinv s -> is_Some (cmds s !! c) -> exists r u, cancel_locked c s = Some (r, u) /\
    sinv (if (r : bool) then set_cancelling u ((c, None) :: cancelling u) else u).
Proof.
  intros Hs [cmd Hc]. destruct (cancel_cases s c cmd Hc) as [[_ ->]|(Hi & u & -> & Hu)]; [eauto|].
  eexists _, _. split; [done|]. rewrite Hu. apply withdrawn_sinv; auto; [|apply (s_core _ Hs)].
  intros d k. rewrite elem_of_cons, <-(s_canc _ Hs d k). split; [intros [?|?]; [congruence|done]|auto].
Qed.

Lemma cancel_clb_ok s c :
  sinv s -> (c, None) ∈ cancelling s -> exists u, call_post_exec MTLK_CMD_CANCELED c s = Some u /\
    sinv (set_cancelling u (filter (fun x => x.1 <> c) (cancelling u))).
Proof.
  intros Hs Hin. assert (c ∈ busy s) as Hb.
  { unfold busy. apply elem_of_app. right. apply elem_of_app. right. apply list_elem_of_fmap. by exists (c, None). }
  destruct (busy_alive _ _ Hs Hb) as (cmd & Hc & _).
  assert (exists B, busy s ≡ₚ c :: B) as [B HB].
  { apply elem_of_Permutation in Hb. done. }
  destruct (call_post_exec_ok MTLK_CMD_CANCELED _ _ _ _ Hs Hc HB) as [-> _].
  eexists. split; [done|]. refine (cancel_clb_sinv s c None cmd _ Hs Hin Hc _ _).
  - by apply reported_canc, canc_filter_none.
  - intros B' HB'. by apply (call_post_exec_ok MTLK_CMD_CANCELED _ _ _ _ Hs Hc HB').
Qed.

(** A frame about to call the callback of the command it cancelled. *)
Lemma frame_cancelling s k b :
  sinv s -> ctxs s !! k = Some b -> b_pc b = BCancelClb ->
  exists cmd B, cmds s !! b_cmd b = Some cmd /\ post_exec cmd = BlockedClb k /\ busy s ≡ₚ b_cmd b :: B /\ (b_cmd b, Some k) ∈ cancelling s.
Proof.
  intros Hs Hk Hpc. assert ((b_cmd b, Some k) ∈ cancelling s) as Hin by (apply (s_canc _ Hs); eauto).
  assert (b_cmd b ∈ busy s) as Hb.
  { unfold busy. apply elem_of_app. right. apply elem_of_app. right. apply list_elem_of_fmap. by exists (b_cmd b, Some k). }
  destruct (busy_alive _ _ Hs Hb) as (cmd & Hc & Hp). pose proof Hb as [B HB]%elem_of_Permutation.
  exists cmd, B. repeat split; auto.
  destruct (b_frame _ _ _ _ (s_core _ Hs) k b Hk) as [_ H]. destruct (completion_event b); destruct H; [done|congruence].
Qed.

Lemma blocked_clb_ok s k b :
  sinv s -> ctxs s !! k = Some b -> b_pc b = BCancelClb ->
  exists u, call_post_exec MTLK_CMD_CANCELED (b_cmd b) s = Some u /\
    sinv (blocked_return k MTLK_ERR_TIMEOUT (set_cancelling u (filter (fun x => x.1 <> b_cmd b) (cancelling u)))).
Proof.
  intros Hs Hk Hpc. destruct (frame_cancelling _ _ _ Hs Hk Hpc) as (cmd & B & Hc & Hpost & HB & Hin).
  destruct (call_post_exec_ok MTLK_CMD_CANCELED _ _ _ _ Hs Hc HB) as [-> _].
  eexists. split; [done|]. set (X := reported _ _ _).
  assert (X = <[k := BCtx (b_cmd b) true MTLK_CMD_CANCELED (b_pc b)]> (ctxs s)) as HX.
  { unfold X, reported. by rewrite Hpost, Hk. }
  change (sinv (szr_record (set_cancelling (szr_record (set_ctxs s (delete k X)) (EvDone MTLK_CMD_CANCELED (b_cmd b) (post_exec cmd)))
    (filter (fun x => x.1 <> b_cmd b) (cancelling s))) (EvReturn k MTLK_ERR_TIMEOUT))).
  apply record_return_sinv. eapply cancel_clb_sinv; eauto.
  - rewrite HX, delete_insert_eq. by apply canc_filter_frame.
  - intros B' HB'. destruct (call_post_exec_ok MTLK_CMD_CANCELED _ _ _ _ Hs Hc HB') as [_ H].
    eapply (binv_return _ _ _ _ k); [exact H|fold X; rewrite HX; apply lookup_insert_eq|done].
Qed.

Lemma blocked_step_ok s e k :
  sinv s -> execute_blocked_step e k s <> Fault /\ forall s', execute_blocked_step e k s = Next s' -> sinv s'.
Proof.
  intros Hs. unfold execute_blocked_step. destruct (ctxs s !! k) as [b|] eqn:Hk; [|done].
  destruct (b_pc b) eqn:Hpc.
  - destruct (completion_event b) eqn:He.
    + split; [done|]. intros ? [= <-]. eapply return_sinv; eauto. by rewrite Hpc.
    + destruct e; [|done]. split; [done|]. intros ? [= <-]. apply set_bpc_sinv; auto; by rewrite ?Hpc.
  - assert (is_Some (cmds s !! b_cmd b)) as [cmd Hc].
    { destruct (b_frame _ _ _ _ (s_core _ Hs) k b Hk) as [H _]. apply posts_alive in H as (cmd & ? & _). eauto. }
    destruct (cancel_cases s (b_cmd b) cmd Hc) as [[_ ->]|(Hi & u & -> & Hu)]; (split; [done|]); intros ? [= <-].
    { apply set_bpc_sinv; auto; by rewrite ?Hpc. }
    rewrite Hu. change (sinv (withdrawn s (b_cmd b) cmd (Some k) (<[k := BCtx (b_cmd b) (completion_event b) (szr_result b) BCancelClb]> (ctxs s)))).
    apply withdrawn_sinv; auto; [|apply binv_pc; [apply (s_core _ Hs)|done]].
    intros d j. rewrite elem_of_cons, (s_canc _ Hs d j). destruct (decide (j = k)) as [->|Hne].
    + rewrite lookup_insert_eq, Hk. naive_solver congruence.
    + rewrite lookup_insert_ne by done. split; [intros [?|?]; [congruence|done]|auto].
  - destruct (blocked_clb_ok s k b Hs Hk Hpc) as (u & Hcall & Hu). rewrite Hcall. cbn.
    split; [done|]. by intros ? [= <-].
  - destruct (completion_event b) eqn:He; [|done].
    split; [done|]. intros ? [= <-]. eapply return_sinv; eauto. by rewrite Hpc.
Qed.

(** ** Every step of polite callers *)

Lemma szr_step_ok l s : sinv s -> polite l s -> szr_step l s <> Fault /\ forall s', szr_step l s = Next s' -> sinv s'.
Proof.
  intros Hs Hl. destruct l as [c slid|c|p c t|c|c| | |k p c|e k]; cbn in *.
  - split; [done|]. intros ? [= <-]. destruct (idle_frames _ _ Hl) as [Hb Hx].
    split; cbn; try apply Hs.
    + unfold posts. cbn. rewrite fmap_insert. apply binv_insert; auto. apply (s_core _ Hs).
    + apply q_other; [apply (s_q _ Hs)| |done]. intros H. apply Hb. unfold busy. set_solver.
    + unfold posts. cbn. rewrite fmap_insert. fold (posts s). rewrite in_post_map by done. apply (s_runs _ Hs).
  - split; [done|]. intros ? [= <-]. destruct (idle_frames _ _ Hl) as [Hb Hx].
    assert (posts (mtlk_command_cleanup c s) = delete c (posts s)) as Hp by (unfold posts; cbn; by rewrite fmap_delete).
    split; rewrite ?Hp; cbn; try apply Hs.
    + apply binv_delete; auto. apply (s_core _ Hs).
    + apply q_other; [apply (s_q _ Hs)|]. intros H. apply Hb. unfold busy. set_solver.
    + rewrite (s_runs _ Hs). apply Permutation_app_head.
      erewrite map_ext_in; [done|]. intros d Hd%list_elem_of_In. unfold post_of.
      rewrite lookup_delete_ne; [done|]. intros ->. by apply Hb, in_post_busy.
  - destruct (enqueue_user_ok s p c t Hs Hl) as (res & u & -> & Hu). cbn. split; [done|]. by intros ? [= <-].
  - destruct (cancel_ok s c Hs Hl) as (r & u & -> & Hu). cbn. split; [done|]. by intros ? [= <-].
  - destruct (decide ((c, None) ∈ cancelling s)) as [Hin|Hn]; [rewrite bool_decide_true by done|by rewrite bool_decide_false].
    destruct (cancel_clb_ok s c Hs Hin) as (u & Hcall & Hu). rewrite Hcall. cbn. split; [done|]. by intros ? [= <-].
  - by apply thread_step_ok.
  - by apply control_step_ok.
  - destruct Hl as (Hm & Hk & _). destruct (begin_ok s k p c Hs Hm Hk) as (u & -> & Hu). cbn. split; [done|]. by intros ? [= <-].
  - by apply blocked_step_ok.
Qed.

Lemma sinv_init n : sinv (mtlk_serializer_init n).
Proof.
  assert (concat (replicate n ([] : list Z)) = []) as Hc by (induction n; done).
  split; cbn; rewrite ?Hc; auto.
  - split; cbn; [constructor|intros c H; by apply elem_of_nil in H|done|intros c k H; by apply elem_of_nil in H|done].
  - split; [apply length_replicate| |done]. intros p l c [-> _]%lookup_replicate H. by apply elem_of_nil in H.
  - intros c k. split; [intros H; by apply elem_of_nil in H|]. by intros (b & ? & _).
  - intros p l [-> _]%lookup_replicate. done.
  - intros p l [-> _]%lookup_replicate. done.
Qed.

Lemma szr_reach_inv n s : szr_reach n s -> sinv s.
Proof. induction 1 as [|l s s' _ IH Hl Hstep]; [apply sinv_init|]. by apply (szr_step_ok l s IH Hl). Qed.
