(* ===== verification/SzrRun.v ===== *)
(** * SzrRun: the thread of the serializer left alone, and what a step appends to the log

    A measure that every statement of the thread lowers, so that it sleeps
    after that many statements with nothing waiting, and the facts about single
    steps the properties need. *)
From S2P Require Import Prelude Szr SzrInv SzrOps.
From Stdlib Require Import Permutation.

(** ** The thread falls asleep *)

(** Statements of the thread until it sleeps, at most. *)
Definition thread_fuel (s : mtlk_serializer_t) : nat :=
  (let n := num_priorities s in
  let ev := if new_event s then n + 10 else O in
  (n + 10) * length (concat (commands s)) +
  match szr_thread s with
  | TWait => if new_event s then n + 7 else O
  | TCheck => n + 6 | TReset => n + 5
  | TScan i _ => i + 1 + ev
  | TExec => n + 4 + ev | TPost => n + 3 + ev | TClear => n + 2 + ev
  | TExit => O
  end)%nat.

Fixpoint thread_run (fuel : nat) (s : mtlk_serializer_t) : mtlk_serializer_t :=
  match fuel with
  | O => s
  | S fuel => match thread_step s with Next s' => thread_run fuel s' | _ => s end
  end.

Lemma call_frame r c s u : call_post_exec r c s = Some u ->
  exists X k, u = szr_record (set_ctxs s X) (EvDone r c k).
Proof.
  unfold call_post_exec. destruct (cmds s !! c) as [cmd|]; [|done]. cbn.
  destruct (post_exec cmd) as [|j]; [intros [= <-]; exists (ctxs s); destruct s; cbn; eauto|].
  destruct (ctxs s !! j); [intros [= <-]; eauto|done].
Qed.

Lemma thread_step_fuel s s' : sinv s -> thread_step s = Next s' -> (thread_fuel s' < thread_fuel s)%nat.
Proof.
  intros Hs. pose proof (s_thread _ Hs) as Hok. unfold thread_step, thread_fuel.
  destruct (szr_thread s) as [| | |[|i] e| | | |] eqn:Ht; cbn in Hok.
  - destruct (new_event s) eqn:He; [|done]. intros [= <-]. cbn. lia.
  - intros [= <-]. destruct (osdep_stop s); cbn; lia.
  - intros [= <-]. cbn. lia.
  - destruct Hok as (_ & -> & _). intros [= <-]. cbn. destruct (new_event s); lia.
  - destruct Hok as (_ & -> & Hi).
    destruct (take_command_ok s i true Hs Ht) as [(c & l & cmd & Hl & Hc & Hp & ->)|[Hl ->]]; cbn; intros [= <-]; cbn; [|lia].
    rewrite Hp. rewrite (concat_insert_less _ _ _ l c Hl ltac:(done)). cbn. destruct (new_event s); lia.
  - destruct (current_command s) as [c|]; [|done]. cbn. destruct (cmds s !! c); [|done]. cbn. intros [= <-]. cbn. lia.
  - destruct (current_command s) as [c|]; [|done]. cbn. destruct (call_post_exec _ c s) as [u|] eqn:Hu; [|done].
    apply call_frame in Hu as (X & k & ->). cbn. intros [= <-]. cbn. lia.
  - intros [= <-]. cbn. lia.
  - done.
Qed.

Lemma thread_run_sinv m s : sinv s -> sinv (thread_run m s).
Proof.
  revert s. induction m as [|m IH]; intros s Hs; [done|]. cbn. destruct (thread_step s) as [s'| |] eqn:E; try done.
  by apply IH, (thread_step_ok s Hs).
Qed.

(** It sleeps after as many statements as the measure says. *)
Lemma thread_run_sleeps m s : sinv s -> (thread_fuel s <= m)%nat -> thread_step (thread_run m s) = Waits.
Proof.
  revert s. induction m as [|m IH]; intros s Hs Hm; cbn.
  - destruct (thread_step s) as [s'| |] eqn:E; [|done|by apply (thread_step_ok s Hs) in E].
    apply (thread_step_fuel _ _ Hs) in E. lia.
  - destruct (thread_step s) as [s'| |] eqn:E; [|done|by apply (thread_step_ok s Hs) in E].
    apply IH; [by apply (thread_step_ok s Hs)|]. apply (thread_step_fuel _ _ Hs) in E. lia.
Qed.

(** A thread that waits has nothing left to do. *)
Lemma waits_empty s : sinv s -> thread_step s = Waits ->
  (szr_thread s = TExit \/ (szr_thread s = TWait /\ new_event s = false)) /\ concat (commands s) = [] /\ executing s = [].
Proof.
  intros Hs Hw. assert (szr_thread s = TExit \/ (szr_thread s = TWait /\ new_event s = false)) as Ht.
  { unfold thread_step in Hw. destruct (szr_thread s) as [| | |[|i] e| | | |] eqn:Ht; auto; try done.
    - destruct (new_event s); [done|auto].
    - by destruct (take_command i e s).
    - by destruct (current_command s ≫= _).
    - by destruct (current_command s ≫= _). }
  split; [done|]. split.
  - destruct Ht as [Ht|[Ht He]].
    + pose proof (s_control _ Hs) as Hc. rewrite Ht in Hc. destruct (szr_control s); cbn in Hc; naive_solver.
    + destruct (concat (commands s)) as [|c w] eqn:Hq; [done|]. exfalso.
      assert (c ∈ concat (commands s)) as (p & l & Hp & Hc)%elem_of_concat by (rewrite Hq; left).
      destruct (s_wake _ Hs p l Hp) as [?|Hsee]; [by intros ->; apply elem_of_nil in Hc|congruence|by rewrite Ht in Hsee].
  - unfold executing. by destruct Ht as [-> | [-> _]].
Qed.

(** What the thread does not do: accept, cancel, or change a callback. *)
Definition cancelled (l : list szr_ev) : list (Z * completion) :=
  omap (fun e => match e with EvDone MTLK_CMD_CANCELED c k => Some (c, k) | _ => None end) l.

Lemma cancelled_app l1 l2 : cancelled (l1 ++ l2) = cancelled l1 ++ cancelled l2.
Proof. apply omap_app. Qed.
#[export] Hint Rewrite cancelled_app : szr.

Lemma completed_split l : completed l ≡ₚ executed l ++ cancelled l.
Proof.
  induction l as [|e l IH]; [done|]. destruct e as [| | | |[] c k|]; cbn; auto.
  etransitivity; [apply perm_skip, IH|apply Permutation_middle].
Qed.

Lemma thread_step_keeps s s' : thread_step s = Next s' ->
  posts s' = posts s /\ cancelling s' = cancelling s /\ szr_control s' = szr_control s /\
  num_priorities s' = num_priorities s /\
  accepted (szr_log s') = accepted (szr_log s) /\ cancelled (szr_log s') = cancelled (szr_log s).
Proof.
  unfold thread_step. destruct (szr_thread s) as [| | |[|i] e| | | |].
  - destruct (new_event s); [|done]. by intros [= <-].
  - by intros [= <-].
  - by intros [= <-].
  - by intros [= <-].
  - unfold take_command. destruct (queue_at s i) as [|c l]; [by intros [= <-]|].
    destruct (cmds s !! c) as [cmd|] eqn:Hc; [|done]. cbn. intros [= <-].
    cbn. autorewrite with szr. cbn. rewrite ?app_nil_r. unfold posts. cbn. by rewrite (posts_same _ _ _ _ _ _ Hc).
  - destruct (current_command s) as [c|]; [|done]. cbn. destruct (cmds s !! c); [|done]. cbn. intros [= <-].
    cbn. autorewrite with szr. cbn. by rewrite ?app_nil_r.
  - destruct (current_command s) as [c|]; [|done]. cbn. destruct (call_post_exec _ c s) as [u|] eqn:Hu; [|done].
    apply call_frame in Hu as (X & k & ->). cbn. intros [= <-]. cbn. autorewrite with szr. cbn. by rewrite ?app_nil_r.
  - by intros [= <-].
  - done.
Qed.

Lemma thread_run_keeps m s : let s' := thread_run m s in
  posts s' = posts s /\ cancelling s' = cancelling s /\ szr_control s' = szr_control s /\
  num_priorities s' = num_priorities s /\
  accepted (szr_log s') = accepted (szr_log s) /\ cancelled (szr_log s') = cancelled (szr_log s).
Proof.
  cbv zeta. revert s. induction m as [|m IH]; intros s; [done|]. cbn. destruct (thread_step s) as [s'| |] eqn:E; try done.
  apply thread_step_keeps in E as (? & ? & ? & ? & ? & ?).
  destruct (IH s') as (? & ? & ? & ? & ? & ?). repeat split; congruence.
Qed.

(** ** Logs only grow, and nobody else moves the thread *)

Lemma enqueue_log p c k s r u : mtlk_serializer_enqueue p c k s = Some (r, u) ->
  szr_thread u = szr_thread s /\ num_priorities u = num_priorities s /\ (r = MTLK_ERR_OK /\ szr_log u = szr_log s ++ [EvAccept p c k] \/
    (r = MTLK_ERR_BUSY \/ r = MTLK_ERR_NOT_READY) /\ u = s).
Proof.
  unfold mtlk_serializer_enqueue. destruct (negb _); [intros [= <- <-]; eauto 10|].
  destruct (cmds s !! c) as [cmd|]; [|done]. cbn. destruct (is_in_queue cmd); intros [= <- <-]; eauto 10.
Qed.

Lemma cancel_log c s r u : cancel_locked c s = Some (r, u) ->
  szr_thread u = szr_thread s /\ num_priorities u = num_priorities s /\ (u = s \/ exists p, szr_log u = szr_log s ++ [EvRemove p c]).
Proof.
  unfold cancel_locked. destruct (cmds s !! c) as [cmd|]; [|done]. cbn.
  destruct (is_in_queue cmd); intros [= <- <-]; cbn; eauto 10.
Qed.

Lemma blocked_step_log e k s s' : execute_blocked_step e k s = Next s' ->
  szr_thread s' = szr_thread s /\ num_priorities s' = num_priorities s /\ exists evs, szr_log s' = szr_log s ++ evs /\ accepted evs = [] /\ runs evs = [].
Proof.
  unfold execute_blocked_step. destruct (ctxs s !! k) as [b|]; [|done].
  assert (exists evs, szr_log s = szr_log s ++ evs /\ accepted evs = [] /\ runs evs = []) as H0 by (exists []; by rewrite app_nil_r).
  destruct (b_pc b).
  - destruct (completion_event b); [intros [= <-]; cbn; eauto 10|]. destruct e; [|done]. intros [= <-]. eauto 10.
  - destruct (cancel_locked (b_cmd b) s) as [[[] u]|] eqn:Hu; [| |done]; intros [= <-];
      apply cancel_log in Hu as (Ht & Hn & [->|[p Hp]]); cbn; try rewrite Hp; eauto 10.
  - destruct (call_post_exec _ _ s) as [u|] eqn:Hu; [|done]. apply call_frame in Hu as (X & j & ->).
    intros [= <-]. cbn. rewrite <-app_assoc. eauto 10.
  - destruct (completion_event b); [intros [= <-]; cbn; eauto 10|done].
Qed.

(** Events other than the beginning and the end of a blocked execution. *)
Definition plain (e : szr_ev) : Prop :=
  match e with EvReturn _ _ | EvAccept _ _ (BlockedClb _) => False | _ => True end.

(** The log grew by events that satisfy [P]. *)
Definition grew (P : szr_ev -> Prop) (l l' : list szr_ev) : Prop := exists evs, l' = l ++ evs /\ Forall P evs.

Lemma grew_refl P l : grew P l l.
Proof. exists []. by rewrite app_nil_r. Qed.
Lemma grew_one (P : szr_ev -> Prop) l e : P e -> grew P l (l ++ [e]).
Proof. intros He. exists [e]. split; [done|by repeat constructor]. Qed.
Lemma grew_two (P : szr_ev -> Prop) l e1 e2 : P e1 -> P e2 -> grew P l ((l ++ [e1]) ++ [e2]).
Proof. intros H1 H2. exists [e1; e2]. rewrite <-app_assoc. split; [done|by repeat constructor]. Qed.
#[export] Hint Resolve grew_refl grew_one grew_two : wave.
#[export] Hint Extern 1 (plain _) => exact I : wave.

(** A step by a label of its own class logs plain events, or any. *)
Definition step_ev (l : szr_label) (e : szr_ev) : Prop :=
  match l with LBlock _ _ _ | LBlockStep _ _ => True | _ => plain e end.
#[export] Hint Extern 1 (step_ev _ _) => exact I : wave.

Lemma control_step_log s s' : control_step s = Next s' ->
  szr_log s' = szr_log s /\ (szr_thread s' = szr_thread s \/ szr_thread s' = TWait) /\ num_priorities s' = num_priorities s.
Proof.
  unfold control_step. destruct (szr_control s); try (intros [= <-]; by auto).
  - destruct (pending_evt s); [|done]. intros [= <-]. auto.
  - destruct (szr_thread s) eqn:Ht; try done. intros [= <-]. auto.
Qed.

Lemma thread_step_log s s' : thread_step s = Next s' -> grew plain (szr_log s) (szr_log s').
Proof.
  unfold thread_step. destruct (szr_thread s) as [| | |[|i] e| | | |]; try (intros [= <-]; by auto with wave).
  - destruct (new_event s); [|done]. intros [= <-]. cbn. auto with wave.
  - unfold take_command. destruct (queue_at s i) as [|c l]; [intros [= <-]; cbn; auto with wave|].
    destruct (cmds s !! c); [|done]. cbn. intros [= <-]. cbn. auto with wave.
  - destruct (current_command s) as [c|]; [|done]. cbn. destruct (cmds s !! c); [|done]. cbn. intros [= <-]. cbn. auto with wave.
  - destruct (current_command s) as [c|]; [|done]. cbn. destruct (call_post_exec _ c s) as [u|] eqn:Hu; [|done].
    apply call_frame in Hu as (X & k & ->). cbn. intros [= <-]. cbn. auto with wave.
Qed.

(** A step appends to the log; only the thread's own steps, and a start, move the thread. *)
Lemma szr_step_log l s s' : szr_step l s = Next s' ->
  grew (step_ev l) (szr_log s) (szr_log s') /\ num_priorities s' = num_priorities s /\
  (l = LThread \/ szr_thread s' = szr_thread s \/ szr_thread s' = TWait).
Proof.
  destruct l as [c slid|c|p c t|c|c| | |k p c|e k]; cbn; try (intros [= <-]; cbn; by auto with wave).
  - destruct (mtlk_serializer_enqueue _ _ _ s) as [[r u]|] eqn:Hu; [|done]. intros [= <-].
    apply enqueue_log in Hu as (Ht & Hn & [[_ ->]|[_ ->]]); auto with wave.
  - destruct (cancel_locked c s) as [[r u]|] eqn:Hu; [|done]. intros [= <-].
    apply cancel_log in Hu as (Ht & Hn & Hl). destruct r; cbn; destruct Hl as [->|[p ->]]; auto with wave.
  - case_bool_decide; [|done]. destruct (call_post_exec _ c s) as [u|] eqn:Hu; [|done]. intros [= <-].
    apply call_frame in Hu as (X & k & ->). cbn. auto with wave.
  - intros H. split; [by apply thread_step_log|]. split; [by apply thread_step_keeps|auto].
  - intros (Hl & Ht & Hn)%control_step_log. rewrite Hl. auto with wave.
  - unfold execute_blocked_begin. destruct (mtlk_serializer_enqueue _ _ _ s) as [[r u]|] eqn:Hu; [|done]. cbn.
    apply enqueue_log in Hu as (Ht & Hn & Hl). destruct (negb _); cbn; intros [= <-]; cbn;
      destruct Hl as [[_ ->]|[_ ->]]; auto with wave.
  - intros (Ht & Hn & evs & Hl & _)%blocked_step_log. rewrite Hl. split; [exists evs; split; [done|by apply Forall_true]|auto].
Qed.

(** ** Runs as data *)

Definition in_frameb (s : mtlk_serializer_t) (c : Z) : bool :=
  existsb (fun kb => b_cmd kb.2 =? c) (map_to_list (ctxs s)).
Definition idleb (s : mtlk_serializer_t) (c : Z) : bool := negb (bool_decide (c ∈ busy s)) && negb (in_frameb s c).
Definition aliveb (s : mtlk_serializer_t) (c : Z) : bool := match cmds s !! c with Some _ => true | None => false end.
Definition may_enqueueb (s : mtlk_serializer_t) (p : nat) (c : Z) : bool :=
  (p <? num_priorities s)%nat && aliveb s c && (bool_decide (c ∈ concat (commands s)) || idleb s c).
Definition names_frame (k : Z) (e : szr_ev) : bool :=
  match e with EvReturn j _ | EvAccept _ _ (BlockedClb j) => j =? k | _ => false end.

Definition politeb (l : szr_label) (s : mtlk_serializer_t) : bool :=
  match l with
  | LInit c _ | LCleanup c => idleb s c
  | LEnqueue p c _ => may_enqueueb s p c
  | LCancel c => aliveb s c
  | LBlock k p c => may_enqueueb s p c && match ctxs s !! k with None => true | _ => false end &&
                    forallb (fun e => negb (names_frame k e)) (szr_log s)
  | _ => true
  end.

Lemma idleb_sound s c : idleb s c = true -> idle s c.
Proof.
  unfold idleb, in_frameb. intros [Hb Hf]%andb_true_iff. split.
  - intros Hc. by rewrite bool_decide_true in Hb.
  - intros (k & b & Hk & He). apply negb_true_iff in Hf. enough (existsb (fun kb => b_cmd kb.2 =? c) (map_to_list (ctxs s)) = true) by congruence.
    apply existsb_exists. exists (k, b). cbn. split; [|lia]. by apply list_elem_of_In, elem_of_map_to_list.
Qed.

Lemma may_enqueueb_sound s p c : may_enqueueb s p c = true -> may_enqueue s p c.
Proof.
  unfold may_enqueueb, aliveb. intros [[Hp Ha]%andb_true_iff Hi]%andb_true_iff. apply Nat.ltb_lt in Hp.
  split_and!; [done|by destruct (cmds s !! c)|].
  apply orb_true_iff in Hi as [Hi|Hi]; [left; by eapply bool_decide_eq_true|right; by apply idleb_sound].
Qed.

Lemma politeb_sound l s : politeb l s = true -> polite l s.
Proof.
  destruct l; cbn; auto using idleb_sound, may_enqueueb_sound.
  - unfold aliveb. by destruct (cmds s !! c).
  - intros [[Hm Hk]%andb_true_iff Hl]%andb_true_iff. split_and!; [by apply may_enqueueb_sound|by destruct (ctxs s !! k)|].
    intros e He p' c' r. rewrite forallb_forall in Hl. apply list_elem_of_In, Hl in He.
    split; intros ->; cbn in He; by rewrite Z.eqb_refl in He.
Qed.

(** The state a sequence of polite steps leads to, if each can be taken. *)
Fixpoint szr_play (ls : list szr_label) (s : mtlk_serializer_t) : option mtlk_serializer_t :=
  match ls with
  | [] => Some s
  | l :: ls => if politeb l s then match szr_step l s with Next s' => szr_play ls s' | _ => None end else None
  end.

Lemma szr_play_reach n ls s s' : szr_reach n s -> szr_play ls s = Some s' -> szr_reach n s'.
Proof.
  revert s. induction ls as [|l ls IH]; intros s Hs H; cbn in H; [by simplify_eq|].
  destruct (politeb l s) eqn:Hp; [|done]. destruct (szr_step l s) as [s1| |] eqn:Hl; [|done..].
  eapply IH; [|exact H]. eapply szr_reach_step; eauto using politeb_sound.
Qed.
