(* ===== verification/SzrThms.v ===== *)
(** * SzrThms: what the command serializer guarantees *)
From S2P Require Import Prelude Szr SzrInv SzrOps SzrRun.
From Stdlib Require Import Permutation.

(** ** Exactly once *)

(** C14 However callers, cancellers, blocked executions, the thread and the stop
    of the serializer interleave, as long as callers enqueue a command only when
    nobody is executing or cancelling it and free it only when nobody has it:
    no step touches a command or a stack frame that does not exist, and every
    command accepted is exactly one of waiting, being executed, being cancelled,
    or completed - its completion callback called once - and its own callback
    ran exactly for those completed as executed (and the one executing now). *)
Theorem szr_exactly_once (n : nat) (s : mtlk_serializer_t) (Hs : szr_reach n s) :
  (forall l, polite l s -> szr_step l s <> Fault) /\
  NoDup (busy s) /\
  accepted (szr_log s) ≡ₚ completed (szr_log s) ++ map (fun c => (c, post_of (posts s) c)) (busy s) /\
  runs (szr_log s) ≡ₚ executed (szr_log s) ++
    map (fun c => (c, post_of (posts s) c)) (in_post (szr_thread s) (current_command s)).
Proof.
  apply szr_reach_inv in Hs. split_and!.
  - intros l Hl. by apply szr_step_ok.
  - by apply busy_nodup.
  - apply (b_acc _ _ _ _ (s_core _ Hs)).
  - apply (s_runs _ Hs).
Qed.

(** ** Priorities *)

(** The states of one scan over the priorities that began in [s0]. *)
Inductive scanning (s0 : mtlk_serializer_t) : mtlk_serializer_t -> Prop :=
| scanning_start : szr_thread s0 = TScan (num_priorities s0) true -> scanning s0 s0
| scanning_step l s s' i e : scanning s0 s -> polite l s -> szr_step l s = Next s' -> szr_thread s' = TScan i e -> scanning s0 s'.

(** Whatever a list holds was in it before or accepted since. *)
Lemma fifo_member p c l1 evs l :
  fifo p (l1 ++ evs) = Some l -> c ∈ l ->
  (exists l0, fifo p l1 = Some l0 /\ c ∈ l0) \/ exists k, EvAccept p c k ∈ evs.
Proof.
  revert l. induction evs as [|e evs IH] using rev_ind; intros l Hf Hc; [rewrite app_nil_r in Hf; eauto|].
  rewrite app_assoc, fifo_snoc in Hf. destruct (fifo p (l1 ++ evs)) as [l'|]; [|done]. cbn in Hf.
  assert (c ∈ l' \/ exists k, e = EvAccept p c k) as [Hc'|[k ->]].
  { destruct e as [q d k|q d|q d|d k|r d k|k r]; cbn in Hf; try (simplify_eq; by left).
    - case_bool_decide; simplify_eq; [|by left]. apply elem_of_app in Hc as [?| ->%list_elem_of_singleton]; eauto.
    - case_bool_decide; [|simplify_eq; by left]. destruct l' as [|x l']; [done|]. case_bool_decide; simplify_eq. left. by right.
    - case_bool_decide; [|simplify_eq; by left]. case_bool_decide; simplify_eq. left. by apply list_elem_of_filter in Hc as [_ ?]. }
  - destruct (IH l') as [?|[k Hk]]; auto. right. exists k. set_solver.
  - right. exists k. set_solver.
Qed.

Lemma num_priorities_reach n s : szr_reach n s -> length (commands s) = num_priorities s.
Proof. intros Hs%szr_reach_inv. apply (q_len _ _ _ (s_q _ Hs)). Qed.

Lemma scanning_reach n s0 s : szr_reach n s0 -> scanning s0 s -> szr_reach n s.
Proof. intros H0. induction 1; [done|]. by eapply szr_reach_step. Qed.

Lemma scanning_scans s0 s : scanning s0 s -> exists i e, szr_thread s = TScan i e.
Proof. destruct 1; eauto. Qed.

(** During a scan, what waits at a priority already looked at came since. *)
Lemma scanning_newer n s0 s : szr_reach n s0 -> scanning s0 s ->
  exists evs, szr_log s = szr_log s0 ++ evs /\
    forall i e q l c, szr_thread s = TScan i e -> (i <= q)%nat -> commands s !! q = Some l -> c ∈ l ->
      exists k, EvAccept q c k ∈ evs.
Proof.
  intros H0. induction 1 as [Ht|l s s' i e Hsc IH Hl Hstep Ht].
  - exists []. rewrite app_nil_r. split; [done|]. intros i e q l c Ht' Hq Hc. rewrite Ht in Ht'. simplify_eq.
    apply lookup_lt_Some in Hc. rewrite (num_priorities_reach _ _ H0) in Hc. lia.
  - destruct IH as (evs & Hlog & IH). destruct (szr_step_log _ _ _ Hstep) as ((evs' & Hlog' & _) & Hn & Hmv).
    pose proof (szr_reach_inv _ _ (scanning_reach _ _ _ H0 Hsc)) as Hs.
    assert (sinv s') as Hs' by (eapply szr_step_ok; eauto).
    exists (evs ++ evs'). split; [by rewrite Hlog', Hlog, app_assoc|].
    intros i' e' q l' c Ht' Hq Hl' Hc. rewrite Ht in Ht'. simplify_eq.
    pose proof (s_fifo _ Hs' _ _ Hl') as Hf. rewrite Hlog' in Hf.
    destruct (fifo_member _ _ _ _ _ Hf Hc) as [(l0 & Hf0 & Hc0)|[k Hk]]; [|exists k; set_solver].
    assert (commands s !! q = Some l0) as Hl0.
    { apply lookup_lt_Some in Hl'. rewrite (q_len _ _ _ (s_q _ Hs')), Hn in Hl'.
      rewrite (q_lookup _ _ _ q (s_q _ Hs) Hl'). rewrite (s_fifo _ Hs q _ (q_lookup _ _ _ q (s_q _ Hs) Hl')) in Hf0. done. }
    destruct (scanning_scans _ _ Hsc) as (i0 & e0 & Ht0).
    enough (exists k, EvAccept q c k ∈ evs) as [k ?] by (exists k; set_solver).
    destruct Hmv as [->|[Hmv|Hmv]]; [|eapply IH; eauto; congruence|congruence].
    cbn in Hstep. destruct i0 as [|i0].
    + pose proof (s_thread _ Hs) as Hok. rewrite Ht0 in Hok. destruct Hok as (_ & -> & _).
      unfold thread_step in Hstep. rewrite Ht0 in Hstep. by simplify_eq.
    + unfold thread_step in Hstep. rewrite Ht0 in Hstep.
      destruct (take_command_ok s i0 e0 Hs Ht0) as [(d & l & cmd & _ & _ & _ & Hk)|[He Hk]]; rewrite Hk in Hstep;
        simplify_eq/=; try done.
      destruct (decide (q = i')) as [->|Hne]; [rewrite He in Hl'; simplify_eq; by apply elem_of_nil in Hc|].
      eapply IH; eauto. lia.
Qed.

(** The lists are first-in-first-out queues per priority, and the thread
    serves priorities in order: the command it takes is the oldest one waiting
    at its priority, and a command waiting at a higher priority then was
    enqueued after the scan began (the scan had already passed it). *)
Theorem szr_priority_order (n : nat) (s0 s s' : mtlk_serializer_t) (p : nat) (c : Z)
  (H0 : szr_reach n s0) (Hsc : scanning s0 s) (Hstep : thread_step s = Next s')
  (Htake : szr_log s' = szr_log s ++ [EvTake p c]) :
  (forall q l, commands s !! q = Some l -> fifo q (szr_log s) = Some l) /\
  (exists l, fifo p (szr_log s) = Some (c :: l) /\ queue_at s' p = l) /\
  (forall q l d, (p < q)%nat -> commands s !! q = Some l -> d ∈ l ->
     exists k evs, szr_log s = szr_log s0 ++ evs /\ EvAccept q d k ∈ evs).
Proof.
  pose proof (szr_reach_inv _ _ (scanning_reach _ _ _ H0 Hsc)) as Hs.
  destruct (scanning_newer _ _ _ H0 Hsc) as (evs & Hlog & Hnew).
  destruct (scanning_scans _ _ Hsc) as (i & e & Ht). split; [apply (s_fifo _ Hs)|].
  unfold thread_step in Hstep. rewrite Ht in Hstep. destruct i as [|i].
  { simplify_eq/=. by apply (f_equal length) in Htake; rewrite length_app in Htake; cbn in Htake; lia. }
  destruct (take_command_ok s i e Hs Ht) as [(d & l & cmd & Hl & Hc & Hp & Hk)|[He Hk]]; rewrite Hk in Hstep; simplify_eq/=.
  - split.
    + exists l. split; [by apply (s_fifo _ Hs)|]. unfold queue_at. cbn. apply list_lookup_total_correct, list_lookup_insert_eq.
      by eapply lookup_lt_Some.
    + intros q l1 d Hq Hl1 Hd. destruct (Hnew _ _ q l1 d Ht) as [k Hk']; [lia|done|done|]. eauto.
  - by apply (f_equal length) in Htake; rewrite length_app in Htake; cbn in Htake; lia.
Qed.

(** ** The thread finishes what waits *)

(** C13 Left alone from any reachable state, the thread of the serializer goes to
    sleep after at most [thread_fuel] statements - no request to wake it is
    lost - and then nothing waits or is being executed: exactly the commands
    that waited or were being executed have been completed as executed, while
    those being cancelled stay with their cancellers. *)
Theorem szr_drains (n : nat) (s : mtlk_serializer_t) (Hs : szr_reach n s) :
  let s' := thread_run (thread_fuel s) s in
  thread_step s' = Waits /\ concat (commands s') = [] /\ executing s' = [] /\ cancelling s' = cancelling s /\
  executed (szr_log s') ≡ₚ executed (szr_log s) ++
    map (fun c => (c, post_of (posts s) c)) (concat (commands s) ++ executing s).
Proof.
  intros s'. apply szr_reach_inv in Hs.
  pose proof (thread_run_sinv (thread_fuel s) s Hs) as Hs'. fold s' in Hs'.
  pose proof (thread_run_sleeps (thread_fuel s) s Hs ltac:(done)) as Hw. fold s' in Hw.
  destruct (waits_empty _ Hs' Hw) as (_ & Hc & He).
  destruct (thread_run_keeps (thread_fuel s) s) as (Hp & Hk & _ & _ & Ha & Hx). fold s' in Hp, Hk, Ha, Hx.
  repeat (split; [done|]).
  pose proof (b_acc _ _ _ _ (s_core _ Hs')) as Hacc'. pose proof (b_acc _ _ _ _ (s_core _ Hs)) as Hacc.
  rewrite Ha, Hp, (completed_split (szr_log s')), Hx in Hacc'. rewrite (completed_split (szr_log s)) in Hacc.
  unfold busy in Hacc, Hacc'. rewrite Hc, He, Hk in Hacc'. rewrite Hacc in Hacc'. cbn in Hacc'.
  rewrite !map_app in Hacc'. rewrite map_app.
  eapply (Permutation_app_inv_r (cancelled (szr_log s) ++ map (fun c => (c, post_of (posts s) c)) (cancelling s).*1)).
  etransitivity; [|etransitivity; [symmetry; exact Hacc'|]]; solve_Permutation.
Qed.
