(* ===== verification/SzrStop.v ===== *)
(** * SzrStop: stopping the command serializer

    The thread and [mtlk_serializer_stop] alone, in every interleaving: the stop
    ends, except when it sets its flag while the thread is between its test of
    the flag and its reset of the event. *)
From S2P Require Import Prelude Szr SzrInv SzrOps SzrRun.
From Stdlib Require Import Permutation.

Definition stopping (c : spc) : Prop :=
  match c with SRelease | SWaitPending | SSetStop | SNotify | SJoin => True | _ => False end.

(** One statement of the thread or of a stop that has begun. *)
Definition stop_step (s s' : mtlk_serializer_t) : Prop :=
  thread_step s = Next s' \/ (stopping (szr_control s) /\ control_step s = Next s').

Definition stop_fuel (s : mtlk_serializer_t) : nat :=
  (thread_fuel s + (num_priorities s + 11) *
    match szr_control s with SRelease => 5 | SWaitPending => 4 | SSetStop => 3 | SNotify => 2 | SJoin => 1 | _ => 0 end)%nat.

Lemma stop_step_sinv s s' : sinv s -> stop_step s s' -> sinv s'.
Proof. intros Hs [H|[_ H]]; [by apply (thread_step_ok s Hs)|by apply (control_step_ok s Hs)]. Qed.

Lemma stop_step_control s s' : stop_step s s' ->
  (stopping (szr_control s) -> stopping (szr_control s') \/ szr_control s' = SStopped) /\
  (szr_control s = SStopped -> szr_control s' = SStopped).
Proof.
  intros [H|[Hst H]].
  - apply thread_step_keeps in H as (_ & _ & -> & _). auto.
  - unfold control_step in H. split; [intros _|by intros E; rewrite E in Hst].
    destruct (szr_control s); try done; simplify_eq/=; auto.
    + destruct (pending_evt s); simplify_eq/=; auto.
    + destruct (szr_thread s); simplify_eq/=; auto.
Qed.

Lemma stop_step_fuel s s' : sinv s -> stop_step s s' -> (stop_fuel s' < stop_fuel s)%nat.
Proof.
  intros Hs [H|[Hst H]].
  - pose proof (thread_step_fuel _ _ Hs H). apply thread_step_keeps in H as (_ & _ & Hc & Hn & _).
    unfold stop_fuel. rewrite Hc, Hn. lia.
  - unfold control_step in H. unfold stop_fuel, thread_fuel. destruct (szr_control s); try done.
    + simplify_eq/=. lia.
    + destruct (pending_evt s); simplify_eq/=. lia.
    + simplify_eq/=. lia.
    + simplify_eq/=. destruct (szr_thread s), (new_event s); lia.
    + destruct (szr_thread s) eqn:Et; simplify_eq/=. rewrite Et. lia.
Qed.

Lemma stop_terminates s : sinv s -> Acc (fun b a => stop_step a b) s.
Proof.
  remember (stop_fuel s) as m eqn:Hm. revert s Hm. induction m as [m IH] using lt_wf_ind. intros s -> Hs.
  constructor. intros s' H. eapply IH; [by apply stop_step_fuel|done|by eapply stop_step_sinv].
Qed.

Definition stuck (s : mtlk_serializer_t) : Prop := forall s', ~ stop_step s s'.

Lemma rtc_stop s s' : sinv s -> rtc stop_step s s' ->
  sinv s' /\ (stopping (szr_control s) \/ szr_control s = SStopped -> stopping (szr_control s') \/ szr_control s' = SStopped).
Proof.
  intros Hs. induction 1 as [s|s s1 s2 H _ IH]; [auto|].
  destruct (IH (stop_step_sinv _ _ Hs H)) as [? Hc]. split; [done|]. intros Hst. apply Hc.
  destruct (stop_step_control _ _ H) as [H1 H2]. destruct Hst; auto.
Qed.

(** Where the thread and a stop that has begun come to rest. *)
Lemma stuck_cases s : sinv s -> stuck s -> stopping (szr_control s) \/ szr_control s = SStopped ->
  thread_step s = Waits /\
  (szr_control s = SStopped \/ (szr_control s = SJoin /\ szr_thread s = TWait /\ new_event s = false)).
Proof.
  intros Hs Hstuck Hst. assert (thread_step s = Waits) as Hw.
  { destruct (thread_step s) as [s'| |] eqn:E; [|done|by apply (thread_step_ok s Hs) in E].
    exfalso. eapply Hstuck. left. exact E. }
  split; [done|]. destruct (waits_empty _ Hs Hw) as (Ht & Hc & _).
  destruct Hst as [Hst|?]; [|by left].
  assert (forall s', control_step s <> Next s') as Hno by (intros s' E; eapply Hstuck; right; eauto).
  unfold control_step in Hno. pose proof (s_control _ Hs) as Hok.
  destruct (szr_control s); try done; try (exfalso; eapply Hno; reflexivity).
  - exfalso. assert (pending_evt s = true) as He by (apply Hok; done). rewrite He in Hno. by eapply Hno.
  - right. destruct Ht as [Ht|[Ht He]]; [|done]. rewrite Ht in Hno. exfalso. by eapply Hno.
Qed.

(** The stop flag is set and the thread cannot lose the request to wake up. *)
Definition will_stop (s : mtlk_serializer_t) : Prop :=
  szr_control s = SStopped \/
  (osdep_stop s = true /\ szr_thread s <> TReset /\
   (szr_control s = SNotify \/
    (szr_control s = SJoin /\ (szr_thread s = TCheck \/ szr_thread s = TExit \/ new_event s = true)))).

Lemma will_stop_step s s' : sinv s -> will_stop s -> stop_step s s' -> will_stop s'.
Proof.
  intros Hs [Hstopped|(Hstop & Hr & Hc)] Hstep.
  { left. by apply (stop_step_control _ _ Hstep). }
  pose proof (s_thread _ Hs) as Hth. destruct Hstep as [H|[Hst H]].
  - assert (osdep_stop s' = true /\ szr_thread s' <> TReset /\
      (szr_thread s' = TCheck \/ szr_thread s' = TExit \/ new_event s' = new_event s)) as (H1 & H2 & H3).
    { unfold thread_step in H. destruct (szr_thread s) as [| | |[|i] e| | | |] eqn:Ht; try done.
      - destruct (new_event s); simplify_eq/=; auto.
      - rewrite Hstop in H. simplify_eq/=. auto.
      - destruct Hth as (_ & -> & _). simplify_eq/=. auto.
      - destruct (take_command_ok s i e Hs Ht) as [(c & l & cmd & _ & _ & _ & Hk)|[_ Hk]]; rewrite Hk in H; simplify_eq/=; auto.
      - destruct (current_command s) as [c|]; [|done]. cbn in H. destruct (cmds s !! c); simplify_eq/=; auto.
      - destruct (current_command s) as [c|]; [|done]. cbn in H.
        destruct (call_post_exec _ c s) as [u|] eqn:Hu; [|done]. apply call_frame in Hu as (X & k & ->). simplify_eq/=. auto.
      - simplify_eq/=. auto. }
    pose proof (thread_step_keeps _ _ H) as (_ & _ & Hc' & _). right. rewrite Hc'. split_and!; try done.
    destruct Hc as [?|[? Hc]]; [auto|right; split; [done|]].
    destruct H3 as [?|[?|H3]]; auto. rewrite H3.
    destruct Hc as [Ht|[Ht|?]]; auto; unfold thread_step in H; rewrite Ht in H; [|done].
    rewrite Hstop in H. simplify_eq/=. auto.
  - unfold control_step in H. destruct Hc as [Hc|[Hc Hw]]; rewrite Hc in H.
    + simplify_eq/=. right. cbn. auto 10.
    + destruct (szr_thread s); simplify_eq/=. by left.
Qed.

Lemma will_stop_end s s' : sinv s -> will_stop s -> rtc stop_step s s' -> stuck s' -> szr_control s' = SStopped.
Proof.
  intros Hs Hw H. induction H as [s|s s1 s2 H _ IH]; intros Hstuck.
  - assert (stopping (szr_control s) \/ szr_control s = SStopped) as Hst.
    { destruct Hw as [?|(_ & _ & [->|[-> _]])]; [by right|by left..]. }
    destruct (stuck_cases s Hs Hstuck Hst) as [_ [?|(Hc & Ht & He)]]; [done|].
    destruct Hw as [?|(_ & _ & [?|[_ [?|[?|?]]]])]; congruence.
  - apply IH; [by eapply stop_step_sinv|by eapply will_stop_step|done].
Qed.

(** C26 Once [mtlk_serializer_stop] has begun, the thread and the stop alone come
    to rest whatever their interleaving. They rest with the stop finished - then
    no command waits or is being executed, no further one is accepted, and every
    command ever accepted has been completed but for those whose canceller is
    about to call the callback - or with the thread asleep and the stop waiting
    for it to exit. The latter cannot happen when the thread is not about to
    reset its event at the moment the stop flag is set. *)
Theorem szr_stop_completes (n : nat) (s : mtlk_serializer_t)
  (Hs : szr_reach n s) (Hst : stopping (szr_control s)) :
  Acc (fun b a => stop_step a b) s /\
  (forall s', rtc stop_step s s' -> stuck s' ->
     concat (commands s') = [] /\ executing s' = [] /\ is_running s' = false /\
     accepted (szr_log s') ≡ₚ completed (szr_log s') ++ map (fun c => (c, post_of (posts s') c)) (cancelling s').*1 /\
     (szr_control s' = SStopped \/ (szr_control s' = SJoin /\ szr_thread s' = TWait /\ new_event s' = false))) /\
  (szr_control s = SNotify -> szr_thread s <> TReset ->
     forall s', rtc stop_step s s' -> stuck s' -> szr_control s' = SStopped).
Proof.
  apply szr_reach_inv in Hs. split; [by apply stop_terminates|]. split.
  - intros s' Hr Hstuck. destruct (rtc_stop _ _ Hs Hr) as [Hs' Hc].
    destruct (stuck_cases _ Hs' Hstuck (Hc (or_introl Hst))) as [Hw Hend].
    destruct (waits_empty _ Hs' Hw) as (_ & Hq & He). split_and!; auto.
    + pose proof (s_control _ Hs') as Hok. destruct Hend as [E|[E _]]; rewrite E in Hok; apply Hok.
    + rewrite (b_acc _ _ _ _ (s_core _ Hs')). unfold busy. by rewrite Hq, He.
  - intros Hc Ht s' Hr Hstuck. eapply will_stop_end; eauto. right. split_and!; auto.
    pose proof (s_control _ Hs) as Hok. rewrite Hc in Hok. apply Hok.
Qed.

(** ** The lost request *)

(** The stop waits for a thread that sleeps and that nobody will wake. *)
Definition hangs (s : mtlk_serializer_t) : Prop :=
  szr_control s = SJoin /\ szr_thread s = TWait /\ new_event s = false /\ is_running s = false.

Lemma hangs_step l s s' : hangs s -> szr_step l s = Next s' -> hangs s'.
Proof.
  intros (Hc & Ht & He & Hr) H. unfold hangs.
  assert (forall r c u, call_post_exec r c s = Some u -> hangs u) as Hcall.
  { intros r c u (X & k & ->)%call_frame. done. }
  assert (forall c r u, cancel_locked c s = Some (r, u) -> hangs u) as Hcancel.
  { unfold cancel_locked. intros c r u. destruct (cmds s !! c) as [cmd|]; [|done]. cbn. by destruct (is_in_queue cmd); intros [= <- <-]. }
  assert (forall p c k, mtlk_serializer_enqueue p c k s = Some (MTLK_ERR_NOT_READY, s)) as Henq.
  { intros. unfold mtlk_serializer_enqueue. by rewrite Hr. }
  destruct l as [c slid|c|p c t|c|c| | |k p c|e k]; cbn in H.
  - by simplify_eq/=.
  - by simplify_eq/=.
  - rewrite Henq in H. by simplify_eq/=.
  - destruct (cancel_locked c s) as [[r u]|] eqn:E; [|done]. apply Hcancel in E. destruct r; by simplify_eq/=.
  - case_bool_decide; [|done]. destruct (call_post_exec _ c s) as [u|] eqn:E; [|done]. apply Hcall in E. by simplify_eq/=.
  - unfold thread_step in H. by rewrite Ht, He in H.
  - unfold control_step in H. by rewrite Hc, Ht in H.
  - unfold execute_blocked_begin in H. rewrite Henq in H. by simplify_eq/=.
  - unfold execute_blocked_step in H. destruct (ctxs s !! k) as [b|]; [|done]. destruct (b_pc b).
    + destruct (completion_event b); [by simplify_eq/=|]. destruct e; by simplify_eq/=.
    + destruct (cancel_locked (b_cmd b) s) as [[[] u]|] eqn:E; [| |done]; apply Hcancel in E; by simplify_eq/=.
    + destruct (call_post_exec _ _ s) as [u|] eqn:E; [|done]. apply Hcall in E. by simplify_eq/=.
    + destruct (completion_event b); by simplify_eq/=.
Qed.

(** Two commands, the second enqueued while the first runs; the stop comes
    between the thread's test of the flag and its reset of the event. *)
Definition hang_run : list szr_label :=
  [LInit 1 0; LInit 2 0; LControl; LControl; LControl; LEnqueue 0 1 100; LThread; LThread; LThread; LThread;
   LEnqueue 0 2 200; LThread; LThread; LThread; LThread; LThread; LThread; LThread; LThread; LThread; LThread; LThread;
   LControl; LControl; LControl; LControl; LControl; LThread; LThread; LThread].

(** The stop can hang: in a run of two commands the thread tests the stop
    flag, the flag is set and the event signalled, and the thread then resets the
    event and sleeps. From there, whatever anybody does, the stop goes on waiting
    for the thread to exit. *)
Theorem szr_stop_can_hang :
  exists s, szr_reach 1 s /\ hangs s /\
    forall s', rtc (fun a b => exists l, szr_step l a = Next b) s s' -> szr_control s' = SJoin /\ szr_thread s' = TWait.
Proof.
  destruct (szr_play hang_run (mtlk_serializer_init 1)) as [s|] eqn:E; [|vm_compute in E; congruence].
  exists s. split; [eapply szr_play_reach; [constructor|exact E]|]. assert (hangs s) as Hh.
  { assert ((fun u => (szr_control u, szr_thread u, new_event u, is_running u)) <$> szr_play hang_run (mtlk_serializer_init 1)
      = Some (SJoin, TWait, false, false)) as H by (vm_compute; reflexivity).
    rewrite E in H. cbn in H. injection H. by unfold hangs. }
  split; [done|]. clear E. intros s' Hr. enough (hangs s') as (? & ? & _) by done.
  induction Hr as [|a b c [l Hl] _ IH]; [done|]. apply IH; by eapply hangs_step.
Qed.
