(* ===== verification/SzrBlock.v ===== *)
(** * SzrBlock: blocked execution and enumeration of commands

    [mtlk_serializer_execute_blocked] tells its caller the truth about the
    command, and what [mtlk_serializer_enum_commands] reads. *)
From S2P Require Import Prelude Szr SzrInv SzrOps SzrRun.
From Stdlib Require Import Permutation.

(** ** What a blocked execution returned *)

(** The blocked executions among the callbacks accepted. *)
Definition frames (l : list (Z * completion)) : list Z :=
  omap (fun ck => match ck.2 with BlockedClb j => Some j | _ => None end) l.

Lemma frames_app l1 l2 : frames (l1 ++ l2) = frames l1 ++ frames l2.
Proof. apply omap_app. Qed.

Lemma elem_of_frames k l : k ∈ frames l <-> exists c, (c, BlockedClb k) ∈ l.
Proof.
  unfold frames. rewrite list_elem_of_omap. split.
  - intros ([c [|j]] & Hin & Hk); cbn in Hk; simplify_eq. eauto.
  - intros [c Hc]. by exists (c, BlockedClb k).
Qed.

#[global] Instance frames_perm : Proper ((≡ₚ) ==> (≡ₚ)) frames.
Proof. intros l1 l2 H. by apply omap_Permutation. Qed.

(** What the result of a blocked execution says of its command. *)
Definition told (k res : Z) (l : list szr_ev) : Prop :=
  (res = MTLK_ERR_OK /\ exists c, (c, BlockedClb k) ∈ executed l) \/
  ((res = MTLK_ERR_TIMEOUT \/ res = MTLK_ERR_CANCELED) /\ exists c, (c, BlockedClb k) ∈ cancelled l) \/
  ((res = MTLK_ERR_NOT_READY \/ res = MTLK_ERR_BUSY) /\ k ∉ frames (accepted l)).

Lemma told_app k res l evs : told k res l -> k ∉ frames (accepted evs) -> told k res (l ++ evs).
Proof.
  unfold told. intros H Hk. autorewrite with szr. rewrite frames_app. set_solver.
Qed.

(** Each blocked execution has a frame of its own. *)
Record finv (s : mtlk_serializer_t) : Prop := {
  f_nodup : NoDup (frames (accepted (szr_log s)));
  f_told : forall k res, EvReturn k res ∈ szr_log s -> told k res (szr_log s)
}.

Lemma plain_frames evs : Forall plain evs -> frames (accepted evs) = [] /\ forall k r, EvReturn k r ∉ evs.
Proof.
  induction 1 as [|e evs He _ [IH1 IH2]]; [split; [done|intros k r H; by apply elem_of_nil in H]|].
  split; [|intros k r [<-|H]%elem_of_cons; [done|by eapply IH2]].
  by destruct e as [p c [t|j]|q d|q d|d k|r d k|k r].
Qed.

Lemma finv_plain s s' : finv s -> grew plain (szr_log s) (szr_log s') -> finv s'.
Proof.
  intros [Hn Ht] (evs & Hl & He). destruct (plain_frames _ He) as [Hf Hr]. split; rewrite Hl.
  - autorewrite with szr. by rewrite frames_app, Hf, app_nil_r.
  - intros k res [H|H]%elem_of_app; [|by apply Hr in H]. apply told_app; [auto|]. rewrite Hf. apply not_elem_of_nil.
Qed.

Lemma told_return k res l r j : told k res l -> told k res (l ++ [EvReturn j r]).
Proof. intros H. apply told_app; [done|]. cbn. apply not_elem_of_nil. Qed.

Lemma finv_return s s' k res :
  finv s -> szr_log s' = szr_log s ++ [EvReturn k res] -> told k res (szr_log s) -> finv s'.
Proof.
  intros [Hn Ht] Hl H. split; rewrite Hl.
  - autorewrite with szr. cbn. by rewrite app_nil_r.
  - intros j r [Hj|[=-> ->]%list_elem_of_singleton]%elem_of_app; apply told_return; auto.
Qed.

Lemma executed_member r c k l : EvDone r c k ∈ l ->
  match r with MTLK_CMD_EXECUTED => (c, k) ∈ executed l | MTLK_CMD_CANCELED => (c, k) ∈ cancelled l end.
Proof. intros H. destruct r; apply list_elem_of_omap; eauto. Qed.

(** A frame whose event is set returns what its command's completion reported. *)
Lemma event_told s k b :
  sinv s -> ctxs s !! k = Some b -> completion_event b = true -> told k (result_code (szr_result b)) (szr_log s).
Proof.
  intros Hs Hk He. destruct (b_frame _ _ _ _ (s_core _ Hs) k b Hk) as [_ Hf]. rewrite He in Hf.
  destruct Hf as [_ Hd%executed_member]. unfold told. destruct (szr_result b); cbn; eauto 10.
Qed.

Lemma finv_begin s k p c s' :
  sinv s -> finv s -> may_enqueue s p c ->
  (forall e, e ∈ szr_log s -> forall p' c' r, e <> EvReturn k r /\ e <> EvAccept p' c' (BlockedClb k)) ->
  execute_blocked_begin k p c s = Some s' -> finv s'.
Proof.
  intros Hs Hf Hm Hfresh H.
  assert (k ∉ frames (accepted (szr_log s))) as Hnew.
  { rewrite elem_of_frames. intros [d Hd]. apply list_elem_of_omap in Hd as (e & He & Hd).
    destruct e as [q d' k'|q d'|q d'|d' k'|r d' k'|k' r]; simplify_eq. by apply (Hfresh _ He q d 0). }
  unfold execute_blocked_begin in H.
  destruct (enqueue_cases s p c (BlockedClb k) Hs Hm) as [[_ E]|[(_ & _ & E)|(cmd & _ & _ & _ & _ & E)]];
    rewrite E in H; cbn in H; simplify_eq.
  - eapply finv_return; [done..|]. right. right. auto.
  - eapply finv_return; [done..|]. right. right. auto.
  - split; cbn.
    + autorewrite with szr. rewrite frames_app. cbn. apply NoDup_app. split_and!; [apply Hf| |apply NoDup_singleton].
      intros j Hj ->%list_elem_of_singleton. done.
    + intros j r [Hj|Hj%list_elem_of_singleton]%elem_of_app; [|done]. apply told_app; [by apply (f_told _ Hf)|].
      cbn. intros ->%list_elem_of_singleton. by destruct (Hfresh _ Hj 0%nat 0 r).
Qed.

Lemma finv_blocked_step e k s s' : sinv s -> finv s -> execute_blocked_step e k s = Next s' -> finv s'.
Proof.
  intros Hs Hf. unfold execute_blocked_step. destruct (ctxs s !! k) as [b|] eqn:Hk; [|done].
  destruct (b_pc b) eqn:Hpc.
  - destruct (completion_event b) eqn:He.
    + intros [= <-]. eapply finv_return; [done..|]. by apply event_told.
    + destruct e; [|done]. intros [= <-]. by apply (finv_plain s); [|apply grew_refl].
  - destruct (cancel_locked (b_cmd b) s) as [[[] u]|] eqn:Hu; [| |done]; apply cancel_log in Hu as (_ & _ & Hl);
      intros [= <-]; (apply (finv_plain s); [done|]); cbn; destruct Hl as [->|[p ->]]; auto with wave.
  - destruct (frame_cancelling _ _ _ Hs Hk Hpc) as (cmd & B & Hc & Hpost & HB & _).
    destruct (call_post_exec_ok MTLK_CMD_CANCELED _ _ _ _ Hs Hc HB) as [-> _]. cbn. intros [= <-].
    set (u := szr_record _ (EvDone _ _ _)). assert (finv u) as Hu by (apply (finv_plain s); [done|cbn; auto with wave]).
    eapply finv_return; [exact Hu|done|]. right. left. split; [auto|]. exists (b_cmd b).
    apply (executed_member MTLK_CMD_CANCELED). unfold u. cbn. rewrite Hpost. set_solver.
  - destruct (completion_event b) eqn:He; [|done].
    intros [= <-]. eapply finv_return; [done..|]. by apply event_told.
Qed.

Lemma finv_reach n s : szr_reach n s -> finv s.
Proof.
  induction 1 as [|l s s' Hr IH Hl Hstep].
  { split; cbn; [constructor|]. intros k res H. by apply elem_of_nil in H. }
  pose proof (szr_reach_inv _ _ Hr) as Hs. destruct (szr_step_log _ _ _ Hstep) as (Hg & _).
  destruct l as [c slid|c|p c t|c|c| | |k p c|e k]; try (by apply (finv_plain s)).
  - cbn in Hl, Hstep. destruct Hl as (Hm & _ & Hfresh). destruct (execute_blocked_begin k p c s) as [u|] eqn:E; [|done].
    cbn in Hstep. simplify_eq. by eapply finv_begin.
  - by eapply finv_blocked_step.
Qed.

(** [mtlk_serializer_execute_blocked] tells its caller the truth: when it
    returns OK the command's callback ran for it and has finished; when it
    returns a timeout or a cancellation the callback did not run for it and never
    will; when it returns that the serializer is stopped or the command busy the
    command was never accepted for it. It returns nothing else. *)
Theorem szr_blocked_truthful (n : nat) (s : mtlk_serializer_t) (k res : Z)
  (Hs : szr_reach n s) (Hret : EvReturn k res ∈ szr_log s) :
  (res = MTLK_ERR_OK /\ exists c, (c, BlockedClb k) ∈ executed (szr_log s) /\ (c, BlockedClb k) ∈ runs (szr_log s)) \/
  ((res = MTLK_ERR_TIMEOUT \/ res = MTLK_ERR_CANCELED) /\
     (exists c, (c, BlockedClb k) ∈ cancelled (szr_log s)) /\ forall c, (c, BlockedClb k) ∉ runs (szr_log s)) \/
  ((res = MTLK_ERR_NOT_READY \/ res = MTLK_ERR_BUSY) /\ forall c, (c, BlockedClb k) ∉ accepted (szr_log s)).
Proof.
  pose proof (finv_reach _ _ Hs) as Hf. apply szr_reach_inv in Hs.
  pose proof (s_runs _ Hs) as Hruns.
  destruct (f_told _ Hf k res Hret) as [[-> [c Hc]]|[[Hres [c Hc]]|[Hres Hk]]].
  - left. split; [done|]. exists c. split; [done|]. rewrite Hruns. apply elem_of_app. by left.
  - right. left. split; [done|]. split; [eauto|]. intros d Hd. rewrite Hruns in Hd.
    pose proof (f_nodup _ Hf) as Hn. rewrite (b_acc _ _ _ _ (s_core _ Hs)), completed_split, !frames_app in Hn.
    apply NoDup_app in Hn as (Hn & Hbusy & _). apply NoDup_app in Hn as (_ & Hx & _).
    assert (k ∈ frames (cancelled (szr_log s))) as Hkc by (apply elem_of_frames; eauto).
    apply elem_of_app in Hd as [Hd|Hd].
    + apply (Hx k); [apply elem_of_frames; eauto|done].
    + apply (Hbusy k); [apply elem_of_app; by right|]. apply elem_of_frames. exists d.
      apply list_elem_of_fmap in Hd as (x & Hx' & Hd). apply list_elem_of_fmap. exists x. split; [done|by apply in_post_busy].
  - right. right. split; [done|]. intros c Hc. apply Hk, elem_of_frames. eauto.
Qed.

(** ** Enumeration *)

(** The enumeration that lists every command with its [is_current] argument. *)
Definition list_clb (a : list (mtlk_command_t * bool)) (cmd : mtlk_command_t) (cur : bool) : list (mtlk_command_t * bool) * bool :=
  (a ++ [(cmd, cur)], true).

Definition cmd_at (s : mtlk_serializer_t) (c : Z) : mtlk_command_t :=
  default (Command false 0 (UserClb 0) 0) (cmds s !! c).

Lemma enum_list_all s l a : (forall c, c ∈ l -> is_Some (cmds s !! c)) ->
  enum_list list_clb s a l = Some (a ++ map (fun c => (cmd_at s c, false)) l, true).
Proof.
  revert a. induction l as [|c l IH]; intros a Hl; cbn; [by rewrite app_nil_r|].
  destruct (Hl c) as [cmd Hc]; [by left|]. unfold enum_one, cmd_at. rewrite Hc. cbn.
  rewrite IH by (intros; apply Hl; by right). by rewrite <-app_assoc.
Qed.

Lemma enum_priorities_all s i a : sinv s -> (i <= length (commands s))%nat ->
  enum_priorities list_clb s a i = Some (a ++ map (fun c => (cmd_at s c, false)) (concat (reverse (take i (commands s)))), true).
Proof.
  intros Hs. revert a. induction i as [|i IH]; intros a Hi; cbn [enum_priorities]; [by rewrite app_nil_r|].
  destruct (lookup_lt_is_Some_2 (commands s) i) as [l Hl]; [lia|].
  assert (queue_at s i = l) as -> by (by apply list_lookup_total_correct).
  rewrite enum_list_all.
  2:{ intros c Hc. destruct (q_flag _ _ _ (s_q _ Hs) _ _ _ Hl Hc) as (cmd & ? & _). eauto. }
  cbn. rewrite IH by lia. rewrite (take_S_r _ _ _ Hl), reverse_snoc. cbn. by rewrite map_app, app_assoc.
Qed.

(** Except while the thread is between the completion of a command and
    forgetting it, [mtlk_serializer_enum_commands] reads only commands that
    exist: it lists the one being executed and then every waiting command,
    higher priorities first and the oldest first within a priority. *)
Theorem szr_enumerates (n : nat) (s : mtlk_serializer_t) (Hs : szr_reach n s) (Ht : szr_thread s <> TClear) :
  mtlk_serializer_enum_commands list_clb s [] =
  Some (map (fun c => (cmd_at s c, true)) (option_list (current_command s)) ++
        map (fun c => (cmd_at s c, false)) (concat (reverse (commands s)))).
Proof.
  apply szr_reach_inv in Hs. unfold mtlk_serializer_enum_commands.
  assert (forall a, enum_priorities list_clb s a (num_priorities s) =
    Some (a ++ map (fun c => (cmd_at s c, false)) (concat (reverse (commands s))), true)) as Hall.
  { intros a. rewrite <-(q_len _ _ _ (s_q _ Hs)), enum_priorities_all by done. by rewrite take_ge by done. }
  destruct (current_command s) as [c|] eqn:Hcur; cbn; [|by rewrite Hall].
  assert (c ∈ busy s) as Hb.
  { apply thread_running; [done| |done]. pose proof (s_thread _ Hs) as Hok. rewrite Hcur in Hok.
    destruct (szr_thread s); cbn in Hok; try done; auto. by destruct Hok. }
  destruct (busy_alive _ _ Hs Hb) as (cmd & Hc & _). unfold enum_one. rewrite Hc. cbn. rewrite Hall. unfold cmd_at at 2. by rewrite Hc.
Qed.

(** A command may be freed by its own completion callback, as
    [_mtlk_core_async_compl_clb] does, and an enumeration before the thread
    forgets the command then reads the freed object, whatever the callback. *)
Theorem szr_enum_reads_freed :
  exists s, szr_reach 1 s /\ szr_thread s = TClear /\
    forall A (clb : A -> mtlk_command_t -> bool -> A * bool) a, mtlk_serializer_enum_commands clb s a = None.
Proof.
  set (ls := [LInit 1 0; LControl; LControl; LControl; LEnqueue 0 1 100; LThread; LThread; LThread; LThread; LThread; LThread; LCleanup 1]).
  destruct (szr_play ls (mtlk_serializer_init 1)) as [s|] eqn:E; [|vm_compute in E; congruence].
  assert ((fun u => (szr_thread u, current_command u, cmds u !! 1)) <$> szr_play ls (mtlk_serializer_init 1)
    = Some (TClear, Some 1, None)) as H by (vm_compute; reflexivity).
  rewrite E in H. cbn in H. injection H as Ht Hc Hm.
  exists s. split; [eapply szr_play_reach; [constructor|exact E]|]. split; [done|].
  intros A clb a. unfold mtlk_serializer_enum_commands, enum_one. by rewrite Hc, Hm.
Qed.
