(* ===== verification/SzrExamples.v ===== *)
(** * SzrExamples: the command serializer on concrete runs *)
From S2P Require Import Prelude Szr SzrInv SzrOps SzrRun SzrThms SzrStop SzrBlock.
From Stdlib Require Import Permutation.

(** The state a run of polite steps leads to. *)
Definition played (n : nat) (ls : list szr_label) : mtlk_serializer_t :=
  default (mtlk_serializer_init n) (szr_play ls (mtlk_serializer_init n)).

Lemma played_reach n ls : szr_reach n (played n ls).
Proof.
  unfold played. destruct (szr_play ls (mtlk_serializer_init n)) as [s|] eqn:E; cbn; [|constructor].
  eapply szr_play_reach; [constructor|exact E].
Qed.

Definition started : list szr_label := [LInit 1 0; LInit 2 0; LInit 3 0; LControl; LControl; LControl].

(** One command executing, one waiting behind it, one withdrawn and not yet told. *)
Definition busy_run : list szr_label :=
  started ++ [LEnqueue 0 1 100; LThread; LThread; LThread; LThread; LThread; LEnqueue 0 2 200; LEnqueue 1 3 300; LCancel 3].

Lemma szr_exactly_once_witness :
  accepted (szr_log (played 2 busy_run)) ≡ₚ completed (szr_log (played 2 busy_run)) ++
    [(2, UserClb 200); (1, UserClb 100); (3, UserClb 300)].
Proof.
  destruct (szr_exactly_once 2 (played 2 busy_run) (played_reach 2 busy_run)) as (_ & _ & H & _).
  vm_compute in H |- *. exact H.
Defined.

Lemma szr_drains_witness :
  executed (szr_log (thread_run (thread_fuel (played 2 busy_run)) (played 2 busy_run))) ≡ₚ [(2, UserClb 200); (1, UserClb 100)].
Proof.
  destruct (szr_drains 2 (played 2 busy_run) (played_reach 2 busy_run)) as (_ & _ & _ & _ & H).
  vm_compute in H |- *. exact H.
Defined.

(** A command arrives at the higher priority after the scan has passed it. *)
Definition scan_run : list szr_label := started ++ [LEnqueue 0 1 100; LThread; LThread; LThread].

Lemma szr_priority_order_witness :
  exists k evs, szr_log (played 2 (scan_run ++ [LThread; LEnqueue 1 2 200])) = szr_log (played 2 scan_run) ++ evs /\ EvAccept 1 2 k ∈ evs.
Proof.
  set (s0 := played 2 scan_run). set (s1 := played 2 (scan_run ++ [LThread])).
  set (s := played 2 (scan_run ++ [LThread; LEnqueue 1 2 200])).
  set (s' := played 2 (scan_run ++ [LThread; LEnqueue 1 2 200; LThread])).
  assert (scanning s0 s) as Hsc.
  { apply (scanning_step s0 (LEnqueue 1 2 200) s1 s 1 true); [|apply politeb_sound; vm_compute; reflexivity|vm_compute; reflexivity..].
    apply (scanning_step s0 LThread s0 s1 1 true); [|exact I|vm_compute; reflexivity..]. apply scanning_start. vm_compute. reflexivity. }
  assert (thread_step s = Next s') as Hstep by (vm_compute; reflexivity).
  assert (szr_log s' = szr_log s ++ [EvTake 0 1]) as Htake by (vm_compute; reflexivity).
  apply (szr_priority_order 2 s0 s s' 0 1 (played_reach 2 scan_run) Hsc Hstep Htake) with (l := [2]); [lia|vm_compute; reflexivity|left].
Defined.

Definition stop_run : list szr_label := busy_run ++ [LControl].

Lemma szr_stop_completes_witness :
  stopping (szr_control (played 2 stop_run)) /\ Acc (fun b a => stop_step a b) (played 2 stop_run).
Proof.
  assert (stopping (szr_control (played 2 stop_run))) as H by (vm_compute; exact I).
  split; [exact H|]. exact (proj1 (szr_stop_completes 2 (played 2 stop_run) (played_reach 2 stop_run) H)).
Defined.

(** A blocked execution whose command runs. *)
Definition blocked_run : list szr_label :=
  started ++ [LBlock 7 0 1; LThread; LThread; LThread; LThread; LThread; LThread; LThread; LBlockStep false 7].

Lemma szr_blocked_truthful_witness :
  EvReturn 7 MTLK_ERR_OK ∈ szr_log (played 1 blocked_run) /\
  exists c, (c, BlockedClb 7) ∈ runs (szr_log (played 1 blocked_run)).
Proof.
  assert (EvReturn 7 MTLK_ERR_OK ∈ szr_log (played 1 blocked_run)) as H by (vm_compute; repeat constructor).
  split; [exact H|].
  destruct (szr_blocked_truthful 1 _ 7 MTLK_ERR_OK (played_reach 1 blocked_run) H) as [(_ & c & _ & Hc)|[([E|E] & _)|([E|E] & _)]];
    [exists c; exact Hc|discriminate E..].
Defined.

Lemma szr_enumerates_witness :
  mtlk_serializer_enum_commands list_clb (played 2 busy_run) [] =
  Some [(Command false 0 (UserClb 100) 0, true); (Command true 0 (UserClb 200) 0, false)].
Proof.
  assert (szr_thread (played 2 busy_run) <> TClear) as H by (vm_compute; discriminate).
  pose proof (szr_enumerates 2 _ (played_reach 2 busy_run) H) as E. vm_compute in E |- *. exact E.
Defined.

(** A command enqueued again while it is being executed: the new callback is
    called for the old request, and the old one never. *)
Example szr_reenqueue_running :
  let s := played 1 (started ++ [LEnqueue 0 1 100; LThread; LThread; LThread; LThread]) in
  exists s1 s2 s3, szr_step (LEnqueue 0 1 200) s = Next s1 /\ thread_step s1 = Next s2 /\ thread_step s2 = Next s3 /\
    completed (szr_log s3) = [(1, UserClb 200)] /\ accepted (szr_log s3) = [(1, UserClb 100); (1, UserClb 200)].
Proof. vm_compute. eexists _, _, _. repeat split; reflexivity. Qed.
