(* ===== verification/Hash.v ===== *)
(** * Hash: the generic hash table (wireless/shared/mtlkhash.h)

    A table of [nof_buckets] kernel lists of entries; an entry is embedded in
    its owner and carries its key and the index of its bucket.  Entries are
    addresses; the fields written inside them are finite maps.  A kernel list
    is the list of its entries in order ([list_add_tail] appends, [list_del]
    takes out and poisons the entry's pointers).  The table is generic in the
    key, its hash function and its comparison, as the macros are. *)
From S2P Require Import Prelude.

(** What an entry's [next] pointer is: the head of a bucket's list, another
    entry, or the poison [list_del] leaves. *)
Inductive lptr := LHead (i : nat) | LEntry (e : Z) | LPoison.

#[export] Instance lptr_eq_dec : EqDecision lptr.
Proof. solve_decision. Defined.

Record mtlk_hash_t {K : Type} := Hash {
  nof_buckets : Z;
  lists : list (list Z);
  key : gmap Z K;
  hash_idx : gmap Z Z;
}.
Arguments mtlk_hash_t : clear implicits.

(** The cursor of an enumeration: [data1] is the entry to come, [data2] its bucket. *)
Record mtlk_hash_enum_t := HEnum { data1 : lptr; data2 : nat }.

(** [EnumFault]: the cursor is not an entry, and is dereferenced. *)
Inductive enum_out := EnumEntry (e : Z) (en : mtlk_hash_enum_t) | EnumEnd | EnumFault.

Section Hash.
Context {K : Type} `{EqDecision K, Inhabited K} (hash_f : K -> Z -> Z).
Implicit Types h : mtlk_hash_t K.

(** [alloc]: the array of lists could be allocated. *)
Definition mtlk_hash_init (nof : Z) (alloc : bool) h : Z * mtlk_hash_t K :=
  if alloc then (MTLK_ERR_OK, Hash K nof (replicate (Z.to_nat nof) []) (key h) (hash_idx h))
  else (MTLK_ERR_NO_MEM, h).

Definition bucket h (i : Z) : list Z := lists h !!! Z.to_nat i.

Definition __mtlk_hash_insert (k : K) (e : Z) h : mtlk_hash_t K :=
  let i := hash_f k (nof_buckets h) in
  Hash K (nof_buckets h) (alter (fun l => l ++ [e]) (Z.to_nat i) (lists h)) (<[e := k]> (key h)) (<[e := i]> (hash_idx h)).

Definition __mtlk_hash_remove (e : Z) h : mtlk_hash_t K :=
  Hash K (nof_buckets h) (alter (filter (fun x => x <> e)) (Z.to_nat (hash_idx h !!! e)) (lists h)) (key h) (hash_idx h).

(** The loop of [mtlk_hash_find_##name] over one list. *)
Fixpoint find_in (k : K) (l : list Z) h : option Z :=
  match l with
  | [] => None
  | e :: l => if decide (k = key h !!! e) then Some e else find_in k l h
  end.
Definition mtlk_hash_find (k : K) h : option Z := find_in k (bucket h (hash_f k (nof_buckets h))) h.

Definition mtlk_hash_insert (k : K) (e : Z) h : option Z * mtlk_hash_t K :=
  match mtlk_hash_find k h with
  | None => (None, __mtlk_hash_insert k e h)
  | Some prev => (Some prev, h)
  end.

Definition mtlk_hash_insert_replace (k : K) (e : Z) h : option Z * mtlk_hash_t K :=
  let prev := mtlk_hash_find k h in
  let h := match prev with Some p => __mtlk_hash_remove p h | None => h end in
  (prev, __mtlk_hash_insert k e h).

(** [list_del] on an entry outside its list dereferences poison: [None]. *)
Definition mtlk_hash_remove (e : Z) h : option (mtlk_hash_t K) :=
  if decide (e ∈ bucket h (hash_idx h !!! e)) then Some (__mtlk_hash_remove e h) else None.

(** ** Enumeration *)

Definition first_of (i : nat) (l : list Z) : lptr := match l with [] => LHead i | e :: _ => LEntry e end.

(** The successor of [e] in the list of bucket [i], when [e] is linked there. *)
Fixpoint succ_in (i : nat) (e : Z) (l : list Z) : option lptr :=
  match l with
  | [] => None
  | x :: l => if decide (x = e) then Some (first_of i l) else succ_in i e l
  end.
Fixpoint succ_from (i : nat) (e : Z) (ls : list (list Z)) : lptr :=
  match ls with
  | [] => LPoison
  | l :: ls => match succ_in i e l with Some p => p | None => succ_from (S i) e ls end
  end.
(** [mtlk_dlist_next] of a head and of an entry. *)
Definition head_next h (i : nat) : lptr := first_of i (lists h !!! i).
Definition entry_next h (e : Z) : lptr := succ_from 0 e (lists h).

(** "If current list done and not a last => find next not empty list". *)
Fixpoint skip_empty (fuel : nat) h (curr : lptr) (idx : nat) : lptr * nat :=
  match fuel with
  | O => (curr, idx)
  | S fuel =>
      if bool_decide (curr = LHead idx) && (Z.of_nat idx <? nof_buckets h - 1)
      then skip_empty fuel h (head_next h (S idx)) (S idx)
      else (curr, idx)
  end.

Definition mtlk_hash_enum_next h (en : mtlk_hash_enum_t) : enum_out :=
  let '(curr, idx) := skip_empty (Z.to_nat (nof_buckets h)) h (data1 en) (data2 en) in
  if decide (curr = LHead idx) then EnumEnd
  else match curr with
       | LEntry e => EnumEntry e (HEnum (entry_next h e) idx)
       | _ => EnumFault
       end.

Definition mtlk_hash_enum_first h : enum_out := mtlk_hash_enum_next h (HEnum (head_next h 0) 0).

(** The loop every user of the enumeration writes: first, then the body and
    next, until NULL.  The entries visited and the table it ends with; [None]
    when a poisoned cursor is dereferenced. *)
Fixpoint enum_loop (fuel : nat) (body : Z -> mtlk_hash_t K -> mtlk_hash_t K) (r : enum_out) h
  : option (list Z * mtlk_hash_t K) :=
  match r, fuel with
  | EnumEnd, _ => Some ([], h)
  | EnumEntry e en, S fuel =>
      let h := body e h in
      match enum_loop fuel body (mtlk_hash_enum_next h en) h with
      | Some (l, h') => Some (e :: l, h')
      | None => None
      end
  | _, _ => None
  end.
Definition enumerate (fuel : nat) (body : Z -> mtlk_hash_t K -> mtlk_hash_t K) h :=
  enum_loop fuel body (mtlk_hash_enum_first h) h.

(** ** The invariant *)

(** The linked entries in the order of an enumeration. *)
Definition entries h : list Z := concat (lists h).

Record hash_ok h : Prop := {
  ho_pos : 0 < nof_buckets h;
  ho_len : length (lists h) = Z.to_nat (nof_buckets h);
  ho_nodup : NoDup (entries h);
  ho_place i l e : lists h !! i = Some l -> e ∈ l ->
    hash_idx h !!! e = Z.of_nat i /\ hash_f (key h !!! e) (nof_buckets h) = Z.of_nat i;
  ho_keys e e' : e ∈ entries h -> e' ∈ entries h -> key h !!! e = key h !!! e' -> e = e';
}.
End Hash.

(** ** The instance for MAC addresses (wireless/shared/mtlkhash_ieee_addr.c) *)

Definition IEEE_ADDR : Type := list Z.
Definition _mtlk_hash_ieee_addr_hashval (k : IEEE_ADDR) (nof_buckets : Z) : Z :=
  Z.land (k !!! 5%nat) (nof_buckets - 1).
(** The instance of the ability manager (wireless/driver/shared/mtlk_ab_manager.c). *)
Definition _MTLK_ABMGR_HASH_NOF_BUCKETS : Z := 32.
Definition _MTLK_ABMGR_HASH_PRIME_FACTOR : Z := 31.
Definition _mtlk_hash_abmgr_hashval (k nof_buckets : Z) : Z := u32 (k * _MTLK_ABMGR_HASH_PRIME_FACTOR) `mod` nof_buckets.
