(* ===== verification/HashInv.v ===== *)
(** * HashInv: the hash table is a finite map, and what an enumeration visits *)
From Stdlib Require Import Permutation.
From S2P Require Import Prelude Hash.

(** ** Lists of lists *)

Lemma concat_alter_snoc (ls : list (list Z)) i e : (i < length ls)%nat ->
  concat (alter (fun l => l ++ [e]) i ls) ≡ₚ e :: concat ls.
Proof.
  revert i. induction ls as [|l ls IH]; intros [|i] Hi; cbn [length] in Hi; try lia; cbn [concat].
  - cbn. rewrite <-app_assoc. cbn. by rewrite <-Permutation_middle.
  - change (alter ?f (S i) (l :: ls)) with (l :: alter f i ls). cbn [concat].
    rewrite IH by lia. by rewrite <-Permutation_middle.
Qed.

Lemma filter_all {A} (P : A -> Prop) `{!forall x, Decision (P x)} (l : list A) : (forall x, x ∈ l -> P x) -> filter P l = l.
Proof.
  induction l as [|x l IH]; intros Hl; [done|].
  rewrite filter_cons_True by (apply Hl; left). rewrite IH; [done|]. intros y Hy. apply Hl. by right.
Qed.

Lemma filter_ne_id (l : list Z) e : e ∉ l -> filter (fun x => x <> e) l = l.
Proof. intros He. apply filter_all. by intros x Hx ->. Qed.

Lemma concat_alter_drop (ls : list (list Z)) i e :
  (forall j l, ls !! j = Some l -> e ∈ l -> j = i) ->
  concat (alter (filter (fun x => x <> e)) i ls) = filter (fun x => x <> e) (concat ls).
Proof.
  revert i. induction ls as [|l ls IH]; intros i Hi; [done|]. destruct i as [|i].
  - change (alter ?f 0%nat (l :: ls)) with (f l :: ls). cbn [concat]. rewrite filter_app. f_equal. symmetry.
    apply filter_ne_id. intros (l' & Hel & Hl)%list_elem_of_In%in_concat.
    apply list_elem_of_In, list_elem_of_lookup in Hel as [j Hj].
    specialize (Hi (S j) l' Hj (proj2 (list_elem_of_In _ _) Hl)). done.
  - change (alter ?f (S i) (l :: ls)) with (l :: alter f i ls). cbn [concat]. rewrite filter_app. f_equal.
    + symmetry. apply filter_ne_id. intros He. specialize (Hi 0%nat l eq_refl He). done.
    + apply IH. intros j l' Hj He. specialize (Hi (S j) l' Hj He). by simplify_eq.
Qed.

Lemma elem_of_buckets (ls : list (list Z)) e : e ∈ concat ls <-> exists i l, ls !! i = Some l /\ e ∈ l.
Proof.
  rewrite list_elem_of_In, in_concat. split.
  - intros (l & H1 & H2). apply list_elem_of_In, list_elem_of_lookup in H1 as [i Hi].
    exists i, l. by rewrite list_elem_of_In.
  - intros (i & l & H1 & H2). exists l. rewrite <-!list_elem_of_In. split; [by eapply list_elem_of_lookup_2|done].
Qed.

Section HashInv.
Context {K : Type} `{Countable K, Inhabited K} (hash_f : K -> Z -> Z).
Context (hash_range : forall k n, 0 < n -> 0 <= hash_f k n < n).
Implicit Types h : mtlk_hash_t K.
Abbreviation hash_ok := (hash_ok hash_f).

(** The map a table stands for. *)
Definition map_of h : gmap K Z := list_to_map ((fun e => (key h !!! e, e)) <$> entries h).

Lemma map_of_keys_nodup h : hash_ok h -> NoDup (((fun e => (key h !!! e, e)) <$> entries h).*1).
Proof.
  intros [_ _ Hn _ Hk]. rewrite <-list_fmap_compose. induction Hn as [|e l He Hn IH]; [constructor|]. cbn. constructor.
  - intros Hin. apply list_elem_of_fmap in Hin as (e' & Heq & Hin).
    cbn in Heq. assert (e = e') as -> by (apply Hk; [left|by right|done]). done.
  - apply IH. intros x y Hx Hy. apply Hk; by right.
Qed.

Lemma map_of_lookup h k e : hash_ok h -> map_of h !! k = Some e <-> e ∈ entries h /\ key h !!! e = k.
Proof.
  intros Hok. unfold map_of. rewrite <-elem_of_list_to_map by by apply map_of_keys_nodup.
  rewrite list_elem_of_fmap. split.
  - intros (e' & Heq & Hin). by simplify_eq.
  - intros [Hin <-]. by exists e.
Qed.

Lemma map_of_none h k : hash_ok h -> map_of h !! k = None <-> forall e, e ∈ entries h -> key h !!! e <> k.
Proof.
  intros Hok. rewrite eq_None_not_Some. split.
  - intros Hn e He Hk. apply Hn. exists e. by apply map_of_lookup.
  - intros Hn [e He]. apply map_of_lookup in He as [H1 H2]; [|done]. by apply (Hn e).
Qed.

(** A table's map is known by what is linked and under which key. *)
Lemma map_of_ext h m : hash_ok h ->
  (forall k e, m !! k = Some e <-> e ∈ entries h /\ key h !!! e = k) -> map_of h = m.
Proof.
  intros Hok Hm. apply map_eq. intros k. destruct (m !! k) as [e|] eqn:E.
  - apply map_of_lookup; [done|]. by apply Hm.
  - apply map_of_none; [done|]. intros e He Hk. specialize (Hm k e). rewrite E in Hm. naive_solver.
Qed.

Lemma entries_place h e : hash_ok h -> e ∈ entries h ->
  exists i l, lists h !! i = Some l /\ e ∈ l /\ hash_idx h !!! e = Z.of_nat i /\
              hash_f (key h !!! e) (nof_buckets h) = Z.of_nat i.
Proof.
  intros Hok (i & l & Hl & He)%elem_of_buckets. exists i, l. split; [done|split; [done|]]. by eapply ho_place.
Qed.

Lemma bucket_at h i l : lists h !! i = Some l -> bucket h (Z.of_nat i) = l.
Proof. intros Hl. unfold bucket. rewrite Nat2Z.id. by apply list_lookup_total_correct. Qed.

Lemma find_in_spec k l h :
  match find_in k l h with
  | Some e => e ∈ l /\ key h !!! e = k
  | None => forall e, e ∈ l -> key h !!! e <> k
  end.
Proof.
  induction l as [|x l IH]; cbn [find_in]; [by intros e He%elem_of_nil|]. case_decide.
  - split; [left|done].
  - destruct (find_in k l h) as [e|]; [split; [right|]; apply IH|].
    intros e [->|He]%elem_of_cons; [done|by apply IH].
Qed.

Lemma find_map h k : hash_ok h -> mtlk_hash_find hash_f k h = map_of h !! k.
Proof.
  intros Hok. symmetry. unfold mtlk_hash_find. pose proof (find_in_spec k (bucket h (hash_f k (nof_buckets h))) h) as Hf.
  pose proof (hash_range k (nof_buckets h) (ho_pos _ _ Hok)) as Hr.
  destruct (lookup_lt_is_Some_2 (lists h) (Z.to_nat (hash_f k (nof_buckets h)))) as [l Hl];
    [rewrite (ho_len _ _ Hok); lia|].
  pose proof (bucket_at _ _ _ Hl) as Hb. rewrite Z2Nat.id in Hb by lia. rewrite Hb in Hf |- *.
  destruct (find_in k l h) as [e|].
  - apply map_of_lookup; [done|]. destruct Hf as [H1 H2]. split; [|done].
    apply elem_of_buckets. by exists (Z.to_nat (hash_f k (nof_buckets h))), l.
  - apply map_of_none; [done|]. intros e He Hk. destruct (entries_place h e Hok He) as (i & l' & Hl' & He' & _ & Hi).
    rewrite Hk in Hi. rewrite Hi, Nat2Z.id in Hl. simplify_eq. by apply (Hf e).
Qed.

(** ** Insertion *)

Lemma link_entries k e h : hash_ok h -> entries (__mtlk_hash_insert hash_f k e h) ≡ₚ e :: entries h.
Proof.
  intros Hok. apply concat_alter_snoc. rewrite (ho_len _ _ Hok).
  pose proof (hash_range k (nof_buckets h) (ho_pos _ _ Hok)). lia.
Qed.

Lemma link_ok k e h : hash_ok h -> e ∉ entries h -> (forall x, x ∈ entries h -> key h !!! x <> k) ->
  let h' := __mtlk_hash_insert hash_f k e h in
  hash_ok h' /\ map_of h' = <[k := e]> (map_of h).
Proof.
  intros Hok He Hk h'. pose proof (link_entries k e h Hok) as Hp. fold h' in Hp.
  pose proof (hash_range k (nof_buckets h) (ho_pos _ _ Hok)) as Hr.
  assert (forall x, x ∈ entries h -> key h' !!! x = key h !!! x) as Hkey.
  { intros x Hx. cbn. rewrite lookup_total_insert_ne; [done|]. by intros ->. }
  assert (key h' !!! e = k) as Hke by (cbn; apply lookup_total_insert_eq).
  assert (hash_ok h') as Hok'.
  { destruct Hok as [H1 H2 H3 H4 H5]. constructor; [done|by cbn; rewrite length_alter| | |].
    - rewrite Hp. by constructor.
    - intros i l x Hl Hx. cbn -[lookup_total] in Hl |- *. rewrite list_lookup_alter in Hl. case_decide as Hi; [subst i|].
      + apply fmap_Some in Hl as (l0 & Hl0 & ->). apply elem_of_app in Hx as [Hx|Hx%list_elem_of_singleton].
        * assert (x <> e) by (intros ->; apply He; apply elem_of_buckets; by eexists _, l0).
          rewrite !lookup_total_insert_ne by done. by eapply H4.
        * subst x. rewrite !lookup_total_insert_eq. lia.
      + assert (x <> e) by (intros ->; apply He; apply elem_of_buckets; by eexists i, l).
        rewrite !lookup_total_insert_ne by done. by eapply H4.
    - intros x y Hx Hy Hxy. rewrite Hp in Hx, Hy. apply elem_of_cons in Hx, Hy.
      destruct Hx as [->|Hx], Hy as [->|Hy]; [done| | |].
      + rewrite Hke, (Hkey y Hy) in Hxy. by destruct (Hk y Hy).
      + rewrite Hke, (Hkey x Hx) in Hxy. by destruct (Hk x Hx).
      + rewrite !Hkey in Hxy by done. by apply H5. }
  split; [done|]. apply map_of_ext; [done|]. intros k' x. rewrite Hp, elem_of_cons.
  destruct (decide (k = k')) as [<-|Hne].
  - rewrite lookup_insert_eq. split; [intros [= <-]; auto|]. intros [[->|Hx] Hxk]; [done|].
    rewrite (Hkey x Hx) in Hxk. by destruct (Hk x Hx).
  - rewrite lookup_insert_ne by done. rewrite map_of_lookup by done. split.
    + intros [Hx Hxk]. rewrite (Hkey x Hx). auto.
    + intros [[->|Hx] Hxk]; [by rewrite Hke in Hxk|]. by rewrite (Hkey x Hx) in Hxk.
Qed.

(** ** Removal *)

Lemma unlink_entries e h : hash_ok h -> e ∈ entries h ->
  entries (__mtlk_hash_remove e h) = filter (fun x => x <> e) (entries h).
Proof.
  intros Hok He. destruct (entries_place h e Hok He) as (i & l & Hl & Hel & Hi & _).
  unfold entries, __mtlk_hash_remove. cbn -[alter lookup_total]. rewrite Hi, Nat2Z.id. apply concat_alter_drop.
  intros j l' Hl' He'. destruct (ho_place _ _ Hok j l' e Hl' He') as [Hj _]. lia.
Qed.

Lemma unlink_ok e h : hash_ok h -> e ∈ entries h ->
  let h' := __mtlk_hash_remove e h in
  hash_ok h' /\ map_of h' = delete (key h !!! e) (map_of h) /\ e ∉ entries h' /\
  mtlk_hash_remove e h = Some h'.
Proof.
  intros Hok He h'. pose proof (unlink_entries e h Hok He) as Hp. fold h' in Hp.
  assert (forall x, x ∈ entries h' <-> x <> e /\ x ∈ entries h) as Hin by (intros x; by rewrite Hp, list_elem_of_filter).
  assert (hash_ok h') as Hok'.
  { destruct Hok as [H1 H2 H3 H4 H5]. constructor; [done|by cbn; rewrite length_alter| | |].
    - rewrite Hp. by apply NoDup_filter.
    - intros i l x Hl Hx. cbn -[lookup_total] in Hl |- *. rewrite list_lookup_alter in Hl. case_decide as Hi; [subst i|].
      + apply fmap_Some in Hl as (l0 & Hl0 & ->). apply list_elem_of_filter in Hx as [_ Hx]. by eapply H4.
      + by eapply H4.
    - intros x y [_ Hx]%Hin [_ Hy]%Hin. by apply H5. }
  split; [done|split; [|split]].
  - apply map_of_ext; [done|]. intros k x. rewrite Hin. change (key h' !!! x) with (key h !!! x).
    rewrite lookup_delete_Some, map_of_lookup by done. split; [|intros [[Hx1 Hx2] <-]].
    + intros (Hne & Hx & <-). split; [split; [|done]|done]. by intros ->.
    + split; [|done]. intros Hk. apply Hx1. symmetry. by apply (ho_keys _ _ Hok).
  - by rewrite Hin; intros [? _].
  - unfold mtlk_hash_remove. destruct (entries_place h e Hok He) as (i & l & Hl & Hel & Hi & _).
    rewrite Hi, (bucket_at h i l Hl). by rewrite decide_True by done.
Qed.

Lemma init_ok nof h : 0 < nof ->
  let h' := (mtlk_hash_init nof true h).2 in hash_ok h' /\ map_of h' = ∅.
Proof.
  intros Hn h'. assert (entries h' = []) as He.
  { unfold entries, h'. cbn. by induction (Z.to_nat nof). }
  split; [|unfold map_of; by rewrite He]. constructor; [done|cbn; by rewrite length_replicate|rewrite He; constructor| |].
  - intros i l e Hl Hel. cbn in Hl. apply lookup_replicate in Hl as [-> _]. by apply elem_of_nil in Hel.
  - intros e e' Hin. rewrite He in Hin. by apply elem_of_nil in Hin.
Qed.
End HashInv.

(** * Enumerating a hash table while entries are removed *)

Section HashEnum.
Context {K : Type} `{Countable K, Inhabited K} (hash_f : K -> Z -> Z).
Context (hash_range : forall k n, 0 < n -> 0 <= hash_f k n < n).
Implicit Types h : mtlk_hash_t K.
Abbreviation hash_ok := (hash_ok hash_f).

(** ** Successors *)

Lemma succ_in_absent i e l : e ∉ l -> succ_in i e l = None.
Proof.
  induction l as [|x l IH]; [done|]. intros [H1 H2]%not_elem_of_cons. cbn. rewrite decide_False by done. by apply IH.
Qed.

Lemma succ_in_present i e pre post : e ∉ pre -> succ_in i e (pre ++ e :: post) = Some (first_of i post).
Proof.
  induction pre as [|x pre IH]; intros He; cbn.
  - by rewrite decide_True by done.
  - apply not_elem_of_cons in He as [H1 H2]. rewrite decide_False by done. by apply IH.
Qed.

Lemma succ_from_spec ls j i pre e post : ls !! i = Some (pre ++ e :: post) -> NoDup (concat ls) ->
  succ_from j e ls = first_of (j + i) post.
Proof.
  revert j i. induction ls as [|l ls IH]; intros j i Hi Hn; [done|]. cbn [concat] in Hn.
  apply NoDup_app in Hn as (Hn1 & Hn2 & Hn3). destruct i as [|i]; cbn in Hi; simplify_eq; cbn [succ_from].
  - rewrite succ_in_present; [by rewrite Nat.add_0_r|].
    intros He. apply NoDup_app in Hn1 as (_ & Hn & _). apply (Hn e He). left.
  - rewrite succ_in_absent; [rewrite (IH (S j) i); [f_equal; lia|done|done]|].
    intros He. apply (Hn2 e He). apply elem_of_buckets. exists i, (pre ++ e :: post).
    split; [done|]. apply elem_of_app. right. left.
Qed.

Lemma entry_next_spec h i pre e post : hash_ok h -> lists h !! i = Some (pre ++ e :: post) ->
  entry_next h e = first_of i post.
Proof. intros Hok Hl. unfold entry_next. by rewrite (succ_from_spec _ 0 i pre e post Hl (ho_nodup _ _ Hok)). Qed.

Lemma succ_from_absent ls j e : e ∉ concat ls -> succ_from j e ls = LPoison.
Proof.
  revert j. induction ls as [|l ls IH]; intros j He; [done|]. cbn [concat] in He.
  apply not_elem_of_app in He as [H1 H2]. cbn. by rewrite succ_in_absent, IH.
Qed.

(** ** Cursors *)

(** The cursor has the entries [l] still to come. *)
Definition points h (en : mtlk_hash_enum_t) (l : list Z) : Prop :=
  exists idx pre post, lists h !! idx = Some (pre ++ post) /\ data1 en = first_of idx post /\ data2 en = idx /\
    l = post ++ concat (drop (S idx) (lists h)).

Lemma skip_empty_spec fuel h idx l : hash_ok h -> lists h !! idx = Some l -> nof_buckets h - 1 - Z.of_nat idx <= Z.of_nat fuel ->
  (concat (drop (S idx) (lists h)) = [] /\ exists idx', skip_empty fuel h (LHead idx) idx = (LHead idx', idx')) \/
  exists idx' e post, lists h !! idx' = Some (e :: post) /\ skip_empty fuel h (LHead idx) idx = (LEntry e, idx') /\
    concat (drop (S idx) (lists h)) = e :: post ++ concat (drop (S idx') (lists h)).
Proof.
  intros Hok. revert idx l. induction fuel as [|fuel IH]; intros idx l Hl Hf.
  - left. split; [|by exists idx]. rewrite drop_ge; [done|]. rewrite (ho_len _ _ Hok). lia.
  - cbn [skip_empty]. rewrite bool_decide_true by done. cbn [andb]. destruct (Z.of_nat idx <? nof_buckets h - 1) eqn:E.
    + zbool. destruct (lookup_lt_is_Some_2 (lists h) (S idx)) as [l' Hl']; [rewrite (ho_len _ _ Hok); lia|].
      unfold head_next. rewrite (list_lookup_total_correct _ _ _ Hl'), (drop_S _ _ _ Hl'). cbn [concat].
      destruct l' as [|e post]; cbn [first_of app].
      * apply (IH _ _ Hl'). lia.
      * right. exists (S idx), e, post. split; [done|]. split; [|done]. destruct fuel; [done|]. done.
    + left. zbool. split; [|by exists idx]. rewrite drop_ge; [done|]. rewrite (ho_len _ _ Hok). lia.
Qed.

(** One call returns the next entry, and leaves the cursor at the one after. *)
Lemma enum_next_spec h en l : hash_ok h -> points h en l ->
  match l with
  | [] => mtlk_hash_enum_next h en = EnumEnd
  | e :: l' => exists en', mtlk_hash_enum_next h en = EnumEntry e en' /\ points h en' l'
  end.
Proof.
  intros Hok (idx & pre & post & Hl & H1 & H2 & ->). unfold mtlk_hash_enum_next. rewrite H1, H2.
  destruct post as [|e post]; cbn [first_of app].
  - destruct (skip_empty_spec (Z.to_nat (nof_buckets h)) h idx _ Hok Hl) as [[He [idx' Hs]]|(idx' & e & post & Hl' & Hs & He)];
      [lia| |]; rewrite Hs, He.
    + by rewrite decide_True by done.
    + rewrite decide_False by done. eexists. split; [done|].
      exists idx', [e], post. cbn [data1 data2]. split; [done|split; [by apply (entry_next_spec h idx' [] e post)|done]].
  - assert (forall fuel, skip_empty fuel h (LEntry e) idx = (LEntry e, idx)) as -> by (intros [|?]; done).
    rewrite decide_False by done. eexists. split; [done|].
    exists idx, (pre ++ [e]), post. cbn [data1 data2]. rewrite <-app_assoc.
    split; [done|split; [by apply (entry_next_spec h idx pre e post)|done]].
Qed.

Lemma points_first h : hash_ok h -> points h (HEnum (head_next h 0) 0) (entries h).
Proof.
  intros Hok. pose proof (ho_pos _ _ Hok). destruct (lists h) as [|l ls] eqn:El.
  - pose proof (ho_len _ _ Hok) as Hlen. rewrite El in Hlen. cbn in Hlen. lia.
  - exists 0%nat, [], l. unfold head_next, entries. rewrite El. cbn [data1 data2 lookup list_lookup app drop concat].
    split; [done|split; [|done]]. by rewrite (list_lookup_total_correct (l :: ls) 0 l).
Qed.

Lemma unlink_lists e h : hash_ok h -> e ∈ entries h ->
  lists (__mtlk_hash_remove e h) = filter (fun x => x <> e) <$> lists h.
Proof.
  intros Hok He. destruct (entries_place hash_f h e Hok He) as (i & l & Hl & Hel & Hi & _).
  apply list_eq. intros j. cbn -[lookup_total alter]. rewrite Hi, Nat2Z.id, list_lookup_alter, list_lookup_fmap.
  case_decide as Hj; [by subst|]. destruct (lists h !! j) as [l'|] eqn:Hl'; [|done]. cbn. f_equal. symmetry.
  apply filter_ne_id. intros He'. destruct (ho_place _ _ Hok j l' e Hl' He') as [Hj' _]. lia.
Qed.

(** Taking out an entry that is not among those to come leaves the cursor good. *)
Lemma points_unlink e h en l : hash_ok h -> e ∈ entries h -> points h en l -> e ∉ l -> points (__mtlk_hash_remove e h) en l.
Proof.
  intros Hok He (idx & pre & post & Hl & H1 & H2 & ->) Hel. apply not_elem_of_app in Hel as [Hp Hc].
  exists idx, (filter (fun x => x <> e) pre), post. rewrite unlink_lists by done.
  split; [|split; [done|split; [done|]]].
  - rewrite list_lookup_fmap, Hl. cbn. rewrite filter_app. by rewrite (filter_ne_id post).
  - f_equal. assert (forall ls : list (list Z), e ∉ concat ls -> filter (fun x => x <> e) <$> ls = ls) as Hid.
    { intros ls. induction ls as [|l' ls IH]; intros Hls; [done|]. cbn [concat] in Hls.
      apply not_elem_of_app in Hls as [? ?]. rewrite fmap_cons, filter_ne_id, IH; done. }
    by rewrite skipn_map, Hid.
Qed.

(** ** Loops *)

(** A body that may remove the entry it is given. *)
Definition visit (del : Z -> bool) (e : Z) h : mtlk_hash_t K := if del e then default h (mtlk_hash_remove e h) else h.

Lemma visit_step del e l h en : hash_ok h -> e ∈ entries h -> NoDup (e :: l) -> points h en l ->
  let h' := visit del e h in
  hash_ok h' /\ points h' en l /\ entries h' = filter (fun x => ~ (x = e /\ del x = true)) (entries h).
Proof.
  intros Hok He [Hel _]%NoDup_cons Hp h'. unfold h', visit. destruct (del e) eqn:Ed.
  - destruct (unlink_ok hash_f hash_range e h Hok He) as (H1 & _ & _ & H2). rewrite H2. cbn [default from_option id].
    split; [done|split; [by apply points_unlink|]]. rewrite (unlink_entries hash_f) by done.
    apply list_filter_iff. intros x. split; [naive_solver|]. intros Hx ->. by apply Hx.
  - split; [done|split; [done|]]. symmetry. apply filter_all. intros x _ [-> Hd]. congruence.
Qed.

Lemma points_entries h en l : points h en l -> NoDup (entries h) -> NoDup l /\ forall e, e ∈ l -> e ∈ entries h.
Proof.
  intros (idx & pre & post & Hl & _ & _ & ->) Hn.
  assert (entries h = concat (take idx (lists h)) ++ pre ++ post ++ concat (drop (S idx) (lists h))) as Heq.
  { unfold entries. rewrite <-(take_drop_middle (lists h) idx _ Hl) at 1. rewrite concat_app. cbn [concat]. by rewrite <-app_assoc. }
  rewrite Heq in Hn |- *. apply NoDup_app in Hn as (_ & _ & Hn). apply NoDup_app in Hn as (_ & _ & Hn).
  split; [done|]. intros e He. rewrite !elem_of_app in *. naive_solver.
Qed.

(** Enough turns visit every entry to come exactly once, in order. *)
Lemma enum_loop_spec del fuel h en l : hash_ok h -> points h en l -> (length l <= fuel)%nat ->
  exists h', enum_loop fuel (visit del) (mtlk_hash_enum_next h en) h = Some (l, h') /\ hash_ok h' /\
    entries h' = filter (fun x => ~ (x ∈ l /\ del x = true)) (entries h).
Proof.
  revert h en l. induction fuel as [|fuel IH]; intros h en l Hok Hp Hf.
  all: pose proof (enum_next_spec h en l Hok Hp) as Hs; pose proof (points_entries h en l Hp (ho_nodup _ _ Hok)) as [Hn Hin].
  - destruct l; [|cbn in Hf; lia]. rewrite Hs. exists h. split; [done|split; [done|]]. symmetry.
    apply filter_all. intros x _ [Hx%elem_of_nil _]. done.
  - destruct l as [|e l]; cbn [length] in Hf.
    + rewrite Hs. exists h. split; [done|split; [done|]]. symmetry.
      apply filter_all. intros x _ [Hx%elem_of_nil _]. done.
    + destruct Hs as (en' & Hs & Hp'). rewrite Hs. cbn [enum_loop].
      destruct (visit_step del e l h en' Hok (Hin e ltac:(left)) Hn Hp') as (H1 & H2 & H3).
      destruct (IH _ _ _ H1 H2) as (h' & H4 & H5 & H6); [lia|]. rewrite H4. exists h'. split; [done|split; [done|]].
      rewrite H6, H3, list_filter_filter. apply list_filter_iff. intros x. rewrite elem_of_cons. naive_solver.
Qed.
End HashEnum.
