(* ===== verification/HashThms.v ===== *)
(** * HashThms: the properties of the hash table *)
From S2P Require Import Prelude Hash HashInv.
From Stdlib Require Import Permutation.

(** ** The hash functions stay inside the table *)

Lemma ieee_addr_range k n : 0 < n -> 0 <= _mtlk_hash_ieee_addr_hashval k n < n.
Proof.
  intros Hn. unfold _mtlk_hash_ieee_addr_hashval. generalize (k !!! 5%nat). intros x.
  destruct (Z.ldiff_le (Z.land x (n - 1)) (n - 1)); [lia| |lia].
  apply Z.bits_inj'. intros i Hi. rewrite Z.ldiff_spec, Z.land_spec, Z.bits_0. by destruct (Z.testbit x i), (Z.testbit (n - 1) i).
Qed.

Lemma abmgr_range k n : 0 < n -> 0 <= _mtlk_hash_abmgr_hashval k n < n.
Proof. intros Hn. by apply Z.mod_pos_bound. Qed.

(** ** Sequences of operations *)

Inductive hash_op {K : Type} :=
| HFind (k : K) | HInsert (k : K) (e : Z) | HReplace (k : K) (e : Z) | HRemove (e : Z).
Arguments hash_op : clear implicits.

Section HashThms.
Context {K : Type} `{Countable K, Inhabited K} (hash_f : K -> Z -> Z).
Context (hash_range : forall k n, 0 < n -> 0 <= hash_f k n < n).
Implicit Types (h : mtlk_hash_t K) (m : gmap K Z).
Abbreviation hash_ok := (hash_ok hash_f).

(** The answer of an operation; [None] is a dereferenced poison. *)
Definition hash_step (op : hash_op K) h : option (option Z) * mtlk_hash_t K :=
  match op with
  | HFind k => (Some (mtlk_hash_find hash_f k h), h)
  | HInsert k e => let '(r, h) := mtlk_hash_insert hash_f k e h in (Some r, h)
  | HReplace k e => let '(r, h) := mtlk_hash_insert_replace hash_f k e h in (Some r, h)
  | HRemove e => match mtlk_hash_remove e h with Some h => (Some None, h) | None => (None, h) end
  end.

(** The same operation on a finite map. *)
Definition map_step (op : hash_op K) m : option (option Z) * gmap K Z :=
  match op with
  | HFind k => (Some (m !! k), m)
  | HInsert k e => (Some (m !! k), match m !! k with Some _ => m | None => <[k := e]> m end)
  | HReplace k e => (Some (m !! k), <[k := e]> m)
  | HRemove e => (Some None, filter (fun p => p.2 <> e) m)
  end.

(** An entry is inserted when it is not linked, and removed when it is. *)
Definition op_allowed m (op : hash_op K) : Prop :=
  match op with
  | HFind _ => True
  | HInsert _ e | HReplace _ e => forall k, m !! k <> Some e
  | HRemove e => exists k, m !! k = Some e
  end.

Fixpoint hash_run (ops : list (hash_op K)) h : list (option (option Z)) * mtlk_hash_t K :=
  match ops with
  | [] => ([], h)
  | op :: ops => let '(r, h) := hash_step op h in let '(rs, h) := hash_run ops h in (r :: rs, h)
  end.
Fixpoint map_run (ops : list (hash_op K)) m : list (option (option Z)) * gmap K Z :=
  match ops with
  | [] => ([], m)
  | op :: ops => let '(r, m) := map_step op m in let '(rs, m) := map_run ops m in (r :: rs, m)
  end.
Fixpoint ops_allowed (ops : list (hash_op K)) m : Prop :=
  match ops with [] => True | op :: ops => op_allowed m op /\ ops_allowed ops (map_step op m).2 end.

(** Decided on a concrete map. *)
Definition op_allowedb m (op : hash_op K) : bool :=
  match op with
  | HFind _ => true
  | HInsert _ e | HReplace _ e => bool_decide (map_Forall (fun _ x => x <> e) m)
  | HRemove e => negb (bool_decide (map_Forall (fun _ x => x <> e) m))
  end.
Fixpoint ops_allowedb (ops : list (hash_op K)) m : bool :=
  match ops with [] => true | op :: ops => op_allowedb m op && ops_allowedb ops (map_step op m).2 end.

Lemma op_allowedb_spec m op : op_allowedb m op = true -> op_allowed m op.
Proof.
  destruct op as [k|k e|k e|e]; cbn; intros Hb; [done| | |].
  1, 2: apply bool_decide_eq_true in Hb; intros k' Hk'; by apply (Hb k' e).
  apply negb_true_iff, bool_decide_eq_false in Hb. apply map_not_Forall in Hb as (k & x & Hk & Hx); [|apply _].
  exists k. rewrite Hk. f_equal. destruct (decide (x = e)); [done|]. by destruct Hx.
Qed.

Lemma ops_allowedb_spec ops m : ops_allowedb ops m = true -> ops_allowed ops m.
Proof.
  revert m. induction ops as [|op ops IH]; intros m Hb; [done|]. cbn in Hb. apply andb_true_iff in Hb as [H1 H2].
  split; [by apply op_allowedb_spec|by apply IH].
Qed.

Lemma not_linked h e : hash_ok h -> (forall k, map_of h !! k <> Some e) -> e ∉ entries h.
Proof. intros Hok Hn He. apply (Hn (key h !!! e)). by apply (map_of_lookup hash_f). Qed.

Lemma fresh_key h k : hash_ok h -> map_of h !! k = None -> forall x, x ∈ entries h -> key h !!! x <> k.
Proof. intros Hok Hk. by apply (map_of_none hash_f). Qed.

Lemma insert_map h k e : hash_ok h -> (forall k', map_of h !! k' <> Some e) ->
  (mtlk_hash_insert hash_f k e h).1 = map_of h !! k /\ hash_ok (mtlk_hash_insert hash_f k e h).2 /\
  map_of (mtlk_hash_insert hash_f k e h).2 = (map_step (HInsert k e) (map_of h)).2.
Proof.
  intros Hok He. unfold mtlk_hash_insert. cbn [map_step snd]. rewrite (find_map hash_f hash_range) by done.
  destruct (map_of h !! k) eqn:Ek; [done|]. cbn [fst snd].
  destruct (link_ok hash_f hash_range k e h Hok) as [H1 H2]; [by apply not_linked|by apply fresh_key|done].
Qed.

Lemma replace_map h k e : hash_ok h -> (forall k', map_of h !! k' <> Some e) ->
  (mtlk_hash_insert_replace hash_f k e h).1 = map_of h !! k /\ hash_ok (mtlk_hash_insert_replace hash_f k e h).2 /\
  map_of (mtlk_hash_insert_replace hash_f k e h).2 = <[k := e]> (map_of h).
Proof.
  intros Hok He. unfold mtlk_hash_insert_replace. rewrite (find_map hash_f hash_range) by done. cbn [fst snd].
  split; [done|]. destruct (map_of h !! k) as [p|] eqn:Ek; cbv zeta.
  - apply (map_of_lookup hash_f) in Ek as [Hp Hk]; [|done].
    destruct (unlink_ok hash_f hash_range p h Hok Hp) as (H1 & H2 & _ & _). rewrite Hk in H2.
    destruct (link_ok hash_f hash_range k e (__mtlk_hash_remove p h) H1) as [H3 H4].
    + apply not_linked; [done|]. intros k' Hk'. rewrite H2 in Hk'. apply lookup_delete_Some in Hk' as [_ Hk']. by apply (He k').
    + apply fresh_key; [done|]. rewrite H2. apply lookup_delete_eq.
    + split; [done|]. rewrite H4, H2. apply insert_delete_eq.
  - apply (link_ok hash_f hash_range); [done|by apply not_linked|by apply fresh_key].
Qed.

Lemma remove_map h e k : hash_ok h -> map_of h !! k = Some e ->
  exists h', mtlk_hash_remove e h = Some h' /\ hash_ok h' /\ map_of h' = filter (fun p => p.2 <> e) (map_of h).
Proof.
  intros Hok Hk. apply (map_of_lookup hash_f) in Hk as [He Hke]; [|done].
  destruct (unlink_ok hash_f hash_range e h Hok He) as (H1 & H2 & _ & H3). eexists. split; [exact H3|split; [done|]].
  rewrite H2. apply map_eq. intros k'. apply option_eq. intros x.
  rewrite lookup_delete_Some, map_lookup_filter_Some. cbn [snd]. rewrite !(map_of_lookup hash_f) by done. split.
  - intros (Hne & Hx & <-). split; [done|]. by intros ->.
  - intros [[Hx <-] Hne]. split; [|done]. intros Heq. apply Hne. symmetry. by apply (ho_keys _ _ Hok).
Qed.

Lemma hash_step_map op h : hash_ok h -> op_allowed (map_of h) op ->
  (hash_step op h).1 = (map_step op (map_of h)).1 /\ hash_ok (hash_step op h).2 /\
  map_of (hash_step op h).2 = (map_step op (map_of h)).2.
Proof.
  intros Hok Hop. destruct op as [k|k e|k e|e]; cbn [hash_step op_allowed] in *.
  - cbn. by rewrite (find_map hash_f hash_range).
  - destruct (insert_map h k e Hok Hop) as (H1 & H2 & H3).
    destruct (mtlk_hash_insert hash_f k e h) as [r h']. cbn [fst snd] in *. by rewrite H1.
  - destruct (replace_map h k e Hok Hop) as (H1 & H2 & H3).
    destruct (mtlk_hash_insert_replace hash_f k e h) as [r h']. cbn [fst snd map_step] in *. by rewrite H1.
  - destruct Hop as [k Hk]. destruct (remove_map h e k Hok Hk) as (h' & H1 & H2 & H3). by rewrite H1.
Qed.

Lemma hash_run_map ops h : hash_ok h -> ops_allowed ops (map_of h) ->
  (hash_run ops h).1 = (map_run ops (map_of h)).1 /\ map_of (hash_run ops h).2 = (map_run ops (map_of h)).2 /\
  hash_ok (hash_run ops h).2.
Proof.
  revert h. induction ops as [|op ops IH]; intros h Hok Hops; [done|].
  destruct Hops as [Hop Hops]. destruct (hash_step_map op h Hok Hop) as (H1 & H2 & H3). cbn [hash_run map_run].
  destruct (hash_step op h) as [r h']. destruct (map_step op (map_of h)) as [r' m']. cbn [fst snd] in *. subst r' m'.
  destruct (IH h' H2 Hops) as (H4 & H5 & H6).
  destruct (hash_run ops h') as [rs h2]. destruct (map_run ops (map_of h')) as [rs' m2]. cbn [fst snd] in *. by rewrite H4.
Qed.

(** C15. The table answers every sequence of insertions, replacements, removals
    and searches exactly as a finite map does, whatever its number of buckets
    and its hash function, provided entries are inserted while unlinked and
    removed while linked: no operation dereferences poison, and afterwards the
    table stands for the map. *)
Theorem hash_is_map nof h0 ops : 0 < nof -> ops_allowed ops ∅ ->
  let h := (mtlk_hash_init nof true h0).2 in
  (hash_run ops h).1 = (map_run ops ∅).1 /\ map_of (hash_run ops h).2 = (map_run ops ∅).2 /\
  hash_ok (hash_run ops h).2.
Proof.
  intros Hn Hops h. destruct (init_ok hash_f nof h0 Hn) as [Hok Hm]. fold h in Hok, Hm. rewrite <-Hm in Hops |- *.
  by apply hash_run_map.
Qed.

Lemma enum_loop_key del fuel r h l h' : enum_loop fuel (visit del) r h = Some (l, h') -> key h' = key h.
Proof.
  revert r h l h'. induction fuel as [|fuel IH]; intros r h l h'; destruct r as [e en| |]; cbn [enum_loop];
    try (by intros [= _ <-]); try (by intros [=]).
  destruct (enum_loop fuel _ _ _) as [[l' h2]|] eqn:E; [|done]. intros [= _ <-]. rewrite (IH _ _ _ _ E).
  unfold visit, mtlk_hash_remove. destruct (del e); [|done]. by case_decide.
Qed.

(** An enumeration returns every linked entry exactly once and ends, also
    when the loop removes the entries it is given ([del] says which): the next
    one was fetched before.  The table is left with the others. *)
Theorem hash_enumerates del h fuel : hash_ok h -> (length (entries h) <= fuel)%nat ->
  exists h', enumerate fuel (visit del) h = Some (entries h, h') /\ NoDup (entries h) /\ hash_ok h' /\
    entries h' = filter (fun e => del e = false) (entries h) /\
    map_of h' = filter (fun p => del p.2 = false) (map_of h).
Proof.
  intros Hok Hf. pose proof (points_first hash_f h Hok) as Hp.
  destruct (enum_loop_spec hash_f hash_range del fuel h _ _ Hok Hp Hf) as (h' & H1 & H2 & H3).
  assert (entries h' = filter (fun e => del e = false) (entries h)) as H4.
  { rewrite H3. assert (forall l : list Z, (forall e, e ∈ l -> e ∈ entries h) ->
      filter (fun x => ~ (x ∈ entries h /\ del x = true)) l = filter (fun e => del e = false) l) as Hl; [|by apply Hl].
    intros l. induction l as [|x l IH]; intros Hl; [done|]. rewrite !filter_cons, IH by (intros; apply Hl; by right).
    specialize (Hl x ltac:(left)). destruct (del x) eqn:Ex; by repeat case_decide; try naive_solver. }
  exists h'. split; [exact H1|split; [apply Hok|split; [done|split; [done|]]]].
  pose proof (enum_loop_key del fuel (mtlk_hash_enum_first h) h _ _ H1) as Hkey.
  apply (map_of_ext hash_f hash_range); [done|]. intros k e. rewrite map_lookup_filter_Some, (map_of_lookup hash_f) by done.
  rewrite H4, Hkey, list_elem_of_filter. cbn [snd]. naive_solver.
Qed.

(** Removing the entry the cursor has already fetched breaks the enumeration:
    it is returned although it is no longer linked, and the call after that
    dereferences the poison left in it. *)
Theorem hash_enum_removed_next h i pre e post : hash_ok h -> lists h !! i = Some (pre ++ e :: post) ->
  let h' := __mtlk_hash_remove e h in
  exists en', mtlk_hash_enum_next h' (HEnum (LEntry e) i) = EnumEntry e en' /\ e ∉ entries h' /\
    mtlk_hash_enum_next h' en' = EnumFault.
Proof.
  intros Hok Hl h'. assert (e ∈ entries h) as He.
  { apply elem_of_buckets. exists i, (pre ++ e :: post). split; [done|]. apply elem_of_app. right. left. }
  destruct (unlink_ok hash_f hash_range e h Hok He) as (_ & _ & H1 & _). fold h' in H1.
  assert (forall p fuel, p <> LHead i -> skip_empty fuel h' p i = (p, i)) as Hskip.
  { intros p [|fuel] Hp; [done|]. cbn. by rewrite bool_decide_false. }
  exists (HEnum (entry_next h' e) i). split; [|split; [done|]]; unfold mtlk_hash_enum_next; cbn [data1 data2].
  - rewrite Hskip by done. by rewrite decide_False by done.
  - unfold entry_next. rewrite succ_from_absent by done. rewrite Hskip by done. by rewrite decide_False by done.
Qed.
End HashThms.

(** ** Witnesses: a table of MAC addresses *)

Definition sta_a : IEEE_ADDR := [0; 9; 134; 0; 0; 17].
Definition sta_b : IEEE_ADDR := [0; 9; 134; 0; 0; 1].
Definition sta_c : IEEE_ADDR := [0; 9; 134; 0; 0; 2].
Definition no_hash : mtlk_hash_t IEEE_ADDR := Hash IEEE_ADDR 0 [] ∅ ∅.
Definition some_ops : list (hash_op IEEE_ADDR) :=
  [HInsert sta_a 100; HInsert sta_b 200; HInsert sta_a 300; HInsert sta_c 300; HFind sta_b; HRemove 100; HFind sta_a;
   HReplace sta_b 100; HFind sta_b].

Lemma some_ops_allowed : ops_allowed some_ops ∅.
Proof. apply ops_allowedb_spec. by vm_compute. Qed.

Lemma hash_is_map_witness :
  let h := (mtlk_hash_init 16 true no_hash).2 in
  (hash_run _mtlk_hash_ieee_addr_hashval some_ops h).1 = (map_run some_ops ∅).1 /\
  (hash_run _mtlk_hash_ieee_addr_hashval some_ops h).1 =
    [Some None; Some None; Some (Some 100); Some None; Some (Some 200); Some None; Some None; Some (Some 200); Some (Some 100)].
Proof.
  split; [|by vm_compute].
  apply (hash_is_map _mtlk_hash_ieee_addr_hashval ieee_addr_range 16 no_hash some_ops); [lia|apply some_ops_allowed].
Defined.

Definition three_stas : mtlk_hash_t IEEE_ADDR :=
  (hash_run _mtlk_hash_ieee_addr_hashval [HInsert sta_a 100; HInsert sta_b 200; HInsert sta_c 300]
     (mtlk_hash_init 16 true no_hash).2).2.

Lemma three_stas_ok : hash_ok _mtlk_hash_ieee_addr_hashval three_stas.
Proof.
  destruct (init_ok _mtlk_hash_ieee_addr_hashval 16 no_hash) as [Hok Hm]; [lia|].
  apply (hash_run_map _mtlk_hash_ieee_addr_hashval ieee_addr_range); [done|]. rewrite Hm. apply ops_allowedb_spec. by vm_compute.
Qed.

(** The first and the second share a bucket; removing the first on the way
    visits all three. *)
Lemma hash_enumerates_witness :
  entries three_stas = [100; 200; 300] /\
  exists h', enumerate 3 (visit (fun e => e =? 100)) three_stas = Some (entries three_stas, h') /\
    entries h' = [200; 300].
Proof.
  split; [by vm_compute|].
  destruct (hash_enumerates _mtlk_hash_ieee_addr_hashval ieee_addr_range (fun e => e =? 100) three_stas 3 three_stas_ok)
    as (h' & H1 & _ & _ & H2 & _); [by vm_compute; lia|].
  exists h'. split; [exact H1|]. rewrite H2. by vm_compute.
Defined.
