(* ===== verification/Abmgr.v ===== *)
(** * Abmgr: the ability manager (wireless/driver/shared/mtlk_ab_manager.c)

    Which requests a virtual interface answers: a hash table from ability
    identifiers to records with a flag.  Each function takes the table's lock
    once around its search; records are allocated, so that registering may
    fail. *)
From S2P Require Import Prelude Hash HashInv HashThms.

Definition MTLK_ABILITY_NONE : Z := 0xFFFFFFFF.

(** A failed assertion, or a search result of NULL that is dereferenced. *)
Inductive ab_ev := AbAssert | AbNull.

(** The table, the flags of the records, the records allocated, how many times
    the allocator was asked, and what went wrong. *)
Record mtlk_abmgr_t := Abmgr {
  ability_states_hash : mtlk_hash_t Z;
  is_enabled : gmap Z bool;
  live : gset Z;
  asked : nat;
  ab_log : list ab_ev;
}.

Definition ab_set_table (t : mtlk_hash_t Z) (s : mtlk_abmgr_t) : mtlk_abmgr_t :=
  Abmgr t (is_enabled s) (live s) (asked s) (ab_log s).
Definition ab_set_flag (r : Z) (b : bool) (s : mtlk_abmgr_t) : mtlk_abmgr_t :=
  Abmgr (ability_states_hash s) (<[r := b]> (is_enabled s)) (live s) (asked s) (ab_log s).
Definition ab_set_live (l : gset Z) (s : mtlk_abmgr_t) : mtlk_abmgr_t :=
  Abmgr (ability_states_hash s) (is_enabled s) l (asked s) (ab_log s).
Definition ab_emit (b : bool) (e : ab_ev) (s : mtlk_abmgr_t) : mtlk_abmgr_t :=
  if b then Abmgr (ability_states_hash s) (is_enabled s) (live s) (asked s) (ab_log s ++ [e]) else s.

Abbreviation ab_find := (mtlk_hash_find _mtlk_hash_abmgr_hashval).

Section Abmgr.
(** The allocator: its answer to the [n]-th request when [live] is in use. *)
Context (alloc : gset Z -> nat -> option Z).

Definition ab_alloc (s : mtlk_abmgr_t) : option Z * mtlk_abmgr_t :=
  let r := alloc (live s) (asked s) in
  (r, Abmgr (ability_states_hash s) (is_enabled s) (match r with Some x => {[x]} ∪ live s | None => live s end)
        (S (asked s)) (ab_log s)).

Definition mtlk_abmgr_register_ability (ab_id : Z) (s : mtlk_abmgr_t) : Z * mtlk_abmgr_t :=
  let '(rec, s) := ab_alloc s in
  match rec with
  | None => (MTLK_ERR_NO_MEM, s)
  | Some ab_record =>
      let s := ab_set_flag ab_record false s in
      let '(entry, t) := mtlk_hash_insert _mtlk_hash_abmgr_hashval ab_id ab_record (ability_states_hash s) in
      let s := ab_set_table t s in
      (MTLK_ERR_OK, ab_emit (bool_decide (entry <> None)) AbAssert s)
  end.

Definition _mtlk_abmgr_is_ability_registered (ab_id : Z) (s : mtlk_abmgr_t) : bool :=
  bool_decide (ab_find ab_id (ability_states_hash s) <> None).

Definition _mtlk_abmgr_is_ability_enabled (ab_id : Z) (s : mtlk_abmgr_t) : bool :=
  match ab_find ab_id (ability_states_hash s) with
  | Some ab_record => is_enabled s !!! ab_record
  | None => false
  end.

Definition mtlk_abmgr_unregister_ability (ab_id : Z) (s : mtlk_abmgr_t) : mtlk_abmgr_t :=
  match ab_find ab_id (ability_states_hash s) with
  | None => ab_emit true AbNull (ab_emit true AbAssert s)
  | Some ab_record =>
      let s := ab_emit (is_enabled s !!! ab_record) AbAssert s in
      match mtlk_hash_remove ab_record (ability_states_hash s) with
      | Some t => ab_set_live (live s ∖ {[ab_record]}) (ab_set_table t s)
      | None => ab_emit true AbNull s
      end
  end.

Definition _mtlk_abmgr_set_ability_state (ab_id : Z) (ab_state : bool) (s : mtlk_abmgr_t) : mtlk_abmgr_t :=
  match ab_find ab_id (ability_states_hash s) with
  | None => ab_emit true AbNull (ab_emit true AbAssert s)
  | Some ab_record => ab_set_flag ab_record ab_state s
  end.
Definition mtlk_abmgr_enable_ability (ab_id : Z) (s : mtlk_abmgr_t) := _mtlk_abmgr_set_ability_state ab_id true s.
Definition mtlk_abmgr_disable_ability (ab_id : Z) (s : mtlk_abmgr_t) := _mtlk_abmgr_set_ability_state ab_id false s.

(** The loops over [ab_id_list], in its order. *)
Definition mtlk_abmgr_unregister_ability_set (ids : list Z) (s : mtlk_abmgr_t) : mtlk_abmgr_t :=
  foldl (fun s id => mtlk_abmgr_unregister_ability id s) s ids.
Definition mtlk_abmgr_enable_ability_set (ids : list Z) (s : mtlk_abmgr_t) : mtlk_abmgr_t :=
  foldl (fun s id => mtlk_abmgr_enable_ability id s) s ids.
Definition mtlk_abmgr_disable_ability_set (ids : list Z) (s : mtlk_abmgr_t) : mtlk_abmgr_t :=
  foldl (fun s id => mtlk_abmgr_disable_ability id s) s ids.

(** [i]: how many of the list are registered already. *)
Fixpoint register_from (i : nat) (ids rest : list Z) (s : mtlk_abmgr_t) : Z * mtlk_abmgr_t :=
  match rest with
  | [] => (MTLK_ERR_OK, s)
  | id :: rest =>
      let '(res, s) := mtlk_abmgr_register_ability id s in
      if negb (res =? MTLK_ERR_OK) then (res, mtlk_abmgr_unregister_ability_set (take i ids) s)
      else register_from (S i) ids rest s
  end.
Definition mtlk_abmgr_register_ability_set (ids : list Z) (s : mtlk_abmgr_t) : Z * mtlk_abmgr_t :=
  register_from 0 ids ids s.

(** [mtlk_abmgr_create] and [mtlk_abmgr_delete]; [got]: the manager and its
    array of lists could be allocated. *)
Definition _mtlk_abmgr_init (got : bool) (s : mtlk_abmgr_t) : Z * mtlk_abmgr_t :=
  let '(res, t) := mtlk_hash_init _MTLK_ABMGR_HASH_NOF_BUCKETS got (ability_states_hash s) in
  let s := ab_set_table t s in
  if negb (res =? MTLK_ERR_OK) then (res, s)
  else
    let '(res, s) := mtlk_abmgr_register_ability MTLK_ABILITY_NONE s in
    if negb (res =? MTLK_ERR_OK) then (res, s)
    else (MTLK_ERR_OK, mtlk_abmgr_enable_ability MTLK_ABILITY_NONE s).
Definition _mtlk_abmgr_cleanup (s : mtlk_abmgr_t) : mtlk_abmgr_t :=
  mtlk_abmgr_unregister_ability MTLK_ABILITY_NONE (mtlk_abmgr_disable_ability MTLK_ABILITY_NONE s).
End Abmgr.

Definition ab_zero : mtlk_abmgr_t := Abmgr (Hash Z 0 [] ∅ ∅) ∅ ∅ 0 [].
