(* ===== verification/AbmgrThms.v ===== *)
(** * AbmgrThms: the ability manager is a map from abilities to flags *)
From S2P Require Import Prelude Hash HashInv HashThms Abmgr.

Abbreviation ab_hash_ok := (hash_ok _mtlk_hash_abmgr_hashval).

(** The abilities registered, with their flags. *)
Definition ab_map (s : mtlk_abmgr_t) : gmap Z bool := (fun r => is_enabled s !!! r) <$> map_of (ability_states_hash s).

Abbreviation ab_recs s := (map_of (ability_states_hash s)).

(** Every allocated record is linked, and nothing went wrong so far. *)
Record ab_ok (s : mtlk_abmgr_t) : Prop := {
  ab_table : ab_hash_ok (ability_states_hash s);
  ab_live r : r ∈ live s <-> r ∈ entries (ability_states_hash s);
  ab_calm : ab_log s = [];
}.

Section AbmgrThms.
Context (alloc : gset Z -> nat -> option Z).
Context (alloc_fresh : forall l n r, alloc l n = Some r -> r ∉ l).
Implicit Types s : mtlk_abmgr_t.
Abbreviation register := (mtlk_abmgr_register_ability alloc).

Lemma ab_find_map s id : ab_ok s -> ab_find id (ability_states_hash s) = map_of (ability_states_hash s) !! id.
Proof. intros [Ht _ _]. by apply (find_map _ abmgr_range). Qed.

Lemma ab_map_some s id b : ab_map s !! id = Some b <->
  exists r, map_of (ability_states_hash s) !! id = Some r /\ is_enabled s !!! r = b.
Proof. unfold ab_map. rewrite lookup_fmap_Some. naive_solver. Qed.

Lemma ab_map_none s id : ab_map s !! id = None <-> map_of (ability_states_hash s) !! id = None.
Proof. unfold ab_map. by rewrite lookup_fmap, fmap_None. Qed.

(** What the two tests answer. *)
Lemma ab_tests s id : ab_ok s ->
  _mtlk_abmgr_is_ability_registered id s = bool_decide (is_Some (ab_map s !! id)) /\
  _mtlk_abmgr_is_ability_enabled id s = default false (ab_map s !! id).
Proof.
  intros Hok. unfold _mtlk_abmgr_is_ability_registered, _mtlk_abmgr_is_ability_enabled, ab_map.
  rewrite (ab_find_map s id Hok), lookup_fmap. 
  destruct (map_of _ !! id) as [r|]; (split; [|done]); by apply bool_decide_ext; rewrite <-not_eq_None_Some.
Qed.

(** Two entries never share a record, so that a flag belongs to one ability. *)
Lemma ab_record_unique s id id' r : ab_ok s ->
  map_of (ability_states_hash s) !! id = Some r -> map_of (ability_states_hash s) !! id' = Some r -> id = id'.
Proof.
  intros [Ht _ _] H1 H2. apply (map_of_lookup _mtlk_hash_abmgr_hashval) in H1 as [_ <-]; [|done].
  by apply (map_of_lookup _mtlk_hash_abmgr_hashval) in H2 as [_ <-].
Qed.

Lemma ab_flag_map s id r b : ab_ok s -> map_of (ability_states_hash s) !! id = Some r ->
  ab_map (ab_set_flag r b s) = <[id := b]> (ab_map s).
Proof.
  intros Hok Hr. unfold ab_map, ab_set_flag. cbn -[lookup_total insert]. apply map_eq. intros id'.
  rewrite lookup_fmap. destruct (decide (id = id')) as [<-|Hne].
  - rewrite lookup_insert_eq, Hr. cbn. by rewrite lookup_total_insert_eq.
  - rewrite lookup_insert_ne, lookup_fmap by done. destruct (map_of _ !! id') as [r'|] eqn:Hr'; [|done]. cbn.
    rewrite lookup_total_insert_ne; [done|]. intros ->. by destruct Hne, (ab_record_unique s id id' r').
Qed.

Lemma ab_set_state_spec s id b b0 : ab_ok s -> ab_map s !! id = Some b0 ->
  let s' := _mtlk_abmgr_set_ability_state id b s in ab_ok s' /\ ab_map s' = <[id := b]> (ab_map s) /\ live s' = live s.
Proof.
  intros Hok (r & Hr & _)%ab_map_some s'. unfold s', _mtlk_abmgr_set_ability_state. rewrite ab_find_map, Hr by done.
  split; [by destruct Hok|split; [|done]]. by apply ab_flag_map.
Qed.

Lemma ab_register_spec s id : ab_ok s -> ab_map s !! id = None ->
  let '(res, s') := register id s in
  ab_ok s' /\ ((res = MTLK_ERR_NO_MEM /\ ab_map s' = ab_map s /\ ab_recs s' = ab_recs s) \/
               (res = MTLK_ERR_OK /\ ab_map s' = <[id := false]> (ab_map s) /\ exists r, ab_recs s' = <[id := r]> (ab_recs s))).
Proof.
  intros Hok Hn. unfold mtlk_abmgr_register_ability, ab_alloc. destruct (alloc _ _) as [r|] eqn:Ea.
  - apply alloc_fresh in Ea. destruct Hok as [Ht Hl Hc]. pose proof Ea as Hr. rewrite Hl in Hr.
    apply ab_map_none in Hn. cbn -[insert lookup_total union mtlk_hash_insert]. unfold mtlk_hash_insert.
    rewrite (find_map _ abmgr_range), Hn by done. rewrite bool_decide_false by (intros ?; done).
    destruct (link_ok _ abmgr_range id r (ability_states_hash s) Ht Hr) as [H1 H2]; [by apply (fresh_key _mtlk_hash_abmgr_hashval)|].
    cbn -[insert lookup_total union __mtlk_hash_insert]. split; [constructor|right; split; [done|split; [|by exists r; rewrite <-H2]]];
      cbn -[insert lookup_total union __mtlk_hash_insert]; [done| |done|].
    + intros x. rewrite elem_of_union, elem_of_singleton, Hl. rewrite (link_entries _ abmgr_range id r _ Ht). by rewrite elem_of_cons.
    + unfold ab_map. cbn -[insert lookup_total union __mtlk_hash_insert]. rewrite H2, fmap_insert, lookup_total_insert_eq. f_equal.
      apply map_fmap_ext. intros k x Hx. rewrite lookup_total_insert_ne; [done|]. intros <-.
      apply (map_of_lookup _mtlk_hash_abmgr_hashval) in Hx as [Hx _]; done.
  - split; [by destruct Hok|]. by left.
Qed.

Lemma ab_unregister_spec s id : ab_ok s -> ab_map s !! id = Some false ->
  let s' := mtlk_abmgr_unregister_ability id s in 
  ab_ok s' /\ ab_map s' = delete id (ab_map s) /\ ab_recs s' = delete id (ab_recs s).
Proof.
  intros Hok (r & Hr & Hb)%ab_map_some s'. unfold s', mtlk_abmgr_unregister_ability. rewrite ab_find_map, Hr, Hb by done.
  cbn [ab_emit]. destruct Hok as [Ht Hl Hc]. pose proof Hr as Hr'. apply (map_of_lookup _mtlk_hash_abmgr_hashval) in Hr' as [Hin Hk]; [|done].
  destruct (unlink_ok _ abmgr_range r _ Ht Hin) as (H1 & H2 & H3 & H4). rewrite H4. rewrite Hk in H2. split; [constructor|split].
  - done.
  - intros x. cbn -[difference __mtlk_hash_remove]. rewrite elem_of_difference, elem_of_singleton, Hl.
    rewrite (unlink_entries _ r _ Ht Hin), list_elem_of_filter. naive_solver.
  - done.
  - unfold ab_map. cbn -[delete __mtlk_hash_remove lookup_total]. by rewrite H2, fmap_delete.
  - by rewrite <-H2.
Qed.

(** ** Sets of abilities *)

Lemma ab_unregister_set_spec ids s : ab_ok s -> NoDup ids -> (forall id, id ∈ ids -> ab_map s !! id = Some false) ->
  let s' := mtlk_abmgr_unregister_ability_set ids s in
  ab_ok s' /\ forall k, ab_map s' !! k = (if decide (k ∈ ids) then None else ab_map s !! k) /\
                       ab_recs s' !! k = (if decide (k ∈ ids) then None else ab_recs s !! k).
Proof.
  revert s. induction ids as [|id ids IH]; intros s Hok Hn Hids.
  - split; [done|]. intros k. by rewrite !decide_False by (by intros Hk%elem_of_nil).
  - apply NoDup_cons in Hn as [Hid Hn]. cbv zeta.
    change (mtlk_abmgr_unregister_ability_set (id :: ids) s)
      with (mtlk_abmgr_unregister_ability_set ids (mtlk_abmgr_unregister_ability id s)).
    destruct (ab_unregister_spec s id Hok) as (H1 & H2 & H3); [apply Hids; left|].
    destruct (IH (mtlk_abmgr_unregister_ability id s) H1 Hn) as (H4 & H5).
    { intros x Hx. rewrite H2, lookup_delete_ne by (by intros ->). apply Hids. by right. }
    split; [done|]. intros k. destruct (H5 k) as [H6 H7].
    rewrite H6, H7, H2, H3. destruct (decide (k ∈ id :: ids)) as [Hk|Hk]; [apply elem_of_cons in Hk as [->|Hk]|].
    + rewrite !decide_False by done. by rewrite !lookup_delete_eq.
    + by rewrite !decide_True by done.
    + apply not_elem_of_cons in Hk as [Hk1 Hk2]. rewrite !decide_False by done. by rewrite !lookup_delete_ne by done.
Qed.

(** The abilities of a list, disabled. *)
Definition ab_disabled (ids : list Z) (m : gmap Z bool) : gmap Z bool := foldl (fun m id => <[id := false]> m) m ids.

Lemma ab_disabled_lookup ids m k : ab_disabled ids m !! k = if decide (k ∈ ids) then Some false else m !! k.
Proof.
  revert m. induction ids as [|id ids IH]; intros m.
  - by rewrite decide_False by (by intros Hk%elem_of_nil).
  - change (ab_disabled (id :: ids) m) with (ab_disabled ids (<[id := false]> m)). rewrite IH. destruct (decide (k ∈ ids)) as [Hk|Hk].
    + rewrite decide_True; [done|by right].
    + destruct (decide (id = k)) as [->|Hne]; [rewrite lookup_insert_eq, decide_True; [done|left]|].
      rewrite lookup_insert_ne by done. rewrite decide_False; [done|]. intros [?|?]%elem_of_cons; congruence.
Qed.

Lemma ab_live_recs s s' : ab_ok s -> ab_ok s' -> ab_recs s' = ab_recs s -> live s' = live s.
Proof.
  intros [Ht Hl _] [Ht' Hl' _] Hr. apply set_eq. intros r. rewrite Hl, Hl'.
  assert (forall t, ab_hash_ok t -> r ∈ entries t <-> exists k, map_of t !! k = Some r) as He.
  { intros t Hok. split; [intros Hin; exists (key t !!! r); by apply (map_of_lookup _mtlk_hash_abmgr_hashval)|].
    intros [k Hk]. by apply (map_of_lookup _mtlk_hash_abmgr_hashval) in Hk as [? _]. }
  rewrite !He by done. by rewrite Hr.
Qed.

Lemma register_from_spec s0 s before rest : ab_ok s0 -> ab_ok s ->
  NoDup (before ++ rest) -> (forall id, id ∈ before ++ rest -> ab_map s0 !! id = None) ->
  (forall k, ab_map s !! k = if decide (k ∈ before) then Some false else ab_map s0 !! k) ->
  (forall k, k ∉ before -> ab_recs s !! k = ab_recs s0 !! k) ->
  let '(res, s') := register_from alloc (length before) (before ++ rest) rest s in
  ab_ok s' /\ ((res = MTLK_ERR_OK /\ ab_map s' = ab_disabled (before ++ rest) (ab_map s0)) \/
              (res = MTLK_ERR_NO_MEM /\ ab_map s' = ab_map s0 /\ live s' = live s0)).
Proof.
  intros Hok0. revert s before. induction rest as [|id rest IH]; intros s before Hok Hn Hids Hm Hr; cbn [register_from].
  - split; [done|]. left. split; [done|]. rewrite app_nil_r. apply map_eq. intros k. by rewrite ab_disabled_lookup, Hm.
  - assert (ab_map s !! id = None) as Hid.
    { rewrite Hm. rewrite decide_False; [apply Hids, elem_of_app; right; left|].
      intros Hin. apply NoDup_app in Hn as (_ & Hn & _). apply (Hn id Hin). left. }
    pose proof (ab_register_spec s id Hok Hid) as Hs. destruct (register id s) as [res s1].
    destruct Hs as [Hok1 [(-> & Hm1 & Hr1)|(-> & Hm1 & r & Hr1)]]; cbn -[take].
    + rewrite take_app_length. apply NoDup_app in Hn as (Hn1 & Hn2 & _).
      destruct (ab_unregister_set_spec before s1 Hok1 Hn1) as [Hok2 Hk].
      { intros x Hx. rewrite Hm1, Hm. by rewrite decide_True. }
      assert (forall k, k ∈ before -> ab_recs s0 !! k = None) as Hb.
      { intros k Hin. apply ab_map_none. apply Hids, elem_of_app. by left. }
      split; [done|]. right. split; [done|split].
      * apply map_eq. intros k. destruct (Hk k) as [-> _]. rewrite Hm1, Hm. case_decide as Hin; [|done].
        symmetry. apply Hids, elem_of_app. by left.
      * apply ab_live_recs; [done..|]. apply map_eq. intros k. destruct (Hk k) as [_ ->].
        case_decide as Hin; [by rewrite Hb|]. by rewrite Hr1, Hr.
    + replace (S (length before)) with (length (before ++ [id])) by (rewrite length_app; cbn; lia).
      replace (before ++ id :: rest) with ((before ++ [id]) ++ rest) in * by (by rewrite <-app_assoc).
      apply IH; [done|done|done| |].
      * intros k. rewrite Hm1. destruct (decide (k = id)) as [->|Hne].
        -- rewrite lookup_insert_eq, decide_True; [done|]. apply elem_of_app. right. left.
        -- rewrite lookup_insert_ne, Hm by done. apply decide_ext. rewrite elem_of_app, list_elem_of_singleton. naive_solver.
      * intros k Hk. apply not_elem_of_app in Hk as [Hk1 Hk2]. rewrite list_elem_of_singleton in Hk2.
        rewrite Hr1, lookup_insert_ne by done. by apply Hr.
Qed.

(** C16. "Either all or none abilities from the set are registered": a set of
    distinct abilities of which none is registered is registered completely,
    each disabled, or, when memory runs out on the way, the manager is left
    with exactly the abilities, flags and records it had. *)
Theorem abmgr_set_transactional ids s : ab_ok s -> NoDup ids -> (forall id, id ∈ ids -> ab_map s !! id = None) ->
  let '(res, s') := mtlk_abmgr_register_ability_set alloc ids s in
  ab_ok s' /\ ((res = MTLK_ERR_OK /\ ab_map s' = ab_disabled ids (ab_map s)) \/
              (res = MTLK_ERR_NO_MEM /\ ab_map s' = ab_map s /\ live s' = live s)).
Proof. intros Hok Hn Hids. by apply (register_from_spec s s [] ids). Qed.
End AbmgrThms.

(** ** Witnesses *)

(** An allocator of consecutive records that fails its third request. *)
Definition third_fails (l : gset Z) (n : nat) : option Z :=
  if decide (n = 2%nat) then None else Some (fresh l).

Lemma third_fails_fresh l n r : third_fails l n = Some r -> r ∉ l.
Proof. unfold third_fails. case_decide; [done|]. intros [= <-]. apply is_fresh. Qed.

Definition ab_one : mtlk_abmgr_t := (_mtlk_abmgr_init third_fails true ab_zero).2.

Lemma ab_one_ok : ab_ok ab_one.
Proof.
  destruct (init_ok _mtlk_hash_abmgr_hashval 32 (Hash Z 0 [] ∅ ∅) ltac:(lia)) as [H1 H2].
  set (s0 := ab_set_table (mtlk_hash_init 32 true (Hash Z 0 [] ∅ ∅)).2 ab_zero).
  assert (ab_ok s0) as Hok. { constructor; [done| |done]. intros r. cbn. set_solver. }
  assert (ab_map s0 !! MTLK_ABILITY_NONE = None) as Hn by by vm_compute.
  pose proof (ab_register_spec third_fails third_fails_fresh s0 MTLK_ABILITY_NONE Hok Hn) as Hs.
  destruct (mtlk_abmgr_register_ability third_fails MTLK_ABILITY_NONE s0) as [res s1] eqn:E.
  assert (res = MTLK_ERR_OK) as Hres. { assert (res = (mtlk_abmgr_register_ability third_fails MTLK_ABILITY_NONE s0).1) as -> by (by rewrite E). by vm_compute. }
  destruct Hs as [Hok1 [(-> & _)|(_ & Hm & _)]]; [done|].
  assert (ab_one = mtlk_abmgr_enable_ability MTLK_ABILITY_NONE s1) as ->.
  { unfold ab_one, _mtlk_abmgr_init. change (mtlk_hash_init _MTLK_ABMGR_HASH_NOF_BUCKETS true (ability_states_hash ab_zero))
      with (MTLK_ERR_OK, (mtlk_hash_init 32 true (Hash Z 0 [] ∅ ∅)).2). cbv iota beta zeta. cbn [negb Z.eqb MTLK_ERR_OK].
    fold s0. rewrite E, Hres. done. }
  apply (ab_set_state_spec s1 MTLK_ABILITY_NONE true false); [done|]. by rewrite Hm, lookup_insert_eq.
Qed.

Lemma abmgr_set_transactional_witness :
  let '(res, s') := mtlk_abmgr_register_ability_set third_fails [16; 17; 18] ab_one in
  res = MTLK_ERR_NO_MEM /\ ab_map s' = ab_map ab_one /\ live s' = live ab_one.
Proof.
  pose proof (abmgr_set_transactional third_fails third_fails_fresh [16; 17; 18] ab_one ab_one_ok) as H.
  assert ((mtlk_abmgr_register_ability_set third_fails [16; 17; 18] ab_one).1 = MTLK_ERR_NO_MEM) as Hres by (by vm_compute).
  destruct (mtlk_abmgr_register_ability_set third_fails [16; 17; 18] ab_one) as [res s']. cbn [fst] in Hres.
  destruct H as [_ [[-> _]|H]]; [by apply (bool_decide_unpack _); vm_compute| |done|done].
  intros id Hid. repeat (apply elem_of_cons in Hid as [->|Hid]; [by vm_compute|]). by apply elem_of_nil in Hid.
Defined.
