(* ===== verification/Sta.v ===== *)
(** * Sta: one station of the database (wireless/driver/shared/stadb.c)

    The layer that joins a station's ADDBA peer to its eight reordering queues
    and to the counters that start aggregation.  A call of the ADDBA module
    reports through the callbacks of [addba_api]: here the module runs first
    and its reports are delivered in order, which is the same since no
    callback touches the module's state and the module reads a queue (its last
    reception time) only where it reports nothing before.  The tasks the
    station hands to the core's serializer are the list [scheduled]. *)
From S2P Require Import Prelude Reflim TxmmIface Addba AddbaSys Replay Rod.

Definition NTS_TIDS : nat := 8.

Inductive mtlk_pckt_filter_e := MTLK_PCKT_FLTR_ALLOW_ALL | MTLK_PCKT_FLTR_ALLOW_802_1X | MTLK_PCKT_FLTR_DISCARD_ALL.
#[export] Instance pckt_filter_eq_dec : EqDecision mtlk_pckt_filter_e.
Proof. solve_decision. Defined.

#[export] Instance rod_inhabited : Inhabited rod := populate rod_boot.

Record sta_entry {T : Type} := StaEntry {
  addba_peer : world T;
  rod_queue : list rod;
  tx_packets : list Z;
  aggr_inited : list bool;
  info_filter : mtlk_pckt_filter_e;
  info_dot11n_mode : bool;
  ps_mode_enabled : bool;
  scheduled : list Z;
  asserts : list Z;
}.
Arguments sta_entry : clear implicits.

(** What the surroundings decide during a call: the clock of the queues,
    whether a statistics object is created and its counters open, whether the
    serializer takes a task. *)
Record sta_env := StaEnv { env_now : Z; env_created : bool; env_opened : Z; env_task : Z }.

Section Sta.
Context {T : Type} {ops : TxmmOps T addba_msg addba_clb addba_payload}.
Context (clock : nat -> Z).
Context (group_cipher : Z -> Z) (time_after : Z -> Z -> bool) (ms_to_timestamp timestamp_to_ms : Z -> Z).
Context (vap : Z) (aggr_open_threshold : Z).
Implicit Types (s : sta_entry T) (env : sta_env).

(** ** Field updates *)

Definition sta_set_peer (w : world T) s :=
  StaEntry T w (rod_queue s) (tx_packets s) (aggr_inited s) (info_filter s) (info_dot11n_mode s) (ps_mode_enabled s)
      (scheduled s) (asserts s).
Definition sta_upd_rod (tid : Z) (f : rod -> rod) s :=
  StaEntry T (addba_peer s) (alter f (Z.to_nat tid) (rod_queue s)) (tx_packets s) (aggr_inited s) (info_filter s)
      (info_dot11n_mode s) (ps_mode_enabled s) (scheduled s) (asserts s).
Definition sta_set_rods (l : list rod) s :=
  StaEntry T (addba_peer s) l (tx_packets s) (aggr_inited s) (info_filter s) (info_dot11n_mode s) (ps_mode_enabled s)
      (scheduled s) (asserts s).
Definition sta_set_tx (l : list Z) s :=
  StaEntry T (addba_peer s) (rod_queue s) l (aggr_inited s) (info_filter s) (info_dot11n_mode s) (ps_mode_enabled s)
      (scheduled s) (asserts s).
Definition sta_set_inited (l : list bool) s :=
  StaEntry T (addba_peer s) (rod_queue s) (tx_packets s) l (info_filter s) (info_dot11n_mode s) (ps_mode_enabled s)
      (scheduled s) (asserts s).
Definition sta_set_filter (f : mtlk_pckt_filter_e) s :=
  StaEntry T (addba_peer s) (rod_queue s) (tx_packets s) (aggr_inited s) f (info_dot11n_mode s) (ps_mode_enabled s)
      (scheduled s) (asserts s).
Definition sta_set_dot11n (b : bool) s :=
  StaEntry T (addba_peer s) (rod_queue s) (tx_packets s) (aggr_inited s) (info_filter s) b (ps_mode_enabled s)
      (scheduled s) (asserts s).
Definition sta_set_ps (b : bool) s :=
  StaEntry T (addba_peer s) (rod_queue s) (tx_packets s) (aggr_inited s) (info_filter s) (info_dot11n_mode s) b
      (scheduled s) (asserts s).
Definition sta_set_scheduled (l : list Z) s :=
  StaEntry T (addba_peer s) (rod_queue s) (tx_packets s) (aggr_inited s) (info_filter s) (info_dot11n_mode s)
      (ps_mode_enabled s) l (asserts s).
(** The assertion of a callback about a TID: a failed one is recorded. *)
Definition sta_assert (tid : Z) (b : bool) s :=
  if b then s else
  StaEntry T (addba_peer s) (rod_queue s) (tx_packets s) (aggr_inited s) (info_filter s) (info_dot11n_mode s)
      (ps_mode_enabled s) (scheduled s) (asserts s ++ [tid]).

Definition rod_of s (tid : Z) : rod := rod_queue s !!! Z.to_nat tid.
Definition tx_packets_of s (tid : Z) : Z := tx_packets s !!! Z.to_nat tid.
Definition inited_of s (tid : Z) : bool := aggr_inited s !!! Z.to_nat tid.

(** ** Reordering queues *)

Definition _mtlk_sta_destroy_rod_queue env (prio_id : Z) s : sta_entry T :=
  if negb (mtlk_is_used_rod_queue (q (rod_of s prio_id)) =? 0)
  then sta_upd_rod prio_id (mtlk_clear_rod_queue group_cipher (env_now env)) s
  else s.

Definition _mtlk_sta_create_rod_queue env (prio_id win_size ssn : Z) s : sta_entry T :=
  if Z.of_nat NTS_TIDS <=? prio_id then s
  else sta_upd_rod prio_id (fun r =>
         (mtlk_create_rod_queue group_cipher timestamp_to_ms (env_now env) vap win_size ssn (env_created env) (env_opened env) r).2) s.

Definition _mtlk_sta_flush env s : sta_entry T :=
  sta_set_rods (mtlk_handle_rod_queue_timer group_cipher time_after ms_to_timestamp (env_now env) <$> rod_queue s) s.

(** ** Counters *)

Definition _mtlk_sta_reset_tx_cntrs s : sta_entry T := sta_set_tx ((fun _ => 0) <$> tx_packets s) s.
Definition _mtlk_sta_reset_aggr_inited s : sta_entry T := sta_set_inited ((fun _ => false) <$> aggr_inited s) s.
Definition _mtlk_sta_set_packets_filter_default s : sta_entry T :=
  _mtlk_sta_reset_tx_cntrs (sta_set_filter MTLK_PCKT_FLTR_ALLOW_802_1X s).
Definition mtlk_sta_set_packets_filter (filter_type : mtlk_pckt_filter_e) s : sta_entry T :=
  if decide (info_filter s <> filter_type) then _mtlk_sta_reset_tx_cntrs (sta_set_filter filter_type s) else s.

(** A task that cannot be scheduled is only logged. *)
Definition _mtlk_sta_schedule_aggregation_revival_tid env (prior_class : Z) s : sta_entry T :=
  if env_task env =? MTLK_ERR_OK then sta_set_scheduled (scheduled s ++ [prior_class]) s else s.

(** ** The ADDBA module's callbacks *)

Definition _mtlk_sta_get_addba_last_rx_timestamp s (tid : Z) : Z := mtlk_rod_queue_get_last_rx_time (q (rod_of s tid)).
Definition _mtlk_sta_addba_do_nothing (prior_class : Z) s : sta_entry T := s.
Definition _mtlk_sta_addba_revive_aggregation_tid env (prior_class : Z) s : sta_entry T :=
  _mtlk_sta_schedule_aggregation_revival_tid env prior_class s.
Definition clear_counter (prior_class : Z) s : sta_entry T :=
  sta_set_inited (<[Z.to_nat prior_class := false]> (aggr_inited s))
    (sta_set_tx (<[Z.to_nat prior_class := 0]> (tx_packets s)) s).
Definition _mtlk_sta_addba_restart_tx_count_tid (prior_class : Z) s : sta_entry T :=
  clear_counter prior_class (sta_assert prior_class (inited_of s prior_class) s).
Definition _mtlk_sta_addba_start_reordering env (prior_class ssn win_size : Z) s : sta_entry T :=
  _mtlk_sta_create_rod_queue env prior_class win_size ssn s.
Definition _mtlk_sta_addba_stop_reordering env (prior_class : Z) s : sta_entry T :=
  _mtlk_sta_destroy_rod_queue env prior_class s.

(** The callback the report is delivered to, as [_mtlk_sta_init] fills [addba_api]. *)
Definition addba_api env (e : addba_ev) s : sta_entry T :=
  match e with
  | EvStartAggr tid => _mtlk_sta_addba_do_nothing tid s
  | EvStopAggr tid => _mtlk_sta_addba_restart_tx_count_tid tid s
  | EvStartReord tid ssn win_size => _mtlk_sta_addba_start_reordering env tid ssn win_size s
  | EvStopReord tid => _mtlk_sta_addba_stop_reordering env tid s
  | EvReqRejected tid => _mtlk_sta_addba_revive_aggregation_tid env tid s
  | EvReqUnconfirmed tid => _mtlk_sta_addba_restart_tx_count_tid tid s
  | EvCntInc _ _ | EvCntDec _ _ | EvAssertFailed => s     (* no callback *)
  end.

Definition no_out (w : world T) : world T :=
  World T (w_cfg w) (w_next_dlg_token w) (w_aggr_reflim w) (w_reord_reflim w) (w_addr w) (w_tid w)
        (w_is_active w) (w_txmm w) (w_tick w) [].

(** Run a function of the module and deliver its reports. *)
Definition deliver env (l : list addba_ev) s : sta_entry T := foldl (fun s e => addba_api env e s) s l.
Definition with_addba {A} env (m : ST (world T) A) s : A * sta_entry T :=
  let '(a, w) := m (no_out (addba_peer s)) in (a, deliver env (w_out w) (sta_set_peer (no_out w) s)).

Definition sta_call env (c : addba_call) s : sta_entry T :=
  (with_addba env (run_call clock (fun _ => _mtlk_sta_get_addba_last_rx_timestamp s) c) s).2.

(** ** Operations *)

Definition mtlk_sta_update_tx env (tid : Z) s : sta_entry T :=
  if info_dot11n_mode s && negb (inited_of s tid) && bool_decide (info_filter s = MTLK_PCKT_FLTR_ALLOW_ALL) then
    let nof_tx_packets := u32 (tx_packets_of s tid + 1) in
    let s := sta_set_tx (<[Z.to_nat tid := nof_tx_packets]> (tx_packets s)) s in
    if nof_tx_packets =? aggr_open_threshold then
      let s := sta_set_tx (<[Z.to_nat tid := 0]> (tx_packets s)) s in
      let s := sta_set_inited (<[Z.to_nat tid := true]> (aggr_inited s)) s in
      _mtlk_sta_schedule_aggregation_revival_tid env tid s
    else s
  else s.

(** [_mtlk_stadb_on_addba_revive_aggregation_tid], run by the serializer on
    the oldest task of this station's address. *)
Definition _mtlk_stadb_on_addba_revive_aggregation_tid env s : sta_entry T :=
  match scheduled s with
  | [] => s
  | tid :: rest =>
      (with_addba env (mtlk_addba_peer_start_aggr_negotiation tid (ps_mode_enabled s)) (sta_set_scheduled rest s)).2
  end.

Definition exit_ps_tid env (prio_id : Z) s : sta_entry T :=
  if inited_of s prio_id then
    let '(was_ps, s) := with_addba env (mtlk_addba_peer_reset_power_save prio_id) s in
    if was_ps : bool then clear_counter prio_id s else s
  else s.
Definition _mtlk_sta_addba_exit_ps env s : sta_entry T := foldl (fun s prio_id => exit_ps_tid env prio_id s) s all_tids.

(** [mtlk_sq_set_pm_enabled] stores the flag (its limits belong to the send queue). *)
Definition mtlk_sta_set_pm_enabled env (enabled : bool) s : sta_entry T :=
  let s := sta_set_ps enabled s in
  if enabled then s else _mtlk_sta_addba_exit_ps env s.

Definition mtlk_sta_zero_rod_reply_counters s : sta_entry T :=
  sta_set_rods (upd mtlk_rod_queue_clear_reply_counter <$> rod_queue s) s.

(** [if (tid == -1)]: all TIDs. *)
Definition mtlk_sta_delba_req env (tid : Z) s : sta_entry T :=
  let tids := if tid =? -1 then all_tids else [tid] in
  foldl (fun s tid => sta_call env (CDelbaReq tid) s) s tids.

Definition mtlk_sta_on_qos_without_reord env (tid : Z) s : sta_entry T := sta_call env (CQosWithoutReord tid) s.

Definition mtlk_sta_reorder_packet env (tid seq : Z) (nbuf : mtlk_nbuf_t) s : bool * sta_entry T :=
  let r := upd (mtlk_rod_queue_set_last_rx_time (timestamp_to_ms (env_now env))) (rod_of s tid) in
  let '(res, r) := mtlk_reorder_packet group_cipher (env_now env) seq nbuf r in
  (res, sta_upd_rod tid (fun _ => r) s).

(** The branch of the receive path for a directed QoS frame ([handle_rx_ind]):
    an aggregated frame while reordering is closed asks for a DELBA. *)
Definition rx_directed env (tid seq : Z) (nbuf : mtlk_nbuf_t) (aggregated : bool) s : sta_entry T :=
  let '(reordered, s) := mtlk_sta_reorder_packet env tid seq nbuf s in
  if negb reordered && aggregated then mtlk_sta_on_qos_without_reord env tid s else s.

Definition mtlk_sta_process_bar env (tid ssn : Z) s : Z * sta_entry T :=
  let s := sta_call env (CBar tid) s in
  let '(res, r) := mtlk_rod_process_bar group_cipher (env_now env) ssn (rod_of s tid) in
  (res, sta_upd_rod tid (fun _ => r) s).
(** [mtlk_handle_bar] of linux/core_ext.c, for a known station. *)
Definition mtlk_handle_bar env (tid ssn : Z) s : Z * sta_entry T :=
  if Z.of_nat NTS_TIDS <=? tid then (-1, s) else mtlk_sta_process_bar env tid ssn s.

(** ** Life *)

(** [_mtlk_sta_init] on zeroed memory; [w]: the module, before the peer is set up. *)
Definition sta_init (w : world T) : sta_entry T :=
  StaEntry T (exec mtlk_addba_peer_init (set_active false (set_tid (replicate MTLK_ADDBA_NOF_TIDs (Tid zero_tx zero_rx)) w)))
      (replicate NTS_TIDS rod_boot) (replicate NTS_TIDS 0) (replicate NTS_TIDS false)
      MTLK_PCKT_FLTR_ALLOW_ALL false false [] [].

Definition _mtlk_sta_start env (dot11n_mode : bool) (addr : Z) s : sta_entry T :=
  let s := sta_set_dot11n dot11n_mode s in
  let s := _mtlk_sta_reset_aggr_inited (_mtlk_sta_reset_tx_cntrs s) in
  let s := sta_set_ps false s in
  let s := sta_call env (CPeerStart addr dot11n_mode) s in
  _mtlk_sta_set_packets_filter_default s.

Definition _mtlk_sta_stop env s : sta_entry T :=
  let s := sta_call env (CPeerStop (info_dot11n_mode s)) s in
  foldl (fun s i => _mtlk_sta_destroy_rod_queue env i s) s all_tids.
End Sta.
