(* ===== verification/StaRep.v ===== *)
(** * StaRep: what the ADDBA module reports to a station, TID by TID

    The reports of a run replayed per TID: reordering is started only when
    stopped and stopped only when started, and every report that ends an
    aggregation or a negotiation comes from a TID that had one. *)
From S2P Require Import Prelude Reflim TxmmIface Addba AddbaAcct AddbaInv AddbaOps AddbaSys Replay Rod.

(** The receiving side: the flag a run of reports leads to. *)
Fixpoint rx_run (tid : Z) (b : bool) (es : list addba_ev) : option bool :=
  match es with
  | [] => Some b
  | e :: es =>
      match e with
      | EvStartReord t _ _ => if t =? tid then (if b then None else rx_run tid true es) else rx_run tid b es
      | EvStopReord t => if t =? tid then (if b then rx_run tid false es else None) else rx_run tid b es
      | _ => rx_run tid b es
      end
  end.

(** The sending side: whether a negotiation or an aggregation is on, and
    whether the TID backs off after refusals. *)
Record tphase := Ph { busy : bool; backoff : bool }.

Definition tx_report (tid : Z) (e : addba_ev) : bool :=
  match e with
  | EvStopAggr t | EvReqRejected t | EvReqUnconfirmed t => t =? tid
  | _ => false
  end.

Inductive tx_path (tid : Z) : tphase -> list addba_ev -> tphase -> Prop :=
| tp_nil p : tx_path tid p [] p
| tp_other p e es p' : tx_report tid e = false -> tx_path tid p es p' -> tx_path tid p (e :: es) p'
| tp_silent r es p' : tx_path tid (Ph false r) es p' -> tx_path tid (Ph true r) es p'
| tp_last_refusal r es p' : tx_path tid (Ph false true) es p' -> tx_path tid (Ph true r) es p'
| tp_stop r es p' : tx_path tid (Ph false r) es p' -> tx_path tid (Ph true r) (EvStopAggr tid :: es) p'
| tp_timeout r es p' : tx_path tid (Ph false r) es p' -> tx_path tid (Ph true r) (EvReqUnconfirmed tid :: es) p'
| tp_backoff_over es p' : tx_path tid (Ph false false) es p' -> tx_path tid (Ph false true) (EvReqUnconfirmed tid :: es) p'
| tp_rejected r es p' : tx_path tid (Ph false r) es p' -> tx_path tid (Ph true r) (EvReqRejected tid :: es) p'.

Definition ev_ok (e : addba_ev) : Prop :=
  match e with
  | EvStartReord tid ssn win => valid_tid tid /\ 0 < win <= 64 /\ 0 <= ssn < 4096
  | EvStopReord tid | EvStopAggr tid | EvReqRejected tid | EvReqUnconfirmed tid => valid_tid tid
  | _ => True
  end.
(** A report that concerns at most the TID. *)
Definition ev_about (tid : Z) (e : addba_ev) : Prop :=
  match e with
  | EvStartReord t _ _ | EvStopReord t | EvStopAggr t | EvReqRejected t | EvReqUnconfirmed t => t = tid
  | _ => True
  end.

Lemma rx_run_app tid b es1 es2 : rx_run tid b (es1 ++ es2) = rx_run tid b es1 ≫= fun b => rx_run tid b es2.
Proof. revert b. induction es1 as [|e es1 IH]; intros b; [done|]. destruct e; cbn; repeat case_match; auto. Qed.

Lemma tx_path_app tid p1 es1 p2 es2 p3 : tx_path tid p1 es1 p2 -> tx_path tid p2 es2 p3 -> tx_path tid p1 (es1 ++ es2) p3.
Proof.
  intros H1 H2. induction H1; cbn; [done|by apply tp_other; auto|by apply tp_silent; auto|by apply tp_last_refusal; auto|
    by apply tp_stop; auto|by apply tp_timeout; auto|by apply tp_backoff_over; auto|by apply tp_rejected; auto].
Qed.

Lemma rx_run_others tid t b es : t <> tid -> Forall (ev_about t) es -> rx_run tid b es = Some b.
Proof.
  intros Ht He. induction He as [|e es He Hes IH]; [done|]. destruct e; cbn in *; subst; try done;
    by rewrite (proj2 (Z.eqb_neq _ _)).
Qed.

Lemma tx_path_others tid t p es : t <> tid -> Forall (ev_about t) es -> tx_path tid p es p.
Proof.
  intros Ht He. induction He as [|e es He Hes IH]; [constructor|]. apply tp_other; [|done].
  destruct e; cbn in *; subst; try done; by apply Z.eqb_neq.
Qed.

Section StaRep.
Context {T : Type}.
Implicit Types w : world T.

Definition not_none (s : mtlk_addba_peer_tx_state_e) : bool := match s with MTLK_ADDBA_TX_NONE => false | _ => true end.
Definition tx_phase (x : mtlk_addba_peer_tx_t) : tphase := Ph (not_none (tx_state x)) (tx_reject_state x).
Definition phase_of w tid : tphase := tx_phase (tx_of w tid).
Definition active_of w tid : bool := rx_reorder_is_active (rx_of w tid).

Record reports (es : list addba_ev) w w' : Prop := {
  rp_wf : wf w';
  rp_out : w_out w' = w_out w ++ es;
  rp_ok : Forall ev_ok es;
  rp_rx tid : valid_tid tid -> rx_run tid (active_of w tid) es = Some (active_of w' tid);
  rp_tx tid : valid_tid tid -> tx_path tid (phase_of w tid) es (phase_of w' tid);
}.
Definition rep_rel w w' : Prop := wf w -> exists es, reports es w w'.

#[export] Instance rep_rel_preorder : PreOrder rep_rel.
Proof.
  split.
  - intros w Hw. exists []. split; try done; [by rewrite app_nil_r|constructor].
  - intros w1 w2 w3 H12 H23 Hw. destruct (H12 Hw) as [es1 [A1 A2 A3 A4 A5]]. destruct (H23 A1) as [es2 [B1 B2 B3 B4 B5]].
    exists (es1 ++ es2). split; [done|by rewrite B2, A2, app_assoc|by apply Forall_app| |].
    + intros tid Ht. rewrite rx_run_app, A4 by done. by apply B4.
    + intros tid Ht. eapply tx_path_app; eauto.
Qed.

(** A step that changes one TID and reports about it only. *)
Lemma reports_step f w w' tid es : wf w -> valid_tid tid -> w_tid w' = alter f (Z.to_nat tid) (w_tid w) ->
  w_out w' = w_out w ++ es -> Forall ev_ok es -> Forall (ev_about tid) es ->
  rx_run tid (active_of w tid) es = Some (rx_reorder_is_active (t_rx (f (tid_of w tid)))) ->
  tx_path tid (phase_of w tid) es (tx_phase (t_tx (f (tid_of w tid)))) ->
  exists es, reports es w w'.
Proof.
  intros Hw Ht Hl Ho Hok Ha Hrx Htx. exists es.
  assert (tid_of w' tid = f (tid_of w tid)) as Hself.
  { unfold tid_of. rewrite Hl, alter_total; [done|]. rewrite Hw. unfold MTLK_ADDBA_NOF_TIDs, valid_tid in *. lia. }
  assert (forall t, valid_tid t -> t <> tid -> tid_of w' t = tid_of w t) as Hother.
  { intros t Hv Hne. unfold tid_of. rewrite Hl, alter_total_ne; [done|]. unfold valid_tid in *. lia. }
  split; [unfold wf; by rewrite Hl, length_alter|done|done| |]; intros t Hv; destruct (decide (t = tid)) as [->|Hne].
  - unfold active_of at 2, rx_of. by rewrite Hself.
  - unfold active_of, rx_of. rewrite Hother by done. by apply (rx_run_others _ tid).
  - unfold phase_of at 2, tx_of. by rewrite Hself.
  - unfold phase_of, tx_of. rewrite Hother by done. by apply (tx_path_others _ tid).
Qed.

(** Statements that change no TID. *)
Lemma quiet_rep {A} (m : ST (world T) A) :
  (forall w, w_tid (exec m w) = w_tid w /\ w_out (exec m w) = w_out w) -> within rep_rel m.
Proof.
  intros Hm w Hw. destruct (Hm w) as [E1 E2]. exists [].
  assert (forall t, tid_of (exec m w) t = tid_of w t) as Ht by (intros t; unfold tid_of; by rewrite E1).
  split; [unfold wf; by rewrite E1|by rewrite E2, app_nil_r|done| |]; intros t _; unfold active_of, phase_of, rx_of, tx_of; rewrite Ht.
  - done.
  - constructor.
Qed.

Definition ev_plain (e : addba_ev) : bool :=
  match e with EvCntInc _ _ | EvCntDec _ _ | EvAssertFailed | EvStartAggr _ => true | _ => false end.

Lemma ev_rep e : ev_plain e = true -> within rep_rel (ev (T := T) e).
Proof.
  intros He w Hw. exists [e]. split; [done|done|destruct e; by repeat constructor| |]; intros t _.
  - by destruct e.
  - change (phase_of (exec (ev e) w) t) with (phase_of w t). apply tp_other; [by destruct e|constructor].
Qed.

Lemma assert_rep b : within rep_rel (mtlk_assert (T := T) b).
Proof. apply within_when; [apply _|by apply ev_rep]. Qed.

Lemma upd_tx_rep tid f : valid_tid tid -> (forall x, tx_phase (f x) = tx_phase x) -> within rep_rel (upd_tx (T := T) tid f).
Proof.
  intros Ht Hf w Hw. unfold upd_tx. rewrite run_end_modify.
  eapply (reports_step _ w _ tid [] Hw Ht); [reflexivity|by rewrite app_nil_r|done|done|done|]. cbn. rewrite Hf. constructor.
Qed.

Lemma upd_rx_rep tid f : valid_tid tid -> (forall x, rx_reorder_is_active (f x) = rx_reorder_is_active x) ->
  within rep_rel (upd_rx (T := T) tid f).
Proof.
  intros Ht Hf w Hw. unfold upd_rx. rewrite run_end_modify.
  eapply (reports_step _ w _ tid [] Hw Ht); [reflexivity|by rewrite app_nil_r|done|done| |constructor]. cbn. by rewrite Hf.
Qed.

(** A confirmation that moves a busy TID on. *)
Lemma upd_tx_busy_rep tid f w : wf w -> valid_tid tid -> busy (phase_of w tid) = true ->
  tx_phase (f (tx_of w tid)) = phase_of w tid -> exists es, reports es w (exec (upd_tx (T := T) tid f) w).
Proof.
  intros Hw Ht _ Hf. unfold upd_tx. rewrite run_end_modify.
  eapply (reports_step _ w _ tid [] Hw Ht); [reflexivity|by rewrite app_nil_r|done|done|done|]. cbn.
  fold (tx_of w tid). rewrite Hf. constructor.
Qed.
End StaRep.

(** Establish [reports] for a run of one TID: name the reports, read the TID
    back, and follow the paths. *)
Ltac tx_path_tac :=
  repeat first
    [ apply tp_nil | apply tp_other; [reflexivity|]
    | apply tp_stop | apply tp_timeout | apply tp_backoff_over | apply tp_rejected
    | match goal with
      | |- tx_path _ (Ph true _) [] (Ph false true) => apply tp_last_refusal
      | |- tx_path _ (Ph true _) [] (Ph false _) => apply tp_silent
      end ].
Ltac forall_tac :=
  cbn [app]; repeat first [apply Forall_nil_2 | apply Forall_cons_2; [cbn; first [done | split_and?; done]|]].
Ltac rep_tac w tid Hw Ht :=
  alter_merge; world_simpl;
  first [ eapply (reports_step _ w _ tid _ Hw Ht); [world_simpl; reflexivity|..]
        | eapply (reports_step (fun t => t) w _ tid _ Hw Ht); [world_simpl; apply alter_id_tid|..] ];
  world_simpl; rewrite <-?app_assoc; [first [reflexivity|by rewrite app_nil_r]|..]; cbn [app];
  [forall_tac|forall_tac|..];
  unfold active_of, phase_of, tx_phase; tid_simpl w tid Hw Ht;
  destruct (w_tid w !!! Z.to_nat tid) as [[tx_st ? ? ? ? ? ? [] ? ?] [? ? ? [] ? ? ? ?]]; cbn in *;
  try (destruct tx_st; try (exfalso; intuition congruence)); cbn in *;
  rewrite ?Z.eqb_refl; try done; tx_path_tac; try done.

Create HintDb rep.
#[export] Hint Resolve assert_rep : rep.
#[export] Hint Extern 1 (within rep_rel (ev _)) => (apply ev_rep; reflexivity) : rep.
#[export] Hint Extern 1 (within rep_rel (modify _)) => (apply quiet_rep; done) : rep.
#[export] Hint Extern 1 (within rep_rel (upd_tx _ _)) => (apply upd_tx_rep; [done|done]) : rep.
#[export] Hint Extern 1 (within rep_rel (upd_rx _ _)) => (apply upd_rx_rep; [done|done]) : rep.

Ltac rep_walk :=
  repeat first
    [ solve [auto with rep wave]
    | apply within_bind; [typeclasses eauto| |intros ?]
    | apply within_when; [typeclasses eauto|]
    | match goal with
      | |- within _ (if ?b then _ else _) => destruct b
      | |- within _ (match ?x with _ => _ end) => destruct x
      end
    | apply within_ret; typeclasses eauto
    | apply within_gets; typeclasses eauto ].

(** * The reports of every call and answer of the ADDBA module *)

Section leaves.
Context {T : Type} {ops : TxmmOps T addba_msg addba_clb addba_payload}.
Context (clock : nat -> Z) (get_last_rx_timestamp : nat -> Z -> Z).
Implicit Types w : world T.

Lemma now_rep : within rep_rel (now_ms (T := T) clock).
Proof. by apply quiet_rep. Qed.
Lemma txmm_get_rep m : within rep_rel (txmm_get (ops := ops) m).
Proof. apply quiet_rep. intros w. unfold txmm_get, exec. by destruct (tx_get_empty_data m (w_txmm w)). Qed.
Lemma txmm_send_rep m c p : within rep_rel (txmm_send (ops := ops) m c p).
Proof. apply quiet_rep. intros w. unfold txmm_send, exec. by destruct (tx_send m c p 0 (w_txmm w)). Qed.
Lemma txmm_cancel_rep m : within rep_rel (txmm_cancel (ops := ops) m).
Proof. apply quiet_rep. intros w. unfold txmm_cancel, exec. by destruct (tx_cancel m (w_txmm w)). Qed.

Lemma reset_rx_rep tid : valid_tid tid -> within rep_rel (_mtlk_addba_peer_reset_rx_state (T := T) tid).
Proof. intros Ht w Hw. unfold _mtlk_addba_peer_reset_rx_state. run. all: rep_tac w tid Hw Ht. Qed.

Lemma reordering_stop_rep tid : valid_tid tid -> within rep_rel (_mtlk_addba_peer_reordering_stop (T := T) tid).
Proof.
  intros Ht w Hw. unfold _mtlk_addba_peer_reordering_stop, _mtlk_addba_peer_reset_rx_state. run.
  all: rep_tac w tid Hw Ht.
Qed.

Lemma reordering_start_rep tid ssn win : valid_tid tid -> 0 < win <= 64 -> 0 <= ssn < 4096 ->
  within rep_rel (_mtlk_addba_peer_reordering_start (T := T) tid ssn win).
Proof.
  intros Ht Hwin Hssn w Hw. unfold _mtlk_addba_peer_reordering_start. run.
  all: rep_tac w tid Hw Ht.
Qed.

(** After a reset nothing is on. *)
Lemma reset_tx_rep tid : valid_tid tid -> within rep_rel (_mtlk_addba_peer_reset_tx_state (T := T) tid).
Proof. intros Ht w Hw. unfold _mtlk_addba_peer_reset_tx_state. run. all: rep_tac w tid Hw Ht. Qed.

Lemma close_aggr_cfm_rep p b : valid_tid (ca_u16AccessProtocol p) ->
  within rep_rel (_mtlk_addba_peer_on_close_aggr_cfm_clb (T := T) p b).
Proof.
  intros Ht w Hw. unfold _mtlk_addba_peer_on_close_aggr_cfm_clb, _mtlk_addba_peer_reset_tx_state. cbv zeta.
  set (tid := ca_u16AccessProtocol p) in *. run. all: rep_tac w tid Hw Ht.
Qed.

Lemma addba_timeout_rep tid : valid_tid tid -> within rep_rel (check_addba_res_rx_timeout (T := T) clock tid).
Proof.
  intros Ht w Hw. unfold check_addba_res_rx_timeout, _mtlk_addba_peer_reset_tx_state. run. all: rep_tac w tid Hw Ht.
Qed.

Lemma close_aggr_rep tid : valid_tid tid -> within rep_rel (_mtlk_addba_peer_close_aggr_req (T := T) tid).
Proof. intros Ht w Hw. unfold _mtlk_addba_peer_close_aggr_req. run. all: rep_tac w tid Hw Ht. Qed.

Lemma send_delba_rep tid dir : valid_tid tid -> within rep_rel (_mtlk_addba_peer_send_delba_req (T := T) tid dir).
Proof. intros Ht w Hw. unfold _mtlk_addba_peer_send_delba_req, _mtlk_addba_is_reord_on. run. all: rep_tac w tid Hw Ht. Qed.

Lemma send_res_rep tid : valid_tid tid -> within rep_rel (_mtlk_addba_peer_send_rx_addba_res (T := T) clock tid).
Proof. intros Ht w Hw. unfold _mtlk_addba_peer_send_rx_addba_res. run. all: rep_tac w tid Hw Ht. Qed.

Lemma reset_ps_rep tid : valid_tid tid -> within rep_rel (mtlk_addba_peer_reset_power_save (T := T) tid).
Proof. intros Ht w Hw. unfold mtlk_addba_peer_reset_power_save. run. all: rep_tac w tid Hw Ht. Qed.
End leaves.

#[export] Hint Resolve now_rep txmm_get_rep txmm_send_rep txmm_cancel_rep reset_rx_rep reordering_stop_rep
  reset_tx_rep close_aggr_cfm_rep addba_timeout_rep close_aggr_rep send_delba_rep send_res_rep reset_ps_rep : rep.

Section calls.
Context {T : Type} {ops : TxmmOps T addba_msg addba_clb addba_payload}.
Context (clock : nat -> Z) (get_last_rx_timestamp : nat -> Z -> Z).
Implicit Types w : world T.

Lemma peer_stop_tid_rep tid : valid_tid tid -> within rep_rel (peer_stop_tid (ops := ops) clock tid).
Proof.
  intros Ht w Hw. unfold peer_stop_tid, _mtlk_addba_peer_reset_tx_state, _mtlk_addba_peer_reordering_stop,
    _mtlk_addba_peer_reset_rx_state. run.
  all: rep_tac w tid Hw Ht.
Qed.

Lemma peer_stop_rep : within rep_rel (_mtlk_addba_peer_stop (ops := ops) clock).
Proof. apply within_for_each; [apply _|]. intros tid Ht. apply peer_stop_tid_rep. by apply all_tids_valid. Qed.

(** A refusal: the report that asks for a new attempt, or the back-off. *)
Lemma refused_rep tid w : wf w -> valid_tid tid -> tx_state (tx_of w tid) <> MTLK_ADDBA_TX_NONE ->
  exists es, reports es w (exec (notify ← on_addba_refused (T := T) clock tid; when notify (ev (EvReqRejected tid))) w).
Proof.
  intros Hw Ht Hb. unfold on_addba_refused, _mtlk_addba_peer_reset_tx_state. run.
  all: unfold tx_of, tid_of in Hb; rep_tac w tid Hw Ht.
Qed.

Lemma accepted_rep tid win w : wf w -> valid_tid tid -> tx_state (tx_of w tid) <> MTLK_ADDBA_TX_NONE ->
  exists es, reports es w (exec (on_addba_accepted (ops := ops) tid win) w).
Proof.
  intros Hw Ht Hb. unfold on_addba_accepted. run.
  all: unfold tx_of, tid_of in Hb; rep_tac w tid Hw Ht.
Qed.

Lemma addba_res_rx_rep res_code tid win dlgt : valid_tid tid ->
  within rep_rel (mtlk_addba_peer_on_addba_res_rx (ops := ops) clock res_code tid win dlgt).
Proof.
  intros Ht. unfold mtlk_addba_peer_on_addba_res_rx. destruct (negb (tid_ok tid)); [apply within_ret, _|].
  apply within_bind; [apply _|apply within_gets, _|intros []; [|apply within_ret, _]]. cbn [when]. intros w Hw.
  unfold get_tx at 1. rewrite run_gets. destruct (negb (tx_addba_req_dlgt (tx_of w tid) =? dlgt)); [by apply (within_ret rep_rel)|].
  case_decide as Hst; [by apply (within_ret rep_rel)|].
  assert (tx_state (tx_of w tid) <> MTLK_ADDBA_TX_NONE) as Hb by (intros E; rewrite E in Hst; by apply Hst).
  case_match; [|by apply refused_rep]. rewrite run_assoc, exec_bind.
  destruct (accepted_rep tid win w Hw Ht Hb) as [es Hes].
  exists es. exact Hes.
Qed.

Lemma addba_req_rx_rep ssn tid win dlgt tmout ack rate : valid_tid tid -> 0 <= win <= 64 -> 0 <= ssn < 4096 ->
  within rep_rel (mtlk_addba_peer_on_addba_req_rx (ops := ops) clock ssn tid win dlgt tmout ack rate).
Proof.
  intros Ht Hwin Hssn. unfold mtlk_addba_peer_on_addba_req_rx, cntr_inc, get_rx, get_cfg, set_res_code, _mtlk_addba_is_reord_on, get_rx.
  assert (0 < _mtlk_addba_correct_res_win_size win <= 64) as Hw.
  { unfold _mtlk_addba_correct_res_win_size, MTLK_ADDBA_MAX_REORD_WIN_SIZE. case_match; zbool; lia. }
  pose proof (reordering_start_rep (T := T) tid ssn _ Ht Hw Hssn). rep_walk.
Qed.

Lemma open_aggr_cfm_rep p b w : wf w -> valid_tid (oa_u16AccessProtocol p) ->
  tx_state (tx_of w (oa_u16AccessProtocol p)) <> MTLK_ADDBA_TX_NONE ->
  exists es, reports es w (exec (_mtlk_addba_peer_on_open_aggr_cfm_clb (T := T) p b) w).
Proof.
  intros Hw Ht Hb. unfold _mtlk_addba_peer_on_open_aggr_cfm_clb. cbv zeta. set (tid := oa_u16AccessProtocol p) in *. run.
  all: unfold tx_of, tid_of in Hb; rep_tac w tid Hw Ht.
Qed.

Lemma addba_req_cfm_rep p b w : wf w -> valid_tid (aq_u16AccessProtocol p) ->
  tx_state (tx_of w (aq_u16AccessProtocol p)) <> MTLK_ADDBA_TX_NONE ->
  exists es, reports es w (exec (_mtlk_addba_peer_on_addba_req_tx_cfm_clb (T := T) clock p b) w).
Proof.
  intros Hw Ht Hb. unfold _mtlk_addba_peer_on_addba_req_tx_cfm_clb. cbv zeta. set (tid := aq_u16AccessProtocol p) in *. run.
  all: unfold tx_of, tid_of in Hb; rep_tac w tid Hw Ht.
Qed.
End calls.

(** * The reports of a whole call or answer *)

#[export] Hint Resolve peer_stop_rep addba_res_rx_rep addba_req_rx_rep : rep.

(** The requests of a well-behaved peer: a window the reordering queue can
    hold and a 12-bit sequence number.  Starting a negotiation is the
    station's own call and treated apart. *)
Definition call_sane (c : addba_call) : Prop :=
  call_ok c /\
  match c with
  | CAddbaReqRx ssn _ win _ _ _ _ => 0 <= win <= 64 /\ 0 <= ssn < 4096
  | CStartNegotiation _ _ => False
  | _ => True
  end.

Section StaCalls.
Context {T : Type} {ops : TxmmOps T addba_msg addba_clb addba_payload}.
Context (clock : nat -> Z) (get_last_rx_timestamp : nat -> Z -> Z).
Implicit Types w : world T.

Lemma delba_cfm_rep p b : valid_tid (dr_u16AccessProtocol p) ->
  within rep_rel (_mtlk_addba_peer_on_delba_req_tx_cfm_clb (T := T) p b).
Proof.
  intros Ht. unfold _mtlk_addba_peer_on_delba_req_tx_cfm_clb, cntr_inc, get_tx, get_rx. cbv zeta.
  rep_walk; apply ev_rep; repeat case_match; done.
Qed.

Lemma addba_res_cfm_rep p b : valid_tid (ar_u16AccessProtocol p) ->
  within rep_rel (_mtlk_addba_peer_on_addba_res_tx_cfm_clb (T := T) p b).
Proof. intros Ht. unfold _mtlk_addba_peer_on_addba_res_tx_cfm_clb, cntr_inc, get_rx. rep_walk. Qed.

Lemma delba_timeout_rep tid : valid_tid tid ->
  within rep_rel (check_delba_timeout (T := T) (ops := ops) clock get_last_rx_timestamp tid).
Proof. intros Ht. unfold check_delba_timeout, cntr_inc, get_rx. rep_walk. Qed.

Lemma delba_rx_rep tid res_code ini : valid_tid tid ->
  within rep_rel (mtlk_addba_peer_on_delba_req_rx (ops := ops) tid res_code ini).
Proof. intros Ht. unfold mtlk_addba_peer_on_delba_req_rx, cntr_inc. rep_walk. Qed.

Lemma rx_delba_status_rep tid st : valid_tid tid ->
  within rep_rel (_mtlk_addba_peer_on_rx_delba_req_tx_status (ops := ops) tid st).
Proof. intros Ht. unfold _mtlk_addba_peer_on_rx_delba_req_tx_status, cntr_inc, get_rx. rep_walk. Qed.

Lemma tx_delba_status_rep tid st : valid_tid tid ->
  within rep_rel (_mtlk_addba_peer_on_tx_delba_req_tx_status (ops := ops) tid st).
Proof. intros Ht. unfold _mtlk_addba_peer_on_tx_delba_req_tx_status, cntr_inc, get_tx. rep_walk. Qed.

Lemma addba_res_status_rep tid st : valid_tid tid ->
  within rep_rel (_mtlk_addba_peer_on_addba_res_tx_req_tx_status (ops := ops) clock tid st).
Proof. intros Ht. unfold _mtlk_addba_peer_on_addba_res_tx_req_tx_status, cntr_inc, get_rx. rep_walk. Qed.

Lemma terminate_rep tid : valid_tid tid -> within rep_rel (terminate_aggr (ops := ops) tid).
Proof. intros Ht. unfold terminate_aggr, get_tx. rep_walk. Qed.

Lemma delba_req_rep tid : valid_tid tid -> within rep_rel (mtlk_addba_delba_req (ops := ops) tid).
Proof. intros Ht. unfold mtlk_addba_delba_req. pose proof (terminate_rep tid Ht). rep_walk. Qed.

Lemma for_all_tids_rep (body : Z -> ST (world T) unit) :
  (forall tid, valid_tid tid -> within rep_rel (body tid)) -> within rep_rel (for_each all_tids body).
Proof. intros Hb. apply within_for_each; [apply _|]. intros tid Ht. by apply Hb, all_tids_valid. Qed.

Lemma ignore_rep {A} (m : ST (world T) A) : within rep_rel m -> within rep_rel (ignore m).
Proof. intros Hm. apply within_bind; [apply _|done|]. intros a. apply within_ret, _. Qed.

Lemma run_call_rep c : call_sane c -> within rep_rel (run_call (T := T) clock get_last_rx_timestamp c).
Proof.
  intros [Hok Hc]. destruct c; try done; simpl in *; unfold mtlk_addba_reconfigure, mtlk_addba_peer_start, mtlk_addba_peer_stop,
    mtlk_addba_peer_on_ba_tx_status, mtlk_addba_peer_on_ack_on_bar, mtlk_addba_peer_on_bar, mtlk_addba_peer_iterate,
    mtlk_addba_on_qos_without_reord, mtlk_addba_delba_req_all,
    _mtlk_addba_peer_check_addba_res_rx_timeouts, _mtlk_addba_peer_check_delba_timeouts, cntr_inc, get_rx, get_cfg.
  all: try apply ignore_rep.
  - rep_walk.
  - pose proof (peer_stop_rep (T := T) clock). rep_walk.
  - pose proof (peer_stop_rep (T := T) clock). rep_walk.
  - destruct (tid_ok tid) eqn:E; [by apply delba_rx_rep, tid_ok_valid|].
    unfold mtlk_addba_peer_on_delba_req_rx. rewrite E. apply within_ret, _.
  - destruct (tid_ok tid) eqn:E; [by apply addba_res_rx_rep, tid_ok_valid|].
    unfold mtlk_addba_peer_on_addba_res_rx. rewrite E. apply within_ret, _.
  - destruct (tid_ok tid) eqn:E; [apply addba_req_rx_rep; [by apply tid_ok_valid|tauto..]|].
    unfold mtlk_addba_peer_on_addba_req_rx. rewrite E. apply within_ret, _.
  - destruct (tid_ok tid) eqn:E; simpl; [|rep_walk]. apply tid_ok_valid in E; [|done].
    pose proof (tx_delba_status_rep tid status E). pose proof (rx_delba_status_rep tid status E).
    pose proof (addba_res_status_rep tid status E). rep_walk.
  - destruct (tid_ok tid) eqn:E; simpl; [|rep_walk]. apply tid_ok_valid in E; [|done].
    pose proof (delba_req_rep tid E). rep_walk.
  - destruct (tid_ok tid) eqn:E; simpl; [|rep_walk]. apply tid_ok_valid in E; [|done]. rep_walk.
  - pose proof (for_all_tids_rep _ delba_timeout_rep).
    pose proof (for_all_tids_rep _ (addba_timeout_rep clock)). rep_walk.
  - destruct (tid_ok tid) eqn:E; simpl; [|rep_walk]. apply tid_ok_valid in E; [|done]. rep_walk.
  - by apply delba_req_rep.
  - pose proof (for_all_tids_rep _ terminate_rep). rep_walk.
  - by apply reset_ps_rep.
Qed.

(** A confirmation, of a TID that waits for it. *)
Lemma run_clb_rep c p b w : wf w -> valid_tid (payload_tid p) ->
  (c = ClbOpenAggr \/ c = ClbAddbaReq -> tx_state (tx_of w (payload_tid p)) <> MTLK_ADDBA_TX_NONE) ->
  exists es, reports es w (exec (run_clb (T := T) clock c p b) w).
Proof.
  intros Hw Ht Hh. destruct c, p; simpl in *; try (by apply (within_ret rep_rel)).
  - by apply delba_cfm_rep.
  - by apply close_aggr_cfm_rep.
  - apply open_aggr_cfm_rep; auto.
  - apply addba_req_cfm_rep; auto.
  - by apply addba_res_cfm_rep.
Qed.

(** The station's own call: it starts at most that TID's negotiation and
    reports nothing. *)
Lemma start_negotiation_rep tid ps w : wf w -> valid_tid tid ->
  let w' := exec (mtlk_addba_peer_start_aggr_negotiation (ops := ops) tid ps) w in
  wf w' /\ (exists es, w_out w' = w_out w ++ es /\ Forall (fun e => ev_plain e = true) es) /\
  (forall t, valid_tid t -> active_of w' t = active_of w t) /\
  (forall t, valid_tid t -> t <> tid -> phase_of w' t = phase_of w t) /\
  backoff (phase_of w' tid) = backoff (phase_of w tid) /\
  (busy (phase_of w tid) = true -> busy (phase_of w' tid) = true).
Proof.
  intros Hw Ht w'.
  assert (exists f es, w_tid w' = alter f (Z.to_nat tid) (w_tid w) /\ w_out w' = w_out w ++ es /\
    Forall (fun e => ev_plain e = true) es /\
    rx_reorder_is_active (t_rx (f (tid_of w tid))) = rx_reorder_is_active (rx_of w tid) /\
    tx_reject_state (t_tx (f (tid_of w tid))) = tx_reject_state (tx_of w tid) /\
    (busy (phase_of w tid) = true -> busy (tx_phase (t_tx (f (tid_of w tid)))) = true)) as (f & es & E1 & E2 & E3 & E4 & E5 & E6).
  { unfold w', mtlk_addba_peer_start_aggr_negotiation, _mtlk_addba_peer_tx_addba_req, _mtlk_addba_peer_fill_addba_req,
      _mtlk_addba_peer_on_addba_req_sent. run.
    all: alter_merge; world_simpl.
    all: first [ eexists _, _; split; [reflexivity|] | eexists (fun t => t), _; split; [apply alter_id_tid|] ].
    all: rewrite <-?app_assoc; (split; [first [reflexivity|by rewrite app_nil_r]|]); (split; [by repeat constructor|]).
    all: unfold phase_of, tx_phase, tx_of, rx_of in *; split_and!; cbn; try done; intros Hbusy; destruct (tx_state (t_tx (tid_of w tid))) eqn:Es; cbn in *; try done;
      exfalso; intuition congruence. }
  assert (tid_of w' tid = f (tid_of w tid)) as Hself.
  { unfold tid_of. rewrite E1, alter_total; [done|]. rewrite Hw. unfold MTLK_ADDBA_NOF_TIDs, valid_tid in *. lia. }
  assert (forall t, valid_tid t -> t <> tid -> tid_of w' t = tid_of w t) as Hother.
  { intros t Hv Hne. unfold tid_of. rewrite E1, alter_total_ne; [done|]. unfold valid_tid in *. lia. }
  split; [unfold wf; by rewrite E1, length_alter|]. split; [by exists es|]. unfold active_of, phase_of, tx_of, rx_of in *.
  rewrite Hself. split; [|split; [|split; [exact E5|exact E6]]].
  - intros t Hv. destruct (decide (t = tid)) as [->|Hne]; [by rewrite Hself|by rewrite Hother].
  - intros t Hv Hne. by rewrite Hother.
Qed.
End StaCalls.
