(* ===== verification/StaInv.v ===== *)
(** * StaInv: the invariant of a station and what delivering reports does to it

    One TID at a time: its queue is in use only while the ADDBA peer has
    reordering on, and its aggregation flag is set whenever a negotiation, a
    back-off or a scheduled revival of the TID is under way, of which there is
    at most one. *)
From S2P Require Import Prelude Reflim TxmmIface Addba AddbaAcct AddbaInv AddbaOps AddbaSys.
From S2P Require Import Replay Rod RodInv RodThms Sta StaRep.

(** The packets each TID's queue has been given. *)
Definition given := Z -> list mtlk_nbuf_t.
Definition give (tid : Z) (nb : mtlk_nbuf_t) (pk : given) : given := fun t => if t =? tid then nb :: pk t else pk t.

Section StaInv.
Context {T : Type} {ops : TxmmOps T addba_msg addba_clb addba_payload} {tx_ok : T -> Prop}.
Context {laws : TxmmLaws T addba_msg addba_clb addba_payload tx_ok}.
Context (clock : nat -> Z).
Context (group_cipher : Z -> Z) (time_after : Z -> Z -> bool) (ms_to_timestamp timestamp_to_ms : Z -> Z).
Context (vap : Z) (aggr_open_threshold : Z).
Implicit Types (s : sta_entry T) (env : sta_env) (pk : given).
Abbreviation sinv := (sinv (tx_ok := tx_ok)).
Abbreviation addba_api := (addba_api group_cipher timestamp_to_ms vap).
Abbreviation deliver := (deliver group_cipher timestamp_to_ms vap).
Abbreviation with_addba := (with_addba group_cipher timestamp_to_ms vap).
Abbreviation sta_call := (sta_call clock group_cipher timestamp_to_ms vap).

Definition pending_of s (tid : Z) : Z := countb (Z.eqb tid) (scheduled s).

(** The station has one entry per TID everywhere. *)
Definition sta_wf s : Prop :=
  length (rod_queue s) = NTS_TIDS /\ length (tx_packets s) = NTS_TIDS /\ length (aggr_inited s) = NTS_TIDS.

(** The receiving half: what the queue holds, and whether it may be in use. *)
Definition rod_half (packets : list mtlk_nbuf_t) (active : bool) (r : rod) : Prop :=
  rod_holds packets r /\ (used (q r) <> 0 -> active = true).

(** The sending half. *)
Definition flags_ok (inited : bool) (pending : Z) (p : tphase) : Prop :=
  (inited = false -> busy p = false /\ backoff p = false /\ pending = 0) /\
  Z.b2z (busy p) + Z.b2z (backoff p) + pending <= 1.
Definition tx_half (tid : Z) (p : tphase) s : Prop :=
  flags_ok (inited_of s tid) (pending_of s tid) p /\ tid ∉ asserts s.

Record sta_inv pk s : Prop := {
  st_peer : sinv (addba_peer s);
  st_wf : sta_wf s;
  st_rod tid : valid_tid tid -> rod_half (pk tid) (active_of (addba_peer s) tid) (rod_of s tid);
  st_tx tid : valid_tid tid -> tx_half tid (phase_of (addba_peer s) tid) s;
  st_asserts : Forall valid_tid (asserts s);
  st_scheduled : Forall valid_tid (scheduled s);
}.

Lemma no_assert pk s : sta_inv pk s -> asserts s = [].
Proof.
  intros H. destruct (asserts s) as [|t l] eqn:E; [done|]. pose proof (st_asserts _ _ H) as Hv. rewrite E in Hv.
  apply Forall_cons in Hv as [Hv _]. destruct (st_tx _ _ H t Hv) as [_ []]. rewrite E. left.
Qed.

Lemma valid_nat tid : valid_tid tid -> (Z.to_nat tid < NTS_TIDS)%nat.
Proof. unfold valid_tid, NTS_TIDS. lia. Qed.
Lemma valid_inj t tid : valid_tid t -> valid_tid tid -> t <> tid -> Z.to_nat t <> Z.to_nat tid.
Proof. unfold valid_tid. lia. Qed.

(** ** One callback *)

Lemma rod_of_upd s t tid f : sta_wf s -> valid_tid t -> valid_tid tid ->
  rod_of (sta_upd_rod t f s) tid = if t =? tid then f (rod_of s tid) else rod_of s tid.
Proof.
  intros [Hl _] Ht Htid. unfold rod_of. cbn [sta_upd_rod rod_queue]. case_match; zbool.
  - subst. rewrite alter_total; [done|]. rewrite Hl. by apply valid_nat.
  - rewrite alter_total_ne; [done|]. by apply valid_inj.
Qed.

Lemma inited_of_clear s t tid : sta_wf s -> valid_tid t -> valid_tid tid ->
  inited_of (clear_counter t s) tid = if t =? tid then false else inited_of s tid.
Proof.
  intros (_ & _ & Hl) Ht Htid. unfold inited_of. cbn [clear_counter sta_set_inited sta_set_tx aggr_inited].
  rewrite !list_lookup_total_alt. case_match; zbool.
  - subst. rewrite list_lookup_insert_eq; [done|]. rewrite Hl. by apply valid_nat.
  - rewrite list_lookup_insert_ne; [done|]. by apply valid_inj.
Qed.

Lemma clear_wf t s : sta_wf s -> sta_wf (clear_counter t s).
Proof. intros (H1 & H2 & H3). unfold sta_wf. cbn. by rewrite !length_insert. Qed.
Lemma upd_rod_wf t f s : sta_wf s -> sta_wf (sta_upd_rod t f s).
Proof. intros (H1 & H2 & H3). unfold sta_wf. cbn. by rewrite length_alter. Qed.

Lemma api_wf env e s : sta_wf s -> sta_wf (addba_api env e s).
Proof.
  intros Hs. destruct e; unfold Sta.addba_api; try done.
  - apply clear_wf. by destruct (inited_of _ _).
  - unfold _mtlk_sta_addba_start_reordering, _mtlk_sta_create_rod_queue. case_match; [done|]. by apply upd_rod_wf.
  - unfold _mtlk_sta_addba_stop_reordering, _mtlk_sta_destroy_rod_queue. case_match; [|done]. by apply upd_rod_wf.
  - unfold _mtlk_sta_addba_revive_aggregation_tid, _mtlk_sta_schedule_aggregation_revival_tid. by case_match.
  - apply clear_wf. by destruct (inited_of _ _).
Qed.

Lemma api_asserts env e s : ev_ok e -> Forall valid_tid (asserts s) -> Forall valid_tid (asserts (addba_api env e s)).
Proof.
  intros He Hs. destruct e; unfold Sta.addba_api, _mtlk_sta_addba_restart_tx_count_tid; try done.
  - destruct (inited_of _ _); cbn; [done|]. apply Forall_app. split; [done|by constructor].
  - unfold _mtlk_sta_addba_start_reordering, _mtlk_sta_create_rod_queue. by case_match.
  - unfold _mtlk_sta_addba_stop_reordering, _mtlk_sta_destroy_rod_queue. by case_match.
  - unfold _mtlk_sta_addba_revive_aggregation_tid, _mtlk_sta_schedule_aggregation_revival_tid. by case_match.
  - destruct (inited_of _ _); cbn; [done|]. apply Forall_app. split; [done|by constructor].
Qed.

Lemma api_scheduled env e s : ev_ok e -> Forall valid_tid (scheduled s) -> Forall valid_tid (scheduled (addba_api env e s)).
Proof.
  intros He Hs. destruct e; unfold Sta.addba_api, _mtlk_sta_addba_restart_tx_count_tid; try done.
  - by destruct (inited_of _ _).
  - unfold _mtlk_sta_addba_start_reordering, _mtlk_sta_create_rod_queue. by case_match.
  - unfold _mtlk_sta_addba_stop_reordering, _mtlk_sta_destroy_rod_queue. by case_match.
  - unfold _mtlk_sta_addba_revive_aggregation_tid, _mtlk_sta_schedule_aggregation_revival_tid. case_match; [|done].
    apply Forall_app. split; [done|by constructor].
  - by destruct (inited_of _ _).
Qed.

Lemma destroy_half (l : list mtlk_nbuf_t) env r active : rod_half l active r ->
  rod_half l false (if negb (used (q r) =? 0) then mtlk_clear_rod_queue group_cipher (env_now env) r else r).
Proof.
  intros [Hh Hu]. case_match eqn:E; zbool; [|done].
  split; [by apply (exec_op_holds group_cipher time_after ms_to_timestamp timestamp_to_ms (env_now env) OpClear l r)|].
  intros Hn. exfalso. apply Hn. destruct Hh as [Hok _].
  by destruct (clear_spec group_cipher (env_now env) r Hok) as (_ & H2 & _).
Qed.

Lemma create_half (l : list mtlk_nbuf_t) env r win ssn : rod_half l false r -> 0 < win <= 64 -> 0 <= ssn < 4096 ->
  rod_half l true (mtlk_create_rod_queue group_cipher timestamp_to_ms (env_now env) vap win ssn (env_created env) (env_opened env) r).2.
Proof.
  intros [Hh Hu] Hwin Hssn. split; [|done].
  apply (exec_op_holds group_cipher time_after ms_to_timestamp timestamp_to_ms (env_now env)
    (OpCreate vap win ssn (env_created env) (env_opened env)) l r); [done|].
  split; [|done]. destruct (decide (used (q r) = 0)) as [|Hne]; [done|]. by specialize (Hu Hne).
Qed.

Lemma used_eq r : mtlk_is_used_rod_queue r = used r.
Proof. done. Qed.

(** A report about the TID's reordering. *)
Lemma api_rod env e es s (l : list mtlk_nbuf_t) tid b b' : sta_wf s -> valid_tid tid -> ev_ok e -> rx_run tid b (e :: es) = Some b' ->
  rod_half l b (rod_of s tid) ->
  exists b1, rx_run tid b1 es = Some b' /\ rod_half l b1 (rod_of (addba_api env e s) tid).
Proof.
  intros Hw Ht He Hrun Hh.
  assert (forall t v f, rod_of (clear_counter t (sta_assert v f s)) tid = rod_of s tid) as Hclear by (by intros t v []).
  destruct e as [t|t|t ssn win|t|t|t|i n|i n|]; cbn [rx_run ev_ok Sta.addba_api] in *.
  - by exists b.
  - exists b. unfold _mtlk_sta_addba_restart_tx_count_tid. by rewrite Hclear.
  - destruct He as (Hv & Hwin & Hssn).
    unfold _mtlk_sta_addba_start_reordering, _mtlk_sta_create_rod_queue.
    rewrite (proj2 (Z.leb_gt _ _)) by (unfold valid_tid, NTS_TIDS in *; lia).
    rewrite rod_of_upd by done. destruct (t =? tid); [|by exists b].
    destruct b; [done|]. exists true. split; [done|]. by apply create_half.
  - unfold _mtlk_sta_addba_stop_reordering, _mtlk_sta_destroy_rod_queue. rewrite used_eq.
    assert (rod_of (if negb (used (q (rod_of s t)) =? 0) then sta_upd_rod t (mtlk_clear_rod_queue group_cipher (env_now env)) s else s) tid
      = if t =? tid then (if negb (used (q (rod_of s tid)) =? 0) then mtlk_clear_rod_queue group_cipher (env_now env) (rod_of s tid)
          else rod_of s tid) else rod_of s tid) as ->.
    { destruct (decide (t = tid)) as [->|Hne].
      - rewrite Z.eqb_refl. destruct (negb _); [|done]. by rewrite rod_of_upd, Z.eqb_refl.
      - rewrite (proj2 (Z.eqb_neq t tid)) by done. destruct (negb _); [|done]. rewrite rod_of_upd by done.
        by rewrite (proj2 (Z.eqb_neq t tid)). }
    destruct (t =? tid); [|by exists b]. destruct b; [|done]. exists false. split; [done|]. by eapply destroy_half.
  - exists b. unfold _mtlk_sta_addba_revive_aggregation_tid, _mtlk_sta_schedule_aggregation_revival_tid. by case_match.
  - exists b. unfold _mtlk_sta_addba_restart_tx_count_tid. by rewrite Hclear.
  - by exists b.
  - by exists b.
  - by exists b.
Qed.

Lemma deliver_rod env es s (l : list mtlk_nbuf_t) tid b b' : sta_wf s -> valid_tid tid -> Forall ev_ok es -> rx_run tid b es = Some b' ->
  rod_half l b (rod_of s tid) -> rod_half l b' (rod_of (deliver env es s) tid).
Proof.
  intros Hw Ht. revert s b Hw. induction es as [|e es IH]; intros s b Hw Hok Hrun Hh; [by simplify_eq/=|].
  apply Forall_cons in Hok as [He Hok]. destruct (api_rod env e es s l tid b b' Hw Ht He Hrun Hh) as (b1 & H1 & H2).
  by apply (IH _ b1); [apply api_wf|..].
Qed.

(** ** The sending half *)

Lemma pending_app s tid t : countb (Z.eqb tid) (scheduled s ++ [t]) = pending_of s tid + Z.b2z (tid =? t).
Proof. rewrite countb_app. unfold pending_of. cbn. lia. Qed.

(** A report that is not about the TID's aggregation leaves its half alone. *)
Lemma api_other env e s tid p : sta_wf s -> valid_tid tid -> ev_ok e -> tx_report tid e = false ->
  tx_half tid p s -> tx_half tid p (addba_api env e s).
Proof.
  intros Hw Ht He Hr [Hf Ha].
  assert (forall t, valid_tid t -> (t =? tid) = false -> tx_half tid p (_mtlk_sta_addba_restart_tx_count_tid t s)) as Hrestart.
  { intros t Hv Hne. unfold _mtlk_sta_addba_restart_tx_count_tid. split.
    - rewrite inited_of_clear; [rewrite Hne|by destruct (inited_of s t)|done|done].
      by destruct (inited_of s t).
    - apply Z.eqb_neq in Hne. destruct (inited_of s t); cbn; [done|]. rewrite elem_of_app, list_elem_of_singleton. naive_solver. }
  destruct e as [t|t|t ssn win|t|t|t|i n|i n|]; unfold Sta.addba_api; try done; cbn [tx_report ev_ok] in *.
  - by apply Hrestart.
  - unfold _mtlk_sta_addba_start_reordering, _mtlk_sta_create_rod_queue. by case_match.
  - unfold _mtlk_sta_addba_stop_reordering, _mtlk_sta_destroy_rod_queue. by case_match.
  - unfold _mtlk_sta_addba_revive_aggregation_tid, _mtlk_sta_schedule_aggregation_revival_tid. case_match; [|done].
    split; [|done]. unfold pending_of. cbn [sta_set_scheduled scheduled]. rewrite pending_app, Z.eqb_sym, Hr. cbn [Z.b2z].
    by rewrite Z.add_0_r.
  - by apply Hrestart.
Qed.

(** The end of a negotiation or an aggregation: counting starts again. *)
Lemma restart_half s tid p : sta_wf s -> valid_tid tid -> inited_of s tid = true -> pending_of s tid = 0 ->
  tid ∉ asserts s -> busy p = false -> backoff p = false ->
  tx_half tid p (_mtlk_sta_addba_restart_tx_count_tid tid s).
Proof.
  intros Hw Ht Hi Hn Ha Hb Hr. unfold _mtlk_sta_addba_restart_tx_count_tid. rewrite Hi. cbn [sta_assert].
  split; [|done]. rewrite inited_of_clear, Z.eqb_refl by done. change (pending_of (clear_counter tid s) tid) with (pending_of s tid). rewrite Hn. split; [done|].
  by rewrite Hb, Hr.
Qed.

Lemma half_busy s tid r : tx_half tid (Ph true r) s -> inited_of s tid = true /\ pending_of s tid = 0 /\ r = false.
Proof.
  intros [[H1 H2] _]. cbn in *. pose proof (countb_range (Z.eqb tid) (scheduled s)) as Hr. fold (pending_of s tid) in Hr.
  destruct (inited_of s tid); [|by destruct (H1 eq_refl)]. destruct r; cbn in *; split_and!; try done; lia.
Qed.
Lemma half_backoff s tid b : tx_half tid (Ph b true) s -> inited_of s tid = true /\ pending_of s tid = 0 /\ b = false.
Proof.
  intros [[H1 H2] _]. cbn in *. pose proof (countb_range (Z.eqb tid) (scheduled s)) as Hr. fold (pending_of s tid) in Hr.
  destruct (inited_of s tid); [|by destruct (H1 eq_refl) as (_ & ? & _)]. destruct b; cbn in *; split_and!; try done; lia.
Qed.

Lemma half_set s tid p p' : inited_of s tid = true -> pending_of s tid = 0 -> tx_half tid p s ->
  Z.b2z (busy p') + Z.b2z (backoff p') <= 1 -> tx_half tid p' s.
Proof. intros Hi Hn [_ Ha] Hp. split; [|done]. rewrite Hi, Hn. split; [done|lia]. Qed.

Lemma deliver_tx env es s tid p p' : sta_wf s -> valid_tid tid -> Forall ev_ok es -> tx_path tid p es p' ->
  tx_half tid p s -> tx_half tid p' (deliver env es s).
Proof.
  intros Hw Ht Hok Hpath. revert s Hw Hok.
  induction Hpath as [p|p e es p' He Hp IH|r es p' Hp IH|r es p' Hp IH|r es p' Hp IH|r es p' Hp IH|es p' Hp IH|r es p' Hp IH];
    intros s Hw Hok Hh; [done| | | | | | |].
  - apply Forall_cons in Hok as [Heok Hok]. apply (IH (addba_api env e s)); [by apply api_wf|done|by apply api_other].
  - destruct (half_busy _ _ _ Hh) as (Hi & Hn & ->). apply IH; [done..|]. by eapply half_set.
  - destruct (half_busy _ _ _ Hh) as (Hi & Hn & ->). apply IH; [done..|]. by eapply half_set.
  - destruct (half_busy _ _ _ Hh) as (Hi & Hn & ->). apply Forall_cons in Hok as [Heok Hok].
    apply (IH (addba_api env _ s)); [by apply api_wf|done|]. apply restart_half; try done. apply Hh.
  - destruct (half_busy _ _ _ Hh) as (Hi & Hn & ->). apply Forall_cons in Hok as [Heok Hok].
    apply (IH (addba_api env _ s)); [by apply api_wf|done|]. apply restart_half; try done. apply Hh.
  - destruct (half_backoff _ _ _ Hh) as (Hi & Hn & _). apply Forall_cons in Hok as [Heok Hok].
    apply (IH (addba_api env _ s)); [by apply api_wf|done|]. apply restart_half; try done. apply Hh.
  - destruct (half_busy _ _ _ Hh) as (Hi & Hn & ->). apply Forall_cons in Hok as [Heok Hok].
    apply (IH (addba_api env _ s)); [by apply api_wf|done|].
    unfold Sta.addba_api, _mtlk_sta_addba_revive_aggregation_tid, _mtlk_sta_schedule_aggregation_revival_tid.
    case_match; [|by eapply half_set]. split; [|apply Hh]. unfold pending_of, inited_of in *. cbn [sta_set_scheduled scheduled aggr_inited].
    rewrite pending_app, Z.eqb_refl. unfold pending_of. rewrite Hn, Hi. by split.
Qed.

(** ** A run of the module, and its delivery *)

Lemma deliver_wf env es s : sta_wf s -> sta_wf (deliver env es s).
Proof. revert s. induction es as [|e es IH]; intros s Hw; [done|]. by apply (IH (addba_api env e s)), api_wf. Qed.
Lemma deliver_asserts env es s : Forall ev_ok es -> Forall valid_tid (asserts s) -> Forall valid_tid (asserts (deliver env es s)).
Proof.
  intros Hok. revert s. induction Hok as [|e es He Hes IH]; intros s Hs; [done|].
  by apply (IH (addba_api env e s)), api_asserts.
Qed.
Lemma deliver_scheduled env es s : Forall ev_ok es -> Forall valid_tid (scheduled s) ->
  Forall valid_tid (scheduled (deliver env es s)).
Proof.
  intros Hok. revert s. induction Hok as [|e es He Hes IH]; intros s Hs; [done|].
  by apply (IH (addba_api env e s)), api_scheduled.
Qed.
Lemma api_peer env e s : addba_peer (addba_api env e s) = addba_peer s.
Proof.
  destruct e; unfold Sta.addba_api, _mtlk_sta_addba_restart_tx_count_tid, _mtlk_sta_addba_start_reordering, _mtlk_sta_create_rod_queue,
    _mtlk_sta_addba_stop_reordering, _mtlk_sta_destroy_rod_queue, _mtlk_sta_addba_revive_aggregation_tid,
    _mtlk_sta_schedule_aggregation_revival_tid; try done; try (by case_match); by destruct (inited_of _ _).
Qed.
Lemma deliver_peer env es s : addba_peer (deliver env es s) = addba_peer s.
Proof. revert s. induction es as [|e es IH]; intros s; [done|]. etransitivity; [apply (IH (addba_api env e s))|apply api_peer]. Qed.

Lemma sinv_ok w : sinv w -> tx_ok (w_txmm w).
Proof. intros Hs. by eapply sa_ok, (Hs 0). Qed.

Lemma run_inv pk env s es w : sta_inv pk s -> reports es (no_out (addba_peer s)) w -> sinv w ->
  sta_inv pk (deliver env es (sta_set_peer (no_out w) s)).
Proof.
  intros [Hp Hw Hrod Htx Ha Hsc] [R1 R2 R3 R4 R5] Hs.
  assert (sinv (no_out w)) as Hs' by (apply (sinv_ext w); try done; exact (sinv_ok _ Hs)).
  split.
  - by rewrite deliver_peer.
  - by apply deliver_wf.
  - intros tid Ht. rewrite deliver_peer. eapply deliver_rod; [done|done|done| |by apply Hrod]. by apply R4.
  - intros tid Ht. rewrite deliver_peer. eapply deliver_tx; [done|done|done| |by apply Htx]. by apply R5.
  - by apply deliver_asserts.
  - by apply deliver_scheduled.
Qed.

Lemma no_out_sinv w : sinv w -> sinv (no_out w).
Proof. intros Hs. apply (sinv_ext w); try done. exact (sinv_ok _ Hs). Qed.
Lemma sinv_wf w : sinv w -> wf w.
Proof. intros Hs. by eapply sa_wf, (Hs 0). Qed.

(** Any function of the module that reports as it must. *)
Lemma with_addba_inv {A} pk env (m : ST (world T) A) s : sta_inv pk s ->
  (forall w, w = no_out (addba_peer s) -> sinv w -> (exists es, reports es w (exec m w)) /\ sinv (exec m w)) ->
  sta_inv pk (with_addba env m s).2.
Proof.
  intros Hi Hm. destruct (Hm _ eq_refl (no_out_sinv _ (st_peer _ _ Hi))) as [[es R] Hs].
  unfold Sta.with_addba. unfold exec in R, Hs. destruct (m (no_out (addba_peer s))) as [a w]. cbn [snd] in *.
  pose proof (rp_out _ _ _ R) as ->. cbn [no_out w_out app]. by apply run_inv.
Qed.

(** Reports without a callback. *)
Lemma deliver_plain env es s : Forall (fun e => ev_plain e = true) es -> deliver env es s = s.
Proof. intros Hp. revert s. induction Hp as [|e es He Hes IH]; intros s; [done|]. transitivity (deliver env es s); [|apply IH]. by destruct e. Qed.

Lemma sta_call_inv pk env c s : call_sane c -> sta_inv pk s -> sta_inv pk (sta_call env c s).
Proof.
  intros Hc Hi. apply with_addba_inv; [done|]. intros w _ Hs. split.
  - apply run_call_rep; [done|]. by apply sinv_wf.
  - eapply run_call_sinv; [apply laws|apply Hc|done].
Qed.
End StaInv.
