(* ===== verification/StaSys.v ===== *)
(** * StaSys: a connected station as a transition system, and its invariant

    A step is one entry into the station layer, one answer of the transport to
    the peer's messages, or the rest of the driver at work on what the peer
    shares with it. *)
From S2P Require Import Prelude Reflim TxmmIface Addba AddbaAcct AddbaInv AddbaOps AddbaSys.
From S2P Require Import Replay Rod RodInv RodThms Sta StaRep StaInv.
From Stdlib Require Import Permutation.

Lemma fmap_total {A} `{!Inhabited A} (f : A -> A) (l : list A) i : (i < length l)%nat -> (f <$> l) !!! i = f (l !!! i).
Proof. intros Hi. apply list_lookup_total_correct. rewrite list_lookup_fmap, (list_lookup_lookup_total_lt l i Hi). done. Qed.

Section StaSys.
Context {T : Type} {ops : TxmmOps T addba_msg addba_clb addba_payload} {tx_ok : T -> Prop}.
Context {laws : TxmmLaws T addba_msg addba_clb addba_payload tx_ok}.
Context (clock : nat -> Z).
Context (group_cipher : Z -> Z) (time_after : Z -> Z -> bool) (ms_to_timestamp timestamp_to_ms : Z -> Z).
Context (vap : Z) (aggr_open_threshold : Z).
Implicit Types (s : sta_entry T) (env : sta_env) (pk : given) (w : world T).
Abbreviation sinv := (sinv (tx_ok := tx_ok)).
Abbreviation sta_inv := (sta_inv (tx_ok := tx_ok)).
Abbreviation deliver := (deliver group_cipher timestamp_to_ms vap).
Abbreviation with_addba := (with_addba group_cipher timestamp_to_ms vap).
Abbreviation sta_call := (sta_call clock group_cipher timestamp_to_ms vap).
Abbreviation update_tx := (mtlk_sta_update_tx aggr_open_threshold).
Abbreviation revive := (_mtlk_stadb_on_addba_revive_aggregation_tid group_cipher timestamp_to_ms vap).
Abbreviation exit_ps_tid := (exit_ps_tid group_cipher timestamp_to_ms vap).
Abbreviation set_pm := (mtlk_sta_set_pm_enabled group_cipher timestamp_to_ms vap).
Abbreviation reorder := (mtlk_sta_reorder_packet group_cipher timestamp_to_ms).
Abbreviation rx_directed := (rx_directed clock group_cipher timestamp_to_ms vap).
Abbreviation process_bar := (mtlk_sta_process_bar clock group_cipher timestamp_to_ms vap).
Abbreviation handle_bar := (mtlk_handle_bar clock group_cipher timestamp_to_ms vap).
Abbreviation delba_req := (mtlk_sta_delba_req clock group_cipher timestamp_to_ms vap).
Abbreviation flush := (_mtlk_sta_flush group_cipher time_after ms_to_timestamp).
Abbreviation start := (_mtlk_sta_start clock group_cipher timestamp_to_ms vap).
Abbreviation stop := (_mtlk_sta_stop clock group_cipher timestamp_to_ms vap).
Abbreviation destroy := (_mtlk_sta_destroy_rod_queue group_cipher).

(** The transport, and the other peers at the two shared limiters. *)
Inductive around : world T -> world T -> Prop :=
| around_transport w t' : tx_ok t' -> (forall m, tx_in_flight t' m = flight w m) -> around w (set_txmm t' w)
| around_limits w a r : around w (set_aggr_reflim a (set_reord_reflim r w)).

(** Steps, with the packets they bring. *)
Inductive sta_step : list (Z * mtlk_nbuf_t) -> sta_entry T -> sta_entry T -> Prop :=
| sta_step_call env c s : call_sane c -> sta_step [] s (sta_call env c s)
| sta_step_answer env m c p0 p b w t' s :
    valid_tid (msg_tid m) -> flight (addba_peer s) m = Some (c, p0) -> answered p0 p ->
    released (tx_ok := tx_ok) m (w_txmm (addba_peer s)) t' -> ~ late_answer (addba_peer s) c p ->
    w = exec (run_clb clock c p b) (no_out (addba_peer s)) ->
    sta_step [] s (deliver env (w_out w) (sta_set_peer (no_out (set_txmm t' w)) s))
| sta_step_around s w' : around (addba_peer s) w' -> sta_step [] s (sta_set_peer w' s)
| sta_step_update_tx env tid s : valid_tid tid -> sta_step [] s (update_tx env tid s)
| sta_step_revive env s : sta_step [] s (revive env s)
| sta_step_pm env b s : sta_step [] s (set_pm env b s)
| sta_step_filter f s : sta_step [] s (mtlk_sta_set_packets_filter f s)
| sta_step_flush env s : sta_step [] s (flush env s)
| sta_step_zero s : sta_step [] s (mtlk_sta_zero_rod_reply_counters s)
| sta_step_delba env tid s : tid = -1 \/ valid_tid tid -> sta_step [] s (delba_req env tid s)
| sta_step_rx env tid seq nb aggregated s : valid_tid tid -> 0 <= seq < 4096 ->
    sta_step [(tid, nb)] s (rx_directed env tid seq nb aggregated s)
| sta_step_bar env tid ssn s : 0 <= tid -> 0 <= ssn < 4096 -> sta_step [] s (handle_bar env tid ssn s).2.

(** The packets of a step, TID by TID. *)
Definition bring (l : list (Z * mtlk_nbuf_t)) pk : given := fun tid => (filter (fun p => p.1 = tid) l).*2 ++ pk tid.

(** A station from [_mtlk_sta_start] on. *)
Inductive sta_reach : given -> sta_entry T -> Prop :=
| sta_reach_start env n addr w : tx_ok (w_txmm w) -> (forall m, tx_in_flight (w_txmm w) m = None) ->
    0 <= w_next_dlg_token w < 255 -> sta_reach (fun _ => []) (start env n addr (sta_init w))
| sta_reach_step pk s l s' : sta_reach pk s -> sta_step l s s' -> sta_reach (bring l pk) s'.

(** ** Start *)

Lemma zeroed_tid w tid : valid_tid tid -> tid_of (addba_peer (sta_init w)) tid = Tid (tx_set_ts_id MTLK_TS_ID_INVALID zero_tx) zero_rx.
Proof. intros Ht. by destruct (valid_tid_cases tid Ht) as [->|[->|[->|[->|[->|[->|[->| ->]]]]]]]. Qed.

Lemma init_sinv w : tx_ok (w_txmm w) -> (forall m, tx_in_flight (w_txmm w) m = None) -> 0 <= w_next_dlg_token w < 255 ->
  sinv (addba_peer (sta_init w)).
Proof.
  intros Hok Hn Hd tid Ht.
  split; try done; try (intros t' Ht'; unfold tx_of, rx_of; rewrite ?zeroed_tid by done).
  - change (flight _ _) with (tx_in_flight (w_txmm w) (TxMsg t')). by rewrite Hn.
  - change (flight _ _) with (tx_in_flight (w_txmm w) (RxMsg t')). by rewrite Hn.
  - done.
  - unfold rx_of. by rewrite zeroed_tid.
Qed.

Lemma boot_holds : rod_holds [] rod_boot.
Proof. split; [apply rod_boot_ok|done]. Qed.

Lemma replicate_total {A} `{!Inhabited A} (x : A) tid : valid_tid tid -> replicate NTS_TIDS x !!! Z.to_nat tid = x.
Proof. intros Ht. apply lookup_total_replicate_2. by apply valid_nat. Qed.

Lemma init_inv w : tx_ok (w_txmm w) -> (forall m, tx_in_flight (w_txmm w) m = None) -> 0 <= w_next_dlg_token w < 255 ->
  sta_inv (fun _ => []) (sta_init w).
Proof.
  intros Hok Hn Hd. split; [by apply init_sinv|done| | |done|done].
  - intros tid Ht. assert (rod_of (sta_init w) tid = rod_boot) as -> by exact (replicate_total rod_boot tid Ht).
    split; [apply boot_holds|done].
  - intros tid Ht. assert (inited_of (sta_init w) tid = false) as Hi by exact (replicate_total false tid Ht).
    unfold phase_of, tx_of. rewrite zeroed_tid by done. split; [|by apply not_elem_of_nil]. by rewrite Hi.
Qed.

(** Changes that no half depends on. *)
Lemma inv_fields pk s s' : sta_inv pk s -> addba_peer s' = addba_peer s -> rod_queue s' = rod_queue s ->
  length (tx_packets s') = NTS_TIDS -> aggr_inited s' = aggr_inited s -> scheduled s' = scheduled s ->
  asserts s' = asserts s -> sta_inv pk s'.
Proof.
  intros [H1 (W1 & W2 & W3) H3 H4 H5 H6] E1 E2 E3 E4 E5 E6. split; rewrite ?E1, ?E5, ?E6; try done.
  - unfold sta_wf. by rewrite E2, E4.
  - intros tid Ht. unfold rod_of. rewrite E2. by apply H3.
  - intros tid Ht. unfold tx_half, inited_of, pending_of. rewrite E4, E5, E6. by apply H4.
Qed.

(** A start on a station whose TIDs are all idle. *)
Lemma start_inv pk env n addr s : sta_inv pk s -> (forall tid, valid_tid tid -> inited_of s tid = false) ->
  sta_inv pk (start env n addr s).
Proof.
  intros Hi Hf. unfold _mtlk_sta_start. set (s1 := sta_set_ps _ _).
  assert (sta_inv pk s1) as H1.
  { destruct Hi as [H1 (W1 & W2 & W3) H3 H4 H5 H6]. split; try done.
    - unfold sta_wf. cbn. by rewrite !length_fmap.
    - intros tid Ht. destruct (H4 tid Ht) as [Hfl Ha]. split; [|done]. rewrite (Hf tid Ht) in Hfl.
      assert (inited_of s1 tid = false) as ->; [|done].
      unfold inited_of. cbn. rewrite fmap_total; [done|]. rewrite W3. by apply valid_nat. }
  pose proof (sta_call_inv clock group_cipher time_after ms_to_timestamp timestamp_to_ms vap pk env (CPeerStart addr n) s1 (conj I I) H1) as H2.
  set (s2 := sta_call env (CPeerStart addr n) s1) in *. apply (inv_fields pk s2); try done. cbn. rewrite length_fmap. apply H2.
Qed.

(** ** Steps *)

Abbreviation step_call_inv := (sta_call_inv clock group_cipher time_after ms_to_timestamp timestamp_to_ms vap).
Abbreviation step_with_inv := (with_addba_inv group_cipher time_after ms_to_timestamp timestamp_to_ms vap).

Lemma around_inv pk s w' : around (addba_peer s) w' -> sta_inv pk s -> sta_inv pk (sta_set_peer w' s).
Proof.
  intros Ha Hi. pose proof Hi as [H1 H2 H3 H4 H5 H6].
  assert (sinv w' /\ w_tid w' = w_tid (addba_peer s)) as [Hs Ht].
  { destruct Ha as [w t' Hok Hf|w a r]; (split; [|done]); apply (sinv_ext w); try done. exact (sinv_ok w H1). }
  assert (forall tid, tid_of w' tid = tid_of (addba_peer s) tid) as E by (intros; unfold tid_of; by rewrite Ht).
  split; try done; intros tid Hv; unfold active_of, phase_of, rx_of, tx_of; cbn; rewrite E; [by apply H3|by apply H4].
Qed.

Lemma answer_inv pk env m c p0 p b w t' s :
  valid_tid (msg_tid m) -> flight (addba_peer s) m = Some (c, p0) -> answered p0 p ->
  released (tx_ok := tx_ok) m (w_txmm (addba_peer s)) t' -> ~ late_answer (addba_peer s) c p ->
  w = exec (run_clb clock c p b) (no_out (addba_peer s)) ->
  sta_inv pk s -> sta_inv pk (deliver env (w_out w) (sta_set_peer (no_out (set_txmm t' w)) s)).
Proof.
  intros Hm Hf Ha Hr Hl -> Hi. pose proof (no_out_sinv _ (st_peer _ _ Hi)) as Hs.
  destruct (late_held _ c p0 p m Hm Hs Hf Ha Hl) as [Hv Hh].
  destruct (run_clb_rep clock c p b (no_out (addba_peer s)) (sinv_wf _ Hs) Hv) as [es R].
  { intros Hc E. specialize (Hh Hc). by rewrite E in Hh. }
  rewrite (rp_out _ _ _ R). cbn [no_out w_out app].
  apply (run_inv group_cipher time_after ms_to_timestamp timestamp_to_ms vap pk env s es
    (set_txmm t' (exec (run_clb clock c p b) (no_out (addba_peer s))))); [done|by destruct R|by eapply answer_sinv].
Qed.

Lemma inited_of_set b t tid s : sta_wf s -> valid_tid t -> valid_tid tid ->
  inited_of (sta_set_inited (<[Z.to_nat t := b]> (aggr_inited s)) s) tid = if t =? tid then b else inited_of s tid.
Proof.
  intros (_ & _ & Hl) Ht Htid. unfold inited_of. cbn [sta_set_inited aggr_inited]. rewrite !list_lookup_total_alt. case_match; zbool.
  - subst. rewrite list_lookup_insert_eq; [done|]. rewrite Hl. by apply valid_nat.
  - rewrite list_lookup_insert_ne; [done|]. by apply valid_inj.
Qed.

(** A change of the flags and of the scheduled tasks alone. *)
Lemma inv_tx pk s s' : sta_inv pk s -> addba_peer s' = addba_peer s -> rod_queue s' = rod_queue s -> sta_wf s' ->
  asserts s' = asserts s -> Forall valid_tid (scheduled s') ->
  (forall tid, valid_tid tid -> flags_ok (inited_of s tid) (pending_of s tid) (phase_of (addba_peer s) tid) ->
     flags_ok (inited_of s' tid) (pending_of s' tid) (phase_of (addba_peer s) tid)) ->
  sta_inv pk s'.
Proof.
  intros [H1 H2 H3 H4 H5 H6] E1 E2 Hw E3 Hs Hf. split; rewrite ?E1, ?E3; try done.
  - intros tid Ht. unfold rod_of. rewrite E2. by apply H3.
  - intros tid Ht. destruct (H4 tid Ht) as [Hfl Ha]. split; [by apply Hf|by rewrite E3].
Qed.

Lemma schedule_spec env tid s : let s' := _mtlk_sta_schedule_aggregation_revival_tid env tid s in
  addba_peer s' = addba_peer s /\ rod_queue s' = rod_queue s /\ (sta_wf s -> sta_wf s') /\ asserts s' = asserts s /\
  aggr_inited s' = aggr_inited s /\ (valid_tid tid -> Forall valid_tid (scheduled s) -> Forall valid_tid (scheduled s')) /\
  exists k, 0 <= k <= 1 /\ forall t, pending_of s' t = pending_of s t + if tid =? t then k else 0.
Proof.
  unfold _mtlk_sta_schedule_aggregation_revival_tid. case_match; (split_and!; try done).
  - intros Ht Hs. apply Forall_app. split; [done|by constructor].
  - exists 1. split; [done|]. intros t. unfold pending_of at 1. cbn [sta_set_scheduled scheduled]. rewrite pending_app, Z.eqb_sym.
    by destruct (tid =? t).
  - exists 0. split; [done|]. intros t. destruct (tid =? t); lia.
Qed.

Lemma update_tx_inv pk env tid s : valid_tid tid -> sta_inv pk s -> sta_inv pk (update_tx env tid s).
Proof.
  intros Ht Hi. pose proof (st_wf _ _ Hi) as Hw. unfold mtlk_sta_update_tx. case_match eqn:Hc; [|done]. zbool.
  set (n := u32 _). cbv zeta. case_match.
  - set (s1 := sta_set_tx (<[Z.to_nat tid:=0]> _) _).
    assert (sta_wf s1) as Hw1 by (destruct Hw as (W1 & W2 & W3); unfold sta_wf; cbn; by rewrite !length_insert).
    pose proof (fun t Hv => inited_of_set true tid t s1 Hw1 Ht Hv) as Hin.
    set (s2 := sta_set_inited _ s1) in *. destruct (schedule_spec env tid s2) as (E1 & E2 & E3 & E4 & E5 & E7 & k & Hk & E6).
    apply (inv_tx pk s); [done..|apply E3|done|apply E7; [done|apply Hi]|].
    { destruct Hw1 as (W1 & W2 & W3). unfold sta_wf. cbn in *. by rewrite !length_insert in *. }
    intros t Hv Hf. unfold inited_of at 1. rewrite E5. fold (inited_of s2 t). rewrite E6, Hin by done.
    change (inited_of s1 t) with (inited_of s t). change (pending_of s2 t) with (pending_of s t).
    destruct (tid =? t) eqn:E; zbool; [|by rewrite Z.add_0_r]. subst t.
    destruct Hf as [Hf _]. destruct Hf as (F1 & F2 & F3); [by destruct (inited_of s tid)|]. split; [done|].
    rewrite F1, F2, F3. cbn. lia.
  - apply (inv_fields pk s); try done. cbn. rewrite length_insert. apply Hw.
Qed.

(** Taking a task off the serializer's list. *)
Lemma unschedule_inv pk tid rest s : sta_inv pk s -> scheduled s = tid :: rest -> let s' := sta_set_scheduled rest s in
  valid_tid tid /\ sta_inv pk s' /\ inited_of s' tid = true /\ pending_of s' tid = 0 /\
  phase_of (addba_peer s) tid = Ph false false.
Proof.
  intros Hi Es s'. pose proof (st_scheduled _ _ Hi) as Hv. rewrite Es in Hv. apply Forall_cons in Hv as [Hv Hr].
  assert (forall t, pending_of s t = pending_of s' t + Z.b2z (t =? tid)) as Hp.
  { intros t. unfold pending_of. rewrite Es. unfold countb. cbn [sta_set_scheduled scheduled s' foldr]. lia. }
  assert (forall t, 0 <= pending_of s' t) as Hn by (intros t; apply countb_range).
  split; [done|]. split; [|].
  - apply (inv_tx pk s); try done; [apply Hi|]. intros t _ [F1 F2]. change (inited_of s' t) with (inited_of s t).
    rewrite Hp in *. pose proof (Hn t). split; [|destruct (t =? tid); cbn in *; lia].
    intros Hf. destruct (F1 Hf) as (? & ? & ?). split_and!; try done. destruct (t =? tid); cbn in *; lia.
  - destruct (st_tx _ _ Hi tid Hv) as [[F1 F2] _]. change (inited_of s' tid) with (inited_of s tid).
    rewrite Hp, Z.eqb_refl in *. specialize (Hn tid). destruct (phase_of (addba_peer s) tid) as [b r]. cbn in *.
    destruct (inited_of s tid); [|destruct F1 as (_ & _ & ?); [done|lia]].
    destruct b, r; cbn in *; split_and!; try done; lia.
Qed.

Lemma revive_inv pk env s : sta_inv pk s -> sta_inv pk (revive env s).
Proof.
  intros Hi. unfold _mtlk_stadb_on_addba_revive_aggregation_tid. destruct (scheduled s) as [|tid rest] eqn:Es; [done|].
  destruct (unschedule_inv pk tid rest s Hi Es) as (Ht & Hi' & H1 & H2 & H3). set (s' := sta_set_scheduled rest s) in *.
  pose proof (no_out_sinv _ (st_peer _ _ Hi')) as Hs.
  destruct (start_negotiation_rep tid (ps_mode_enabled s) (no_out (addba_peer s')) (sinv_wf _ Hs) Ht) as (A1 & (es & A2 & A3) & A4 & A5 & A6 & _).
  pose proof (run_call_sinv clock (fun _ _ => 0) (CStartNegotiation tid (ps_mode_enabled s)) Ht _ Hs) as A7.
  cbn [run_call] in A7. unfold Sta.with_addba. unfold exec in *.
  destruct (mtlk_addba_peer_start_aggr_negotiation tid (ps_mode_enabled s) (no_out (addba_peer s'))) as [a w]. cbn [snd] in *.
  rewrite A2. cbn [no_out w_out app]. rewrite deliver_plain by done. pose proof Hi' as [_ I2 I3 I4 I5 I6].
  split; try done.
  - by apply no_out_sinv.
  - intros t Hv. change (active_of _ t) with (active_of w t). rewrite A4 by done. by apply I3.
  - intros t Hv. change (phase_of (addba_peer (sta_set_peer (no_out w) s')) t) with (phase_of w t).
    destruct (decide (t = tid)) as [->|Hne]; [|rewrite A5 by done; by apply I4].
    apply (half_set _ _ (phase_of (addba_peer s') tid)); [done|done|by apply I4|].
    rewrite A6. change (phase_of (no_out (addba_peer s')) tid) with (phase_of (addba_peer s) tid). rewrite H3. by destruct (busy _).
Qed.

(** ** Power save *)

Lemma reset_ps_spec tid w : wf w -> valid_tid tid ->
  let w' := exec (mtlk_addba_peer_reset_power_save tid) w in
  (exists es, w_out w' = w_out w ++ es /\ Forall (fun e => ev_plain e = true) es) /\
  (eval (mtlk_addba_peer_reset_power_save tid) w = true ->
   busy (phase_of w tid) = true /\ phase_of w' tid = Ph false (backoff (phase_of w tid))).
Proof.
  intros Hw Ht w'.
  assert (eval (mtlk_addba_peer_reset_power_save tid) w = true -> tx_state (tx_of w tid) = MTLK_ADDBA_TX_STA_POWER_SAVE) as He.
  { unfold eval, mtlk_addba_peer_reset_power_save, mtlk_assert, when, mbind, st_bind, gets, get_tx, ev, modify, mret, st_ret.
    destruct (w_is_active w), (tid_ok tid); cbn -[decide]; by case_decide. }
  unfold w'. split.
  - unfold mtlk_addba_peer_reset_power_save. run.
    all: eexists; split; [rewrite <-?app_assoc; first [reflexivity|by rewrite app_nil_r]|by repeat constructor].
  - intros Hr. specialize (He Hr). clear Hr.
    unfold mtlk_addba_peer_reset_power_save. run; try done.
    all: unfold phase_of, tx_phase; tid_simpl w tid Hw Ht; unfold tx_of, tid_of in He; rewrite ?He; done.
Qed.

Lemma exit_ps_tid_inv pk env tid s : valid_tid tid -> sta_inv pk s -> sta_inv pk (exit_ps_tid env tid s).
Proof.
  intros Ht Hi. unfold Sta.exit_ps_tid. destruct (inited_of s tid) eqn:Ei; [|done].
  assert (sta_inv pk (with_addba env (mtlk_addba_peer_reset_power_save tid) s).2) as Hi'.
  { apply step_with_inv; [done|]. intros w _ Hs. split; [|by apply (within_keeps tid _ Ht), Hs; apply reset_ps_sinv].
    apply reset_ps_rep; [done|]. exact (sinv_wf w Hs). }
  pose proof (no_out_sinv _ (st_peer _ _ Hi)) as Hs.
  destruct (reset_ps_spec tid (no_out (addba_peer s)) (sinv_wf _ Hs) Ht) as [(es & A1 & A2) A3].
  revert Hi'. unfold Sta.with_addba. unfold exec, eval in A1, A3.
  destruct (mtlk_addba_peer_reset_power_save tid (no_out (addba_peer s))) as [was_ps w]. cbn [fst snd] in *.
  rewrite A1. cbn [no_out w_out app]. rewrite deliver_plain by done. destruct was_ps; [|done].
  destruct (A3 eq_refl) as [B1 B2]. intros Hi'. set (s' := sta_set_peer (no_out w) s) in *.
  pose proof (st_wf _ _ Hi') as Hw. apply (inv_tx pk s'); try done; [by apply clear_wf|apply Hi'|].
  intros t Hv Hf. rewrite inited_of_clear by done. destruct (tid =? t) eqn:E; zbool; [subst t|done].
  change (pending_of (clear_counter tid s') tid) with (pending_of s tid).
  change (phase_of (addba_peer s') tid) with (phase_of w tid). rewrite B2.
  change (phase_of (no_out (addba_peer s)) tid) with (phase_of (addba_peer s) tid) in *.
  pose proof (st_tx _ _ Hi tid Ht) as Hh. destruct (phase_of (addba_peer s) tid) as [b r]. cbn in B1. subst b.
  destruct (half_busy _ _ _ Hh) as (_ & -> & ->). by split.
Qed.

Lemma foldl_inv {A} pk (f : sta_entry T -> A -> sta_entry T) l s : (forall s x, x ∈ l -> sta_inv pk s -> sta_inv pk (f s x)) ->
  sta_inv pk s -> sta_inv pk (foldl f s l).
Proof.
  revert s. induction l as [|x l IH]; intros s Hf Hi; [done|]. cbn. apply IH; [|by apply Hf; [left|]].
  intros s' y Hy. apply Hf. by right.
Qed.

Lemma set_pm_inv pk env b s : sta_inv pk s -> sta_inv pk (set_pm env b s).
Proof.
  intros Hi. unfold mtlk_sta_set_pm_enabled. assert (sta_inv pk (sta_set_ps b s)) as Hi' by (apply (inv_fields pk s); try done; apply Hi).
  destruct b; [done|]. apply foldl_inv; [|done]. intros s' t Ht. apply exit_ps_tid_inv. by apply all_tids_valid.
Qed.

Lemma set_filter_inv pk f s : sta_inv pk s -> sta_inv pk (mtlk_sta_set_packets_filter f s).
Proof.
  intros Hi. unfold mtlk_sta_set_packets_filter. case_decide; [|done]. apply (inv_fields pk s); try done. cbn.
  rewrite length_fmap. apply Hi.
Qed.

(** ** The queues *)

Lemma holds_meta l f (w : rod) : (forall r, used (f r) = used r /\ count (f r) = count r /\ head (f r) = head r /\
    window_size (f r) = window_size r /\ nbuf (f r) = nbuf r /\ wss (f r) = wss r) ->
  rod_holds l w -> rod_holds l (upd f w) /\ used (q (upd f w)) = used (q w).
Proof.
  intros Hf [[Hr Hw] [H1 H2]]. destruct (Hf (q w)) as (E1 & E2 & E3 & E4 & E5 & E6).
  split; [|done]. split; [split|split; [done|]].
  - destruct Hr as [[[] Hh]|(Hu & Hl & He)]; [left|right]; cbn [upd q].
    + split; [|by rewrite E3]. split; rewrite ?E1, ?E2, ?E3, ?E4, ?E5; try done. intros i Hi. unfold slot_at. rewrite E5. by apply on_high.
    + rewrite E1, E5. split_and!; try done. intros i Hi. unfold slot_at. rewrite E5. by apply He.
  - unfold wss_ok. cbn [upd q wss_live]. by rewrite E1, E6.
  - unfold window. cbn [upd q log]. by rewrite E5.
Qed.

(** Changes of the queues alone. *)
Lemma inv_rods pk pk' s l : sta_inv pk s -> length l = NTS_TIDS ->
  (forall tid, valid_tid tid -> rod_half (pk tid) (active_of (addba_peer s) tid) (rod_of s tid) ->
     rod_half (pk' tid) (active_of (addba_peer s) tid) (l !!! Z.to_nat tid)) ->
  sta_inv pk' (sta_set_rods l s).
Proof.
  intros [H1 (W1 & W2 & W3) H3 H4 H5 H6] Hl Hf. split; try done.
  intros tid Ht. apply Hf; [done|]. by apply H3.
Qed.

Lemma inv_all_rods pk s f : sta_inv pk s -> (forall tid r, rod_half (pk tid) (active_of (addba_peer s) tid) r ->
    rod_half (pk tid) (active_of (addba_peer s) tid) (f r)) -> sta_inv pk (sta_set_rods (f <$> rod_queue s) s).
Proof.
  intros Hi Hf. destruct (st_wf _ _ Hi) as (W1 & _). apply (inv_rods pk); [done|by rewrite length_fmap|].
  intros tid Ht Hh. rewrite fmap_total; [by apply Hf|]. rewrite W1. by apply valid_nat.
Qed.

Abbreviation exec_op := (exec_op group_cipher time_after ms_to_timestamp timestamp_to_ms).

(** Traffic does not put a queue in use. *)
Lemma traffic_half now op l active r : is_traffic op = true -> rod_half l active r ->
  rod_half (op_packets op ++ l) active (exec_op now op r).
Proof.
  intros Ht [Hh Hu]. assert (op_ok r op) as Hop by (destruct op; try done; cbn in Ht |- *; zbool; lia).
  split; [by apply exec_op_holds|]. destruct Hh as [[Hr _] _]. intros Hn. apply Hu. intros E. apply Hn.
  destruct op; try done; cbn [RodThms.exec_op op_ok] in *.
  - destruct (reorder_packet_spec group_cipher now seq nb r Hr Hop) as [_ H2]. by rewrite (takes_used _ _ _ H2).
  - destruct (process_bar_spec group_cipher now ssn r Hr) as [_ H2]. by rewrite (takes_used _ _ _ H2).
  - destruct (timer_spec group_cipher time_after ms_to_timestamp now r Hr) as [_ H2]. by rewrite (takes_used _ _ _ H2).
Qed.

Lemma flush_inv pk env s : sta_inv pk s -> sta_inv pk (flush env s).
Proof. intros Hi. apply inv_all_rods; [done|]. intros tid r Hh. by apply (traffic_half (env_now env) OpTimer). Qed.

Lemma zero_inv pk s : sta_inv pk s -> sta_inv pk (mtlk_sta_zero_rod_reply_counters s).
Proof.
  intros Hi. apply inv_all_rods; [done|]. intros tid r [Hh Hu].
  destruct (holds_meta (pk tid) mtlk_rod_queue_clear_reply_counter r) as [H1 H2]; [done..|]. split; [done|]. by rewrite H2.
Qed.

Lemma one_rod_inv pk pk' s tid f : sta_inv pk s -> valid_tid tid -> (forall t, t <> tid -> pk' t = pk t) ->
  (forall r, rod_half (pk tid) (active_of (addba_peer s) tid) r -> rod_half (pk' tid) (active_of (addba_peer s) tid) (f r)) ->
  sta_inv pk' (sta_upd_rod tid f s).
Proof.
  intros Hi Ht Hpk Hf. destruct (st_wf _ _ Hi) as (W1 & W23). apply (inv_rods pk); [done|by rewrite length_alter|].
  intros t Hv Hh. pose proof (rod_of_upd s tid t f (conj W1 W23) Ht Hv) as E. unfold rod_of at 1 in E. cbn [sta_upd_rod rod_queue] in E.
  rewrite E.  clear E.
  destruct (tid =? t) eqn:E; zbool; [subst; by apply Hf|]. by rewrite Hpk.
Qed.

(** ** Frames *)

Lemma reorder_inv pk env tid seq nb s : valid_tid tid -> 0 <= seq < 4096 -> sta_inv pk s ->
  sta_inv (give tid nb pk) (reorder env tid seq nb s).2.
Proof.
  intros Ht Hs Hi. unfold mtlk_sta_reorder_packet. set (r0 := upd _ _).
  destruct (mtlk_reorder_packet group_cipher (env_now env) seq nb r0) as [res r] eqn:E. cbn [snd].
  assert (r = exec_op (env_now env) (OpPacket seq nb) r0) as Er by (cbn [RodThms.exec_op]; by rewrite E).
  assert (rod_half (give tid nb pk tid) (active_of (addba_peer s) tid) r) as Hr.
  { unfold give. rewrite Z.eqb_refl, Er. apply (traffic_half _ (OpPacket seq nb)); [cbn; rewrite !andb_true_iff, Z.leb_le, Z.ltb_lt; lia|].
    destruct (st_rod _ _ Hi tid Ht) as [Hh Hu].
    destruct (holds_meta (pk tid) (mtlk_rod_queue_set_last_rx_time (timestamp_to_ms (env_now env))) (rod_of s tid)) as [H1 H2]; [done..|].
    split; [done|]. unfold r0. by rewrite H2. }
  apply (one_rod_inv pk); [done|done| |by intros].
  intros t Hne. unfold give. by rewrite (proj2 (Z.eqb_neq _ _)).
Qed.

Lemma rx_inv pk env tid seq nb aggregated s : valid_tid tid -> 0 <= seq < 4096 -> sta_inv pk s ->
  sta_inv (give tid nb pk) (rx_directed env tid seq nb aggregated s).
Proof.
  intros Ht Hs Hi. pose proof (reorder_inv pk env tid seq nb s Ht Hs Hi) as H1. unfold Sta.rx_directed.
  destruct (reorder env tid seq nb s) as [res s1]. cbn [snd] in H1. destruct (negb res && aggregated); [|done].
  apply step_call_inv; [|done]. split; [|done]. unfold valid_tid in Ht. cbn. lia.
Qed.

Lemma bar_inv pk env tid ssn s : 0 <= tid -> 0 <= ssn < 4096 -> sta_inv pk s -> sta_inv pk (handle_bar env tid ssn s).2.
Proof.
  intros Ht Hs Hi. unfold Sta.mtlk_handle_bar. case_match; [done|]. zbool. unfold mtlk_sta_process_bar.
  assert (sta_inv pk (sta_call env (CBar tid) s)) as H1 by (by apply step_call_inv).
  set (s1 := sta_call env (CBar tid) s) in *. assert (valid_tid tid) as Hv by (unfold valid_tid, NTS_TIDS in *; lia).
  destruct (mtlk_rod_process_bar group_cipher (env_now env) ssn (rod_of s1 tid)) as [res r] eqn:E. cbn [snd].
  assert (r = exec_op (env_now env) (OpBar ssn) (rod_of s1 tid)) as Er by (cbn [RodThms.exec_op]; by rewrite E).
  apply (one_rod_inv pk); [done..|]. intros _ _. rewrite Er.
  apply (traffic_half _ (OpBar ssn)); [cbn; rewrite !andb_true_iff, Z.leb_le, Z.ltb_lt; lia|by apply (st_rod _ _ H1)].
Qed.

Lemma delba_inv pk env tid s : tid = -1 \/ valid_tid tid -> sta_inv pk s -> sta_inv pk (delba_req env tid s).
Proof.
  intros Ht Hi. unfold mtlk_sta_delba_req. apply foldl_inv; [|done]. intros s' t Hin Hs'. apply step_call_inv; [|done].
  split; [|done]. case_match; zbool; [by apply all_tids_valid|]. apply list_elem_of_singleton in Hin. subst. by destruct Ht.
Qed.

Lemma inv_given pk pk' s : (forall tid, pk' tid = pk tid) -> sta_inv pk s -> sta_inv pk' s.
Proof. intros E [H1 H2 H3 H4 H5 H6]. split; try done. intros tid Ht. rewrite E. by apply H3. Qed.

Lemma step_inv pk l s s' : sta_step l s s' -> sta_inv pk s -> sta_inv (bring l pk) s'.
Proof.
  intros Hstep Hi. destruct Hstep.
  all: first [apply (inv_given pk); [done|] | apply (inv_given (give tid nb pk))].
  - by apply step_call_inv.
  - by eapply answer_inv.
  - by apply around_inv.
  - by apply update_tx_inv.
  - by apply revive_inv.
  - by apply set_pm_inv.
  - by apply set_filter_inv.
  - by apply flush_inv.
  - by apply zero_inv.
  - by apply delba_inv.
  - intros t. unfold give, bring. destruct (decide (t = tid)) as [->|Hne].
    + by rewrite Z.eqb_refl, filter_cons_True.
    + rewrite (proj2 (Z.eqb_neq t tid)) by done. rewrite filter_cons_False; [done|]. cbn. congruence.
  - by apply rx_inv.
  - by apply bar_inv.
Qed.

Lemma sta_reach_inv pk s : sta_reach pk s -> sta_inv pk s.
Proof.
  intros H. induction H as [env n addr w Hok Hn Hd|pk s l s' H IH Hstep].
  - apply start_inv; [by apply init_inv|]. intros tid Ht. exact (replicate_total false tid Ht).
  - by apply (step_inv pk l s s').
Qed.
End StaSys.
