(* ===== verification/StaThms.v ===== *)
(** * StaThms: the properties of a connected station *)
From S2P Require Import Prelude Reflim TxmmIface Addba AddbaAcct AddbaInv AddbaOps AddbaSys Replay.
From S2P Require Import Rod RodInv RodThms Sta StaRep StaInv StaSys.
From Stdlib Require Import Permutation.

Section StaThms.
Context {T : Type} {ops : TxmmOps T addba_msg addba_clb addba_payload} {tx_ok : T -> Prop}.
Context {laws : TxmmLaws T addba_msg addba_clb addba_payload tx_ok}.
Context (clock : nat -> Z).
Context (group_cipher : Z -> Z) (time_after : Z -> Z -> bool) (ms_to_timestamp timestamp_to_ms : Z -> Z).
Context (vap : Z) (aggr_open_threshold : Z).
Implicit Types (s : sta_entry T) (env : sta_env) (pk : given) (w : world T).
Abbreviation sinv := (sinv (tx_ok := tx_ok)).
Abbreviation sta_inv := (sta_inv (tx_ok := tx_ok)).
Abbreviation sta_reach := (sta_reach (tx_ok := tx_ok) clock group_cipher time_after ms_to_timestamp timestamp_to_ms vap aggr_open_threshold).
Abbreviation sta_step := (sta_step (tx_ok := tx_ok) clock group_cipher time_after ms_to_timestamp timestamp_to_ms vap aggr_open_threshold).
Abbreviation deliver := (deliver group_cipher timestamp_to_ms vap).
Abbreviation with_addba := (with_addba group_cipher timestamp_to_ms vap).
Abbreviation addba_api := (addba_api group_cipher timestamp_to_ms vap).
Abbreviation update_tx := (mtlk_sta_update_tx aggr_open_threshold).
Abbreviation revive := (_mtlk_stadb_on_addba_revive_aggregation_tid group_cipher timestamp_to_ms vap).
Abbreviation stop := (_mtlk_sta_stop clock group_cipher timestamp_to_ms vap).
Abbreviation destroy := (_mtlk_sta_destroy_rod_queue group_cipher).
Abbreviation sta_reach_inv := (sta_reach_inv clock group_cipher time_after ms_to_timestamp timestamp_to_ms vap aggr_open_threshold).

(** C20. The eight reordering queues of a station follow its block ack
    agreements, from the start of a new station on ([sta_reach]) and as long as
    the peer asks for windows of 0 to 64 with 12-bit sequence numbers
    ([call_sane]; [FrameSta.frame_window_overruns] is the other case), what is
    received carries 12-bit numbers, and no answer to an ADDBA request comes
    after its refusal: no queue leaves its array or uses a deleted statistics
    object; each packet received for a TID is, exactly once, handed up, freed,
    or waiting in that TID's window; and a queue is in use only while the ADDBA
    peer is in a state in which reordering runs. *)
Theorem sta_reorder_queues pk s tid : sta_reach pk s -> valid_tid tid ->
  let r := rod_of s tid in
  rod_ok r /\ faults (log r) = 0 /\ window (q r) ++ gone (log r) ≡ₚ pk tid /\
  (used (q r) <> 0 -> rx_reordering (rx_state (rx_of (addba_peer s) tid)) = true).
Proof.
  intros Hr Ht. pose proof (sta_reach_inv pk s Hr) as Hi. destruct (st_rod _ _ Hi tid Ht) as [(H1 & H2 & H3) H4].
  split; [done|split; [done|split; [done|]]]. intros Hu. specialize (H4 Hu). unfold active_of in H4.
  destruct (sa_at _ _ _ (st_peer _ _ Hi tid Ht)) as [<- _]. done.
Qed.

Lemma count_nodup tid l : countb (Z.eqb tid) l <= 1 -> NoDup (filter (fun t => t = tid) l).
Proof.
  induction l as [|t l IH]; intros Hl; [constructor|]. unfold countb in Hl. cbn [foldr] in Hl. fold (countb (Z.eqb tid) l) in Hl.
  pose proof (countb_range (Z.eqb tid) l). rewrite filter_cons. case_decide as E.
  - subst t. rewrite Z.eqb_refl in Hl. cbn in Hl. constructor; [|apply IH; lia]. intros Hin. apply list_elem_of_filter in Hin as [_ Hin].
    apply list_elem_of_lookup in Hin as [i Hin]. pose proof (countb_pos (Z.eqb tid) _ _ _ Hin (Z.eqb_refl tid)). lia.
  - apply IH. destruct (Z.eqb_spec tid t); cbn in Hl; [congruence|lia].
Qed.

(** C21. The flags that start aggregation do not go wrong during the first
    connection of a new station ([sta_reach]: no revival task is left from an
    earlier connection), with a peer that keeps to [call_sane] and no answer to
    an ADDBA request after its refusal: no callback's assertion about them
    fails, a TID whose flag is clear has no negotiation, aggregation or
    back-off, and no revival scheduled, and a scheduled revival is the only one
    and excludes the others. *)
Theorem sta_aggr_flags pk s tid : sta_reach pk s -> valid_tid tid ->
  let x := tx_of (addba_peer s) tid in
  asserts s = [] /\
  (inited_of s tid = false -> tx_state x = MTLK_ADDBA_TX_NONE /\ tx_reject_state x = false /\ tid ∉ scheduled s) /\
  (tid ∈ scheduled s -> tx_state x = MTLK_ADDBA_TX_NONE /\ tx_reject_state x = false /\ NoDup (filter (fun t => t = tid) (scheduled s))).
Proof.
  intros Hr Ht x. pose proof (sta_reach_inv pk s Hr) as Hi. split; [by eapply no_assert|].
  destruct (st_tx _ _ Hi tid Ht) as [[F1 F2] _]. unfold phase_of, tx_phase in *. fold x in F1, F2. cbn [busy backoff] in *.
  assert (not_none (tx_state x) = false -> tx_state x = MTLK_ADDBA_TX_NONE) as Hnone by (by destruct (tx_state x)).
  split.
  - intros Hf. destruct (F1 Hf) as (G1 & G2 & G3). split; [auto|split; [done|]]. intros Hin.
    apply list_elem_of_lookup in Hin as [i Hin]. pose proof (countb_pos (Z.eqb tid) _ _ _ Hin (Z.eqb_refl tid)).
    unfold pending_of in G3. lia.
  - intros Hin. pose proof Hin as Hin'. apply list_elem_of_lookup in Hin' as [i Hi'].
    pose proof (countb_pos (Z.eqb tid) _ _ _ Hi' (Z.eqb_refl tid)) as Hp. unfold pending_of in F2.
    destruct (not_none (tx_state x)), (tx_reject_state x); cbn [Z.b2z] in F2; try lia. split; [auto|split; [done|]].
    apply count_nodup. lia.
Qed.

(** ** Stop *)

Lemma destroy_spec pk env tid s : valid_tid tid -> sta_inv pk s ->
  sta_inv pk (destroy env tid s) /\ used (q (rod_of (destroy env tid s) tid)) = 0 /\
  forall t, valid_tid t -> used (q (rod_of s t)) = 0 -> used (q (rod_of (destroy env tid s) t)) = 0.
Proof.
  intros Ht Hi. unfold _mtlk_sta_destroy_rod_queue. rewrite used_eq.
  destruct (used (q (rod_of s tid)) =? 0) eqn:E; cbn [negb]; zbool; [done|].
  assert (forall r, rod_half (pk tid) (active_of (addba_peer s) tid) r -> used (q r) <> 0 ->
    rod_half (pk tid) false (mtlk_clear_rod_queue group_cipher (env_now env) r)) as Hd.
  { intros r Hr Hu. pose proof (destroy_half group_cipher time_after ms_to_timestamp timestamp_to_ms (pk tid) env r _ Hr) as H.
    rewrite (proj2 (Z.eqb_neq _ _) Hu) in H. exact H. }
  pose proof (Hd _ (st_rod _ _ Hi tid Ht) E) as [Hd1 Hd2].
  assert (used (q (mtlk_clear_rod_queue group_cipher (env_now env) (rod_of s tid))) = 0) as Hz
    by (destruct (decide (used (q (mtlk_clear_rod_queue group_cipher (env_now env) (rod_of s tid))) = 0)) as [|Hn]; [done|by specialize (Hd2 Hn)]).
  pose proof (st_wf _ _ Hi) as Hw. split; [|split].
  - assert (sta_upd_rod tid (mtlk_clear_rod_queue group_cipher (env_now env)) s =
      sta_upd_rod tid (fun r => if negb (used (q r) =? 0) then mtlk_clear_rod_queue group_cipher (env_now env) r else r) s) as ->.
    { unfold sta_upd_rod. f_equal. apply list_alter_ext; [|done]. intros r Hr.
      assert (r = rod_of s tid) as -> by (unfold rod_of; symmetry; by apply list_lookup_total_correct).
      by rewrite (proj2 (Z.eqb_neq _ _) E). }
    apply (one_rod_inv pk); [done..|]. intros r Hr.
    destruct (destroy_half group_cipher time_after ms_to_timestamp timestamp_to_ms (pk tid) env r _ Hr) as [H1 H2].
    split; [done|]. intros Hn. by specialize (H2 Hn).
  - rewrite rod_of_upd, Z.eqb_refl by done. done.
  - intros t Hv Hu. rewrite rod_of_upd by done. destruct (tid =? t) eqn:Et; zbool; [by subst t|done].
Qed.

Lemma destroy_all pk env l s : (forall t, t ∈ l -> valid_tid t) -> sta_inv pk s ->
  let s' := foldl (fun s i => destroy env i s) s l in
  sta_inv pk s' /\ forall t, valid_tid t -> t ∈ l \/ used (q (rod_of s t)) = 0 -> used (q (rod_of s' t)) = 0.
Proof.
  revert s. induction l as [|x l IH]; intros s Hl Hi; cbn [foldl].
  - split; [done|]. intros t _ [Ht|Ht]; [by apply not_elem_of_nil in Ht|done].
  - destruct (destroy_spec pk env x s (Hl x ltac:(left)) Hi) as (H1 & H2 & H3).
    destruct (IH (destroy env x s) (fun t Ht => Hl t (proj2 (elem_of_cons l t x) (or_intror Ht))) H1) as [H4 H5].
    split; [done|]. intros t Hv Ht. apply H5; [done|]. destruct (decide (t = x)) as [->|Hne]; [by right|].
    destruct Ht as [Ht|Ht]; [left; apply elem_of_cons in Ht; naive_solver|right; auto].
Qed.

Lemma valid_all_tids tid : valid_tid tid -> tid ∈ all_tids.
Proof. intros Ht. destruct (valid_tid_cases tid Ht) as [->|[->|[->|[->|[->|[->|[->| ->]]]]]]]; set_solver. Qed.

(** Stopping a station, on disconnection, leaves no queue in use and no
    statistics object behind, and every packet the station was ever given has
    been handed up or freed, exactly once. *)
Theorem sta_stop_empty pk env s tid : sta_reach pk s -> valid_tid tid ->
  let r := rod_of (stop env s) tid in
  used (q r) = 0 /\ wss_live r = [] /\ faults (log r) = 0 /\ window (q r) = [] /\ gone (log r) ≡ₚ pk tid /\
  asserts (stop env s) = [].
Proof.
  intros Hr Ht. pose proof (sta_reach_inv pk s Hr) as Hi.
  assert (sta_inv pk (Sta.sta_call clock group_cipher timestamp_to_ms vap env (CPeerStop (info_dot11n_mode s)) s)) as H1
    by (by apply (sta_call_inv clock group_cipher time_after ms_to_timestamp timestamp_to_ms vap)).
  destruct (destroy_all pk env all_tids _ all_tids_valid H1) as [H2 H3]. fold (stop env s) in H2, H3.
  pose proof (H3 tid Ht ltac:(left; by apply valid_all_tids)) as Hu.
  destruct (st_rod _ _ H2 tid Ht) as [Hh _]. pose proof (holds_unused _ _ Hh Hu) as Hw. destruct Hh as ([_ Hwss] & Hf & Hp).
  split; [done|]. unfold wss_ok in Hwss. rewrite Hu in Hwss. rewrite Hw in Hp. split; [done|split; [done|split; [done|]]].
  split; [done|]. by eapply no_assert.
Qed.

(** ** A TID that gave up *)

(** The flag says that aggregation was asked for, yet nothing is under way. *)
Record gave_up (tid : Z) s : Prop := {
  gu_inited : inited_of s tid = true;
  gu_phase : phase_of (addba_peer s) tid = Ph false false;
  gu_pending : pending_of s tid = 0;
}.

Lemma idle_path tid p es p' : tx_path tid p es p' -> p = Ph false false ->
  p' = Ph false false /\ Forall (fun e => tx_report tid e = false) es.
Proof. intros H. induction H; intros E; try done; simplify_eq. destruct IHtx_path as [H1 H2]; [done|]. split; [done|by constructor]. Qed.

(** A report about another TID. *)
Lemma api_frame env e s tid : sta_wf s -> valid_tid tid -> ev_ok e -> tx_report tid e = false ->
  inited_of (addba_api env e s) tid = inited_of s tid /\ pending_of (addba_api env e s) tid = pending_of s tid.
Proof.
  intros Hw Ht He Hr.
  assert (forall t, valid_tid t -> (t =? tid) = false -> inited_of (_mtlk_sta_addba_restart_tx_count_tid t s) tid = inited_of s tid /\
    pending_of (_mtlk_sta_addba_restart_tx_count_tid t s) tid = pending_of s tid) as Hrestart.
  { intros t Hv Hne. unfold _mtlk_sta_addba_restart_tx_count_tid.
    rewrite inited_of_clear; [rewrite Hne|by destruct (inited_of s t)|done|done]. by destruct (inited_of s t). }
  destruct e as [t|t|t ssn win|t|t|t|i n|i n|]; unfold Sta.addba_api; try done; cbn [tx_report ev_ok] in *; try by apply Hrestart.
  - unfold _mtlk_sta_addba_start_reordering, _mtlk_sta_create_rod_queue. by case_match.
  - unfold _mtlk_sta_addba_stop_reordering, _mtlk_sta_destroy_rod_queue. by case_match.
  - unfold _mtlk_sta_addba_revive_aggregation_tid.
    destruct (schedule_spec env t s) as (_ & _ & _ & _ & E & _ & k & _ & Ek). unfold inited_of. rewrite E, Ek, Hr. by rewrite Z.add_0_r.
Qed.

Lemma deliver_gave_up env es s w tid : sta_wf s -> valid_tid tid -> reports es (no_out (addba_peer s)) w -> gave_up tid s ->
  gave_up tid (deliver env es (sta_set_peer (no_out w) s)).
Proof.
  intros Hw Ht [_ _ Hok _ Htx] [G1 G2 G3]. destruct (idle_path _ _ _ _ (Htx tid Ht) G2) as [E Hes].
  assert (forall s', sta_wf s' -> inited_of (deliver env es s') tid = inited_of s' tid /\ pending_of (deliver env es s') tid = pending_of s' tid) as Hd.
  { clear - Hok Hes Ht. induction es as [|e es IH]; intros s' Hw; [done|].
    apply Forall_cons in Hok as [He Hok]. apply Forall_cons in Hes as [Hr Hes].
    destruct (api_frame env e s' tid Hw Ht He Hr) as [<- <-]. apply IH; [done..|]. by apply api_wf. }
  destruct (Hd (sta_set_peer (no_out w) s)) as [D1 D2]; [done|]. split.
  - by rewrite D1.
  - rewrite deliver_peer. exact E.
  - by rewrite D2.
Qed.

Lemma with_gave_up {A} pk env (m : ST (world T) A) s tid : valid_tid tid -> sta_inv pk s ->
  (forall w, sinv w -> exists es, reports es w (exec m w)) -> gave_up tid s -> gave_up tid (with_addba env m s).2.
Proof.
  intros Ht Hi Hm Hg. destruct (Hm _ (no_out_sinv _ (st_peer _ _ Hi))) as [es R].
  unfold Sta.with_addba. unfold exec in R. destruct (m (no_out (addba_peer s))) as [a w]. cbn [snd] in *.
  pose proof (rp_out _ _ _ R) as ->. cbn [no_out w_out app]. apply deliver_gave_up; [by eapply st_wf|done..].
Qed.

Lemma call_gave_up pk env c s tid : valid_tid tid -> call_sane c -> sta_inv pk s -> gave_up tid s ->
  gave_up tid (Sta.sta_call clock group_cipher timestamp_to_ms vap env c s).
Proof. intros Ht Hc Hi. apply (with_gave_up pk); [done..|]. intros w Hs. apply run_call_rep; [done|]. exact (sinv_wf w Hs). Qed.

(** Nothing else about the TID matters. *)
Lemma gave_up_ext tid s s' : gave_up tid s -> inited_of s' tid = inited_of s tid ->
  phase_of (addba_peer s') tid = phase_of (addba_peer s) tid -> pending_of s' tid = pending_of s tid -> gave_up tid s'.
Proof. intros [G1 G2 G3] E1 E2 E3. split; congruence. Qed.

Lemma gave_up_update_tx env tid t s : valid_tid tid -> valid_tid t -> sta_wf s -> gave_up tid s -> gave_up tid (update_tx env t s).
Proof.
  intros Ht Hv Hw Hg. unfold mtlk_sta_update_tx. case_match eqn:Hc; [|done]. zbool.
  assert ((t =? tid) = false) as Hne by (apply Z.eqb_neq; intros ->; destruct Hg; congruence).
  cbv zeta. case_match; [|by apply (gave_up_ext tid s)]. set (s1 := sta_set_tx (<[Z.to_nat t:=0]> _) _).
  assert (sta_wf s1) as Hw1 by (destruct Hw as (W1 & W2 & W3); unfold sta_wf; cbn; by rewrite !length_insert).
  pose proof (inited_of_set true t tid s1 Hw1 Hv Ht) as Hin. set (s2 := sta_set_inited _ s1) in *.
  destruct (schedule_spec env t s2) as (E1 & _ & _ & _ & E5 & _ & k & _ & E6).
  apply (gave_up_ext tid s); [done| |by rewrite E1|rewrite E6, Hne; apply Z.add_0_r].
  unfold inited_of at 1. rewrite E5. fold (inited_of s2 tid). by rewrite Hin, Hne.
Qed.

Lemma gave_up_revive pk env tid s : valid_tid tid -> sta_inv pk s -> gave_up tid s -> gave_up tid (revive env s).
Proof.
  intros Ht Hi Hg. unfold _mtlk_stadb_on_addba_revive_aggregation_tid. destruct (scheduled s) as [|t rest] eqn:Es; [done|].
  destruct (unschedule_inv pk t rest s Hi Es) as (Hv & Hi' & _).
  set (s' := sta_set_scheduled rest s) in *.
  assert (t <> tid) as Hne.
  { intros ->. pose proof (gu_pending _ _ Hg) as Hp. unfold pending_of in Hp. rewrite Es in Hp. unfold countb in Hp. cbn [foldr] in Hp.
    fold (countb (Z.eqb tid) rest) in Hp. pose proof (countb_range (Z.eqb tid) rest). rewrite Z.eqb_refl in Hp. cbn in Hp. lia. }
  pose proof (no_out_sinv _ (st_peer _ _ Hi')) as Hs.
  destruct (start_negotiation_rep t (ps_mode_enabled s) (no_out (addba_peer s')) (sinv_wf _ Hs) Hv) as (_ & (es & A2 & A3) & _ & A5 & _).
  unfold Sta.with_addba. unfold exec in *.
  destruct (mtlk_addba_peer_start_aggr_negotiation t (ps_mode_enabled s) (no_out (addba_peer s'))) as [a w]. cbn [snd] in *.
  rewrite A2. cbn [no_out w_out app]. rewrite deliver_plain by done. apply (gave_up_ext tid s); [done|done| |].
  - change (phase_of w tid = phase_of (addba_peer s) tid). by rewrite A5.
  - change (countb (Z.eqb tid) rest = pending_of s tid). unfold pending_of. rewrite Es.
    unfold countb. cbn [foldr]. by rewrite (proj2 (Z.eqb_neq tid t)).
Qed.

Lemma gave_up_exit_ps pk env tid t s : valid_tid tid -> valid_tid t -> sta_inv pk s -> gave_up tid s ->
  gave_up tid (exit_ps_tid group_cipher timestamp_to_ms vap env t s).
Proof.
  intros Ht Hv Hi Hg. unfold exit_ps_tid. destruct (inited_of s t); [|done].
  assert (gave_up tid (with_addba env (mtlk_addba_peer_reset_power_save t) s).2) as Hg'.
  { apply (with_gave_up pk); [done..| |done]. intros w Hs. apply reset_ps_rep; [done|exact (sinv_wf w Hs)]. }
  destruct (reset_ps_spec t (no_out (addba_peer s)) (sinv_wf _ (no_out_sinv _ (st_peer _ _ Hi))) Hv) as [(es & A1 & A2) A3].
  revert Hg'. unfold Sta.with_addba. unfold exec, eval in A1, A3.
  destruct (mtlk_addba_peer_reset_power_save t (no_out (addba_peer s))) as [was_ps w]. cbn [fst snd] in *.
  rewrite A1. cbn [no_out w_out app]. rewrite deliver_plain by done. destruct was_ps; [|done].
  destruct (A3 eq_refl) as [B1 _]. intros Hg'. apply (gave_up_ext tid _ _ Hg'); try done.
  rewrite inited_of_clear; [|apply Hi|done..]. destruct (Z.eqb_spec t tid) as [->|Hne]; [|done].
  change (phase_of (no_out (addba_peer s)) tid) with (phase_of (addba_peer s) tid) in B1. by rewrite (gu_phase _ _ Hg) in B1.
Qed.

Lemma foldl_gave_up {A} pk (f : sta_entry T -> A -> sta_entry T) tid l s :
  (forall s x, x ∈ l -> sta_inv pk s -> gave_up tid s -> sta_inv pk (f s x) /\ gave_up tid (f s x)) ->
  sta_inv pk s -> gave_up tid s -> gave_up tid (foldl f s l).
Proof.
  revert s. induction l as [|x l IH]; intros s Hf Hi Hg; [done|]. cbn. destruct (Hf s x ltac:(left) Hi Hg) as [H1 H2].
  apply IH; [|done..]. intros s' y Hy. apply Hf. by right.
Qed.

Abbreviation call_inv := (sta_call_inv clock group_cipher time_after ms_to_timestamp timestamp_to_ms vap).

Lemma gave_up_step pk l s s' tid : valid_tid tid -> sta_step l s s' -> sta_inv pk s -> gave_up tid s -> gave_up tid s'.
Proof.
  intros Ht Hstep Hi Hg. destruct Hstep as [env c s Hc|env m c p0 p b w t' s Hm Hf Ha Hr Hl ->|s w' Ha|env t s Hv|env s|env b s|f s|env s|s|
    env t s Hv|env t seq nb aggregated s Hv Hseq|env t ssn s Hv Hssn].
  - by apply (call_gave_up pk).
  - pose proof (no_out_sinv _ (st_peer _ _ Hi)) as Hs. destruct (late_held _ c p0 p m Hm Hs Hf Ha Hl) as [Hv Hh].
    destruct (run_clb_rep clock c p b (no_out (addba_peer s)) (sinv_wf _ Hs) Hv) as [es R].
    { intros Hc E. specialize (Hh Hc). by rewrite E in Hh. }
    rewrite (rp_out _ _ _ R). cbn [no_out w_out app].
    apply (deliver_gave_up env es s (set_txmm t' (exec (run_clb clock c p b) (no_out (addba_peer s))))); [by eapply st_wf|done|by destruct R|done].
  - apply (gave_up_ext tid s); try done. by destruct Ha.
  - apply gave_up_update_tx; try done. by eapply st_wf.
  - by apply (gave_up_revive pk).
  - unfold mtlk_sta_set_pm_enabled. assert (gave_up tid (sta_set_ps b s)) as Hg' by (by apply (gave_up_ext tid s)).
    destruct b; [done|]. apply (foldl_gave_up pk); [|apply (inv_fields pk s); try done; apply Hi|done].
    intros s' t Hin%all_tids_valid Hi' Hg''. split; [by apply (exit_ps_tid_inv group_cipher time_after ms_to_timestamp)|].
    by apply (gave_up_exit_ps pk).
  - unfold mtlk_sta_set_packets_filter. case_decide; [|done]. by apply (gave_up_ext tid s).
  - by apply (gave_up_ext tid s).
  - by apply (gave_up_ext tid s).
  - unfold mtlk_sta_delba_req. apply (foldl_gave_up pk); [|done..]. intros s' x Hin Hi' Hg'.
    assert (valid_tid x) as Hx by (case_match; [by apply all_tids_valid|apply list_elem_of_singleton in Hin; zbool; naive_solver]).
    split; [by apply call_inv|by apply (call_gave_up pk)].
  - pose proof (reorder_inv group_cipher time_after ms_to_timestamp timestamp_to_ms pk env t seq nb s Hv Hseq Hi) as Hi'.
    unfold Sta.rx_directed. unfold mtlk_sta_reorder_packet in *. destruct (mtlk_reorder_packet _ _ _ _ _) as [res r]. cbn [snd] in Hi'.
    assert (gave_up tid (sta_upd_rod t (fun _ => r) s)) as Hg' by (by apply (gave_up_ext tid s)).
    destruct (negb res && aggregated); [|done]. apply (call_gave_up (give t nb pk)); try done. split; [|done]. unfold valid_tid in Hv. cbn. lia.
  - unfold mtlk_handle_bar. case_match; [done|]. unfold mtlk_sta_process_bar. destruct (mtlk_rod_process_bar _ _ _ _) as [res r].
    assert (gave_up tid (Sta.sta_call clock group_cipher timestamp_to_ms vap env (CBar t) s)) as Hg' by (by apply (call_gave_up pk)).
    by apply (gave_up_ext tid (Sta.sta_call clock group_cipher timestamp_to_ms vap env (CBar t) s)).
Qed.

Inductive sta_steps : sta_entry T -> sta_entry T -> Prop :=
| sta_steps_refl s : sta_steps s s
| sta_steps_step l s1 s2 s3 : sta_steps s1 s2 -> sta_step l s2 s3 -> sta_steps s1 s3.

(** A revival that finds no free reference, or aggregation configured off. *)
Lemma start_refused tid w : valid_tid tid -> tx_state (tx_of w tid) = MTLK_ADDBA_TX_NONE ->
  use_aggr (cfg_of w tid) = false \/ (mtlk_reflim_try_ref (w_aggr_reflim w)).1 = false ->
  let w' := exec (mtlk_addba_peer_start_aggr_negotiation (ops := ops) tid false) w in w_tid w' = w_tid w.
Proof.
  intros Ht Hst Hr w'. unfold w', mtlk_addba_peer_start_aggr_negotiation, _mtlk_addba_peer_tx_addba_req. run; try done; exfalso; intuition congruence.
Qed.

Lemma steps_gave_up pk s s' tid : valid_tid tid -> sta_steps s s' -> sta_inv pk s -> gave_up tid s ->
  (exists pk', sta_inv pk' s') /\ gave_up tid s'.
Proof.
  intros Ht Hs Hi Hg. induction Hs as [s|l s1 s2 s3 H12 IH H23]; [by eauto|].
  destruct (IH Hi Hg) as [[pk2 Hi2] Hg2]. split; [|by eapply gave_up_step].
  exists (bring l pk2). by apply (step_inv clock group_cipher time_after ms_to_timestamp timestamp_to_ms vap aggr_open_threshold pk2 l s2 s3).
Qed.

(** When the revival of a TID finds aggregation configured off or no free
    reference in the shared limiter, the TID never asks again while the
    station stays connected: whatever happens afterwards its flag stays set,
    no negotiation starts, and counting its packets is switched off, also once
    references are free. *)
Theorem sta_aggr_gives_up pk env s s' tid rest : sta_reach pk s -> scheduled s = tid :: rest -> ps_mode_enabled s = false ->
  use_aggr (cfg_of (addba_peer s) tid) = false \/ (mtlk_reflim_try_ref (w_aggr_reflim (addba_peer s))).1 = false ->
  sta_steps (revive env s) s' ->
  inited_of s' tid = true /\ tx_state (tx_of (addba_peer s') tid) = MTLK_ADDBA_TX_NONE /\ tid ∉ scheduled s' /\
  forall env, update_tx env tid s' = s'.
Proof.
  intros Hr Es Hps Hrefused Hsteps. pose proof (sta_reach_inv pk s Hr) as Hi.
  destruct (unschedule_inv pk tid rest s Hi Es) as (Ht & Hi' & H1 & H2 & H3).
  pose proof (revive_inv clock group_cipher timestamp_to_ms vap pk env s Hi) as Hir.
  assert (gave_up tid (revive env s)) as Hg.
  { unfold _mtlk_stadb_on_addba_revive_aggregation_tid in *. rewrite Es, Hps in *. set (s1 := sta_set_scheduled rest s) in *.
    assert (tx_state (tx_of (no_out (addba_peer s1)) tid) = MTLK_ADDBA_TX_NONE) as Hn.
    { change (tx_of (no_out (addba_peer s1)) tid) with (tx_of (addba_peer s) tid). unfold phase_of, tx_phase in H3. by destruct (tx_state _). }
    pose proof (start_refused tid (no_out (addba_peer s1)) Ht Hn Hrefused) as Hw.
    destruct (start_negotiation_rep tid false (no_out (addba_peer s1)) (sinv_wf _ (no_out_sinv _ (st_peer _ _ Hi'))) Ht) as (_ & (es & A2 & A3) & _).
    unfold Sta.with_addba in *. unfold exec in *.
    destruct (mtlk_addba_peer_start_aggr_negotiation tid false (no_out (addba_peer s1))) as [a w]. cbn [snd] in *.
    rewrite A2. cbn [no_out w_out app]. rewrite deliver_plain by done. split; [done| |done].
    change (phase_of w tid = Ph false false). rewrite <-H3. unfold phase_of, tx_of, tid_of. by rewrite Hw. }
  destruct (steps_gave_up pk _ _ tid Ht Hsteps Hir Hg) as [_ [G1 G2 G3]]. split; [done|split; [|split]].
  - unfold phase_of, tx_phase in G2. by destruct (tx_state _).
  - intros Hin. apply list_elem_of_lookup in Hin as [i Hin]. pose proof (countb_pos (Z.eqb tid) _ _ _ Hin (Z.eqb_refl tid)).
    unfold pending_of in G3. lia.
  - intros env'. unfold mtlk_sta_update_tx. rewrite G1. cbn [negb]. by rewrite andb_false_r.
Qed.
End StaThms.
