(* ===== verification/StaExamples.v ===== *)
(** * StaExamples: a station over the mailbox transport, and the witnesses *)
From S2P Require Import Prelude Reflim TxmmIface Addba AddbaAcct AddbaInv AddbaOps AddbaSys AddbaThms AddbaExamples.
From S2P Require Import Replay Rod RodInv RodThms Sta StaRep StaInv StaSys StaThms.
From Stdlib Require Import Permutation.

Definition no_cipher (v : Z) : Z := 0.
Definition later (a b : Z) : bool := b <? a.
Definition ms_id (t : Z) : Z := t.
Definition sta_env0 : sta_env := StaEnv 5000 true MTLK_ERR_OK MTLK_ERR_OK.
(** The module with room for [max_aggr] aggregations and two reorderings. *)
Definition sta_world (max_aggr : Z) : world mailbox :=
  exec (mtlk_addba_init (mtlk_reflim_init max_aggr) (mtlk_reflim_init 2) demo_cfg)
    (World mailbox [] 0 (mtlk_reflim_init 0) (mtlk_reflim_init 0) 0 [] false (fun _ => None) 0 []).

Abbreviation ex_reach := (sta_reach (tx_ok := mailbox_ok) demo_clock no_cipher later ms_id ms_id 7 2).
Abbreviation ex_step := (sta_step (tx_ok := mailbox_ok) demo_clock no_cipher later ms_id ms_id 7 2).
Abbreviation ex_call c s := (sta_call demo_clock no_cipher ms_id 7 sta_env0 c s).
Abbreviation ex_update_tx tid s := (mtlk_sta_update_tx 2 sta_env0 tid s).
Abbreviation ex_revive s := (_mtlk_stadb_on_addba_revive_aggregation_tid no_cipher ms_id 7 sta_env0 s).

Definition sta_started (max_aggr : Z) : sta_entry mailbox :=
  _mtlk_sta_start demo_clock no_cipher ms_id 7 sta_env0 true 0xAA (sta_init (sta_world max_aggr)).
(** The peer opened reordering of TID 0 from 100, and frame 101 came before 100. *)
Definition sta_frame : mtlk_nbuf_t := Nbuf 1 None false false [0; 0; 0; 0; 0; 0; 0; 0] 0 [].
Definition sta_agreed : sta_entry mailbox := ex_call (CAddbaReqRx 100 0 8 3 0 1 16) (sta_started 2).
Definition sta_waiting : sta_entry mailbox :=
  rx_directed demo_clock no_cipher ms_id 7 sta_env0 0 101 sta_frame true sta_agreed.
(** Data is let through and two packets of TID 0 were sent. *)
Definition sta_open (max_aggr : Z) : sta_entry mailbox := mtlk_sta_set_packets_filter MTLK_PCKT_FLTR_ALLOW_ALL (sta_started max_aggr).
Definition sta_counted (max_aggr : Z) : sta_entry mailbox := ex_update_tx 0 (ex_update_tx 0 (sta_open max_aggr)).

Lemma sta_started_reach max_aggr : ex_reach (fun _ => []) (sta_started max_aggr).
Proof. unfold sta_started. apply sta_reach_start; [exact I|intros m; vm_compute; reflexivity|by vm_compute]. Qed.

Lemma ex_next pk l s s' : ex_reach pk s -> ex_step l s s' -> ex_reach (bring l pk) s'.
Proof. intros. by eapply sta_reach_step. Qed.

Lemma sta_counted_reach max_aggr : ex_reach (fun _ => []) (sta_counted max_aggr).
Proof.
  pose proof (ex_next _ _ _ _ (sta_started_reach max_aggr) (sta_step_filter _ _ _ _ _ _ _ MTLK_PCKT_FLTR_ALLOW_ALL _)) as H1.
  pose proof (ex_next _ _ _ _ H1 (sta_step_update_tx _ _ _ _ _ _ _ sta_env0 0 _ valid_tid_0)) as H2.
  exact (ex_next _ _ _ _ H2 (sta_step_update_tx _ _ _ _ _ _ _ sta_env0 0 _ valid_tid_0)).
Qed.

Lemma sta_waiting_reach : ex_reach (bring [(0, sta_frame)] (bring [] (fun _ => []))) sta_waiting.
Proof.
  assert (call_sane (CAddbaReqRx 100 0 8 3 0 1 16)) as Hc by (split; [|split]; cbn; lia).
  pose proof (ex_next _ _ _ _ (sta_started_reach 2) (sta_step_call _ _ _ _ _ _ _ sta_env0 _ _ Hc)) as H1.
  assert (0 <= 101 < 4096) as Hs by lia.
  pose proof (ex_next _ _ _ _ H1 (sta_step_rx _ _ _ _ _ _ _ sta_env0 0 101 sta_frame true _ valid_tid_0 Hs)) as H2.
  exact H2.
Qed.

Lemma sta_reorder_queues_witness :
  let r := rod_of sta_waiting 0 in
  used (q r) = 1 /\ window (q r) = [sta_frame] /\ rod_ok r /\ window (q r) ++ gone (log r) ≡ₚ [sta_frame] /\
  rx_reordering (rx_state (rx_of (addba_peer sta_waiting) 0)) = true.
Proof.
  destruct (sta_reorder_queues demo_clock no_cipher later ms_id ms_id 7 2 _ _ 0 sta_waiting_reach valid_tid_0) as (H1 & _ & H3 & H4).
  split; [vm_compute; reflexivity|split; [vm_compute; reflexivity|]]. split; [exact H1|split; [exact H3|]].
  apply H4. vm_compute. discriminate.
Defined.

Lemma sta_aggr_flags_witness :
  scheduled (sta_counted 2) = [0] /\ asserts (sta_counted 2) = [] /\
  tx_state (tx_of (addba_peer (sta_counted 2)) 0) = MTLK_ADDBA_TX_NONE.
Proof.
  destruct (sta_aggr_flags demo_clock no_cipher later ms_id ms_id 7 2 _ _ 0 (sta_counted_reach 2) valid_tid_0) as (H1 & _ & H3).
  assert (scheduled (sta_counted 2) = [0]) as E by (vm_compute; reflexivity). split; [exact E|split; [exact H1|]].
  apply H3. rewrite E. left.
Defined.

Lemma sta_stop_empty_witness :
  let r := rod_of (_mtlk_sta_stop demo_clock no_cipher ms_id 7 sta_env0 sta_waiting) 0 in
  used (q r) = 0 /\ gone (log r) ≡ₚ [sta_frame].
Proof.
  destruct (sta_stop_empty demo_clock no_cipher later ms_id ms_id 7 2 _ sta_env0 _ 0 sta_waiting_reach valid_tid_0) as (H1 & _ & _ & _ & H5 & _).
  split; [exact H1|exact H5].
Defined.

(** No aggregation is allowed: the limit is zero. *)
Lemma sta_aggr_gives_up_witness :
  let s := ex_revive (sta_counted 0) in
  inited_of s 0 = true /\ ex_update_tx 0 s = s.
Proof.
  destruct (sta_aggr_gives_up demo_clock no_cipher later ms_id ms_id 7 2 _ sta_env0 (sta_counted 0) (ex_revive (sta_counted 0)) 0 []
    (sta_counted_reach 0)) as (H1 & _ & _ & H4);
    [vm_compute; reflexivity|vm_compute; reflexivity|right; vm_compute; reflexivity|apply sta_steps_refl|].
  split; [exact H1|apply H4].
Defined.
