(* ===== verification/FrameData.v ===== *)
(** * FrameData: bit fields and the description of a network

    The bit field macros of wireless/shared/mtlkbfield.h and the record the
    parser of management frames fills, [bss_data_t] of
    wireless/driver/shared/frame.h (its reception time and two unused rate
    sets left out). *)
From S2P Require Import Prelude.

(** ** Bit fields: [var] is at least as wide as the field reaches *)

Definition _MTLK_U_AUX_BITS (len : Z) : Z := Z.shiftl 1 len - 1.
Definition _MTLK_U_AUX_BITMASK (from len : Z) : Z := Z.shiftl (_MTLK_U_AUX_BITS len) from.
Definition MTLK_U_BITS_GET (bf from len : Z) : Z := Z.land (Z.shiftr bf from) (_MTLK_U_AUX_BITS len).
Definition MTLK_U_BITS_ZERO (bf from len : Z) : Z := Z.land bf (Z.lnot (_MTLK_U_AUX_BITMASK from len)).
Definition MTLK_U_BITS_SET (bf from len val : Z) : Z :=
  Z.lor (MTLK_U_BITS_ZERO bf from len) (Z.land (Z.shiftl val from) (_MTLK_U_AUX_BITMASK from len)).

(** [MTLK_BFIELD_INFO] packs the position and the length in two bytes. *)
Definition MTLK_BFIELD_INFO (from len : Z) : Z := Z.lor (u8 from) (Z.shiftl (u8 len) 8).
Definition MTLK_BFIELD_GET (var info : Z) : Z := MTLK_U_BITS_GET var (u8 info) (u8 (Z.shiftr (u16 info) 8)).
Definition MTLK_BFIELD_SET (var info val : Z) : Z := MTLK_U_BITS_SET var (u8 info) (u8 (Z.shiftr (u16 info) 8)) val.

(** ** The description of a network *)

Definition BSS_ESSID_MAX_SIZE : Z := 32.
Definition MAX_INFO_ELEMENTS_LENGTH : Z := 512.

Record bss_data_t := Bss {
  beacon_timestamp : Z; bssid : list Z; bss_type : Z; channel : Z; secondary_channel_offset : Z; max_rssi : Z;
  all_rssi : list Z; noise : Z; capability : Z; beacon_interval : Z; essid : list Z; info_elements : list Z;
  ie_used_length : Z; rsn_offs : Z; wpa_offs : Z; wps_offs : Z; country_code : Z; country_ie : option Z;
  is_2_4 : Z; is_ht : Z; basic_rate_set : Z; operational_rate_set : Z; spectrum : Z; upper_lower : Z;
  power : Z; forty_mhz_intolerant : bool
}.

(** ** Field updates *)

Definition set_channel (a : Z) (x : bss_data_t) : bss_data_t :=
  Bss (beacon_timestamp x) (bssid x) (bss_type x) a (secondary_channel_offset x) (max_rssi x) (all_rssi x)
      (noise x) (capability x) (beacon_interval x) (essid x) (info_elements x) (ie_used_length x) (rsn_offs x)
      (wpa_offs x) (wps_offs x) (country_code x) (country_ie x) (is_2_4 x) (is_ht x) (basic_rate_set x)
      (operational_rate_set x) (spectrum x) (upper_lower x) (power x) (forty_mhz_intolerant x).
Definition set_essid (a : list Z) (x : bss_data_t) : bss_data_t :=
  Bss (beacon_timestamp x) (bssid x) (bss_type x) (channel x) (secondary_channel_offset x) (max_rssi x)
      (all_rssi x) (noise x) (capability x) (beacon_interval x) a (info_elements x) (ie_used_length x)
      (rsn_offs x) (wpa_offs x) (wps_offs x) (country_code x) (country_ie x) (is_2_4 x) (is_ht x)
      (basic_rate_set x) (operational_rate_set x) (spectrum x) (upper_lower x) (power x) (forty_mhz_intolerant x).
Definition set_store (a : list Z) (b : Z) (x : bss_data_t) : bss_data_t :=
  Bss (beacon_timestamp x) (bssid x) (bss_type x) (channel x) (secondary_channel_offset x) (max_rssi x)
      (all_rssi x) (noise x) (capability x) (beacon_interval x) (essid x) a b (rsn_offs x) (wpa_offs x)
      (wps_offs x) (country_code x) (country_ie x) (is_2_4 x) (is_ht x) (basic_rate_set x)
      (operational_rate_set x) (spectrum x) (upper_lower x) (power x) (forty_mhz_intolerant x).
Definition set_rsn_offs (a : Z) (x : bss_data_t) : bss_data_t :=
  Bss (beacon_timestamp x) (bssid x) (bss_type x) (channel x) (secondary_channel_offset x) (max_rssi x)
      (all_rssi x) (noise x) (capability x) (beacon_interval x) (essid x) (info_elements x) (ie_used_length x) a
      (wpa_offs x) (wps_offs x) (country_code x) (country_ie x) (is_2_4 x) (is_ht x) (basic_rate_set x)
      (operational_rate_set x) (spectrum x) (upper_lower x) (power x) (forty_mhz_intolerant x).
Definition set_wpa_offs (a : Z) (x : bss_data_t) : bss_data_t :=
  Bss (beacon_timestamp x) (bssid x) (bss_type x) (channel x) (secondary_channel_offset x) (max_rssi x)
      (all_rssi x) (noise x) (capability x) (beacon_interval x) (essid x) (info_elements x) (ie_used_length x)
      (rsn_offs x) a (wps_offs x) (country_code x) (country_ie x) (is_2_4 x) (is_ht x) (basic_rate_set x)
      (operational_rate_set x) (spectrum x) (upper_lower x) (power x) (forty_mhz_intolerant x).
Definition set_wps_offs (a : Z) (x : bss_data_t) : bss_data_t :=
  Bss (beacon_timestamp x) (bssid x) (bss_type x) (channel x) (secondary_channel_offset x) (max_rssi x)
      (all_rssi x) (noise x) (capability x) (beacon_interval x) (essid x) (info_elements x) (ie_used_length x)
      (rsn_offs x) (wpa_offs x) a (country_code x) (country_ie x) (is_2_4 x) (is_ht x) (basic_rate_set x)
      (operational_rate_set x) (spectrum x) (upper_lower x) (power x) (forty_mhz_intolerant x).
Definition set_country (a : Z) (b : option Z) (x : bss_data_t) : bss_data_t :=
  Bss (beacon_timestamp x) (bssid x) (bss_type x) (channel x) (secondary_channel_offset x) (max_rssi x)
      (all_rssi x) (noise x) (capability x) (beacon_interval x) (essid x) (info_elements x) (ie_used_length x)
      (rsn_offs x) (wpa_offs x) (wps_offs x) a b (is_2_4 x) (is_ht x) (basic_rate_set x) (operational_rate_set x)
      (spectrum x) (upper_lower x) (power x) (forty_mhz_intolerant x).
Definition set_is_2_4 (a : Z) (x : bss_data_t) : bss_data_t :=
  Bss (beacon_timestamp x) (bssid x) (bss_type x) (channel x) (secondary_channel_offset x) (max_rssi x)
      (all_rssi x) (noise x) (capability x) (beacon_interval x) (essid x) (info_elements x) (ie_used_length x)
      (rsn_offs x) (wpa_offs x) (wps_offs x) (country_code x) (country_ie x) a (is_ht x) (basic_rate_set x)
      (operational_rate_set x) (spectrum x) (upper_lower x) (power x) (forty_mhz_intolerant x).
Definition set_is_ht (a : Z) (x : bss_data_t) : bss_data_t :=
  Bss (beacon_timestamp x) (bssid x) (bss_type x) (channel x) (secondary_channel_offset x) (max_rssi x)
      (all_rssi x) (noise x) (capability x) (beacon_interval x) (essid x) (info_elements x) (ie_used_length x)
      (rsn_offs x) (wpa_offs x) (wps_offs x) (country_code x) (country_ie x) (is_2_4 x) a (basic_rate_set x)
      (operational_rate_set x) (spectrum x) (upper_lower x) (power x) (forty_mhz_intolerant x).
Definition set_rates (a : Z) (b : Z) (x : bss_data_t) : bss_data_t :=
  Bss (beacon_timestamp x) (bssid x) (bss_type x) (channel x) (secondary_channel_offset x) (max_rssi x)
      (all_rssi x) (noise x) (capability x) (beacon_interval x) (essid x) (info_elements x) (ie_used_length x)
      (rsn_offs x) (wpa_offs x) (wps_offs x) (country_code x) (country_ie x) (is_2_4 x) (is_ht x) a b
      (spectrum x) (upper_lower x) (power x) (forty_mhz_intolerant x).
Definition set_band (a : Z) (b : Z) (c : Z) (x : bss_data_t) : bss_data_t :=
  Bss (beacon_timestamp x) (bssid x) (bss_type x) (channel x) c (max_rssi x) (all_rssi x) (noise x)
      (capability x) (beacon_interval x) (essid x) (info_elements x) (ie_used_length x) (rsn_offs x) (wpa_offs x)
      (wps_offs x) (country_code x) (country_ie x) (is_2_4 x) (is_ht x) (basic_rate_set x)
      (operational_rate_set x) a b (power x) (forty_mhz_intolerant x).
Definition set_power (a : Z) (x : bss_data_t) : bss_data_t :=
  Bss (beacon_timestamp x) (bssid x) (bss_type x) (channel x) (secondary_channel_offset x) (max_rssi x)
      (all_rssi x) (noise x) (capability x) (beacon_interval x) (essid x) (info_elements x) (ie_used_length x)
      (rsn_offs x) (wpa_offs x) (wps_offs x) (country_code x) (country_ie x) (is_2_4 x) (is_ht x)
      (basic_rate_set x) (operational_rate_set x) (spectrum x) (upper_lower x) a (forty_mhz_intolerant x).
Definition set_forty (a : bool) (x : bss_data_t) : bss_data_t :=
  Bss (beacon_timestamp x) (bssid x) (bss_type x) (channel x) (secondary_channel_offset x) (max_rssi x)
      (all_rssi x) (noise x) (capability x) (beacon_interval x) (essid x) (info_elements x) (ie_used_length x)
      (rsn_offs x) (wpa_offs x) (wps_offs x) (country_code x) (country_ie x) (is_2_4 x) (is_ht x)
      (basic_rate_set x) (operational_rate_set x) (spectrum x) (upper_lower x) (power x) a.

Definition bss_zero : bss_data_t :=
  Bss 0 (replicate 6 0) 0 0 0 0 (replicate 3 0) 0 0 0 (replicate 33 0) (replicate 512 0) 0 0 0 0 0 None 0 0 0 0 0 0 0 false.
(** After [memset], with the sender in the place of the network's address. *)
Definition bss_of_sender (addr : list Z) : bss_data_t :=
  Bss 0 addr 0 0 0 0 (replicate 3 0) 0 0 0 (replicate 33 0) (replicate 512 0) 0 0 0 0 0 None 0 0 0 0 0 0 0 false.

(** [memcpy] into an array at an offset. *)
Definition write_bytes (o : Z) (bs l : list Z) : list Z :=
  take (Z.to_nat o) l ++ bs ++ drop (Z.to_nat o + length bs) l.
