(* ===== verification/Frame.v ===== *)
(** * Frame: the parser of received management and control frames
    (wireless/driver/shared/frame.c)

    A frame is the memory from the start of the buffer's data on, a byte at
    every offset: [fbuf] is an offset and [flen] the length the code thinks
    is left, an [int32].  Every offset read is recorded, whether or not the
    frame reaches that far.  Numbers on the air are little endian; the in-place
    conversions to host order are not written back.  What the parser calls in
    other modules is an event, and what those answer is in [frame_env]. *)
From S2P Require Import Prelude Reflim TxmmIface Addba AddbaSys FrameData.

Definition MTLK_ERR_NOT_IN_USE : Z := -11.

Record coex_el_t := CoexEl {
  u8InformationRequest : bool; u8FortyMhzIntolerant : bool; u8TwentyMhzBSSWidthRequest : bool;
  u8OBSSScanningExemptionRequest : bool; u8OBSSScanningExemptionGrant : bool
}.

(** Calls into other modules. *)
Inductive frame_ev :=
| FAddba (c : addba_call)                       (* the block ack peer of the sender *)
| FBar (tid ssn : Z)                            (* mtlk_handle_bar *)
| FIntolerance                                  (* mtlk_20_40_sta_intolerance_detected *)
| FCoexAp (el : coex_el_t) | FCoexSta (el : coex_el_t) (assoc_res_process : bool)
| FObssResults (cls : Z) (channels : list Z)
| FObssParams (params : list Z)
| FSpr (fbuf flen : Z)                          (* mtlk_rf_mgmt_handle_spr *)
| FCountryUpdate (code : Z) | FUpdateAp (bss : bss_data_t) | FBssFound (channel : Z)
| FRegisterBss (bss : bss_data_t) | FNonHtBeacon (channel : Z) | FAocs (bss : bss_data_t) | FWdsBeacon.

(** What the parser asks other modules. *)
Record frame_env := FrameEnv {
  fe_is_ap : bool; fe_is_slave_ap : bool;
  fe_coex_sm : bool;                            (* the coexistence object exists *)
  fe_2040_active : bool; fe_2040_enabled : bool;
  fe_rssi_threshold : Z -> bool;
  fe_band_cfg_24 : bool; fe_band_cur_24 : bool;
  fe_scan_running : bool; fe_country_code : Z;
  fe_country_of : (Z -> Z) -> Z;                (* country_to_country_code of the bytes from a pointer on *)
  fe_my_addr : list Z; fe_assoc_ap : option (list Z);
  fe_known_essid : list Z -> option (list Z);   (* the name the scan cache has for an address *)
}.

Record fs := Fs { touched : list Z; calls : list frame_ev; bss : bss_data_t }.

Section Frame.
Context (mem : Z -> Z) (env : frame_env).
Abbreviation M := (ST fs).

Definition rd (o : Z) : M Z := fun s => (mem o, Fs (touched s ++ [o]) (calls s) (bss s)).
Definition rd16 (o : Z) : M Z := a ← rd o; b ← rd (o + 1); mret (a + 256 * b).
Definition rd32 (o : Z) : M Z := a ← rd16 o; b ← rd16 (o + 2); mret (a + 65536 * b).
Fixpoint rd_bytes (n : nat) (o : Z) : M (list Z) :=
  match n with
  | O => mret []
  | S n => a ← rd o; l ← rd_bytes n (o + 1); mret (a :: l)
  end.
Definition call (e : frame_ev) : M unit := modify (fun s => Fs (touched s) (calls s ++ [e]) (bss s)).
Definition upd_bss (f : bss_data_t -> bss_data_t) : M unit := modify (fun s => Fs (touched s) (calls s) (f (bss s))).
Definition get_bss : M bss_data_t := gets bss.

(** ** Information elements *)

Definition ie_rate (val : Z) : Z :=
  let v := Z.land val 0x7F in
  if v =? 12 then 0x1 else if v =? 18 then 0x2 else if v =? 24 then 0x4 else if v =? 36 then 0x8
  else if v =? 48 then 0x10 else if v =? 72 then 0x20 else if v =? 96 then 0x40 else if v =? 108 then 0x80
  else if v =? 2 then 0x800 else if v =? 4 then 0x1100 else if v =? 11 then 0x2200 else if v =? 22 then 0x4400
  else 0.

Fixpoint rates_loop (length : nat) (ie_data : Z) : M unit :=
  match length with
  | O => mret tt
  | S length =>
      val ← rd ie_data;
      let rate := ie_rate val in
      upd_bss (fun b => set_rates (if Z.land val 0x80 =? 0 then basic_rate_set b else Z.lor (basic_rate_set b) rate)
        (Z.lor (operational_rate_set b) rate) b) ;;
      rates_loop length (ie_data + 1)
  end.
Definition ie_extract_phy_rates (ie_data length : Z) : M unit :=
  rates_loop (Z.to_nat length) ie_data ;;
  b ← get_bss;
  when (negb (Z.land (operational_rate_set b) 0x7F00 =? 0)) (upd_bss (set_is_2_4 1)).

Definition ie_extract_ht_info (ie_data length : Z) : M unit :=
  if length <? 2 then mret tt
  else
    ch ← rd ie_data;
    upd_bss (set_channel ch) ;;
    v ← rd (ie_data + 1);
    let k := Z.land v 0x07 in
    if k =? 7 then upd_bss (set_band 1 1 0x30)
    else if k =? 5 then upd_bss (set_band 1 0 0x10)
    else upd_bss (set_band 0 0 0x00).

Definition ie_extract_htcap_info (ie_data length : Z) : M unit :=
  if length <? 7 then mret tt
  else
    info ← rd16 ie_data;
    let intolerant := negb (Z.land info 0x4000 =? 0) in
    upd_bss (set_forty intolerant) ;;
    b ← get_bss;
    when (intolerant && (fe_coex_sm env && fe_2040_active env && negb (fe_is_ap env) && fe_rssi_threshold env (max_rssi b)))
      (call FIntolerance) ;;
    (* supported_mcs starts at offset 3 *)
    v0 ← rd (ie_data + 3);
    upd_bss (fun b => set_rates (basic_rate_set b) (Z.lor (operational_rate_set b) (u32 (Z.shiftl v0 15))) b) ;;
    v1 ← rd (ie_data + 4);
    upd_bss (fun b => set_rates (basic_rate_set b) (Z.lor (operational_rate_set b) (u32 (Z.shiftl v1 23))) b) ;;
    v4 ← rd (ie_data + 7);
    upd_bss (fun b => set_rates (basic_rate_set b) (Z.lor (operational_rate_set b) (u32 (Z.shiftl v4 31))) b).

Definition bit_set (v mask : Z) : bool := negb (Z.land v mask =? 0).
Definition ie_extract_coex_el_info (ie_data length : Z) : M (option coex_el_t) :=
  if negb (length =? 1) then mret None
  else
    v ← rd ie_data;
    mret (Some (CoexEl (bit_set v 0x1) (bit_set v 0x2) (bit_set v 0x4) (bit_set v 0x8) (bit_set v 0x10))).

Definition ie_extract_intolerant_channels_report (ie_data length : Z) : M (option (Z * list Z)) :=
  if (2 <=? length) && (length <=? 31) then
    cls ← rd ie_data;
    l ← rd_bytes (Z.to_nat (length - 1)) (ie_data + 1);
    mret (Some (cls, l))
  else mret None.

Definition ie_extract_obss_scan_parameters (ie_data length : Z) : M (option (list Z)) :=
  if negb (length =? 14) then mret None
  else
    a ← rd16 ie_data; b ← rd16 (ie_data + 2); c ← rd16 (ie_data + 4); d ← rd16 (ie_data + 6);
    e ← rd16 (ie_data + 8); f ← rd16 (ie_data + 10); g ← rd16 (ie_data + 12);
    mret (Some [a; b; c; d; e; f; g]).

Definition IE_SSID : Z := 0.
Definition IE_SUPPORTED_RATES : Z := 1.
Definition IE_DS_PARAM_SET : Z := 3.
Definition IE_COUNTRY : Z := 7.
Definition IE_PWR_CONSTRAINT : Z := 32.
Definition IE_HT_CAPABILITIES : Z := 45.
Definition IE_RSN : Z := 48.
Definition IE_EXT_SUPP_RATES : Z := 50.
Definition IE_HT_INFORMATION : Z := 61.
Definition IE_COEXISTENCE : Z := 72.
Definition IE_INTOLERANT_CHANNELS_REPORT : Z := 73.
Definition IE_OBSS_SCAN_PARAMETERS : Z := 74.
Definition IE_VENDOR_SPECIFIC : Z := 221.
Definition wpa_oui_type : list Z := [0x00; 0x50; 0xF2; 0x01].
Definition wps_oui_type : list Z := [0x00; 0x50; 0xF2; 0x04].
Definition s8 (x : Z) : Z := if x <? 128 then x else x - 256.

Section elements.
Context (individually_addressed is_beacon assoc_res_process is_from_assoc_ap : bool).

Definition ie_ssid (ie_data length : Z) : M unit :=
  let copy_length := if BSS_ESSID_MAX_SIZE <? length then BSS_ESSID_MAX_SIZE else length in
  l ← rd_bytes (Z.to_nat copy_length) ie_data;
  upd_bss (fun b => set_essid (write_bytes copy_length [0] (write_bytes 0 l (essid b))) b).

Definition ie_vendor_specific (ie_data : Z) : M unit :=
  l ← rd_bytes 4 ie_data;
  if decide (l = wpa_oui_type) then upd_bss (fun b => set_wpa_offs (ie_used_length b) b)
  else
    l ← rd_bytes 4 ie_data;
    if decide (l = wps_oui_type) then upd_bss (fun b => set_wps_offs (ie_used_length b) b) else mret tt.

Definition ie_coexistence (ie_data length : Z) : M unit :=
  when (fe_2040_active env)
    (el ← ie_extract_coex_el_info ie_data length;
     match el with
     | None => mret tt
     | Some el =>
         b ← get_bss;
         when (fe_rssi_threshold env (max_rssi b))
           (if fe_is_ap env then call (FCoexAp el) else call (FCoexSta el assoc_res_process))
     end).

Definition ie_intolerant_channels (ie_data length : Z) : M unit :=
  when (fe_2040_enabled env && fe_band_cfg_24 env && (fe_is_ap env && individually_addressed))
    (r ← ie_extract_intolerant_channels_report ie_data length;
     match r with Some (cls, l) => call (FObssResults cls l) | None => mret tt end).

Definition ie_obss_scan (ie_data length : Z) : M unit :=
  when (fe_2040_enabled env && fe_band_cur_24 env && negb (fe_is_ap env) && (individually_addressed || is_beacon) && is_from_assoc_ap)
    (r ← ie_extract_obss_scan_parameters ie_data length;
     match r with Some l => call (FObssParams l) | None => mret tt end).

(** The [switch] on the element's identifier; [ie]: the element's header. *)
Definition ie_handle (id ie length : Z) : M unit :=
  let ie_data := ie + 2 in
  if id =? IE_EXT_SUPP_RATES then upd_bss (set_is_2_4 1) ;; ie_extract_phy_rates ie_data length
  else if id =? IE_SUPPORTED_RATES then ie_extract_phy_rates ie_data length
  else if id =? IE_HT_INFORMATION then ie_extract_ht_info ie_data length
  else if id =? IE_SSID then ie_ssid ie_data length
  else if id =? IE_RSN then upd_bss (fun b => set_rsn_offs (ie_used_length b) b)
  else if id =? IE_VENDOR_SPECIFIC then ie_vendor_specific ie_data
  else if id =? IE_DS_PARAM_SET then ch ← rd ie_data; upd_bss (set_channel ch)
  else if id =? IE_HT_CAPABILITIES then upd_bss (set_is_ht 1) ;; ie_extract_htcap_info ie_data length
  else if id =? IE_PWR_CONSTRAINT then v ← rd ie_data; upd_bss (set_power (s8 v))
  else if id =? IE_COUNTRY then upd_bss (set_country (fe_country_of env (fun i => mem (ie_data + i))) (Some ie))
  else if id =? IE_COEXISTENCE then ie_coexistence ie_data length
  else if id =? IE_INTOLERANT_CHANNELS_REPORT then ie_intolerant_channels ie_data length
  else if id =? IE_OBSS_SCAN_PARAMETERS then ie_obss_scan ie_data length
  else mret tt.

(** The body of the loop for an element with a payload: keep it, look at it. *)
Definition ie_store (ie length : Z) : M unit :=
  l ← rd_bytes (Z.to_nat (length + 2)) ie;
  upd_bss (fun b => set_store (write_bytes (ie_used_length b) l (info_elements b)) (ie_used_length b) b) ;;
  id ← rd ie;
  ie_handle id ie length ;;
  upd_bss (fun b => set_store (info_elements b) (u16 (ie_used_length b + length + 2)) b).

(** [while (flen > sizeof(ie_t))] compares as unsigned. *)
Fixpoint ie_loop (fuel : nat) (fbuf flen : Z) : M unit :=
  match fuel with
  | O => mret tt
  | S fuel =>
      if 2 <? u32 flen then
        length ← rd (fbuf + 1);
        b ← get_bss;
        if flen <? length + 2 then mret tt
        else if MAX_INFO_ELEMENTS_LENGTH <? ie_used_length b + length + 2 then mret tt
        else
          when (negb (length =? 0)) (ie_store fbuf length) ;;
          ie_loop fuel (fbuf + (length + 2)) (flen - (length + 2))
      else mret tt
  end.

(** "Discard IEs that cause MAC failures afterward." *)
Definition ie_discard (b : bss_data_t) : bool :=
  ((is_2_4 b =? 0) && negb (Z.land (basic_rate_set b) 0x15 =? 0x15)) ||
  (negb (is_2_4 b =? 0) && (14 <? channel b)) ||
  (channel b =? 0) || (operational_rate_set b =? 0) ||
  (negb (spectrum b =? 0) && (Z.land (operational_rate_set b) 0xFFFF8000 =? 0)).

Definition ie_process (fbuf flen : Z) : M unit :=
  upd_bss (fun b => set_wps_offs 0xFFFF (set_wpa_offs 0xFFFF (set_rsn_offs 0xFFFF
    (set_store (info_elements b) 0 (set_rates 0 0 b))))) ;;
  ie_loop (S (Z.to_nat flen)) fbuf flen ;;
  b ← get_bss;
  when (ie_discard b) (upd_bss (set_essid (replicate 33 0))).
End elements.

(** ** Action frames *)

Definition ADDBA_PARAM_SET_POLICY : Z := MTLK_BFIELD_INFO 1 1.
Definition ADDBA_PARAM_SET_TID : Z := MTLK_BFIELD_INFO 2 4.
Definition ADDBA_PARAM_SET_SIZE : Z := MTLK_BFIELD_INFO 6 10.
Definition ADDBA_SSN_SSN : Z := MTLK_BFIELD_INFO 4 12.
Definition DELBA_PARAM_SET_INITIATOR : Z := MTLK_BFIELD_INFO 11 1.
Definition DELBA_PARAM_SET_TID : Z := MTLK_BFIELD_INFO 12 4.

(** [sta]: the sender is a known station. *)
Definition mtlk_process_action_frame_block_ack (sta : bool) (fbuf flen : Z) : M unit :=
  action ← rd fbuf;
  let fbuf := fbuf + 1 in
  if action =? 0 then
    when sta
      (dlgt ← rd fbuf; param_set ← rd16 (fbuf + 1); timeout ← rd16 (fbuf + 3); ssn ← rd16 (fbuf + 5);
       call (FAddba (CAddbaReqRx (MTLK_BFIELD_GET ssn ADDBA_SSN_SSN) (MTLK_BFIELD_GET param_set ADDBA_PARAM_SET_TID)
         (u8 (MTLK_BFIELD_GET param_set ADDBA_PARAM_SET_SIZE)) dlgt timeout
         (MTLK_BFIELD_GET param_set ADDBA_PARAM_SET_POLICY) MTLK_ADDBA_RATE_ADAPTIVE)))
  else if action =? 1 then
    when sta
      (dlgt ← rd fbuf; scode ← rd16 (fbuf + 1); param_set ← rd16 (fbuf + 3);
       call (FAddba (CAddbaResRx scode (MTLK_BFIELD_GET param_set ADDBA_PARAM_SET_TID)
         (u8 (MTLK_BFIELD_GET param_set ADDBA_PARAM_SET_SIZE)) dlgt)))
  else if action =? 2 then
    when sta
      (param_set ← rd16 fbuf; reason ← rd16 (fbuf + 2);
       call (FAddba (CDelbaRx (MTLK_BFIELD_GET param_set DELBA_PARAM_SET_TID) reason
         (MTLK_BFIELD_GET param_set DELBA_PARAM_SET_INITIATOR))))
  else mret tt.

(** Elements of a frame other than a beacon, into the temporary record. *)
Definition coex_info (fbuf flen : Z) (src_addr : list Z) (ind is_beacon assoc from_ap : bool) : M unit :=
  upd_bss (fun _ => bss_of_sender src_addr) ;; ie_process ind is_beacon assoc from_ap fbuf flen.
Definition _mtlk_process_action_frame_public (fbuf flen : Z) (src_addr : list Z) (ind is_beacon from_ap : bool) : M unit :=
  action ← rd fbuf;
  when (action =? 0) (coex_info (fbuf + 1) (flen - 1) src_addr ind is_beacon false from_ap).
Definition _mtlk_process_coex_info_from_man_frame (fbuf flen : Z) (src_addr : list Z) (ind is_beacon assoc from_ap : bool) : M unit :=
  coex_info fbuf flen src_addr ind is_beacon assoc from_ap.

Definition s32 (x : Z) : Z := if u32 x <? 2 ^ 31 then u32 x else u32 x - 2 ^ 32.
(** The loop over [u32nofItems] items. *)
Fixpoint vsaf_items (nof : nat) (fbuf flen : Z) : M unit :=
  match nof with
  | O => mret tt
  | S nof =>
      data_size ← rd32 fbuf;
      id ← rd32 (fbuf + 4);
      let fbuf := fbuf + 8 in
      let flen := s32 (flen - 8) in
      when (id =? 2) (call (FSpr fbuf flen)) ;;
      vsaf_items nof (fbuf + data_size) (s32 (flen - data_size))
  end.
Definition MTLK_OUI : list Z := [0x00; 0x09; 0x86].
Definition mtlk_process_action_frame_vendor_specific (fbuf flen : Z) : M unit :=
  o0 ← rd fbuf;
  if negb (o0 =? 0x00) then mret tt else
  o1 ← rd (fbuf + 1);
  if negb (o1 =? 0x09) then mret tt else
  o2 ← rd (fbuf + 2);
  if negb (o2 =? 0x86) then mret tt else
  let fbuf := fbuf + 3 in
  let flen := flen - 3 - 12 in
  data_size ← rd32 (fbuf + 4);
  if negb (data_size =? u32 flen) then mret tt else
  version ← rd32 fbuf;
  if negb (version =? 1) then mret tt else
  nof_items ← rd32 (fbuf + 8);
  vsaf_items (Z.to_nat nof_items) (fbuf + 12) flen.

(** ** Frames *)

Definition MAN_TYPE_PROBE_RES : Z := 5.
Definition MAN_TYPE_BEACON : Z := 8.
Definition MAN_TYPE_ACTION : Z := 13.

(** What the hardware reports with a frame. *)
Record rx_info := RxInfo { u8Channel : Z; aRssi : list Z; MaxRssi : Z; u8EstimatedNoise : Z }.

Definition _mtlk_is_my_addr (addr : Z) : M bool :=
  l ← rd_bytes 6 addr; mret (bool_decide (l = fe_my_addr env)).
Definition _mtlk_is_from_assoc_ap (bssid : Z) : M bool :=
  if fe_is_ap env then mret false
  else match fe_assoc_ap env with
       | None => mret false
       | Some ap => l ← rd_bytes 6 bssid; mret (bool_decide (l = ap))
       end.

Definition bss_type_of (capability : Z) : Z :=
  if bit_set capability 0x0002 then 2 else if bit_set capability 0x000C then 1 else 0.

(** The scan cache fills in a name it knows when the beacon has none. *)
Definition registered_bss (b : bss_data_t) : bss_data_t :=
  match fe_known_essid env (bssid b) with
  | Some e => if hd 0 (essid b) =? 0 then set_essid e b else b
  | None => b
  end.

Definition process_beacon (subtype fbuf flen : Z) (info : rx_info) : M unit :=
  let is_beacon := subtype =? MAN_TYPE_BEACON in
  bssid ← rd_bytes 6 16;
  capability ← rd16 (fbuf + 10);
  interval ← rd16 (fbuf + 8);
  lo ← rd32 fbuf;
  hi ← rd32 (fbuf + 4);
  upd_bss (fun _ => Bss (lo + 2 ^ 32 * hi) bssid (bss_type_of capability) (u8Channel info) 0 (u8 (MaxRssi info))
    (aRssi info) (u8EstimatedNoise info) capability interval (replicate 33 0) (replicate 512 0) 0 0 0 0 0 None 0 0 0 0 0 0 0 false) ;;
  ind ← _mtlk_is_my_addr 4;
  from_ap ← _mtlk_is_from_assoc_ap 16;
  ie_process ind is_beacon false from_ap (fbuf + 12) (flen - 12) ;;
  b ← get_bss;
  when (negb (fe_is_ap env)) (call (FCountryUpdate (country_code b))) ;;
  call (FUpdateAp b) ;;
  when (negb (fe_is_slave_ap env)) (call (FBssFound (channel b))) ;;
  when (fe_scan_running env || (fe_country_code env =? 0) || fe_2040_enabled env)
    (call (FRegisterBss b) ;;
     upd_bss registered_bss ;;
     when ((is_ht b =? 0) && fe_is_ap env && fe_band_cfg_24 env && fe_rssi_threshold env (max_rssi b))
       (call (FNonHtBeacon (channel b)))) ;;
  b ← get_bss;
  when (fe_is_ap env && fe_scan_running env) (call (FAocs b)) ;;
  when (fe_is_ap env && is_beacon) (call FWdsBeacon).

Definition process_action (sta : bool) (fbuf flen : Z) : M unit :=
  category ← rd fbuf;
  let fbuf := fbuf + 1 in
  let flen := flen - 1 in
  if category =? 3 then mtlk_process_action_frame_block_ack sta fbuf flen
  else if category =? 4 then
    src ← rd_bytes 6 10;
    ind ← _mtlk_is_my_addr 4;
    from_ap ← _mtlk_is_from_assoc_ap 16;
    _mtlk_process_action_frame_public fbuf flen src ind false from_ap
  else if category =? 127 then mtlk_process_action_frame_vendor_specific fbuf flen
  else mret tt.

(** [replayed]: what replay detection answers for a protected frame. *)
Definition mtlk_process_man_frame (sta replayed : bool) (len : Z) (info : rx_info) : M Z :=
  frame_ctrl ← rd16 0;
  let subtype := Z.shiftr (Z.land frame_ctrl 0x00F0) 4 in
  let protected_frame := bit_set frame_ctrl 0x4000 in
  if protected_frame && (negb sta || replayed) then mret MTLK_ERR_NOT_IN_USE
  else
    let fbuf := 24 + (if protected_frame then 8 else 0) in
    let flen := len - 24 - (if protected_frame then 8 else 0) in
    (if (0 <=? subtype) && (subtype <=? 4) then
       (* association, reassociation and probe requests *)
       when (fe_2040_enabled env && fe_band_cfg_24 env)
         (src ← rd_bytes 6 10;
          ind ← _mtlk_is_my_addr 4;
          from_ap ← _mtlk_is_from_assoc_ap 16;
          _mtlk_process_coex_info_from_man_frame fbuf flen src ind false ((subtype =? 1) || (subtype =? 2)) from_ap)
     else if (subtype =? MAN_TYPE_BEACON) || (subtype =? MAN_TYPE_PROBE_RES) then process_beacon subtype fbuf flen info
     else if subtype =? MAN_TYPE_ACTION then process_action sta fbuf flen
     else mret tt) ;;
    mret MTLK_ERR_OK.

(** [mtlk_process_ctl_frame]: a block ack request. *)
Definition mtlk_process_ctl_frame (fbuf flen : Z) : M unit :=
  fc ← rd16 fbuf;
  when (Z.land fc 0x00F0 =? 0x0080)
    (bar_ctl ← rd16 (fbuf + 16);
     ssn ← rd16 (fbuf + 18);
     call (FBar (u8 (Z.shiftr (Z.land bar_ctl 0xf000) 12)) (Z.shiftr (Z.land ssn 0xFFF0) 4))).
End Frame.

(** ** Capabilities of a station *)

Record sta_capabilities := StaCap {
  NetModesSupported : Z; MIMOConfigTX : Z; MIMOConfigRX : Z; WMMSupported : Z; CBSupported : Z; SGI20Supported : Z;
  SGI40Supported : Z; AMPDUMaxLengthExp : Z; AMPDUMinStartSpacing : Z; STBCSupported : bool; LDPCSupported : Z;
  Vendor : Z; LQLDPCEnabled : Z; BFSupported : bool
}.

Definition mtlk_frame_process_sta_capabilities (lq_proprietry u16HTCapabilityInfo AMPDU_Parameters tx_bf_capabilities
    boWMEsupported u32SupportedRates : Z) (band_24 : bool) : sta_capabilities :=
  let some mask := Z.b2z (bit_set u32SupportedRates mask) in
  let modes :=
    if band_24 then MTLK_U_BITS_SET (MTLK_U_BITS_SET 0 1 1 (some 0x7F00)) 2 1 (some 0x7FFF)
    else MTLK_U_BITS_SET 0 0 1 (some 0xFF) in
  let modes := MTLK_U_BITS_SET modes 3 1 (some 0xFFFF8000) in
  let ht from len := u8 (MTLK_BFIELD_GET u16HTCapabilityInfo (MTLK_BFIELD_INFO from len)) in
  let ampdu from len := u8 (MTLK_BFIELD_GET AMPDU_Parameters (MTLK_BFIELD_INFO from len)) in
  StaCap modes (ht 7 1) (ht 8 2) boWMEsupported (ht 1 1) (ht 5 1) (ht 6 1) (ampdu 0 2) (ampdu 2 3)
    (negb (ht 7 1 =? 0) || negb (ht 8 2 =? 0)) (ht 0 1)
    (u8 (MTLK_BFIELD_GET lq_proprietry (MTLK_BFIELD_INFO 0 3))) (u8 (MTLK_BFIELD_GET lq_proprietry (MTLK_BFIELD_INFO 3 1)))
    (negb (tx_bf_capabilities =? 0)).
