(* ===== verification/FrameReads.v ===== *)
(** * FrameReads: what the parser reads, and what it calls *)
From S2P Require Import Prelude Reflim TxmmIface Addba AddbaAcct AddbaSys FrameData Frame.

Section reads.
Context (lo hi : Z).

(** Reads between two offsets. *)
Definition touches (s s' : fs) : Prop :=
  exists l, touched s' = touched s ++ l /\ Forall (fun o => lo <= o < hi) l.

#[export] Instance touches_preorder : PreOrder touches.
Proof.
  split.
  - intros s. exists []. by rewrite app_nil_r.
  - intros s1 s2 s3 (l1 & H1 & F1) (l2 & H2 & F2). exists (l1 ++ l2). rewrite H2, H1, app_assoc. split; [done|]. by apply Forall_app.
Qed.

Lemma rd_touches mem o : lo <= o < hi -> within touches (rd mem o).
Proof. intros Ho s. exists [o]. split; [done|]. by constructor. Qed.
Lemma call_touches e : within touches (call e).
Proof. intros s. exists []. by rewrite app_nil_r. Qed.
Lemma upd_bss_touches f : within touches (upd_bss f).
Proof. intros s. exists []. by rewrite app_nil_r. Qed.
End reads.

Create HintDb reads.
#[export] Hint Resolve call_touches upd_bss_touches : reads.
#[export] Hint Extern 1 (within (touches _ _) (rd _ _)) => (apply rd_touches; lia) : reads.

(** Follow a program statement by statement. *)
Ltac reads_walk :=
  repeat first
    [ solve [auto with reads]
    | apply within_bind; [typeclasses eauto| |intros ?]
    | apply within_when; [typeclasses eauto|]
    | match goal with
      | |- within _ (if ?b then _ else _) => destruct b eqn:?; zbool
      | |- within _ (match ?x with _ => _ end) => destruct x
      end
    | apply within_ret; typeclasses eauto
    | apply within_gets; typeclasses eauto ].

Section programs.
Context (mem : Z -> Z) (env : frame_env).
Context (lo hi : Z).
Abbreviation T := (touches lo hi).

Lemma rd16_touches o : lo <= o /\ o + 2 <= hi -> within T (rd16 mem o).
Proof. intros Ho. unfold rd16. reads_walk. Qed.
Lemma rd32_touches o : lo <= o /\ o + 4 <= hi -> within T (rd32 mem o).
Proof. intros Ho. unfold rd32, rd16. reads_walk. Qed.
Lemma rd_bytes_touches n o : lo <= o /\ o + Z.of_nat n <= hi -> within T (rd_bytes mem n o).
Proof.
  revert o. induction n as [|n IH]; intros o Ho; cbn [rd_bytes]; [reads_walk|].
  apply within_bind; [typeclasses eauto|auto with reads; apply rd_touches; lia|intros a].
  apply within_bind; [typeclasses eauto|apply IH; lia|intros l]. reads_walk.
Qed.
Lemma rates_loop_touches n o : lo <= o /\ o + Z.of_nat n <= hi -> within T (rates_loop mem n o).
Proof.
  revert o. induction n as [|n IH]; intros o Ho; cbn [rates_loop]; [reads_walk|]. cbv zeta.
  apply within_bind; [typeclasses eauto|apply rd_touches; lia|intros a].
  apply within_bind; [typeclasses eauto|auto with reads|intros _]. apply IH. lia.
Qed.
End programs.

#[export] Hint Extern 1 (within (touches _ _) (rd16 _ _)) => (apply rd16_touches; lia) : reads.
#[export] Hint Extern 1 (within (touches _ _) (rd32 _ _)) => (apply rd32_touches; lia) : reads.
#[export] Hint Extern 1 (within (touches _ _) (rd_bytes _ _ _)) => (apply rd_bytes_touches; lia) : reads.
#[export] Hint Extern 1 (within (touches _ _) (rates_loop _ _ _)) => (apply rates_loop_touches; lia) : reads.

Section elements.
Context (mem : Z -> Z) (env : frame_env) (mem_byte : forall i, 0 <= mem i < 256).
Context (ind is_beacon assoc from_ap : bool).
Context (lo hi : Z).
Abbreviation T := (touches lo hi).

(** An element's own bytes, up to three more for a vendor's identifier. *)
Lemma ie_handle_touches id ie length : lo <= ie -> 1 <= length -> ie + 2 + length + 3 <= hi ->
  within T (ie_handle mem env ind is_beacon assoc from_ap id ie length).
Proof.
  intros Hlo Hl Hhi. unfold ie_handle, ie_extract_phy_rates, ie_extract_ht_info, ie_ssid, ie_vendor_specific,
    ie_extract_htcap_info, ie_coexistence, ie_extract_coex_el_info, ie_intolerant_channels, ie_extract_intolerant_channels_report,
    ie_obss_scan, ie_extract_obss_scan_parameters, get_bss, BSS_ESSID_MAX_SIZE. cbv zeta.
  reads_walk.
  apply rd_bytes_touches. case_match; zbool; lia.
Qed.

(** The rest of the area follows an element. *)
Lemma ie_loop_touches fuel fbuf flen : lo <= fbuf -> 0 <= flen < 2 ^ 31 -> fbuf + flen + 3 <= hi ->
  within T (ie_loop mem env ind is_beacon assoc from_ap fuel fbuf flen).
Proof.
  revert fbuf flen. induction fuel as [|fuel IH]; intros fbuf flen Hlo Hf Hhi; cbn [ie_loop]; [reads_walk|].
  rewrite u32_small by lia. pose proof (mem_byte (fbuf + 1)) as Hb. case_match; zbool; [|reads_walk].
  intros s. rewrite exec_bind.
  change (eval (rd mem (fbuf + 1)) s) with (mem (fbuf + 1)).
  etransitivity; [apply (rd_touches lo hi mem (fbuf + 1)); lia|]. generalize (exec (rd mem (fbuf + 1)) s). clear s.
  apply within_bind; [typeclasses eauto|apply within_gets; typeclasses eauto|intros b].
  destruct (flen <? mem (fbuf + 1) + 2) eqn:E1; zbool; [reads_walk|]. case_match; [reads_walk|].
  apply within_bind; [typeclasses eauto| |intros _; apply IH; lia].
  destruct (mem (fbuf + 1) =? 0) eqn:E0; cbn [negb when]; zbool; [apply within_ret; typeclasses eauto|].
  unfold ie_store. reads_walk. apply ie_handle_touches; lia.
Qed.

Lemma ie_process_touches fbuf flen : lo <= fbuf -> 0 <= flen < 2 ^ 31 -> fbuf + flen + 3 <= hi ->
  within T (ie_process mem env ind is_beacon assoc from_ap fbuf flen).
Proof.
  intros H1 H2 H3. unfold ie_process, get_bss. pose proof (ie_loop_touches (S (Z.to_nat flen)) fbuf flen H1 H2 H3). reads_walk.
Qed.
End elements.

Section short.
Context (mem : Z -> Z) (env : frame_env) (mem_byte : forall i, 0 <= mem i < 256).
Context (ind is_beacon assoc from_ap : bool).

(** A negative length compares as large; the walk stops at the first element. *)
Lemma ie_process_short fbuf flen s : - 2 ^ 31 <= flen < 0 ->
  touched (exec (ie_process mem env ind is_beacon assoc from_ap fbuf flen) s) = touched s ++ [fbuf + 1].
Proof.
  intros Hf. unfold ie_process, get_bss. rewrite !exec_bind. replace (Z.to_nat flen) with 0%nat by lia.
  cbn [ie_loop]. unfold u32. replace (flen `mod` 2 ^ 32) with (flen + 2 ^ 32).
  2:{ symmetry. rewrite <-(Z.mod_small (flen + 2 ^ 32) (2 ^ 32)) by lia. by rewrite <-(Z_mod_plus_full flen 1 (2 ^ 32)), Z.mul_1_l. }
  rewrite (proj2 (Z.ltb_lt 2 (flen + 2 ^ 32))) by lia. pose proof (mem_byte (fbuf + 1)) as Hb.
  rewrite exec_bind. change (eval (rd mem (fbuf + 1)) _) with (mem (fbuf + 1)).
  rewrite exec_bind. rewrite (proj2 (Z.ltb_lt flen (mem (fbuf + 1) + 2))) by lia.
  match goal with |- context [when ?b _] => destruct b end; done.
Qed.
End short.
