(* ===== verification/FrameStore.v ===== *)
(** * FrameStore: what walking the elements leaves in the description *)
From S2P Require Import Prelude Reflim TxmmIface Addba AddbaSys FrameData Frame FrameReads.

Lemma length_write o bs l : 0 <= o -> o + Z.of_nat (length bs) <= Z.of_nat (length l) ->
  length (write_bytes o bs l) = length l.
Proof. intros Ho Hb. unfold write_bytes. rewrite !length_app, length_take, length_drop. lia. Qed.

Lemma take_write o bs l : 0 <= o -> o + Z.of_nat (length bs) <= Z.of_nat (length l) ->
  take (Z.to_nat o + length bs) (write_bytes o bs l) = take (Z.to_nat o) l ++ bs.
Proof.
  intros Ho Hb. unfold write_bytes. rewrite app_assoc. apply take_app_length'. rewrite length_app, length_take. lia.
Qed.

Lemma lookup_write_lt o bs l i : (i < Z.to_nat o)%nat -> 0 <= o -> o + Z.of_nat (length bs) <= Z.of_nat (length l) ->
  write_bytes o bs l !! i = l !! i.
Proof.
  intros Hi Ho Hb. unfold write_bytes. rewrite lookup_app_l by (rewrite length_take; lia). by apply lookup_take_lt.
Qed.
Lemma lookup_write_in o bs l i : (i < length bs)%nat -> 0 <= o -> o + Z.of_nat (length bs) <= Z.of_nat (length l) ->
  write_bytes o bs l !! (Z.to_nat o + i)%nat = bs !! i.
Proof.
  intros Hi Ho Hb. unfold write_bytes. assert (length (take (Z.to_nat o) l) = Z.to_nat o) as Hl by (rewrite length_take; lia).
  rewrite lookup_app_r by lia. rewrite Hl. replace (Z.to_nat o + i - Z.to_nat o)%nat with i by lia.
  by rewrite lookup_app_l.
Qed.
Lemma lookup_write_gt o bs l i : (Z.to_nat o + length bs <= i)%nat -> 0 <= o -> o + Z.of_nat (length bs) <= Z.of_nat (length l) ->
  write_bytes o bs l !! i = l !! i.
Proof.
  intros Hi Ho Hb. unfold write_bytes. assert (length (take (Z.to_nat o) l) = Z.to_nat o) as Hl by (rewrite length_take; lia).
  rewrite lookup_app_r by lia. rewrite lookup_app_r by lia. rewrite lookup_drop. f_equal. lia.
Qed.

Section store.
Context (mem : Z -> Z) (env : frame_env) (mem_byte : forall i, 0 <= mem i < 256).
Context (ind is_beacon assoc from_ap : bool).

Definition bytes_at (n : nat) (o : Z) : list Z := (fun i => mem (o + Z.of_nat i)) <$> seq 0 n.

Lemma bytes_at_S n o : bytes_at (S n) o = mem o :: bytes_at n (o + 1).
Proof.
  unfold bytes_at. cbn [seq fmap list_fmap]. rewrite Z.add_0_r. f_equal. rewrite <-seq_shift, <-list_fmap_compose.
  apply list_fmap_ext. intros i x _. unfold compose. f_equal. lia.
Qed.
Lemma length_bytes_at n o : length (bytes_at n o) = n.
Proof. unfold bytes_at. by rewrite length_fmap, length_seq. Qed.
Lemma lookup_bytes_at n o i : (i < n)%nat -> bytes_at n o !! i = Some (mem (o + Z.of_nat i)).
Proof. intros Hi. unfold bytes_at. rewrite list_lookup_fmap, lookup_seq_lt by done. done. Qed.

Lemma eval_rd_bytes n o s : eval (rd_bytes mem n o) s = bytes_at n o.
Proof.
  revert o s. induction n as [|n IH]; intros o s; [done|]. cbn [rd_bytes]. rewrite bytes_at_S, !eval_bind, IH. done.
Qed.

Lemma rd_bytes_bss n o s : bss (exec (rd_bytes mem n o) s) = bss s.
Proof.
  revert o s. induction n as [|n IH]; intros o s; [done|]. cbn [rd_bytes]. rewrite !exec_bind.
  rewrite run_end_ret, IH. done.
Qed.

(** ** An element at the end of the store *)

Definition essid_ok (b : bss_data_t) : Prop := length (essid b) = 33%nat /\ essid b !! 32%nat = Some 0.
Record handled (id : Z) (b b' : bss_data_t) : Prop := {
  hd_info : info_elements b' = info_elements b;
  hd_used : ie_used_length b' = ie_used_length b;
  hd_essid : essid_ok b -> essid_ok b';
  hd_rsn : rsn_offs b' = rsn_offs b \/ id = IE_RSN /\ rsn_offs b' = ie_used_length b;
  hd_wpa : wpa_offs b' = wpa_offs b \/ id = IE_VENDOR_SPECIFIC /\ wpa_offs b' = ie_used_length b;
  hd_wps : wps_offs b' = wps_offs b \/ id = IE_VENDOR_SPECIFIC /\ wps_offs b' = ie_used_length b;
}.
Definition handled_rel id (s s' : fs) : Prop := handled id (bss s) (bss s').

#[local] Instance handled_preorder id : PreOrder (handled_rel id).
Proof.
  split.
  - intros s. split; auto.
  - intros s1 s2 s3 [] []. split; try congruence; [auto|..]; intuition congruence.
Qed.

Lemma rd_handled id o : within (handled_rel id) (rd mem o).
Proof. intros s. by split; auto. Qed.
Lemma call_handled id e : within (handled_rel id) (call e).
Proof. intros s. by split; auto. Qed.
Lemma upd_handled id f : (forall b, handled id b (f b)) -> within (handled_rel id) (upd_bss f).
Proof. intros Hf s. apply Hf. Qed.

Lemma rd_bytes_handled id n o : within (handled_rel id) (rd_bytes mem n o).
Proof.
  revert o. induction n as [|n IH]; intros o; cbn [rd_bytes]; [apply within_ret, _|].
  apply within_bind; [apply _|apply rd_handled|intros a]. apply within_bind; [apply _|apply IH|intros l]. apply within_ret, _.
Qed.
Lemma rates_loop_handled id n o : within (handled_rel id) (rates_loop mem n o).
Proof.
  revert o. induction n as [|n IH]; intros o; cbn [rates_loop]; [apply within_ret, _|]. cbv zeta.
  apply within_bind; [apply _|apply rd_handled|intros a]. apply within_bind; [apply _|apply upd_handled; intros b; by split; auto|intros l].
  apply IH.
Qed.

Lemma ssid_handled id o n : 1 <= n -> within (handled_rel id) (ie_ssid mem o n).
Proof.
  intros Hn. unfold ie_ssid, BSS_ESSID_MAX_SIZE. set (c := if 32 <? n then 32 else n).
  assert (0 <= c <= 32) as Hc by (unfold c; case_match; zbool; lia). intros s. rewrite exec_bind, eval_rd_bytes.
  etransitivity; [apply rd_bytes_handled|]. apply upd_handled. intros b. split; cbn; auto. intros [H1 H2].
  assert (length (write_bytes 0 (bytes_at (Z.to_nat c) o) (essid b)) = 33%nat) as Hl
    by (rewrite length_write; rewrite ?length_bytes_at; lia).
  split; cbn.
  - rewrite length_write; [done|lia|]. rewrite Hl. cbn. lia.
  - destruct (decide (c = 32)) as [E|Hne].
    + replace 32%nat with (Z.to_nat c + 0)%nat at 1 by (rewrite E; lia). rewrite lookup_write_in; [done|cbn; lia|lia|rewrite Hl; cbn; lia].
    + rewrite lookup_write_gt; [|cbn; lia|lia|rewrite Hl; cbn; lia].
      rewrite lookup_write_gt; [done|rewrite length_bytes_at; lia|lia|rewrite length_bytes_at; lia].
Qed.

Ltac handled_walk :=
  repeat lazymatch goal with
    | |- within _ (rd _ _) => apply rd_handled
    | |- within _ (call _) => apply call_handled
    | |- within _ (rd_bytes _ _ _) => apply rd_bytes_handled
    | |- within _ (rates_loop _ _ _) => apply rates_loop_handled
    | |- within _ (ie_ssid _ _ _) => by apply ssid_handled
    | |- within _ (upd_bss _) => apply upd_handled; intros ?; split; cbn; solve [auto 6]
    | |- within _ (mbind _ _) => apply within_bind; [apply handled_preorder| |intros ?]
    | |- within _ (when _ _) => apply within_when; [apply handled_preorder|]
    | |- within _ (if ?b then _ else _) => destruct b eqn:?; zbool
    | |- within _ (match ?x with _ => _ end) => destruct x
    | |- within _ (mret _) => apply within_ret, handled_preorder
    | |- within _ (gets _) => apply within_gets, handled_preorder
    end.

Lemma ie_handle_handled id ie n : 1 <= n -> within (handled_rel id) (ie_handle mem env ind is_beacon assoc from_ap id ie n).
Proof.
  intros Hn. unfold ie_handle, ie_extract_phy_rates, ie_extract_ht_info, ie_vendor_specific,
    ie_extract_htcap_info, ie_coexistence, ie_extract_coex_el_info, ie_intolerant_channels, ie_extract_intolerant_channels_report,
    ie_obss_scan, ie_extract_obss_scan_parameters, get_bss, rd16. cbv zeta.
  handled_walk.
Qed.

(** ** What the store holds *)

(** An offset is either the mark for "none" or the start of a stored element
    with the identifier, whole within the used part. *)
Definition offs_ok (id o : Z) (b : bss_data_t) : Prop :=
  o = 0xFFFF \/
  0 <= o /\ info_elements b !! Z.to_nat o = Some id /\
  exists n, info_elements b !! Z.to_nat (o + 1) = Some n /\ 1 <= n /\ o + 2 + n <= ie_used_length b.
Record bss_wf (b : bss_data_t) : Prop := {
  bw_essid : essid_ok b;
  bw_info : length (info_elements b) = 512%nat;
  bw_used : 0 <= ie_used_length b <= 512;
  bw_rsn : offs_ok IE_RSN (rsn_offs b) b;
  bw_wpa : offs_ok IE_VENDOR_SPECIFIC (wpa_offs b) b;
  bw_wps : offs_ok IE_VENDOR_SPECIFIC (wps_offs b) b;
}.

(** Storing an element behind the used part. *)
Record stored (ie n : Z) (b b' : bss_data_t) : Prop := {
  so_wf : bss_wf b';
  so_used : ie_used_length b' = ie_used_length b + n + 2;
  so_info : take (Z.to_nat (ie_used_length b')) (info_elements b') =
    take (Z.to_nat (ie_used_length b)) (info_elements b) ++ bytes_at (Z.to_nat (n + 2)) ie;
}.

Lemma offs_later id o b b' : offs_ok id o b -> 0 <= ie_used_length b ->
  (forall i, (i < Z.to_nat (ie_used_length b))%nat -> info_elements b' !! i = info_elements b !! i) ->
  ie_used_length b <= ie_used_length b' -> offs_ok id o b'.
Proof.
  intros [->|(H1 & H2 & n & H3 & H4 & H5)] Hu Hi Hle; [by left|]. right. split; [done|]. rewrite Hi by lia. split; [done|].
  exists n. rewrite Hi by lia. split; [done|lia].
Qed.

Lemma ie_store_spec ie n s : bss_wf (bss s) -> 1 <= n -> mem (ie + 1) = n -> ie_used_length (bss s) + n + 2 <= 512 ->
  stored ie n (bss s) (bss (exec (ie_store mem env ind is_beacon assoc from_ap ie n) s)).
Proof.
  intros [We Wi Wu Wr Wa Ws] Hn Hm Hfit. unfold ie_store. rewrite exec_bind, eval_rd_bytes.
  set (l := bytes_at (Z.to_nat (n + 2)) ie). assert (length l = Z.to_nat (n + 2)) as Hl by apply length_bytes_at.
  rewrite exec_bind. set (s2 := exec (upd_bss _) (exec (rd_bytes mem (Z.to_nat (n + 2)) ie) s)).
  assert (bss s2 = set_store (write_bytes (ie_used_length (bss s)) l (info_elements (bss s))) (ie_used_length (bss s)) (bss s)) as E2
    by (unfold s2; cbn; by rewrite rd_bytes_bss).
  rewrite exec_bind. change (eval (rd mem ie) s2) with (mem ie). rewrite exec_bind.
  set (s3 := exec (ie_handle _ _ _ _ _ _ _ _ _) _). pose proof (ie_handle_handled (mem ie) ie n Hn (exec (rd mem ie) s2)) as H3. fold s3 in H3.
  unfold handled_rel in H3. change (bss (exec (rd mem ie) s2)) with (bss s2) in H3.
  clearbody s3. rewrite E2 in H3. clear E2 s2. destruct H3 as [Hi Hu He Hr Ha Hs]. cbn in Hi, Hu, He, Hr, Ha, Hs.
  set (u := ie_used_length (bss s)) in *. set (b := bss s) in *. set (b3 := bss s3) in *.
  change (stored ie n b (set_store (info_elements b3) (u16 (ie_used_length b3 + n + 2)) b3)). clearbody b3.
  assert (length (write_bytes u l (info_elements b)) = 512%nat) as Hlen by (rewrite length_write; lia).
  assert (u16 (u + n + 2) = u + n + 2) as Hu16 by (apply u16_small; lia).
  assert (forall i, (i < Z.to_nat u)%nat -> info_elements b3 !! i = info_elements b !! i) as Hlow
    by (intros i Hlt; rewrite Hi; apply lookup_write_lt; lia).
  assert (forall i x, (i < Z.to_nat (n + 2))%nat -> mem (ie + Z.of_nat i) = x -> info_elements b3 !! (Z.to_nat u + i)%nat = Some x) as Hnew.
  { intros i x Hlt <-. rewrite Hi, lookup_write_in by lia. by apply lookup_bytes_at. }
  set (b' := set_store (info_elements b3) (u16 (ie_used_length b3 + n + 2)) b3).
  assert (ie_used_length b' = u + n + 2) as Eu by (cbn; by rewrite Hu).
  assert (forall id o, offs_ok id o b -> offs_ok id o b') as Hold by (intros id o Ho; apply (offs_later id o b); [done|lia|exact Hlow|rewrite Eu; lia]).
  assert (forall id, mem ie = id -> offs_ok id u b') as Hself.
  { intros id Hid. right. split; [lia|]. split.
    - rewrite <-(Nat.add_0_r (Z.to_nat u)). apply Hnew; [lia|]. by rewrite Z.add_0_r.
    - exists n. split; [|split; [done|rewrite Eu; lia]]. replace (Z.to_nat (u + 1)) with (Z.to_nat u + 1)%nat by lia. apply Hnew; [lia|done]. }
  split; [split| |].
  - by apply He.
  - change (length (info_elements b3) = 512%nat). by rewrite Hi.
  - rewrite Eu. lia.
  - destruct Hr as [E|[Eid E]]; cbn; rewrite E; [by apply Hold|by apply Hself].
  - destruct Ha as [E|[Eid E]]; cbn; rewrite E; [by apply Hold|by apply Hself].
  - destruct Hs as [E|[Eid E]]; cbn; rewrite E; [by apply Hold|by apply Hself].
  - exact Eu.
  - change (take (Z.to_nat (ie_used_length b')) (info_elements b3) = take (Z.to_nat u) (info_elements b) ++ l). rewrite Eu, Hi.
    replace (Z.to_nat (u + n + 2)) with (Z.to_nat u + length l)%nat by lia. apply take_write; lia.
Qed.

End store.

(** * The walk over the elements against its reference

    An area of elements is the concatenation of identifier, length and payload
    of each, and a rest that is no whole element.  The description keeps the
    elements with a payload up to the first that has no room left. *)

(** ** The reference *)

Definition element : Type := Z * list Z.
Definition payload_len (e : element) : Z := Z.of_nat (length e.2).
Definition encode_element (e : element) : list Z := e.1 :: payload_len e :: e.2.
Definition encode (els : list element) : list Z := els ≫= encode_element.
(** Elements kept in [room] bytes. *)
Fixpoint kept (room : Z) (els : list element) : list element :=
  match els with
  | [] => []
  | e :: els =>
      if room <? payload_len e + 2 then []
      else if payload_len e =? 0 then kept room els
      else e :: kept (room - (payload_len e + 2)) els
  end.
(** A rest that is no whole element: too short for a header and a byte, or for the length in it. *)
Definition no_element (rest : list Z) : Prop :=
  (length rest <= 2)%nat \/ exists n, rest !! 1%nat = Some n /\ Z.of_nat (length rest) < n + 2.
Definition element_ok (e : element) : Prop := payload_len e < 256.

Lemma length_encode_element e : Z.of_nat (length (encode_element e)) = payload_len e + 2.
Proof. unfold encode_element, payload_len. cbn. lia. Qed.
Lemma encode_cons e els : encode (e :: els) = encode_element e ++ encode els.
Proof. done. Qed.

Section walk.
Context (mem : Z -> Z) (env : frame_env) (mem_byte : forall i, 0 <= mem i < 256).
Context (ind is_beacon assoc from_ap : bool).
Abbreviation loop := (ie_loop mem env ind is_beacon assoc from_ap).
Abbreviation at_ := (bytes_at mem).

Lemma bytes_at_app n m o : at_ (n + m) o = at_ n o ++ at_ m (o + Z.of_nat n).
Proof.
  revert o. induction n as [|n IH]; intros o; [by rewrite Z.add_0_r|]. cbn [Nat.add].
  rewrite !bytes_at_S, IH. cbn. do 3 f_equal. lia.
Qed.
Lemma bytes_at_split l1 l2 o : at_ (length (l1 ++ l2)) o = l1 ++ l2 ->
  at_ (length l1) o = l1 /\ at_ (length l2) (o + Z.of_nat (length l1)) = l2.
Proof. rewrite length_app, bytes_at_app. intros H. apply app_inj_1 in H; [done|apply length_bytes_at]. Qed.
Lemma bytes_at_lookup l o i x : at_ (length l) o = l -> l !! i = Some x -> mem (o + Z.of_nat i) = x.
Proof.
  intros Hl Hx. assert (i < length l)%nat as Hi by (by eapply lookup_lt_Some).
  rewrite <-Hl, lookup_bytes_at in Hx by done. by simplify_eq.
Qed.

(** Whatever the bytes, the description stays well formed. *)
Lemma ie_loop_wf fuel fbuf flen s : bss_wf (bss s) -> bss_wf (bss (exec (loop fuel fbuf flen) s)).
Proof.
  revert fbuf flen s. induction fuel as [|fuel IH]; intros fbuf flen s Hs; cbn [ie_loop]; [done|].
  case_match; [|done]. rewrite exec_bind. change (eval (rd mem (fbuf + 1)) s) with (mem (fbuf + 1)).
  rewrite exec_bind. change (exec get_bss (exec (rd mem (fbuf + 1)) s)) with (exec (rd mem (fbuf + 1)) s).
  change (eval get_bss (exec (rd mem (fbuf + 1)) s)) with (bss s).
  change (bss s) with (bss (exec (rd mem (fbuf + 1)) s)) in Hs |- *. generalize dependent (exec (rd mem (fbuf + 1)) s). clear s. intros s Hs.
  pose proof (mem_byte (fbuf + 1)) as Hb. case_match; [done|]. destruct (MAX_INFO_ELEMENTS_LENGTH <? _) eqn:Hroom; [done|].
  unfold MAX_INFO_ELEMENTS_LENGTH in Hroom. zbool. rewrite exec_bind. apply IH. destruct (mem (fbuf + 1) =? 0) eqn:E0; [done|]. zbool.
  apply (ie_store_spec mem env ind is_beacon assoc from_ap fbuf (mem (fbuf + 1)) s Hs); [lia|done|lia].
Qed.

(** One whole element at the front. *)
Lemma ie_loop_element fuel fbuf flen s e : at_ (length (encode_element e)) fbuf = encode_element e -> element_ok e ->
  payload_len e + 2 <= flen -> flen < 2 ^ 31 -> bss_wf (bss s) ->
  let room := 512 - ie_used_length (bss s) in
  (room < payload_len e + 2 \/ flen <= 2 ->
     bss (exec (loop (S fuel) fbuf flen) s) = bss s) /\
  (payload_len e + 2 <= room -> 2 < flen -> exists s1,
     (if payload_len e =? 0 then bss s1 = bss s
      else stored mem fbuf (payload_len e) (bss s) (bss s1)) /\
     bss (exec (loop (S fuel) fbuf flen) s) =
     bss (exec (loop fuel (fbuf + (payload_len e + 2)) (flen - (payload_len e + 2))) s1)).
Proof.
  intros Hat Hok Hf Hmax Hs room. unfold element_ok in Hok. assert (0 <= payload_len e) as Hp by (unfold payload_len; lia).
  assert (mem (fbuf + 1) = payload_len e) as Hn by (by apply (bytes_at_lookup (encode_element e) fbuf 1 (payload_len e))).
  cbn [ie_loop]. rewrite u32_small by lia. destruct (2 <? flen) eqn:E2; zbool; [|by split; [|lia]].
  rewrite exec_bind. change (eval (rd mem (fbuf + 1)) s) with (mem (fbuf + 1)). rewrite Hn.
  rewrite exec_bind. change (exec get_bss (exec (rd mem (fbuf + 1)) s)) with (exec (rd mem (fbuf + 1)) s).
  change (eval get_bss (exec (rd mem (fbuf + 1)) s)) with (bss s).
  change (bss s) with (bss (exec (rd mem (fbuf + 1)) s)) in room, Hs |- *. generalize dependent (exec (rd mem (fbuf + 1)) s). clear s. intros s room Hs.
  rewrite (proj2 (Z.ltb_ge flen (payload_len e + 2))) by lia. unfold MAX_INFO_ELEMENTS_LENGTH. split.
  - intros [Hr|Hr]; [|lia]. by rewrite (proj2 (Z.ltb_lt 512 (ie_used_length (bss s) + payload_len e + 2))) by lia.
  - intros Hr _. rewrite (proj2 (Z.ltb_ge 512 (ie_used_length (bss s) + payload_len e + 2))) by lia. rewrite exec_bind.
    eexists. split; [|done]. destruct (payload_len e =? 0) eqn:E0; [done|]. zbool. cbn [negb when]. apply ie_store_spec; [done..|lia|done|lia].
Qed.

(** Nothing of a rest that is no whole element is looked at. *)
Lemma ie_loop_rest fuel fbuf rest s : at_ (length rest) fbuf = rest -> no_element rest -> Z.of_nat (length rest) < 2 ^ 31 ->
  bss (exec (loop fuel fbuf (Z.of_nat (length rest))) s) = bss s.
Proof.
  intros Hat Hno Hlen. destruct fuel as [|fuel]; [done|]. cbn [ie_loop]. rewrite u32_small by lia. case_match; [|done]. zbool.
  destruct Hno as [?|(n & Hn & Hlt)]; [lia|]. rewrite exec_bind. change (eval (rd mem (fbuf + 1)) s) with (mem (fbuf + 1)).
  pose proof (bytes_at_lookup rest fbuf 1 n Hat Hn) as Hn'. change (Z.of_nat 1) with 1 in Hn'. rewrite Hn', exec_bind. by rewrite (proj2 (Z.ltb_lt (Z.of_nat (length rest)) (n + 2))) by lia.
Qed.

(** ** The walk *)

Record walked (els : list element) (b b' : bss_data_t) : Prop := {
  wk_wf : bss_wf b';
  wk_used : ie_used_length b' = ie_used_length b + Z.of_nat (length (encode (kept (512 - ie_used_length b) els)));
  wk_info : take (Z.to_nat (ie_used_length b')) (info_elements b') =
    take (Z.to_nat (ie_used_length b)) (info_elements b) ++ encode (kept (512 - ie_used_length b) els);
}.

Lemma walked_same els b : bss_wf b -> kept (512 - ie_used_length b) els = [] -> walked els b b.
Proof. intros Hb E. split; rewrite ?E, ?app_nil_r; cbn; [done|lia|done]. Qed.

Lemma ie_loop_walk els rest fuel fbuf s : at_ (length (encode els ++ rest)) fbuf = encode els ++ rest ->
  Forall element_ok els -> no_element rest -> (length (encode els ++ rest) < fuel)%nat ->
  Z.of_nat (length (encode els ++ rest)) < 2 ^ 31 -> bss_wf (bss s) ->
  walked els (bss s) (bss (exec (loop fuel fbuf (Z.of_nat (length (encode els ++ rest)))) s)).
Proof.
  revert fuel fbuf s. induction els as [|e els IH]; intros fuel fbuf s Hat Hok Hno Hfuel Hlen Hs.
  { change (encode [] ++ rest) with rest in *. rewrite ie_loop_rest by done. by apply walked_same. }
  apply Forall_cons in Hok as [He Hok]. rewrite encode_cons, <-app_assoc in Hat, Hfuel, Hlen |- *.
  destruct (bytes_at_split _ _ _ Hat) as [Hhd Htl]. pose proof (length_encode_element e) as Hl. pose proof Hs as [_ _ Hu _ _ _].
  destruct fuel as [|fuel]; [lia|]. rewrite length_app in Hfuel, Hlen |- *.
  set (n := length (encode els ++ rest)) in *. assert (0 <= payload_len e) as Hp by (unfold payload_len; lia).
  destruct (ie_loop_element fuel fbuf (Z.of_nat (length (encode_element e) + n)) s e Hhd He) as [Hno' Hyes]; [lia..|done|].
  destruct (Z.lt_ge_cases (512 - ie_used_length (bss s)) (payload_len e + 2)) as [Hr|Hr].
  { rewrite Hno' by auto. apply walked_same; [done|]. cbn. by rewrite (proj2 (Z.ltb_lt _ _)). }
  destruct (Z.le_gt_cases (Z.of_nat (length (encode_element e) + n)) 2) as [H2|H2].
  { rewrite Hno' by auto. apply walked_same; [done|]. assert (els = []) as ->.
    { destruct els as [|e' els]; [done|]. exfalso. subst n. rewrite encode_cons, !length_app in H2. pose proof (length_encode_element e'). unfold payload_len in *. lia. }
    cbn. rewrite (proj2 (Z.ltb_ge _ _)) by lia. by rewrite (proj2 (Z.eqb_eq _ _)) by lia. }
  destruct (Hyes Hr H2) as (s1 & Hs1 & ->).
  replace (Z.of_nat (length (encode_element e) + n) - (payload_len e + 2)) with (Z.of_nat n) by lia.
  rewrite <-Hl.
  destruct (payload_len e =? 0) eqn:E0.
  - assert (walked els (bss s1) (bss (exec (loop fuel (fbuf + Z.of_nat (length (encode_element e))) (Z.of_nat n)) s1))) as [Hw1 Hw2 Hw3].
    { apply IH; try done; [lia..|]. by rewrite Hs1. }
    rewrite Hs1 in Hw2, Hw3. split; [done|..]; cbn [kept]; rewrite (proj2 (Z.ltb_ge _ _)) by lia; by rewrite E0.
  - destruct Hs1 as [Hw Hu1 Hi1].
    assert (walked els (bss s1) (bss (exec (loop fuel (fbuf + Z.of_nat (length (encode_element e))) (Z.of_nat n)) s1))) as [Hw1 Hw2 Hw3]
      by (apply IH; try done; lia).
    replace (512 - ie_used_length (bss s1)) with (512 - ie_used_length (bss s) - (payload_len e + 2)) in Hw2, Hw3 by lia.
    split; [done|..]; cbn [kept]; rewrite (proj2 (Z.ltb_ge _ _)) by lia; rewrite E0; cbn zeta; rewrite encode_cons.
    + rewrite length_app, Hw2. lia.
    + rewrite Hw3, Hi1, <-app_assoc. f_equal. replace (Z.to_nat (payload_len e + 2)) with (length (encode_element e)) by lia. by rewrite Hhd.
Qed.

(** ** The whole parse *)

(** The arrays have their size and the name its terminating zero. *)
Definition bss_shape (b : bss_data_t) : Prop := essid_ok b /\ length (info_elements b) = 512%nat.

Definition bss_start (b : bss_data_t) : bss_data_t :=
  set_wps_offs 0xFFFF (set_wpa_offs 0xFFFF (set_rsn_offs 0xFFFF (set_store (info_elements b) 0 (set_rates 0 0 b)))).
Lemma bss_start_wf b : bss_shape b -> bss_wf (bss_start b).
Proof. intros [H1 H2]. split; cbn; [exact H1|exact H2|lia|by left..]. Qed.

Definition bss_end (b : bss_data_t) : bss_data_t := if ie_discard b then set_essid (replicate 33 0) b else b.
Lemma bss_end_wf b : bss_wf b -> bss_wf (bss_end b).
Proof. intros [H1 H2 H3 H4 H5 H6]. unfold bss_end. case_match; [|done]. by split. Qed.
Lemma bss_end_used b : ie_used_length (bss_end b) = ie_used_length b /\ info_elements (bss_end b) = info_elements b.
Proof. unfold bss_end. by case_match. Qed.

Lemma ie_process_bss fbuf flen s : exists s1, bss s1 = bss_start (bss s) /\
  bss (exec (ie_process mem env ind is_beacon assoc from_ap fbuf flen) s) = bss_end (bss (exec (loop (S (Z.to_nat flen)) fbuf flen) s1)).
Proof.
  unfold ie_process. rewrite !exec_bind. set (s1 := exec (upd_bss _) s). exists s1. split; [done|].
  set (s2 := exec (loop _ _ _) s1). change (eval get_bss s2) with (bss s2). change (exec get_bss s2) with s2.
  unfold bss_end. by destruct (ie_discard (bss s2)).
Qed.

Lemma ie_process_shape fbuf flen s : bss_shape (bss s) ->
  bss_wf (bss (exec (ie_process mem env ind is_beacon assoc from_ap fbuf flen) s)).
Proof.
  intros Hs. destruct (ie_process_bss fbuf flen s) as (s1 & E & ->). apply bss_end_wf, ie_loop_wf. rewrite E. by apply bss_start_wf.
Qed.

Lemma ie_process_walk els rest fbuf s : at_ (length (encode els ++ rest)) fbuf = encode els ++ rest ->
  Forall element_ok els -> no_element rest -> Z.of_nat (length (encode els ++ rest)) < 2 ^ 31 -> bss_shape (bss s) ->
  let b' := bss (exec (ie_process mem env ind is_beacon assoc from_ap fbuf (Z.of_nat (length (encode els ++ rest)))) s) in
  take (Z.to_nat (ie_used_length b')) (info_elements b') = encode (kept 512 els).
Proof.
  intros Hat Hok Hno Hlen Hs b'. unfold b'. destruct (ie_process_bss fbuf (Z.of_nat (length (encode els ++ rest))) s) as (s1 & E & ->).
  destruct (ie_loop_walk els rest (S (Z.to_nat (Z.of_nat (length (encode els ++ rest))))) fbuf s1) as [_ _ Hi]; try done; [lia|rewrite E; by apply bss_start_wf|].
  destruct (bss_end_used (bss (exec (loop (S (Z.to_nat (Z.of_nat (length (encode els ++ rest))))) fbuf (Z.of_nat (length (encode els ++ rest)))) s1))) as [-> ->].
  rewrite Hi, E. done.
Qed.
End walk.
