(* ===== verification/FrameCalls.v ===== *)
(** * FrameCalls: what the parser hands to other modules *)
From S2P Require Import Prelude Reflim TxmmIface Addba AddbaAcct AddbaSys Sta StaRep FrameData Frame FrameReads FrameStore.

(** ** Bit fields *)

Lemma land_ones_range a n : 0 <= n -> 0 <= Z.land a (Z.shiftl 1 n - 1) < 2 ^ n.
Proof.
  intros Hn. change (0 <= Z.land a (Z.ones n) < 2 ^ n). rewrite Z.land_ones by done. apply Z.mod_pos_bound. lia.
Qed.
Lemma bits_get_range bf from len : 0 <= len -> 0 <= MTLK_U_BITS_GET bf from len < 2 ^ len.
Proof. intros Hl. by apply land_ones_range. Qed.
Lemma bfield_get_range var info n : u8 (Z.shiftr (u16 info) 8) = n -> 0 <= MTLK_BFIELD_GET var info < 2 ^ n.
Proof. intros <-. apply bits_get_range, u8_range. Qed.

Lemma bar_tid_range v : 0 <= u8 (Z.shiftr (Z.land v 0xf000) 12) < 16.
Proof.
  rewrite Z.shiftr_land. change (Z.shiftr 0xf000 12) with (Z.shiftl 1 4 - 1). pose proof (land_ones_range (Z.shiftr v 12) 4) as H.
  rewrite u8_small by lia. by apply H.
Qed.

(** ** Events *)

Definition addba_fields (c : addba_call) : Prop :=
  match c with
  | CAddbaReqRx ssn tid win _ _ policy rate => 0 <= ssn < 4096 /\ 0 <= tid < 16 /\ 0 <= win < 256 /\ 0 <= policy < 2
  | CAddbaResRx _ tid win _ => 0 <= tid < 16 /\ 0 <= win < 256
  | CDelbaRx tid _ initiator => 0 <= tid < 16 /\ 0 <= initiator < 2
  | _ => False
  end.
(** Requests are within the width of their fields, and descriptions are well formed. *)
Definition ev_ok (e : frame_ev) : Prop :=
  match e with
  | FAddba c => addba_fields c
  | FBar tid ssn => 0 <= tid < 16 /\ 0 <= ssn < 4096
  | FUpdateAp b | FRegisterBss b => bss_wf b
  | FAocs b => bss_wf (set_essid (replicate 33 0) b)     (* the name may be the scan cache's *)
  | _ => True
  end.
(** The calls a program adds satisfy [ev_ok]. *)
Definition emits (s s' : fs) : Prop := exists l, calls s' = calls s ++ l /\ Forall ev_ok l.

#[export] Instance emits_preorder : PreOrder emits.
Proof.
  split.
  - intros s. exists []. by rewrite app_nil_r.
  - intros s1 s2 s3 (l1 & H1 & F1) (l2 & H2 & F2). exists (l1 ++ l2). rewrite H2, H1, app_assoc. split; [done|]. by apply Forall_app.
Qed.
Lemma call_emits e : ev_ok e -> within emits (call e).
Proof. intros He s. exists [e]. split; [done|]. by constructor. Qed.
Lemma emits_seq {A B} (m : ST fs A) (f : A -> ST fs B) s :
  emits s (exec m s) -> emits (exec m s) (exec (f (eval m s)) (exec m s)) -> emits s (exec (m ≫= f) s).
Proof. intros H1 H2. rewrite exec_bind. by transitivity (exec m s). Qed.

(** Programs that call nothing. *)
Definition quiet (s s' : fs) : Prop := calls s' = calls s.
#[export] Instance quiet_preorder : PreOrder quiet.
Proof. split; [done|]. intros s1 s2 s3 H1 H2. unfold quiet in *. congruence. Qed.
Lemma quiet_emits {A} (m : ST fs A) : within quiet m -> within emits m.
Proof. intros Hm s. exists []. rewrite app_nil_r. split; [apply Hm|constructor]. Qed.

Section calls.
Context (mem : Z -> Z) (env : frame_env) (mem_byte : forall i, 0 <= mem i < 256).

Lemma rd_quiet o : within quiet (rd mem o).
Proof. done. Qed.
Lemma upd_bss_quiet f : within quiet (upd_bss f).
Proof. done. Qed.
Lemma rd_bytes_quiet n o : within quiet (rd_bytes mem n o).
Proof.
  revert o. induction n as [|n IH]; intros o; cbn [rd_bytes]; [apply within_ret, _|].
  apply within_bind; [apply _|apply rd_quiet|intros a]. apply within_bind; [apply _|apply IH|intros l]. apply within_ret, _.
Qed.
Lemma rates_loop_quiet n o : within quiet (rates_loop mem n o).
Proof.
  revert o. induction n as [|n IH]; intros o; cbn [rates_loop]; [apply within_ret, _|]. cbv zeta.
  apply within_bind; [apply _|apply rd_quiet|intros a]. apply within_bind; [apply _|apply upd_bss_quiet|intros l]. apply IH.
Qed.

End calls.

Ltac emits_walk :=
  repeat lazymatch goal with
    | |- within _ (rd _ _) => apply quiet_emits, rd_quiet
    | |- within _ (rd16 _ _) => unfold rd16
    | |- within _ (rd32 _ _) => unfold rd32
    | |- within _ (call _) => apply call_emits
    | |- within _ (rd_bytes _ _ _) => apply quiet_emits, rd_bytes_quiet
    | |- within _ (rates_loop _ _ _) => apply quiet_emits, rates_loop_quiet
    | |- within _ (upd_bss _) => apply quiet_emits, upd_bss_quiet
    | |- within _ (mbind _ _) => apply within_bind; [apply emits_preorder| |intros ?]
    | |- within _ (when _ _) => apply within_when; [apply emits_preorder|]
    | |- within _ (if ?b then _ else _) => destruct b eqn:?; zbool
    | |- within _ (match ?x with _ => _ end) => destruct x
    | |- within _ (mret _) => apply within_ret, emits_preorder
    | |- within _ (gets _) => apply within_gets, emits_preorder
    end.

Section calls.
Context (mem : Z -> Z) (env : frame_env) (mem_byte : forall i, 0 <= mem i < 256).

Lemma ie_handle_emits ind is_beacon assoc from_ap id ie n : within emits (ie_handle mem env ind is_beacon assoc from_ap id ie n).
Proof.
  unfold ie_handle, ie_extract_phy_rates, ie_extract_ht_info, ie_ssid, ie_vendor_specific,
    ie_extract_htcap_info, ie_coexistence, ie_extract_coex_el_info, ie_intolerant_channels, ie_extract_intolerant_channels_report,
    ie_obss_scan, ie_extract_obss_scan_parameters, get_bss. cbv zeta. emits_walk; done.
Qed.
Lemma ie_loop_emits ind is_beacon assoc from_ap fuel fbuf flen : within emits (ie_loop mem env ind is_beacon assoc from_ap fuel fbuf flen).
Proof.
  revert fbuf flen. induction fuel as [|fuel IH]; intros fbuf flen; cbn [ie_loop]; unfold ie_store, get_bss; emits_walk; [apply ie_handle_emits|apply IH].
Qed.
Lemma ie_process_emits ind is_beacon assoc from_ap fbuf flen : within emits (ie_process mem env ind is_beacon assoc from_ap fbuf flen).
Proof. unfold ie_process, get_bss. emits_walk. apply ie_loop_emits. Qed.
Lemma coex_info_emits fbuf flen src ind is_beacon assoc from_ap : within emits (coex_info mem env fbuf flen src ind is_beacon assoc from_ap).
Proof. unfold coex_info. emits_walk. apply ie_process_emits. Qed.
Lemma is_my_addr_quiet o : within quiet (_mtlk_is_my_addr mem env o).
Proof. apply within_bind; [apply _|apply rd_bytes_quiet|intros ?]. apply within_ret, _. Qed.
Lemma is_from_assoc_ap_quiet o : within quiet (_mtlk_is_from_assoc_ap mem env o).
Proof.
  unfold _mtlk_is_from_assoc_ap. destruct (fe_is_ap env); [apply within_ret, _|]. destruct (fe_assoc_ap env); [|apply within_ret, _].
  apply within_bind; [apply _|apply rd_bytes_quiet|intros ?]. apply within_ret, _.
Qed.
Lemma vsaf_items_emits nof fbuf flen : within emits (vsaf_items mem nof fbuf flen).
Proof. revert fbuf flen. induction nof as [|nof IH]; intros fbuf flen; cbn [vsaf_items]; cbv zeta; emits_walk; [done|apply IH]. Qed.
Lemma vendor_emits fbuf flen : within emits (mtlk_process_action_frame_vendor_specific mem fbuf flen).
Proof. unfold mtlk_process_action_frame_vendor_specific. emits_walk. apply vsaf_items_emits. Qed.

Lemma block_ack_emits sta fbuf flen : within emits (mtlk_process_action_frame_block_ack mem sta fbuf flen).
Proof.
  unfold mtlk_process_action_frame_block_ack. cbv zeta. emits_walk; cbn -[MTLK_BFIELD_GET].
  - split; [apply (bfield_get_range _ ADDBA_SSN_SSN 12 eq_refl)|]. split; [apply (bfield_get_range _ ADDBA_PARAM_SET_TID 4 eq_refl)|].
    split; [apply u8_range|apply (bfield_get_range _ ADDBA_PARAM_SET_POLICY 1 eq_refl)].
  - split; [apply (bfield_get_range _ ADDBA_PARAM_SET_TID 4 eq_refl)|apply u8_range].
  - split; [apply (bfield_get_range _ DELBA_PARAM_SET_TID 4 eq_refl)|apply (bfield_get_range _ DELBA_PARAM_SET_INITIATOR 1 eq_refl)].
Qed.

Lemma action_emits sta fbuf flen : within emits (process_action mem env sta fbuf flen).
Proof.
  unfold process_action, _mtlk_process_action_frame_public. cbv zeta. emits_walk.
  - apply block_ack_emits.
  - apply quiet_emits, is_my_addr_quiet.
  - apply quiet_emits, is_from_assoc_ap_quiet.
  - apply coex_info_emits.
  - apply vendor_emits.
Qed.

Lemma rd_bytes_same n o s : bss (exec (rd_bytes mem n o) s) = bss s.
Proof. apply rd_bytes_bss. Qed.
Lemma is_my_addr_bss o s : bss (exec (_mtlk_is_my_addr mem env o) s) = bss s.
Proof. unfold _mtlk_is_my_addr. rewrite exec_bind, run_end_ret. apply rd_bytes_bss. Qed.
Lemma is_from_assoc_ap_bss o s : bss (exec (_mtlk_is_from_assoc_ap mem env o) s) = bss s.
Proof.
  unfold _mtlk_is_from_assoc_ap. destruct (fe_is_ap env); [done|]. destruct (fe_assoc_ap env); [|done].
  rewrite exec_bind, run_end_ret. apply rd_bytes_bss.
Qed.

Lemma wf_no_essid b : bss_wf b -> bss_wf (set_essid (replicate 33 0) b).
Proof. intros []. by split. Qed.

(** The description a beacon leaves is well formed before it is handed on. *)
Lemma beacon_emits subtype fbuf flen info : within emits (process_beacon mem env subtype fbuf flen info).
Proof.
  unfold process_beacon. cbv zeta. do 5 (apply within_bind; [apply _|emits_walk|intros ?]).
  intros s. apply emits_seq; [apply quiet_emits, upd_bss_quiet|]. set (s1 := exec _ s).
  assert (bss_shape (bss s1)) as H1 by done. clearbody s1.
  apply emits_seq; [apply quiet_emits, is_my_addr_quiet|]. set (s2 := exec _ s1). generalize (eval (_mtlk_is_my_addr mem env 4) s1). intros ind.
  assert (bss_shape (bss s2)) as H2 by (unfold s2; by rewrite is_my_addr_bss). clearbody s2.
  apply emits_seq; [apply quiet_emits, is_from_assoc_ap_quiet|]. set (s3 := exec _ s2). generalize (eval (_mtlk_is_from_assoc_ap mem env 16) s2). intros from_ap.
  assert (bss_shape (bss s3)) as H3 by (unfold s3; by rewrite is_from_assoc_ap_bss). clearbody s3.
  apply emits_seq; [apply ie_process_emits|]. set (s4 := exec _ s3).
  assert (bss_wf (bss s4)) as H4 by (by apply ie_process_shape). clearbody s4.
  apply emits_seq; [apply (within_gets emits)|]. change (eval get_bss s4) with (bss s4). change (exec get_bss s4) with s4.
  pose proof H4 as Hb. set (b := bss s4) in Hb |- *. clearbody b.
  apply emits_seq; [apply (within_when emits), call_emits; done|]. set (s5 := exec _ s4). assert (bss_wf (bss s5)) as H5 by (unfold s5, when; by case_match). clearbody s5.
  apply emits_seq; [by apply call_emits|]. set (s6 := exec _ s5). assert (bss_wf (bss s6)) as H6 by done. clearbody s6.
  apply emits_seq; [apply (within_when emits), call_emits; done|]. set (s7 := exec _ s6). assert (bss_wf (bss s7)) as H7 by (unfold s7, when; by case_match). clearbody s7.
  apply emits_seq; [apply (within_when emits); emits_walk; done|]. match goal with |- emits ?s _ => set (s8 := s) end.
  assert (bss_wf (set_essid (replicate 33 0) (bss s8))) as H8.
  { unfold s8, when. destruct (_ || _); [|by apply wf_no_essid]. rewrite exec_bind, exec_bind.
    destruct (_ && _ && _ && _); change (bss_wf (set_essid (replicate 33 0) (registered_bss env (bss s7)))); unfold registered_bss;
      repeat case_match; try (by apply wf_no_essid); destruct H7; by split. }
  clearbody s8. apply emits_seq; [apply (within_gets emits)|]. change (eval get_bss s8) with (bss s8). change (exec get_bss s8) with s8.
  generalize dependent (bss s8). intros b8 H8. revert s8. apply (within_bind emits); [|intros _]; emits_walk; done.
Qed.

Lemma man_frame_emits sta replayed len info : within emits (mtlk_process_man_frame mem env sta replayed len info).
Proof.
  unfold mtlk_process_man_frame. cbv zeta. emits_walk.
  - apply quiet_emits, is_my_addr_quiet.
  - apply quiet_emits, is_from_assoc_ap_quiet.
  - apply coex_info_emits.
  - apply beacon_emits.
  - apply action_emits.
Qed.

Lemma ctl_frame_emits fbuf flen : within emits (mtlk_process_ctl_frame mem fbuf flen).
Proof.
  unfold mtlk_process_ctl_frame. emits_walk. cbn -[Z.shiftr Z.land]. split; [apply bar_tid_range|].
  rewrite Z.shiftr_land. change (Z.shiftr 0xFFF0 4) with (Z.shiftl 1 12 - 1). by apply (land_ones_range _ 12).
Qed.
End calls.
