(* ===== verification/FrameThms.v ===== *)
(** * FrameThms: the properties of the frame parser *)
From S2P Require Import Prelude Reflim TxmmIface Addba AddbaAcct AddbaSys Sta StaRep.
From S2P Require Import FrameData Frame FrameReads FrameStore FrameCalls.

(** ** Bit fields *)

Lemma bits_mask_testbit from len i : 0 <= from -> 0 <= len ->
  Z.testbit (_MTLK_U_AUX_BITMASK from len) i = (from <=? i) && (i <? from + len).
Proof.
  intros Hf Hl. unfold _MTLK_U_AUX_BITMASK. change (_MTLK_U_AUX_BITS len) with (Z.ones len).
  destruct (Z.lt_ge_cases i 0) as [Hi|Hi].
  - rewrite Z.testbit_neg_r by done. by rewrite (proj2 (Z.leb_gt from i)) by lia.
  - rewrite Z.shiftl_spec, Z.testbit_ones by lia. f_equal; apply eq_iff_eq_true; rewrite ?Z.leb_le, ?Z.ltb_lt; lia.
Qed.
Lemma bits_set_testbit bf from len v i : 0 <= from -> 0 <= len -> 0 <= i ->
  Z.testbit (MTLK_U_BITS_SET bf from len v) i = if (from <=? i) && (i <? from + len) then Z.testbit v (i - from) else Z.testbit bf i.
Proof.
  intros Hf Hl Hi. unfold MTLK_U_BITS_SET, MTLK_U_BITS_ZERO.
  rewrite Z.lor_spec, !Z.land_spec, Z.lnot_spec, bits_mask_testbit, Z.shiftl_spec by lia.
  destruct ((from <=? i) && (i <? from + len)); cbn; by rewrite ?andb_false_r, ?andb_true_r, ?orb_false_r.
Qed.
Lemma bits_get_testbit bf from len i : 0 <= from -> 0 <= len -> 0 <= i ->
  Z.testbit (MTLK_U_BITS_GET bf from len) i = (i <? len) && Z.testbit bf (i + from).
Proof.
  intros Hf Hl Hi. unfold MTLK_U_BITS_GET. change (_MTLK_U_AUX_BITS len) with (Z.ones len).
  rewrite Z.land_spec, Z.shiftr_spec, Z.testbit_ones by lia. rewrite (proj2 (Z.leb_le 0 i) Hi). cbn. by rewrite andb_comm.
Qed.
Lemma testbit_small a n i : 0 <= a < 2 ^ n -> n <= i -> Z.testbit a i = false.
Proof.
  intros Ha Hi. destruct (Z.lt_ge_cases n 0); [rewrite Z.pow_neg_r in Ha by lia; lia|].
  rewrite <-(Z.mod_small a (2 ^ n)) by done. apply Z.mod_pow2_bits_high. lia.
Qed.
Lemma bfield_info_unpack from len : 0 <= from < 256 -> 0 <= len < 256 ->
  u8 (MTLK_BFIELD_INFO from len) = from /\ u8 (Z.shiftr (u16 (MTLK_BFIELD_INFO from len)) 8) = len.
Proof.
  intros Hf Hl. unfold MTLK_BFIELD_INFO. rewrite (u8_small from), (u8_small len) by lia. unfold u8, u16.
  split; apply Z.bits_inj'; intros i Hi.
  - rewrite Z.testbit_mod_pow2, Z.lor_spec, Z.shiftl_spec by lia. destruct (Z.lt_ge_cases i 8).
    + rewrite (proj2 (Z.ltb_lt i 8)), (Z.testbit_neg_r len) by lia. by rewrite orb_false_r.
    + rewrite (proj2 (Z.ltb_ge i 8)), (testbit_small from 8) by lia. done.
  - rewrite Z.testbit_mod_pow2, Z.shiftr_spec, Z.testbit_mod_pow2, Z.lor_spec, Z.shiftl_spec by lia.
    replace (i + 8 - 8) with i by lia. rewrite (testbit_small from 8) by lia. cbn [orb]. destruct (Z.lt_ge_cases i 8).
    + by rewrite (proj2 (Z.ltb_lt i 8)), (proj2 (Z.ltb_lt (i + 8) 16)) by lia.
    + rewrite (proj2 (Z.ltb_ge i 8)), (testbit_small len 8) by lia. done.
Qed.

Lemma bfield_get_set var from len val : 0 <= from < 256 -> 0 <= len < 256 ->
  MTLK_BFIELD_GET (MTLK_BFIELD_SET var (MTLK_BFIELD_INFO from len) val) (MTLK_BFIELD_INFO from len) = val `mod` 2 ^ len.
Proof.
  intros Hf Hl. unfold MTLK_BFIELD_SET, MTLK_BFIELD_GET. destruct (bfield_info_unpack from len Hf Hl) as [-> ->].
  apply Z.bits_inj'. intros i Hi. rewrite bits_get_testbit, bits_set_testbit, Z.testbit_mod_pow2 by lia.
  destruct (i <? len) eqn:E; zbool; [|done]. rewrite (proj2 (Z.leb_le from (i + from))), (proj2 (Z.ltb_lt (i + from) (from + len))) by lia.
  cbn. f_equal. lia.
Qed.
Lemma bfield_get_other var from len from' len' val : 0 <= from < 256 -> 0 <= len < 256 -> 0 <= from' < 256 -> 0 <= len' < 256 ->
  from + len <= from' \/ from' + len' <= from ->
  MTLK_BFIELD_GET (MTLK_BFIELD_SET var (MTLK_BFIELD_INFO from len) val) (MTLK_BFIELD_INFO from' len') =
  MTLK_BFIELD_GET var (MTLK_BFIELD_INFO from' len').
Proof.
  intros Hf Hl Hf' Hl' Hd. unfold MTLK_BFIELD_SET, MTLK_BFIELD_GET.
  destruct (bfield_info_unpack from len Hf Hl) as [-> ->]. destruct (bfield_info_unpack from' len' Hf' Hl') as [-> ->].
  apply Z.bits_inj'. intros i Hi. rewrite !bits_get_testbit, bits_set_testbit by lia.
  destruct (i <? len') eqn:E; zbool; [|done]. cbn [andb]. destruct ((from <=? i + from') && (i + from' <? from + len)) eqn:E2; zbool; [lia|done].
Qed.
Lemma bfield_get_u16 x from len : 0 <= from -> 0 <= len -> from + len <= 16 ->
  MTLK_BFIELD_GET (u16 x) (MTLK_BFIELD_INFO from len) = MTLK_BFIELD_GET x (MTLK_BFIELD_INFO from len).
Proof.
  intros Hf Hl H16. unfold MTLK_BFIELD_GET. destruct (bfield_info_unpack from len) as [-> ->]; [lia..|].
  apply Z.bits_inj'. intros i Hi. rewrite !bits_get_testbit by lia. unfold u16. rewrite Z.testbit_mod_pow2 by lia.
  destruct (i <? len) eqn:E; zbool; [|done]. by rewrite (proj2 (Z.ltb_lt (i + from) 16)) by lia.
Qed.

(** Storing a value in a bit field and reading the field back gives the
    value cut to the field's width, and reading any other field that does not
    overlap it gives what it held before. *)
Theorem bfield_set_get var from len from' len' val :
  0 <= from < 256 /\ 0 <= len < 256 -> 0 <= from' < 256 /\ 0 <= len' < 256 ->
  let x := MTLK_BFIELD_SET var (MTLK_BFIELD_INFO from len) val in
  MTLK_BFIELD_GET x (MTLK_BFIELD_INFO from len) = val `mod` 2 ^ len /\
  (from + len <= from' \/ from' + len' <= from ->
   MTLK_BFIELD_GET x (MTLK_BFIELD_INFO from' len') = MTLK_BFIELD_GET var (MTLK_BFIELD_INFO from' len')).
Proof. intros [Hf Hl] [Hf' Hl']. split; [by apply bfield_get_set|]. by apply bfield_get_other. Qed.

Lemma bfield_set_get_witness :
  MTLK_BFIELD_GET (MTLK_BFIELD_SET 0xABCD ADDBA_PARAM_SET_SIZE 64) ADDBA_PARAM_SET_TID = MTLK_BFIELD_GET 0xABCD ADDBA_PARAM_SET_TID.
Proof.
  assert (0 <= 6 < 256 /\ 0 <= 10 < 256) as H1 by lia. assert (0 <= 2 < 256 /\ 0 <= 4 < 256) as H2 by lia.
  apply (proj2 (bfield_set_get 0xABCD 6 10 2 4 64 H1 H2)). right. lia.
Defined.

(** ** A frame as a list of bytes *)

Definition frame_mem (f : list Z) (i : Z) : Z := if i <? 0 then 0 else default 0 (f !! Z.to_nat i).
Definition lo_byte (x : Z) : Z := u8 x.
Definition hi_byte (x : Z) : Z := u8 (x / 256).
Lemma lo_hi x : lo_byte x + 256 * hi_byte x = u16 x.
Proof. unfold lo_byte, hi_byte, u8, u16. change (2 ^ 16) with (256 * 256). rewrite Z.rem_mul_r by lia. done. Qed.

Lemma frame_mem_byte f : Forall (fun x => 0 <= x < 256) f -> forall i, 0 <= frame_mem f i < 256.
Proof.
  intros Hf i. unfold frame_mem. case_match; [lia|]. destruct (f !! Z.to_nat i) eqn:E; cbn; [|lia]. exact (Forall_lookup_1 _ _ _ _ Hf E).
Qed.

(** ** Block acknowledgement requests *)

(** The body of an ADDBA request, as a peer builds it with the bit fields. *)
Definition addba_param_set (policy tid size : Z) : Z :=
  MTLK_BFIELD_SET (MTLK_BFIELD_SET (MTLK_BFIELD_SET 0 ADDBA_PARAM_SET_POLICY policy) ADDBA_PARAM_SET_TID tid) ADDBA_PARAM_SET_SIZE size.
Definition addba_request (token policy tid size timeout frag ssn : Z) : list Z :=
  let ps := addba_param_set policy tid size in
  let ss := MTLK_BFIELD_SET frag ADDBA_SSN_SSN ssn in
  [3; 0; token; lo_byte ps; hi_byte ps; lo_byte timeout; hi_byte timeout; lo_byte ss; hi_byte ss].

Lemma addba_param_get policy tid size : 0 <= policy < 2 -> 0 <= tid < 16 -> 0 <= size < 1024 ->
  let v := u16 (addba_param_set policy tid size) in
  MTLK_BFIELD_GET v ADDBA_PARAM_SET_POLICY = policy /\ MTLK_BFIELD_GET v ADDBA_PARAM_SET_TID = tid /\ MTLK_BFIELD_GET v ADDBA_PARAM_SET_SIZE = size.
Proof.
  intros Hp Ht Hs v. unfold v, addba_param_set, ADDBA_PARAM_SET_POLICY, ADDBA_PARAM_SET_TID, ADDBA_PARAM_SET_SIZE. split; [|split].
  - rewrite bfield_get_u16, bfield_get_other, bfield_get_other, bfield_get_set by lia. by apply Z.mod_small.
  - rewrite bfield_get_u16, bfield_get_other, bfield_get_set by lia. by apply Z.mod_small.
  - rewrite bfield_get_u16, bfield_get_set by lia. by apply Z.mod_small.
Qed.
Lemma ssn_get frag ssn : 0 <= ssn < 4096 -> MTLK_BFIELD_GET (u16 (MTLK_BFIELD_SET frag ADDBA_SSN_SSN ssn)) ADDBA_SSN_SSN = ssn.
Proof. intros Hs. unfold ADDBA_SSN_SSN. rewrite bfield_get_u16, bfield_get_set by lia. by apply Z.mod_small. Qed.

(** The byte at a constant distance from [fbuf]. *)
Ltac norm_mem mem fbuf :=
  repeat match goal with
  | |- context [mem (?a + ?b)] =>
      lazymatch a with
      | fbuf => fail
      | _ => let f := eval pattern fbuf in (a + b) in
             lazymatch f with ?g _ => let n := eval cbv in (g 0) in replace (a + b) with (fbuf + n) by lia end
      end
  end.

(** The parse of a request whose two packed words are known. *)
Lemma process_action_request mem env fbuf flen s token ps timeout ss :
  bytes_at mem 9 fbuf = [3; 0; token; lo_byte ps; hi_byte ps; lo_byte timeout; hi_byte timeout; lo_byte ss; hi_byte ss] ->
  calls (exec (process_action mem env true fbuf flen) s) = calls s ++
    [FAddba (CAddbaReqRx (MTLK_BFIELD_GET (u16 ss) ADDBA_SSN_SSN) (MTLK_BFIELD_GET (u16 ps) ADDBA_PARAM_SET_TID)
       (u8 (MTLK_BFIELD_GET (u16 ps) ADDBA_PARAM_SET_SIZE)) token (u16 timeout) (MTLK_BFIELD_GET (u16 ps) ADDBA_PARAM_SET_POLICY)
       MTLK_ADDBA_RATE_ADAPTIVE)].
Proof.
  intros Hb. assert (forall i x, [3; 0; token; lo_byte ps; hi_byte ps; lo_byte timeout; hi_byte timeout; lo_byte ss; hi_byte ss] !! i = Some x ->
    mem (fbuf + Z.of_nat i) = x) as Hm.
  { intros i x Hx. rewrite <-Hb in Hx. assert (i < 9)%nat as Hi by (by apply lookup_lt_Some in Hx; rewrite length_bytes_at in Hx).
    rewrite lookup_bytes_at in Hx by done. by simplify_eq. }
  pose proof (Hm 0%nat _ eq_refl : mem (fbuf + 0) = 3) as H0. pose proof (Hm 1%nat _ eq_refl : mem (fbuf + 1) = 0) as H1.
  pose proof (Hm 2%nat _ eq_refl : mem (fbuf + 2) = token) as H2. pose proof (Hm 3%nat _ eq_refl : mem (fbuf + 3) = lo_byte ps) as H3.
  pose proof (Hm 4%nat _ eq_refl : mem (fbuf + 4) = hi_byte ps) as H4. pose proof (Hm 5%nat _ eq_refl : mem (fbuf + 5) = lo_byte timeout) as H5.
  pose proof (Hm 6%nat _ eq_refl : mem (fbuf + 6) = hi_byte timeout) as H6. pose proof (Hm 7%nat _ eq_refl : mem (fbuf + 7) = lo_byte ss) as H7.
  pose proof (Hm 8%nat _ eq_refl : mem (fbuf + 8) = hi_byte ss) as H8.
  rewrite Z.add_0_r in H0. clear Hm Hb. rewrite <-!lo_hi, <-H2, <-H3, <-H4, <-H5, <-H6, <-H7, <-H8.
  unfold process_action. rewrite exec_bind. change (eval (rd mem fbuf) s) with (mem fbuf). rewrite H0. change (3 =? 3) with true. cbv iota.
  unfold mtlk_process_action_frame_block_ack. rewrite exec_bind. change (eval (rd mem (fbuf + 1)) _) with (mem (fbuf + 1)). rewrite H1.
  change (0 =? 0) with true. cbv iota zeta. unfold when, rd16, exec, mbind, st_bind, rd, mret, st_ret, call, modify. cbn [fst snd calls touched bss].
  norm_mem mem fbuf. done.
Qed.

(** C27. An ADDBA request of a known station is taken apart as it was put
    together: the block ack peer is asked for the sender's TID, starting
    sequence number, policy, token and timeout, and for the window size cut to
    eight bits. *)
Theorem addba_request_parsed mem env fbuf flen s token policy tid size timeout frag ssn :
  bytes_at mem 9 fbuf = addba_request token policy tid size timeout frag ssn ->
  0 <= policy < 2 /\ 0 <= tid < 16 /\ 0 <= size < 1024 /\ 0 <= timeout < 65536 /\ 0 <= ssn < 4096 ->
  calls (exec (process_action mem env true fbuf flen) s) =
  calls s ++ [FAddba (CAddbaReqRx ssn tid (size `mod` 256) token timeout policy MTLK_ADDBA_RATE_ADAPTIVE)].
Proof.
  intros Hb (Hp & Ht & Hs & Hto & Hss). rewrite (process_action_request _ _ _ _ _ _ _ _ _ Hb), ssn_get by done.
  destruct (addba_param_get policy tid size Hp Ht Hs) as (-> & -> & ->). by rewrite (u16_small timeout).
Qed.

(** A window of 256 frames arrives as one of 0. *)
Lemma addba_request_parsed_witness :
  calls (exec (process_action (frame_mem (addba_request 7 1 5 256 10 0 4095)) (FrameEnv true false false false false (fun _ => false)
    false false false 0 (fun _ => 0) [] None (fun _ => None)) true 0 9) (Fs [] [] bss_zero)) =
  [FAddba (CAddbaReqRx 4095 5 0 7 10 1 MTLK_ADDBA_RATE_ADAPTIVE)].
Proof. rewrite (addba_request_parsed _ _ 0 9 _ 7 1 5 256 10 0 4095); [reflexivity|vm_compute; reflexivity|lia]. Defined.

Definition quiet_env : frame_env := FrameEnv true false false false false (fun _ => false) false false false 0 (fun _ => 0) [] None (fun _ => None).
Definition fs_zero : fs := Fs [] [] bss_zero.

(** ** What the parser hands on *)

(** C28. Whatever the bytes of a management frame, every description of a
    network handed to the scan cache and its other users is well formed (the
    name ends inside its array, the kept elements lie inside theirs, and each
    recorded offset is the start of a whole kept element of its kind), and
    every request to a block ack peer is within the width of its fields. *)
Theorem frame_hands_on_wf mem env sta replayed len info s : (forall i, 0 <= mem i < 256) ->
  exists l, calls (exec (mtlk_process_man_frame mem env sta replayed len info) s) = calls s ++ l /\ Forall ev_ok l.
Proof. intros Hm. by apply man_frame_emits. Qed.

(** A beacon with a name and an RSN element, heard by an access point that scans. *)
Definition scan_env : frame_env := FrameEnv true true false false false (fun _ => false) false false true 0 (fun _ => 0) [] None (fun _ => None).
Definition beacon : list Z :=
  [0x80; 0; 0; 0; 255; 255; 255; 255; 255; 255; 2; 2; 2; 2; 2; 2; 2; 2; 2; 2; 2; 2; 0; 0;
   1; 0; 0; 0; 0; 0; 0; 0; 100; 0; 1; 0; 0; 3; 65; 66; 67; 1; 3; 0x8C; 0x98; 0xB0; 48; 2; 1; 0].
Abbreviation beacon_run := (exec (mtlk_process_man_frame (frame_mem beacon) scan_env false false 50 (RxInfo 36 [1; 2; 3] 3 4)) fs_zero).
Lemma beacon_calls : let b := bss beacon_run in
  calls beacon_run = [FUpdateAp b; FRegisterBss b; FAocs b; FWdsBeacon] /\
  take 4 (essid b) = [65; 66; 67; 0] /\ ie_used_length b = 14 /\ rsn_offs b = 10.
Proof. vm_compute. done. Qed.
Lemma frame_hands_on_wf_witness :
  let b := bss beacon_run in
  FRegisterBss b ∈ calls beacon_run /\ bss_wf b /\ take 4 (essid b) = [65; 66; 67; 0] /\ ie_used_length b = 14 /\ rsn_offs b = 10.
Proof.
  intros b. destruct (frame_hands_on_wf (frame_mem beacon) scan_env false false 50 (RxInfo 36 [1; 2; 3] 3 4) fs_zero) as (l & Hl & Hok).
  { apply frame_mem_byte. repeat constructor; lia. }
  destruct beacon_calls as [Hb Hv]. split; [rewrite Hb; do 2 constructor|]. split; [|exact Hv].
  rewrite Hb in Hl. change (calls fs_zero) with (@nil frame_ev) in Hl. cbn [app] in Hl. rewrite <-Hl in Hok.
  by apply Forall_cons in Hok as [Hok _].
Defined.

(** ** The elements kept *)

(** C29. An area of elements (each with its payload, and a rest that is no
    whole element) leaves the elements with a payload, in order and byte for
    byte, up to the first for which the 512 bytes have no room left. *)
Theorem ie_process_keeps mem env ind is_beacon assoc from_ap els rest fbuf s : (forall i, 0 <= mem i < 256) ->
  bytes_at mem (length (encode els ++ rest)) fbuf = encode els ++ rest -> Forall element_ok els -> no_element rest ->
  Z.of_nat (length (encode els ++ rest)) < 2 ^ 31 -> bss_shape (bss s) ->
  let b := bss (exec (ie_process mem env ind is_beacon assoc from_ap fbuf (Z.of_nat (length (encode els ++ rest)))) s) in
  take (Z.to_nat (ie_used_length b)) (info_elements b) = encode (kept 512 els).
Proof. intros Hm Hat Hok Hno Hlen Hs. by apply ie_process_walk. Qed.

(** Twice 255 bytes of payload: the second element does not fit. *)
Definition big_elements : list element := [(0, [65]); (50, []); (200, replicate 255 7); (201, replicate 255 8); (3, [1])].
Lemma ie_process_keeps_witness :
  let b := bss (exec (ie_process (frame_mem (encode big_elements ++ [48])) quiet_env false true false false 0 523) fs_zero) in
  take (Z.to_nat (ie_used_length b)) (info_elements b) = encode [(0, [65]); (200, replicate 255 7)].
Proof.
  apply (ie_process_keeps (frame_mem (encode big_elements ++ [48])) quiet_env false true false false big_elements [48] 0 fs_zero).
  - apply frame_mem_byte. apply (bool_decide_unpack (Forall (fun x => 0 <= x < 256) _)). vm_compute. done.
  - vm_compute. reflexivity.
  - repeat constructor.
  - left. cbn. lia.
  - vm_compute. reflexivity.
  - done.
Defined.

(** ** Reads *)

(** C30. The walk over the elements reads nothing before its area and at most
    three bytes behind it, whatever the bytes and however the length is cut,
    a negative one included. *)
Theorem ie_reads_bounded mem env ind is_beacon assoc from_ap fbuf flen s : (forall i, 0 <= mem i < 256) ->
  - 2 ^ 31 <= flen < 2 ^ 31 ->
  exists l, touched (exec (ie_process mem env ind is_beacon assoc from_ap fbuf flen) s) = touched s ++ l /\
    Forall (fun o => fbuf <= o < fbuf + Z.max flen 0 + 3) l.
Proof.
  intros Hm Hf. destruct (Z.lt_ge_cases flen 0) as [Hneg|Hpos].
  - exists [fbuf + 1]. split; [apply ie_process_short; [done|lia]|]. repeat constructor; lia.
  - apply (ie_process_touches mem env Hm ind is_beacon assoc from_ap fbuf (fbuf + Z.max flen 0 + 3)); lia.
Qed.

(** Both ends are reached: an HT capabilities element of seven bytes makes the
    walk read one byte behind the frame, a vendor's of one byte three. *)
Definition short_ht : list Z := [45; 7; 0; 0; 0; 1; 1; 1; 1].
Definition short_vendor : list Z := [221; 1; 0].
Definition reads_of (f : list Z) : list Z :=
  touched (exec (ie_process (frame_mem f) quiet_env false true false false 0 (Z.of_nat (length f))) fs_zero).
Lemma ie_reads_bounded_witness :
  (exists l, reads_of short_vendor = l /\ Forall (fun o => 0 <= o < 6) l /\ 5 ∈ l) /\ 9 ∈ reads_of short_ht.
Proof.
  split.
  - destruct (ie_reads_bounded (frame_mem short_vendor) quiet_env false true false false 0 3 fs_zero) as (l & Hl & Hok).
    + apply frame_mem_byte. repeat constructor; lia.
    + lia.
    + exists (reads_of short_vendor). split; [done|]. split.
      * unfold reads_of. change (Z.of_nat (length short_vendor)) with 3. rewrite Hl. exact Hok.
      * apply (bool_decide_unpack (5 ∈ reads_of short_vendor)). vm_compute. done.
  - apply (bool_decide_unpack (9 ∈ reads_of short_ht)). vm_compute. done.
Defined.

(** ** Vendor specific frames *)

Definition le32 (mem : Z -> Z) (o : Z) : Z := mem o + 256 * mem (o + 1) + 65536 * (mem (o + 2) + 256 * mem (o + 3)).
Lemma eval_rd32 mem o s : eval (rd32 mem o) s = le32 mem o.
Proof.
  unfold rd32, rd16, le32. rewrite !eval_bind. change (mem o + 256 * mem (o + 1) + 65536 * (mem (o + 2) + 256 * mem (o + 2 + 1)) =
    mem o + 256 * mem (o + 1) + 65536 * (mem (o + 2) + 256 * mem (o + 3))). do 4 f_equal. f_equal. lia.
Qed.

(** Once an offset is read it stays in the record. *)
Definition keeps_reads (s s' : fs) : Prop := forall o, o ∈ touched s -> o ∈ touched s'.
#[export] Instance keeps_reads_preorder : PreOrder keeps_reads.
Proof. split; [by intros s o|]. intros s1 s2 s3 H1 H2 o Ho. auto. Qed.
Lemma rd_keeps mem o : within keeps_reads (rd mem o).
Proof. intros s o' Ho. cbn. apply elem_of_app. by left. Qed.
Lemma call_keeps e : within keeps_reads (call e).
Proof. intros s o Ho. exact Ho. Qed.
Lemma rd32_keeps mem o : within keeps_reads (rd32 mem o).
Proof. unfold rd32, rd16. repeat first [apply rd_keeps | apply within_bind; [apply _| |intros ?] | apply within_ret; apply _]. Qed.
Lemma rd32_reads mem o s : o ∈ touched (exec (rd32 mem o) s).
Proof.
  unfold rd32 at 1. rewrite exec_bind. assert (o ∈ touched (exec (rd16 mem o) s)) as Ho.
  { unfold rd16. rewrite exec_bind. cbn. apply elem_of_app. left. apply elem_of_app. right. by left. }
  revert Ho. generalize (exec (rd16 mem o) s). intros s' Ho. unfold rd16. cbn. apply elem_of_app. left. apply elem_of_app. by left.
Qed.
Lemma vsaf_items_keeps mem nof fbuf flen : within keeps_reads (vsaf_items mem nof fbuf flen).
Proof.
  revert fbuf flen. induction nof as [|nof IH]; intros fbuf flen; cbn [vsaf_items]; [apply within_ret, _|].
  apply within_bind; [apply _|apply rd32_keeps|intros a]. apply within_bind; [apply _|apply rd32_keeps|intros b]. cbv zeta.
  apply within_bind; [apply _|apply within_when; [apply _|apply call_keeps]|intros _]. apply IH.
Qed.

(** Item [k] starts where the sizes written in the items before it say. *)
Fixpoint item_at (mem : Z -> Z) (k : nat) (o : Z) : Z :=
  match k with O => o | S k => item_at mem k (o + 8 + le32 mem o) end.
Lemma vsaf_items_reads mem nof fbuf flen s k : (k < nof)%nat -> item_at mem k fbuf ∈ touched (exec (vsaf_items mem nof fbuf flen) s).
Proof.
  revert fbuf flen s k. induction nof as [|nof IH]; intros fbuf flen s k Hk; [lia|]. cbn [vsaf_items].
  destruct k as [|k].
  - rewrite exec_bind. pose proof (rd32_reads mem fbuf s) as Hr. revert Hr. cbn [item_at]. generalize (eval (rd32 mem fbuf) s). intros ds.
    generalize (exec (rd32 mem fbuf) s). clear s. intros s. apply (within_bind keeps_reads); [apply rd32_keeps|intros b]. cbv zeta.
    apply within_bind; [apply _|apply within_when; [apply _|apply call_keeps]|intros _]. apply vsaf_items_keeps.
  - rewrite exec_bind, eval_rd32, exec_bind. cbv zeta. rewrite exec_bind. cbn [item_at]. apply IH. lia.
Qed.

(** The header that lets a vendor specific frame through. *)
Record vsaf_header (mem : Z -> Z) (fbuf flen nof : Z) : Prop := {
  vh_oui : bytes_at mem 3 fbuf = MTLK_OUI;
  vh_size : le32 mem (fbuf + 7) = u32 (flen - 15);
  vh_version : le32 mem (fbuf + 3) = 1;
  vh_items : le32 mem (fbuf + 11) = nof;
}.

(** Only the total size of a vendor specific frame is checked: the parser
    reads the header of every item at the place the sizes written in the items
    before it say, for as many items as the frame claims, inside the frame or
    not. *)
Theorem vsaf_item_anywhere mem fbuf flen nof s k : vsaf_header mem fbuf flen nof -> 0 <= k < nof ->
  item_at mem (Z.to_nat k) (fbuf + 15) ∈ touched (exec (mtlk_process_action_frame_vendor_specific mem fbuf flen) s).
Proof.
  intros [H1 H2 H3 H4] Hk. rewrite !bytes_at_S in H1. injection H1 as B0 B1 B2. rewrite <-Z.add_assoc in B2. change (1 + 1) with 2 in B2.
  unfold mtlk_process_action_frame_vendor_specific.
  rewrite exec_bind. change (eval (rd mem fbuf) s) with (mem fbuf). rewrite B0. cbn [Z.eqb negb].
  rewrite exec_bind. change (eval (rd mem (fbuf + 1)) ?s) with (mem (fbuf + 1)). rewrite B1. change (negb (9 =? 9)) with false. cbv iota.
  rewrite exec_bind. change (eval (rd mem (fbuf + 2)) ?s) with (mem (fbuf + 2)). rewrite B2. change (negb (134 =? 134)) with false. cbv iota zeta.
  replace (fbuf + 3 + 4) with (fbuf + 7) by lia. replace (fbuf + 3 + 8) with (fbuf + 11) by lia. replace (flen - 3 - 12) with (flen - 15) by lia.
  replace (fbuf + 3 + 12) with (fbuf + 15) by lia.
  rewrite exec_bind, eval_rd32, H2, Z.eqb_refl. cbn [negb]. rewrite exec_bind, eval_rd32, H3. change (negb (1 =? 1)) with false. cbv iota.
  rewrite exec_bind, eval_rd32, H4. apply vsaf_items_reads. lia.
Qed.

(** A frame of 31 bytes with two items, the first of which claims a gigabyte. *)
Definition far_items : list Z :=
  [0; 9; 0x86; 1; 0; 0; 0; 16; 0; 0; 0; 2; 0; 0; 0; 0; 0; 0; 0x40; 9; 0; 0; 0] ++ replicate 8 0.
Lemma vsaf_item_anywhere_witness :
  23 + 2 ^ 30 ∈ touched (exec (mtlk_process_action_frame_vendor_specific (frame_mem far_items) 0 31) fs_zero).
Proof.
  apply (vsaf_item_anywhere (frame_mem far_items) 0 31 2 fs_zero 1); [|lia].
  split; vm_compute; reflexivity.
Defined.
