(* ===== verification/FrameSta.v ===== *)
(** * FrameSta: frames of a peer, delivered to its station

    The parser's calls that concern the sender's block ack peer and its
    reordering queues, run on the station of Sta.  The parser looks at nothing
    of the station while it runs, so its calls are delivered in order after
    it. *)
From S2P Require Import Prelude Reflim TxmmIface Addba AddbaAcct AddbaInv AddbaOps AddbaSys AddbaThms AddbaExamples.
From S2P Require Import Replay Rod RodInv RodThms Sta StaRep StaInv StaSys StaThms StaExamples.
From S2P Require Import FrameData Frame FrameReads FrameStore FrameCalls FrameThms.

Section FrameSta.
Context {T : Type} {ops : TxmmOps T addba_msg addba_clb addba_payload} {tx_ok : T -> Prop}.
Context {laws : TxmmLaws T addba_msg addba_clb addba_payload tx_ok}.
Context (clock : nat -> Z).
Context (group_cipher : Z -> Z) (time_after : Z -> Z -> bool) (ms_to_timestamp timestamp_to_ms : Z -> Z).
Context (vap : Z) (aggr_open_threshold : Z).
Abbreviation sta_reach := (sta_reach (tx_ok := tx_ok) clock group_cipher time_after ms_to_timestamp timestamp_to_ms vap aggr_open_threshold).

(** One call of the parser; what is not the station's goes elsewhere. *)
Definition sta_of_frame (env : sta_env) (e : frame_ev) (s : sta_entry T) : sta_entry T :=
  match e with
  | FAddba c => sta_call clock group_cipher timestamp_to_ms vap env c s
  | FBar tid ssn => (mtlk_handle_bar clock group_cipher timestamp_to_ms vap env tid ssn s).2
  | _ => s
  end.
Definition sta_of_frames env (l : list frame_ev) s : sta_entry T := foldl (fun s e => sta_of_frame env e s) s l.

(** A management frame of a known station, and a control frame. *)
Definition rx_man_frame env mem fenv replayed len info s : sta_entry T :=
  sta_of_frames env (calls (exec (mtlk_process_man_frame mem fenv true replayed len info) (Fs [] [] bss_zero))) s.
Definition rx_ctl_frame env mem flen s : sta_entry T :=
  sta_of_frames env (calls (exec (mtlk_process_ctl_frame mem 0 flen) (Fs [] [] bss_zero))) s.

(** The window fits the reordering queue's array. *)
Definition window_fits (e : frame_ev) : Prop :=
  match e with FAddba (CAddbaReqRx _ _ win _ _ _ _) => win <= 64 | _ => True end.

Lemma ev_sane e c : e = FAddba c -> ev_ok e -> window_fits e -> call_sane c.
Proof. intros -> He Hw. destruct c; try done; cbn in *; (split; [cbn; lia|]); try done; cbn; lia. Qed.

Lemma sta_of_frames_reach env pk l s : Forall ev_ok l -> Forall window_fits l -> sta_reach pk s -> sta_reach pk (sta_of_frames env l s).
Proof.
  intros Hok Hw. revert s. induction Hok as [|e l He Hl IH]; intros s Hs; [done|]. apply Forall_cons in Hw as [Hwe Hw].
  apply (IH Hw). destruct e; try done.
  - apply (sta_reach_step _ _ _ _ _ _ _ pk s []); [done|]. apply sta_step_call. by eapply ev_sane.
  - apply (sta_reach_step _ _ _ _ _ _ _ pk s []); [done|]. apply sta_step_bar; cbn in He; lia.
Qed.

Lemma ctl_window mem flen : Forall window_fits (calls (exec (mtlk_process_ctl_frame mem 0 flen) (Fs [] [] bss_zero))).
Proof.
  unfold mtlk_process_ctl_frame, when. rewrite exec_bind. case_match; [|constructor].
  change (Forall window_fits [FBar (u8 (Z.shiftr (Z.land (eval (rd16 mem 16) (Fs [] [] bss_zero)) 0xf000) 12))
    (Z.shiftr (Z.land (eval (rd16 mem 18) (Fs [] [] bss_zero)) 0xFFF0) 4)]). by repeat constructor.
Qed.

(** C31. A management frame or a block ack request, whatever its bytes, leaves
    a connected station in a reachable state, so everything shown of those
    holds after it, provided an ADDBA request in it asks for a window of at
    most 64 frames: every TID, sequence number and code in it is checked or
    cut to its field. *)
Theorem frame_keeps_station env mem fenv replayed len info pk s : (forall i, 0 <= mem i < 256) -> sta_reach pk s ->
  (Forall window_fits (calls (exec (mtlk_process_man_frame mem fenv true replayed len info) (Fs [] [] bss_zero))) ->
   sta_reach pk (rx_man_frame env mem fenv replayed len info s)) /\
  (forall flen, sta_reach pk (rx_ctl_frame env mem flen s)).
Proof.
  intros Hm Hs. split.
  - intros Hw. destruct (man_frame_emits mem fenv Hm true replayed len info (Fs [] [] bss_zero)) as (l & Hl & Hok). cbn in Hl.
    unfold rx_man_frame. rewrite Hl in Hw |- *. by apply sta_of_frames_reach.
  - intros flen. unfold rx_ctl_frame. destruct (ctl_frame_emits mem 0 flen (Fs [] [] bss_zero)) as (l & Hl & Hok). cbn in Hl.
    apply sta_of_frames_reach; [by rewrite Hl|apply ctl_window|done].
Qed.
End FrameSta.

(** ** A window larger than the array *)

(** An unprotected frame of a peer with an ADDBA request for TID 0, from
    sequence number 0. *)
Definition request_frame (win : Z) : list Z :=
  [0xD0; 0; 0; 0] ++ replicate 6 1 ++ replicate 6 2 ++ replicate 6 2 ++ [0; 0] ++ addba_request 7 1 0 win 0 0 0.
Abbreviation ex_request win s :=
  (rx_man_frame demo_clock no_cipher ms_id 7 sta_env0 (frame_mem (request_frame win)) quiet_env false 33 (RxInfo 1 [0; 0; 0] 0 0) s).
Abbreviation ex_data seq s := (rx_directed demo_clock no_cipher ms_id 7 sta_env0 0 seq sta_frame true s).

Lemma window_overruns_check :
  forallb (fun n => let s := ex_request (65 + Z.of_nat n) (sta_started 2) in
    (window_size (q (rod_of s 0)) =? 65 + Z.of_nat n) && negb (faults (log (rod_of (ex_data 64 s) 0)) =? 0)) (seq 0 191) = true.
Proof. vm_compute. done. Qed.

(** The window of an ADDBA request is not compared with the array of the
    reordering queue: one frame asking for 65 to 255 makes that the window,
    and the data frame with the sequence number 64 is then put outside the
    64 slots. *)
Theorem frame_window_overruns win : 64 < win < 256 ->
  let s := ex_request win (sta_started 2) in
  window_size (q (rod_of s 0)) = win /\ faults (log (rod_of (ex_data 64 s) 0)) <> 0.
Proof.
  intros Hw. pose proof window_overruns_check as Hc. rewrite forallb_forall in Hc.
  specialize (Hc (Z.to_nat (win - 65))). replace (65 + Z.of_nat (Z.to_nat (win - 65))) with win in Hc by lia.
  specialize (Hc ltac:(apply in_seq; lia)). cbv zeta in *. zbool. done.
Qed.
Lemma frame_window_overruns_witness : faults (log (rod_of (ex_data 64 (ex_request 80 (sta_started 2))) 0)) <> 0.
Proof. apply (frame_window_overruns 80). lia. Defined.

(** The peer's request for 8 frames and a block ack request. *)
Definition bar_frame : list Z := [0x84; 0; 0; 0] ++ replicate 6 1 ++ replicate 6 2 ++ [0; 0] ++ [0x20; 0].
Lemma frame_keeps_station_witness :
  let s := ex_request 8 (sta_started 2) in
  ex_reach (fun _ => []) s /\
  ex_reach (fun _ => []) (rx_ctl_frame demo_clock no_cipher ms_id 7 sta_env0 (frame_mem bar_frame) 20 s).
Proof.
  assert (ex_reach (fun _ => []) (ex_request 8 (sta_started 2))) as H1.
  { refine (proj1 (frame_keeps_station demo_clock no_cipher later ms_id ms_id 7 2 sta_env0 (frame_mem (request_frame 8)) quiet_env
      false 33 (RxInfo 1 [0; 0; 0] 0 0) (fun _ => []) (sta_started 2) _ (sta_started_reach 2)) _).
    - apply frame_mem_byte. apply (bool_decide_unpack (Forall (fun x => 0 <= x < 256) _)). vm_compute. done.
    - vm_compute. repeat constructor. discriminate. }
  split; [exact H1|].
  refine (proj2 (frame_keeps_station demo_clock no_cipher later ms_id ms_id 7 2 sta_env0 (frame_mem bar_frame) quiet_env
      false 33 (RxInfo 1 [0; 0; 0] 0 0) (fun _ => []) _ _ H1) 20).
  apply frame_mem_byte. apply (bool_decide_unpack (Forall (fun x => 0 <= x < 256) _)). vm_compute. done.
Defined.
