(* ===== verification/Cache.v ===== *)
(** * Cache: the networks found (wireless/driver/shared/cache.c)

    A list of entries sorted by channel and signal, with a cursor that
    enumerations share.  An entry is a heap object known by its address, and
    so is the copy of the country element it owns: [ies] holds the country
    elements that are allocated now, [faults] counts the reads and frees of
    addresses that are not.  An address is never used twice, so a use after a
    free is always seen. *)
From S2P Require Import Prelude FrameData.

Record cache_entry_t := CacheEntry { local_timestamp : Z; is_persistent : bool; freq : Z; e_bss : bss_data_t }.

Record scan_cache_t := ScanCache {
  cache_expire : Z; cur_entry : option Z; bss_list : list (Z * cache_entry_t); modified : bool;
  ies : gmap Z (list Z); next_address : Z; faults : Z
}.

(** The clock in milliseconds, whether each allocation succeeds, and what the
    caller's own pointers point to. *)
Record cache_env := CacheEnv { now : Z; alloc_entry : bool; alloc_ie : bool; foreign : Z -> option (list Z) }.

Implicit Types (s : scan_cache_t) (e : cache_entry_t) (l : list (Z * cache_entry_t)).

(** ** Field updates *)

Definition set_list l s := ScanCache (cache_expire s) (cur_entry s) l (modified s) (ies s) (next_address s) (faults s).
Definition set_cursor (c : option Z) s := ScanCache (cache_expire s) c (bss_list s) (modified s) (ies s) (next_address s) (faults s).
Definition set_modified (b : bool) s := ScanCache (cache_expire s) (cur_entry s) (bss_list s) b (ies s) (next_address s) (faults s).
Definition set_ies (m : gmap Z (list Z)) s := ScanCache (cache_expire s) (cur_entry s) (bss_list s) (modified s) m (next_address s) (faults s).
Definition set_expire (t : Z) s := ScanCache t (cur_entry s) (bss_list s) (modified s) (ies s) (next_address s) (faults s).
Definition fault s := ScanCache (cache_expire s) (cur_entry s) (bss_list s) (modified s) (ies s) (next_address s) (faults s + 1).
(** A new address. *)
Definition fresh s : Z * scan_cache_t :=
  (next_address s, ScanCache (cache_expire s) (cur_entry s) (bss_list s) (modified s) (ies s) (next_address s + 1) (faults s)).

(** ** Memory of country elements *)

Definition ie_read (env : cache_env) (p : Z) s : option (list Z) :=
  match foreign env p with Some bytes => Some bytes | None => ies s !! p end.
Definition ie_free (p : Z) s : scan_cache_t :=
  match ies s !! p with Some _ => set_ies (delete p (ies s)) s | None => fault s end.

Definition _cache_clone_country_ie (env : cache_env) (bss : bss_data_t) s : option Z * scan_cache_t :=
  match country_ie bss with
  | None => (None, s)
  | Some p =>
      let '(bytes, s) := match ie_read env p s with Some bytes => (bytes, s) | None => ([], fault s) end in
      if alloc_ie env then let '(q, s) := fresh s in (Some q, set_ies (<[q := bytes]> (ies s)) s)
      else (None, s)
  end.

Definition _cache_free_entry (x : Z * cache_entry_t) s : scan_cache_t :=
  match country_ie (e_bss x.2) with Some p => ie_free p s | None => s end.

(** ** Lists *)

Definition has_bssid (addr : list Z) (x : Z * cache_entry_t) : bool := bool_decide (bssid (e_bss x.2) = addr).
Definition set_country_ie (p : option Z) (b : bss_data_t) : bss_data_t := set_country (country_code b) p b.

(** The first entry of an address, and the list without it. *)
Fixpoint unlink (addr : list Z) l : option (Z * cache_entry_t) * list (Z * cache_entry_t) :=
  match l with
  | [] => (None, [])
  | x :: l => if has_bssid addr x then (Some x, l) else let '(f, l) := unlink addr l in (f, x :: l)
  end.

(** By channel; on one channel the stronger signal first. *)
Fixpoint insert_sorted (x : Z * cache_entry_t) l : list (Z * cache_entry_t) :=
  match l with
  | [] => [x]
  | y :: l' =>
      if channel (e_bss y.2) <? channel (e_bss x.2) then y :: insert_sorted x l'
      else if channel (e_bss y.2) =? channel (e_bss x.2) then
        if max_rssi (e_bss y.2) <? max_rssi (e_bss x.2) then x :: l else y :: insert_sorted x l'
      else x :: l
  end.

(** The entries before an address and from it on. *)
Fixpoint split_at (a : Z) l : option (list (Z * cache_entry_t) * (Z * cache_entry_t) * list (Z * cache_entry_t)) :=
  match l with
  | [] => None
  | x :: l =>
      if x.1 =? a then Some ([], x, l)
      else match split_at a l with Some (before, y, rest) => Some (x :: before, y, rest) | None => None end
  end.

(** ** Operations *)

(** The description is updated in the caller's memory too. *)
Definition mtlk_cache_register_bss (env : cache_env) (bss : bss_data_t) s : bss_data_t * scan_cache_t :=
  let '(found, l) := unlink (bssid bss) (bss_list s) in
  let bss := match found with
             | Some x => if hd 0 (essid bss) =? 0 then set_essid (essid (e_bss x.2)) bss else bss
             | None => bss
             end in
  let s := set_list l s in
  if negb (bool_decide (is_Some found) || alloc_entry env) then (bss, s)
  else
    let '(slot, s) := match found with Some x => (x.1, s) | None => fresh s end in
    let s := set_modified true s in
    let s := match found with Some x => _cache_free_entry x s | None => s end in
    let '(p, s) := _cache_clone_country_ie env bss s in
    let e := CacheEntry (now env) false (is_2_4 bss) (set_country_ie p bss) in
    (bss, set_list (insert_sorted (slot, e) (bss_list s)) s).

Definition mtlk_cache_init (expire : Z) : scan_cache_t := ScanCache expire None [] false ∅ 1 0.

Definition mtlk_cache_clear s : scan_cache_t :=
  set_cursor None (set_modified true (foldl (fun s x => _cache_free_entry x s) (set_list [] s) (bss_list s))).
Definition mtlk_cache_cleanup s : scan_cache_t := mtlk_cache_clear s.

(** Pop every entry: the one of [bssid] is put aside, the others are freed. *)
Definition mtlk_cache_clear_except_entry (bssid : list Z) s : scan_cache_t :=
  let '(saved, s) := foldl (fun '(saved, s) x => if has_bssid bssid x then (Some x, s) else (saved, _cache_free_entry x s))
                       (None, set_list [] s) (bss_list s) in
  let s := match saved with
           | Some x => set_cursor (Some x.1) (set_list (x :: bss_list s) s)
           | None => set_cursor None s
           end in
  set_modified true s.

Definition mtlk_cache_rewind s : scan_cache_t := set_cursor (fst <$> head (bss_list s)) s.

(** [cur_time - local_timestamp] and the time to live in milliseconds are 32-bit. *)
Definition entry_expired (t expire : Z) e : bool :=
  negb (expire =? 0) && (u32 (expire * 1000) <? u32 (t - local_timestamp e)) && negb (is_persistent e).

(** From the cursor on: expired entries are unlinked, the first other one is
    the answer, and the cursor is left behind it. *)
Fixpoint next_valid (t : Z) (before rest : list (Z * cache_entry_t)) s : option cache_entry_t * scan_cache_t :=
  match rest with
  | [] => (None, set_cursor None (set_list before s))
  | x :: rest =>
      if entry_expired t (cache_expire s) x.2
      then next_valid t before rest (_cache_free_entry x (set_modified true s))
      else (Some x.2, set_cursor (fst <$> head rest) (set_list (before ++ x :: rest) s))
  end.
Definition mtlk_cache_get_next_bss (t : Z) s : option cache_entry_t * scan_cache_t :=
  match cur_entry s with
  | None => (None, s)
  | Some a =>
      match split_at a (bss_list s) with
      | None => (None, set_cursor None s)
      | Some (before, x, rest) => next_valid t before (x :: rest) s
      end
  end.

(** The loops over [mtlk_cache_get_next_bss]; the clock is read at each call.
    Every turn moves the cursor on, so one turn per entry and one more is enough. *)
Fixpoint enumerate (fuel : nat) (clock : nat -> Z) (k : nat) s : list cache_entry_t * scan_cache_t :=
  match fuel with
  | O => ([], s)
  | S fuel =>
      match mtlk_cache_get_next_bss (clock k) s with
      | (None, s) => ([], s)
      | (Some e, s) => let '(es, s) := enumerate fuel clock (S k) s in (e :: es, s)
      end
  end.
Definition mtlk_cache_get_bss_count (clock : nat -> Z) s : Z * Z * scan_cache_t :=
  let '(es, s) := enumerate (S (length (bss_list s))) clock 0 (mtlk_cache_rewind s) in
  (Z.of_nat (length es), foldl (fun n e => u32 (n + ie_used_length (e_bss e))) 0 es, s).

Fixpoint find_next (fuel : nat) (clock : nat -> Z) (k : nat) (p : cache_entry_t -> bool) s : option cache_entry_t * scan_cache_t :=
  match fuel with
  | O => (None, s)
  | S fuel =>
      match mtlk_cache_get_next_bss (clock k) s with
      | (None, s) => (None, s)
      | (Some e, s) => if p e then (Some e, s) else find_next fuel clock (S k) p s
      end
  end.
Definition mtlk_cache_find_bss_by_bssid (clock : nat -> Z) (addr : list Z) s : option cache_entry_t * scan_cache_t :=
  find_next (S (length (bss_list s))) clock 0 (fun e => bool_decide (bssid (e_bss e) = addr)) (mtlk_cache_rewind s).
Definition mtlk_cache_find_first_country_ie (env : cache_env) (clock : nat -> Z) (code : Z) s : option Z * scan_cache_t :=
  match find_next (S (length (bss_list s))) clock 0 (fun e => country_code (e_bss e) =? code) (mtlk_cache_rewind s) with
  | (Some e, s) => _cache_clone_country_ie env (e_bss e) s
  | (None, s) => (None, s)
  end.

Definition mtlk_cache_remove_bss_by_bssid (addr : list Z) s : scan_cache_t :=
  match unlink addr (bss_list s) with
  | (Some x, l) =>
      let s := set_modified true (set_list l s) in
      let s := if bool_decide (cur_entry s = Some x.1) then set_cursor None s else s in
      _cache_free_entry x s
  | (None, _) => s
  end.

Definition mtlk_cache_delete_current s : scan_cache_t :=
  match cur_entry s with
  | None => s
  | Some a =>
      set_cursor None
        match split_at a (bss_list s) with
        | Some (before, x, rest) => _cache_free_entry x (set_modified true (set_list (before ++ rest) s))
        | None => s
        end
  end.

Definition mtlk_cache_was_modified s : bool := modified s.
Definition mtlk_cache_clear_modified_flag s : scan_cache_t := set_modified false s.

Fixpoint persist (t : Z) (addr : list Z) (b : bool) l : list (Z * cache_entry_t) :=
  match l with
  | [] => []
  | x :: l => if has_bssid addr x then (x.1, CacheEntry t b (freq x.2) (e_bss x.2)) :: l else x :: persist t addr b l
  end.
Definition mtlk_cache_set_persistent (t : Z) (addr : list Z) (is_persistent : bool) s : scan_cache_t :=
  set_list (persist t addr is_persistent (bss_list s)) s.

Definition mtlk_cache_get_expiration_time s : Z := cache_expire s.
Definition mtlk_cache_set_expiration_time (expiration_time : Z) s : scan_cache_t := set_expire expiration_time s.
Definition mtlk_cache_modify_expiration_time (t : Z) (is_modification_allowed : bool) s : Z * scan_cache_t :=
  if is_modification_allowed then (MTLK_ERR_OK, mtlk_cache_set_expiration_time t s) else (MTLK_ERR_PROHIB, s).
