(* ===== verification/CacheInv.v ===== *)
(** * CacheInv: the well-formed cache, its lists and its memory *)
From Stdlib Require Import Permutation Sorted.
From S2P Require Import Prelude Reflim TxmmIface Addba AddbaSys FrameData Frame FrameReads FrameStore Cache.

Implicit Types (s : scan_cache_t) (e : cache_entry_t) (x y : Z * cache_entry_t) (l : list (Z * cache_entry_t)).

(** ** Lists *)

Definition x_bssid x : list Z := bssid (e_bss x.2).
(** The order of the list: channel, then the stronger signal. *)
Definition precedes x y : Prop :=
  channel (e_bss x.2) < channel (e_bss y.2) \/
  channel (e_bss x.2) = channel (e_bss y.2) /\ max_rssi (e_bss y.2) <= max_rssi (e_bss x.2).
Definition list_ok l : Prop := StronglySorted precedes l /\ NoDup (x_bssid <$> l) /\ NoDup l.*1.

Lemma insert_sorted_perm x l : insert_sorted x l ≡ₚ x :: l.
Proof.
  induction l as [|y l IH]; cbn [insert_sorted]; [done|].
  repeat case_match; try done; rewrite IH; apply Permutation_swap.
Qed.
Lemma insert_sorted_sorted x l : StronglySorted precedes l -> StronglySorted precedes (insert_sorted x l).
Proof.
  induction 1 as [|y l Hl IH Hy]; cbn [insert_sorted]; [by repeat constructor|].
  assert (Forall (precedes y) (insert_sorted x l) <-> precedes y x) as Hins.
  { rewrite insert_sorted_perm. rewrite Forall_cons. tauto. }
  assert (precedes x y -> StronglySorted precedes (x :: y :: l)) as Hfront.
  { intros Hxy. constructor; [by constructor|]. constructor; [done|]. eapply Forall_impl; [exact Hy|].
    intros z. unfold precedes in *. cbn in *. lia. }
  unfold precedes in Hins, Hfront at 1. repeat case_match; zbool.
  - constructor; [done|]. apply Hins. lia.
  - apply Hfront. lia.
  - constructor; [done|]. apply Hins. lia.
  - apply Hfront. lia.
Qed.
Lemma sorted_app_inv l1 x l2 : StronglySorted precedes (l1 ++ x :: l2) -> StronglySorted precedes (l1 ++ l2).
Proof.
  induction l1 as [|y l1 IH]; cbn; intros Hs; inversion Hs as [|? ? H1 H2]; subst; [done|].
  constructor; [by apply IH|]. rewrite Forall_app in H2 |- *. rewrite Forall_cons in H2. tauto.
Qed.
Lemma list_ok_remove l1 x l2 : list_ok (l1 ++ x :: l2) -> list_ok (l1 ++ l2).
Proof.
  intros (H1 & H2 & H3). split; [by eapply sorted_app_inv|]. rewrite <-(Permutation_middle l1 l2 x) in H2, H3.
  cbn in H2, H3. apply NoDup_cons in H2 as [_ H2]. by apply NoDup_cons in H3 as [_ H3].
Qed.
Lemma list_ok_insert x l : list_ok l -> x_bssid x ∉ x_bssid <$> l -> x.1 ∉ l.*1 -> list_ok (insert_sorted x l).
Proof.
  intros (H1 & H2 & H3) Hb Ha. split; [by apply insert_sorted_sorted|]. rewrite insert_sorted_perm. cbn. by split; apply NoDup_cons.
Qed.

Lemma has_bssid_true a x : has_bssid a x = true <-> x_bssid x = a.
Proof. unfold has_bssid. by rewrite bool_decide_eq_true. Qed.

Lemma unlink_spec a l :
  match unlink a l with
  | (Some x, l') => exists l1 l2, l = l1 ++ x :: l2 /\ l' = l1 ++ l2 /\ x_bssid x = a /\ a ∉ x_bssid <$> l1
  | (None, l') => l' = l /\ a ∉ x_bssid <$> l
  end.
Proof.
  induction l as [|y l IH]; cbn [unlink]; [split; [done|apply not_elem_of_nil]|].
  destruct (has_bssid a y) eqn:E.
  - exists [], l. apply has_bssid_true in E. split; [done|]. split; [done|]. split; [done|apply not_elem_of_nil].
  - assert (x_bssid y <> a) as Hne by (intros H; apply has_bssid_true in H; congruence).
    destruct (unlink a l) as [[x|] l'].
    + destruct IH as (l1 & l2 & -> & -> & H1 & H2). exists (y :: l1), l2. split; [done|]. split; [done|]. split; [done|].
      cbn. rewrite elem_of_cons. intuition congruence.
    + destruct IH as [-> H]. split; [done|]. cbn. rewrite elem_of_cons. intuition congruence.
Qed.

Lemma split_at_spec a l :
  match split_at a l with
  | Some (before, x, rest) => l = before ++ x :: rest /\ x.1 = a /\ a ∉ before.*1
  | None => a ∉ l.*1
  end.
Proof.
  induction l as [|y l IH]; cbn [split_at]; [apply not_elem_of_nil|].
  destruct (y.1 =? a) eqn:E; zbool; [split; [done|]; split; [done|apply not_elem_of_nil]|].
  destruct (split_at a l) as [[[before x] rest]|].
  - destruct IH as (-> & H1 & H2). split; [done|]. split; [done|]. cbn. rewrite elem_of_cons. intuition congruence.
  - cbn. rewrite elem_of_cons. intuition congruence.
Qed.
Lemma split_at_found before x rest : x.1 ∉ before.*1 -> split_at x.1 (before ++ x :: rest) = Some (before, x, rest).
Proof.
  induction before as [|y before IH]; intros Hni; cbn; [by rewrite Z.eqb_refl|]. cbn in Hni. rewrite elem_of_cons in Hni.
  rewrite (proj2 (Z.eqb_neq y.1 x.1)) by (intros E; apply Hni; by left). rewrite IH; [done|]. intros H. apply Hni. by right.
Qed.

(** ** Memory *)

(** The country elements that are allocated are the ones owned, each once. *)
Record mem_ok (owned : list Z) s : Prop := {
  mo_nodup : NoDup owned;
  mo_live p : p ∈ owned <-> is_Some (ies s !! p);
  mo_fresh : Forall (fun p => p < next_address s) owned;
  mo_faults : faults s = 0;
}.
Lemma mem_ok_perm owned owned' s : owned ≡ₚ owned' -> mem_ok owned s -> mem_ok owned' s.
Proof. intros Hp [H1 H2 H3 H4]. split; [by rewrite <-Hp|intros p; by rewrite <-Hp|by rewrite <-Hp|done]. Qed.

Definition owned_by x : list Z := option_list (country_ie (e_bss x.2)).
Definition ptrs l : list Z := l ≫= owned_by.
Lemma ptrs_app l1 l2 : ptrs (l1 ++ l2) = ptrs l1 ++ ptrs l2.
Proof. apply bind_app. Qed.
#[export] Instance ptrs_proper : Proper ((≡ₚ) ==> (≡ₚ)) ptrs.
Proof. intros l1 l2 Hl. unfold ptrs. by rewrite Hl. Qed.

(** Only the memory changes. *)
Record mem_only s s' : Prop := {
  me_list : bss_list s' = bss_list s; me_cursor : cur_entry s' = cur_entry s;
  me_modified : modified s' = modified s; me_expire : cache_expire s' = cache_expire s;
  me_next : next_address s <= next_address s';
}.
#[export] Instance mem_only_preorder : PreOrder mem_only.
Proof. split; [intros s; split; done|]. intros s1 s2 s3 [] []. split; try congruence; lia. Qed.

Lemma ie_free_spec p owned s : mem_ok (p :: owned) s ->
  mem_ok owned (ie_free p s) /\ mem_only s (ie_free p s) /\ (forall q, q ∈ owned -> ies (ie_free p s) !! q = ies s !! q).
Proof.
  intros [H1 H2 H3 H4]. apply NoDup_cons in H1 as [Hni H1]. unfold ie_free.
  destruct (proj1 (H2 p)) as [b Hb]; [by left|]. rewrite Hb. assert (forall q, q ∈ owned -> q <> p) as Hne by (intros q Hq ->; done).
  split; [|split; [by split|]].
  - split; cbn; [done| |by apply Forall_cons in H3 as [_ H3]|done]. intros q. destruct (decide (q = p)) as [->|Hq].
    + rewrite lookup_delete_eq. split; [done|]. by intros [].
    + rewrite lookup_delete_ne by done. rewrite <-H2, elem_of_cons. intuition congruence.
  - intros q Hq. cbn. by rewrite lookup_delete_ne by (by apply not_eq_sym, Hne).
Qed.
Lemma free_entry_spec x owned s : mem_ok (owned_by x ++ owned) s ->
  mem_ok owned (_cache_free_entry x s) /\ mem_only s (_cache_free_entry x s) /\
  (forall q, q ∈ owned -> ies (_cache_free_entry x s) !! q = ies s !! q).
Proof.
  unfold _cache_free_entry, owned_by. destruct (country_ie (e_bss x.2)) as [p|]; cbn; [apply ie_free_spec|].
  intros H. split; [done|]. split; [reflexivity|done].
Qed.

(** What a description's country element can be copied from. *)
Definition readable (env : cache_env) (bss : bss_data_t) s : Prop :=
  forall p, country_ie bss = Some p -> is_Some (ie_read env p s).
Lemma clone_spec env bss owned s : mem_ok owned s -> readable env bss s ->
  let '(q, s') := _cache_clone_country_ie env bss s in
  mem_ok (option_list q ++ owned) s' /\ mem_only s s' /\ (forall p, p ∈ owned -> ies s' !! p = ies s !! p) /\
  (forall p, q = Some p -> next_address s <= p < next_address s') /\
  (alloc_ie env = true -> q ≫= (fun p => ies s' !! p) = country_ie bss ≫= (fun p => ie_read env p s)) /\
  (q = None -> alloc_ie env = true -> country_ie bss = None).
Proof.
  intros Hm Hr. unfold _cache_clone_country_ie. destruct (country_ie bss) as [p|] eqn:E; [|by repeat split; try apply Hm].
  destruct (Hr p E) as [b Hb]. rewrite Hb. destruct (alloc_ie env); [|by repeat split; try apply Hm].
  destruct Hm as [H1 H2 H3 H4]. cbn. assert (next_address s ∉ owned) as Hni.
  { intros Hin. rewrite Forall_forall in H3. specialize (H3 _ Hin). cbn in H3. lia. }
  split; [split; cbn|split; [split; cbn; (done || lia)|split; [|split; [|split]]]].
  - by apply NoDup_cons.
  - intros q. rewrite elem_of_cons, H2. destruct (decide (q = next_address s)) as [->|Hq].
    + rewrite lookup_insert_eq. split; [done|by left].
    + rewrite lookup_insert_ne by done. split; [intros [?|?]; done|by right].
  - constructor; [lia|]. eapply Forall_impl; [exact H3|]. cbn. intros. lia.
  - done.
  - intros q Hq. rewrite lookup_insert_ne; [done|]. by intros <-.
  - intros q [= <-]. lia.
  - intros _. by rewrite lookup_insert_eq.
  - done.
Qed.

(** * Every operation keeps the cache well formed *)

(** [lent]: the copies of country elements handed out and not yet freed. *)
Record cache_ok (lent : list Z) s : Prop := {
  ck_list : list_ok (bss_list s);
  ck_cursor a : cur_entry s = Some a -> a ∈ (bss_list s).*1;
  ck_mem : mem_ok (ptrs (bss_list s) ++ lent) s;
  ck_addr : Forall (fun x => x.1 < next_address s) (bss_list s);
  ck_wf : Forall (fun x => bss_wf (e_bss x.2)) (bss_list s);
}.

Lemma mem_ok_ext owned s s' : mem_ok owned s -> ies s' = ies s -> next_address s' = next_address s -> faults s' = faults s -> mem_ok owned s'.
Proof. intros [] E1 E2 E3. split; rewrite ?E1, ?E2, ?E3; done. Qed.

Lemma cache_init_ok expire : cache_ok [] (mtlk_cache_init expire).
Proof.
  split; cbn; try done; [by split; [constructor|split; constructor]|].
  split; cbn; try done; [constructor|]. intros p. rewrite lookup_empty. split; [by intros ?%elem_of_nil|by intros []].
Qed.

(** ** Frees of whole lists *)

Lemma free_all_spec l owned s : mem_ok (ptrs l ++ owned) s ->
  let s' := foldl (fun s x => _cache_free_entry x s) s l in
  mem_ok owned s' /\ mem_only s s' /\ (forall q, q ∈ owned -> ies s' !! q = ies s !! q).
Proof.
  revert s. induction l as [|x l IH]; intros s Hm; cbn; [done|].
  unfold ptrs in Hm. cbn in Hm. rewrite <-app_assoc in Hm. fold (ptrs l) in Hm.
  destruct (free_entry_spec x _ s Hm) as (H1 & H2 & H3). destruct (IH _ H1) as (G1 & G2 & G3).
  split; [done|]. split; [by etransitivity|]. intros q Hq. rewrite G3 by done. apply H3. apply elem_of_app. by right.
Qed.

(** ** The cursor *)

(** What a call of [mtlk_cache_get_next_bss] does to the entries from the cursor on. *)
Record advanced (t : Z) (before rest : list (Z * cache_entry_t)) (lent : list Z) s (r : option cache_entry_t) s' : Prop := {
  ad_dropped : list (Z * cache_entry_t); ad_rest : list (Z * cache_entry_t);
  ad_split : rest = ad_dropped ++ ad_rest;
  ad_expired : Forall (fun x => entry_expired t (cache_expire s) x.2 = true) ad_dropped;
  ad_result : r = snd <$> head ad_rest;
  ad_valid x : head ad_rest = Some x -> entry_expired t (cache_expire s) x.2 = false;
  ad_list : bss_list s' = before ++ ad_rest;
  ad_cursor : cur_entry s' = fst <$> head (tail ad_rest);
  ad_mem : mem_ok (ptrs before ++ ptrs ad_rest ++ lent) s';
  ad_ies q : q ∈ ptrs before ++ ptrs ad_rest ++ lent -> ies s' !! q = ies s !! q;
  ad_same : cache_expire s' = cache_expire s /\ next_address s' = next_address s /\
    modified s' = modified s || negb (bool_decide (ad_dropped = []));
}.
Lemma next_valid_spec t before rest lent s : mem_ok (ptrs before ++ ptrs rest ++ lent) s ->
  advanced t before rest lent s (next_valid t before rest s).1 (next_valid t before rest s).2.
Proof.
  revert s. induction rest as [|x rest IH]; intros s Hm; cbn [next_valid].
  { eapply (Build_advanced _ _ _ _ _ _ _ [] []); cbn; rewrite ?app_nil_r, ?orb_false_r; try done. by eapply mem_ok_ext. }
  destruct (entry_expired t (cache_expire s) x.2) eqn:E.
  - unfold ptrs in Hm at 2. cbn in Hm. fold (ptrs rest) in Hm.
    assert (mem_ok (owned_by x ++ ptrs before ++ ptrs rest ++ lent) (set_modified true s)) as Hm'.
    { apply (mem_ok_ext _ s); [|done..]. eapply mem_ok_perm; [|exact Hm]. rewrite <-app_assoc, Permutation_app_swap_app. done. }
    destruct (free_entry_spec x _ _ Hm') as (H1 & [M1 M2 M3 M4 M5] & H3).
    assert (next_address (_cache_free_entry x (set_modified true s)) = next_address s) as Hn
      by (unfold _cache_free_entry, ie_free; repeat case_match; done).
    set (s1 := _cache_free_entry x (set_modified true s)) in *. cbn in M1, M2, M3, M4.
    destruct (IH s1 H1) as [dropped rest' B1 B2 B3 B4 B5 B6 B7 B8 (B9 & B10 & B11)].
    eapply (Build_advanced _ _ _ _ _ _ _ (x :: dropped) rest'); try done.
    + by rewrite B1.
    + constructor; [done|]. by rewrite M4 in B2.
    + intros y Hy. rewrite <-M4. by apply B4.
    + intros q Hq. rewrite B8 by done. rewrite H3; [done|]. rewrite B1, ptrs_app. set_solver.
    + rewrite B9, B10, B11, M3, M4, Hn. cbn. split; [done|]. split; [done|]. by rewrite orb_true_r.
  - eapply (Build_advanced _ _ _ _ _ _ _ [] (x :: rest)); try done; [by intros y [= <-]|by eapply mem_ok_ext|cbn; by rewrite orb_false_r].
Qed.

Lemma get_next_cursor t s a before x rest : cur_entry s = Some a -> split_at a (bss_list s) = Some (before, x, rest) ->
  mtlk_cache_get_next_bss t s = next_valid t before (x :: rest) s.
Proof. intros Ha Hs. unfold mtlk_cache_get_next_bss. by rewrite Ha, Hs. Qed.

Lemma list_ok_drop before dropped rest : list_ok (before ++ dropped ++ rest) -> list_ok (before ++ rest).
Proof.
  induction dropped as [|x dropped IH]; [done|]. cbn. intros H. apply IH. by eapply list_ok_remove.
Qed.

Lemma advanced_ok t before rest lent s r s' : cache_ok lent s -> bss_list s = before ++ rest -> advanced t before rest lent s r s' -> cache_ok lent s'.
Proof.
  intros [H1 H2 H3 H4 H5] El [dropped rest' B1 B2 B3 B4 B5 B6 B7 B8 (B9 & B10 & B11)]. subst rest. rewrite El in *.
  split; rewrite ?B5.
  - by eapply list_ok_drop.
  - intros a Ha. rewrite B6 in Ha. destruct rest' as [|y [|z rest']]; cbn in Ha; simplify_eq.
    rewrite fmap_app. apply elem_of_app. right. cbn. by right; left.
  - rewrite ptrs_app, <-app_assoc. exact B7.
  - apply (Forall_impl (fun x => x.1 < next_address s)); [|intros y Hy; cbn in *; lia]. by apply Forall_app in H4 as [? [_ ?]%Forall_app]; apply Forall_app.
  - by apply Forall_app in H5 as [? [_ ?]%Forall_app]; apply Forall_app.
Qed.

Lemma set_cursor_ok lent c s : (forall a, c = Some a -> a ∈ (bss_list s).*1) -> cache_ok lent s -> cache_ok lent (set_cursor c s).
Proof. intros Hc [H1 H2 H3 H4 H5]. split; cbn; try done. by eapply mem_ok_ext. Qed.

Lemma get_next_ok lent t s : cache_ok lent s -> cache_ok lent (mtlk_cache_get_next_bss t s).2.
Proof.
  intros Hs. unfold mtlk_cache_get_next_bss. destruct (cur_entry s) as [a|] eqn:Ha; [|done].
  pose proof (split_at_spec a (bss_list s)) as Hsp. destruct (split_at a (bss_list s)) as [[[before x] rest]|].
  - destruct Hsp as (El & _ & _). eapply (advanced_ok t before (x :: rest)); [done|done|]. apply next_valid_spec.
    rewrite app_assoc, <-ptrs_app, <-El. apply Hs.
  - by apply set_cursor_ok.
Qed.

Lemma rewind_ok lent s : cache_ok lent s -> cache_ok lent (mtlk_cache_rewind s).
Proof.
  apply set_cursor_ok. intros a. destruct (bss_list s) as [|x l]; [done|]. intros [= <-]. left.
Qed.

Lemma enumerate_ok lent fuel clock k s : cache_ok lent s -> cache_ok lent (enumerate fuel clock k s).2.
Proof.
  revert k s. induction fuel as [|fuel IH]; intros k s Hs; cbn [enumerate]; [done|].
  pose proof (get_next_ok lent (clock k) s Hs) as H1. destruct (mtlk_cache_get_next_bss (clock k) s) as [[e|] s1]; [|done].
  specialize (IH (S k) s1 H1). by destruct (enumerate fuel clock (S k) s1).
Qed.
Lemma find_next_ok lent fuel clock k p s : cache_ok lent s -> cache_ok lent (find_next fuel clock k p s).2.
Proof.
  revert k s. induction fuel as [|fuel IH]; intros k s Hs; cbn [find_next]; [done|].
  pose proof (get_next_ok lent (clock k) s Hs) as H1. destruct (mtlk_cache_get_next_bss (clock k) s) as [[e|] s1]; [|done].
  case_match; [done|]. by apply IH.
Qed.
