(* ===== verification/CacheMap.v ===== *)
(** * CacheMap: the cache as a map from addresses to what is known of them *)
From S2P Require Import Prelude Reflim TxmmIface Addba AddbaSys FrameData Frame FrameReads FrameStore Cache CacheInv.
From Stdlib Require Import Permutation Sorted.

Implicit Types (s : scan_cache_t) (e : cache_entry_t) (x y : Z * cache_entry_t) (l : list (Z * cache_entry_t)).

(** ** The map *)

(** An entry without its pointers: the country element as bytes. *)
Record view := View { v_time : Z; v_persistent : bool; v_freq : Z; v_bss : bss_data_t; v_ie : option (list Z) }.
Definition view_of s x : view :=
  View (local_timestamp x.2) (is_persistent x.2) (freq x.2) (set_country_ie None (e_bss x.2))
    (country_ie (e_bss x.2) ≫= fun p => ies s !! p).
Definition cache_lookup s (addr : list Z) : option view := view_of s <$> (unlink addr (bss_list s)).1.

Lemma unlink_fst a l x : NoDup (x_bssid <$> l) -> ((unlink a l).1 = Some x <-> x ∈ l /\ x_bssid x = a).
Proof.
  intros Hn. pose proof (unlink_spec a l) as Hs. destruct (unlink a l) as [[y|] l']; cbn.
  - destruct Hs as (l1 & l2 & -> & _ & Hy & Hni). split.
    + intros [= <-]. split; [|done]. apply elem_of_app. by right; left.
    + intros [Hin Hx]. f_equal. rewrite fmap_app, fmap_cons in Hn. apply NoDup_app in Hn as (_ & Hdis & Hn). apply NoDup_cons in Hn as [Hn _].
      apply elem_of_app in Hin as [Hin|Hin]; [|apply elem_of_cons in Hin as [->|Hin]; [done|]].
      * exfalso. apply Hni. rewrite <-Hx. by apply list_elem_of_fmap_2.
      * exfalso. apply Hn. rewrite Hy, <-Hx. by apply list_elem_of_fmap_2.
  - destruct Hs as [-> Hni]. split; [done|]. intros [Hin <-]. exfalso. apply Hni. by apply list_elem_of_fmap_2.
Qed.

Lemma cache_lookup_Some s a v : NoDup (x_bssid <$> bss_list s) ->
  (cache_lookup s a = Some v <-> exists x, x ∈ bss_list s /\ x_bssid x = a /\ v = view_of s x).
Proof.
  intros Hn. unfold cache_lookup. split.
  - intros (x & E & ->)%fmap_Some. apply unlink_fst in E as [H1 H2]; [|done]. by exists x.
  - intros (x & H1 & H2 & ->). apply fmap_Some. exists x. by rewrite unlink_fst.
Qed.

(** Two states that agree on the entries of an address. *)
Lemma lookup_agree s s' a : NoDup (x_bssid <$> bss_list s) -> NoDup (x_bssid <$> bss_list s') ->
  (forall x, x_bssid x = a -> (x ∈ bss_list s' <-> x ∈ bss_list s)) ->
  (forall x p, x ∈ bss_list s -> x_bssid x = a -> country_ie (e_bss x.2) = Some p -> ies s' !! p = ies s !! p) ->
  cache_lookup s' a = cache_lookup s a.
Proof.
  intros Hs Hs' Hin Hie. apply option_eq. intros v. rewrite !cache_lookup_Some by done.
  assert (forall x, x ∈ bss_list s -> x_bssid x = a -> view_of s' x = view_of s x) as Hv.
  { intros x H1 H2. unfold view_of. f_equal. destruct (country_ie (e_bss x.2)) as [p|] eqn:E; [|done]. cbn. by apply (Hie x). }
  split; intros (x & H1 & H2 & ->).
  - exists x. apply Hin in H1; [|done]. by rewrite Hv.
  - exists x. rewrite Hin by done. by rewrite Hv.
Qed.

Lemma owned_in_ptrs x p l : x ∈ l -> country_ie (e_bss x.2) = Some p -> p ∈ ptrs l.
Proof. intros H1 H2. apply list_elem_of_bind. exists x. split; [|done]. unfold owned_by. rewrite H2. by left. Qed.

(** ** Registering *)

Lemma wf_set_essid b b' : bss_wf b -> essid_ok b' -> bss_wf (set_essid (essid b') b).
Proof. intros [] ?. by split. Qed.
Lemma wf_set_country b p : bss_wf b -> bss_wf (set_country_ie p b).
Proof. intros []. by split. Qed.

(** A description whose country element is outside the cache. *)
Definition from_outside (env : cache_env) (bss : bss_data_t) : Prop :=
  forall p, country_ie bss = Some p -> is_Some (foreign env p).
Lemma outside_readable env bss s : from_outside env bss -> readable env bss s.
Proof. intros H p Hp. destruct (H p Hp) as [b Hb]. unfold ie_read. rewrite Hb. by eexists. Qed.

(** The name of an entry stays when the new description has none. *)
Definition keep_essid (old : option view) (bss : bss_data_t) : bss_data_t :=
  match old with
  | Some v => if hd 0 (essid bss) =? 0 then set_essid (essid (v_bss v)) bss else bss
  | None => bss
  end.
Definition registered_view env (old : option view) (bss : bss_data_t) : view :=
  View (now env) false (is_2_4 bss) (set_country_ie None (keep_essid old bss))
    (if alloc_ie env then country_ie bss ≫= foreign env else None).

(** The new entry, put into the list of the others. *)
Lemma register_new env bss bss' slot lent s : list_ok (bss_list s) -> mem_ok (ptrs (bss_list s) ++ lent) s ->
  Forall (fun x => x.1 < next_address s) (bss_list s) -> Forall (fun x => bss_wf (e_bss x.2)) (bss_list s) ->
  (forall a, cur_entry s = Some a -> a ∈ slot :: (bss_list s).*1) ->
  bss_wf bss' -> from_outside env bss -> slot < next_address s -> slot ∉ (bss_list s).*1 -> bssid bss ∉ x_bssid <$> bss_list s ->
  bssid bss' = bssid bss -> is_2_4 bss' = is_2_4 bss -> country_ie bss' = country_ie bss ->
  let '(p, s1) := _cache_clone_country_ie env bss' s in
  let s' := set_list (insert_sorted (slot, CacheEntry (now env) false (is_2_4 bss') (set_country_ie p bss')) (bss_list s1)) s1 in
  cache_ok lent s' /\
  cache_lookup s' (bssid bss) =
    Some (View (now env) false (is_2_4 bss) (set_country_ie None bss') (if alloc_ie env then country_ie bss ≫= foreign env else None)) /\
  (forall a, a <> bssid bss -> cache_lookup s' a = cache_lookup s a) /\
  (forall y p, y ∈ bss_list s' -> country_ie (e_bss y.2) = Some p -> y ∈ bss_list s \/ next_address s <= p).
Proof.
  intros Hl Hm Ha Hw Hcur Hwf Hout Hslot Hni Hnb Eb E2 Ec. assert (readable env bss' s) as Hr.
  { apply outside_readable. intros p. rewrite Ec. apply Hout. }
  pose proof (clone_spec env bss' _ s Hm Hr) as Hc. destruct (_cache_clone_country_ie env bss' s) as [p s1] eqn:Eclone.
  destruct Hc as (C1 & [M1 M2 M3 M4 M5] & C3 & C4 & C5 & C6). cbv zeta.
  set (x := (slot, CacheEntry (now env) false (is_2_4 bss') (set_country_ie p bss'))).
  pose proof (insert_sorted_perm x (bss_list s1)) as Hp. rewrite M1 in Hp |- *.
  assert (list_ok (insert_sorted x (bss_list s))) as Hl' by (apply list_ok_insert; [done|by rewrite <-Eb in Hnb|done]).
  assert (cache_ok lent (set_list (insert_sorted x (bss_list s)) s1)) as Hok.
  { split; cbn -[ptrs].
    - done.
    - intros a. rewrite M2, Hp. apply Hcur.
    - apply (mem_ok_ext _ s1); [|done..]. apply (mem_ok_perm (option_list p ++ ptrs (bss_list s) ++ lent)); [|exact C1].
      rewrite Hp, app_assoc. done.
    - rewrite Hp. constructor; [cbn; lia|]. eapply Forall_impl; [exact Ha|]. cbn. lia.
    - rewrite Hp. constructor; [by apply wf_set_country|done]. }
  assert (NoDup (x_bssid <$> insert_sorted x (bss_list s))) as Hn' by apply Hl'. split; [done|]. split.
  - apply cache_lookup_Some; [done|]. exists x. split; [cbn; rewrite Hp; by left|]. split; [exact Eb|]. unfold view_of. cbn. rewrite E2. f_equal.
    destruct (alloc_ie env) eqn:Ea.
    + specialize (C5 eq_refl). rewrite C5, Ec. destruct (country_ie bss) as [q|] eqn:Eq; [|done]. cbn. unfold ie_read.
      destruct (Hout q Eq) as [b Hb]. by rewrite Hb.
    + unfold _cache_clone_country_ie in Eclone. rewrite Ea in Eclone. destruct (country_ie bss'); [destruct (ie_read env z s)|]; by simplify_eq.
  - split; [intros a Hne; apply lookup_agree; [apply Hl|done| |]|].
    + intros y Hy. cbn. rewrite Hp, elem_of_cons. split; [intros [->|?]; [|done]|by right]. exfalso. apply Hne. rewrite <-Hy. exact Eb.
    + intros y q Hy _ Hq. cbn. apply C3, elem_of_app. left. by eapply owned_in_ptrs.
    + intros y q. cbn. rewrite Hp, elem_of_cons. intros [->|Hy] Hq; [|by left]. right. cbn in Hq. apply C4 in Hq. lia.
Qed.

Lemma keep_essid_same old bss : bssid (keep_essid old bss) = bssid bss /\ is_2_4 (keep_essid old bss) = is_2_4 bss /\
  country_ie (keep_essid old bss) = country_ie bss.
Proof. unfold keep_essid. by repeat case_match. Qed.

(** What a removed entry leaves. *)
Lemma cache_unlink_ok a lent s x l : cache_ok lent s -> unlink a (bss_list s) = (Some x, l) ->
  let s' := _cache_free_entry x (set_list l s) in
  list_ok l /\ mem_ok (ptrs l ++ lent) s' /\ mem_only (set_list l s) s' /\
  Forall (fun x => x.1 < next_address s) l /\ Forall (fun x => bss_wf (e_bss x.2)) l /\
  x_bssid x = a /\ a ∉ x_bssid <$> l /\ x.1 ∉ l.*1 /\ bss_list s ≡ₚ x :: l /\ x ∈ bss_list s /\
  (forall q, q ∈ ptrs l ++ lent -> ies s' !! q = ies s !! q).
Proof.
  intros [H1 H2 H3 H4 H5] Hu. pose proof (unlink_spec a (bss_list s)) as Hs. rewrite Hu in Hs.
  destruct Hs as (l1 & l2 & El & -> & Ex & _). pose proof (Permutation_middle l1 l2 x) as Hp. rewrite <-El in Hp.
  assert (mem_ok (owned_by x ++ ptrs (l1 ++ l2) ++ lent) (set_list (l1 ++ l2) s)) as Hm.
  { apply (mem_ok_ext _ s); [|done..]. apply (mem_ok_perm (ptrs (bss_list s) ++ lent)); [|done]. rewrite <-Hp. unfold ptrs at 1. cbn. by rewrite app_assoc. }
  destruct (free_entry_spec x _ _ Hm) as (F1 & F2 & F3). pose proof H1 as (_ & N1 & N2). rewrite <-Hp in N1, N2. cbn in N1, N2.
  apply NoDup_cons in N1 as [N1 _]. apply NoDup_cons in N2 as [N2 _]. rewrite <-Hp in H4, H5. apply Forall_cons in H4 as [_ H4]. apply Forall_cons in H5 as [_ H5].
  split; [rewrite El in H1; by eapply list_ok_remove|]. split; [done|]. split; [done|]. split; [done|]. split; [done|]. split; [done|].
  split; [by rewrite <-Ex|]. split; [done|]. split; [done|]. split; [rewrite El; apply elem_of_app; by right; left|]. exact F3.
Qed.

Lemma free_entry_modified x b s : _cache_free_entry x (set_modified b s) = set_modified b (_cache_free_entry x s).
Proof. unfold _cache_free_entry, ie_free. destruct (country_ie _); [|done]. cbn. by case_match. Qed.

Lemma register_ok env bss lent s : cache_ok lent s -> bss_wf bss -> from_outside env bss ->
  let old := cache_lookup s (bssid bss) in
  let '(bss', s') := mtlk_cache_register_bss env bss s in
  cache_ok lent s' /\ bss' = keep_essid old bss /\
  (is_Some old \/ alloc_entry env = true -> cache_lookup s' (bssid bss) = Some (registered_view env old bss)) /\
  (old = None -> alloc_entry env = false -> cache_lookup s' (bssid bss) = None) /\
  (forall a, a <> bssid bss -> cache_lookup s' a = cache_lookup s a) /\
  (forall y p, y ∈ bss_list s' -> country_ie (e_bss y.2) = Some p -> y ∈ bss_list s /\ x_bssid y <> bssid bss \/ next_address s <= p).
Proof.
  intros Hs Hw Hout. cbv zeta. unfold mtlk_cache_register_bss.
  destruct (unlink (bssid bss) (bss_list s)) as [[x|] l] eqn:Hu.
  - assert (cache_lookup s (bssid bss) = Some (view_of s x)) as Eold by (unfold cache_lookup; by rewrite Hu). rewrite Eold.
    destruct (cache_unlink_ok _ _ _ _ _ Hs Hu) as (L1 & L2 & [M1 M2 M3 M4 M5] & L3 & L4 & L5 & L6 & L7 & L8 & L9 & L10).
    rewrite bool_decide_true by done. cbn [orb negb].
    set (s0 := _cache_free_entry x (set_list l s)) in *. cbn in M1, M2, M3, M4, M5.
    set (s1 := _cache_free_entry x (set_modified true (set_list l s))).
    assert (s1 = set_modified true s0) as E1 by apply free_entry_modified.
    set (bss' := if hd 0 (essid bss) =? 0 then set_essid (essid (e_bss x.2)) bss else bss).
    assert (bss' = keep_essid (Some (view_of s x)) bss) as Ek by done.
    destruct (keep_essid_same (Some (view_of s x)) bss) as (K1 & K2 & K3). rewrite <-Ek in K1, K2, K3.
    assert (bss_wf bss') as Hw'.
    { unfold bss'. case_match; [|done]. apply wf_set_essid; [done|]. apply bw_essid. pose proof (ck_wf _ _ Hs) as Hall.
      rewrite Forall_forall in Hall. by apply Hall. }
    pose proof (register_new env bss bss' x.1 lent s1) as Hreg. rewrite E1 in Hreg |- *. cbn in Hreg. rewrite M1 in Hreg.
    specialize (Hreg L1). ospecialize* Hreg; try done.
    + by apply (mem_ok_ext _ s0).
    + eapply Forall_impl; [exact L3|]. cbn. lia.
    + intros a. rewrite M2. intros Ha. apply (ck_cursor _ _ Hs) in Ha. by rewrite L8 in Ha.
    + pose proof (ck_addr _ _ Hs) as Hall. rewrite Forall_forall in Hall. specialize (Hall x L9). cbn in Hall. lia.
    + destruct (_cache_clone_country_ie env bss' (set_modified true s0)) as [p s2]. destruct Hreg as (R1 & R2 & R3 & R4).
      split; [done|]. split; [done|]. split; [intros _; rewrite R2; unfold registered_view; by rewrite <-Ek|]. split; [done|].
      split; [intros a Ha; rewrite R3 by done; apply lookup_agree; [apply Hs|cbn; rewrite M1; apply L1| |]|].
      * intros y Hy. cbn. rewrite M1, L8, elem_of_cons. split; [by right|]. intros [->|?]; [|done]. congruence.
      * intros y q Hy Hne Hq. cbn. rewrite L10; [done|]. apply elem_of_app. left. rewrite L8 in Hy. apply elem_of_cons in Hy as [->|Hy]; [congruence|].
        by eapply owned_in_ptrs.
      * intros y q Hy Hq. destruct (R4 y q Hy Hq) as [Hy'|]; [|right; cbn in *; lia]. left.
        split; [rewrite L8; by right|]. intros E. apply L6. rewrite <-E. by apply list_elem_of_fmap_2.
  - assert (cache_lookup s (bssid bss) = None) as Eold by (unfold cache_lookup; by rewrite Hu). rewrite Eold.
    pose proof (unlink_spec (bssid bss) (bss_list s)) as Hsp. rewrite Hu in Hsp. destruct Hsp as [-> Hnb].
    assert (set_list (bss_list s) s = s) as Eid by (by destruct s). rewrite Eid.
    rewrite (bool_decide_false (is_Some None)) by (by intros []). cbn [orb keep_essid].
    destruct (alloc_entry env) eqn:Ea; cbn [negb].
    2:{ split; [done|]. split; [done|]. split; [by intros [[]|]|]. split; [done|]. split; [done|]. intros y q Hy _. left. split; [done|].
      intros E. apply Hnb. rewrite <-E. by apply list_elem_of_fmap_2. }
    destruct Hs as [H1 H2 H3 H4 H5]. unfold fresh.
    set (s1 := set_modified true _). pose proof (register_new env bss bss (next_address s) lent s1) as Hreg.
    assert (forall x, x ∈ bss_list s -> x.1 <> next_address s) as Hne.
    { intros x Hx Hxa. rewrite Forall_forall in H4. specialize (H4 x Hx). cbn in H4. lia. }
    ospecialize* Hreg; try done.
    + destruct H3 as [G1 G2 G3 G4]. split; [done|done| |done]. eapply Forall_impl; [exact G3|]. cbn. lia.
    + eapply Forall_impl; [exact H4|]. cbn. lia.
    + intros a Ha. right. by apply H2.
    + cbn. lia.
    + intros Hin. apply list_elem_of_fmap in Hin as (x & Hx & Hin). by apply (Hne x).
    + destruct (_cache_clone_country_ie env bss s1) as [p s2]. destruct Hreg as (R1 & R2 & R3 & R4).
      split; [done|]. split; [done|]. split; [intros _; exact R2|]. split; [done|]. split; [exact R3|].
      intros y q Hy Hq. destruct (R4 y q Hy Hq) as [Hy'|]; [|right; cbn in *; lia]. left. split; [done|].
      intros E. apply Hnb. rewrite <-E. by apply list_elem_of_fmap_2.
Qed.

(** ** Removing *)

Lemma others_agree lent s s' x l a : cache_ok lent s -> bss_list s ≡ₚ x :: l -> bss_list s' = l -> NoDup (x_bssid <$> l) ->
  (forall q, q ∈ ptrs l ++ lent -> ies s' !! q = ies s !! q) -> a <> x_bssid x -> cache_lookup s' a = cache_lookup s a.
Proof.
  intros Hs Hp El Hn Hie Ha. apply lookup_agree; [apply Hs|by rewrite El| |].
  - intros y Hy. rewrite El, Hp, elem_of_cons. split; [by right|]. intros [->|?]; [congruence|done].
  - intros y q Hy Hya Hq. apply Hie, elem_of_app. left. rewrite Hp in Hy. apply elem_of_cons in Hy as [->|Hy]; [congruence|].
    by eapply owned_in_ptrs.
Qed.
Lemma lookup_none s a : a ∉ x_bssid <$> bss_list s -> cache_lookup s a = None.
Proof.
  intros Hni. unfold cache_lookup. pose proof (unlink_spec a (bss_list s)) as Hs. destruct (unlink a (bss_list s)) as [[x|] l]; [|done].
  destruct Hs as (l1 & l2 & El & _ & Hx & _). exfalso. apply Hni. rewrite El, fmap_app. apply elem_of_app. right. rewrite <-Hx. by left.
Qed.

Lemma remove_ok addr lent s : cache_ok lent s ->
  let s' := mtlk_cache_remove_bss_by_bssid addr s in
  cache_ok lent s' /\ cache_lookup s' addr = None /\ (forall a, a <> addr -> cache_lookup s' a = cache_lookup s a).
Proof.
  intros Hs. cbv zeta. unfold mtlk_cache_remove_bss_by_bssid. destruct (unlink addr (bss_list s)) as [[x|] l] eqn:Hu.
  2:{ split; [done|]. split; [|done]. unfold cache_lookup. by rewrite Hu. }
  destruct (cache_unlink_ok _ _ _ _ _ Hs Hu) as (L1 & L2 & [M1 M2 M3 M4 M5] & L3 & L4 & L5 & L6 & L7 & L8 & L9 & L10).
  set (s0 := _cache_free_entry x (set_list l s)) in *. cbn in M1, M2, M3, M4, M5.
  set (s1 := if bool_decide _ then _ else _). assert (exists c, _cache_free_entry x s1 = set_cursor c (set_modified true s0) /\
    (forall a, c = Some a -> cur_entry s = Some a /\ a <> x.1)) as (c & E1 & Hc).
  { unfold s1. cbn. case_bool_decide as Hd.
    - exists None. split; [|done]. unfold s0, _cache_free_entry, ie_free. destruct (country_ie _); [|done]. cbn. by case_match.
    - exists (cur_entry s). split; [|intros a Ha; split; [done|]; intros ->; done].
      unfold s0, _cache_free_entry, ie_free. destruct (country_ie _); [|done]. cbn. by case_match. }
  rewrite E1. assert (bss_list (set_cursor c (set_modified true s0)) = l) as El by exact M1.
  split; [split|split].
  - by rewrite El.
  - intros a Ha. destruct (Hc a Ha) as [G1 G2]. rewrite El. apply (ck_cursor _ _ Hs) in G1. rewrite L8 in G1. cbn in G1.
    apply elem_of_cons in G1 as [->|G1]; done.
  - rewrite El. by apply (mem_ok_ext _ s0).
  - rewrite El. eapply Forall_impl; [exact L3|]. cbn. lia.
  - by rewrite El.
  - apply lookup_none. by rewrite El.
  - intros a Ha. eapply others_agree; [done|done|done|apply L1|done|congruence].
Qed.

Lemma delete_current_ok lent s : cache_ok lent s -> cache_ok lent (mtlk_cache_delete_current s).
Proof.
  intros Hs. unfold mtlk_cache_delete_current. destruct (cur_entry s) as [c|]; [|done].
  pose proof (split_at_spec c (bss_list s)) as Hsp. destruct (split_at c (bss_list s)) as [[[before x] rest]|]; [|by apply set_cursor_ok].
  destruct Hsp as (El & _). pose proof Hs as [H1 H2 H3 H4 H5]. pose proof (Permutation_middle before rest x) as Hp. rewrite <-El in Hp.
  assert (mem_ok (owned_by x ++ ptrs (before ++ rest) ++ lent) (set_modified true (set_list (before ++ rest) s))) as Hm.
  { apply (mem_ok_ext _ s); [|done..]. apply (mem_ok_perm (ptrs (bss_list s) ++ lent)); [|done]. rewrite <-Hp. unfold ptrs at 1. cbn. by rewrite app_assoc. }
  destruct (free_entry_spec x _ _ Hm) as (F1 & [M1 M2 M3 M4 M5] & F3). cbn in M1, M5. rewrite <-Hp in H4, H5.
  apply Forall_cons in H4 as [_ H4]. apply Forall_cons in H5 as [_ H5]. rewrite El in H1. apply list_ok_remove in H1.
  split; cbn -[ptrs]; rewrite ?M1; [done|done| |eapply Forall_impl; [exact H4|]; cbn; lia|done]. by eapply mem_ok_ext.
Qed.

(** The entry under the cursor is gone, and nothing else. *)
Lemma delete_current_map lent s x : cache_ok lent s -> x ∈ bss_list s -> cur_entry s = Some x.1 ->
  let s' := mtlk_cache_delete_current s in
  cache_lookup s' (x_bssid x) = None /\ (forall a, a <> x_bssid x -> cache_lookup s' a = cache_lookup s a).
Proof.
  intros Hs Hx Hc s'. unfold s', mtlk_cache_delete_current. rewrite Hc.
  pose proof Hs as [(_ & Hn & Hd) _ H3 _ _]. apply list_elem_of_split in Hx as (l1 & l2 & El).
  assert (split_at x.1 (bss_list s) = Some (l1, x, l2)) as -> by (rewrite El; apply split_at_found; rewrite El, fmap_app, fmap_cons in Hd; apply NoDup_app in Hd as (_ & Hd & _); intros Hin; apply (Hd _ Hin); by left).
  pose proof (Permutation_middle l1 l2 x) as Hp.
  assert (mem_ok (owned_by x ++ ptrs (l1 ++ l2) ++ lent) (set_modified true (set_list (l1 ++ l2) s))) as Hm.
  { apply (mem_ok_ext _ s); [|done..]. apply (mem_ok_perm (ptrs (bss_list s) ++ lent)); [|done]. rewrite El, <-Hp. unfold ptrs at 1. cbn. by rewrite app_assoc. }
  destruct (free_entry_spec x _ _ Hm) as (_ & [M1 _ _ _ _] & F3). cbn in M1.
  assert (NoDup (x_bssid <$> l1 ++ l2) /\ x_bssid x ∉ x_bssid <$> l1 ++ l2) as [Hn1 Hn2].
  { rewrite El, <-Hp in Hn. cbn in Hn. apply NoDup_cons in Hn. tauto. }
  split; [apply lookup_none; cbn; by rewrite M1|]. intros a Ha.
  apply (others_agree lent s _ x (l1 ++ l2)); [done|by rewrite El, Hp|done|done|exact F3|done].
Qed.

(** ** Clearing *)

Lemma clear_ok lent s : cache_ok lent s ->
  cache_ok lent (mtlk_cache_clear s) /\ bss_list (mtlk_cache_clear s) = [] /\ (forall a, cache_lookup (mtlk_cache_clear s) a = None).
Proof.
  intros [H1 H2 H3 H4 H5]. unfold mtlk_cache_clear. assert (mem_ok (ptrs (bss_list s) ++ lent) (set_list [] s)) as Hm by (by eapply mem_ok_ext).
  destruct (free_all_spec _ _ _ Hm) as (F1 & [M1 M2 M3 M4 M5] & F3). set (s1 := foldl _ _ _) in *.
  assert (bss_list (set_cursor None (set_modified true s1)) = []) as El by exact M1.
  split; [|split; [done|]].
  - split; rewrite ?El; try done; [by split; [constructor|split; constructor]|]. by apply (mem_ok_ext _ s1).
  - intros a. apply lookup_none. rewrite El. apply not_elem_of_nil.
Qed.

(** The loop of [mtlk_cache_clear_except_entry]: everything but the entry put aside is freed. *)
Lemma clear_except_loop addr l lent saved s : NoDup (x_bssid <$> l) -> mem_ok (ptrs l ++ lent) s ->
  let '(saved', s') := foldl (fun '(saved, s) x => if has_bssid addr x then (Some x, s) else (saved, _cache_free_entry x s)) (saved, s) l in
  mem_only s s' /\
  match (unlink addr l).1 with
  | Some x => saved' = Some x /\ mem_ok (owned_by x ++ lent) s' /\ (forall q, q ∈ owned_by x ++ lent -> ies s' !! q = ies s !! q)
  | None => saved' = saved /\ mem_ok lent s'
  end.
Proof.
  revert saved s. induction l as [|y l IH]; intros saved s Hn Hm; [done|]. cbn [foldl unlink]. unfold ptrs in Hm. cbn in Hm.
  rewrite <-app_assoc in Hm. fold (ptrs l) in Hm. cbn in Hn. apply NoDup_cons in Hn as [Hy Hn]. destruct (has_bssid addr y) eqn:E.
  - apply has_bssid_true in E. assert (unlink addr l = (None, l)) as Hu.
    { pose proof (unlink_spec addr l) as Hs. destruct (unlink addr l) as [[z|] l']; [|by destruct Hs as [-> _]].
      destruct Hs as (l1 & l2 & -> & _ & Hz & _). exfalso. apply Hy. rewrite E, fmap_app. apply elem_of_app. right. rewrite <-Hz. by left. }
    assert (mem_ok (ptrs l ++ owned_by y ++ lent) s) as Hm' by (eapply mem_ok_perm; [|exact Hm]; apply Permutation_app_swap_app).
    clear IH. destruct (free_all_spec _ _ _ Hm') as (F1 & F2 & F3). cbn [fst].
    assert (foldl (fun '(saved, s) x => if has_bssid addr x then (Some x, s) else (saved, _cache_free_entry x s)) (Some y, s) l =
      (Some y, foldl (fun s x => _cache_free_entry x s) s l)) as ->.
    { assert (Forall (fun z => has_bssid addr z = false) l) as Hall.
      { apply Forall_forall. intros z Hz. destruct (has_bssid addr z) eqn:Ez; [|done]. apply has_bssid_true in Ez. exfalso. apply Hy.
        rewrite E, <-Ez. by apply list_elem_of_fmap_2. }
      clear -Hall. revert s. induction Hall as [|z l Hz _ IH]; intros s; [done|]. cbn [foldl]. by rewrite Hz. }
    done.
  - destruct (free_entry_spec y _ _ Hm) as (F1 & F2 & F3). specialize (IH saved _ Hn F1).
    destruct (foldl _ _ _) as [saved' s']. destruct IH as [G1 G2]. split; [by etransitivity|].
    destruct (unlink addr l) as [[x|] l'] eqn:Hu; cbn [fst] in *; [|done]. destruct G2 as (G2 & G3 & G4). split; [done|]. split; [done|].
    intros q Hq. rewrite G4 by done. apply F3. pose proof (unlink_spec addr l) as Hs. rewrite Hu in Hs. destruct Hs as (l1 & l2 & -> & _).
    rewrite ptrs_app. unfold ptrs at 2. cbn. set_solver.
Qed.

Lemma clear_except_ok addr lent s : cache_ok lent s ->
  let s' := mtlk_cache_clear_except_entry addr s in
  cache_ok lent s' /\ cache_lookup s' addr = cache_lookup s addr /\ (forall a, a <> addr -> cache_lookup s' a = None).
Proof.
  intros Hs. pose proof Hs as [H1 H2 H3 H4 H5]. cbv zeta. unfold mtlk_cache_clear_except_entry.
  assert (mem_ok (ptrs (bss_list s) ++ lent) (set_list [] s)) as Hm by (by eapply mem_ok_ext).
  pose proof (clear_except_loop addr (bss_list s) lent None (set_list [] s)) as Hl. specialize (Hl (proj1 (proj2 H1)) Hm).
  destruct (foldl _ _ _) as [saved s1]. destruct Hl as ([M1 M2 M3 M4 M5] & Hl). cbn in M1, M2, M3, M4, M5.
  pose proof (unlink_spec addr (bss_list s)) as Hsp. unfold cache_lookup at 2. destruct (unlink addr (bss_list s)) as [[x|] l]; cbn [fst] in Hl |- *.
  - destruct Hl as (-> & L2 & L3), Hsp as (l1 & l2 & El & _ & Ex & _).
    assert (x ∈ bss_list s) as Hin by (rewrite El; apply elem_of_app; by right; left). rewrite M1.
    set (s' := set_modified true _). assert (cache_ok lent s') as Hok.
    { split; cbn -[ptrs].
      - split; [by repeat constructor|]. split; apply NoDup_singleton.
      - intros a [= <-]. by left.
      - apply (mem_ok_ext _ s1); [|done..]. unfold ptrs. cbn. by rewrite app_nil_r.
      - constructor; [|constructor]. rewrite Forall_forall in H4. specialize (H4 x Hin). cbn in *. lia.
      - constructor; [|constructor]. rewrite Forall_forall in H5. by apply H5. }
    split; [done|]. split.
    + unfold cache_lookup. cbn. rewrite (proj2 (has_bssid_true addr x) Ex). cbn. f_equal. unfold view_of. f_equal.
      destruct (country_ie (e_bss x.2)) as [q|] eqn:Eq; [|done]. cbn. apply L3, elem_of_app. left. unfold owned_by. rewrite Eq. by left.
    + intros a Ha. apply lookup_none. cbn. intros Hi%list_elem_of_singleton. congruence.
  - destruct Hl as (-> & L2), Hsp as [-> Hni]. assert (bss_list (set_modified true (set_cursor None s1)) = []) as El by exact M1.
    split; [|split; [|intros a _]]; [|apply lookup_none; rewrite El; apply not_elem_of_nil..].
    split; rewrite ?El; try done; [by split; [constructor|split; constructor]|]. by apply (mem_ok_ext _ s1).
Qed.

(** ** Persistence *)

Lemma persist_fmap t addr b l : (fun x => (x.1, e_bss x.2)) <$> persist t addr b l = (fun x => (x.1, e_bss x.2)) <$> l.
Proof. induction l as [|x l IH]; cbn [persist]; [done|]. case_match; cbn; [done|]. by rewrite IH. Qed.

Lemma ptrs_ext l l' : (fun x => (x.1, e_bss x.2)) <$> l' = (fun x => (x.1, e_bss x.2)) <$> l -> ptrs l' = ptrs l.
Proof.
  revert l'. induction l as [|x l IH]; intros [|x' l'] E; try done. cbn in E. injection E as E1 E2 E3. unfold ptrs. cbn. fold (ptrs l) (ptrs l').
  rewrite (IH _ E3). unfold owned_by. by rewrite E2.
Qed.
Lemma fmap_through {B} (f : Z * bss_data_t -> B) l l' : (fun x => (x.1, e_bss x.2)) <$> l' = (fun x => (x.1, e_bss x.2)) <$> l ->
  (fun x => f (x.1, e_bss x.2)) <$> l' = (fun x => f (x.1, e_bss x.2)) <$> l.
Proof.
  intros E. change (fun x => f (x.1, e_bss x.2)) with (f ∘ (fun x : Z * cache_entry_t => (x.1, e_bss x.2))). by rewrite !list_fmap_compose, E.
Qed.
Lemma sorted_ext l l' : (fun x => (x.1, e_bss x.2)) <$> l' = (fun x => (x.1, e_bss x.2)) <$> l ->
  StronglySorted precedes l -> StronglySorted precedes l'.
Proof.
  intros E Hs. revert l' E. induction Hs as [|x l Hl IH Hx]; intros [|x' l'] E; try done; [constructor|]. cbn in E. injection E as E1 E2 E3.
  constructor; [by apply IH|]. clear -Hx E2 E3. revert l E3 Hx. induction l' as [|y' l' IH]; intros [|y l] E Hx; try done.
  cbn in E. injection E as F1 F2 F3. apply Forall_cons in Hx as [Hy Hx]. constructor; [|by eapply IH].
  unfold precedes in *. by rewrite E2, F2.
Qed.
(** A list with other times and marks only. *)
Lemma same_bss_ok lent s l : (fun x => (x.1, e_bss x.2)) <$> l = (fun x => (x.1, e_bss x.2)) <$> bss_list s -> cache_ok lent s -> cache_ok lent (set_list l s).
Proof.
  intros E [(G1 & G2 & G3) H2 H3 H4 H5]. pose proof (fun B (f : Z * bss_data_t -> B) => fmap_through f _ _ E) as Ef.
  assert (l.*1 = (bss_list s).*1) as E1 by exact (Ef _ fst).
  split; cbn -[ptrs].
  - split; [by eapply sorted_ext|]. split; [|by rewrite E1]. change (NoDup (x_bssid <$> l)).
    replace (x_bssid <$> l) with (x_bssid <$> bss_list s); [done|]. symmetry. exact (Ef _ (fun b => bssid b.2)).
  - intros a. rewrite E1. apply H2.
  - rewrite (ptrs_ext _ _ E). by eapply mem_ok_ext.
  - apply (Forall_fmap fst (fun a => a < next_address s)). rewrite E1. by apply (Forall_fmap fst).
  - assert (e_bss ∘ snd <$> l = e_bss ∘ snd <$> bss_list s) as E2 by exact (Ef _ snd).
    apply (Forall_fmap (e_bss ∘ snd) bss_wf). rewrite E2. by apply (Forall_fmap (e_bss ∘ snd)).
Qed.

Lemma unlink_persist t addr b l a : (unlink a (persist t addr b l)).1 =
  if decide (a = addr) then (fun x => (x.1, CacheEntry t b (freq x.2) (e_bss x.2))) <$> (unlink a l).1 else (unlink a l).1.
Proof.
  induction l as [|x l IH]; cbn [persist unlink]; [by case_decide|]. destruct (has_bssid addr x) eqn:E.
  - cbn [unlink]. assert (has_bssid a (x.1, CacheEntry t b (freq x.2) (e_bss x.2)) = has_bssid a x) as -> by done.
    apply has_bssid_true in E. destruct (has_bssid a x) eqn:E2.
    + apply has_bssid_true in E2. rewrite decide_True by congruence. done.
    + rewrite decide_False; [by destruct (unlink a l)|]. intros ->. apply not_true_iff_false in E2. by rewrite has_bssid_true in E2.
  - cbn [unlink]. destruct (has_bssid a x) eqn:E2.
    + rewrite decide_False; [done|]. intros ->. congruence.
    + destruct (unlink a (persist t addr b l)), (unlink a l). cbn [fst] in *. exact IH.
Qed.

Definition mark (t : Z) (b : bool) (v : view) : view := View t b (v_freq v) (v_bss v) (v_ie v).
Lemma persistent_ok t addr b lent s : cache_ok lent s ->
  let s' := mtlk_cache_set_persistent t addr b s in
  cache_ok lent s' /\ cache_lookup s' addr = mark t b <$> cache_lookup s addr /\ (forall a, a <> addr -> cache_lookup s' a = cache_lookup s a).
Proof.
  intros Hs. cbv zeta. unfold mtlk_cache_set_persistent. split; [apply same_bss_ok; [apply persist_fmap|done]|].
  unfold cache_lookup. cbn. split.
  - rewrite unlink_persist, decide_True by done. by destruct (unlink addr (bss_list s)).1.
  - intros a Ha. rewrite unlink_persist, decide_False by done. by destruct (unlink a (bss_list s)).1.
Qed.

(** ** Copies handed out *)

Lemma give_ok env e lent s : cache_ok lent s -> readable env (e_bss e) s ->
  let '(q, s') := _cache_clone_country_ie env (e_bss e) s in cache_ok (option_list q ++ lent) s'.
Proof.
  intros [H1 H2 H3 H4 H5] Hr. pose proof (clone_spec env (e_bss e) _ s H3 Hr) as Hc. destruct (_cache_clone_country_ie env (e_bss e) s) as [q s'].
  destruct Hc as (C1 & [M1 M2 M3 M4 M5] & _). split; rewrite ?M1, ?M2; [done|done| | |done].
  - eapply mem_ok_perm; [|exact C1]. apply Permutation_app_swap_app.
  - eapply Forall_impl; [exact H4|]. cbn. lia.
Qed.
Lemma take_back_ok p lent lent' s : lent ≡ₚ p :: lent' -> cache_ok lent s -> cache_ok lent' (ie_free p s).
Proof.
  intros Hp [H1 H2 H3 H4 H5]. assert (mem_ok (p :: ptrs (bss_list s) ++ lent') s) as Hm
    by (eapply mem_ok_perm; [|exact H3]; rewrite Hp; symmetry; apply Permutation_middle).
  destruct (ie_free_spec _ _ _ Hm) as (F1 & [M1 M2 M3 M4 M5] & _). split; rewrite ?M1, ?M2; try done.
  eapply Forall_impl; [exact H4|]. cbn. lia.
Qed.
