(* ===== verification/CacheThms.v ===== *)
(** * CacheThms: the scan cache as a transition system, and its properties *)
From S2P Require Import Prelude Reflim TxmmIface Addba AddbaSys FrameData Frame FrameReads FrameStore FrameCalls.
From S2P Require Import Cache CacheInv CacheMap.
From Stdlib Require Import Permutation Sorted.

Implicit Types (s : scan_cache_t) (e : cache_entry_t) (x y : Z * cache_entry_t) (l : list (Z * cache_entry_t)).

(** ** Enumerations *)

(** The entries a whole enumeration finds and keeps; call [k] reads the clock at [clock k]. *)
Fixpoint survivors (expire : Z) (clock : nat -> Z) (k : nat) l : list (Z * cache_entry_t) :=
  match l with
  | [] => []
  | x :: l => if entry_expired (clock k) expire x.2 then survivors expire clock k l else x :: survivors expire clock (S k) l
  end.
Lemma survivors_dropped expire clock k dropped l : Forall (fun x => entry_expired (clock k) expire x.2 = true) dropped ->
  survivors expire clock k (dropped ++ l) = survivors expire clock k l.
Proof. induction 1 as [|x dropped Hx _ IH]; cbn; [done|]. by rewrite Hx. Qed.

(** One call, with the cursor between two parts of the list. *)
Lemma next_at lent t s before rest : cache_ok lent s -> bss_list s = before ++ rest -> cur_entry s = fst <$> head rest ->
  advanced t before rest lent s (mtlk_cache_get_next_bss t s).1 (mtlk_cache_get_next_bss t s).2.
Proof.
  intros Hs El Hc. pose proof Hs as [H1 H2 H3 H4 H5]. destruct rest as [|x rest].
  - unfold mtlk_cache_get_next_bss. rewrite Hc. cbn. rewrite app_nil_r in El.
    eapply (Build_advanced _ _ _ _ _ _ _ [] []); cbn; rewrite ?app_nil_r, ?orb_false_r, <-?El; done.
  - rewrite (get_next_cursor t s x.1 before x rest).
    + apply next_valid_spec. rewrite app_assoc, <-ptrs_app, <-El. done.
    + exact Hc.
    + rewrite El. apply split_at_found. destruct H1 as (_ & _ & Hn). rewrite El, fmap_app, fmap_cons in Hn.
      apply NoDup_app in Hn as (_ & Hd & _). intros Hin. apply (Hd _ Hin). by left.
Qed.

Lemma enumerate_spec lent clock fuel k before rest s : cache_ok lent s -> bss_list s = before ++ rest ->
  cur_entry s = fst <$> head rest -> (length rest < fuel)%nat ->
  let '(es, s') := enumerate fuel clock k s in
  es = (survivors (cache_expire s) clock k rest).*2 /\ bss_list s' = before ++ survivors (cache_expire s) clock k rest /\
  cache_ok lent s'.
Proof.
  revert k before rest s. induction fuel as [|fuel IH]; intros k before rest s Hs El Hc Hf; [lia|]. cbn [enumerate].
  pose proof (next_at lent (clock k) s before rest Hs El Hc) as Ha. pose proof (get_next_ok lent (clock k) s Hs) as Hok.
  destruct (mtlk_cache_get_next_bss (clock k) s) as [r s1]. cbn [fst snd] in *.
  destruct Ha as [dropped rest' B1 B2 B3 B4 B5 B6 B7 B8 (B9 & B10 & B11)]. subst rest r. rewrite survivors_dropped by done.
  destruct rest' as [|x rest']; cbn; [done|]. rewrite (B4 x eq_refl).
  specialize (IH (S k) (before ++ [x]) rest' s1 Hok). rewrite B9 in IH.
  assert (length rest' < fuel)%nat as Hlen by (rewrite length_app in Hf; cbn in Hf; lia).
  ospecialize (IH _ B6 Hlen); [by rewrite B5, <-app_assoc|]. destruct (enumerate fuel clock (S k) s1) as [es s'].
  destruct IH as (-> & -> & ?). split; [done|]. by rewrite <-app_assoc.
Qed.

(** The first of a list that satisfies a test. *)
Definition first (p : cache_entry_t -> bool) (es : list cache_entry_t) : option cache_entry_t := head (List.filter p es).

Lemma find_next_spec lent clock p fuel k before rest s : cache_ok lent s -> bss_list s = before ++ rest ->
  cur_entry s = fst <$> head rest -> (length rest < fuel)%nat ->
  let '(r, s') := find_next fuel clock k p s in
  r = first p (survivors (cache_expire s) clock k rest).*2 /\ cache_ok lent s' /\
  (forall x, x ∈ bss_list s' -> x ∈ bss_list s) /\ (forall e, r = Some e -> e ∈ (bss_list s').*2) /\
  (forall q, q ∈ ptrs (bss_list s') -> ies s' !! q = ies s !! q) /\ next_address s' = next_address s.
Proof.
  revert k before rest s. induction fuel as [|fuel IH]; intros k before rest s Hs El Hc Hf; [lia|]. cbn [find_next].
  pose proof (next_at lent (clock k) s before rest Hs El Hc) as Ha. pose proof (get_next_ok lent (clock k) s Hs) as Hok.
  destruct (mtlk_cache_get_next_bss (clock k) s) as [r s1]. cbn [fst snd] in *.
  destruct Ha as [dropped rest' B1 B2 B3 B4 B5 B6 B7 B8 (B9 & B10 & B11)]. subst rest r. rewrite survivors_dropped by done.
  assert (forall x, x ∈ bss_list s1 -> x ∈ bss_list s) as Hsub by (intros x; rewrite B5, El; set_solver).
  assert (forall q, q ∈ ptrs (bss_list s1) -> ies s1 !! q = ies s !! q) as Hies.
  { intros q Hq. apply B8. rewrite B5, ptrs_app in Hq. set_solver. }
  destruct rest' as [|x rest']; cbn; [done|]. rewrite (B4 x eq_refl). cbn. unfold first. cbn [List.filter].
  destruct (p x.2) eqn:Ep; cbn [head].
  - split; [done|]. split; [done|]. split; [done|]. split; [|done]. intros e [= <-]. rewrite B5, fmap_app. set_solver.
  - specialize (IH (S k) (before ++ [x]) rest' s1 Hok). rewrite B9 in IH.
    assert (length rest' < fuel)%nat as Hlen by (rewrite length_app in Hf; cbn in Hf; lia).
    ospecialize (IH _ B6 Hlen); [by rewrite B5, <-app_assoc|]. destruct (find_next fuel clock (S k) p s1) as [r s'].
    destruct IH as (G1 & G2 & G3 & G4 & G5 & G6). split; [exact G1|]. split; [done|]. split; [auto|]. split; [done|]. split; [|congruence].
    intros q Hq. rewrite G5 by done. apply Hies. unfold ptrs in *. apply list_elem_of_bind in Hq as (y & Hq & Hy). apply list_elem_of_bind. exists y. auto.
Qed.

Lemma rewind_start lent s : cache_ok lent s ->
  cache_ok lent (mtlk_cache_rewind s) /\ bss_list (mtlk_cache_rewind s) = [] ++ bss_list s /\
  cur_entry (mtlk_cache_rewind s) = fst <$> head (bss_list s).
Proof. intros Hs. split; [by apply rewind_ok|done]. Qed.

(** ** The cache in its surroundings *)

(** Steps: the operations of the module, and a copy of a country element
    handed out by one and freed by its owner later. *)
Inductive cache_step : list Z -> scan_cache_t -> list Z -> scan_cache_t -> Prop :=
| cache_register env bss lent s : bss_wf bss -> from_outside env bss -> cache_step lent s lent (mtlk_cache_register_bss env bss s).2
| cache_remove addr lent s : cache_step lent s lent (mtlk_cache_remove_bss_by_bssid addr s)
| cache_clear lent s : cache_step lent s lent (mtlk_cache_clear s)
| cache_clear_except addr lent s : cache_step lent s lent (mtlk_cache_clear_except_entry addr s)
| cache_rewind lent s : cache_step lent s lent (mtlk_cache_rewind s)
| cache_next t lent s : cache_step lent s lent (mtlk_cache_get_next_bss t s).2
| cache_count clock lent s : cache_step lent s lent (mtlk_cache_get_bss_count clock s).2
| cache_find clock addr lent s : cache_step lent s lent (mtlk_cache_find_bss_by_bssid clock addr s).2
| cache_find_ie env clock code lent s q s' : mtlk_cache_find_first_country_ie env clock code s = (q, s') ->
    cache_step lent s (option_list q ++ lent) s'
| cache_give_back p lent lent' s : lent ≡ₚ p :: lent' -> cache_step lent s lent' (ie_free p s)
| cache_delete_current lent s : cache_step lent s lent (mtlk_cache_delete_current s)
| cache_clear_flag lent s : cache_step lent s lent (mtlk_cache_clear_modified_flag s)
| cache_persistent t addr b lent s : cache_step lent s lent (mtlk_cache_set_persistent t addr b s)
| cache_expiration t lent s : cache_step lent s lent (mtlk_cache_set_expiration_time t s).
Inductive cache_reach : list Z -> scan_cache_t -> Prop :=
| cache_reach_init expire : cache_reach [] (mtlk_cache_init expire)
| cache_reach_step lent s lent' s' : cache_reach lent s -> cache_step lent s lent' s' -> cache_reach lent' s'.

Lemma quiet_ok lent s s' : cache_ok lent s -> bss_list s' = bss_list s -> cur_entry s' = cur_entry s -> ies s' = ies s ->
  next_address s' = next_address s -> Cache.faults s' = Cache.faults s -> cache_ok lent s'.
Proof. intros [H1 H2 H3 H4 H5] E1 E2 E3 E4 E5. split; rewrite ?E1, ?E2, ?E4; try done. by eapply mem_ok_ext. Qed.

Lemma count_ok lent clock s : cache_ok lent s -> cache_ok lent (mtlk_cache_get_bss_count clock s).2.
Proof.
  intros Hs. unfold mtlk_cache_get_bss_count. pose proof (enumerate_ok lent (S (length (bss_list s))) clock 0 _ (rewind_ok _ _ Hs)) as H.
  by destruct (enumerate _ _ _ _).
Qed.
Lemma find_ie_ok env lent clock code s q s' : cache_ok lent s -> mtlk_cache_find_first_country_ie env clock code s = (q, s') ->
  cache_ok (option_list q ++ lent) s'.
Proof.
  intros Hs. unfold mtlk_cache_find_first_country_ie. destruct (rewind_start _ _ Hs) as (R1 & R2 & R3).
  pose proof (find_next_spec lent clock (fun e => country_code (e_bss e) =? code) (S (length (bss_list s))) 0 [] _ _ R1 R2 R3 ltac:(lia)) as Hf.
  destruct (find_next _ _ _ _ _) as [[e|] s1]; destruct Hf as (_ & Hok & _ & Hin & _); [|by intros [= <- <-]].
  intros Hc. specialize (Hin e eq_refl). apply list_elem_of_fmap in Hin as (x & -> & Hx).
  pose proof (give_ok env x.2 lent s1 Hok) as Hg. rewrite Hc in Hg. apply Hg. intros p Hp. unfold ie_read.
  destruct (foreign env p); [by eexists|]. apply (mo_live _ _ (ck_mem _ _ Hok)), elem_of_app. left. by eapply owned_in_ptrs.
Qed.

Lemma cache_step_ok lent s lent' s' : cache_step lent s lent' s' -> cache_ok lent s -> cache_ok lent' s'.
Proof.
  destruct 1; intros Hs.
  - pose proof (register_ok env bss lent s Hs H H0) as Hr. cbv zeta in Hr. by destruct (mtlk_cache_register_bss env bss s), Hr.
  - by apply remove_ok.
  - by apply clear_ok.
  - by apply clear_except_ok.
  - by apply rewind_ok.
  - by apply get_next_ok.
  - by apply count_ok.
  - apply find_next_ok. by apply rewind_ok.
  - by eapply find_ie_ok.
  - by eapply take_back_ok.
  - by apply delete_current_ok.
  - by eapply quiet_ok.
  - by apply persistent_ok.
  - by eapply quiet_ok.
Qed.
Lemma cache_reach_ok lent s : cache_reach lent s -> cache_ok lent s.
Proof. induction 1; [apply cache_init_ok|by eapply cache_step_ok]. Qed.

(** ** Properties *)

(** C32. Whatever the order of operations, the cache stays sound: the list is
    sorted by channel and signal, with one entry per address; the cursor is on
    an entry of the list; the country elements allocated are those the entries
    own and those handed out, each owned once, so none is leaked or freed
    twice; no freed memory is used; and every description is well formed. *)
Theorem cache_sound lent s : cache_reach lent s ->
  StronglySorted precedes (bss_list s) /\ NoDup (x_bssid <$> bss_list s) /\
  (forall a, cur_entry s = Some a -> a ∈ (bss_list s).*1) /\
  NoDup (ptrs (bss_list s) ++ lent) /\ (forall p, p ∈ ptrs (bss_list s) ++ lent <-> is_Some (ies s !! p)) /\
  Cache.faults s = 0 /\ (forall x, x ∈ bss_list s -> bss_wf (e_bss x.2)).
Proof.
  intros Hr. destruct (cache_reach_ok _ _ Hr) as [(H1 & H2 & _) H3 [G1 G2 G3 G4] _ H5]. split; [done|]. split; [done|]. split; [done|].
  split; [done|]. split; [done|]. split; [done|]. by apply Forall_forall.
Qed.

(** What is known of an address has expired at time [t]. *)
Definition view_expired (t expire : Z) (v : view) : bool :=
  entry_expired t expire (CacheEntry (v_time v) (v_persistent v) (v_freq v) (v_bss v)).

Lemma get_next_map lent t s : cache_ok lent s ->
  let r := (mtlk_cache_get_next_bss t s).1 in let s' := (mtlk_cache_get_next_bss t s).2 in
  (forall a, cache_lookup s' a = cache_lookup s a \/
     cache_lookup s' a = None /\ exists v, cache_lookup s a = Some v /\ view_expired t (cache_expire s) v = true) /\
  (forall e, r = Some e -> exists v, cache_lookup s' (bssid (e_bss e)) = Some v /\ cache_lookup s (bssid (e_bss e)) = Some v /\
     view_expired t (cache_expire s) v = false /\ v_time v = local_timestamp e /\ v_bss v = set_country_ie None (e_bss e)).
Proof.
  intros Hs r s'. pose proof (get_next_ok lent t s Hs) as Hok. fold s' in Hok.
  assert (exists before rest, bss_list s = before ++ rest /\ cur_entry s = fst <$> head rest) as (before & rest & El & Hc).
  { destruct (cur_entry s) as [c|] eqn:E; [|by exists (bss_list s), []; rewrite app_nil_r].
    apply (ck_cursor _ _ Hs) in E. apply list_elem_of_fmap in E as (x & -> & (l1 & l2 & ->)%list_elem_of_split). by exists l1, (x :: l2). }
  pose proof (next_at lent t s before rest Hs El Hc) as [dropped rest' B1 B2 B3 B4 B5 B6 B7 B8 _]. fold r s' in B3, B5, B6, B7, B8.
  pose proof Hs as [(_ & Hn & _) _ _ _ _]. pose proof Hok as [(_ & Hn' & _) _ _ _ _]. rewrite Forall_forall in B2.
  assert (forall x, x ∈ bss_list s' -> x ∈ bss_list s /\ view_of s' x = view_of s x) as Hkept.
  { intros x Hx. split; [rewrite El, B1; rewrite B5 in Hx; set_solver|]. unfold view_of. f_equal.
    destruct (country_ie (e_bss x.2)) as [q|] eqn:Eq; [|done]. cbn. apply B8. rewrite app_assoc, <-ptrs_app, <-B5, elem_of_app. left. by eapply owned_in_ptrs. }
  split.
  - intros a. destruct (cache_lookup s' a) as [v|] eqn:E'.
    + left. apply cache_lookup_Some in E' as (x & Hx & <- & ->); [|done]. destruct (Hkept x Hx) as [H1 ->]. symmetry. apply cache_lookup_Some; [done|]. by exists x.
    + destruct (cache_lookup s a) as [v|] eqn:E; [right|by left]. split; [done|]. exists v. split; [done|].
      apply cache_lookup_Some in E as (x & Hx & <- & ->); [|done].
      assert (x ∉ bss_list s') as Hno.
      { intros Hin. assert (cache_lookup s' (x_bssid x) = Some (view_of s' x)) as Hx' by (apply cache_lookup_Some; [done|]; by exists x). congruence. }
      apply (B2 x). rewrite El, B1 in Hx. rewrite B5 in Hno. set_solver.
  - intros e He. destruct rest' as [|x rest']; [cbn in B3; congruence|]. cbn in B3. assert (e = x.2) as -> by congruence.
    assert (x ∈ bss_list s') as Hx by (rewrite B5; set_solver). destruct (Hkept x Hx) as [H1 H2].
    exists (view_of s x). split; [apply cache_lookup_Some; [done|]; by exists x|]. split; [apply cache_lookup_Some; [done|]; by exists x|].
    split; [by apply (B4 x)|done].
Qed.

(** C33. Read through its addresses the cache is a map: registering replaces
    what is known of one address (the known name stays when the new
    description has none, and with no memory for a new entry nothing changes),
    removing takes it out, deleting the current entry takes out the address of
    the entry under the cursor, clearing takes out everything or everything
    else, marking an entry changes its time and its mark; none of these touches
    another address.  Asking for the next entry takes out expired entries only,
    whatever their address, and answers with one that stays and has not
    expired. *)
Theorem cache_is_map lent s : cache_reach lent s ->
  (forall env bss, bss_wf bss -> from_outside env bss ->
     let s' := (mtlk_cache_register_bss env bss s).2 in
     cache_lookup s' (bssid bss) =
       (if bool_decide (is_Some (cache_lookup s (bssid bss))) || alloc_entry env
        then Some (registered_view env (cache_lookup s (bssid bss)) bss) else None) /\
     (forall a, a <> bssid bss -> cache_lookup s' a = cache_lookup s a)) /\
  (forall addr, cache_lookup (mtlk_cache_remove_bss_by_bssid addr s) addr = None /\
     (forall a, a <> addr -> cache_lookup (mtlk_cache_remove_bss_by_bssid addr s) a = cache_lookup s a)) /\
  (forall a, cache_lookup (mtlk_cache_clear s) a = None) /\
  (forall addr a, cache_lookup (mtlk_cache_clear_except_entry addr s) a = if decide (a = addr) then cache_lookup s a else None) /\
  (forall t addr b a, cache_lookup (mtlk_cache_set_persistent t addr b s) a =
     if decide (a = addr) then mark t b <$> cache_lookup s a else cache_lookup s a) /\
  (match cur_entry s with
   | None => mtlk_cache_delete_current s = s
   | Some c => exists x, x ∈ bss_list s /\ x.1 = c /\ cache_lookup (mtlk_cache_delete_current s) (x_bssid x) = None /\
       forall a, a <> x_bssid x -> cache_lookup (mtlk_cache_delete_current s) a = cache_lookup s a
   end) /\
  (forall t, let r := (mtlk_cache_get_next_bss t s).1 in let s' := (mtlk_cache_get_next_bss t s).2 in
     (forall a, cache_lookup s' a = cache_lookup s a \/
        cache_lookup s' a = None /\ exists v, cache_lookup s a = Some v /\ view_expired t (cache_expire s) v = true) /\
     (forall e, r = Some e -> exists v, cache_lookup s' (bssid (e_bss e)) = Some v /\ cache_lookup s (bssid (e_bss e)) = Some v /\
        view_expired t (cache_expire s) v = false /\ v_time v = local_timestamp e /\ v_bss v = set_country_ie None (e_bss e))).
Proof.
  intros Hr. pose proof (cache_reach_ok _ _ Hr) as Hs. split; [|split; [|split; [|split; [|split; [|split]]]]].
  - intros env bss Hw Ho. pose proof (register_ok env bss lent s Hs Hw Ho) as H. cbv zeta in *.
    destruct (mtlk_cache_register_bss env bss s) as [bss' s']. destruct H as (_ & _ & H1 & H2 & H3 & _). split; [|exact H3]. cbn [snd].
    case_bool_decide as Hd; cbn [orb]; [by apply H1; left|]. destruct (alloc_entry env) eqn:Ea; [by apply H1; right|].
    apply H2; [|done]. by apply eq_None_not_Some.
  - intros addr. exact (proj2 (remove_ok addr _ _ Hs)).
  - exact (proj2 (proj2 (clear_ok _ _ Hs))).
  - intros addr a. destruct (clear_except_ok addr _ _ Hs) as (_ & H1 & H2). case_decide as Hd; [by subst|]. by apply H2.
  - intros t addr b a. destruct (persistent_ok t addr b _ _ Hs) as (_ & H1 & H2). case_decide as Hd; [by subst|]. by apply H2.
  - destruct (cur_entry s) as [c|] eqn:E; [|unfold mtlk_cache_delete_current; by rewrite E].
    pose proof (ck_cursor _ _ Hs _ E) as Hc. apply list_elem_of_fmap in Hc as (x & -> & Hx). exists x. split; [done|split; [done|]].
    by apply (delete_current_map lent).
  - intros t. by apply (get_next_map lent).
Qed.

(** C34. An enumeration from the start answers with every entry that has not
    expired when it is reached, once, by channel and signal, and leaves exactly
    these; the count and the space for elements are theirs, and a search finds
    the first of them it looks for. *)
Theorem cache_enumerates lent clock s : cache_reach lent s ->
  let live := survivors (cache_expire s) clock 0 (bss_list s) in
  let '(es, s') := enumerate (S (length (bss_list s))) clock 0 (mtlk_cache_rewind s) in
  es = live.*2 /\ bss_list s' = live /\
  (mtlk_cache_get_bss_count clock s).1 = (Z.of_nat (length live), foldl (fun n e => u32 (n + ie_used_length (e_bss e))) 0 live.*2) /\
  (forall addr, (mtlk_cache_find_bss_by_bssid clock addr s).1 = first (fun e => bool_decide (bssid (e_bss e) = addr)) live.*2).
Proof.
  intros Hr live. pose proof (cache_reach_ok _ _ Hr) as Hs. destruct (rewind_start _ _ Hs) as (R1 & R2 & R3).
  pose proof (enumerate_spec lent clock (S (length (bss_list s))) 0 [] _ _ R1 R2 R3 ltac:(lia)) as He.
  unfold mtlk_cache_get_bss_count. destruct (enumerate _ _ _ _) as [es s']. destruct He as (-> & He & _).
  split; [done|]. split; [done|]. split; [by rewrite length_fmap|]. intros addr.
  pose proof (find_next_spec lent clock (fun e => bool_decide (bssid (e_bss e) = addr)) (S (length (bss_list s))) 0 [] _ _ R1 R2 R3 ltac:(lia)) as Hf.
  unfold mtlk_cache_find_bss_by_bssid. destruct (find_next _ _ _ _ _) as [r s2]. by destruct Hf as [-> _].
Qed.

Lemma survivors_now expire clock k l : (forall i, clock i = clock k) ->
  survivors expire clock k l = filter (fun x => entry_expired (clock k) expire x.2 = false) l.
Proof.
  intros Hc. assert (forall j, survivors expire clock j l = filter (fun x => entry_expired (clock k) expire x.2 = false) l) as H; [|apply H].
  induction l as [|x l IH]; intros j; [done|]. cbn [survivors]. rewrite filter_cons, Hc. destruct (entry_expired _ _ _); by rewrite IH.
Qed.
Lemma first_none p (es : list cache_entry_t) : (forall e, e ∈ es -> p e = false) -> first p es = None.
Proof.
  unfold first. induction es as [|e es IH]; intros H; [done|]. cbn [List.filter]. rewrite (H e) by left. apply IH. intros e' He. apply H. by right.
Qed.

(** A beacon of a network takes its entry's persistence away: registering
    a description clears the mark, which only a new connection sets again, and
    once the time to live is over a search for the network finds nothing,
    although nothing withdrew the mark. *)
Theorem cache_persistence_lost lent env bss s v t : cache_reach lent s -> bss_wf bss -> from_outside env bss ->
  cache_lookup s (bssid bss) = Some v -> v_persistent v = true ->
  let s' := (mtlk_cache_register_bss env bss s).2 in
  (v_persistent <$> cache_lookup s' (bssid bss)) = Some false /\
  (cache_expire s <> 0 -> u32 (cache_expire s * 1000) < u32 (t - now env) ->
   (mtlk_cache_find_bss_by_bssid (fun _ => t) (bssid bss) s').1 = None).
Proof.
  intros Hr Hw Ho Hv _. pose proof (cache_reach_ok _ _ Hr) as Hs. pose proof (register_ok env bss lent s Hs Hw Ho) as H. cbv zeta in *.
  assert (cache_expire (mtlk_cache_register_bss env bss s).2 = cache_expire s) as Ee.
  { unfold mtlk_cache_register_bss, _cache_clone_country_ie, _cache_free_entry, ie_free, fresh. repeat (case_match; simplify_eq/=); done. }
  destruct (mtlk_cache_register_bss env bss s) as [bss' s']. destruct H as (Hs' & _ & H1 & _). cbn [snd] in *. rewrite Hv in H1.
  assert (cache_lookup s' (bssid bss) = Some (registered_view env (Some v) bss)) as Hl by (apply H1; by left). rewrite Hl. split; [done|].
  intros Hne Ht. destruct (rewind_start _ _ Hs') as (R1 & R2 & R3).
  pose proof (find_next_spec lent (fun _ => t) (fun e => bool_decide (bssid (e_bss e) = bssid bss)) (S (length (bss_list s'))) 0 [] _ _ R1 R2 R3 ltac:(lia)) as Hf.
  unfold mtlk_cache_find_bss_by_bssid. destruct (find_next _ _ _ _ _) as [r s2]. destruct Hf as [-> _]. cbn [fst].
  rewrite survivors_now by done. apply first_none. intros e He. apply bool_decide_eq_false. intros Eb.
  apply list_elem_of_fmap in He as (x & -> & Hx). apply list_elem_of_filter in Hx as [Hlive Hx].
  pose proof (proj1 (proj2 (ck_list _ _ Hs'))) as Hn. assert (view_of s' x = registered_view env (Some v) bss) as Hvx.
  { assert (cache_lookup s' (bssid bss) = Some (view_of s' x)) as E by (apply cache_lookup_Some; [done|by exists x]). congruence. }
  unfold view_of, registered_view in Hvx. injection Hvx as V1 V2 _ _ _. unfold entry_expired in Hlive. rewrite V1, V2 in Hlive.
  change (cache_expire (mtlk_cache_rewind s')) with (cache_expire s') in Hlive. rewrite Ee in Hlive. rewrite (proj2 (Z.eqb_neq _ _) Hne), (proj2 (Z.ltb_lt _ _) Ht) in Hlive. done.
Qed.

Lemma owner_unique l x y q : NoDup (ptrs l) -> x ∈ l -> y ∈ l -> country_ie (e_bss x.2) = Some q -> country_ie (e_bss y.2) = Some q -> x = y.
Proof.
  intros Hn Hx Hy Ex Ey. apply list_elem_of_split in Hx as (l1 & l2 & ->). rewrite <-(Permutation_middle l1 l2 x) in Hn, Hy.
  apply elem_of_cons in Hy as [->|Hy]; [done|]. exfalso. unfold ptrs in Hn. cbn in Hn. unfold owned_by in Hn at 1. rewrite Ex in Hn. cbn in Hn.
  apply NoDup_cons in Hn as [Hn _]. apply Hn. by apply (owned_in_ptrs y).
Qed.

(** The description a search answers with points into the cache: its
    country element is alive when the search returns, and freed by the next
    description registered for the same address, so that reading through the
    answer is then a use of freed memory. *)
Theorem cache_country_dangles lent clock addr s e s1 p env bss : cache_reach lent s ->
  mtlk_cache_find_bss_by_bssid clock addr s = (Some e, s1) -> country_ie (e_bss e) = Some p ->
  bss_wf bss -> from_outside env bss -> bssid bss = addr ->
  is_Some (ies s1 !! p) /\ ies (mtlk_cache_register_bss env bss s1).2 !! p = None.
Proof.
  intros Hr Hf Hp Hw Ho Hb. pose proof (cache_reach_ok _ _ Hr) as Hs. destruct (rewind_start _ _ Hs) as (R1 & R2 & R3).
  pose proof (find_next_spec lent clock (fun e => bool_decide (bssid (e_bss e) = addr)) (S (length (bss_list s))) 0 [] _ _ R1 R2 R3 ltac:(lia)) as Hn.
  unfold mtlk_cache_find_bss_by_bssid in Hf. rewrite Hf in Hn. destruct Hn as (He & Hs1 & _ & Hin & _).
  assert (bssid (e_bss e) = addr) as Ea.
  { unfold first in He. symmetry in He. destruct (List.filter _ _) as [|e' l] eqn:El; [done|]. injection He as ->.
    assert (In e (e :: l)) as Hi by (by left). rewrite <-El in Hi. apply filter_In in Hi as [_ Hi]. by apply bool_decide_eq_true in Hi. }
  specialize (Hin e eq_refl). apply list_elem_of_fmap in Hin as (x & -> & Hx).
  assert (p ∈ ptrs (bss_list s1)) as Hown by (by eapply owned_in_ptrs).
  split; [apply (mo_live _ _ (ck_mem _ _ Hs1)), elem_of_app; by left|].
  pose proof (register_ok env bss lent s1 Hs1 Hw Ho) as H. cbv zeta in H. destruct (mtlk_cache_register_bss env bss s1) as [bss' s2].
  destruct H as (Hs2 & _ & _ & _ & _ & Hnew). cbn [snd]. apply eq_None_not_Some. intros Hlive.
  apply (mo_live _ _ (ck_mem _ _ Hs2)) in Hlive. pose proof (mo_fresh _ _ (ck_mem _ _ Hs1)) as Hfr. rewrite Forall_forall in Hfr.
  specialize (Hfr p ltac:(apply elem_of_app; by left)). cbn in Hfr.
  pose proof (mo_nodup _ _ (ck_mem _ _ Hs1)) as Hnd. apply elem_of_app in Hlive as [Hlive|Hlive].
  - apply list_elem_of_bind in Hlive as (y & Hy & Hyin). unfold owned_by in Hy.
    destruct (country_ie (e_bss y.2)) as [q|] eqn:Eq; [|by apply elem_of_nil in Hy]. cbn in Hy. apply list_elem_of_singleton in Hy as ->.
    destruct (Hnew y q Hyin Eq) as [[Hyo Hyb]|Hge]; [|lia]. apply Hyb. rewrite Hb, <-Ea. unfold x_bssid.
    apply NoDup_app in Hnd as (Hnd & _ & _). destruct (owner_unique (bss_list s1) x y q Hnd Hx Hyo Hp Eq). done.
  - apply NoDup_app in Hnd as (_ & Hd & _). by apply (Hd p).
Qed.

(** ** Fed by the parser *)

(** What the parser's call does to the cache; the element a description
    points to is in the frame. *)
Definition frame_memory (mem : Z -> Z) (p : Z) : option (list Z) := Some (bytes_at mem (Z.to_nat (mem (p + 1) + 2)) p).
Definition cache_of_frame (t : Z) (entry_ok ie_ok : bool) (mem : Z -> Z) s (ev : frame_ev) : scan_cache_t :=
  match ev with
  | FRegisterBss b => (mtlk_cache_register_bss (CacheEnv t entry_ok ie_ok (frame_memory mem)) b s).2
  | _ => s
  end.
Definition rx_frame_cache (t : Z) (entry_ok ie_ok : bool) (mem : Z -> Z) (fenv : frame_env) (known replayed : bool) (len : Z) (info : rx_info) s : scan_cache_t :=
  foldl (cache_of_frame t entry_ok ie_ok mem) s (calls (exec (mtlk_process_man_frame mem fenv known replayed len info) (Fs [] [] bss_zero))).

(** C35. Management frames with any bytes keep the cache in a reachable state,
    and the name the parser's users see after the call is the one the cache
    put into the description. *)
Theorem frames_keep_cache t entry_ok ie_ok mem fenv known replayed len info lent s : (forall i, 0 <= mem i < 256) -> cache_reach lent s ->
  cache_reach lent (rx_frame_cache t entry_ok ie_ok mem fenv known replayed len info s) /\
  (forall env b, bss_wf b -> from_outside env b -> fe_known_essid fenv (bssid b) = (fun v => essid (v_bss v)) <$> cache_lookup s (bssid b) ->
     registered_bss fenv b = (mtlk_cache_register_bss env b s).1).
Proof.
  intros Hm Hr. split.
  - unfold rx_frame_cache. destruct (man_frame_emits mem fenv Hm known replayed len info (Fs [] [] bss_zero)) as (l & -> & Hok). cbn [calls app].
    revert s Hr. induction Hok as [|e l He _ IH]; intros s Hr; [done|]. cbn [foldl]. apply IH. destruct e; try done.
    eapply cache_reach_step; [exact Hr|]. apply cache_register; [exact He|]. intros p _. by eexists.
  - intros env b Hw Ho Hk. pose proof (register_ok env b lent s (cache_reach_ok _ _ Hr) Hw Ho) as H. cbv zeta in H.
    destruct (mtlk_cache_register_bss env b s) as [b' s']. destruct H as (_ & -> & _). cbn [fst]. unfold registered_bss, keep_essid.
    rewrite Hk. by destruct (cache_lookup s (bssid b)).
Qed.
