(* ===== verification/CacheExamples.v ===== *)
(** * CacheExamples: a small cache, and the witnesses of its properties *)
From S2P Require Import Prelude Reflim TxmmIface Addba AddbaSys FrameData Frame FrameReads FrameStore FrameCalls FrameThms.
From S2P Require Import Cache CacheInv CacheMap CacheThms.
From Stdlib Require Import Permutation Sorted.

(** Two networks: [home] on channel 6 with a country element, [near] on
    channel 1. *)
Definition addr_home : list Z := [2; 0; 0; 0; 0; 1].
Definition addr_near : list Z := [2; 0; 0; 0; 0; 2].
Definition home : bss_data_t := set_country 7 (Some 40) (set_channel 6 (bss_start (bss_of_sender addr_home))).
Definition near : bss_data_t := set_channel 1 (bss_start (bss_of_sender addr_near)).
Definition ex_memory (p : Z) : option (list Z) := if p =? 40 then Some [7; 3; 85; 83; 32] else None.
Definition at_time (t : Z) : cache_env := CacheEnv t true true ex_memory.

Lemma start_wf addr : bss_wf (bss_start (bss_of_sender addr)).
Proof. by apply bss_start_wf. Qed.
Lemma wf_set_channel c b : bss_wf b -> bss_wf (set_channel c b).
Proof. intros []. by split. Qed.
Lemma wf_set_country_code c p b : bss_wf b -> bss_wf (set_country c p b).
Proof. intros []. by split. Qed.
Lemma home_wf : bss_wf home.
Proof. apply wf_set_country_code, wf_set_channel, start_wf. Qed.
Lemma near_wf : bss_wf near.
Proof. apply wf_set_channel, start_wf. Qed.
Lemma home_outside t : from_outside (at_time t) home.
Proof. intros p [= <-]. by eexists. Qed.
Lemma near_outside t : from_outside (at_time t) near.
Proof. by intros p [=]. Qed.

(** Entries live ten seconds. Both are registered at the start, and [home] is
    connected to one second later. *)
Definition cache_two : scan_cache_t :=
  (mtlk_cache_register_bss (at_time 0) near (mtlk_cache_register_bss (at_time 0) home (mtlk_cache_init 10)).2).2.
Definition cache_connected : scan_cache_t := mtlk_cache_set_persistent 1000 addr_home true cache_two.

Lemma cache_connected_reach : cache_reach [] cache_connected.
Proof.
  eapply cache_reach_step; [|apply cache_persistent]. eapply cache_reach_step; [|apply cache_register; [apply near_wf|apply near_outside]].
  eapply cache_reach_step; [apply cache_reach_init|]. apply cache_register; [apply home_wf|apply home_outside].
Qed.
(** The element of [home], handed out. *)
Definition cache_lending : scan_cache_t := (mtlk_cache_find_first_country_ie (at_time 2000) (fun _ => 2000) 7 cache_connected).2.
Lemma cache_lending_reach : cache_reach [4] cache_lending.
Proof.
  eapply (cache_reach_step _ _ [4]); [apply cache_connected_reach|].
  apply (cache_find_ie (at_time 2000) (fun _ => 2000) 7 [] cache_connected (Some 4)). vm_compute. reflexivity.
Qed.

Lemma cache_sound_witness :
  (fun x => channel (e_bss x.2)) <$> bss_list cache_lending = [1; 6] /\ Cache.faults cache_lending = 0 /\
  is_Some (ies cache_lending !! 4) /\ NoDup (ptrs (bss_list cache_lending) ++ [4]).
Proof.
  destruct (cache_sound [4] cache_lending cache_lending_reach) as (_ & _ & _ & H4 & H5 & H6 & _).
  split; [vm_compute; reflexivity|]. split; [exact H6|]. split; [|exact H4]. apply H5, elem_of_app. right. by left.
Defined.

(** A beacon of [home] without a name keeps its entry; its signal is new. *)
Lemma cache_is_map_witness :
  cache_lookup (mtlk_cache_remove_bss_by_bssid addr_near cache_connected) addr_near = None /\
  cache_lookup (mtlk_cache_register_bss (at_time 3000) home cache_connected).2 addr_home =
    Some (registered_view (at_time 3000) (cache_lookup cache_connected addr_home) home) /\
  v_ie <$> cache_lookup cache_connected addr_home = Some (Some [7; 3; 85; 83; 32]).
Proof.
  destruct (cache_is_map [] cache_connected cache_connected_reach) as (H1 & H2 & _).
  split; [apply H2|]. split; [|vm_compute; reflexivity].
  pose proof (proj1 (H1 (at_time 3000) home home_wf (home_outside 3000))) as H. cbv zeta in H. cbn [alloc_entry at_time] in H.
  rewrite orb_true_r in H. exact H.
Defined.

(** At twelve seconds only the persistent entry is found. *)
Lemma cache_enumerates_witness :
  (mtlk_cache_get_bss_count (fun _ => 12000) cache_connected).1 = (1, 0) /\
  (mtlk_cache_find_bss_by_bssid (fun _ => 12000) addr_near cache_connected).1 = None.
Proof.
  pose proof (cache_enumerates [] (fun _ => 12000) cache_connected cache_connected_reach) as H. cbv zeta in H.
  destruct (enumerate _ _ _ _) as [es s']. destruct H as (_ & _ & H1 & H2). rewrite H1, H2.
  split; vm_compute; reflexivity.
Defined.

Lemma cache_persistence_lost_witness :
  let s' := (mtlk_cache_register_bss (at_time 2000) home cache_connected).2 in
  (mtlk_cache_find_bss_by_bssid (fun _ => 13000) addr_home s').1 = None.
Proof.
  assert (exists v, cache_lookup cache_connected addr_home = Some v /\ v_persistent v = true) as (v & Hv & Hp)
    by (eexists; split; [vm_compute; reflexivity|reflexivity]).
  apply (proj2 (cache_persistence_lost [] (at_time 2000) home cache_connected v 13000 cache_connected_reach home_wf (home_outside 2000) Hv Hp)).
  - vm_compute. discriminate.
  - vm_compute. reflexivity.
Defined.

Lemma cache_country_dangles_witness :
  exists e s1 p, mtlk_cache_find_bss_by_bssid (fun _ => 2000) addr_home cache_connected = (Some e, s1) /\
    country_ie (e_bss e) = Some p /\ ies (mtlk_cache_register_bss (at_time 3000) home s1).2 !! p = None.
Proof.
  destruct (mtlk_cache_find_bss_by_bssid (fun _ => 2000) addr_home cache_connected) as [r s1] eqn:E.
  assert (exists e p, r = Some e /\ country_ie (e_bss e) = Some p) as (e & p & -> & Hp).
  { assert (r = (mtlk_cache_find_bss_by_bssid (fun _ => 2000) addr_home cache_connected).1) as -> by (by rewrite E).
    eexists _, _. split; [vm_compute; reflexivity|reflexivity]. }
  exists e, s1, p. split; [reflexivity|]. split; [exact Hp|].
  apply (cache_country_dangles [] (fun _ => 2000) addr_home cache_connected e s1 p (at_time 3000) home cache_connected_reach E Hp home_wf (home_outside 3000) eq_refl).
Defined.

(** The beacon of FrameThms, heard by an access point that scans. *)
Definition cache_after_beacon : scan_cache_t :=
  rx_frame_cache 5000 true true (frame_mem beacon) scan_env false false 50 (RxInfo 36 [1; 2; 3] 3 4) cache_connected.
Lemma frames_keep_cache_witness :
  cache_reach [] cache_after_beacon /\ (fun x => channel (e_bss x.2)) <$> bss_list cache_after_beacon = [1; 6; 36].
Proof.
  split; [|vm_compute; reflexivity].
  apply (frames_keep_cache 5000 true true (frame_mem beacon) scan_env false false 50 (RxInfo 36 [1; 2; 3] 3 4) [] cache_connected).
  - apply frame_mem_byte. repeat constructor; lia.
  - apply cache_connected_reach.
Defined.
