(* ===== verification/Flctrl.v ===== *)
(** * Flctrl: who stops the data (wireless/driver/shared/mtlkflctrl.c)

    Up to 32 users share one switch.  Each gets a bit; the data runs while no
    user's bit is set.  Every function holds the object's lock throughout. *)
From S2P Require Import Prelude.

Definition MAX_NOF_AVAILABLE_BITS : nat := 32.

(** [fl_calls]: the calls of [api.start_data] ([true]) and [api.stop_data]
    ([false]), the latest first. *)
Record mtlk_flctrl_t := Flctrl { stop_requests_mask : Z; available_bits : Z; fl_calls : list bool }.

Definition fl_call (b : bool) (f : mtlk_flctrl_t) : mtlk_flctrl_t :=
  Flctrl (stop_requests_mask f) (available_bits f) (b :: fl_calls f).
Definition fl_set_mask (m : Z) (f : mtlk_flctrl_t) : mtlk_flctrl_t := Flctrl m (available_bits f) (fl_calls f).
Definition fl_set_avail (m : Z) (f : mtlk_flctrl_t) : mtlk_flctrl_t := Flctrl (stop_requests_mask f) m (fl_calls f).

(** [lock]: what [mtlk_osal_lock_init] answers. *)
Definition mtlk_flctrl_init (lock : Z) (f : mtlk_flctrl_t) : Z * mtlk_flctrl_t :=
  if lock =? MTLK_ERR_OK then (MTLK_ERR_OK, Flctrl 0 0xFFFFFFFF []) else (lock, f).

(** The loop over the bits: [n] turns are left, [mask] is the bit tried next. *)
Fixpoint fl_take (n : nat) (mask : Z) (f : mtlk_flctrl_t) : Z * Z * mtlk_flctrl_t :=
  match n with
  | O => (MTLK_ERR_UNKNOWN, 0, f)
  | S n =>
      if negb (Z.land (available_bits f) mask =? 0)
      then (MTLK_ERR_OK, mask, fl_set_avail (Z.ldiff (available_bits f) mask) f)
      else fl_take n (u32 (Z.shiftl mask 1)) f
  end.
(** The result, the identifier stored in [*id] and the object. *)
Definition mtlk_flctrl_register (f : mtlk_flctrl_t) : Z * Z * mtlk_flctrl_t := fl_take MAX_NOF_AVAILABLE_BITS 1 f.

Definition mtlk_flctrl_stop_data (id : Z) (f : mtlk_flctrl_t) : mtlk_flctrl_t :=
  let f := if stop_requests_mask f =? 0 then fl_call false f else f in
  fl_set_mask (Z.lor (stop_requests_mask f) (u32 id)) f.

Definition mtlk_flctrl_start_data (id : Z) (f : mtlk_flctrl_t) : mtlk_flctrl_t :=
  let f := fl_set_mask (Z.ldiff (stop_requests_mask f) (u32 id)) f in
  if stop_requests_mask f =? 0 then fl_call true f else f.

Definition mtlk_flctrl_unregister (id : Z) (f : mtlk_flctrl_t) : mtlk_flctrl_t :=
  fl_set_avail (Z.lor (available_bits f) (u32 id)) f.

Definition mtlk_flctrl_is_data_flowing (f : mtlk_flctrl_t) : bool := stop_requests_mask f =? 0.

(** ** The sets the two masks stand for *)

Definition bits (m : Z) : gset nat := list_to_set (filter (fun i => Z.testbit m (Z.of_nat i) = true) (seq 0 32)).

Lemma elem_of_bits m i : i ∈ bits m <-> (i < 32)%nat /\ Z.testbit m (Z.of_nat i) = true.
Proof. unfold bits. rewrite elem_of_list_to_set, list_elem_of_filter, elem_of_seq. naive_solver lia. Qed.

Definition bit (i : nat) : Z := 2 ^ Z.of_nat i.

Lemma bit_range i : (i < 32)%nat -> 0 < bit i < 2 ^ 32.
Proof. intros Hi. unfold bit. split; [apply Z.pow_pos_nonneg; lia|]. apply Z.pow_lt_mono_r; lia. Qed.

Lemma bit_u32 i : (i < 32)%nat -> u32 (bit i) = bit i.
Proof. intros Hi%bit_range. apply u32_small. lia. Qed.

Lemma bit_test i j : Z.testbit (bit i) (Z.of_nat j) = bool_decide (i = j).
Proof.
  unfold bit. case_bool_decide as H; [subst; apply Z.pow2_bits_true; lia|]. apply Z.pow2_bits_false. lia.
Qed.

Lemma bit_inj i j : bit i = bit j -> i = j.
Proof. unfold bit. intros H%Z.pow_inj_r; lia. Qed.

Lemma bits_bit i : (i < 32)%nat -> bits (bit i) = {[i]}.
Proof. intros Hi. apply set_eq. intros j. rewrite elem_of_bits, elem_of_singleton, bit_test, bool_decide_eq_true. naive_solver. Qed.

Lemma bits_lor m n : bits (Z.lor m n) = bits m ∪ bits n.
Proof. apply set_eq. intros i. rewrite elem_of_union, !elem_of_bits, Z.lor_spec, orb_true_iff. naive_solver. Qed.

Lemma bits_ldiff m n : bits (Z.ldiff m n) = bits m ∖ bits n.
Proof.
  apply set_eq. intros i. rewrite elem_of_difference, !elem_of_bits, Z.ldiff_spec, andb_true_iff, negb_true_iff.
  destruct (Z.testbit n _); naive_solver.
Qed.

(** Words: the masks keep to 32 bits. *)
Definition word (m : Z) : Prop := 0 <= m < 2 ^ 32.

Lemma word_high m i : word m -> 32 <= i -> Z.testbit m i = false.
Proof.
  intros Hm Hi. destruct (decide (m = 0)) as [->|H0]; [apply Z.testbit_0_l|]. apply Z.bits_above_log2; [unfold word in Hm; lia|].
  enough (Z.log2 m < 32) by lia. apply Z.log2_lt_pow2; unfold word in Hm; lia.
Qed.

Lemma word_intro m : 0 <= m -> (forall i, 32 <= i -> Z.testbit m i = false) -> word m.
Proof.
  intros Hm Hi. split; [done|]. destruct (decide (m = 0)) as [->|H0]; [lia|]. apply Z.log2_lt_pow2; [lia|].
  apply Z.nle_gt. intros Hl. specialize (Hi _ Hl). rewrite Z.bit_log2 in Hi; [done|lia].
Qed.

Lemma word_lor m n : word m -> word n -> word (Z.lor m n).
Proof.
  intros Hm Hn. apply word_intro; [apply Z.lor_nonneg; unfold word in *; lia|].
  intros i Hi. by rewrite Z.lor_spec, !word_high.
Qed.

Lemma word_ldiff m n : word m -> word (Z.ldiff m n).
Proof.
  intros Hm. apply word_intro; [apply Z.ldiff_nonneg; unfold word in *; lia|].
  intros i Hi. by rewrite Z.ldiff_spec, word_high.
Qed.

Lemma word_bit i : (i < 32)%nat -> word (bit i).
Proof. intros Hi%bit_range. unfold word. lia. Qed.

Lemma bits_empty m : word m -> bits m = ∅ <-> m = 0.
Proof.
  intros Hm. split; [|intros ->; apply set_eq; intros i; rewrite elem_of_bits, Z.testbit_0_l; set_solver].
  intros He. apply Z.bits_inj_0. intros i. destruct (decide (32 <= i)) as [Hi|Hi]; [by apply word_high|].
  destruct (decide (i < 0)); [by apply Z.testbit_neg_r|]. apply not_true_is_false. intros Ht.
  assert (Z.to_nat i ∈ bits m) as Hin; [|rewrite He in Hin; set_solver].
  apply elem_of_bits. rewrite Z2Nat.id by lia. split; [lia|done].
Qed.

#[export] Hint Resolve word_lor word_ldiff word_bit : wave.

(** ** What the object promises: a set of users and a set of stoppers *)

Record fl_spec := FlSpec { users : gset nat; stoppers : gset nat }.

Inductive fl_op := FlRegister | FlStop (i : nat) | FlStart (i : nat) | FlUnregister (i : nat).

Definition fl_op_wf (o : fl_op) : Prop :=
  match o with FlRegister => True | FlStop i | FlStart i | FlUnregister i => (i < 32)%nat end.

(** The answer of a registration, [None] for the other operations. *)
Definition fl_spec_step (o : fl_op) (a : fl_spec) : option (option nat) * fl_spec :=
  match o with
  | FlRegister =>
      let free := head (filter (fun i => i ∉ users a) (seq 0 32)) in
      (Some free, FlSpec (match free with Some i => {[i]} | None => ∅ end ∪ users a) (stoppers a))
  | FlStop i => (None, FlSpec (users a) ({[i]} ∪ stoppers a))
  | FlStart i => (None, FlSpec (users a) (stoppers a ∖ {[i]}))
  | FlUnregister i => (None, FlSpec (users a ∖ {[i]}) (stoppers a))
  end.

Definition fl_step (o : fl_op) (f : mtlk_flctrl_t) : option (Z * Z) * mtlk_flctrl_t :=
  match o with
  | FlRegister => let '(res, id, f) := mtlk_flctrl_register f in (Some (res, id), f)
  | FlStop i => (None, mtlk_flctrl_stop_data (bit i) f)
  | FlStart i => (None, mtlk_flctrl_start_data (bit i) f)
  | FlUnregister i => (None, mtlk_flctrl_unregister (bit i) f)
  end.

Fixpoint fl_run (ops : list fl_op) (f : mtlk_flctrl_t) : list (option (Z * Z)) * mtlk_flctrl_t :=
  match ops with
  | [] => ([], f)
  | o :: ops => let '(r, f) := fl_step o f in let '(rs, f) := fl_run ops f in (r :: rs, f)
  end.
Fixpoint fl_spec_run (ops : list fl_op) (a : fl_spec) : list (option (option nat)) * fl_spec :=
  match ops with
  | [] => ([], a)
  | o :: ops => let '(r, a) := fl_spec_step o a in let '(rs, a) := fl_spec_run ops a in (r :: rs, a)
  end.

(** How an answer of the specification is told to the caller. *)
Definition fl_answer (r : option nat) : Z * Z :=
  match r with Some i => (MTLK_ERR_OK, bit i) | None => (MTLK_ERR_UNKNOWN, 0) end.

(** What the last call made of the data; before the first call it runs. *)
Definition data_on (f : mtlk_flctrl_t) : bool := default true (head (fl_calls f)).

Record fl_rel (f : mtlk_flctrl_t) (a : fl_spec) : Prop := {
  fl_mask_word : word (stop_requests_mask f);
  fl_avail_word : word (available_bits f);
  fl_users : users a = list_to_set (seq 0 32) ∖ bits (available_bits f);
  fl_stoppers : stoppers a = bits (stop_requests_mask f);
  fl_data : data_on f = bool_decide (stoppers a = ∅)
}.

Lemma land_bit m i : Z.land m (bit i) = 0 <-> Z.testbit m (Z.of_nat i) = false.
Proof.
  split; intros H.
  - apply (f_equal (fun x => Z.testbit x (Z.of_nat i))) in H. rewrite Z.land_spec, bit_test, bool_decide_true, andb_true_r in H by done.
    by rewrite H, Z.testbit_0_l.
  - apply Z.bits_inj_0. intros j. rewrite Z.land_spec. destruct (decide (j < 0)); [by rewrite Z.testbit_neg_r|].
    replace j with (Z.of_nat (Z.to_nat j)) by lia. rewrite bit_test. case_bool_decide as E; [by rewrite <-E, H|apply andb_false_r].
Qed.

Lemma bit_shift i : (S i < 32)%nat -> u32 (Z.shiftl (bit i) 1) = bit (S i).
Proof.
  intros Hi. rewrite Z.shiftl_mul_pow2 by lia. replace (bit i * 2 ^ 1) with (bit (S i)); [by apply bit_u32|].
  unfold bit. replace (Z.of_nat (S i)) with (Z.of_nat i + 1) by lia. by rewrite Z.pow_add_r by lia.
Qed.

Lemma fl_take_spec n i f : (i + n = 32)%nat ->
  fl_take n (bit i) f =
    match head (filter (fun j => Z.testbit (available_bits f) (Z.of_nat j) = true) (seq i n)) with
    | Some j => (MTLK_ERR_OK, bit j, fl_set_avail (Z.ldiff (available_bits f) (bit j)) f)
    | None => (MTLK_ERR_UNKNOWN, 0, f)
    end.
Proof.
  revert i. induction n as [|n IH]; intros i Hi; [done|]. cbn [fl_take seq]. rewrite filter_cons.
  destruct (Z.testbit (available_bits f) (Z.of_nat i)) eqn:Et.
  - rewrite decide_True by done. cbn [head]. destruct (Z.eqb_spec (Z.land (available_bits f) (bit i)) 0) as [H|H]; [|done].
    apply land_bit in H. congruence.
  - rewrite decide_False by done. rewrite (proj2 (land_bit _ _) Et). cbn [negb Z.eqb].
    destruct n as [|n]; [done|]. rewrite bit_shift by lia. apply IH. lia.
Qed.

Lemma filter_same {A} (P Q : A -> Prop) `{!forall x, Decision (P x), !forall x, Decision (Q x)} (l : list A) :
  (forall x, x ∈ l -> P x <-> Q x) -> filter P l = filter Q l.
Proof.
  induction l as [|x l IH]; intros Hl; [done|]. rewrite !filter_cons.
  rewrite IH by (intros y Hy; apply Hl; by right). pose proof (Hl x ltac:(left)). by destruct (decide (P x)), (decide (Q x)); try tauto.
Qed.

Lemma free_same f a : fl_rel f a ->
  filter (fun i => i ∉ users a) (seq 0 32) = filter (fun j => Z.testbit (available_bits f) (Z.of_nat j) = true) (seq 0 32).
Proof.
  intros [_ _ Hu _ _]. apply filter_same. intros i Hi. apply elem_of_seq in Hi.
  rewrite Hu, elem_of_difference, elem_of_list_to_set, elem_of_seq, elem_of_bits. destruct (Z.testbit _ _); naive_solver lia.
Qed.

Ltac fl_cbn := cbn [users stoppers stop_requests_mask available_bits fl_calls fl_set_mask fl_set_avail fl_call].

Lemma fl_step_rel o f a : fl_op_wf o -> fl_rel f a ->
  let '(r, f') := fl_step o f in let '(r', a') := fl_spec_step o a in r = fl_answer <$> r' /\ fl_rel f' a'.
Proof.
  intros Hw Hr. pose proof Hr as [H1 H2 H3 H4 H5]. destruct o as [|i|i|i]; cbn [fl_step fl_spec_step fl_op_wf] in *.
  - unfold mtlk_flctrl_register, MAX_NOF_AVAILABLE_BITS. change 1 with (bit 0). rewrite fl_take_spec by done.
    rewrite <-(free_same f a) by done. destruct (head _) as [i|] eqn:E; fl_cbn; [|by rewrite union_empty_l_L; destruct a].
    assert (i < 32 /\ i ∉ users a)%nat as [Hi Hi'].
    { apply head_Some_elem_of, list_elem_of_filter in E as [E1 E2%elem_of_seq]. split; [lia|done]. }
    split; [done|]. split; fl_cbn; eauto with wave. rewrite bits_ldiff, bits_bit, H3 by done. apply set_eq. intros j.
    rewrite !elem_of_union, !elem_of_difference, elem_of_singleton, elem_of_list_to_set, elem_of_seq.
    destruct (decide (j = i)); naive_solver lia.
  - split; [done|]. unfold mtlk_flctrl_stop_data. rewrite bit_u32 by done. split; fl_cbn.
    1,2: destruct (_ =? 0); fl_cbn; eauto with wave. 1,2: destruct (_ =? 0); fl_cbn; rewrite ?bits_lor, ?bits_bit by done; set_solver.
    rewrite bool_decide_false by set_solver. unfold data_on in *. destruct (Z.eqb_spec (stop_requests_mask f) 0) as [E|E]; fl_cbn; [done|].
    rewrite H5. apply bool_decide_false. by rewrite H4, bits_empty.
  - split; [done|]. unfold mtlk_flctrl_start_data. rewrite bit_u32 by done. cbn [stop_requests_mask fl_set_mask].
    assert (word (Z.ldiff (stop_requests_mask f) (bit i))) as Hw' by eauto with wave.
    assert (stoppers a ∖ {[i]} = bits (Z.ldiff (stop_requests_mask f) (bit i))) as Hs by (by rewrite bits_ldiff, bits_bit, H4).
    pose proof (bits_empty _ Hw') as Hb. rewrite <-Hs in Hb. destruct (Z.eqb_spec (Z.ldiff (stop_requests_mask f) (bit i)) 0) as [E|E].
    + split; fl_cbn; try done. rewrite bool_decide_true; tauto.
    + split; fl_cbn; try done. unfold data_on in *. fl_cbn. rewrite H5, (bool_decide_false (_ ∖ _ = ∅)) by tauto.
      apply bool_decide_false. set_solver.
  - split; [done|]. unfold mtlk_flctrl_unregister. rewrite bit_u32 by done. split; fl_cbn; eauto with wave.
    rewrite bits_lor, bits_bit, H3 by done. set_solver.
Qed.

Lemma fl_run_rel ops f a : Forall fl_op_wf ops -> fl_rel f a ->
  let '(rs, f') := fl_run ops f in let '(rs', a') := fl_spec_run ops a in rs = fmap (M:=option) fl_answer <$> rs' /\ fl_rel f' a'.
Proof.
  intros Hw. revert f a. induction Hw as [|o ops Ho _ IH]; intros f a Hr; [done|]. cbn.
  pose proof (fl_step_rel o f a Ho Hr) as H. destruct (fl_step o f) as [r f1], (fl_spec_step o a) as [r' a1]. destruct H as [-> Hr1].
  specialize (IH _ _ Hr1). destruct (fl_run ops f1), (fl_spec_run ops a1). destruct IH as [-> Hr2]. done.
Qed.

Lemma fl_init_rel f : fl_rel (mtlk_flctrl_init MTLK_ERR_OK f).2 (FlSpec ∅ ∅).
Proof. split; [done..| |done|done]; vm_compute; done. Qed.

(** C19 The flow control object implements a set of users and a set of
    stoppers: after any operations with identifiers it gives out, a
    registration has answered with the lowest free bit, or with an error when
    all 32 are taken; and the data was switched off and on so that it runs
    exactly while nobody is stopping it. *)
Theorem flctrl_refines ops f : Forall fl_op_wf ops ->
  let '(rs, f') := fl_run ops (mtlk_flctrl_init MTLK_ERR_OK f).2 in
  let '(rs', a) := fl_spec_run ops (FlSpec ∅ ∅) in
  rs = fmap (M:=option) fl_answer <$> rs' /\ fl_rel f' a /\
  mtlk_flctrl_is_data_flowing f' = bool_decide (stoppers a = ∅) /\ data_on f' = mtlk_flctrl_is_data_flowing f'.
Proof.
  intros Hw. pose proof (fl_run_rel ops _ _ Hw (fl_init_rel f)) as H.
  destruct (fl_run ops _) as [rs f'], (fl_spec_run ops _) as [rs' a]. destruct H as [-> Hr]. split; [done|]. split; [done|].
  destruct Hr as [H1 H2 H3 H4 H5]. rewrite H5. unfold mtlk_flctrl_is_data_flowing. enough (bool_decide (stoppers a = ∅) = (stop_requests_mask f' =? 0)) by done.
  pose proof (bits_empty _ H1) as Hb. rewrite H4. destruct (Z.eqb_spec (stop_requests_mask f') 0); [apply bool_decide_true|apply bool_decide_false]; tauto.
Qed.
