(* ===== verification/ScanData.v ===== *)
(** * ScanData: the state of scanning (wireless/driver/shared/scan.h)

    The scan object, and with it what it works on: the flow control object, the
    cache, the ability manager, the programming models that are allocated, the
    resources it holds, and what the outside still owes it: confirmations of
    scan requests, the pause timer, tasks queued for the serializer. *)
From S2P Require Import Prelude Abmgr Cache Flctrl.

Definition MTLK_ERR_TIMEOUT : Z := -4.
Definition MTLK_ERR_SCAN_FAILED : Z := -15.
Definition MTLK_ERR_MAC : Z := -23.

(** [mtlk_hw_band] of wireless/driver/shared/eeprom.h, and the spectrum modes. *)
Definition MTLK_HW_BAND_5_2_GHZ : Z := 0.
Definition MTLK_HW_BAND_2_4_GHZ : Z := 1.
Definition MTLK_HW_BAND_BOTH : Z := 2.
Definition MTLK_HW_BAND_NONE : Z := 3.
Definition SPECTRUM_20MHZ : Z := 0.
Definition SPECTRUM_40MHZ : Z := 1.
Definition UMI_OK : Z := 0.
Definition UMI_BSS_INFRA : Z := 0.
Definition MIB_ESSID_LENGTH : nat := 32.

(** [MTLK_CORE_REQ_...] of mtlk_coreui.h. *)
Definition MTLK_CORE_ABILITITES_START : Z := 0x1000000.
Definition MTLK_CORE_REQ_START_SCANNING : Z := MTLK_CORE_ABILITITES_START + 7.
Definition MTLK_CORE_REQ_GET_SCANNING_RES : Z := MTLK_CORE_ABILITITES_START + 8.
Definition MTLK_CORE_REQ_GET_SCAN_CFG : Z := MTLK_CORE_ABILITITES_START + 51.
Definition MTLK_CORE_REQ_SET_SCAN_CFG : Z := MTLK_CORE_ABILITITES_START + 52.

Record mtlk_scan_params := ScanParams {
  essid : list Z; bss_type : Z; min_scan_time : Z; max_scan_time : Z; probe_rate : Z; num_probes : Z;
  channels_per_chunk_limit : Z; pause_between_chunks : Z; is_background : bool;
  is_background_scan_enabled : bool; is_obss : bool
}.
Record mtlk_scan_interf_params := InterfParams {
  is_interf_enabled : bool; is_long_scan_enabled : bool; max_long_scan_time : Z; max_short_scan_time : Z
}.

(** [vector_used] is what [mtlk_scan_vector_get_used] reads from the vector,
    [last_result] the status in the last result, and the two events are their
    flags.  A pointer is an address or NULL. *)
Record mtlk_scan := MtlkScan {
  initialized : bool; rescan : bool; params : mtlk_scan_params; ch_offset : Z; spectrum : Z; vector_used : Z;
  last_timestamp : Z; orig_band : Z; cur_band : Z; next_band : Z; completed : bool; is_running : bool;
  treminate_scan : bool; is_synchronous : bool; must_load_progmodels : bool; is_cfm_timeout : bool;
  chunk_scan_complete_event : bool; scan_completed_notification : option Z; flctrl_id : Z;
  progmodels : list (option Z); last_result : Z; interf_params : mtlk_scan_interf_params
}.

(** What [mtlk_scan_init] acquires besides the bit of the flow control object
    and the abilities. *)
Inductive scan_res := RVector | RCompleted | RTimer | RAsyncMsg | RChunkEvent | RLastResult.
#[export] Instance scan_res_eq_dec : EqDecision scan_res.
Proof. solve_decision. Defined.

(** Calls of code outside this part whose answer decides what happens next. *)
Inductive ask_t :=
| QIsStopping | QNow
| QPrepareVector (band : Z) | QVectorUsed
| QSendScanReq | QChOffset (from : Z)
| QPsSlot | QPsSend (enabled : bool) | QPsStatus
| QIsLoaded (pm : Z) | QLoadToHw (pm : Z) | QLoadFromOs (pm : Z) | QCreate (band spectrum : Z)
| QSetDefaults (band pm : Z) | QSetBssBased
| QFreqBandCur | QSpectrumModeCur
| QSchedule
| QCreateVector | QInitCompleted | QInitTimer | QInitAsyncMsg | QInitChunkEvent | QAllocLastResult.

Inductive sc_ev :=
| Asked (q : ask_t) (r : Z)
| NotifyScanComplete
| CallBack (context : Z)
| UpdateCl (status : Z)
| StoreCalibration
| AssertFailed
| NullProgmodel
| BadFree.

Record sys := Sys {
  scan : mtlk_scan; flctrl : mtlk_flctrl_t; bss_cache : scan_cache_t; abmgr : mtlk_abmgr_t; pm_live : gset Z;
  held : list scan_res; cfm_due : nat; pause_timer : bool; tasks : nat; ps_on : bool; turn : nat; sc_log : list sc_ev
}.

(** ** Field updates *)

Definition with_essid (v : list Z) (p : mtlk_scan_params) : mtlk_scan_params :=
  ScanParams v (bss_type p) (min_scan_time p) (max_scan_time p) (probe_rate p) (num_probes p)
    (channels_per_chunk_limit p) (pause_between_chunks p) (is_background p) (is_background_scan_enabled p)
    (is_obss p).
Definition with_channels_per_chunk_limit (v : Z) (p : mtlk_scan_params) : mtlk_scan_params :=
  ScanParams (essid p) (bss_type p) (min_scan_time p) (max_scan_time p) (probe_rate p) (num_probes p) v
    (pause_between_chunks p) (is_background p) (is_background_scan_enabled p) (is_obss p).
Definition with_pause_between_chunks (v : Z) (p : mtlk_scan_params) : mtlk_scan_params :=
  ScanParams (essid p) (bss_type p) (min_scan_time p) (max_scan_time p) (probe_rate p) (num_probes p)
    (channels_per_chunk_limit p) v (is_background p) (is_background_scan_enabled p) (is_obss p).
Definition with_is_background (v : bool) (p : mtlk_scan_params) : mtlk_scan_params :=
  ScanParams (essid p) (bss_type p) (min_scan_time p) (max_scan_time p) (probe_rate p) (num_probes p)
    (channels_per_chunk_limit p) (pause_between_chunks p) v (is_background_scan_enabled p) (is_obss p).
Definition with_is_background_scan_enabled (v : bool) (p : mtlk_scan_params) : mtlk_scan_params :=
  ScanParams (essid p) (bss_type p) (min_scan_time p) (max_scan_time p) (probe_rate p) (num_probes p)
    (channels_per_chunk_limit p) (pause_between_chunks p) (is_background p) v (is_obss p).
Definition with_is_obss (v : bool) (p : mtlk_scan_params) : mtlk_scan_params :=
  ScanParams (essid p) (bss_type p) (min_scan_time p) (max_scan_time p) (probe_rate p) (num_probes p)
    (channels_per_chunk_limit p) (pause_between_chunks p) (is_background p) (is_background_scan_enabled p) v.

Definition set_initialized (v : bool) (c : mtlk_scan) : mtlk_scan :=
  MtlkScan v (rescan c) (params c) (ch_offset c) (spectrum c) (vector_used c) (last_timestamp c) (orig_band c)
    (cur_band c) (next_band c) (completed c) (is_running c) (treminate_scan c) (is_synchronous c)
    (must_load_progmodels c) (is_cfm_timeout c) (chunk_scan_complete_event c) (scan_completed_notification c)
    (flctrl_id c) (progmodels c) (last_result c) (interf_params c).
Definition set_rescan (v : bool) (c : mtlk_scan) : mtlk_scan :=
  MtlkScan (initialized c) v (params c) (ch_offset c) (spectrum c) (vector_used c) (last_timestamp c)
    (orig_band c) (cur_band c) (next_band c) (completed c) (is_running c) (treminate_scan c)
    (is_synchronous c) (must_load_progmodels c) (is_cfm_timeout c) (chunk_scan_complete_event c)
    (scan_completed_notification c) (flctrl_id c) (progmodels c) (last_result c) (interf_params c).
Definition set_params (v : mtlk_scan_params) (c : mtlk_scan) : mtlk_scan :=
  MtlkScan (initialized c) (rescan c) v (ch_offset c) (spectrum c) (vector_used c) (last_timestamp c)
    (orig_band c) (cur_band c) (next_band c) (completed c) (is_running c) (treminate_scan c)
    (is_synchronous c) (must_load_progmodels c) (is_cfm_timeout c) (chunk_scan_complete_event c)
    (scan_completed_notification c) (flctrl_id c) (progmodels c) (last_result c) (interf_params c).
Definition set_ch_offset (v : Z) (c : mtlk_scan) : mtlk_scan :=
  MtlkScan (initialized c) (rescan c) (params c) v (spectrum c) (vector_used c) (last_timestamp c)
    (orig_band c) (cur_band c) (next_band c) (completed c) (is_running c) (treminate_scan c)
    (is_synchronous c) (must_load_progmodels c) (is_cfm_timeout c) (chunk_scan_complete_event c)
    (scan_completed_notification c) (flctrl_id c) (progmodels c) (last_result c) (interf_params c).
Definition set_spectrum (v : Z) (c : mtlk_scan) : mtlk_scan :=
  MtlkScan (initialized c) (rescan c) (params c) (ch_offset c) v (vector_used c) (last_timestamp c)
    (orig_band c) (cur_band c) (next_band c) (completed c) (is_running c) (treminate_scan c)
    (is_synchronous c) (must_load_progmodels c) (is_cfm_timeout c) (chunk_scan_complete_event c)
    (scan_completed_notification c) (flctrl_id c) (progmodels c) (last_result c) (interf_params c).
Definition set_vector_used (v : Z) (c : mtlk_scan) : mtlk_scan :=
  MtlkScan (initialized c) (rescan c) (params c) (ch_offset c) (spectrum c) v (last_timestamp c) (orig_band c)
    (cur_band c) (next_band c) (completed c) (is_running c) (treminate_scan c) (is_synchronous c)
    (must_load_progmodels c) (is_cfm_timeout c) (chunk_scan_complete_event c) (scan_completed_notification c)
    (flctrl_id c) (progmodels c) (last_result c) (interf_params c).
Definition set_last_timestamp (v : Z) (c : mtlk_scan) : mtlk_scan :=
  MtlkScan (initialized c) (rescan c) (params c) (ch_offset c) (spectrum c) (vector_used c) v (orig_band c)
    (cur_band c) (next_band c) (completed c) (is_running c) (treminate_scan c) (is_synchronous c)
    (must_load_progmodels c) (is_cfm_timeout c) (chunk_scan_complete_event c) (scan_completed_notification c)
    (flctrl_id c) (progmodels c) (last_result c) (interf_params c).
Definition set_orig_band (v : Z) (c : mtlk_scan) : mtlk_scan :=
  MtlkScan (initialized c) (rescan c) (params c) (ch_offset c) (spectrum c) (vector_used c) (last_timestamp c)
    v (cur_band c) (next_band c) (completed c) (is_running c) (treminate_scan c) (is_synchronous c)
    (must_load_progmodels c) (is_cfm_timeout c) (chunk_scan_complete_event c) (scan_completed_notification c)
    (flctrl_id c) (progmodels c) (last_result c) (interf_params c).
Definition set_cur_band (v : Z) (c : mtlk_scan) : mtlk_scan :=
  MtlkScan (initialized c) (rescan c) (params c) (ch_offset c) (spectrum c) (vector_used c) (last_timestamp c)
    (orig_band c) v (next_band c) (completed c) (is_running c) (treminate_scan c) (is_synchronous c)
    (must_load_progmodels c) (is_cfm_timeout c) (chunk_scan_complete_event c) (scan_completed_notification c)
    (flctrl_id c) (progmodels c) (last_result c) (interf_params c).
Definition set_next_band (v : Z) (c : mtlk_scan) : mtlk_scan :=
  MtlkScan (initialized c) (rescan c) (params c) (ch_offset c) (spectrum c) (vector_used c) (last_timestamp c)
    (orig_band c) (cur_band c) v (completed c) (is_running c) (treminate_scan c) (is_synchronous c)
    (must_load_progmodels c) (is_cfm_timeout c) (chunk_scan_complete_event c) (scan_completed_notification c)
    (flctrl_id c) (progmodels c) (last_result c) (interf_params c).
Definition set_completed (v : bool) (c : mtlk_scan) : mtlk_scan :=
  MtlkScan (initialized c) (rescan c) (params c) (ch_offset c) (spectrum c) (vector_used c) (last_timestamp c)
    (orig_band c) (cur_band c) (next_band c) v (is_running c) (treminate_scan c) (is_synchronous c)
    (must_load_progmodels c) (is_cfm_timeout c) (chunk_scan_complete_event c) (scan_completed_notification c)
    (flctrl_id c) (progmodels c) (last_result c) (interf_params c).
Definition set_is_running (v : bool) (c : mtlk_scan) : mtlk_scan :=
  MtlkScan (initialized c) (rescan c) (params c) (ch_offset c) (spectrum c) (vector_used c) (last_timestamp c)
    (orig_band c) (cur_band c) (next_band c) (completed c) v (treminate_scan c) (is_synchronous c)
    (must_load_progmodels c) (is_cfm_timeout c) (chunk_scan_complete_event c) (scan_completed_notification c)
    (flctrl_id c) (progmodels c) (last_result c) (interf_params c).
Definition set_treminate_scan (v : bool) (c : mtlk_scan) : mtlk_scan :=
  MtlkScan (initialized c) (rescan c) (params c) (ch_offset c) (spectrum c) (vector_used c) (last_timestamp c)
    (orig_band c) (cur_band c) (next_band c) (completed c) (is_running c) v (is_synchronous c)
    (must_load_progmodels c) (is_cfm_timeout c) (chunk_scan_complete_event c) (scan_completed_notification c)
    (flctrl_id c) (progmodels c) (last_result c) (interf_params c).
Definition set_is_synchronous (v : bool) (c : mtlk_scan) : mtlk_scan :=
  MtlkScan (initialized c) (rescan c) (params c) (ch_offset c) (spectrum c) (vector_used c) (last_timestamp c)
    (orig_band c) (cur_band c) (next_band c) (completed c) (is_running c) (treminate_scan c) v
    (must_load_progmodels c) (is_cfm_timeout c) (chunk_scan_complete_event c) (scan_completed_notification c)
    (flctrl_id c) (progmodels c) (last_result c) (interf_params c).
Definition set_must_load_progmodels (v : bool) (c : mtlk_scan) : mtlk_scan :=
  MtlkScan (initialized c) (rescan c) (params c) (ch_offset c) (spectrum c) (vector_used c) (last_timestamp c)
    (orig_band c) (cur_band c) (next_band c) (completed c) (is_running c) (treminate_scan c)
    (is_synchronous c) v (is_cfm_timeout c) (chunk_scan_complete_event c) (scan_completed_notification c)
    (flctrl_id c) (progmodels c) (last_result c) (interf_params c).
Definition set_is_cfm_timeout (v : bool) (c : mtlk_scan) : mtlk_scan :=
  MtlkScan (initialized c) (rescan c) (params c) (ch_offset c) (spectrum c) (vector_used c) (last_timestamp c)
    (orig_band c) (cur_band c) (next_band c) (completed c) (is_running c) (treminate_scan c)
    (is_synchronous c) (must_load_progmodels c) v (chunk_scan_complete_event c)
    (scan_completed_notification c) (flctrl_id c) (progmodels c) (last_result c) (interf_params c).
Definition set_chunk_scan_complete_event (v : bool) (c : mtlk_scan) : mtlk_scan :=
  MtlkScan (initialized c) (rescan c) (params c) (ch_offset c) (spectrum c) (vector_used c) (last_timestamp c)
    (orig_band c) (cur_band c) (next_band c) (completed c) (is_running c) (treminate_scan c)
    (is_synchronous c) (must_load_progmodels c) (is_cfm_timeout c) v (scan_completed_notification c)
    (flctrl_id c) (progmodels c) (last_result c) (interf_params c).
Definition set_scan_completed_notification (v : option Z) (c : mtlk_scan) : mtlk_scan :=
  MtlkScan (initialized c) (rescan c) (params c) (ch_offset c) (spectrum c) (vector_used c) (last_timestamp c)
    (orig_band c) (cur_band c) (next_band c) (completed c) (is_running c) (treminate_scan c)
    (is_synchronous c) (must_load_progmodels c) (is_cfm_timeout c) (chunk_scan_complete_event c) v
    (flctrl_id c) (progmodels c) (last_result c) (interf_params c).
Definition set_flctrl_id (v : Z) (c : mtlk_scan) : mtlk_scan :=
  MtlkScan (initialized c) (rescan c) (params c) (ch_offset c) (spectrum c) (vector_used c) (last_timestamp c)
    (orig_band c) (cur_band c) (next_band c) (completed c) (is_running c) (treminate_scan c)
    (is_synchronous c) (must_load_progmodels c) (is_cfm_timeout c) (chunk_scan_complete_event c)
    (scan_completed_notification c) v (progmodels c) (last_result c) (interf_params c).
Definition set_progmodels (v : list (option Z)) (c : mtlk_scan) : mtlk_scan :=
  MtlkScan (initialized c) (rescan c) (params c) (ch_offset c) (spectrum c) (vector_used c) (last_timestamp c)
    (orig_band c) (cur_band c) (next_band c) (completed c) (is_running c) (treminate_scan c)
    (is_synchronous c) (must_load_progmodels c) (is_cfm_timeout c) (chunk_scan_complete_event c)
    (scan_completed_notification c) (flctrl_id c) v (last_result c) (interf_params c).
Definition set_last_result (v : Z) (c : mtlk_scan) : mtlk_scan :=
  MtlkScan (initialized c) (rescan c) (params c) (ch_offset c) (spectrum c) (vector_used c) (last_timestamp c)
    (orig_band c) (cur_band c) (next_band c) (completed c) (is_running c) (treminate_scan c)
    (is_synchronous c) (must_load_progmodels c) (is_cfm_timeout c) (chunk_scan_complete_event c)
    (scan_completed_notification c) (flctrl_id c) (progmodels c) v (interf_params c).
Definition set_interf_params (v : mtlk_scan_interf_params) (c : mtlk_scan) : mtlk_scan :=
  MtlkScan (initialized c) (rescan c) (params c) (ch_offset c) (spectrum c) (vector_used c) (last_timestamp c)
    (orig_band c) (cur_band c) (next_band c) (completed c) (is_running c) (treminate_scan c)
    (is_synchronous c) (must_load_progmodels c) (is_cfm_timeout c) (chunk_scan_complete_event c)
    (scan_completed_notification c) (flctrl_id c) (progmodels c) (last_result c) v.

Definition put_scan (v : mtlk_scan) (s : sys) : sys :=
  Sys v (flctrl s) (bss_cache s) (abmgr s) (pm_live s) (held s) (cfm_due s) (pause_timer s) (tasks s)
    (ps_on s) (turn s) (sc_log s).
Definition put_flctrl (v : mtlk_flctrl_t) (s : sys) : sys :=
  Sys (scan s) v (bss_cache s) (abmgr s) (pm_live s) (held s) (cfm_due s) (pause_timer s) (tasks s) (ps_on s)
    (turn s) (sc_log s).
Definition put_bss_cache (v : scan_cache_t) (s : sys) : sys :=
  Sys (scan s) (flctrl s) v (abmgr s) (pm_live s) (held s) (cfm_due s) (pause_timer s) (tasks s) (ps_on s)
    (turn s) (sc_log s).
Definition put_abmgr (v : mtlk_abmgr_t) (s : sys) : sys :=
  Sys (scan s) (flctrl s) (bss_cache s) v (pm_live s) (held s) (cfm_due s) (pause_timer s) (tasks s) (ps_on s)
    (turn s) (sc_log s).
Definition put_pm_live (v : gset Z) (s : sys) : sys :=
  Sys (scan s) (flctrl s) (bss_cache s) (abmgr s) v (held s) (cfm_due s) (pause_timer s) (tasks s) (ps_on s)
    (turn s) (sc_log s).
Definition put_held (v : list scan_res) (s : sys) : sys :=
  Sys (scan s) (flctrl s) (bss_cache s) (abmgr s) (pm_live s) v (cfm_due s) (pause_timer s) (tasks s)
    (ps_on s) (turn s) (sc_log s).
Definition put_cfm_due (v : nat) (s : sys) : sys :=
  Sys (scan s) (flctrl s) (bss_cache s) (abmgr s) (pm_live s) (held s) v (pause_timer s) (tasks s) (ps_on s)
    (turn s) (sc_log s).
Definition put_pause_timer (v : bool) (s : sys) : sys :=
  Sys (scan s) (flctrl s) (bss_cache s) (abmgr s) (pm_live s) (held s) (cfm_due s) v (tasks s) (ps_on s)
    (turn s) (sc_log s).
Definition put_tasks (v : nat) (s : sys) : sys :=
  Sys (scan s) (flctrl s) (bss_cache s) (abmgr s) (pm_live s) (held s) (cfm_due s) (pause_timer s) v (ps_on s)
    (turn s) (sc_log s).
Definition put_ps_on (v : bool) (s : sys) : sys :=
  Sys (scan s) (flctrl s) (bss_cache s) (abmgr s) (pm_live s) (held s) (cfm_due s) (pause_timer s) (tasks s) v
    (turn s) (sc_log s).
Definition put_turn (v : nat) (s : sys) : sys :=
  Sys (scan s) (flctrl s) (bss_cache s) (abmgr s) (pm_live s) (held s) (cfm_due s) (pause_timer s) (tasks s)
    (ps_on s) v (sc_log s).
Definition put_sc_log (v : list sc_ev) (s : sys) : sys :=
  Sys (scan s) (flctrl s) (bss_cache s) (abmgr s) (pm_live s) (held s) (cfm_due s) (pause_timer s) (tasks s)
    (ps_on s) (turn s) v.
