(* ===== verification/Scan.v ===== *)
(** * Scan: the scan state machine (wireless/driver/shared/scan.c)

    One request to the firmware scans a chunk of channels.  Its confirmation,
    and after a pause the timer and a task of the serializer, lead to the next
    chunk, the next band or the end.  Code that is not in the repository
    (building the vector of channels, sending the request, programming models)
    and code of other parts answer through the oracle [scan_env]. *)
From S2P Require Import Prelude Abmgr Cache Flctrl ScanData.

(** [oracle n q]: the answer to [q] when [n] questions were asked before;
    [alloc]: the allocator of the ability manager. *)
Record scan_env := ScanEnv {
  oracle : nat -> ask_t -> Z; vap_is_ap : bool; vap_is_master : bool; alloc : gset Z -> nat -> option Z
}.

Definition vap_is_master_ap (env : scan_env) : bool := vap_is_ap env && vap_is_master env.

Section Scan.
Context (env : scan_env).
Abbreviation M := (ST sys).

(** ** Access to the state *)

Definition get {A} (f : mtlk_scan -> A) : M A := gets (fun s => f (scan s)).
Definition upd (f : mtlk_scan -> mtlk_scan) : M unit := modify (fun s => put_scan (f (scan s)) s).
Definition emit (e : sc_ev) : M unit := modify (fun s => put_sc_log (e :: sc_log s) s).
Definition check (b : bool) : M unit := when (negb b) (emit AssertFailed).

Definition asked (q : ask_t) (s : sys) : sys :=
  put_turn (S (turn s)) (put_sc_log (Asked q (oracle env (turn s) q) :: sc_log s) s).
Definition ask (q : ask_t) : M Z := fun s => (oracle env (turn s) q, asked q s).

Definition stop_data : M unit := modify (fun s => put_flctrl (mtlk_flctrl_stop_data (flctrl_id (scan s)) (flctrl s)) s).
Definition start_data : M unit := modify (fun s => put_flctrl (mtlk_flctrl_start_data (flctrl_id (scan s)) (flctrl s)) s).
Definition cache_clear : M unit := modify (fun s => put_bss_cache (mtlk_cache_clear (bss_cache s)) s).
Definition abilities (f : mtlk_abmgr_t -> mtlk_abmgr_t) : M unit := modify (fun s => put_abmgr (f (abmgr s)) s).

(** ** Abilities *)

Definition _scan_abilities : list Z := [MTLK_CORE_REQ_START_SCANNING; MTLK_CORE_REQ_GET_SCAN_CFG; MTLK_CORE_REQ_SET_SCAN_CFG].
Definition _scan_active_abilities : list Z := [MTLK_CORE_REQ_START_SCANNING].
Definition _scan_common_abilities : list Z := [MTLK_CORE_REQ_GET_SCANNING_RES].

Definition register_set (ids : list Z) : M Z :=
  fun s => let '(res, a) := mtlk_abmgr_register_ability_set (alloc env) ids (abmgr s) in (res, put_abmgr a s).

Definition _mtlk_scan_sta_abilities_init : M Z :=
  if vap_is_ap env then mret MTLK_ERR_OK
  else
    res ← register_set _scan_abilities;
    when (res =? MTLK_ERR_OK) (abilities (mtlk_abmgr_enable_ability_set _scan_abilities)) ;;
    mret res.
Definition _mtlk_scan_sta_abilities_cleanup : M unit :=
  when (negb (vap_is_ap env))
    (abilities (mtlk_abmgr_disable_ability_set _scan_abilities) ;;
     abilities (mtlk_abmgr_unregister_ability_set _scan_abilities)).
Definition _mtlk_scan_common_abilities_init : M Z :=
  res ← register_set _scan_common_abilities;
  when (res =? MTLK_ERR_OK) (abilities (mtlk_abmgr_enable_ability_set _scan_common_abilities)) ;;
  mret res.
Definition _mtlk_scan_common_abilities_cleanup : M unit :=
  abilities (mtlk_abmgr_disable_ability_set _scan_common_abilities) ;;
  abilities (mtlk_abmgr_unregister_ability_set _scan_common_abilities).
Definition _mtlk_scan_abilities_set_idle : M unit :=
  when (negb (vap_is_ap env))
    (abilities (mtlk_abmgr_disable_ability_set _scan_abilities) ;;
     abilities (mtlk_abmgr_enable_ability_set _scan_abilities)).
Definition _mtlk_scan_abilities_set_active : M unit :=
  when (negb (vap_is_ap env))
    (abilities (mtlk_abmgr_disable_ability_set _scan_abilities) ;;
     abilities (mtlk_abmgr_enable_ability_set _scan_active_abilities)).

(** ** Parameters *)

(** [strncpy(dst, src, MIB_ESSID_LENGTH + 1)]: the string [src] ends before its NUL. *)
Definition strncpy_essid (src : list Z) : list Z := take (S MIB_ESSID_LENGTH) (src ++ replicate (S MIB_ESSID_LENGTH) 0).

Definition upd_params (f : mtlk_scan_params -> mtlk_scan_params) : M unit := upd (fun c => set_params (f (params c)) c).
Definition upd_interf (f : mtlk_scan_interf_params -> mtlk_scan_interf_params) : M unit :=
  upd (fun c => set_interf_params (f (interf_params c)) c).

Definition mtlk_scan_set_essid (buf : list Z) : M unit :=
  check (negb (vap_is_ap env)) ;; upd_params (with_essid (strncpy_essid buf)).
Definition mtlk_scan_set_per_chunk_limit (limit : Z) : M unit :=
  check (negb (vap_is_ap env)) ;; upd_params (with_channels_per_chunk_limit limit).
Definition mtlk_scan_set_pause_between_chunks (pause : Z) : M unit :=
  check (negb (vap_is_ap env)) ;; upd_params (with_pause_between_chunks pause).
Definition mtlk_scan_set_is_background_scan_enabled (b : bool) : M unit :=
  check (negb (vap_is_ap env)) ;; upd_params (with_is_background_scan_enabled b).
Definition mtlk_scan_set_background (b : bool) : M unit := upd_params (with_is_background b).
Definition mtlk_scan_set_obss (b : bool) : M unit := upd_params (with_is_obss b).
Definition mtlk_scan_set_is_interf_enabled (b : bool) : M unit :=
  check (vap_is_master_ap env) ;;
  upd_interf (fun i => InterfParams b (is_long_scan_enabled i) (max_long_scan_time i) (max_short_scan_time i)).
Definition mtlk_scan_set_is_long_scan_enabled (b : bool) : M unit :=
  check (vap_is_master_ap env) ;; e ← get (fun c => is_interf_enabled (interf_params c)); check e ;;
  upd_interf (fun i => InterfParams (is_interf_enabled i) b (max_long_scan_time i) (max_short_scan_time i)).
Definition mtlk_scan_set_scan_time (long short : Z) : M unit :=
  check (vap_is_master_ap env) ;;
  upd_interf (fun i => InterfParams (is_interf_enabled i) (is_long_scan_enabled i) long short).
Definition mtlk_scan_register_scan_completed_notification_callback (callback : option Z) : M unit :=
  upd (set_scan_completed_notification callback).
Definition mtlk_scan_set_load_progmodel_policy (must_load : bool) : M unit :=
  r ← get is_running; when (negb r) (upd (set_must_load_progmodels must_load)).
Definition mtlk_scan_schedule_rescan : M unit := upd (set_rescan true).

(** ** Programming models *)

(** [progmodels[band]], which must not be NULL. *)
Definition with_progmodel (band : Z) (k : Z -> M Z) : M Z :=
  p ← get (fun c => mjoin (progmodels c !! Z.to_nat band));
  match p with Some pm => k pm | None => emit NullProgmodel ;; mret MTLK_ERR_UNKNOWN end.

Definition load_and_configure_progmodel : M Z :=
  band ← get cur_band;
  with_progmodel band (fun pm =>
    loaded ← ask (QIsLoaded pm);
    res ← (if loaded =? 0 then ask (QLoadToHw pm) else mret MTLK_ERR_OK);
    if negb (res =? MTLK_ERR_OK) then mret res else ask (QSetDefaults band pm)).

Definition switch_back_progmodel : M Z :=
  b ← ask QFreqBandCur; let band := u8 b in
  check (band <? MTLK_HW_BAND_BOTH) ;;
  bg ← get (fun c => is_background (params c)); check bg ;;
  with_progmodel band (fun pm =>
    loaded ← ask (QIsLoaded pm);
    res ← (if loaded =? 0 then ask (QLoadToHw pm) else mret MTLK_ERR_OK);
    if negb (res =? MTLK_ERR_OK) then mret res else ask QSetBssBased).

Definition delete_one (i : nat) : M unit :=
  p ← get (fun c => mjoin (progmodels c !! i));
  match p with
  | None => mret tt
  | Some pm =>
      ok ← gets (fun s => bool_decide (pm ∈ pm_live s));
      when (negb ok) (emit BadFree) ;;
      modify (fun s => put_pm_live (pm_live s ∖ {[pm]}) s) ;;
      upd (fun c => set_progmodels (<[i := None]> (progmodels c)) c)
  end.
Definition delete_progmodels : M unit := for_each (seq 0 2) delete_one.

(** [mtlk_progmodel_create]: a new object, or NULL. *)
Definition create_progmodel (band spectrum : Z) : M bool :=
  r ← ask (QCreate band spectrum);
  let made := negb (r =? 0) in
  p ← gets (fun s => if made then Some (Z.of_nat (turn s)) else None);
  modify (fun s => put_pm_live (match p with Some pm => {[pm]} ∪ pm_live s | None => pm_live s end) s) ;;
  upd (fun c => set_progmodels (<[Z.to_nat band := p]> (progmodels c)) c) ;;
  mret made.

Fixpoint load_all (bands : list nat) : M bool :=
  match bands with
  | [] => mret true
  | i :: bands =>
      p ← get (fun c => mjoin (progmodels c !! i));
      match p with
      | None => load_all bands
      | Some pm => res ← ask (QLoadFromOs pm); if res =? MTLK_ERR_OK then load_all bands else mret false
      end
  end.

Definition preload_failed : M Z := delete_progmodels ;; mret MTLK_ERR_SCAN_FAILED.

(** The band the core works on keeps its spectrum in a background scan. *)
Definition preload_spectra (cur next : Z) : M (Z * Z) :=
  sp ← get spectrum;
  bg ← get (fun c => is_background (params c));
  if (bg : bool) then
    b ← ask QFreqBandCur;
    spec ← ask QSpectrumModeCur;
    let band := u8 b in
    check (band <? MTLK_HW_BAND_BOTH) ;;
    mret (if cur =? band then u8 spec else sp, if next =? band then u8 spec else sp)
  else mret (sp, sp).

Definition preload_progmodels : M Z :=
  cur ← get cur_band;
  next ← get next_band;
  sps ← preload_spectra cur next;
  let '(cur_spectrum, next_spectrum) := sps in
  made ← create_progmodel cur cur_spectrum;
  if negb made then preload_failed
  else
    made ← (if negb (next =? MTLK_HW_BAND_NONE) then create_progmodel next next_spectrum else mret true);
    if negb made then preload_failed
    else
      loaded ← load_all (seq 0 2);
      if (loaded : bool) then mret MTLK_ERR_OK else preload_failed.

(** ** Chunks and bands *)

Definition send_ps_req (enabled : bool) : M Z :=
  slot ← ask QPsSlot;
  if slot =? 0 then mret MTLK_ERR_SCAN_FAILED
  else
    res ← ask (QPsSend enabled);
    if res =? MTLK_ERR_OK then
      status ← ask QPsStatus;
      if negb (status =? UMI_OK) then mret MTLK_ERR_UNKNOWN
      else modify (put_ps_on enabled) ;; mret res
    else mret res.

(** [mtlk_scan_send_scan_req]: when it succeeds it has moved [ch_offset] on and
    owes a confirmation. *)
Definition send_scan_req : M Z :=
  res ← ask QSendScanReq;
  when (res =? MTLK_ERR_OK)
    (from ← get ch_offset; off ← ask (QChOffset from);
     upd (set_ch_offset (u8 off)) ;;
     modify (fun s => put_cfm_due (S (cfm_due s)) s)) ;;
  mret res.

Definition err_send_ps_req (res : Z) : M Z := start_data ;; mret res.
Definition err_scan (res : Z) : M Z :=
  bg ← get (fun c => is_background (params c));
  (if (bg : bool) then send_ps_req false else mret MTLK_ERR_OK) ;;
  err_send_ps_req res.

Definition scan_next_chunk : M Z :=
  stop_data ;;
  bg ← get (fun c => is_background (params c));
  res ← (if (bg : bool) then send_ps_req true else mret MTLK_ERR_OK);
  if negb (res =? MTLK_ERR_OK) then err_send_ps_req res
  else
    must ← get must_load_progmodels;
    res ← (if (must : bool) then load_and_configure_progmodel else mret MTLK_ERR_OK);
    if negb (res =? MTLK_ERR_OK) then err_scan res
    else
      res ← send_scan_req;
      if negb (res =? MTLK_ERR_OK) then err_scan res else mret res.

(** The end of the last band. *)
Definition scan_finished : M Z :=
  must ← get must_load_progmodels; when must delete_progmodels ;;
  old_val ← get is_running; upd (set_is_running false) ;; check old_val ;;
  when (negb (vap_is_ap env)) (mtlk_scan_set_essid []) ;;
  upd (set_completed true) ;;
  emit NotifyScanComplete ;;
  _mtlk_scan_abilities_set_idle ;;
  cb ← get scan_completed_notification;
  match cb with Some context => emit (CallBack context) | None => mret tt end ;;
  mret MTLK_ERR_OK.

(** [scan_current_band], [scan_next_band] and [complete_or_continue] call each
    other.  Only a band with a successor calls for the next, and there are two
    bands, so that two levels are enough ([coc_fixpoint]). *)
Section bands.
Context (complete_or_continue : M Z).
Definition scan_complete_with : M Z := upd (set_next_band MTLK_HW_BAND_NONE) ;; complete_or_continue.
Definition scan_current_band_with : M Z :=
  band ← get cur_band;
  res ← ask (QPrepareVector band);
  used ← ask QVectorUsed;
  upd (set_vector_used (u16 used)) ;;
  if negb (res =? MTLK_ERR_OK) || (u16 used =? 0) then complete_or_continue ;; mret MTLK_ERR_SCAN_FAILED
  else
    upd (set_ch_offset 0) ;;
    t ← ask QNow; upd (set_last_timestamp (u32 t)) ;;
    res ← scan_next_chunk;
    (if negb (res =? MTLK_ERR_OK) then scan_complete_with else mret MTLK_ERR_OK) ;;
    mret res.
Definition scan_next_band_with : M Z :=
  next ← get next_band;
  upd (set_cur_band next) ;; upd (set_next_band MTLK_HW_BAND_NONE) ;;
  scan_current_band_with.
End bands.

Fixpoint coc (n : nat) : M Z :=
  match n with
  | O => mret MTLK_ERR_UNKNOWN
  | S n =>
      next ← get next_band;
      if next =? MTLK_HW_BAND_NONE then scan_finished else scan_next_band_with (coc n)
  end.
Definition complete_or_continue : M Z := coc 2.
Definition scan_complete : M Z := scan_complete_with complete_or_continue.
Definition scan_current_band : M Z := scan_current_band_with complete_or_continue.
Definition scan_next_band : M Z := scan_next_band_with complete_or_continue.

Definition setup_scan_sequence : M unit :=
  orig ← get orig_band;
  if orig =? MTLK_HW_BAND_BOTH
  then upd (set_cur_band MTLK_HW_BAND_5_2_GHZ) ;; upd (set_next_band MTLK_HW_BAND_2_4_GHZ)
  else upd (set_cur_band orig) ;; upd (set_next_band MTLK_HW_BAND_NONE).

(** ** Starting *)

Definition interf_enabled : M bool := get (fun c => is_interf_enabled (interf_params c)).

(** [do_scan] once the exchange of [is_running] has found it clear. *)
Definition do_scan_started (band sp : Z) (pattern : option (list Z)) (is_sync : bool) : M Z :=
  bg ← get (fun c => is_background (params c));
  interf ← interf_enabled;
  when bg (check (negb interf)) ;;
  when (negb interf) cache_clear ;;
  upd (set_treminate_scan false) ;; upd (set_is_synchronous is_sync) ;; upd (set_completed false) ;;
  _mtlk_scan_abilities_set_active ;;
  match pattern with Some buf => mtlk_scan_set_essid buf | None => mret tt end ;;
  upd (set_spectrum sp) ;; upd (set_orig_band band) ;;
  check (band <? MTLK_HW_BAND_NONE) ;;
  setup_scan_sequence ;;
  must ← get must_load_progmodels;
  res ← (if (must : bool) then preload_progmodels else mret MTLK_ERR_OK);
  if negb (res =? MTLK_ERR_OK) then scan_complete ;; mret res else scan_current_band.

(** The two tests before: [true] when the scan may start. *)
Definition do_scan_enter : M bool :=
  stopping ← ask QIsStopping;
  if negb (stopping =? 0) then mret false
  else old ← get is_running; upd (set_is_running true) ;; mret (negb old).

Definition do_scan (band sp : Z) (pattern : option (list Z)) (is_sync : bool) : M Z :=
  ok ← do_scan_enter;
  if (ok : bool) then do_scan_started band sp pattern is_sync else mret MTLK_ERR_SCAN_FAILED.

Definition mtlk_scan_async (band : Z) (pattern : option (list Z)) : M Z :=
  check (band <? MTLK_HW_BAND_NONE) ;; do_scan band SPECTRUM_20MHZ pattern false.

(** ** Confirmations, pauses and termination *)

Definition scan_remaining_channels : M unit :=
  res ← scan_next_chunk;
  if negb (res =? MTLK_ERR_OK) then scan_complete ;; mret tt else mret tt.

Definition _mtlk_scan_handle_evt_pause_elapsed : M Z :=
  term ← get treminate_scan;
  if (term : bool) then scan_complete ;; mret MTLK_ERR_OK
  else
    again ← get rescan;
    (if (again : bool) then
       upd (set_rescan false) ;;
       bg ← get (fun c => is_background (params c));
       when (negb bg) cache_clear ;;
       setup_scan_sequence ;; scan_current_band ;; mret tt
     else
       off ← get ch_offset; used ← get vector_used;
       if off <? used then scan_remaining_channels else complete_or_continue ;; mret tt) ;;
    mret MTLK_ERR_OK.

Definition pause_timer_handler : M Z :=
  err ← ask QSchedule;
  when (err =? MTLK_ERR_OK) (modify (fun s => put_tasks (S (tasks s)) s)) ;;
  mret 0.

(** The switch back from a background chunk: the last result, and whether any
    part of it failed. *)
Definition leave_background : M (Z * bool) :=
  bg ← get (fun c => is_background (params c));
  if negb bg then mret (MTLK_ERR_OK, false)
  else
    must ← get must_load_progmodels;
    res ← (if (must : bool) then switch_back_progmodel else mret MTLK_ERR_OK);
    let error := negb (res =? MTLK_ERR_OK) in
    res ← send_ps_req false;
    mret (res, error || negb (res =? MTLK_ERR_OK)).

(** [status]: [u16Status] of the payload, in host order. *)
Definition mtlk_scan_handle_evt_scan_confirmed (status : Z) : M Z :=
  timeout ← get is_cfm_timeout;
  if (timeout : bool) then scan_complete ;; mret MTLK_ERR_TIMEOUT
  else
    left ← leave_background;
    let '(res, error) := left in
    start_data ;;
    term ← get treminate_scan;
    if term || error then scan_complete ;; mret res
    else if negb (status =? UMI_OK) then scan_complete ;; mret MTLK_ERR_MAC
    else
      when (vap_is_master_ap env) (emit (UpdateCl status) ;; emit StoreCalibration) ;;
      p ← get params;
      (if is_background p && negb (pause_between_chunks p =? 0)
       then modify (put_pause_timer true) ;; mret MTLK_ERR_OK
       else _mtlk_scan_handle_evt_pause_elapsed) ;;
      mret res.

Definition mtlk_scan_is_running : M bool := get is_running.

Definition scan_terminate : M unit := r ← mtlk_scan_is_running; when r (upd (set_treminate_scan true)).

(** ** What reaches the serializer's thread *)

(** The confirmation of the request, with its status or after its time-out;
    the pause timer; the task it scheduled.  Each takes what is due. *)
Inductive sc_event := EvConfirm (timed_out : bool) (status : Z) | EvTimer | EvTask.

Definition confirm_taken (timed_out : bool) (status : Z) : M unit :=
  modify (fun s => put_cfm_due (pred (cfm_due s)) s) ;;
  upd (set_is_cfm_timeout timed_out) ;; upd (set_last_result status).

Definition deliver (e : sc_event) : M unit :=
  match e with
  | EvConfirm timed_out status =>
      due ← gets cfm_due;
      when (0 <? due)%nat
        (confirm_taken timed_out status ;; mtlk_scan_handle_evt_scan_confirmed status ;; mret tt)
  | EvTimer =>
      armed ← gets pause_timer;
      when armed (modify (put_pause_timer false) ;; pause_timer_handler ;; mret tt)
  | EvTask =>
      n ← gets tasks;
      when (0 <? n)%nat
        (modify (fun s => put_tasks (pred (tasks s)) s) ;; _mtlk_scan_handle_evt_pause_elapsed ;; mret tt)
  end.

(** [mtlk_osal_event_wait(&scan->completed, MTLK_OSAL_EVENT_INFINITE)] while
    [evs] happens; [false]: it still waits. *)
Fixpoint wait_completed (evs : list sc_event) : M bool :=
  c ← get completed;
  if (c : bool) then mret true
  else match evs with [] => mret false | e :: evs => deliver e ;; wait_completed evs end.

Definition scan_terminate_and_wait_completion (evs : list sc_event) : M bool :=
  r ← mtlk_scan_is_running;
  if negb r then mret true
  else
    upd (set_treminate_scan true) ;;
    fin ← wait_completed evs;
    when fin cache_clear ;;
    mret fin.

(** ** Synchronous scans *)

(** What happens during one turn of the waiting loop.  The thread of the
    serializer is the one that waits, so no task of its own can run. *)
Inductive poll := PollNothing | PollConfirm (timed_out : bool) (status : Z) | PollTimer | PollTerminate | PollRescan.

Definition outside (p : poll) : M unit :=
  match p with
  | PollNothing => mret tt
  | PollConfirm timed_out status =>
      due ← gets cfm_due;
      when (0 <? due)%nat (confirm_taken timed_out status ;; upd (set_chunk_scan_complete_event true))
  | PollTimer => deliver EvTimer
  | PollTerminate => scan_terminate
  | PollRescan => mtlk_scan_schedule_rescan
  end.

(** The loop of [mtlk_scan_sync] during [polls]; [None]: it still waits. *)
Fixpoint sync_wait (polls : list poll) (res : Z) : M (option Z) :=
  c ← get completed;
  if (c : bool) then mret (Some res)
  else
    match polls with
    | [] => mret None
    | p :: polls =>
        outside p ;;
        chunk ← get chunk_scan_complete_event;
        if (chunk : bool) then
          upd (set_chunk_scan_complete_event false) ;;
          status ← get last_result;
          res ← mtlk_scan_handle_evt_scan_confirmed status;
          sync_wait polls res
        else sync_wait polls res
    end.

Definition mtlk_scan_sync (band sp : Z) (polls : list poll) : M (option Z) :=
  check (band <? MTLK_HW_BAND_BOTH) ;;
  upd (set_chunk_scan_complete_event false) ;;
  res ← do_scan band sp None true;
  if negb (res =? MTLK_ERR_OK) then mret (Some res) else sync_wait polls res.

(** ** Creation and deletion *)

Definition acquire (r : scan_res) : M unit := modify (fun s => put_held (r :: held s) s).
Definition release (r : scan_res) : M unit :=
  ok ← gets (fun s => bool_decide (r ∈ held s));
  when (negb ok) (emit BadFree) ;;
  modify (fun s => put_held (filter (fun x => x <> r) (held s)) s).

Definition default_params : mtlk_scan_params :=
  ScanParams (replicate (S MIB_ESSID_LENGTH) 0) UMI_BSS_INFRA 10 100 10 3 2 50 false false false.
Definition default_interf_params : mtlk_scan_interf_params := InterfParams false false 0 0.
Definition scan_zero : mtlk_scan :=
  MtlkScan false false default_params 0 0 0 0 0 0 0 false false false false false false false None 0 [None; None] 0
    default_interf_params.

Definition err_create_scan_vector (res : Z) : M Z := mret res.
Definition err_completed_event (res : Z) : M Z := release RVector ;; err_create_scan_vector res.
Definition err_timer (res : Z) : M Z := release RCompleted ;; err_completed_event res.
Definition err_async_msg (res : Z) : M Z := release RTimer ;; err_timer res.
Definition err_flctrl (res : Z) : M Z := release RAsyncMsg ;; err_async_msg res.
Definition unregister_flctrl : M unit :=
  modify (fun s => put_flctrl (mtlk_flctrl_unregister (flctrl_id (scan s)) (flctrl s)) s).
Definition err_chunk_event (res : Z) : M Z := unregister_flctrl ;; err_flctrl res.
Definition err_alloc_last_result (res : Z) : M Z := release RChunkEvent ;; err_chunk_event res.
Definition err_sta_abilities (res : Z) : M Z := _mtlk_scan_sta_abilities_cleanup ;; err_alloc_last_result res.

Definition register_flctrl : M Z :=
  fun s => let '(res, id, f) := mtlk_flctrl_register (flctrl s) in
           (res, put_scan (set_flctrl_id id (scan s)) (put_flctrl f s)).

(** One [if (res != MTLK_ERR_OK) goto label]. *)
Definition step_or (res : Z) (label : Z -> M Z) (k : M Z) : M Z :=
  if negb (res =? MTLK_ERR_OK) then label res else k.

Definition mtlk_scan_init : M Z :=
  init ← get initialized; check (negb init) ;;
  modify (put_scan scan_zero) ;;
  vector ← ask QCreateVector;
  if vector =? 0 then err_create_scan_vector MTLK_ERR_UNKNOWN
  else
    acquire RVector ;; upd (set_must_load_progmodels true) ;;
    res ← ask QInitCompleted;
    step_or res err_completed_event
      (acquire RCompleted ;;
       res ← ask QInitTimer;
       step_or res err_timer
         (acquire RTimer ;;
          res ← ask QInitAsyncMsg;
          step_or res err_async_msg
            (acquire RAsyncMsg ;;
             res ← register_flctrl;
             step_or res err_flctrl
               (res ← ask QInitChunkEvent;
                step_or res err_chunk_event
                  (acquire RChunkEvent ;;
                   got ← ask QAllocLastResult;
                   if got =? 0 then err_alloc_last_result res
                   else
                     acquire RLastResult ;;
                     res ← _mtlk_scan_sta_abilities_init;
                     step_or res err_alloc_last_result
                       (res ← _mtlk_scan_common_abilities_init;
                        step_or res err_sta_abilities
                          (upd (set_initialized true) ;; mret MTLK_ERR_OK))))))).

(** [false]: it still waits for the scan to end. *)
Definition mtlk_scan_cleanup (evs : list sc_event) : M bool :=
  init ← get initialized; check init ;;
  _mtlk_scan_common_abilities_cleanup ;;
  _mtlk_scan_sta_abilities_cleanup ;;
  fin ← scan_terminate_and_wait_completion evs;
  if negb fin then mret false
  else
    release RAsyncMsg ;; release RTimer ;; unregister_flctrl ;; release RLastResult ;;
    release RChunkEvent ;; release RCompleted ;; release RVector ;;
    upd (set_initialized false) ;; mret true.
End Scan.
