(* ===== verification/ScanInv.v ===== *)
(** * ScanInv: how runs of the scan functions are followed, and the invariant
    of the scan object *)
From S2P Require Import Prelude HashInv Abmgr AbmgrThms Cache CacheInv CacheMap Flctrl ScanData Scan.

(** ** Runs, followed from a state to the next *)

Section runs.
Context {A B : Type}.
Implicit Types (s : sys).

Lemma bind_inv (m : ST sys A) (f : A -> ST sys B) s b s' :
  (m ≫= f) s = (b, s') -> exists a s1, m s = (a, s1) /\ f a s1 = (b, s').
Proof. unfold mbind, st_bind. destruct (m s) as [a s1]. eauto. Qed.

Lemma ret_inv (a : A) s b s' : (mret a : ST sys A) s = (b, s') -> b = a /\ s' = s.
Proof. by intros [= <- <-]. Qed.

Lemma gets_bind (g : sys -> A) (f : A -> ST sys B) s : (gets g ≫= f) s = f (g s) s.
Proof. done. Qed.
Lemma modify_bind (g : sys -> sys) (f : unit -> ST sys B) s : (modify g ≫= f) s = f tt (g s).
Proof. done. Qed.
Lemma ret_bind (a : A) (f : A -> ST sys B) s : ((mret a : ST sys A) ≫= f) s = f a s.
Proof. done. Qed.
Lemma bind_assoc {C} (m : ST sys A) (f : A -> ST sys B) (g : B -> ST sys C) s :
  ((m ≫= f) ≫= g) s = (m ≫= (fun a => f a ≫= g)) s.
Proof. unfold mbind, st_bind. by destruct (m s). Qed.
Lemma within_inv R (m : ST sys A) s a s' : within R m -> m s = (a, s') -> R s s'.
Proof. intros H E. specialize (H s). unfold exec in H. by rewrite E in H. Qed.
End runs.

Create Rewrite HintDb steps.
#[export] Hint Rewrite @gets_bind @modify_bind @ret_bind @bind_assoc : steps.

(** Run the statements at the head of hypothesis [H] whose effect is known. *)
Ltac steps H := unfold get, upd, check, emit, upd_params in H; autorewrite with steps in H; cbn [negb when] in H; autorewrite with steps in H.
(** Split the run in [H] after its first statement. *)
Ltac step H a s E := apply bind_inv in H as (a & s & E & H).

(** ** What talking to the outside leaves alone *)

Definition fault_ev (e : sc_ev) : bool := match e with AssertFailed | NullProgmodel | BadFree => true | _ => false end.

Record talks_only (s s' : sys) : Prop := {
  oa_scan : scan s' = scan s; oa_flctrl : flctrl s' = flctrl s; oa_cache : bss_cache s' = bss_cache s;
  oa_abmgr : abmgr s' = abmgr s; oa_live : pm_live s' = pm_live s; oa_held : held s' = held s;
  oa_cfm : cfm_due s' = cfm_due s; oa_timer : pause_timer s' = pause_timer s; oa_tasks : tasks s' = tasks s;
  oa_turn : (turn s <= turn s')%nat;
  oa_log : exists l, sc_log s' = l ++ sc_log s /\ Forall (fun e => fault_ev e = false) l
}.

#[export] Instance talks_only_preorder : PreOrder talks_only.
Proof.
  split.
  - intros s. split; try done. by exists [].
  - intros s1 s2 s3 [A1 A2 A3 A4 A5 A6 A7 A8 A9 A10 (l1 & A11 & A12)] [B1 B2 B3 B4 B5 B6 B7 B8 B9 B10 (l2 & B11 & B12)].
    split; try congruence; [lia|]. exists (l2 ++ l1). rewrite B11, A11, app_assoc. split; [done|]. by apply Forall_app.
Qed.

Section asking.
Context (env : scan_env).

Lemma asked_only q s : talks_only s (asked env q s).
Proof. split; try done; cbn; [lia|]. eexists [_]. split; [done|]. by repeat constructor. Qed.

Lemma within_ask q : within talks_only (ask env q).
Proof. intros s. apply asked_only. Qed.

Lemma within_get {A} (f : mtlk_scan -> A) : within talks_only (get f).
Proof. intros s. change (talks_only s s). reflexivity. Qed.

Lemma within_ps on : within talks_only (modify (put_ps_on on)).
Proof. intros s. split; try done. by exists []. Qed.

#[local] Hint Resolve within_ask within_get within_ps : wave.

Ltac asks := repeat first
  [ apply within_bind; [apply _| |intros ?] | apply within_if | apply within_ret, _ | solve [eauto with wave] | case_match ].

Lemma send_ps_only on : within talks_only (send_ps_req env on).
Proof. unfold send_ps_req. asks. Qed.

(** Where the programming model of a band is. *)
Definition loaded (s : sys) (band : Z) : option Z := mjoin (progmodels (scan s) !! Z.to_nat band).

Lemma run_ask {B} q (k : Z -> ST sys B) s : exec (ask env q ≫= k) s = exec (k (oracle env (turn s) q)) (asked env q s).
Proof. done. Qed.

(** Both functions that load a model only ask, where the model exists. *)
Lemma model_asks pm (q : ask_t) : within talks_only
  (loaded ← ask env (QIsLoaded pm);
   res ← (if loaded =? 0 then ask env (QLoadToHw pm) else mret MTLK_ERR_OK);
   if negb (res =? MTLK_ERR_OK) then mret res else ask env q).
Proof. asks. Qed.

Lemma load_only s : is_Some (loaded s (cur_band (scan s))) -> talks_only s (exec (load_and_configure_progmodel env) s).
Proof.
  intros [pm Hpm]. unfold load_and_configure_progmodel, with_progmodel, get. rewrite !run_gets. cbv beta.
  change (mjoin _) with (loaded s (cur_band (scan s))). rewrite Hpm. apply model_asks.
Qed.

Lemma switch_back_only s : 0 <= u8 (oracle env (turn s) QFreqBandCur) < 2 -> is_background (params (scan s)) = true ->
  is_Some (loaded s (u8 (oracle env (turn s) QFreqBandCur))) -> talks_only s (exec (switch_back_progmodel env) s).
Proof.
  intros Hb Hbg [pm Hpm]. unfold switch_back_progmodel, with_progmodel, get, check. rewrite run_ask. cbv beta zeta.
  rewrite (proj2 (Z.ltb_lt _ MTLK_HW_BAND_BOTH)) by (unfold MTLK_HW_BAND_BOTH; lia). cbn [negb when]. rewrite run_ret, run_gets.
  change (scan (asked _ _ _)) with (scan s). rewrite Hbg. cbn [negb when]. rewrite run_ret, run_gets.
  change (mjoin _) with (loaded s (u8 (oracle env (turn s) QFreqBandCur))). rewrite Hpm.
  etransitivity; [apply asked_only|apply model_asks].
Qed.
End asking.

(** ** The invariant *)

Definition owed (s : sys) : Z := Z.of_nat (cfm_due s) + Z.b2z (pause_timer s) + Z.of_nat (tasks s).

Definition no_faults (s : sys) : Prop := Forall (fun e => fault_ev e = false) (sc_log s).

Lemma owed_zero s : owed s = 0 <-> cfm_due s = 0%nat /\ pause_timer s = false /\ tasks s = 0%nat.
Proof. unfold owed. destruct (pause_timer s); cbn [Z.b2z]; intuition (lia || done). Qed.

(** Every programming model that is allocated is referenced, once. *)
Definition pms_ok (s : sys) : Prop := exists a b,
  progmodels (scan s) = [a; b] /\ pm_live s = list_to_set (option_list a ++ option_list b) /\ (a = b -> a = None) /\
  forall p, p ∈ pm_live s -> p <= Z.of_nat (turn s).

Definition stop_bit (s : sys) : Prop := exists i, flctrl_id (scan s) = bit i /\ i ∈ bits (stop_requests_mask (flctrl s)).

(** The flags of the abilities a station has: some depend on whether it scans. *)
Definition sta_flags (env : scan_env) (idle : bool) (m : gmap Z bool) : Prop :=
  vap_is_ap env = false ->
  m !! MTLK_CORE_REQ_START_SCANNING = Some true /\
  m !! MTLK_CORE_REQ_GET_SCAN_CFG = Some idle /\ m !! MTLK_CORE_REQ_SET_SCAN_CFG = Some idle.
Definition sta_registered (env : scan_env) (m : gmap Z bool) : Prop :=
  vap_is_ap env = false -> forall id, id ∈ _scan_abilities -> is_Some (m !! id).

Section inv.
Context (env : scan_env).

(** What no operation on an initialised object breaks. *)
Record base_ok (s : sys) : Prop := {
  bo_id : exists i, (i < 32)%nat /\ flctrl_id (scan s) = bit i;
  bo_word : word (stop_requests_mask (flctrl s));
  bo_pms : pms_ok s;
  bo_cache : exists lent, cache_ok lent (bss_cache s);
  bo_ab : ab_ok (abmgr s);
  bo_reg : sta_registered env (ab_map (abmgr s));
  bo_interf : vap_is_ap env = false -> is_interf_enabled (interf_params (scan s)) = false;
  bo_log : no_faults s
}.

Definition bands_ok (c : mtlk_scan) : Prop :=
  0 <= cur_band c < 2 /\ (orig_band c = MTLK_HW_BAND_BOTH \/ orig_band c = cur_band c) /\
  (next_band c = MTLK_HW_BAND_NONE \/ next_band c = MTLK_HW_BAND_2_4_GHZ /\ orig_band c = MTLK_HW_BAND_BOTH).

(** The models of every band that is or will be scanned are there. *)
Definition models_ok (s : sys) : Prop :=
  if must_load_progmodels (scan s)
  then forall b, 0 <= b < 2 -> orig_band (scan s) = MTLK_HW_BAND_BOTH \/ orig_band (scan s) = b -> is_Some (loaded s b)
  else progmodels (scan s) = [None; None].

(** A band whose model a background scan needs to switch back to. *)
Definition covers (band : Z) : Prop :=
  forall n, 0 <= u8 (oracle env n QFreqBandCur) < 2 /\ (band = MTLK_HW_BAND_BOTH \/ band = u8 (oracle env n QFreqBandCur)).
Definition background_ok (c : mtlk_scan) : Prop := is_background (params c) = true -> covers (orig_band c).

(** The data is stopped while a request is in flight, and afterwards only when
    the confirmation timed out. *)
Definition stop_ok (s : sys) : Prop :=
  (cfm_due s = 1%nat -> stop_bit s) /\ (stop_bit s -> cfm_due s = 1%nat \/ is_cfm_timeout (scan s) = true).

Lemma stop_ok_none s : owed s = 0 -> (stop_bit s -> is_cfm_timeout (scan s) = true) -> stop_ok s.
Proof. intros (Hc & _)%owed_zero Hs. split; [intros H; congruence|auto]. Qed.

Record busy (s : sys) : Prop := {
  bu_base : base_ok s;
  bu_running : is_running (scan s) = true;
  bu_completed : completed (scan s) = false;
  bu_bands : bands_ok (scan s);
  bu_models : models_ok s;
  bu_background : background_ok (scan s);
  bu_flags : sta_flags env false (ab_map (abmgr s))
}.
(** In the middle of a function of the serializer's thread. *)
Definition between (s : sys) : Prop := busy s /\ owed s = 0 /\ stop_ok s.
(** A chunk or a pause is under way. *)
Definition waiting (s : sys) : Prop := busy s /\ owed s = 1 /\ stop_ok s.
Record idle (s : sys) : Prop := {
  id_base : base_ok s;
  id_running : is_running (scan s) = false;
  id_owed : owed s = 0;
  id_models : progmodels (scan s) = [None; None];
  id_stop : stop_ok s;
  id_flags : sta_flags env true (ab_map (abmgr s))
}.

(** ** Asking keeps them *)

Lemma no_faults_cons e s : fault_ev e = false -> no_faults s -> no_faults (put_sc_log (e :: sc_log s) s).
Proof. intros H1 H2. by constructor. Qed.

Lemma asked_no_faults s s' : talks_only s s' -> no_faults s -> no_faults s'.
Proof.
  intros [_ _ _ _ _ _ _ _ _ _ (l & El & Hl)] H. unfold no_faults. rewrite El. apply Forall_app. split; [|done].
  done.
Qed.

Lemma asked_base s s' : talks_only s s' -> base_ok s -> base_ok s'.
Proof.
  intros Ha [B1 B2 B3 B4 B5 B6 B7 B8]. pose proof (asked_no_faults _ _ Ha B8) as Hf. destruct Ha as [A1 A2 A3 A4 A5 A6 A7 A8 A9 A10 _].
  split; rewrite ?A1, ?A2, ?A3, ?A4; try done. destruct B3 as (a & b & P1 & P2 & P3 & P4). exists a, b. rewrite A1, A5.
  split_and!; try done. intros p Hp. specialize (P4 p Hp). lia.
Qed.

Lemma asked_busy s s' : talks_only s s' -> busy s -> busy s'.
Proof.
  intros Ha [H1 H2 H3 H4 H5 H6 H7]. pose proof (asked_base _ _ Ha H1) as Hb. destruct Ha as [A1 A2 A3 A4 A5 A6 A7 A8 A9 A10 _].
  split; unfold models_ok, loaded in *; rewrite ?A1, ?A4; done.
Qed.

Lemma asked_owed s s' : talks_only s s' -> owed s' = owed s.
Proof. intros [A1 A2 A3 A4 A5 A6 A7 A8 A9 A10 _]. unfold owed. by rewrite A7, A8, A9. Qed.

Lemma asked_stop s s' : talks_only s s' -> stop_ok s -> stop_ok s'.
Proof. intros [A1 A2 A3 A4 A5 A6 A7 A8 A9 A10 _]. unfold stop_ok, stop_bit. by rewrite A1, A2, A7. Qed.

Lemma asked_between s s' : talks_only s s' -> between s -> between s'.
Proof.
  intros Ha (H1 & H2 & H3). split; [by eapply asked_busy|]. split; [by rewrite (asked_owed _ _ Ha)|by eapply asked_stop].
Qed.

Lemma asked_stop_bit s s' : talks_only s s' -> stop_bit s -> stop_bit s'.
Proof. intros [A1 A2 A3 A4 A5 A6 A7 A8 A9 A10 _]. unfold stop_bit. by rewrite A1, A2. Qed.

(** ** Stopping and starting the data *)

Lemma stop_word s : base_ok s -> word (stop_requests_mask (mtlk_flctrl_stop_data (flctrl_id (scan s)) (flctrl s))).
Proof.
  intros [(i & Hi & E) Hw _ _ _ _ _ _]. unfold mtlk_flctrl_stop_data. rewrite E, bit_u32 by done.
  destruct (_ =? 0); cbn; auto with wave.
Qed.

Lemma stop_sets s : base_ok s -> stop_bit (put_flctrl (mtlk_flctrl_stop_data (flctrl_id (scan s)) (flctrl s)) s).
Proof.
  intros [(i & Hi & E) _ _ _ _ _ _ _]. exists i. split; [exact E|]. cbn [flctrl put_flctrl]. unfold mtlk_flctrl_stop_data. rewrite E, bit_u32 by done.
  destruct (_ =? 0); cbn [stop_requests_mask fl_set_mask fl_call]; rewrite bits_lor, bits_bit by done; set_solver.
Qed.

Lemma start_word s : base_ok s -> word (stop_requests_mask (mtlk_flctrl_start_data (flctrl_id (scan s)) (flctrl s))) /\
  ~ stop_bit (put_flctrl (mtlk_flctrl_start_data (flctrl_id (scan s)) (flctrl s)) s).
Proof.
  intros [(i & Hi & E) Hw _ _ _ _ _ _]. unfold mtlk_flctrl_start_data, stop_bit. rewrite E, bit_u32 by done. cbn [stop_requests_mask fl_set_mask].
  assert (word (Z.ldiff (stop_requests_mask (flctrl s)) (bit i))) as Hw' by auto with wave.
  split; [destruct (_ =? 0); done|]. cbn [scan put_flctrl flctrl]. rewrite E. intros (j & Ej%bit_inj & Hj). subst j.
  assert (i ∈ bits (Z.ldiff (stop_requests_mask (flctrl s)) (bit i))) as Hj' by (by destruct (_ =? 0)).
  rewrite bits_ldiff, bits_bit in Hj' by done. set_solver.
Qed.
End inv.

(** * What each scan function does to the invariant *)

Section ops.
Context (env : scan_env).

Lemma talks_ask q s r s' : ask env q s = (r, s') -> r = oracle env (turn s) q /\ s' = asked env q s /\ talks_only s s'.
Proof. intros [= <- <-]. split_and!; try done. apply asked_only. Qed.

(** In the middle of a chunk: the data is stopped, nothing is owed yet. *)
Definition in_chunk (s : sys) : Prop := busy env s /\ owed s = 0.

Lemma asked_in_chunk s s' : talks_only s s' -> in_chunk s -> in_chunk s'.
Proof. intros Ha [H1 H2]. split; [by eapply asked_busy|by rewrite (asked_owed _ _ Ha)]. Qed.

(** A change of the flow control object only. *)
Lemma busy_flctrl f s : word (stop_requests_mask f) -> busy env s -> busy env (put_flctrl f s).
Proof. intros Hw [[B1 B2 B3 B4 B5 B6 B7 B8] H2 H3 H4 H5 H6 H7]. by split. Qed.

Lemma start_between s : in_chunk s ->
  between env (put_flctrl (mtlk_flctrl_start_data (flctrl_id (scan s)) (flctrl s)) s).
Proof.
  intros [Hb Ho]. destruct (start_word env s (bu_base _ _ Hb)) as [Hw Hn]. split; [by apply busy_flctrl|].
  split; [done|]. apply stop_ok_none; [done|]. by intros Hs%Hn.
Qed.

Lemma stop_in_chunk s : between env s -> in_chunk (put_flctrl (mtlk_flctrl_stop_data (flctrl_id (scan s)) (flctrl s)) s).
Proof.
  intros (Hb & Ho & _). split; [|done]. apply busy_flctrl; [|done]. apply (stop_word env), Hb.
Qed.

Lemma err_send_spec res s r s' : in_chunk s -> err_send_ps_req res s = (r, s') ->
  r = res /\ between env s' /\ scan s' = scan s.
Proof. intros Hs H. unfold err_send_ps_req, start_data in H. steps H. apply ret_inv in H as [-> ->]. split_and!; try done. by apply start_between. Qed.

Lemma err_scan_spec res s r s' : in_chunk s -> err_scan env res s = (r, s') ->
  r = res /\ between env s' /\ scan s' = scan s.
Proof.
  intros Hs H. unfold err_scan in H. steps H. step H a s1 E.
  assert (talks_only s s1) as Ha.
  { destruct (is_background _); [by apply (within_inv _ _ _ _ _ (send_ps_only env false) E)|].
    apply ret_inv in E as [_ ->]. reflexivity. }
  destruct (err_send_spec res s1 r s') as (-> & Hb & Es); [by eapply asked_in_chunk|done|].
  split_and!; try done. by rewrite Es, (oa_scan _ _ Ha).
Qed.

(** A chunk: it is under way, or everything is as before and the data runs. *)
Lemma next_chunk_spec s r s' : between env s -> scan_next_chunk env s = (r, s') ->
  (r = MTLK_ERR_OK /\ waiting env s' /\ cfm_due s' = 1%nat /\
     exists n, scan s' = set_ch_offset (u8 (oracle env n (QChOffset (ch_offset (scan s))))) (scan s)) \/
  (r <> MTLK_ERR_OK /\ between env s' /\ scan s' = scan s).
Proof.
  intros Hs H. unfold scan_next_chunk, stop_data in H. steps H.
  pose proof (stop_sets _ _ (bu_base _ _ (proj1 Hs))) as Hbit. apply stop_in_chunk in Hs. set (s1 := put_flctrl _ s) in *.
  change (scan s) with (scan s1). step H ps s2 E2.
  assert (talks_only s1 s2) as Ha2.
  { destruct (is_background _); [by apply (within_inv _ _ _ _ _ (send_ps_only env true) E2)|]. apply ret_inv in E2 as [_ ->]. reflexivity. }
  assert (in_chunk s2) as H2 by (by eapply asked_in_chunk). rewrite <-(oa_scan _ _ Ha2).
  destruct (Z.eqb_spec ps MTLK_ERR_OK) as [->|Hps]; cbn [negb] in H; cycle 1.
  { right. apply err_send_spec in H as (-> & Hb & Es); [|done]. done. }
  steps H. step H ld s3 E3. assert (talks_only s2 s3) as Ha3.
  { destruct (must_load_progmodels (scan s2)) eqn:Em; [|apply ret_inv in E3 as [_ ->]; reflexivity].
    pose proof (load_only env s2) as Hl. unfold exec in Hl. rewrite E3 in Hl. apply Hl. destruct H2 as [[B1 B2 B3 [B4 [B5 B5']] B6 B7 B8] _].
    unfold models_ok in B6. rewrite Em in B6. apply B6; [done|]. tauto. }
  assert (in_chunk s3) as H3 by (by eapply asked_in_chunk). rewrite <-(oa_scan _ _ Ha3).
  destruct (Z.eqb_spec ld MTLK_ERR_OK) as [->|Hld]; cbn [negb] in H; cycle 1.
  { right. apply err_scan_spec in H as (-> & Hb & Es); [|done]. done. }
  step H sd s4 E4. unfold send_scan_req in E4. step E4 q s5 E5. apply talks_ask in E5 as (_ & _ & Ha5).
  assert (in_chunk s5) as H5 by (by eapply asked_in_chunk). rewrite <-(oa_scan _ _ Ha5).
  destruct (Z.eqb_spec q MTLK_ERR_OK) as [->|Hq]; cbn [when] in E4; cycle 1.
  { steps E4. apply ret_inv in E4 as [-> ->]. rewrite (proj2 (Z.eqb_neq _ _) Hq) in H. cbn [negb] in H. right.
    apply err_scan_spec in H as (-> & Hb & Es); [|done]. done. }
  left. steps E4. step E4 off s6 E6. apply talks_ask in E6 as (-> & _ & Ha6). steps E4. apply ret_inv in E4 as [-> ->].
  cbn [Z.eqb negb MTLK_ERR_OK] in H. apply ret_inv in H as [-> ->].
  assert (in_chunk s6) as [Hb6 Ho6] by (by eapply asked_in_chunk). split; [done|]. rewrite <-(oa_scan _ _ Ha6).
  pose proof (proj1 (owed_zero _) Ho6) as (Hc & Hp & Ht). split; [|split; [by cbn; rewrite Hc|by exists (turn s5)]].
  split; [|split; [by unfold owed; cbn; rewrite Hc, Hp, Ht|]].
  2: { split; [intros _|intros _; left; by cbn; rewrite Hc]. change (stop_bit s6). by do 4 (eapply asked_stop_bit; [eassumption|]). }
  destruct Hb6 as [[B1 B2 B3 B4 B5 B6 B7 B8] H2' H3' H4 H5' H6 H7]. by split.
Qed.

(** ** Abilities *)

Definition ab_set_states (b : bool) (ids : list Z) (a : mtlk_abmgr_t) : mtlk_abmgr_t :=
  foldl (fun a id => _mtlk_abmgr_set_ability_state id b a) a ids.

Lemma ab_states_spec b ids a : ab_ok a -> (forall id, id ∈ ids -> is_Some (ab_map a !! id)) ->
  ab_ok (ab_set_states b ids a) /\
  forall k, ab_map (ab_set_states b ids a) !! k = if decide (k ∈ ids) then Some b else ab_map a !! k.
Proof.
  unfold ab_set_states. revert a. induction ids as [|id ids IH]; intros a Ha Hr; [by split|]. cbn [foldl].
  destruct (Hr id) as [b0 Hb0]; [by left|]. destruct (ab_set_state_spec a id b b0 Ha Hb0) as (H1 & H2 & _).
  destruct (IH _ H1) as [H3 H4].
  { intros id' Hid. rewrite H2. destruct (decide (id' = id)) as [->|Hne]; [by rewrite lookup_insert_eq|].
    rewrite lookup_insert_ne by done. apply Hr. by right. }
  split; [done|]. intros k. rewrite H4, H2. destruct (decide (k ∈ ids)); [by rewrite decide_True by (by right)|].
  destruct (decide (k = id)) as [->|Hne]; [rewrite lookup_insert_eq, decide_True; [done|by left]|].
  rewrite lookup_insert_ne, decide_False by (rewrite ?elem_of_cons; naive_solver). done.
Qed.

(** Disabling the abilities of a station and enabling some of them. *)
Lemma set_abilities_spec on s : sta_registered env (ab_map (abmgr s)) -> ab_ok (abmgr s) ->
  (forall id, id ∈ on -> id ∈ _scan_abilities) ->
  let a := if vap_is_ap env then abmgr s
           else mtlk_abmgr_enable_ability_set on (mtlk_abmgr_disable_ability_set _scan_abilities (abmgr s)) in
  ab_ok a /\ sta_registered env (ab_map a) /\
  (vap_is_ap env = false -> forall id, id ∈ _scan_abilities -> ab_map a !! id = Some (bool_decide (id ∈ on))).
Proof.
  intros Hr Ha Hon. destruct (vap_is_ap env) eqn:Ev; [by split_and!; try done; intros H; rewrite Ev in H|]. cbv zeta.
  change (mtlk_abmgr_disable_ability_set _scan_abilities (abmgr s)) with (ab_set_states false _scan_abilities (abmgr s)).
  destruct (ab_states_spec false _scan_abilities (abmgr s) Ha (Hr Ev)) as [H1 H2]. set (a1 := ab_set_states _ _ _) in *.
  change (mtlk_abmgr_enable_ability_set on a1) with (ab_set_states true on a1).
  destruct (ab_states_spec true on a1 H1) as [H3 H4]; [intros id Hid; rewrite H2, decide_True by auto; eauto|].
  assert (forall id, id ∈ _scan_abilities -> ab_map (ab_set_states true on a1) !! id = Some (bool_decide (id ∈ on))) as Hf.
  { intros id Hid. rewrite H4. case_decide as Hd; [by rewrite bool_decide_true|]. by rewrite H2, decide_True, bool_decide_false. }
  split; [done|]. split; [|auto]. intros _ id Hid. rewrite Hf; eauto.
Qed.

Lemma idle_flags a : (vap_is_ap env = false -> forall id, id ∈ _scan_abilities -> ab_map a !! id = Some (bool_decide (id ∈ _scan_abilities))) ->
  sta_flags env true (ab_map a).
Proof. intros H Hv. specialize (H Hv). split_and!; rewrite H by (unfold _scan_abilities; rewrite !elem_of_cons; tauto); reflexivity. Qed.

Lemma active_flags a : (vap_is_ap env = false -> forall id, id ∈ _scan_abilities -> ab_map a !! id = Some (bool_decide (id ∈ _scan_active_abilities))) ->
  sta_flags env false (ab_map a).
Proof. intros H Hv. specialize (H Hv). split_and!; rewrite H by (unfold _scan_abilities; rewrite !elem_of_cons; tauto); reflexivity. Qed.

(** ** Programming models *)

Lemma put_live_id s : put_pm_live (pm_live s) (put_scan (set_progmodels (progmodels (scan s)) (scan s)) s) = s.
Proof. by destruct s as [[]]. Qed.

Lemma delete_one_run i s p : progmodels (scan s) !! i = Some p -> (forall pm, p = Some pm -> pm ∈ pm_live s) ->
  exec (delete_one i) s = put_pm_live (pm_live s ∖ list_to_set (option_list p))
    (put_scan (set_progmodels (<[i := None]> (progmodels (scan s))) (scan s)) s).
Proof.
  intros Hp Hl. unfold delete_one, get, upd, emit. rewrite run_gets. replace (mjoin (progmodels (scan s) !! i)) with p by (by rewrite Hp).
  destruct p as [pm|].
  - rewrite run_gets, bool_decide_true by auto. cbn [negb when]. rewrite run_ret, run_modify, run_end_modify.
    by replace (list_to_set (option_list (Some pm))) with ({[pm]} : gset Z) by set_solver.
  - rewrite run_end_ret. replace (pm_live s ∖ list_to_set (option_list None)) with (pm_live s) by set_solver.
    by rewrite (list_insert_id _ _ _ Hp), put_live_id.
Qed.

Lemma delete_spec s r s' : pms_ok s -> delete_progmodels s = (r, s') ->
  s' = put_pm_live ∅ (put_scan (set_progmodels [None; None] (scan s)) s).
Proof.
  intros (a & b & E1 & E2 & E3 & _) H. assert (s' = exec delete_progmodels s) as -> by (unfold exec; by rewrite H). clear H r.
  unfold delete_progmodels. cbn [seq for_each]. rewrite exec_bind, (delete_one_run 0 s a), E1.
  - set (s1 := put_pm_live _ _). rewrite exec_bind, (delete_one_run 1 s1 b), run_end_ret.
    + unfold s1. cbn -[difference list_to_set option_list]. rewrite E2, list_to_set_app_L.
      destruct s. unfold put_pm_live, put_scan, set_progmodels. cbn -[difference list_to_set option_list]. f_equal. set_solver.
    + done.
    + intros pm ->. unfold s1. cbn -[difference list_to_set]. rewrite E2. cbn [option_list]. rewrite elem_of_difference, !elem_of_list_to_set.
      destruct a as [a|]; cbn; set_unfold; naive_solver.
  - by rewrite E1.
  - intros pm ->. rewrite E2. cbn [option_list]. rewrite elem_of_list_to_set, elem_of_app. left. by left.
Qed.

(** ** The end of a scan *)

(** A scan that is about to end, from wherever. *)
Record ending (s : sys) : Prop := {
  en_base : base_ok env s;
  en_running : is_running (scan s) = true;
  en_owed : owed s = 0;
  en_stop : stop_ok s;
  en_models : must_load_progmodels (scan s) = false -> progmodels (scan s) = [None; None]
}.

Lemma between_ending s : between env s -> ending s.
Proof.
  intros ([H1 H2 H3 H4 H5 H6 H7] & Ho & Hs). split; try done. intros Hm. unfold models_ok in H5. by rewrite Hm in H5.
Qed.

(** [base_ok] looks at these parts of a state. *)
Lemma base_ext s s' : base_ok env s ->
  flctrl_id (scan s') = flctrl_id (scan s) -> flctrl s' = flctrl s -> progmodels (scan s') = progmodels (scan s) -> pm_live s' = pm_live s ->
  (turn s <= turn s')%nat -> bss_cache s' = bss_cache s -> abmgr s' = abmgr s -> interf_params (scan s') = interf_params (scan s) ->
  no_faults s' -> base_ok env s'.
Proof.
  intros [B1 B2 B3 B4 B5 B6 B7 B8] E1 E2 E3 E4 E5 E6 E7 E8 E9. split; rewrite ?E1, ?E2, ?E6, ?E7, ?E8; try done.
  destruct B3 as (a & b & P1 & P2 & P3 & P4). exists a, b. rewrite E3, E4. split_and!; try done. intros p Hp. specialize (P4 p Hp). lia.
Qed.

Lemma base_no_models s : base_ok env s -> base_ok env (put_pm_live ∅ (put_scan (set_progmodels [None; None] (scan s)) s)).
Proof. intros [B1 B2 B3 B4 B5 B6 B7 B8]. split; try done. exists None, None. split_and!; try done. Qed.

Lemma finished_spec s r s' : ending s -> scan_finished env s = (r, s') ->
  r = MTLK_ERR_OK /\ idle env s' /\ completed (scan s') = true.
Proof.
  intros [Hb Hr Ho Hs Hm] H. unfold scan_finished in H. steps H. step H u s1 E1.
  assert (s1 = if must_load_progmodels (scan s) then put_pm_live ∅ (put_scan (set_progmodels [None; None] (scan s)) s) else s) as Es1.
  { destruct (must_load_progmodels (scan s)); cbn [when] in E1; [by eapply delete_spec; [apply Hb|]|by apply ret_inv in E1 as [_ ->]]. }
  assert (base_ok env s1 /\ progmodels (scan s1) = [None; None] /\ is_running (scan s1) = true /\ owed s1 = 0 /\ stop_ok s1) as (Hb1 & Hp1 & Hr1 & Ho1 & Hs1).
  { rewrite Es1. destruct (must_load_progmodels (scan s)); [|by auto]. split_and!; try done. by apply base_no_models. }
  clear E1 Es1 Hb Hr Ho Hs Hm. steps H. rewrite Hr1 in H. cbn [negb when] in H. rewrite ret_bind in H.
  step H u2 s2 E2. assert (exists p, s2 = put_scan (set_params p (set_is_running false (scan s1))) s1) as (p & ->).
  { unfold mtlk_scan_set_essid, check, upd_params, upd in E2. destruct (vap_is_ap env); cbn [negb when] in E2.
    - apply ret_inv in E2 as [_ ->]. exists (params (scan s1)). destruct s1 as [sc]. by destruct sc.
    - rewrite ret_bind in E2. injection E2 as _ <-. by eexists. }
  steps H. unfold _mtlk_scan_abilities_set_idle, abilities in H.
  pose proof (set_abilities_spec _scan_abilities s1 (bo_reg _ _ Hb1) (bo_ab _ _ Hb1) (fun _ H => H)) as (A1 & A2 & A3%idle_flags).
  step H u3 s3 E3. set (a := if vap_is_ap env then _ else _) in *.
  assert (exists l, s3 = put_abmgr a (put_sc_log (NotifyScanComplete :: l) (put_scan (set_completed true (set_params p (set_is_running false (scan s1)))) s1)) /\
    l = sc_log s1) as (l & -> & El).
  { exists (sc_log s1). split; [|done]. unfold a. destruct (vap_is_ap env); cbn [negb when] in E3; [apply ret_inv in E3 as [_ ->]; by destruct s1|].
    steps E3. by injection E3 as _ <-. }
  rewrite gets_bind in H. destruct (scan_completed_notification _) as [cb|]; unfold emit in H; steps H; apply ret_inv in H as [-> ->];
    (split; [done|]; split; [|done]; split; try done; destruct Hb1 as [B1 B2 B3 B4 B5 B6 B7 B8]; split; try done; unfold no_faults; cbn; rewrite El;
     repeat constructor; done).
Qed.
End ops.
