(* ===== verification/ScanBands.v ===== *)
(** * ScanBands: from one band to the next, and how much is left to scan *)
From S2P Require Import Prelude HashInv Abmgr AbmgrThms Cache CacheInv CacheMap Flctrl ScanData Scan ScanInv.

(** What a scan leaves alone on its way through the bands. *)
Record same_scan (c c' : mtlk_scan) : Prop := {
  ss_params : params c' = params c; ss_orig : orig_band c' = orig_band c;
  ss_term : treminate_scan c' = treminate_scan c; ss_sync : is_synchronous c' = is_synchronous c;
  ss_chunk : chunk_scan_complete_event c' = chunk_scan_complete_event c; ss_init : initialized c' = initialized c;
  ss_must : must_load_progmodels c' = must_load_progmodels c
}.

#[export] Instance same_scan_preorder : PreOrder same_scan.
Proof. split; [by split|]. intros x y z [] []. split; congruence. Qed.

(** The chunks that may still be requested, when a band has at most [N]. *)
Definition later (N : Z) (c : mtlk_scan) : Z :=
  (if next_band c =? MTLK_HW_BAND_NONE then 0 else N) + (if rescan c then 2 * N else 0).
Definition chunks (N : Z) (c : mtlk_scan) : Z := Z.max 0 (vector_used c - ch_offset c) + later N c.

Section bands.
Context (env : scan_env).

(** Every request moves on in a vector of at most [N] channels. *)
Definition progressive (N : Z) : Prop :=
  (forall n, u16 (oracle env n QVectorUsed) <= N) /\
  (forall n off, 0 <= off < N -> off < u8 (oracle env n (QChOffset off))).

(** The vector came from the outside, and the offset is a byte. *)
Definition vector_ok (c : mtlk_scan) : Prop := (exists n, vector_used c = u16 (oracle env n QVectorUsed)) /\ 0 <= ch_offset c.

(** The scan has ended, or waits for a chunk with at most [B] more to come. *)
Definition outcome (B : Z -> Z) (c : mtlk_scan) (s' : sys) : Prop :=
  (idle env s' /\ completed (scan s') = true) \/
  (waiting env s' /\ cfm_due s' = 1%nat /\ vector_ok (scan s') /\ same_scan c (scan s') /\ forall N, progressive N -> chunks N (scan s') <= B N).

Lemma outcome_weaken (B B' : Z -> Z) c c' s' : (forall N, progressive N -> B N <= B' N) -> same_scan c' c -> outcome B c s' -> outcome B' c' s'.
Proof.
  intros HB Hc [H|(H1 & H2 & H3 & H4 & H5)]; [by left|right]. split_and!; try done; [by transitivity c|].
  intros N HN. specialize (H5 N HN). specialize (HB N HN). lia.
Qed.

(** What the result of a start says: success means that the first band is
    being scanned; an error does not mean that nothing is. *)
Definition band_result (c : mtlk_scan) (r : Z) (s' : sys) : Prop :=
  (r = MTLK_ERR_OK -> cfm_due s' = 1%nat /\ cur_band (scan s') = cur_band c) /\
  (cfm_due s' = 1%nat -> r = MTLK_ERR_OK \/ (r = MTLK_ERR_SCAN_FAILED /\ next_band c <> MTLK_HW_BAND_NONE /\ cur_band (scan s') = next_band c)).

Lemma result_idle c r s' : r <> MTLK_ERR_OK -> idle env s' -> band_result c r s'.
Proof. intros Hr Hi. split; [done|]. apply id_owed, owed_zero in Hi as (Hc & _). intros ?. congruence. Qed.

(** Fields of the scan that the invariant does not look at. *)
Definition bland (f : mtlk_scan -> mtlk_scan) : Prop := forall c,
  exists r o v l b, f c = set_rescan r (set_ch_offset o (set_vector_used v (set_last_timestamp l (set_treminate_scan b c)))).

Lemma bland_busy f s : bland f -> busy env s -> busy env (put_scan (f (scan s)) s).
Proof.
  intros Hf [[B1 B2 B3 B4 B5 B6 B7 B8] H2 H3 H4 H5 H6 H7]. destruct (Hf (scan s)) as (r & o & v & l & b & E). rewrite E. by split.
Qed.

Lemma bland_between f s : bland f -> between env s -> between env (put_scan (f (scan s)) s).
Proof.
  intros Hf (H1 & H2 & H3). split; [by apply bland_busy|]. split; [done|].
  destruct (Hf (scan s)) as (r & o & v & l & b & E). rewrite E. exact H3.
Qed.

Lemma bland_used v : bland (set_vector_used v).
Proof. intros c. exists (rescan c), (ch_offset c), v, (last_timestamp c), (treminate_scan c). by destruct c. Qed.
Lemma bland_offset o : bland (set_ch_offset o).
Proof. intros c. exists (rescan c), o, (vector_used c), (last_timestamp c), (treminate_scan c). by destruct c. Qed.
Lemma bland_timestamp l : bland (set_last_timestamp l).
Proof. intros c. exists (rescan c), (ch_offset c), (vector_used c), l, (treminate_scan c). by destruct c. Qed.
Lemma bland_rescan r : bland (set_rescan r).
Proof. intros c. exists r, (ch_offset c), (vector_used c), (last_timestamp c), (treminate_scan c). by destruct c. Qed.
Lemma bland_term b : bland (set_treminate_scan b).
Proof. intros c. exists (rescan c), (ch_offset c), (vector_used c), (last_timestamp c), b. by destruct c. Qed.

(** Two levels of the recursion are the fixpoint: more change nothing. *)
Lemma current_band_ext K K' s : next_band (scan s) = MTLK_HW_BAND_NONE ->
  (forall t, next_band (scan t) = MTLK_HW_BAND_NONE -> K t = K' t) -> scan_current_band_with env K s = scan_current_band_with env K' s.
Proof.
  intros Hn HK. unfold scan_current_band_with, scan_complete_with, get, upd. rewrite !gets_bind.
  unfold ask. unfold mbind, st_bind, modify. cbn -[scan_next_chunk Z.eqb u16 u32]. destruct (_ || _).
  - by rewrite HK.
  - destruct (scan_next_chunk env _) as [r t]. destruct (negb _); [|done]. by rewrite HK.
Qed.

Lemma coc_fixpoint n s : coc env (S (S n)) s = complete_or_continue env s.
Proof.
  unfold complete_or_continue. cbn [coc]. unfold get. rewrite !gets_bind. destruct (_ =? _); [done|].
  unfold scan_next_band_with, get, upd. rewrite !gets_bind, !modify_bind. apply current_band_ext; [done|]. intros t Ht.
  by rewrite !gets_bind, Ht.
Qed.

(** A continuation that ends the scan when no band is left. *)
Definition ends (K : ST sys Z) : Prop := forall s r s', ending env s -> next_band (scan s) = MTLK_HW_BAND_NONE ->
  K s = (r, s') -> r = MTLK_ERR_OK /\ idle env s' /\ completed (scan s') = true.

Lemma coc_ends n : ends (coc env (S n)).
Proof.
  intros s r s' Hs Hn H. cbn [coc] in H. steps H. rewrite Hn in H. change (MTLK_HW_BAND_NONE =? MTLK_HW_BAND_NONE) with true in H.
  by eapply finished_spec.
Qed.

Lemma complete_with_spec K s r s' : ends K -> ending env s -> scan_complete_with K s = (r, s') ->
  r = MTLK_ERR_OK /\ idle env s' /\ completed (scan s') = true.
Proof.
  intros HK [Hb Hr Ho Hs Hm] H. unfold scan_complete_with in H. steps H. eapply HK in H; [done| |done].
  split; try done. eapply base_ext; [exact Hb|done..|apply Hb].
Qed.

(** The first chunk of a band. [cost]: what may be left after the whole band. *)
Lemma current_band_spec K s r s' : between env s -> ends K ->
  (forall s1 r s', between env s1 -> (exists v, scan s1 = set_vector_used v (scan s)) -> K s1 = (r, s') ->
     outcome (fun N => later N (scan s) - 1) (scan s) s' /\ (cfm_due s' = 1%nat -> cur_band (scan s') = next_band (scan s))) ->
  scan_current_band_with env K s = (r, s') ->
  outcome (fun N => N - 1 + later N (scan s)) (scan s) s' /\ band_result (scan s) r s'.
Proof.
  intros Hs HK Hcont H. unfold scan_current_band_with in H. steps H. step H pr s1 E1. apply talks_ask in E1 as (_ & _ & Ha1).
  step H us s2 E2. apply talks_ask in E2 as (Eus & _ & Ha2). steps H. set (s3 := put_scan _ s2) in *.
  assert (scan s2 = scan s) as E2s by (by rewrite (oa_scan _ _ Ha2), (oa_scan _ _ Ha1)).
  assert (between env s3) as H3. { unfold s3. apply bland_between; [apply bland_used|]. by eapply asked_between, asked_between. }
  destruct (negb (pr =? MTLK_ERR_OK) || (u16 us =? 0)) eqn:Ef.
  { step H k s4 E4. apply ret_inv in H as [-> ->]. split; cycle 1.
    { destruct (decide (next_band (scan s) = MTLK_HW_BAND_NONE)) as [Hn|Hn]; [|].
      - apply result_idle; [done|]. apply HK in E4 as (_ & ? & _); [done|by apply between_ending|]. unfold s3. cbn. by rewrite E2s.
      - apply (Hcont s3 k s4) in E4 as [_ E4]; [|done|by exists (u16 us); unfold s3; cbn; rewrite E2s]. split; [done|]. right. auto. }
    apply (Hcont s3 k s4) in E4 as [E4 _]; [|done|by exists (u16 us); unfold s3; cbn; rewrite E2s].
    eapply outcome_weaken; [|reflexivity|exact E4]. intros N HN. cbn. destruct HN as [HN _]. specialize (HN (turn s)).
    pose proof (u16_range (oracle env (turn s) QVectorUsed)). lia. }
  apply orb_false_iff in Ef as [_ Hu%Z.eqb_neq]. steps H. set (s4 := put_scan _ s3) in *. step H t s5 E5. apply talks_ask in E5 as (_ & _ & Ha5).
  steps H. set (s6 := put_scan _ s5) in *. step H ch s7 E7.
  assert (between env s6) as H6. { unfold s6. apply bland_between; [apply bland_timestamp|]. eapply asked_between; [exact Ha5|].
    unfold s4. apply bland_between; [apply bland_offset|done]. }
  assert (exists t, scan s6 = set_last_timestamp t (set_ch_offset 0 (set_vector_used (u16 us) (scan s)))) as [t' E6].
  { exists (u32 t). unfold s6. cbn. rewrite (oa_scan _ _ Ha5). unfold s4, s3. cbn. by rewrite E2s. }
  apply next_chunk_spec in E7 as [(-> & Hw & Hd & n & En)|(Hne & Hb & En)]; [| |exact H6].
  - change (negb (MTLK_ERR_OK =? MTLK_ERR_OK)) with false in H. steps H. apply ret_inv in H as [-> ->]. split; [right|split; [intros _|by left]; split; [done|by rewrite En, E6]].
    split; [done|]. split; [done|]. rewrite En, E6. split; [split; [by exists (turn s1); subst us|apply u8_range]|]. split; [by split|]. intros N [N1 N2]. unfold chunks, later. cbn -[Z.mul Z.max]. subst us. specialize (N1 (turn s1)).
    pose proof (u16_range (oracle env (turn s1) QVectorUsed)). specialize (N2 n 0 ltac:(lia)).
    replace (next_band (scan s) =? MTLK_HW_BAND_NONE) with (next_band (scan s) =? 3) by done. lia.
  - rewrite (proj2 (Z.eqb_neq _ _) Hne) in H. cbn [negb] in H. step H k s8 E8. apply ret_inv in H as [-> ->].
    apply complete_with_spec in E8 as (_ & Hi); [split; [by left|apply result_idle; tauto]|done|by apply between_ending].
Qed.

(** The next band, when there is one. *)
Lemma coc_spec n s r s' : between env s -> coc env (S (S n)) s = (r, s') ->
  outcome (fun N => later N (scan s) - 1) (scan s) s' /\ (cfm_due s' = 1%nat -> cur_band (scan s') = next_band (scan s)).
Proof.
  intros Hs H. destruct (decide (next_band (scan s) = MTLK_HW_BAND_NONE)) as [Hn|Hn].
  { apply (coc_ends (S n)) in H as (_ & Hi & Hc); [|by apply between_ending|done]. split; [by left|]. apply id_owed, owed_zero in Hi as (Hz & _). intros ?. congruence. }
  cbn [coc] in H. steps H. rewrite (proj2 (Z.eqb_neq _ _) Hn) in H. unfold scan_next_band_with in H. steps H. set (s1 := put_scan _ _) in *.
  assert (between env s1) as H1.
  { destruct Hs as ([B1 B2 B3 (C1 & C2 & C3) B5 B6 B7] & Ho & Hst). destruct C3 as [?|[C3 C4]]; [done|]. split; [|done].
    destruct B1 as [D1 D2 D3 D4 D5 D6 D7 D8]. split; try done. unfold s1. split; cbn; [rewrite C3; done|]. split; [by left|by left]. }
  assert (later 0 (scan s1) = 0 /\ forall N, later N (scan s1) = later N (scan s) - N) as [_ El].
  { unfold later, s1. cbn -[Z.mul]. rewrite (proj2 (Z.eqb_neq _ _) Hn). split; [by destruct (rescan _)|intros N; lia]. }
  apply current_band_spec in H as [H [Hr1 Hr2]]; [|done|apply coc_ends|].
  - split; [|intros Hc; destruct (Hr2 Hc) as [Hr|(_ & Hr & _)]; [by destruct (Hr1 Hr)|done]]. apply (outcome_weaken (fun N => N - 1 + later N (scan s1)) _ (scan s1)); [|by split|exact H]. intros N _. rewrite El. lia.
  - intros s2 r2 s2' H2 [v Ev] HK. apply (coc_ends n) in HK as (_ & Hi & Hc); [|by apply between_ending|by rewrite Ev].
    split; [by left|]. apply id_owed, owed_zero in Hi as (Hz & _). intros ?. congruence.
Qed.

Lemma band_spec s r s' : between env s -> scan_current_band env s = (r, s') ->
  outcome (fun N => N - 1 + later N (scan s)) (scan s) s' /\ band_result (scan s) r s'.
Proof.
  intros Hs H. eapply current_band_spec; [exact Hs|apply (coc_ends 1)| |exact H]. intros s1 r1 s1' H1 [v Ev] HK.
  apply coc_spec in HK as [HK HK2]; [|done]. split; [|by rewrite Ev in HK2]. apply (outcome_weaken (fun N => later N (scan s1) - 1) _ (scan s1)); [|rewrite Ev; by split|exact HK]. intros N _. rewrite Ev. apply Z.le_refl.
Qed.

Lemma complete_spec s r s' : ending env s -> scan_complete env s = (r, s') ->
  r = MTLK_ERR_OK /\ idle env s' /\ completed (scan s') = true.
Proof. intros Hs H. eapply complete_with_spec; [apply (coc_ends 1)|exact Hs|exact H]. Qed.
End bands.

(** * Confirmations, pauses, starts, and the scan as a transition system *)

Section steps.
Context (env : scan_env).
Abbreviation vector_ok := (vector_ok env).

(** A bound on the events a scan still needs: three for a chunk that is not
    requested yet, its confirmation, timer and task. *)
Definition remaining (N : Z) (s : sys) : Z :=
  3 * chunks N (scan s) + 3 * Z.of_nat (cfm_due s) + 2 * Z.b2z (pause_timer s) + Z.of_nat (tasks s).

(** The scan has ended, or waits for something, fewer than [B] events from the end. *)
Definition moved (B : Z -> Z) (c : mtlk_scan) (s' : sys) : Prop :=
  (idle env s' /\ completed (scan s') = true) \/
  (waiting env s' /\ vector_ok (scan s') /\ same_scan c (scan s') /\ forall N, progressive env N -> remaining N s' < B N).

Lemma outcome_moved B c s' : outcome env B c s' -> moved (fun N => 3 * B N + 4) c s'.
Proof.
  intros [H|(H1 & H2 & H3 & H4 & H5)]; [by left|right]. split_and!; try done. intros N HN. specialize (H5 N HN).
  destruct H1 as (_ & Ho & _). unfold owed in Ho. unfold remaining. rewrite H2 in *. destruct (pause_timer s'); cbn [Z.b2z] in *; lia.
Qed.

Lemma outcome_cfm B c s' : outcome env B c s' -> idle env s' \/ cfm_due s' = 1%nat.
Proof. intros [[H _]|(_ & H & _)]; auto. Qed.

Lemma moved_weaken (B B' : Z -> Z) c c' s' : (forall N, progressive env N -> B N <= B' N) -> same_scan c' c -> moved B c s' -> moved B' c' s'.
Proof.
  intros HB Hc [H|(H1 & H2 & H3 & H4)]; [by left|right]. split_and!; try done; [by transitivity c|].
  intros N HN. specialize (H4 N HN). specialize (HB N HN). lia.
Qed.

Lemma clear_between s : between env s -> between env (put_bss_cache (mtlk_cache_clear (bss_cache s)) s).
Proof.
  intros ([[B1 B2 B3 [lent B4] B5 B6 B7 B8] H2 H3 H4 H5 H6 H7] & Ho & Hs). split; [|done]. split; try done. split; try done.
  exists lent. by apply clear_ok.
Qed.

Lemma setup_spec s r s' : between env s -> setup_scan_sequence s = (r, s') ->
  between env s' /\ same_scan (scan s) (scan s') /\ rescan (scan s') = rescan (scan s) /\ forall N, later N (scan s') <= N + (if rescan (scan s) then 2 * N else 0) \/ N < 0.
Proof.
  intros ([[B1 B2 B3 B4 B5 B6 B7 B8] H2 H3 (C1 & C2 & C3) H5 H6 H7] & Ho & Hs) H. unfold setup_scan_sequence in H. steps H.
  destruct (Z.eqb_spec (orig_band (scan s)) MTLK_HW_BAND_BOTH) as [E|E]; unfold upd in H; rewrite modify_bind in H; injection H as _ <-.
  - split; [split; [split; try done|done]|]. { split; [done|]. split; [by left|by right]. } split; [by split|]. split; [done|].
    intros N. unfold later. cbn -[Z.mul]. left. destruct (rescan _); lia.
  - split; [split; [split; try done|done]|].
    { split; [destruct C2 as [? | ->]; [done|exact C1]|]. split; [by right|by left]. }
    split; [by split|]. split; [done|]. intros N. unfold later. cbn -[Z.mul]. destruct (rescan _); lia.
Qed.

Lemma pause_elapsed_spec s r s' : between env s -> vector_ok (scan s) -> _mtlk_scan_handle_evt_pause_elapsed env s = (r, s') ->
  r = MTLK_ERR_OK /\ moved (fun N => 3 * chunks N (scan s) + 1) (scan s) s' /\ (idle env s' \/ cfm_due s' = 1%nat).
Proof.
  intros Hs Hv H. unfold _mtlk_scan_handle_evt_pause_elapsed in H. steps H. destruct (treminate_scan (scan s)).
  { step H k s1 E1. apply ret_inv in H as [-> ->]. split; [done|]. apply complete_spec in E1 as (_ & Hi); [split; left; tauto|by apply between_ending]. }
  steps H. destruct (rescan (scan s)) eqn:Er.
  - steps H. set (s1 := put_scan _ s) in *. step H u s2 E2. assert (between env s1) as H1 by (apply (bland_between env (set_rescan false)); [apply bland_rescan|done]).
    assert (between env s2 /\ scan s2 = scan s1) as [H2 Es2].
    { destruct (is_background _); cbn [negb when] in E2; [by apply ret_inv in E2 as [_ ->]|]. injection E2 as _ <-. split; [by apply (clear_between s1)|done]. }
    steps H. step H u2 s3 E3. apply setup_spec in E3 as (H3 & Hss & Hr3 & Hl); [|done]. steps H. step H k s4 E4. steps H. apply ret_inv in H as [-> ->].
    split; [done|]. apply band_spec in E4 as [E4 _]; [|done]. split; [|by eapply outcome_cfm]. apply outcome_moved in E4. eapply moved_weaken; [| |exact E4].
    + intros N [HN _]. cbn beta. assert (0 <= N) as HN0. { specialize (HN (turn s)). pose proof (u16_range (oracle env (turn s) QVectorUsed)). lia. }
      destruct (Hl N) as [Hl'|?]; [|lia]. rewrite Es2 in Hl'. unfold chunks, later at 2. rewrite Er. unfold s1 in Hl'. cbn -[later Z.mul] in Hl'.
      destruct (next_band (scan s) =? MTLK_HW_BAND_NONE); lia.
    + etransitivity; [|exact Hss]. rewrite Es2. by split.
  - steps H. destruct (Z.ltb_spec (ch_offset (scan s)) (vector_used (scan s))) as [Hlt|Hge].
    + unfold scan_remaining_channels in H. steps H. step H k s1 E1.
      apply next_chunk_spec in E1 as [(-> & Hw & Hd & n & En)|(Hne & Hb & En)]; [| |done].
      * change (negb (MTLK_ERR_OK =? MTLK_ERR_OK)) with false in H. steps H. apply ret_inv in H as [-> ->]. split; [done|]. split; [|by right].
        eapply moved_weaken; [| |apply (outcome_moved (fun N => chunks N (scan s) - 1) (scan s))]; [intros N _; cbn; lia|done|]. right.
        rewrite En. split; [done|]. split; [done|]. split; [split; [apply Hv|apply u8_range]|]. split; [by split|]. intros N [N1 N2].
        unfold chunks, later. cbn -[Z.mul Z.max]. destruct Hv as [[m Em] Ho]. specialize (N1 m). specialize (N2 n (ch_offset (scan s)) ltac:(lia)).
        replace (next_band (scan s) =? MTLK_HW_BAND_NONE) with (next_band (scan s) =? 3) by done. lia.
      * rewrite (proj2 (Z.eqb_neq _ _) Hne) in H. cbn [negb] in H. steps H. step H k2 s2 E2. steps H. apply ret_inv in H as [-> ->].
        split; [done|]. apply complete_spec in E2 as (_ & Hi); [split; left; tauto|by apply between_ending].
    + steps H. step H k s1 E1. steps H. apply ret_inv in H as [-> ->]. split; [done|]. apply (coc_spec env 0) in E1 as [E1 _]; [|done]. split; [|by eapply outcome_cfm]. apply outcome_moved in E1.
      eapply moved_weaken; [|reflexivity|exact E1]. intros N HN. unfold chunks. lia.
Qed.

(** ** Confirmations *)

Lemma leave_background_talks s r s' : busy env s -> leave_background env s = (r, s') -> talks_only s s'.
Proof.
  intros [H1 H2 H3 H4 H5 H6 H7] H. unfold leave_background in H. steps H. destruct (is_background (params (scan s))) eqn:Eb; cbn [negb] in H.
  2: { apply ret_inv in H as [_ ->]. reflexivity. }
  steps H. step H sb s1 E1. steps H. step H ps s2 E2. apply ret_inv in H as [_ ->].
  transitivity s1; [|by apply (within_inv _ _ _ _ _ (send_ps_only env false) E2)].
  destruct (must_load_progmodels (scan s)) eqn:Em; [|apply ret_inv in E1 as [_ ->]; reflexivity].
  specialize (H6 Eb (turn s)) as [Hr Hc]. pose proof (switch_back_only env s Hr Eb) as Hsw. unfold exec in Hsw. rewrite E1 in Hsw. apply Hsw.
  unfold models_ok in H5. rewrite Em in H5. by apply H5.
Qed.

(** What the confirmation changed before it is handled. *)
Lemma taken_spec t st s u s' : waiting env s -> cfm_due s = 1%nat -> confirm_taken t st s = (u, s') ->
  busy env s' /\ owed s' = 0 /\ is_cfm_timeout (scan s') = t /\ same_scan (scan s) (scan s') /\
  (vector_ok (scan s) -> vector_ok (scan s')) /\ forall N, chunks N (scan s') = chunks N (scan s).
Proof.
  intros ([[B1 B2 B3 B4 B5 B6 B7 B8] H2 H3 H4 H5 H6 H7] & Ho & Hs) Hd H. unfold confirm_taken, upd in H. steps H. injection H as _ <-.
  split; [by split|]. split; [|split; [done|]; split; [by split|]; by split; [intros Hv; exact Hv|]].
  unfold owed in *. cbn -[Z.of_nat Z.add]. rewrite Hd in *. cbn -[Z.of_nat Z.add]. lia.
Qed.

Lemma confirmed_spec st s r s' : busy env s -> owed s = 0 -> vector_ok (scan s) ->
  mtlk_scan_handle_evt_scan_confirmed env st s = (r, s') ->
  moved (fun N => 3 * chunks N (scan s) + 3) (scan s) s' /\
  (is_background (params (scan s)) && negb (pause_between_chunks (params (scan s)) =? 0) = false -> idle env s' \/ cfm_due s' = 1%nat).
Proof.
  intros Hb Ho Hv H. unfold mtlk_scan_handle_evt_scan_confirmed in H. steps H. destruct (is_cfm_timeout (scan s)) eqn:Et.
  { step H k s1 E1. apply ret_inv in H as [_ ->]. apply complete_spec in E1 as (_ & Hi & Hc).
    - split; by left.
    - apply between_ending. split; [done|]. split; [done|]. by apply stop_ok_none. }
  step H lb s1 E1. apply leave_background_talks in E1 as Ha; [|done]. destruct lb as [res err]. unfold start_data in H. steps H.
  set (s2 := put_flctrl _ s1) in *. assert (between env s2) as H2.
  { apply start_between. split; [by eapply asked_busy|by rewrite (asked_owed _ _ Ha)]. }
  assert (scan s2 = scan s) as Es2 by (apply (oa_scan _ _ Ha)). change (scan s1) with (scan s2) in H. rewrite Es2 in H.
  assert (forall K rr, (scan_complete env ;; (mret K : ST sys Z)) s2 = (rr, s') -> idle env s' /\ completed (scan s') = true) as Hend.
  { intros K rr HK. step HK k s3 E3. apply ret_inv in HK as [_ ->]. apply complete_spec in E3; [tauto|by apply between_ending]. }
  assert (idle env s' /\ completed (scan s') = true -> moved (fun N => 3 * chunks N (scan s) + 3) (scan s) s' /\
    (is_background (params (scan s)) && negb (pause_between_chunks (params (scan s)) =? 0) = false -> idle env s' \/ cfm_due s' = 1%nat)) as Hdone.
  { intros [Hi Hc]. split; by left. }
  destruct (treminate_scan (scan s) || err); [by eapply Hdone, Hend|]. destruct (negb (st =? UMI_OK)); [by eapply Hdone, Hend|]. clear Hend.
  step H u s3 E3. assert (between env s3 /\ scan s3 = scan s2) as [H3 Es3].
  { destruct (vap_is_master_ap env); cbn [when] in E3; [|by apply ret_inv in E3 as [_ ->]]. unfold emit in E3. rewrite modify_bind in E3. injection E3 as _ <-.
    split; [|done]. eapply asked_between; [|exact H2]. split; try done. eexists [_; _]. split; [done|]. by repeat constructor. }
  steps H. step H p s4 E4. apply ret_inv in H as [_ ->]. rewrite Es3, Es2 in E4.
  destruct (is_background (params (scan s)) && negb (pause_between_chunks (params (scan s)) =? 0)) eqn:Ep.
  - unfold upd in E4. rewrite modify_bind in E4. apply ret_inv in E4 as [_ ->]. split; [|done]. right.
    destruct H3 as (G1 & G2%owed_zero & G3). destruct G2 as (O1 & O2 & O3). destruct G1 as [[D1 D2 D3 D4 D5 D6 D7 D8] D9 D10 D11 D12 D13 D14].
    split; [split; [by split|split; [unfold owed; cbn; by rewrite O1, O3|done]]|]. cbn [scan put_pause_timer]. rewrite Es3, Es2. split; [done|]. split; [done|].
    intros N _. unfold remaining. cbn -[Z.mul Z.add chunks]. rewrite O1, O3, Es3, Es2. lia.
  - apply pause_elapsed_spec in E4 as (_ & E4 & E5); [|done|by rewrite Es3, Es2]. rewrite Es3, Es2 in E4. split; [|done].
    eapply moved_weaken; [|reflexivity|exact E4]. intros N _. cbn. lia.
Qed.

(** ** What the environment delivers *)

(** The serializer once refused the task that goes on after a pause. *)
Definition refused (s : sys) : Prop := exists r, r <> MTLK_ERR_OK /\ Asked QSchedule r ∈ sc_log s.

(** A scan that waits for one thing; or for nothing, after a refusal. *)
Record scanning (s : sys) : Prop := {
  sn_busy : busy env s;
  sn_stop : stop_ok s;
  sn_vector : vector_ok (scan s);
  sn_owed : owed s = 1 \/ owed s = 0 /\ refused s
}.
Definition settled (s : sys) : Prop := idle env s \/ scanning s.

Lemma moved_settled B c s' : moved B c s' -> settled s'.
Proof. intros [[H _]|((H1 & H2 & H3) & H4 & _)]; [by left|right]. split; auto. Qed.

(** Whether an event has something to deliver. *)
Definition due (e : sc_event) (s : sys) : bool :=
  match e with EvConfirm _ _ => (0 <? cfm_due s)%nat | EvTimer => pause_timer s | EvTask => (0 <? tasks s)%nat end.

Lemma not_due e s : due e s = false -> exec (deliver env e) s = s.
Proof. intros H. destruct e; cbn [due deliver] in *; rewrite run_gets, H; done. Qed.

Lemma owed_one s : owed s = 1 ->
  (cfm_due s = 1%nat /\ pause_timer s = false /\ tasks s = 0%nat) \/ (cfm_due s = 0%nat /\ pause_timer s = true /\ tasks s = 0%nat) \/
  (cfm_due s = 0%nat /\ pause_timer s = false /\ tasks s = 1%nat).
Proof. unfold owed. destruct (pause_timer s); cbn [Z.b2z]; intros; [right; left|destruct (cfm_due s); [right; right|left]]; intuition lia. Qed.

(** One event: it brings the scan closer to its end, or the serializer refuses the task. *)
Lemma deliver_due e s : waiting env s -> vector_ok (scan s) -> due e s = true ->
  let s' := exec (deliver env e) s in
  moved (fun N => remaining N s) (scan s) s' \/ (e = EvTimer /\ scanning s' /\ owed s' = 0 /\ oracle env (turn s) QSchedule <> MTLK_ERR_OK).
Proof.
  intros Hw Hv Hd s'. assert (Hw' := Hw). destruct Hw' as (Hb & Ho & Hs). pose proof (owed_one s Ho) as Hc.
  destruct e as [t st| |]; cbn [due] in Hd; unfold s'; cbn [deliver]; rewrite run_gets, Hd; cbn [when].
  - left. apply Nat.ltb_lt in Hd. destruct Hc as [(C1 & C2 & C3)|[(C1 & C2 & C3)|(C1 & C2 & C3)]]; [|lia|lia].
    rewrite exec_bind. destruct (confirm_taken t st s) as [u s1] eqn:E1. destruct (taken_spec _ _ _ _ _ Hw C1 E1) as (T1 & T2 & _ & T4 & T5 & T6).
    unfold exec at 2, eval. rewrite E1. cbn [fst snd]. rewrite exec_bind, run_end_ret.
    destruct (mtlk_scan_handle_evt_scan_confirmed env st s1) as [r s2] eqn:E2. unfold exec. rewrite E2. cbn [snd].
    apply confirmed_spec in E2 as [E2 _]; [|done..|by apply T5]. eapply moved_weaken; [|exact T4|exact E2]. intros N _. cbn.
    rewrite T6. unfold remaining. rewrite C1, C2, C3. cbn [Z.b2z]. lia.
  - destruct Hc as [(C1 & C2 & C3)|[(C1 & C2 & C3)|(C1 & C2 & C3)]]; [congruence| |congruence].
    rewrite run_modify. unfold pause_timer_handler. rewrite run_assoc, run_ask, run_assoc. set (s1 := put_pause_timer false s).
    set (s2 := asked env QSchedule s1). assert (busy env s2) as Hb2.
    { eapply asked_busy; [apply asked_only|]. destruct Hb as [[B1 B2 B3 B4 B5 B6 B7 B8] D2 D3 D4 D5 D6 D7]. by split. }
    destruct (Z.eqb_spec (oracle env (turn s1) QSchedule) MTLK_ERR_OK) as [E|E]; cbn [when].
    + left. right. rewrite run_modify, run_ret, run_end_ret. split; [split; [|split]|].
      * destruct Hb2 as [[B1 B2 B3 B4 B5 B6 B7 B8] D2 D3 D4 D5 D6 D7]. by split.
      * unfold owed. cbn. by rewrite C1, C3.
      * exact Hs.
      * split; [done|]. split; [by split|]. intros N _. unfold remaining. cbn -[Z.mul Z.add chunks]. rewrite C1, C2, C3. cbn -[Z.mul Z.add chunks]. lia.
    + right. rewrite run_ret, run_ret, run_end_ret. assert (refused s2) as Hr by (eexists; split; [exact E|by left]).
      assert (owed s2 = 0) as Ho2 by (unfold owed; cbn; by rewrite C1, C3). split; [done|]. split; [split; auto|split; [exact Ho2|exact E]].
  - left. apply Nat.ltb_lt in Hd. destruct Hc as [(C1 & C2 & C3)|[(C1 & C2 & C3)|(C1 & C2 & C3)]]; [lia|lia|].
    rewrite run_modify, exec_bind, run_end_ret. set (s1 := put_tasks (pred (tasks s)) s).
    destruct (_mtlk_scan_handle_evt_pause_elapsed env s1) as [r s2] eqn:E2. unfold exec. rewrite E2. cbn [snd].
    apply pause_elapsed_spec in E2 as (_ & E2 & _); [| |exact Hv].
    + eapply moved_weaken; [|reflexivity|exact E2]. intros N _. cbn beta. unfold remaining. rewrite C1, C2, C3. cbn -[Z.mul Z.add chunks].
      change (scan s1) with (scan s). lia.
    + destruct Hb as [[B1 B2 B3 B4 B5 B6 B7 B8] D2 D3 D4 D5 D6 D7]. split; [by split|]. split; [unfold owed; cbn; by rewrite C1, C2, C3|exact Hs].
Qed.

Lemma deliver_settled e s : settled s -> settled (exec (deliver env e) s).
Proof.
  intros Hs. destruct (due e s) eqn:Hd; [|by rewrite not_due]. destruct Hs as [Hi|[S1 S2 S3 S4]].
  - apply id_owed, owed_zero in Hi as (C1 & C2 & C3). destruct e; cbn [due] in Hd; rewrite ?C1, ?C2, ?C3 in Hd; done.
  - destruct S4 as [S4|[S4 _]].
    + destruct (deliver_due e s) as [H|(_ & H & _)]; [by split|done|done|by eapply moved_settled|by right].
    + apply owed_zero in S4 as (C1 & C2 & C3). destruct e; cbn [due] in Hd; rewrite ?C1, ?C2, ?C3 in Hd; done.
Qed.
End steps.
