(* ===== verification/ScanStart.v ===== *)
(** * ScanStart: from the request to the first chunk, and synchronous scans *)
From S2P Require Import Prelude HashInv Abmgr AbmgrThms Cache CacheInv CacheMap Flctrl ScanData Scan ScanInv ScanBands.

Section start.
Context (env : scan_env).

(** Running, with programming models still to be loaded. *)
Record partial (s : sys) : Prop := {
  pa_base : base_ok env s;
  pa_running : is_running (scan s) = true;
  pa_completed : completed (scan s) = false;
  pa_bands : bands_ok (scan s);
  pa_background : background_ok env (scan s);
  pa_flags : sta_flags env false (ab_map (abmgr s));
  pa_owed : owed s = 0;
  pa_stop : stop_ok s
}.

Lemma partial_between s : partial s -> models_ok s -> between env s.
Proof. intros [] Hm. split; [by split|done]. Qed.

Lemma partial_ending s : partial s -> must_load_progmodels (scan s) = true -> ending env s.
Proof. intros [] Hm. split; try done. by rewrite Hm. Qed.

Lemma asked_partial s s' : talks_only s s' -> partial s -> partial s'.
Proof.
  intros Ha [P1 P2 P3 P4 P5 P6 P7 P8]. split; rewrite ?(oa_scan _ _ Ha), ?(oa_abmgr _ _ Ha), ?(asked_owed _ _ Ha); try done.
  - by eapply asked_base.
  - by eapply asked_stop.
Qed.

Lemma insert_two {A} (b : Z) (x : A) (l : list A) : 0 <= b < 2 -> length l = 2%nat ->
  <[Z.to_nat b := x]> l !! Z.to_nat b = Some x /\ length (<[Z.to_nat b := x]> l) = 2%nat.
Proof. intros Hb Hl. rewrite length_insert. split; [apply list_lookup_insert_eq; lia|done]. Qed.

(** A new model takes a free place. *)
Lemma pms_add s s1 b p : pms_ok s -> talks_only s s1 -> (turn s < turn s1)%nat -> 0 <= b < 2 -> loaded s b = None ->
  (forall pm, p = Some pm -> pm = Z.of_nat (turn s1)) ->
  pms_ok (put_scan (set_progmodels (<[Z.to_nat b := p]> (progmodels (scan s1))) (scan s1))
    (put_pm_live (match p with Some pm => {[pm]} ∪ pm_live s1 | None => pm_live s1 end) s1)).
Proof.
  intros (x & y & E1 & E2 & E3 & E4) Ha Ht Hb Hl Hp. unfold loaded in Hl. rewrite E1 in Hl. rewrite <-(oa_scan _ _ Ha) in E1.
  rewrite <-(oa_live _ _ Ha) in E2, E4. assert (forall pm, p = Some pm -> pm ∉ pm_live s1) as Hn.
  { intros pm Epm Hin. specialize (E4 _ Hin). specialize (Hp _ Epm). lia. }
  assert (forall q, q ∈ match p with Some pm => {[pm]} ∪ pm_live s1 | None => pm_live s1 end -> q <= Z.of_nat (turn s1)) as Hle.
  { intros q Hq. destruct p as [pm|]; [apply elem_of_union in Hq as [Hq|Hq]|]; [apply elem_of_singleton in Hq as ->; by rewrite (Hp pm)| |];
      specialize (E4 _ Hq); lia. }
  assert (b = 0 \/ b = 1) as [-> | ->] by lia; cbn in Hl; subst.
  - exists p, y. cbn -[union list_to_set]. rewrite E1. split; [done|]. split; [|split; [|exact Hle]].
    + rewrite E2. rewrite !list_to_set_app_L. destruct p; set_solver.
    + intros ->. destruct y as [y|]; [|done]. destruct (Hn y); [done|]. rewrite E2. cbn. set_solver.
  - exists x, p. cbn -[union list_to_set]. rewrite E1. split; [done|]. split; [|split; [|exact Hle]].
    + rewrite E2, !list_to_set_app_L. destruct p; set_solver.
    + intros ->. destruct p as [p|]; [|done]. destruct (Hn p); [done|]. rewrite E2. cbn. set_solver.
Qed.

Lemma create_progmodel_spec band sp s r s' : partial s -> 0 <= band < 2 -> loaded s band = None -> create_progmodel env band sp s = (r, s') ->
  exists p, partial s' /\ scan s' = set_progmodels (<[Z.to_nat band := p]> (progmodels (scan s))) (scan s) /\ (r = true <-> is_Some p).
Proof.
  intros Hp Hb Hl H. unfold create_progmodel in H. step H q s1 E1. apply talks_ask in E1 as (_ & Es1 & Ha). cbv zeta in H. steps H.
  apply (asked_partial _ _ Ha) in Hp as Hp1. apply ret_inv in H as [-> ->].
  set (p := if negb (q =? 0) then Some (Z.of_nat (turn s1)) else None). exists p.
  pose proof (pms_add s s1 band p (bo_pms _ _ (pa_base _ Hp)) Ha ltac:(subst s1; cbn; lia) Hb Hl ltac:(unfold p; intros pm; destruct (negb _); congruence)) as Hpm.
  split; [|split; [cbn; by rewrite (oa_scan _ _ Ha)|unfold p; destruct (negb _); split; intros Hx; try (destruct Hx; done); done]].
  destruct Hp1 as [[B1 B2 B3 B4 B5 B6 B7 B8] P2 P3 P4 P5 P6 P7 P8]. split; try done.
Qed.

Lemma load_all_talks l : within talks_only (load_all env l).
Proof.
  induction l as [|i l IH]; cbn [load_all]; [apply within_ret, _|]. apply within_bind; [apply _|apply within_get|]. intros [pm|]; [|done].
  apply within_bind; [apply _|apply within_ask|]. intros res. destruct (res =? _); [done|apply within_ret, _].
Qed.

Lemma spectra_talks cur next s r s' : background_ok env (scan s) -> preload_spectra env cur next s = (r, s') -> talks_only s s'.
Proof.
  intros Hb H. unfold preload_spectra in H. steps H. destruct (is_background (params (scan s))) eqn:Eb; [|apply ret_inv in H as [_ ->]; reflexivity].
  step H b s1 E1. apply talks_ask in E1 as (-> & _ & Ha1). step H sp s2 E2. apply talks_ask in E2 as (_ & _ & Ha2). cbv zeta in H.
  destruct (Hb Eb (turn s)) as [Hr _]. unfold check in H. rewrite (proj2 (Z.ltb_lt _ MTLK_HW_BAND_BOTH)) in H by (unfold MTLK_HW_BAND_BOTH; lia).
  cbn [negb when] in H. rewrite ret_bind in H. apply ret_inv in H as [_ ->]. by transitivity s1.
Qed.

(** [delete_progmodels] on the way out. *)
Lemma preload_failed_spec s r s' : partial s -> must_load_progmodels (scan s) = true -> preload_failed s = (r, s') ->
  r = MTLK_ERR_SCAN_FAILED /\ ending env s'.
Proof.
  intros Hp Hm H. unfold preload_failed in H. step H u s1 E1. apply ret_inv in H as [-> ->]. split; [done|].
  apply delete_spec in E1 as ->; [|apply Hp]. destruct Hp as [P1 P2 P3 P4 P5 P6 P7 P8]. split; try done. by apply base_no_models.
Qed.

Lemma preload_spec s r s' : partial s -> must_load_progmodels (scan s) = true -> progmodels (scan s) = [None; None] ->
  (orig_band (scan s) = MTLK_HW_BAND_BOTH -> cur_band (scan s) = 0 /\ next_band (scan s) = 1) ->
  preload_progmodels env s = (r, s') ->
  (r = MTLK_ERR_OK /\ between env s' /\ same_scan (scan s) (scan s') /\ cur_band (scan s') = cur_band (scan s) /\
     forall N, later N (scan s') = later N (scan s)) \/
  (r <> MTLK_ERR_OK /\ ending env s').
Proof.
  intros Hp Hm Hn Hboth H. unfold preload_progmodels in H. steps H. step H sps s1 E1.
  apply spectra_talks in E1; [|apply Hp]. apply (asked_partial _ _ E1) in Hp as Hp1. pose proof (oa_scan _ _ E1) as Es1. destruct sps as [sp1 sp2].
  assert (bands_ok (scan s)) as (C1 & C2 & C3) by apply Hp.
  step H made s2 E2. apply create_progmodel_spec in E2 as (p & Hp2 & Es2 & Hmade); [|done|done|]; cycle 1.
  { unfold loaded. rewrite Es1, Hn. by destruct (Z.to_nat _) as [|[|]]. }
  destruct made; cbn [negb] in H; cycle 1.
  { right. apply preload_failed_spec in H as [-> H]; [done|done|]. by rewrite Es2, Es1. }
  destruct (proj1 Hmade eq_refl) as [m ->]. rewrite Es1, Hn in Es2.
  step H made2 s3 E3. assert (partial s3 /\ exists p2, scan s3 = set_progmodels p2 (scan s) /\ (made2 = true -> models_ok s3)) as (Hp3 & p2 & Es3 & Hmod).
  { destruct (Z.eqb_spec (next_band (scan s)) MTLK_HW_BAND_NONE) as [En|En]; cbn [negb] in E3.
    - apply ret_inv in E3 as [-> ->]. split; [done|]. eexists. split; [exact Es2|]. intros _. unfold models_ok. rewrite Es2.
      cbn [must_load_progmodels set_progmodels orig_band]. rewrite Hm. intros b Hb Ho. unfold loaded. rewrite Es2. cbn [progmodels set_progmodels].
      assert (orig_band (scan s) <> MTLK_HW_BAND_BOTH) as Hob by (intros Hx; destruct (Hboth Hx) as [_ Hy]; by rewrite Hy in En).
      destruct Ho as [Ho|Ho]; [done|]. destruct C2 as [C2|C2]; [done|].
      rewrite <-Ho, C2. rewrite (proj1 (insert_two _ _ [None; None] C1 eq_refl)). by eexists.
    - destruct C3 as [?|[C3 C4]]; [done|]. destruct (Hboth C4) as [Hc _]. rewrite Hc in Es2. cbn in Es2.
      apply create_progmodel_spec in E3 as (q & Hq & Esq & Hmq); [|done|rewrite C3; done|unfold loaded; by rewrite Es2, C3]. split; [done|].
      eexists. split; [rewrite Esq, Es2; reflexivity|]. intros Hmd. apply Hmq in Hmd as [mq ->]. unfold models_ok. rewrite Esq, Es2.
      cbn [must_load_progmodels set_progmodels orig_band]. rewrite Hm. intros b Hb Ho. unfold loaded. rewrite Esq, Es2, C3. cbn.
      assert (b = 0 \/ b = 1) as [-> | ->] by lia; by eexists. }
  destruct made2; cbn [negb] in H; cycle 1.
  { right. apply preload_failed_spec in H as [-> H]; [done|done|]. by rewrite Es3. }
  step H ok s4 E4. apply (within_inv _ _ _ _ _ (load_all_talks _)) in E4. apply (asked_partial _ _ E4) in Hp3 as Hp4. pose proof (oa_scan _ _ E4) as Es4.
  destruct ok.
  - apply ret_inv in H as [-> ->]. left. split; [done|]. split; [|rewrite Es4, Es3; by repeat split].
    apply partial_between; [done|]. specialize (Hmod eq_refl). unfold models_ok, loaded in *. by rewrite Es4.
  - right. apply preload_failed_spec in H as [-> H]; [done|done|]. by rewrite Es4, Es3.
Qed.

(** ** Starting *)

(** Arguments the callers keep to, and a background scan that covers the band
    the core works on. *)
Definition may_start (band : Z) (pattern : option (list Z)) (c : mtlk_scan) : Prop :=
  0 <= band < MTLK_HW_BAND_NONE /\ (is_Some pattern -> vap_is_ap env = false) /\
  (is_background (params c) = true -> covers env band /\ is_interf_enabled (interf_params c) = false).

(** A new scan, in relation to the object before it started. *)
Record started (is_sync : bool) (c c' : mtlk_scan) : Prop := {
  st_background : is_background (params c') = is_background (params c);
  st_pause : pause_between_chunks (params c') = pause_between_chunks (params c);
  st_term : treminate_scan c' = false;
  st_sync : is_synchronous c' = is_sync;
  st_chunk : chunk_scan_complete_event c' = chunk_scan_complete_event c
}.

Lemma started_same is_sync c c1 c2 : started is_sync c c1 -> same_scan c1 c2 -> started is_sync c c2.
Proof. intros [] []. split; congruence. Qed.

Lemma flag_spec b (m : ST sys unit) s u s' : when b m s = (u, s') -> s' = if b then exec m s else s.
Proof. destruct b; cbn [when]; [unfold exec; by intros ->|by intros [= _ <-]]. Qed.

(** The state once the parameters are in place. *)
Lemma essid_spec pattern s u s' : (is_Some pattern -> vap_is_ap env = false) ->
  match pattern with Some buf => mtlk_scan_set_essid env buf | None => mret tt end s = (u, s') ->
  exists p, s' = put_scan (set_params p (scan s)) s /\ is_background p = is_background (params (scan s)) /\
    pause_between_chunks p = pause_between_chunks (params (scan s)).
Proof.
  intros Hp H. destruct pattern as [buf|].
  - unfold mtlk_scan_set_essid, check, upd_params, upd in H. rewrite (Hp ltac:(by eexists)) in H. cbn [negb when] in H. rewrite ret_bind in H.
    injection H as _ <-. by eexists.
  - apply ret_inv in H as [_ ->]. exists (params (scan s)). split; [by destruct s as [[]]|done].
Qed.

Lemma setup_partial s u s' : base_ok env s -> owed s = 0 -> stop_ok s -> progmodels (scan s) = [None; None] -> is_running (scan s) = true -> completed (scan s) = false ->
  0 <= orig_band (scan s) < MTLK_HW_BAND_NONE -> (is_background (params (scan s)) = true -> covers env (orig_band (scan s))) ->
  sta_flags env false (ab_map (abmgr s)) -> setup_scan_sequence s = (u, s') ->
  partial s' /\ progmodels (scan s') = [None; None] /\ must_load_progmodels (scan s') = must_load_progmodels (scan s) /\
  (orig_band (scan s') = MTLK_HW_BAND_BOTH -> cur_band (scan s') = 0 /\ next_band (scan s') = 1) /\ same_scan (scan s) (scan s') /\
  rescan (scan s') = rescan (scan s) /\ orig_band (scan s') = orig_band (scan s).
Proof.
  intros [B1 B2 B3 B4 B5 B6 B7 B8] I3 I5 I4 Hr Hc Ho Hb Hf H. unfold setup_scan_sequence in H. steps H.
  destruct (Z.eqb_spec (orig_band (scan s)) MTLK_HW_BAND_BOTH) as [E|E]; unfold upd in H; rewrite modify_bind in H; injection H as _ <-.
  - split; [split; try done|by repeat split].
    split; [done|]. split; [by left|by right].
  - assert (0 <= orig_band (scan s) < 2) by (unfold MTLK_HW_BAND_BOTH, MTLK_HW_BAND_NONE in *; lia). split; [split; try done|by repeat split].
    split; [done|]. split; [by right|by left].
Qed.

Lemma active_sub id : id ∈ _scan_active_abilities -> id ∈ _scan_abilities.
Proof. unfold _scan_active_abilities, _scan_abilities. rewrite !elem_of_cons, elem_of_nil. tauto. Qed.

(** The result of a start: the scan is over already, or its first chunk is under way. *)
Definition begun (is_sync : bool) (c : mtlk_scan) (s' : sys) : Prop :=
  (idle env s' /\ completed (scan s') = true) \/
  (waiting env s' /\ cfm_due s' = 1%nat /\ vector_ok env (scan s') /\ started is_sync c (scan s') /\
   forall N, progressive env N -> chunks N (scan s') <= 4 * N - 1).

(** What the caller learns. *)
Definition start_result (band r : Z) (s' : sys) : Prop :=
  (r = MTLK_ERR_OK -> cfm_due s' = 1%nat /\ (band = MTLK_HW_BAND_BOTH -> cur_band (scan s') = MTLK_HW_BAND_5_2_GHZ)) /\
  (cfm_due s' = 1%nat -> r = MTLK_ERR_OK \/ (r = MTLK_ERR_SCAN_FAILED /\ band = MTLK_HW_BAND_BOTH /\ cur_band (scan s') = MTLK_HW_BAND_2_4_GHZ)).

Lemma started_spec s band sp pattern is_sync r s' : idle env s -> may_start band pattern (scan s) ->
  do_scan_started env band sp pattern is_sync (put_scan (set_is_running true (scan s)) s) = (r, s') ->
  begun is_sync (scan s) s' /\ start_result band r s'.
Proof.
  intros Hi (M1 & M2 & M3) H. unfold do_scan_started in H. set (s0 := put_scan _ s) in *. steps H. unfold interf_enabled in H. steps H.
  change (is_background (params (scan s0))) with (is_background (params (scan s))) in H.
  change (is_interf_enabled (interf_params (scan s0))) with (is_interf_enabled (interf_params (scan s))) in H.
  step H u1 s1 E1. assert (s1 = s0) as ->.
  { destruct (is_background (params (scan s))); cbn [when] in E1; [|by apply ret_inv in E1 as [_ ->]].
    destruct (M3 eq_refl) as [_ Hint]. rewrite Hint in E1. cbn [negb when] in E1. by apply ret_inv in E1 as [_ ->]. }
  clear E1. step H u2 s2 E2. apply flag_spec in E2. assert (exists b, s2 = put_bss_cache b s0 /\ exists lent, cache_ok lent b) as (bc & -> & Hbc).
  { destruct (bo_cache _ _ (id_base _ _ Hi)) as [lent Hl]. rewrite E2. destruct (negb _).
    - eexists. split; [reflexivity|]. exists lent. by apply clear_ok.
    - exists (bss_cache s). split; [by destruct s|by exists lent]. }
  clear E2. steps H. step H u3 s4 E4. apply flag_spec in E4. set (s3 := put_scan _ _) in E4.
  pose proof (set_abilities_spec env _scan_active_abilities s3) as Hab.
  destruct Hab as (A1 & A2 & A3%active_flags); [apply Hi|apply Hi|apply active_sub|].
  set (a := if vap_is_ap env then _ else _) in *. assert (s4 = put_abmgr a s3) as Es4.
  { unfold a. rewrite E4. destruct (vap_is_ap env); cbn [negb]; [by destruct s3|done]. }
  clearbody a. clear E4. step H u4 s5 E5. apply essid_spec in E5 as (p & Es5 & Ep1 & Ep2); [|done]. steps H.
  rewrite (proj2 (Z.ltb_lt band MTLK_HW_BAND_NONE)) in H by apply M1. cbn [negb when] in H. rewrite ret_bind in H.
  subst s5 s4. match type of H with _ ?st = _ => set (s6 := st) in H end.
  assert (scan s6 = set_orig_band band (set_spectrum sp (set_params p (set_completed false (set_is_synchronous is_sync (set_treminate_scan false (scan s0))))))) as E6.
  { reflexivity. }
  destruct Hi as [[B1 B2 B3 B4 B5 B6 B7 B8] I2 I3 I4 I5 I6].
  step H u7 s7 E7. apply setup_partial in E7 as (P1 & P2 & P3 & P4 & P5 & P6 & P7); [|try done..]; cycle 1.
  { cbn. rewrite Ep1. intros Hx. by apply M3. }
  assert (started is_sync (scan s) (scan s7)) as Hst.
  { eapply started_same; [|exact P5]. rewrite E6. by split. }
  assert (forall N, later N (scan s7) <= N + 2 * N \/ N < 0) as Hl7.
  { intros N. unfold later. destruct (next_band (scan s7) =? _), (rescan (scan s7)); lia. }
  steps H. step H res s8 E8. assert ((res = MTLK_ERR_OK /\ between env s8 /\ same_scan (scan s7) (scan s8) /\ cur_band (scan s8) = cur_band (scan s7) /\ forall N, later N (scan s8) = later N (scan s7)) \/
    (res <> MTLK_ERR_OK /\ ending env s8)) as [(-> & H8 & Hss & Hcur & Hl8)|[Hne H8]].
  { destruct (must_load_progmodels (scan s7)) eqn:Em; [by eapply preload_spec|]. apply ret_inv in E8 as [-> ->]. left. split; [done|].
    split; [|by split]. apply partial_between; [done|]. unfold models_ok. by rewrite Em. }
  - change (negb (MTLK_ERR_OK =? MTLK_ERR_OK)) with false in H. apply band_spec in H as [H [Hr1 Hr2]]; [|done]. split; cycle 1.
    { split; [|intros Hc; destruct (Hr2 Hc) as [?|(? & Hn & Hcn)]; [by left|right; split; [done|]]]; cycle 1.
      { destruct H8 as ([_ _ _ (_ & _ & Hb3) _ _ _] & _). destruct Hb3 as [?|[Hb2 Hb3]]; [done|]. rewrite Hcn, Hb2. split; [|done].
        rewrite (ss_orig _ _ Hss), P7, E6 in Hb3. exact Hb3. }
      intros Hr. destruct (Hr1 Hr) as [? Hc]. split; [done|]. intros Hboth. rewrite Hc, Hcur. apply P4. by rewrite P7, E6. }
    destruct H as [H|(H1 & H2 & H3 & H4 & H5)]; [by left|right]. split_and!; try done; [eapply started_same; [exact Hst|by transitivity (scan s8)]|].
    intros N HN. specialize (H5 N HN). rewrite Hl8 in H5. destruct HN as [HN _]. specialize (HN (turn s)).
    pose proof (u16_range (oracle env (turn s) QVectorUsed)). destruct (Hl7 N); lia.
  - rewrite (proj2 (Z.eqb_neq _ _) Hne) in H. cbn [negb] in H. step H k s9 E9. apply ret_inv in H as [-> ->].
    apply complete_spec in E9 as (_ & Hi); [|done]. split; [by left|]. split; [done|].
    intros Hc. destruct Hi as [Hi _]. apply id_owed, owed_zero in Hi as (Hc' & _). congruence.
Qed.
End start.

(** * The scan object over its life, and the loop of synchronous scans *)

Section sys.
Context (env : scan_env).
Abbreviation settled := (settled env).

(** ** Starts *)

Lemma asked_refused s s' : talks_only s s' -> refused s -> refused s'.
Proof.
  intros [_ _ _ _ _ _ _ _ _ _ (l & El & _)] (r & Hr & Hin). exists r. split; [done|]. rewrite El. apply elem_of_app. by right.
Qed.

Lemma asked_idle s s' : talks_only s s' -> idle env s -> idle env s'.
Proof.
  intros Ha [I1 I2 I3 I4 I5 I6]. split; rewrite ?(oa_scan _ _ Ha), ?(oa_abmgr _ _ Ha), ?(asked_owed _ _ Ha); try done.
  - by eapply asked_base.
  - by eapply asked_stop.
Qed.

Lemma asked_scanning s s' : talks_only s s' -> scanning env s -> scanning env s'.
Proof.
  intros Ha [S1 S2 S3 S4]. split; rewrite ?(oa_scan _ _ Ha); try done; [by eapply asked_busy|by eapply asked_stop|].
  rewrite (asked_owed _ _ Ha). destruct S4 as [?|[? ?]]; [by left|right]. split; [done|by eapply asked_refused].
Qed.

Lemma asked_settled s s' : talks_only s s' -> settled s -> settled s'.
Proof. intros Ha [H|H]; [left; by eapply asked_idle|right; by eapply asked_scanning]. Qed.

Lemma begun_settled b c s' : begun env b c s' -> settled s'.
Proof. intros [[H _]|((H1 & H2 & H3) & H4 & H5 & _)]; [by left|right]. split; auto. Qed.

Lemma running_id c : is_running c = true -> set_is_running true c = c.
Proof. destruct c. cbn. by intros ->. Qed.

(** A request for a scan: refused with nothing changed, or begun. *)
Lemma do_scan_spec s band sp pattern is_sync r s' : settled s -> (is_running (scan s) = false -> may_start env band pattern (scan s)) ->
  do_scan env band sp pattern is_sync s = (r, s') ->
  (r = MTLK_ERR_SCAN_FAILED /\ talks_only s s') \/
  (is_running (scan s) = false /\ begun env is_sync (scan s) s' /\ start_result band r s').
Proof.
  intros Hs Hm H. unfold do_scan, do_scan_enter in H. steps H. step H q s1 E1. apply talks_ask in E1 as (_ & _ & Ha).
  destruct (negb (q =? 0)); [steps H; apply ret_inv in H as [-> ->]; by left|]. steps H. rewrite (oa_scan _ _ Ha) in H.
  destruct (is_running (scan s)) eqn:Er; cbn [negb] in H.
  - apply ret_inv in H as [-> ->]. left. split; [done|]. rewrite running_id by done. rewrite <-(oa_scan _ _ Ha). by destruct s1.
  - right. split; [done|]. destruct Hs as [Hi|[[_ Hr _ _ _ _ _] _ _ _]]; [|congruence]. rewrite <-(oa_scan _ _ Ha) in H |- *.
    eapply started_spec; [by eapply asked_idle| |exact H]. rewrite (oa_scan _ _ Ha). by apply Hm.
Qed.

Lemma async_spec s band pattern r s' : settled s -> (is_running (scan s) = false -> may_start env band pattern (scan s)) -> band < MTLK_HW_BAND_NONE ->
  mtlk_scan_async env band pattern s = (r, s') ->
  (r = MTLK_ERR_SCAN_FAILED /\ talks_only s s') \/
  (is_running (scan s) = false /\ begun env false (scan s) s' /\ start_result band r s').
Proof.
  intros Hs Hm Hb H. unfold mtlk_scan_async, check in H. rewrite (proj2 (Z.ltb_lt _ _) Hb) in H. cbn [negb when] in H. rewrite ret_bind in H.
  by eapply do_scan_spec.
Qed.

(** ** Synchronous scans *)

(** Waiting for a confirmation, with no pause to come after it. *)
Record sync_ok (s : sys) : Prop := {
  sy_waiting : waiting env s;
  sy_cfm : cfm_due s = 1%nat;
  sy_vector : vector_ok env (scan s);
  sy_event : chunk_scan_complete_event (scan s) = false;
  sy_pause : is_background (params (scan s)) && negb (pause_between_chunks (params (scan s)) =? 0) = false
}.

Definition is_confirm (p : poll) : bool := match p with PollConfirm _ _ => true | _ => false end.
Definition no_rescan (p : poll) : Prop := match p with PollRescan => False | _ => True end.

(** Polls that bring no confirmation change nothing that matters. *)
Lemma outside_quiet s p : sync_ok s -> is_confirm p = false -> no_rescan p ->
  let s' := exec (outside env p) s in sync_ok s' /\ forall N, chunks N (scan s') = chunks N (scan s).
Proof.
  intros [(Hb & Ho & Hs) Hc Hv He Hp] Hn Hr s'. pose proof (owed_one s Ho) as Hone. destruct p as [|t st| | |]; try done; unfold s'; cbn [outside].
  - rewrite (not_due env EvTimer); [split; [by split|done]|]. cbn. destruct Hone as [(_ & H & _)|[(H & _)|(H & _)]]; [done|congruence..].
  - unfold scan_terminate, mtlk_scan_is_running, get. rewrite run_gets, (bu_running _ _ Hb). cbn [when]. unfold upd. rewrite run_end_modify.
    split; [|done]. split; try done. split; [|done]. apply (bland_busy env (set_treminate_scan true)); [apply bland_term|done].
Qed.

Lemma sync_done polls res s : completed (scan s) = true -> sync_wait env polls res s = (Some res, s).
Proof. intros Hc. destruct polls; cbn [sync_wait]; unfold get; by rewrite gets_bind, Hc. Qed.

(** One turn of the loop. *)
Lemma sync_turn p polls res s : completed (scan s) = false ->
  sync_wait env (p :: polls) res s =
    let s1 := exec (outside env p) s in
    if chunk_scan_complete_event (scan s1)
    then (mtlk_scan_handle_evt_scan_confirmed env (last_result (scan s1)) ≫= sync_wait env polls)
           (put_scan (set_chunk_scan_complete_event false (scan s1)) s1)
    else sync_wait env polls res s1.
Proof.
  intros Hc. cbn [sync_wait]. unfold get, mbind, st_bind, gets, upd, modify, exec. rewrite Hc. destruct (outside env p s) as [u s1]. cbn [fst snd].
  by destruct (chunk_scan_complete_event (scan s1)).
Qed.

Lemma confirm_poll s t st : cfm_due s = 1%nat -> chunk_scan_complete_event (scan s) = false ->
  let s1 := exec (outside env (PollConfirm t st)) s in
  chunk_scan_complete_event (scan s1) = true /\ last_result (scan s1) = st /\
  put_scan (set_chunk_scan_complete_event false (scan s1)) s1 = exec (confirm_taken t st) s.
Proof.
  intros Hc He s1. unfold s1. cbn [outside]. rewrite run_gets, Hc. cbn [Nat.ltb Nat.leb when].
  destruct s as [sc]. destruct sc. cbn in He. by subst.
Qed.

Lemma sync_confirm_turn s t st polls res : sync_ok s ->
  sync_wait env (PollConfirm t st :: polls) res s =
    (mtlk_scan_handle_evt_scan_confirmed env st ≫= sync_wait env polls) (exec (confirm_taken t st) s).
Proof.
  intros [Hw Hc Hv He Hp]. rewrite sync_turn by apply Hw. destruct (confirm_poll s t st Hc He) as (E1 & E2 & E3). cbv zeta.
  by rewrite E1, E2, E3.
Qed.

Lemma sync_quiet_turn s p polls res : sync_ok s -> is_confirm p = false -> no_rescan p ->
  sync_wait env (p :: polls) res s = sync_wait env polls res (exec (outside env p) s).
Proof.
  intros Hs Hn Hr. rewrite sync_turn by apply Hs. cbv zeta.
  destruct (outside_quiet s p Hs Hn Hr) as [[_ _ _ He' _] _]. by rewrite He'.
Qed.

(** A confirmation ends the scan, or leaves fewer chunks. *)
Lemma sync_confirmed s t st r s' : sync_ok s ->
  mtlk_scan_handle_evt_scan_confirmed env st (exec (confirm_taken t st) s) = (r, s') ->
  (idle env s' /\ completed (scan s') = true) \/
  (sync_ok s' /\ forall N, progressive env N -> chunks N (scan s') < chunks N (scan s)).
Proof.
  intros [Hw Hc Hv He Hp] H. destruct (confirm_taken t st s) as [u s1] eqn:E1.
  destruct (taken_spec env t st s u s1 Hw Hc E1) as (T1 & T2 & _ & T4 & T5 & T6). unfold exec in H. rewrite E1 in H. cbn [snd] in H.
  apply confirmed_spec in H as [H Hcfm]; [|done..|by apply T5]. rewrite (ss_params _ _ T4) in Hcfm. specialize (Hcfm Hp).
  destruct H as [H|(H1 & H2 & H3 & H4)]; [by left|]. right. assert (cfm_due s' = 1%nat) as Hc'.
  { destruct Hcfm as [Hi|]; [|done]. pose proof (id_owed _ _ Hi). destruct H1 as (_ & H1 & _). lia. }
  split; [split; try done|].
  - by rewrite (ss_chunk _ _ H3), (ss_chunk _ _ T4).
  - by rewrite (ss_params _ _ H3), (ss_params _ _ T4).
  - intros N HN. specialize (H4 N HN). unfold remaining in H4. rewrite T6, Hc' in H4. destruct (pause_timer s'); cbn [Z.b2z] in H4; lia.
Qed.

Lemma sync_wait_returns N polls res s : progressive env N -> Forall no_rescan polls -> sync_ok s ->
  chunks N (scan s) < countb is_confirm polls ->
  exists r s', sync_wait env polls res s = (Some r, s') /\ idle env s' /\ completed (scan s') = true.
Proof.
  intros HN Hr. revert res s. induction Hr as [|p polls Hp _ IH]; intros res s Hs Hc.
  { unfold chunks, later in Hc. cbn in Hc. destruct HN as [HN _]. specialize (HN (turn s)). pose proof (u16_range (oracle env (turn s) QVectorUsed)).
    destruct (_ =? _), (rescan (scan s)); lia. }
  cbn [countb foldr] in Hc. fold (countb is_confirm polls) in Hc. destruct (is_confirm p) eqn:Ep; cbn [Z.b2z] in Hc.
  - destruct p as [|t st| | |]; try done. rewrite sync_confirm_turn by done. unfold mbind, st_bind.
    destruct (mtlk_scan_handle_evt_scan_confirmed env st (exec (confirm_taken t st) s)) as [r s1] eqn:E.
    apply sync_confirmed in E as [[E1 E2]|[E1 E2]]; [|by apply (IH r s1); [|specialize (E2 N HN); lia]|done].
    exists r, s1. by rewrite sync_done.
  - rewrite sync_quiet_turn by done. destruct (outside_quiet s p Hs Ep Hp) as [Hs' Hc']. apply IH; [done|]. rewrite Hc'. lia.
Qed.

(** ** Every run of a synchronous scan, paused or not *)

Lemma timer_scan s : scan (exec (deliver env EvTimer) s) = scan s.
Proof.
  cbn [deliver]. rewrite run_gets. destruct (pause_timer s); [|done]. cbn [when]. rewrite run_modify. unfold pause_timer_handler.
  rewrite run_assoc, run_ask, run_assoc. by destruct (_ =? _).
Qed.

(** Setting the two flags other threads may set. *)
Lemma settled_flag f s : f = set_rescan true \/ f = set_treminate_scan true -> settled s -> settled (put_scan (f (scan s)) s).
Proof.
  intros Hf [[[B1 B2 B3 B4 B5 B6 B7 B8] I2 I3 I4 I5 I6]|[S1 S2 S3 S4]].
  - left. destruct Hf as [-> | ->]; split; try done; by split.
  - right. split; [|by destruct Hf as [-> | ->]..]. apply bland_busy; [|done]. destruct Hf as [-> | ->]; [apply bland_rescan|apply bland_term].
Qed.

Lemma terminate_settled s : settled s -> settled (exec scan_terminate s).
Proof.
  intros Hs. unfold scan_terminate, mtlk_scan_is_running, get. rewrite run_gets. destruct (is_running (scan s)); [|done]. cbn [when].
  apply (settled_flag (set_treminate_scan true)); [by right|done].
Qed.

Lemma cfm_waiting s : settled s -> cfm_due s <> 0%nat -> waiting env s /\ cfm_due s = 1%nat /\ vector_ok env (scan s).
Proof.
  intros [Hi|[S1 S2 S3 [S4|[S4 _]]]] Hc.
  - apply id_owed, owed_zero in Hi. tauto.
  - split; [done|]. split; [|done]. pose proof (owed_one s S4). tauto.
  - apply owed_zero in S4. tauto.
Qed.

Lemma confirm_settled s t st r s' : settled s -> cfm_due s <> 0%nat ->
  mtlk_scan_handle_evt_scan_confirmed env st (exec (confirm_taken t st) s) = (r, s') ->
  settled s' /\ (completed (scan s') = true \/ chunk_scan_complete_event (scan s') = chunk_scan_complete_event (scan s)).
Proof.
  intros Hs Hc H. destruct (cfm_waiting s Hs Hc) as (Hw & Hc1 & Hv). destruct (confirm_taken t st s) as [u s1] eqn:E1.
  destruct (taken_spec env t st s u s1 Hw Hc1 E1) as (T1 & T2 & _ & T4 & T5 & T6). unfold exec in H. rewrite E1 in H. cbn [snd] in H.
  apply confirmed_spec in H as [H _]; [|done..|by apply T5]. split; [by eapply moved_settled|].
  destruct H as [[_ H]|(_ & _ & H & _)]; [by left|right]. by rewrite (ss_chunk _ _ H), (ss_chunk _ _ T4).
Qed.

Lemma sync_wait_settled polls res s r s' : settled s -> chunk_scan_complete_event (scan s) = false ->
  sync_wait env polls res s = (r, s') -> settled s'.
Proof.
  revert res s. induction polls as [|p polls IH]; intros res s Hs He H.
  { cbn [sync_wait] in H. steps H. by destruct (completed (scan s)); apply ret_inv in H as [_ ->]. }
  destruct (completed (scan s)) eqn:Ec; [rewrite sync_done in H by done; by injection H as _ <-|].
  rewrite sync_turn in H by done. cbv zeta in H. destruct (is_confirm p && negb (cfm_due s =? 0)%nat) eqn:Ep.
  - apply andb_true_iff in Ep as [Ep1 Ep2]. destruct p as [|t st| | |]; try done. apply negb_true_iff, Nat.eqb_neq in Ep2.
    destruct (cfm_waiting s Hs Ep2) as (_ & Hc1 & _). destruct (confirm_poll s t st Hc1 He) as (E1 & E2 & E3). rewrite E1, E2, E3 in H.
    unfold mbind, st_bind in H. destruct (mtlk_scan_handle_evt_scan_confirmed env st (exec (confirm_taken t st) s)) as [r1 s1] eqn:Eh.
    apply confirm_settled in Eh as [Hs1 [Hd|Hd]]; [| |done..].
    + rewrite sync_done in H by done. by injection H as _ <-.
    + apply (IH r1 s1); [done|by rewrite Hd|done].
  - assert (settled (exec (outside env p) s) /\ chunk_scan_complete_event (scan (exec (outside env p) s)) = false) as [Hs1 He1].
    { destruct p as [|t st| | |]; cbn [outside].
      - done.
      - cbn in Ep. apply negb_false_iff, Nat.eqb_eq in Ep. rewrite run_gets, Ep. done.
      - split; [by apply deliver_settled|by rewrite timer_scan].
      - split; [by apply terminate_settled|]. unfold scan_terminate, mtlk_scan_is_running, get. rewrite run_gets. by destruct (is_running (scan s)).
      - split; [|done]. apply (settled_flag (set_rescan true)); [by left|done]. }
    rewrite He1 in H. by apply (IH res _ Hs1 He1).
Qed.

Lemma idle_chunk b s : idle env s -> idle env (put_scan (set_chunk_scan_complete_event b (scan s)) s).
Proof. intros [[B1 B2 B3 B4 B5 B6 B7 B8] I2 I3 I4 I5 I6]. split; try done. Qed.

Lemma settled_chunk b s : settled s -> settled (put_scan (set_chunk_scan_complete_event b (scan s)) s).
Proof.
  intros [Hi|[[[B1 B2 B3 B4 B5 B6 B7 B8] H2 H3 H4 H5 H6 H7] S2 S3 S4]]; [left; by apply idle_chunk|right].
  split; try done.
Qed.

Lemma sync_settled s band sp polls r s' : settled s -> (is_running (scan s) = false -> may_start env band None (scan s)) -> band < MTLK_HW_BAND_BOTH ->
  mtlk_scan_sync env band sp polls s = (r, s') -> settled s'.
Proof.
  intros Hs Hm Hb H. unfold mtlk_scan_sync, check in H. rewrite (proj2 (Z.ltb_lt _ _) Hb) in H. cbn [negb when] in H. rewrite ret_bind in H.
  unfold upd at 1 in H. rewrite modify_bind in H. apply (settled_chunk false) in Hs. step H res s1 E1.
  apply do_scan_spec in E1 as [[-> Ha]|(_ & Hbeg & Hres)]; [| |done|done].
  - cbn in H. apply ret_inv in H as [_ ->]. by eapply asked_settled.
  - destruct (negb (res =? MTLK_ERR_OK)) eqn:Er; [apply ret_inv in H as [_ ->]; by eapply begun_settled|].
    destruct Hbeg as [[Hi Hc]|Hbeg]; [rewrite sync_done in H by done; injection H as _ <-; by left|].
    eapply sync_wait_settled; [|  |exact H]; [eapply begun_settled; by right|]. destruct Hbeg as (_ & _ & _ & Hst & _). by rewrite (st_chunk _ _ _ Hst).
Qed.
End sys.
