(* ===== verification/ScanInit.v ===== *)
(** * ScanInit: creating and deleting the scan object *)
From S2P Require Import Prelude HashInv Abmgr AbmgrThms Cache CacheInv CacheMap Flctrl ScanData Scan ScanInv ScanBands ScanStart.

Section init.
Context (env : scan_env).
(** The allocator gives what is not in use. *)
Context (alloc_fresh : forall l n r, alloc env l n = Some r -> r ∉ l).

(** A virtual interface before its scan object is made: only users of the flow
    control object stop the data. *)
Record blank (s : sys) : Prop := {
  bl_init : initialized (scan s) = false;
  bl_mask : word (stop_requests_mask (flctrl s));
  bl_avail : word (available_bits (flctrl s));
  bl_stops : bits (stop_requests_mask (flctrl s)) ## bits (available_bits (flctrl s));
  bl_ab : ab_ok (abmgr s);
  bl_sta : forall id, id ∈ _scan_abilities -> ab_map (abmgr s) !! id = None;
  bl_common : forall id, id ∈ _scan_common_abilities -> ab_map (abmgr s) !! id = None;
  bl_cache : exists lent, cache_ok lent (bss_cache s);
  bl_live : pm_live s = ∅;
  bl_held : held s = [];
  bl_owed : owed s = 0;
  bl_log : no_faults s
}.

(** Registering a set and enabling it. *)
Lemma register_set_spec ids s r s' : ab_ok (abmgr s) -> NoDup ids -> (forall id, id ∈ ids -> ab_map (abmgr s) !! id = None) ->
  register_set env ids s = (r, s') ->
  exists a, s' = put_abmgr a s /\ ab_ok a /\
    ((r = MTLK_ERR_OK /\ ab_map a = ab_disabled ids (ab_map (abmgr s))) \/ (r = MTLK_ERR_NO_MEM /\ ab_map a = ab_map (abmgr s))).
Proof.
  intros Ha Hn Hf H. unfold register_set in H. pose proof (register_from_spec (alloc env) alloc_fresh (abmgr s) (abmgr s) [] ids Ha Ha Hn Hf) as Hr.
  specialize (Hr ltac:(by intros k; rewrite decide_False by (by intros Hk%elem_of_nil)) ltac:(done)).
  unfold mtlk_abmgr_register_ability_set in H. cbn [length app] in Hr. destruct (register_from _ _ _ _ _) as [res a]. injection H as <- <-.
  exists a. split; [done|]. destruct Hr as [Hok [[-> Hm]|(-> & Hm & _)]]; split; auto.
Qed.

(** ** The ways out *)

Lemma release_one r s l : held s = l -> r ∈ l -> exec (release r) s = put_held (filter (fun x => x <> r) l) s.
Proof.
  intros E Hin. unfold release. rewrite run_gets, E, bool_decide_true by done. cbn [negb when]. by rewrite run_ret, run_end_modify, E.
Qed.

Lemma bind_exec {A} (m : ST sys unit) (f : unit -> ST sys A) s : (m ≫= f) s = f tt (exec m s).
Proof. unfold exec, mbind, st_bind. by destruct (m s) as [[] s1]. Qed.

Definition made (n : nat) : list scan_res := drop (5 - n) [RChunkEvent; RAsyncMsg; RTimer; RCompleted; RVector].

Section ways_out.
Context (pre : list scan_res) (Hpre : pre = [] \/ pre = [RLastResult]).

Ltac way_out := rewrite bind_exec, (release_one _ _ _ ltac:(eassumption));
  [|destruct Hpre as [-> | ->]; cbn; rewrite !elem_of_cons; tauto].

Lemma out_vector res s : held s = pre ++ made 1 -> err_completed_event res s = (res, put_held pre s).
Proof. intros H. unfold err_completed_event. way_out. destruct Hpre as [-> | ->]; done. Qed.

Lemma out_completed res s : held s = pre ++ made 2 -> err_timer res s = (res, put_held pre s).
Proof. intros H. unfold err_timer. way_out. rewrite out_vector; destruct Hpre as [-> | ->]; done. Qed.

Lemma out_timer res s : held s = pre ++ made 3 -> err_async_msg res s = (res, put_held pre s).
Proof. intros H. unfold err_async_msg. way_out. rewrite out_completed; destruct Hpre as [-> | ->]; done. Qed.

Lemma out_msg res s : held s = pre ++ made 4 -> err_flctrl res s = (res, put_held pre s).
Proof. intros H. unfold err_flctrl. way_out. rewrite out_timer; destruct Hpre as [-> | ->]; done. Qed.

Definition unregistered (s : sys) : sys := put_flctrl (mtlk_flctrl_unregister (flctrl_id (scan s)) (flctrl s)) s.

Lemma out_flctrl res s : held s = pre ++ made 4 -> err_chunk_event res s = (res, put_held pre (unregistered s)).
Proof. intros H. unfold err_chunk_event, unregister_flctrl. rewrite modify_bind. by apply out_msg. Qed.

Lemma out_chunk res s : held s = pre ++ made 5 -> err_alloc_last_result res s = (res, put_held pre (unregistered s)).
Proof. intros H. unfold err_alloc_last_result. way_out. rewrite out_flctrl; destruct Hpre as [-> | ->]; done. Qed.
End ways_out.

(** Taking a bit and giving it back. *)
Lemma ldiff_lor a i : Z.testbit a (Z.of_nat i) = true -> Z.lor (Z.ldiff a (bit i)) (bit i) = a.
Proof.
  intros Ha. apply Z.bits_inj'. intros j Hj. rewrite Z.lor_spec, Z.ldiff_spec. replace j with (Z.of_nat (Z.to_nat j)) by lia.
  rewrite bit_test. case_bool_decide as E; [|by rewrite andb_true_r, orb_false_r]. rewrite <-E, Ha. done.
Qed.

Lemma register_spec_from s0 s r s' : blank s0 -> flctrl s = flctrl s0 -> register_flctrl s = (r, s') ->
  (r <> MTLK_ERR_OK /\ exists id, s' = put_scan (set_flctrl_id id (scan s)) s) \/
  (r = MTLK_ERR_OK /\ exists i f, s' = put_scan (set_flctrl_id (bit i) (scan s)) (put_flctrl f s) /\ (i < 32)%nat /\
     stop_requests_mask f = stop_requests_mask (flctrl s0) /\ i ∉ bits (stop_requests_mask f) /\
     mtlk_flctrl_unregister (bit i) f = flctrl s0).
Proof.
  intros Hb Ef H. unfold register_flctrl, mtlk_flctrl_register, MAX_NOF_AVAILABLE_BITS in H. change 1 with (bit 0) in H. rewrite fl_take_spec in H by done.
  destruct (head _) as [i|] eqn:E; injection H as <- <-; [right|left; split; [done|exists 0; by destruct s]].
  apply head_Some_elem_of, list_elem_of_filter in E as [E1 E2%elem_of_seq]. split; [done|]. exists i. eexists. split; [reflexivity|].
  split; [lia|]. split; [by rewrite <-Ef|]. split.
  - intros Hi. apply (bl_stops _ Hb i); [by rewrite <-Ef|rewrite <-Ef]. apply elem_of_bits. split; [lia|done].
  - unfold mtlk_flctrl_unregister. rewrite bit_u32 by lia. cbn. rewrite ldiff_lor by done. rewrite <-Ef. by destruct (flctrl s).
Qed.

(** ** Abilities *)

Lemma enable_new ids a m : ab_ok a -> ab_map a = ab_disabled ids m ->
  ab_ok (mtlk_abmgr_enable_ability_set ids a) /\
  forall k, ab_map (mtlk_abmgr_enable_ability_set ids a) !! k = if decide (k ∈ ids) then Some true else m !! k.
Proof.
  intros Ha Em. change (mtlk_abmgr_enable_ability_set ids a) with (ab_set_states true ids a).
  destruct (ab_states_spec true ids a Ha) as [H1 H2].
  - intros id Hid. rewrite Em, ab_disabled_lookup, decide_True by done. by eexists.
  - split; [done|]. intros k. rewrite H2. destruct (decide (k ∈ ids)) as [Hk|Hk]; [done|]. by rewrite Em, ab_disabled_lookup, decide_False.
Qed.

Lemma remove_set ids a : ab_ok a -> NoDup ids -> (forall id, id ∈ ids -> is_Some (ab_map a !! id)) ->
  let a' := mtlk_abmgr_unregister_ability_set ids (mtlk_abmgr_disable_ability_set ids a) in
  ab_ok a' /\ forall k, ab_map a' !! k = if decide (k ∈ ids) then None else ab_map a !! k.
Proof.
  intros Ha Hn Hr. change (mtlk_abmgr_disable_ability_set ids a) with (ab_set_states false ids a).
  destruct (ab_states_spec false ids a Ha Hr) as [H1 H2]. destruct (ab_unregister_set_spec ids _ H1 Hn) as [H3 H4].
  - intros id Hid. by rewrite H2, decide_True.
  - split; [done|]. intros k. rewrite (proj1 (H4 k)), H2. by destruct (decide (k ∈ ids)).
Qed.

Lemma scan_ids_nodup : NoDup _scan_abilities.
Proof. refine (bool_decide_unpack _ _). by vm_compute. Qed.

(** The abilities of a station: there, or the manager is as before. *)
Lemma sta_init_spec s r s' : ab_ok (abmgr s) -> (forall id, id ∈ _scan_abilities -> ab_map (abmgr s) !! id = None) ->
  _mtlk_scan_sta_abilities_init env s = (r, s') ->
  exists a, s' = put_abmgr a s /\ ab_ok a /\
    ((r = MTLK_ERR_OK /\ forall k, ab_map a !! k = if decide (vap_is_ap env = false /\ k ∈ _scan_abilities) then Some true else ab_map (abmgr s) !! k) \/
     (r = MTLK_ERR_NO_MEM /\ ab_map a = ab_map (abmgr s))).
Proof.
  intros Ha Hf H. unfold _mtlk_scan_sta_abilities_init in H. destruct (vap_is_ap env).
  { apply ret_inv in H as [-> ->]. exists (abmgr s). split; [by destruct s|]. split; [done|]. left. split; [done|]. intros k.
    by rewrite decide_False by (by intros [? _]). }
  step H res s1 E1. apply register_set_spec in E1 as (a & -> & H1 & H2); [|done|apply scan_ids_nodup|done].
  destruct H2 as [[-> Hm]|[-> Hm]].
  - change (MTLK_ERR_OK =? MTLK_ERR_OK) with true in H. cbn [when] in H. unfold abilities in H. rewrite modify_bind in H. apply ret_inv in H as [-> ->].
    destruct (enable_new _ _ _ H1 Hm) as [H3 H4]. eexists. split; [reflexivity|]. split; [exact H3|]. left. split; [done|].
    intros k. cbn [abmgr put_abmgr]. rewrite H4. destruct (decide (k ∈ _scan_abilities)); [by rewrite decide_True|by rewrite decide_False by (by intros [_ ?])].
  - change (MTLK_ERR_NO_MEM =? MTLK_ERR_OK) with false in H. cbn [when] in H. rewrite ret_bind in H. apply ret_inv in H as [-> ->].
    exists a. split; [done|]. split; [done|]. by right.
Qed.

Lemma common_init_spec s r s' : ab_ok (abmgr s) -> (forall id, id ∈ _scan_common_abilities -> ab_map (abmgr s) !! id = None) ->
  _mtlk_scan_common_abilities_init env s = (r, s') ->
  exists a, s' = put_abmgr a s /\ ab_ok a /\
    ((r = MTLK_ERR_OK /\ forall k, ab_map a !! k = if decide (k ∈ _scan_common_abilities) then Some true else ab_map (abmgr s) !! k) \/
     (r = MTLK_ERR_NO_MEM /\ ab_map a = ab_map (abmgr s))).
Proof.
  intros Ha Hf H. unfold _mtlk_scan_common_abilities_init in H. step H res s1 E1.
  apply register_set_spec in E1 as (a & -> & H1 & H2); [|done|apply NoDup_singleton|done]. destruct H2 as [[-> Hm]|[-> Hm]].
  - change (MTLK_ERR_OK =? MTLK_ERR_OK) with true in H. cbn [when] in H. unfold abilities in H. rewrite modify_bind in H. apply ret_inv in H as [-> ->].
    destruct (enable_new _ _ _ H1 Hm) as [H3 H4]. eexists. split; [reflexivity|]. split; [exact H3|]. left. by split.
  - change (MTLK_ERR_NO_MEM =? MTLK_ERR_OK) with false in H. cbn [when] in H. rewrite ret_bind in H. apply ret_inv in H as [-> ->].
    exists a. split; [done|]. split; [done|]. by right.
Qed.

(** ** The whole of [mtlk_scan_init] *)

(** Everything as it was, but for resources that were not released. *)
Record given_back (left : list scan_res) (s s' : sys) : Prop := {
  gb_init : initialized (scan s') = false;
  gb_held : held s' = left;
  gb_flctrl : flctrl s' = flctrl s;
  gb_ab : ab_map (abmgr s') = ab_map (abmgr s);
  gb_log : no_faults s'
}.

(** On the way, once there is a vector: the resources [l] are held. *)
Definition initing (l : list scan_res) (id : Z) (f : mtlk_flctrl_t) (s0 s : sys) : Prop :=
  talks_only (put_held l (put_scan (set_flctrl_id id (set_must_load_progmodels true scan_zero)) (put_flctrl f s0))) s.

Lemma initing_ask q l id f s0 s r s1 : initing l id f s0 s -> ask env q s = (r, s1) ->
  initing l id f s0 s1 /\ Asked q r ∈ sc_log s1.
Proof. intros Hi H. apply talks_ask in H as (-> & -> & Ha). split; [unfold initing in *; by etransitivity|]. by left. Qed.

Lemma initing_acquire r l id f s0 s : initing l id f s0 s -> initing (r :: l) id f s0 (put_held (r :: held s) s).
Proof.
  intros [A1 A2 A3 A4 A5 A6 A7 A8 A9 A10 A11]. split; try done. cbn. by rewrite A6.
Qed.

Lemma initing_out l f left id s0 s s' : blank s0 -> initing l id f s0 s -> flctrl s' = flctrl s0 -> scan s' = scan s -> abmgr s' = abmgr s -> sc_log s' = sc_log s ->
  held s' = left -> given_back left s0 s'.
Proof.
  intros Hb [A1 A2 A3 A4 A5 A6 A7 A8 A9 A10 (lg & A11 & A12)] E1 E2 E3 E4 E5. split; rewrite ?E1, ?E2, ?E3, ?A1, ?A4; try done.
  unfold no_faults. rewrite E4, A11. apply Forall_app. split; [done|apply (bl_log _ Hb)].
Qed.

(** A complete object. *)
Record inited (s s' : sys) : Prop := {
  in_init : initialized (scan s') = true;
  in_idle : idle env s';
  in_held : held s' = RLastResult :: made 5;
  in_flctrl : mtlk_flctrl_unregister (flctrl_id (scan s')) (flctrl s') = flctrl s;
  in_ab k : ab_map (abmgr s') !! k =
    if decide (k ∈ _scan_common_abilities \/ (vap_is_ap env = false /\ k ∈ _scan_abilities)) then Some true else ab_map (abmgr s) !! k
}.

(** Which results stand for which outcome. *)
Definition init_outcome (s0 : sys) (r : Z) (s' : sys) : Prop :=
  (r = MTLK_ERR_OK /\ inited s0 s') \/
  (r <> MTLK_ERR_OK /\ given_back [] s0 s') \/
  (r = MTLK_ERR_OK /\ given_back [] s0 s' /\ Asked QAllocLastResult 0 ∈ sc_log s') \/
  (r = MTLK_ERR_NO_MEM /\ given_back [RLastResult] s0 s').

(** The last two steps, which register abilities. *)
Lemma init_abilities_spec i f s0 s r s' : blank s0 -> (i < 32)%nat -> stop_requests_mask f = stop_requests_mask (flctrl s0) ->
  i ∉ bits (stop_requests_mask f) -> mtlk_flctrl_unregister (bit i) f = flctrl s0 ->
  initing (RLastResult :: made 5) (bit i) f s0 s ->
  (res ← _mtlk_scan_sta_abilities_init env;
   step_or res err_alloc_last_result
     (res ← _mtlk_scan_common_abilities_init env;
      step_or res (err_sta_abilities env) (upd (set_initialized true) ;; mret MTLK_ERR_OK))) s = (r, s') ->
  init_outcome s0 r s'.
Proof.
  intros Hb Hi Hm Hn Hu Hs H. pose proof Hs as [A1 A2 A3 A4 A5 A6 A7 A8 A9 A10 (lg & A11 & A12)].
  cbn [scan flctrl bss_cache abmgr pm_live held cfm_due pause_timer tasks turn sc_log put_held put_scan put_flctrl] in A1, A2, A3, A4, A5, A6, A7, A8, A9, A11.
  assert (no_faults s) as Hnf by (unfold no_faults; rewrite A11; apply Forall_app; split; [done|apply (bl_log _ Hb)]).
  step H r1 s1 E1. apply sta_init_spec in E1 as (a & -> & Ha & Hr); [|by rewrite A4; apply Hb|by rewrite A4; apply Hb].
  assert (forall b, unregistered (put_abmgr b s) = put_flctrl (flctrl s0) (put_abmgr b s)) as Eu.
  { intros b. unfold unregistered. cbn [scan flctrl put_abmgr]. rewrite A1, A2. f_equal. exact Hu. }
  destruct Hr as [[-> Hmap]|[-> Hmap]].
  2: { change (step_or _ _ _) with (err_alloc_last_result MTLK_ERR_NO_MEM) in H.
       rewrite (out_chunk [RLastResult]) in H; [|by right|exact A6]. rewrite Eu in H. injection H as <- <-. right; right; right. split; [done|].
       split; try done; cbn; [by rewrite A1|by rewrite Hmap, A4]. }
  match type of H with step_or _ _ ?k _ = _ => change (k (put_abmgr a s) = (r, s')) in H end.
  step H r2 s2 E2. rewrite A4 in Hmap. apply common_init_spec in E2 as (a2 & -> & Ha2 & Hr); [|done|]; cycle 1.
  { intros id Hid. cbn. rewrite Hmap, decide_False; [by apply (bl_common _ Hb)|]. intros [_ Hin]. revert Hid Hin. unfold _scan_common_abilities, _scan_abilities.
    rewrite !elem_of_cons, !elem_of_nil. intros [-> | []] [Hx|[Hx|[Hx|[]]]]; vm_compute in Hx; discriminate. }
  destruct Hr as [[-> Hmap2]|[-> Hmap2]]; cbn [abmgr put_abmgr] in Hmap2.
  - match type of H with step_or _ _ ?k _ = _ => change (k (put_abmgr a2 (put_abmgr a s)) = (r, s')) in H end. steps H. apply ret_inv in H as [-> ->].
    left. split; [done|]. split; [done| |done|cbn [scan flctrl put_scan put_abmgr]; rewrite A1, A2; exact Hu|]; cycle 1.
    { intros k. cbn [abmgr put_scan put_abmgr]. rewrite Hmap2, Hmap. repeat case_decide; try done; exfalso; tauto. }
    assert (forall id, id ∈ _scan_abilities -> vap_is_ap env = false -> ab_map a2 !! id = Some true) as Hids.
    { intros id Hin Hv. rewrite Hmap2. destruct (decide (id ∈ _scan_common_abilities)); [reflexivity|]. by rewrite Hmap, decide_True. }
    split.
    + split; cbn [scan put_scan put_abmgr flctrl abmgr bss_cache]; rewrite ?A1, ?A2, ?A3; try done; [by exists i| | |apply Hb|].
      * change (word (stop_requests_mask f)). rewrite Hm. apply Hb.
      * exists None, None. cbn [pm_live put_scan put_abmgr]. rewrite A5, (bl_live _ Hb). by split_and!.
      * intros Hv id Hin. rewrite Hids by done. by eexists.
    + cbn. by rewrite A1.
    + unfold owed in *. cbn -[Z.add]. rewrite A7, A8, A9. apply (bl_owed _ Hb).
    + cbn. by rewrite A1.
    + apply stop_ok_none; [unfold owed in *; cbn -[Z.add]; rewrite A7, A8, A9; apply (bl_owed _ Hb)|]. intros (j & Ej & Hj). exfalso. cbn [scan flctrl put_scan put_abmgr] in Ej, Hj. rewrite A1 in Ej.
      change (bit i = bit j) in Ej. apply bit_inj in Ej as <-. by rewrite A2 in Hj.
    + intros Hv. split_and!; apply Hids; try done; unfold _scan_abilities; rewrite !elem_of_cons; tauto.
  - change (step_or _ _ _) with (err_sta_abilities env MTLK_ERR_NO_MEM) in H. unfold err_sta_abilities in H. rewrite bind_exec in H.
    assert (exists a3, exec (_mtlk_scan_sta_abilities_cleanup env) (put_abmgr a2 (put_abmgr a s)) = put_abmgr a3 s /\ ab_map a3 = ab_map (abmgr s0)) as (a3 & Ea3 & Em3).
    { unfold _mtlk_scan_sta_abilities_cleanup. destruct (vap_is_ap env) eqn:Ev; cbn [negb when].
      - exists a2. split; [by destruct s|]. rewrite Hmap2. apply map_eq. intros k. rewrite Hmap, decide_False; [done|]. by intros [? _].
      - unfold abilities. rewrite run_modify, run_end_modify. eexists. split; [reflexivity|]. cbn [abmgr put_abmgr].
        destruct (remove_set _scan_abilities a2 Ha2 scan_ids_nodup) as [_ Hrm].
        + intros id Hid. rewrite Hmap2, Hmap, decide_True by done. by eexists.
        + apply map_eq. intros k. rewrite Hrm, Hmap2, Hmap. destruct (decide (k ∈ _scan_abilities)) as [Hk|Hk]; [symmetry; by apply Hb|].
          by rewrite decide_False by (by intros [_ ?]). }
    rewrite Ea3, (out_chunk [RLastResult]) in H; [|by right|exact A6]. rewrite Eu in H. injection H as <- <-. right; right; right. split; [done|].
    split; try done. cbn. by rewrite A1.
Qed.
Lemma fail_early l id left s0 s : blank s0 -> initing l id (flctrl s0) s0 s -> given_back left s0 (put_held left s).
Proof. intros Hb Hs. eapply initing_out; [done|exact Hs|by destruct Hs|done..]. Qed.

Lemma fail_late l i f left s0 s : blank s0 -> initing l (bit i) f s0 s -> mtlk_flctrl_unregister (bit i) f = flctrl s0 ->
  given_back left s0 (put_held left (unregistered s)).
Proof.
  intros Hb Hs Hu. eapply initing_out; [done|exact Hs| |done..]. destruct Hs as [A1 A2 _ _ _ _ _ _ _ _ _]. unfold unregistered.
  cbn [flctrl put_flctrl put_held]. rewrite A1, A2. exact Hu.
Qed.

Lemma initing_held l id f s0 s : initing l id f s0 s -> held s = l.
Proof. by intros []. Qed.

Lemma held_id l s : held s = l -> put_held l s = s.
Proof. destruct s. cbn. by intros ->. Qed.

Lemma initing_register id0 i f l s0 s : initing l id0 (flctrl s0) s0 s -> 
  initing l (bit i) f s0 (put_scan (set_flctrl_id (bit i) (scan s)) (put_flctrl f s)).
Proof. intros [A1 A2 A3 A4 A5 A6 A7 A8 A9 A10 A11]. split; try done. cbn [scan put_scan]. by rewrite A1. Qed.

(** One step of the chain: an error leads out, or the next resource is held. *)
Ltac init_step x H res s E Hs Ha :=
  step H res s E; cbv beta in H; apply (initing_ask _ _ _ _ _ _ _ _ Hs) in E as [E Ha]; clear Hs; rename E into Hs;
  unfold step_or, acquire in H; destruct (Z.eqb_spec res MTLK_ERR_OK) as [->|?]; cbn [negb] in H;
  [rewrite modify_bind in H; apply (initing_acquire x) in Hs|].

Lemma scan_init_spec s0 r s' : blank s0 -> mtlk_scan_init env s0 = (r, s') -> init_outcome s0 r s'.
Proof.
  intros Hb H. unfold mtlk_scan_init in H. steps H. rewrite (bl_init _ Hb) in H. cbn [negb when] in H. rewrite ret_bind, modify_bind in H.
  step H v s1 E1. apply talks_ask in E1 as (-> & -> & Ha). destruct (_ =? 0).
  { apply ret_inv in H as [-> ->]. right; left. split; [done|]. pose proof (bl_held _ Hb). split; try done.
    apply (asked_no_faults _ _ Ha). exact (bl_log _ Hb). }
  unfold acquire, upd in H. rewrite !modify_bind in H. set (s1 := put_scan _ _) in H.
  assert (initing [RVector] 0 (flctrl s0) s0 s1) as H1.
  { unfold s1, initing. pose proof (bl_held _ Hb) as Hh. split; try done; cbn; [by rewrite Hh|lia|].
    eexists [_]. split; [reflexivity|]. by repeat constructor. }
  clearbody s1.
  init_step RCompleted H r2 s2 E2 H1 Ha2.
  2: { rewrite (out_vector [] ltac:(by left)) in H by (by apply initing_held in H1). injection H as <- <-. right; left. split; [done|by eapply fail_early]. }
  init_step RTimer H r3 s3 E3 H1 Ha3.
  2: { rewrite (out_completed [] ltac:(by left)) in H by (by apply initing_held in H1). injection H as <- <-. right; left. split; [done|by eapply fail_early]. }
  init_step RAsyncMsg H r4 s4 E4 H1 Ha4.
  2: { rewrite (out_timer [] ltac:(by left)) in H by (by apply initing_held in H1). injection H as <- <-. right; left. split; [done|by eapply fail_early]. }
  step H r5 s5 E5. set (s4' := put_held _ s4) in *. assert (flctrl s4' = flctrl s0) as Ef by (by destruct H1).
  apply (register_spec_from s0) in E5 as [(Hr5 & id & ->)|(-> & i & f & -> & Hi & Hmask & Hbit & Hun)]; [| |done|done].
  { rewrite (proj2 (Z.eqb_neq _ _) Hr5) in H. cbn [negb] in H.
    rewrite (out_msg [] ltac:(by left)) in H by (by apply initing_held in H1). injection H as <- <-. right; left. split; [done|].
    destruct (fail_early _ _ [] _ _ Hb H1) as [G1 G2 G3 G4 G5]. by split. }
  cbn [negb MTLK_ERR_OK Z.eqb] in H. apply (initing_register 0 i f) in H1.
  init_step RChunkEvent H r6 s6 E6 H1 Ha6.
  2: { rewrite (out_flctrl [] ltac:(by left)) in H by (by apply initing_held in H1). injection H as <- <-. right; left. split; [done|by eapply fail_late]. }
  step H got s7 E7. apply (initing_ask _ _ _ _ _ _ _ _ H1) in E7 as [H7 Ha7]. clear H1. destruct (Z.eqb_spec got 0) as [->|Hgot].
  { rewrite (out_chunk [] ltac:(by left)) in H by (by apply initing_held in H7). injection H as <- <-. right; right; left.
    split; [done|]. split; [by eapply fail_late|done]. }
  rewrite modify_bind in H. apply (initing_acquire RLastResult) in H7. by eapply (init_abilities_spec i f s0); [..|exact H].
Qed.

(** ** [mtlk_scan_cleanup] of an idle object *)

Lemma put_abmgr_twice a b s : put_abmgr a (put_abmgr b s) = put_abmgr a s.
Proof. done. Qed.

Lemma abilities_removed s : ab_ok (abmgr s) -> (forall id, id ∈ _scan_common_abilities -> is_Some (ab_map (abmgr s) !! id)) ->
  (vap_is_ap env = false -> forall id, id ∈ _scan_abilities -> is_Some (ab_map (abmgr s) !! id)) ->
  exists a, exec (_mtlk_scan_sta_abilities_cleanup env) (exec _mtlk_scan_common_abilities_cleanup s) = put_abmgr a s /\
    forall k, ab_map a !! k = if decide (k ∈ _scan_common_abilities \/ (vap_is_ap env = false /\ k ∈ _scan_abilities)) then None else ab_map (abmgr s) !! k.
Proof.
  intros Ha Hc Hs. unfold _mtlk_scan_common_abilities_cleanup, abilities. rewrite run_modify, run_end_modify. cbn [abmgr put_abmgr].
  destruct (remove_set _scan_common_abilities (abmgr s) Ha (NoDup_singleton _) Hc) as [H1 H2].
  unfold _mtlk_scan_sta_abilities_cleanup, abilities. destruct (vap_is_ap env); cbn [negb when].
  - eexists. split; [reflexivity|]. intros k. rewrite H2. repeat case_decide; try done; exfalso; naive_solver.
  - rewrite run_modify, run_end_modify. eexists. split; [reflexivity|]. cbn [abmgr put_abmgr].
    destruct (remove_set _scan_abilities _ H1 scan_ids_nodup) as [_ H4].
    + intros id Hid. rewrite H2, decide_False; [by apply Hs|]. intros Hin. revert Hid Hin. unfold _scan_common_abilities, _scan_abilities.
      rewrite !elem_of_cons, !elem_of_nil. intros [-> | [-> | [-> | []]]] [Hx|[]]; vm_compute in Hx; discriminate.
    + intros k. rewrite H4, H2. repeat case_decide; try done; exfalso; naive_solver.
Qed.

Lemma release_bind {A} r l s (k : unit -> ST sys A) : held s = l -> bool_decide (r ∈ l) = true ->
  (release r ≫= k) s = k tt (put_held (filter (fun x => x <> r) l) s).
Proof. intros E Hr%bool_decide_eq_true. by rewrite bind_exec, (release_one _ _ _ E Hr). Qed.

(** The object as its deletion leaves it. *)
Lemma scan_cleanup_idle s evs : idle env s -> initialized (scan s) = true -> held s = RLastResult :: made 5 ->
  (forall id, id ∈ _scan_common_abilities -> is_Some (ab_map (abmgr s) !! id)) ->
  exists a, mtlk_scan_cleanup env evs s =
      (true, put_scan (set_initialized false (scan s)) (put_held [] (put_flctrl (mtlk_flctrl_unregister (flctrl_id (scan s)) (flctrl s)) (put_abmgr a s)))) /\
    forall k, ab_map a !! k = if decide (k ∈ _scan_common_abilities \/ (vap_is_ap env = false /\ k ∈ _scan_abilities)) then None else ab_map (abmgr s) !! k.
Proof.
  intros [[B1 B2 B3 B4 B5 B6 B7 B8] I2 I3 I4 I5 I6] N1 N3 N5. destruct (abilities_removed s) as (a & Ea & Em); [done..|]. exists a. split; [|done].
  unfold mtlk_scan_cleanup, get, check. rewrite gets_bind, N1. cbn [negb when]. rewrite ret_bind, !bind_exec, Ea.
  unfold scan_terminate_and_wait_completion, mtlk_scan_is_running, get. rewrite bind_assoc, gets_bind. cbn [scan put_abmgr]. rewrite I2. cbn [negb].
  rewrite ret_bind. cbn [negb]. set (s1 := put_abmgr a s). assert (held s1 = RLastResult :: made 5) as Eh by done.
  rewrite (release_bind RAsyncMsg _ _ _ Eh) by reflexivity. erewrite release_bind; [|reflexivity..]. unfold unregister_flctrl. rewrite modify_bind. do 4 (erewrite release_bind; [|reflexivity..]).
  unfold upd. rewrite modify_bind. done.
Qed.

Lemma scan_cleanup_spec s0 s evs : blank s0 -> inited s0 s ->
  eval (mtlk_scan_cleanup env evs) s = true /\ given_back [] s0 (exec (mtlk_scan_cleanup env evs) s).
Proof.
  intros Hb [N1 N2 N3 N4 N5]. destruct (scan_cleanup_idle s evs N2 N1 N3) as (a & E & Em).
  { intros id Hid. rewrite N5, decide_True by auto. by eexists. }
  unfold eval, exec. rewrite E. split; [done|]. split; try done; try exact (bo_log _ _ (id_base _ _ N2)). cbn [snd abmgr put_scan put_held put_flctrl put_abmgr]. apply map_eq. intros k.
  rewrite Em, N5. destruct (decide _) as [[Hk|[_ Hk]]|Hk]; [symmetry; by apply (bl_common _ Hb)|symmetry; by apply (bl_sta _ Hb)|done].
Qed.
End init.
