(* ===== verification/ScanThms.v ===== *)
(** * ScanThms: the scan object as a transition system, and its properties *)
From S2P Require Import Prelude HashInv Abmgr AbmgrThms Cache CacheInv CacheMap Flctrl ScanData Scan ScanInv ScanBands ScanStart ScanInit.

(** ** The life of a scan object *)

Section life.
Context (env : scan_env).

(** Changes of parameters, by those who may make them. *)
Inductive param_change : ST sys unit -> Prop :=
| pc_essid buf : vap_is_ap env = false -> param_change (mtlk_scan_set_essid env buf)
| pc_limit n : vap_is_ap env = false -> param_change (mtlk_scan_set_per_chunk_limit env n)
| pc_pause n : vap_is_ap env = false -> param_change (mtlk_scan_set_pause_between_chunks env n)
| pc_background_enabled b : vap_is_ap env = false -> param_change (mtlk_scan_set_is_background_scan_enabled env b)
| pc_obss b : param_change (mtlk_scan_set_obss b)
| pc_interf b : vap_is_master_ap env = true -> param_change (mtlk_scan_set_is_interf_enabled env b)
| pc_scan_time l s : vap_is_master_ap env = true -> param_change (mtlk_scan_set_scan_time env l s)
| pc_callback cb : param_change (mtlk_scan_register_scan_completed_notification_callback cb)
| pc_policy b : param_change (mtlk_scan_set_load_progmodel_policy b).

(** Besides the functions of scan.c: other users of the flow control object and
    of the cache.  Background mode is not switched on while a scan runs. *)
Inductive scan_step : sys -> sys -> Prop :=
| sc_async band pattern s : 0 <= band < MTLK_HW_BAND_NONE ->
    (is_running (scan s) = false -> may_start env band pattern (scan s)) ->
    scan_step s (exec (mtlk_scan_async env band pattern) s)
| sc_sync band sp polls s : 0 <= band < MTLK_HW_BAND_BOTH ->
    (is_running (scan s) = false -> may_start env band None (scan s)) ->
    scan_step s (exec (mtlk_scan_sync env band sp polls) s)
| sc_deliver e s : scan_step s (exec (deliver env e) s)
| sc_terminate s : scan_step s (exec scan_terminate s)
| sc_terminate_wait evs s : scan_step s (exec (scan_terminate_and_wait_completion env evs) s)
| sc_rescan s : scan_step s (exec mtlk_scan_schedule_rescan s)
| sc_background b s : (is_running (scan s) = true -> b = false) -> scan_step s (exec (mtlk_scan_set_background b) s)
| sc_param m s : param_change m -> scan_step s (exec m s)
| sc_long b s : vap_is_master_ap env = true -> is_interf_enabled (interf_params (scan s)) = true ->
    scan_step s (exec (mtlk_scan_set_is_long_scan_enabled env b) s)
| sc_flctrl f s : word (stop_requests_mask f) -> (forall i, flctrl_id (scan s) = bit i ->
    i ∈ bits (stop_requests_mask f) <-> i ∈ bits (stop_requests_mask (flctrl s))) -> scan_step s (put_flctrl f s)
| sc_cache c lent s : cache_ok lent c -> scan_step s (put_bss_cache c s).

(** From a virtual interface that is blank, through [mtlk_scan_init]. *)
Inductive scan_reach : sys -> Prop :=
| sc_init s0 : (forall l n r, alloc env l n = Some r -> r ∉ l) -> blank s0 ->
    initialized (scan (exec (mtlk_scan_init env) s0)) = true -> scan_reach (exec (mtlk_scan_init env) s0)
| sc_more s s' : scan_reach s -> scan_step s s' -> scan_reach s'.

(** ** Every step keeps the invariant *)

Lemma settled_params p s : settled env s -> (is_running (scan s) = true -> is_background p = true -> is_background (params (scan s)) = true) ->
  settled env (put_scan (set_params p (scan s)) s).
Proof.
  intros [[[B1 B2 B3 B4 B5 B6 B7 B8] I2 I3 I4 I5 I6]|[[[B1 B2 B3 B4 B5 B6 B7 B8] H2 H3 H4 H5 H6 H7] S2 S3 S4]] Hp; [left|right].
  - by split.
  - split; try done. split; try done. intros Hb. apply H6, Hp; [done|exact Hb].
Qed.

Lemma settled_interf i s : settled env s -> vap_is_ap env = true -> settled env (put_scan (set_interf_params i (scan s)) s).
Proof.
  intros [[[B1 B2 B3 B4 B5 B6 B7 B8] I2 I3 I4 I5 I6]|[[[B1 B2 B3 B4 B5 B6 B7 B8] H2 H3 H4 H5 H6 H7] S2 S3 S4]] Hp; [left|right].
  - split; try done. split; try done. intros H. congruence.
  - split; try done. split; try done. split; try done. intros H. congruence.
Qed.

Lemma master_is_ap : vap_is_master_ap env = true -> vap_is_ap env = true.
Proof. unfold vap_is_master_ap. by intros [? _]%andb_true_iff. Qed.

Lemma param_settled m s : param_change m -> settled env s -> settled env (exec m s).
Proof.
  intros Hm Hs. destruct Hm as [buf Hv|n Hv|n Hv|b Hv|b|b Hv|l t Hv|cb|b];
    unfold mtlk_scan_set_essid, mtlk_scan_set_per_chunk_limit, mtlk_scan_set_pause_between_chunks, mtlk_scan_set_is_background_scan_enabled,
      mtlk_scan_set_obss, mtlk_scan_set_is_interf_enabled, mtlk_scan_set_scan_time, check, upd_params, upd_interf, upd; rewrite ?Hv;
    cbn [negb when]; rewrite ?run_ret, ?run_end_modify; try (by apply settled_params); try (by apply settled_interf, master_is_ap).
  - unfold mtlk_scan_register_scan_completed_notification_callback, upd. rewrite run_end_modify.
    destruct Hs as [[[B1 B2 B3 B4 B5 B6 B7 B8] I2 I3 I4 I5 I6]|[[[B1 B2 B3 B4 B5 B6 B7 B8] H2 H3 H4 H5 H6 H7] S2 S3 S4]]; [left|right]; split; try done.
  - unfold mtlk_scan_set_load_progmodel_policy, get, upd. rewrite run_gets. destruct (is_running (scan s)) eqn:Er; cbn [negb when]; [done|].
    rewrite run_end_modify. left. destruct Hs as [[[B1 B2 B3 B4 B5 B6 B7 B8] I2 I3 I4 I5 I6]|[[_ H2 _ _ _ _ _] _ _ _]]; [|congruence]. by split.
Qed.

Lemma wait_settled evs s r s' : settled env s -> wait_completed env evs s = (r, s') -> settled env s'.
Proof.
  revert s. induction evs as [|e evs IH]; intros s Hs H; cbn [wait_completed] in H; steps H; destruct (completed (scan s)).
  1-3: by apply ret_inv in H as [_ ->].
  rewrite bind_exec in H. by apply IH in H; [|apply deliver_settled].
Qed.

Lemma flctrl_settled f s : settled env s -> word (stop_requests_mask f) -> (forall i, flctrl_id (scan s) = bit i ->
  i ∈ bits (stop_requests_mask f) <-> i ∈ bits (stop_requests_mask (flctrl s))) -> settled env (put_flctrl f s).
Proof.
  intros Hs Hw Hf. assert (stop_ok s -> stop_ok (put_flctrl f s)) as Hstop.
  { assert (stop_bit s <-> stop_bit (put_flctrl f s)) as Hb by (split; intros (i & Ei & Hi); exists i; (split; [done|by apply (Hf i Ei)])).
    intros [H1 H2]. split; [intros Hc; by apply Hb, H1|intros Hx; by apply H2, Hb]. }
  destruct Hs as [[[B1 B2 B3 B4 B5 B6 B7 B8] I2 I3 I4 I5 I6]|[[[B1 B2 B3 B4 B5 B6 B7 B8] H2 H3 H4 H5 H6 H7] S2 S3 S4]]; [left|right];
    split; try done; try (by apply Hstop); by split.
Qed.

Lemma step_settled s s' : scan_step s s' -> settled env s -> settled env s'.
Proof.
  intros Hst Hs. destruct Hst as [band pattern s Hb Hm|band sp polls s Hb Hm|e s|s|evs s|s|b s Hb|m s Hm|b s Hv Hi|f s Hw Hf|c lent s Hc].
  - unfold exec. destruct (mtlk_scan_async env band pattern s) as [r s'] eqn:E. apply async_spec in E as [[_ Ha]|(_ & Hbeg & _)]; [| |done..|apply Hb].
    + by eapply asked_settled.
    + by eapply begun_settled.
  - unfold exec. destruct (mtlk_scan_sync env band sp polls s) as [r s'] eqn:E. eapply sync_settled in E; [done..|apply Hb].
  - by apply deliver_settled.
  - by apply terminate_settled.
  - unfold exec. destruct (scan_terminate_and_wait_completion env evs s) as [r s'] eqn:E. unfold scan_terminate_and_wait_completion, mtlk_scan_is_running in E.
    steps E. destruct (is_running (scan s)); cbn [negb] in E; [|by apply ret_inv in E as [_ ->]]. steps E. step E d s1 E1.
    apply wait_settled in E1 as Hs1; [|by apply (settled_flag env (set_treminate_scan true)); [right|]].
    destruct d; cbn [when] in E; [unfold cache_clear in E; rewrite modify_bind in E|rewrite ret_bind in E]; apply ret_inv in E as [_ ->]; [|done].
    destruct Hs1 as [[[B1 B2 B3 [lent B4] B5 B6 B7 B8] I2 I3 I4 I5 I6]|[[[B1 B2 B3 [lent B4] B5 B6 B7 B8] H2 H3 H4 H5 H6 H7] S2 S3 S4]]; [left|right];
      split; try done; split; try done; try split; try done; exists lent; by apply clear_ok.
  - apply (settled_flag env (set_rescan true)); [by left|done].
  - unfold mtlk_scan_set_background, upd_params, upd. rewrite run_end_modify. apply settled_params; [done|]. intros Hr Hx. rewrite Hb in Hx by done. done.
  - by apply param_settled.
  - unfold mtlk_scan_set_is_long_scan_enabled, check, get, upd_interf, upd. rewrite Hv. cbn [negb when]. rewrite run_ret, run_gets, Hi. cbn [negb when].
    rewrite run_ret, run_end_modify. by apply settled_interf, master_is_ap.
  - by apply flctrl_settled.
  - destruct Hs as [[[B1 B2 B3 B4 B5 B6 B7 B8] I2 I3 I4 I5 I6]|[[[B1 B2 B3 B4 B5 B6 B7 B8] H2 H3 H4 H5 H6 H7] S2 S3 S4]]; [left|right];
      split; try done; split; try done; try split; try done; by exists lent.
Qed.

Lemma reach_settled s : scan_reach s -> settled env s.
Proof.
  induction 1 as [s0 Hf Hb Hi|s s' _ IH Hst]; [|by eapply step_settled]. unfold exec in *.
  destruct (mtlk_scan_init env s0) as [r s'] eqn:E. cbn [snd] in *. apply scan_init_spec in E; [|done..].
  destruct E as [(_ & [_ Hidle _ _ _])|[(_ & [G _ _ _ _])|[(_ & [G _ _ _ _] & _)|(_ & [G _ _ _ _])]]]; [by left|congruence..].
Qed.
End life.

(** ** Soundness *)

Section sound.
Context (env : scan_env).

(** C17. In every state a scan object reaches while its callers keep to
    [scan_step] and [may_start], no assertion has failed, no NULL model was
    used and nothing was freed twice; a running scan waits for exactly one
    thing, the confirmation, the timer or the task, unless the serializer
    refused the task, and an idle one for nothing; the data is stopped while a
    request is in flight and otherwise only after a confirmation timed out;
    every allocated programming model is referenced, and none is left when no
    scan runs; and the configuration of scans can be changed exactly while none
    runs. What the callers keep to: background mode is not switched on while a
    scan runs, a background scan covers the band the core works on and is not
    combined with interference mode, each setter is used by the interface it is
    for, and [scan_complete] is not called from outside (the core does it when
    the network is halted: [ScanErr.halted_ends_twice]). *)
Theorem scan_sound s : scan_reach env s ->
  no_faults s /\
  (if is_running (scan s) then owed s = 1 \/ owed s = 0 /\ refused s else owed s = 0) /\
  (cfm_due s = 1%nat -> stop_bit s) /\ (stop_bit s -> cfm_due s = 1%nat \/ is_cfm_timeout (scan s) = true) /\
  (forall p, p ∈ pm_live s <-> Some p ∈ progmodels (scan s)) /\ (is_running (scan s) = false -> pm_live s = ∅) /\
  sta_flags env (negb (is_running (scan s))) (ab_map (abmgr s)).
Proof.
  intros Hr%reach_settled. assert (forall s, pms_ok s -> forall p, p ∈ pm_live s <-> Some p ∈ progmodels (scan s)) as Hpm.
  { intros t (a & b & -> & -> & _ & _) p. rewrite list_to_set_app_L, elem_of_union, !elem_of_list_to_set, !list_elem_of_In.
    destruct a, b; cbn; naive_solver. }
  destruct Hr as [[Hb I2 I3 I4 I5 I6]|[[Hb H2 H3 H4 H5 H6 H7] S2 S3 S4]].
  - rewrite I2. split_and!; try done; [apply Hb|apply I5|apply I5|apply Hpm, Hb|]. intros _. destruct (bo_pms _ _ Hb) as (a & b & E1 & E2 & _).
    rewrite I4 in E1. injection E1 as <- <-. by rewrite E2.
  - rewrite H2. split_and!; try done; [apply Hb|apply S2|apply S2|apply Hpm, Hb].
Qed.

(** ** Progress *)

Definition deliver_all (evs : list sc_event) (s : sys) : sys := foldl (fun s e => exec (deliver env e) s) s evs.

(** What reaches a running scan: events, and requests of other threads. *)
Inductive sc_input := Happens (e : sc_event) | Rescans | Terminates.
Definition feed (i : sc_input) : ST sys unit :=
  match i with Happens e => deliver env e | Rescans => mtlk_scan_schedule_rescan | Terminates => scan_terminate end.
Definition feed_all (ins : list sc_input) (s : sys) : sys := foldl (fun s i => exec (feed i) s) s ins.
Definition is_event (i : sc_input) : bool := match i with Happens _ => true | _ => false end.
Definition is_rescan (i : sc_input) : bool := match i with Rescans => true | _ => false end.

(** Every event has something to deliver. *)
Fixpoint all_due (ins : list sc_input) (s : sys) : Prop :=
  match ins with
  | [] => True
  | i :: ins => match i with Happens e => due e s = true | _ => True end /\ all_due ins (exec (feed i) s)
  end.

Lemma idle_not_due e s : idle env s -> due e s = false.
Proof. intros Hi. apply id_owed, owed_zero in Hi as (C1 & C2 & C3). destruct e; cbn [due]; by rewrite ?C1, ?C2, ?C3. Qed.

Lemma waiting_due s : owed s = 1 -> exists e, due e s = true.
Proof.
  intros [(C & _)|[(_ & C & _)|(_ & _ & C)]]%owed_one; [exists (EvConfirm false 0)|exists EvTimer|exists EvTask]; cbn [due]; by rewrite C.
Qed.

Lemma remaining_pos N s : progressive env N -> owed s = 1 -> 1 <= remaining N s.
Proof.
  intros [HN _] Ho. assert (0 <= chunks N (scan s)).
  { specialize (HN (turn s)). pose proof (u16_range (oracle env (turn s) QVectorUsed)). unfold chunks, later.
    destruct (_ =? _), (rescan (scan s)); lia. }
  unfold remaining. destruct (owed_one s Ho) as [(C1 & C2 & C3)|[(C1 & C2 & C3)|(C1 & C2 & C3)]]; rewrite C1, C2, C3; cbn [Z.b2z]; lia.
Qed.

(** Requests of other threads only set flags. *)
Lemma feed_flag i s : is_event i = false ->
  let s' := exec (feed i) s in
  (forall e, due e s' = due e s) /\ is_running (scan s') = is_running (scan s) /\ completed (scan s') = completed (scan s) /\
  (waiting env s -> vector_ok env (scan s) -> waiting env s' /\ vector_ok env (scan s')) /\
  (forall N, 0 <= N -> remaining N s' <= remaining N s + 6 * N * Z.b2z (is_rescan i)).
Proof.
  intros Hi s'. assert (forall f, bland f -> (forall e, due e (put_scan (f (scan s)) s) = due e s) /\
    (waiting env s -> waiting env (put_scan (f (scan s)) s))) as Hf.
  { intros f Hf. split; [by intros []|]. intros (H1 & H2 & H3). split; [by apply bland_busy|]. split; [done|].
    destruct (Hf (scan s)) as (r & o & v & l & b & E). unfold stop_ok, stop_bit in *. cbn [scan put_scan flctrl]. by rewrite E. }
  destruct i as [e| |]; [done|..]; unfold s'; cbn [feed is_rescan Z.b2z].
  - destruct (Hf (set_rescan true) (bland_rescan true)) as [H1 H2]. unfold mtlk_scan_schedule_rescan, upd. rewrite run_end_modify.
    split; [done|split; [done|split; [done|split; [auto|]]]]. intros N HN. unfold remaining, chunks, later. cbn -[Z.mul Z.add Z.sub Z.max Z.of_nat Z.b2z]. destruct (_ =? _), (rescan (scan s)); lia.
  - unfold scan_terminate, mtlk_scan_is_running, get. rewrite run_gets. destruct (is_running (scan s)) eqn:Er; cbn [when]; [|rewrite run_end_ret; split_and!; try done; intros; lia].
    destruct (Hf (set_treminate_scan true) (bland_term true)) as [H1 H2]. unfold upd. rewrite run_end_modify.
    split; [done|split; [done|split; [done|split; [auto|]]]]. intros N HN. unfold remaining, chunks, later. cbn -[Z.mul Z.add Z.sub Z.max Z.of_nat Z.b2z]. lia.
Qed.

(** Where nothing is left to happen, only requests come. *)
Lemma rest_quiet ins s : (forall e, due e s = false) -> all_due ins s ->
  Forall (fun i => is_event i = false) ins /\ countb is_event ins = 0 /\
  is_running (scan (feed_all ins s)) = is_running (scan s) /\ completed (scan (feed_all ins s)) = completed (scan s).
Proof.
  revert s. induction ins as [|i ins IH]; intros s Hn Hd; [by split|]. destruct Hd as [Hd Hrest].
  assert (is_event i = false) as Hi by (destruct i; [by rewrite Hn in Hd|done..]).
  destruct (feed_flag i s Hi) as (F1 & F2 & F3 & _). destruct (IH (exec (feed i) s)) as (I1 & I2 & I3 & I4); [intros e; by rewrite F1|done|].
  split; [by constructor|]. cbn [countb foldr]. fold (countb is_event ins). rewrite Hi. split; [exact I2|]. cbn [feed_all foldl].
  by rewrite <-F2, <-F3.
Qed.

(** The last event was the timer's, and the serializer refused its task. *)
Definition task_refused (ins : list sc_input) (s : sys) : Prop := exists pre post,
  ins = pre ++ Happens EvTimer :: post /\ Forall (fun i => is_event i = false) post /\
  oracle env (turn (feed_all pre s)) QSchedule <> MTLK_ERR_OK.

Lemma refused_later i ins s : task_refused ins (exec (feed i) s) -> task_refused (i :: ins) s.
Proof. intros (pre & post & -> & H1 & H2). by exists (i :: pre), post. Qed.

Lemma drive N ins s : progressive env N -> waiting env s -> vector_ok env (scan s) -> all_due ins s ->
  let s' := feed_all ins s in
  countb is_event ins <= remaining N s + 6 * N * countb is_rescan ins /\
  ((is_running (scan s') = false /\ completed (scan s') = true) \/ (exists e, due e s' = true) \/ task_refused ins s).
Proof.
  intros HN. assert (0 <= N) as HN0 by (pose proof (proj1 HN 0%nat); pose proof (u16_range (oracle env 0 QVectorUsed)); lia).
  assert (forall l, 0 <= countb is_rescan l) as Hpos by (intros l; apply countb_range).
  revert s. induction ins as [|i ins IH]; intros s Hw Hv Hd s'; cbn [countb foldr].
  { pose proof (remaining_pos N s HN (proj1 (proj2 Hw))). split; [lia|]. right; left. apply waiting_due, Hw. }
  destruct Hd as (Hd & Hrest). fold (countb is_event ins) (countb is_rescan ins). specialize (Hpos ins).
  destruct (is_event i) eqn:Ei; cbn [Z.b2z].
  - destruct i as [e| |]; try done. cbn [is_rescan Z.b2z]. destruct (deliver_due env e s Hw Hv Hd) as [[[Hi Hc]|(Hw' & Hv' & _ & Hlt)]|(-> & _ & Ho & Hne)].
    + destruct (rest_quiet ins _ (fun e' => idle_not_due e' _ Hi) Hrest) as (_ & R2 & R3 & R4). pose proof (remaining_pos N s HN (proj1 (proj2 Hw))).
      split; [rewrite R2; lia|]. left. change s' with (feed_all ins (exec (deliver env e) s)). rewrite R3, R4. split; [apply Hi|done].
    + specialize (Hlt N HN). destruct (IH _ Hw' Hv' Hrest) as [H1 H2]. split; [lia|]. destruct H2 as [H2|[H2|H2]]; [by left|by right; left|right; right; by apply refused_later].
    + assert (forall e', due e' (exec (deliver env EvTimer) s) = false) as Hno.
      { apply owed_zero in Ho as (C1 & C2 & C3).
        intros []; cbn [due]; by rewrite ?C1, ?C2, ?C3. }
      destruct (rest_quiet ins _ Hno Hrest) as (R1 & R2 & _). pose proof (remaining_pos N s HN (proj1 (proj2 Hw))). split; [rewrite R2; lia|].
      right; right. by exists [], ins.
  - destruct (feed_flag i s Ei) as (_ & _ & _ & F4 & F5). destruct (F4 Hw Hv) as [Hw' Hv']. destruct (IH _ Hw' Hv' Hrest) as [H1 H2]. specialize (F5 N HN0).
    split; [lia|]. destruct H2 as [H2|[H2|H2]]; [by left|by right; left|right; right; by apply refused_later].
Qed.

(** C18 A scan that has begun ends, unless the serializer refuses the task that
    goes on after a pause.  When the vector of a band holds at most [N] channels
    and every request moves the offset on, no more than [12 * N] events
    (confirmations whatever their status or timed out, pauses, tasks) follow,
    and [6 * N] more for each request to scan again; requests to terminate may
    come at any time.  When nothing is left to happen the scan is over, or its
    last event was the timer's and the serializer refused its task, which
    [pause_timer_handler] only logs. *)
Theorem scan_finishes N s band pattern ins : progressive env N -> scan_reach env s -> is_running (scan s) = false ->
  may_start env band pattern (scan s) -> cfm_due (exec (mtlk_scan_async env band pattern) s) = 1%nat ->
  let s1 := exec (mtlk_scan_async env band pattern) s in
  all_due ins s1 ->
  let s' := feed_all ins s1 in
  countb is_event ins <= 12 * N + 6 * N * countb is_rescan ins /\
  ((forall e, due e s' = false) -> (is_running (scan s') = false /\ completed (scan s') = true) \/ task_refused ins s1).
Proof.
  intros HN Hr%reach_settled Hrun Hm Hc s1' Hd. unfold s1', exec in *. destruct (mtlk_scan_async env band pattern s) as [r s1] eqn:E. cbn [snd] in *.
  apply async_spec in E as [[_ Ha]|(_ & Hbeg & _)]; [| |done|done|apply Hm].
  { rewrite (oa_cfm _ _ Ha) in Hc. destruct Hr as [Hi|[[_ Hx _ _ _ _ _] _ _ _]]; [|congruence].
    apply id_owed, owed_zero in Hi as (Hz & _). congruence. }
  destruct Hbeg as [[Hi _]|(Hw & _ & Hv & _ & Hch)]; [apply id_owed, owed_zero in Hi as (Hz & _); congruence|].
  specialize (Hch N HN). destruct (drive N ins s1 HN Hw Hv Hd) as [H1 H2]. split.
  - unfold remaining in H1. destruct (owed_one s1 (proj1 (proj2 Hw))) as [(C1 & C2 & C3)|[(C1 & _)|(C1 & _)]]; [|congruence..].
    rewrite C1, C2, C3 in H1. cbn [Z.b2z] in H1. lia.
  - intros Hno. destruct H2 as [H2|[[e He]|H2]]; [by left|by rewrite Hno in He|by right].
Qed.

(** C36 When the vector of a band holds at most [N] channels and every request
    moves the offset on, a synchronous scan returns, with the scan over, once the
    firmware has confirmed [4 * N] requests, whatever else happens meanwhile;
    provided there are no pauses between its chunks and nobody asks for a
    re-scan. *)
Theorem sync_scan_returns N s band sp polls : progressive env N -> scan_reach env s -> is_running (scan s) = false ->
  may_start env band None (scan s) -> band < MTLK_HW_BAND_BOTH ->
  is_background (params (scan s)) && negb (pause_between_chunks (params (scan s)) =? 0) = false ->
  Forall no_rescan polls -> 4 * N <= countb is_confirm polls ->
  exists r s', mtlk_scan_sync env band sp polls s = (Some r, s') /\ is_running (scan s') = false.
Proof.
  intros HN Hr%reach_settled Hrun Hm Hb Hp Hres Hcnt. unfold mtlk_scan_sync, check. rewrite (proj2 (Z.ltb_lt _ _) Hb). cbn [negb when].
  rewrite ret_bind. unfold upd at 1. rewrite modify_bind. apply (settled_chunk env false) in Hr. set (s1 := put_scan _ s) in *.
  unfold mbind, st_bind. destruct (do_scan env band sp None true s1) as [res s2] eqn:E.
  apply do_scan_spec in E as [[-> Ha]|(_ & Hbeg & Hres1 & Hres2)]; [| |done|done].
  - cbn. eexists _, _. split; [reflexivity|]. by rewrite (oa_scan _ _ Ha).
  - destruct (Z.eqb_spec res MTLK_ERR_OK) as [->|Hne]; cbn [negb].
    + destruct (Hres1 eq_refl) as [Hc _]. destruct Hbeg as [[Hi _]|(Hw & _ & Hv & Hst & Hch)]; [apply id_owed, owed_zero in Hi as (Hz & _); congruence|].
      destruct (sync_wait_returns env N polls MTLK_ERR_OK s2 HN Hres) as (r & s' & E & Hi & _); [| |by exists r, s'; split; [exact E|apply Hi]].
      * split; try done; [by rewrite (st_chunk _ _ _ Hst)|]. by rewrite (st_background _ _ _ Hst), (st_pause _ _ _ Hst).
      * specialize (Hch N HN). lia.
    + eexists _, _. split; [reflexivity|]. destruct Hbeg as [[Hi _]|(_ & Hc & _)]; [apply Hi|].
      destruct (Hres2 Hc) as [?|(_ & Hx & _)]; [done|]. rewrite Hx in Hb. done.
Qed.
End sound.
