(* ===== verification/ScanErr.v ===== *)
(** * ScanErr: creation and deletion, and where scanning goes wrong *)
From S2P Require Import Prelude HashInv Abmgr AbmgrThms Cache CacheInv CacheMap Flctrl ScanData Scan ScanInv ScanBands ScanStart ScanInit ScanThms.

Section err.
Context (env : scan_env).

(** ** Creation and deletion *)

(** C39 [mtlk_scan_init] makes a complete object, or fails with everything given
    back; with two exceptions.  When the last result cannot be allocated it
    answers success, although there is no object.  When the abilities cannot be
    registered the last result is not freed. *)
Theorem scan_init_outcomes s r s' : (forall l n x, alloc env l n = Some x -> x ∉ l) -> blank s ->
  mtlk_scan_init env s = (r, s') ->
  (r = MTLK_ERR_OK /\ inited env s s') \/
  (r <> MTLK_ERR_OK /\ given_back [] s s') \/
  (r = MTLK_ERR_OK /\ given_back [] s s' /\ Asked QAllocLastResult 0 ∈ sc_log s') \/
  (r = MTLK_ERR_NO_MEM /\ given_back [RLastResult] s s').
Proof. intros Hf Hb H. by apply (scan_init_spec env Hf s r s' Hb). Qed.

(** What creation took stays with the object whatever it does. *)
Record kept (s s' : sys) : Prop := {
  ke_held : held s' = held s; ke_init : initialized (scan s') = initialized (scan s);
  ke_table : ability_states_hash (abmgr s') = ability_states_hash (abmgr s)
}.
#[local] Instance kept_preorder : PreOrder kept.
Proof. split; [by split|]. intros x y z [] []. split; congruence. Qed.

Lemma states_table b ids a : ability_states_hash (ab_set_states b ids a) = ability_states_hash a.
Proof.
  unfold ab_set_states. revert a. induction ids as [|id ids IH]; intros a; [done|]. cbn. rewrite IH.
  unfold _mtlk_abmgr_set_ability_state. by case_match.
Qed.

Lemma kept_idle : within kept (_mtlk_scan_abilities_set_idle env).
Proof.
  apply within_when; [apply _|]. unfold abilities. apply within_bind; [apply _| |intros _]; intros s; (split; [done..|]).
  - exact (states_table false _scan_abilities (abmgr s)).
  - exact (states_table true _scan_abilities (abmgr s)).
Qed.
Lemma kept_active : within kept (_mtlk_scan_abilities_set_active env).
Proof.
  apply within_when; [apply _|]. unfold abilities. apply within_bind; [apply _| |intros _]; intros s; (split; [done..|]).
  - exact (states_table false _scan_abilities (abmgr s)).
  - exact (states_table true _scan_active_abilities (abmgr s)).
Qed.
Lemma kept_ask q : within kept (ask env q).
Proof. by intros s. Qed.
#[local] Hint Resolve kept_idle kept_active kept_ask : kept.

Ltac keeps := repeat first
  [ apply (within_ret _) | apply (within_gets _) | (intros ?; split; reflexivity) | solve [eauto with kept]
  | apply (within_bind _); [|intros ?] | apply (within_when _) | apply (within_for_each _); intros ? _
  | progress unfold get, upd, emit, check, upd_params, upd_interf, stop_data, start_data, cache_clear | case_match ].

Lemma kept_delete : within kept delete_progmodels.
Proof. unfold delete_progmodels, delete_one. keeps. Qed.
Lemma kept_essid buf : within kept (mtlk_scan_set_essid env buf).
Proof. unfold mtlk_scan_set_essid. keeps. Qed.
#[local] Hint Resolve kept_delete kept_essid : kept.
Lemma kept_preload : within kept (preload_progmodels env).
Proof.
  assert (forall l, within kept (load_all env l)) as Hl by (intros l; induction l; cbn [load_all]; keeps).
  unfold preload_progmodels, preload_spectra, create_progmodel, preload_failed. keeps.
Qed.
Lemma kept_ps b : within kept (send_ps_req env b).
Proof. unfold send_ps_req. keeps. Qed.
#[local] Hint Resolve kept_preload kept_ps : kept.
Lemma kept_chunk : within kept (scan_next_chunk env).
Proof. unfold scan_next_chunk, err_scan, err_send_ps_req, load_and_configure_progmodel, with_progmodel, send_scan_req. keeps. Qed.
Lemma kept_finished : within kept (scan_finished env).
Proof. unfold scan_finished. keeps. Qed.
#[local] Hint Resolve kept_chunk kept_finished : kept.
Lemma kept_band m : within kept m -> within kept (scan_current_band_with env m).
Proof. intros Hm. unfold scan_current_band_with, scan_complete_with. keeps. Qed.
#[local] Hint Resolve kept_band : kept.
Lemma kept_coc n : within kept (coc env n).
Proof. induction n as [|n IH]; cbn [coc]; [keeps|]. unfold scan_next_band_with. keeps. Qed.
#[local] Hint Resolve kept_coc : kept.
Lemma kept_complete : within kept (scan_complete env).
Proof. unfold scan_complete, scan_complete_with, complete_or_continue. keeps. Qed.
#[local] Hint Resolve kept_complete : kept.

Lemma kept_elapsed : within kept (_mtlk_scan_handle_evt_pause_elapsed env).
Proof.
  unfold _mtlk_scan_handle_evt_pause_elapsed, setup_scan_sequence, scan_current_band, scan_remaining_channels, complete_or_continue. keeps.
Qed.
#[local] Hint Resolve kept_elapsed : kept.
Lemma kept_confirmed st : within kept (mtlk_scan_handle_evt_scan_confirmed env st).
Proof. unfold mtlk_scan_handle_evt_scan_confirmed, leave_background, switch_back_progmodel, with_progmodel. keeps. Qed.
#[local] Hint Resolve kept_confirmed : kept.
Lemma kept_deliver e : within kept (deliver env e).
Proof. destruct e; cbn [deliver]; unfold confirm_taken, pause_timer_handler; keeps. Qed.
#[local] Hint Resolve kept_deliver : kept.
Lemma kept_start band sp pattern b : within kept (do_scan env band sp pattern b).
Proof. unfold do_scan, do_scan_enter, do_scan_started, interf_enabled, setup_scan_sequence, scan_current_band, complete_or_continue. keeps. Qed.
#[local] Hint Resolve kept_start : kept.
Lemma kept_terminate : within kept scan_terminate.
Proof. unfold scan_terminate, mtlk_scan_is_running. keeps. Qed.
#[local] Hint Resolve kept_terminate : kept.
Lemma kept_sync_wait polls res : within kept (sync_wait env polls res).
Proof.
  revert res. induction polls as [|p polls IH]; intros res; cbn [sync_wait]; [keeps|].
  assert (within kept (outside env p)) as Ho by (destruct p; cbn [outside]; unfold confirm_taken, mtlk_scan_schedule_rescan; keeps). keeps.
Qed.
#[local] Hint Resolve kept_sync_wait : kept.
Lemma kept_wait evs : within kept (wait_completed env evs).
Proof. induction evs as [|e evs IH]; cbn [wait_completed]; keeps. Qed.
#[local] Hint Resolve kept_wait : kept.

Lemma kept_step s s' : scan_step env s s' -> kept s s'.
Proof.
  intros Hst. destruct Hst as [band pattern s Hb Hm|band sp polls s Hb Hm|e s|s|evs s|s|b s Hb|m s Hm|b s Hv Hi|f s Hw Hf|c lent s Hc]; try done.
  - unfold mtlk_scan_async. revert s Hm. intros s _. revert s. change (within kept (mtlk_scan_async env band pattern)). unfold mtlk_scan_async. keeps.
  - revert s Hm. intros s _. revert s. change (within kept (mtlk_scan_sync env band sp polls)). unfold mtlk_scan_sync. keeps.
  - apply kept_deliver.
  - apply kept_terminate.
  - revert s. change (within kept (scan_terminate_and_wait_completion env evs)). unfold scan_terminate_and_wait_completion, mtlk_scan_is_running. keeps.
  - destruct Hm; revert s; match goal with |- forall s, kept s (exec ?m s) => change (within kept m) end;
      unfold mtlk_scan_set_per_chunk_limit, mtlk_scan_set_pause_between_chunks, mtlk_scan_set_is_background_scan_enabled,
      mtlk_scan_set_obss, mtlk_scan_set_is_interf_enabled, mtlk_scan_set_scan_time, mtlk_scan_register_scan_completed_notification_callback,
      mtlk_scan_set_load_progmodel_policy; keeps.
  - clear Hi. revert s. change (within kept (mtlk_scan_set_is_long_scan_enabled env b)). unfold mtlk_scan_set_is_long_scan_enabled. keeps.
Qed.

Lemma reach_kept s : scan_reach env s -> initialized (scan s) = true /\ held s = RLastResult :: made 5 /\
  forall id, id ∈ _scan_common_abilities -> is_Some (ab_map (abmgr s) !! id).
Proof.
  induction 1 as [s0 Hf Hb Hi|s s' _ (I1 & I2 & I3) Hst].
  - unfold exec in *. destruct (mtlk_scan_init env s0) as [r s'] eqn:E. cbn [snd] in *. apply scan_init_spec in E; [|done..].
    destruct E as [(_ & [_ _ H3 _ H5])|[(_ & [G _ _ _ _])|[(_ & [G _ _ _ _] & _)|(_ & [G _ _ _ _])]]]; [|congruence..].
    split; [done|split; [done|]]. intros id Hid. rewrite H5, decide_True by auto. by eexists.
  - destruct (kept_step s s' Hst) as [K1 K2 K3]. split; [congruence|split; [congruence|]]. intros id Hid.
    specialize (I3 id Hid). unfold ab_map in *. rewrite lookup_fmap, fmap_is_Some, K3 in *. exact I3.
Qed.


(** ** What ending a scan leaves alone *)

Record still (s s' : sys) : Prop := {
  sl_flctrl : flctrl s' = flctrl s; sl_id : flctrl_id (scan s') = flctrl_id (scan s); sl_ps : ps_on s' = ps_on s;
  sl_cfm : cfm_due s' = cfm_due s; sl_log e : e ∈ sc_log s -> e ∈ sc_log s'
}.
#[local] Instance still_preorder : PreOrder still.
Proof. split; [by split|]. intros x y z [] []. split; try congruence. auto. Qed.

Lemma still_modify f : (forall s, still s (f s)) -> within still (modify f).
Proof. intros Hf s. apply Hf. Qed.

Ltac is_still := apply still_modify; intros ?; split; try done; intros ? ?; by right.

Lemma delete_still : within still delete_progmodels.
Proof.
  apply within_for_each; [apply _|]. intros i _. unfold delete_one, get, upd, emit. apply within_bind; [apply _|apply within_gets, _|].
  intros [pm|]; [|apply within_ret, _]. apply within_bind; [apply _|apply within_gets, _|intros ok].
  apply within_bind; [apply _|apply within_when; [apply _|is_still]|intros _].
  apply within_bind; [apply _|is_still|intros _; is_still].
Qed.

Lemma abilities_still f : within still (abilities f).
Proof. unfold abilities. is_still. Qed.

Lemma finished_still s : still s (exec (scan_finished env) s) /\ (is_running (scan s) = false -> AssertFailed ∈ sc_log (exec (scan_finished env) s)).
Proof.
  unfold scan_finished, get, upd, check, emit. rewrite run_gets, exec_bind. set (s1 := exec (when _ _) s).
  assert (still s s1 /\ is_running (scan s1) = is_running (scan s)) as [H1 Hr1].
  { unfold s1. destruct (must_load_progmodels (scan s)); [|done]. cbn [when]. split; [apply delete_still|].
    enough (within (fun s s' => is_running (scan s') = is_running (scan s)) delete_progmodels) as H by apply H.
    assert (PreOrder (fun s s' : sys => is_running (scan s') = is_running (scan s))) by (split; [done|intros x y z Ha Hb; congruence]).
    apply within_for_each; [done|]. intros i _ t. unfold delete_one, get, upd, emit. rewrite run_gets. destruct (mjoin _); [|done].
    rewrite run_gets. by destruct (bool_decide _). }
  rewrite run_gets, run_modify. set (s2 := put_scan _ s1). assert (still s1 s2) as H2 by (by split).
  rewrite exec_bind. set (s3 := exec (when _ _) s2). assert (still s2 s3 /\ (is_running (scan s) = false -> AssertFailed ∈ sc_log s3)) as [H3 Ha].
  { unfold s3. rewrite Hr1. destruct (is_running (scan s)); cbn [negb when]; [done|]. unfold emit. rewrite run_end_modify.
    split; [split; try done; intros ? ?; by right|]. intros _. by left. }
  clearbody s3. match goal with |- still s (exec ?m s3) /\ _ => assert (within still m) as Hm end.
  { apply within_bind; [apply _| |intros _].
    - apply within_when; [apply _|]. unfold mtlk_scan_set_essid, check, upd_params, upd, emit. apply within_bind; [apply _|apply within_when; [apply _|is_still]|intros _; is_still].
    - apply within_bind; [apply _|is_still|intros _]. apply within_bind; [apply _|is_still|intros _].
      apply within_bind; [apply _| |intros _].
      + unfold _mtlk_scan_abilities_set_idle. apply within_when; [apply _|]. apply within_bind; [apply _|apply abilities_still|intros _; apply abilities_still].
      + apply within_bind; [apply _|apply within_gets, _|intros cb]. apply within_bind; [apply _| |intros _; apply within_ret, _].
        destruct cb; [is_still|apply within_ret, _]. }
  split; [etransitivity; [exact H1|etransitivity; [exact H2|etransitivity; [exact H3|apply Hm]]]|].
  intros Hr. by apply (sl_log _ _ (Hm s3)), Ha.
Qed.

Lemma complete_exec s : exec (scan_complete env) s = exec (scan_finished env) (put_scan (set_next_band MTLK_HW_BAND_NONE (scan s)) s).
Proof. unfold scan_complete, scan_complete_with, upd, complete_or_continue. rewrite run_modify. cbn [coc]. unfold get. by rewrite run_gets. Qed.

Lemma complete_still s : still s (exec (scan_complete env) s) /\ (is_running (scan s) = false -> AssertFailed ∈ sc_log (exec (scan_complete env) s)).
Proof. rewrite complete_exec. destruct (finished_still (put_scan (set_next_band MTLK_HW_BAND_NONE (scan s)) s)) as [[] H]. by split. Qed.
(** ** Time-outs, and changes under a running scan *)

Lemma in_flight s : settled env s -> cfm_due s = 1%nat -> waiting env s /\ vector_ok env (scan s) /\ is_running (scan s) = true.
Proof. intros Hs Hc. destruct (cfm_waiting env s Hs) as (Hw & _ & Hv); [congruence|]. split; [done|]. split; [done|apply Hw]. Qed.

(** A time-out: the scan is ended, and nothing else happens. *)
Lemma timed_out st s : cfm_due s = 1%nat ->
  exec (deliver env (EvConfirm true st)) s = exec (scan_complete env) (exec (confirm_taken true st) s).
Proof.
  intros Hc. cbn [deliver]. rewrite run_gets, Hc. cbn [Nat.ltb Nat.leb when]. rewrite !exec_bind, run_end_ret. set (s1 := exec (confirm_taken _ _) s).
  unfold mtlk_scan_handle_evt_scan_confirmed, get. rewrite run_gets. change (is_cfm_timeout (scan s1)) with true. cbv iota. by rewrite exec_bind, run_end_ret.
Qed.

Lemma stop_not_flowing s : base_ok env s -> stop_bit s -> mtlk_flctrl_is_data_flowing (flctrl s) = false.
Proof.
  intros Hb (i & _ & Hi). unfold mtlk_flctrl_is_data_flowing. apply Z.eqb_neq. intros H0. pose proof (proj2 (bits_empty _ (bo_word _ _ Hb)) H0). set_solver.
Qed.

(** C40 A confirmation that times out ends the scan with the data still stopped,
    for every user of the flow control object, and with the firmware still in
    power save mode if the chunk had put it there. *)
Theorem timeout_keeps_data_stopped s st : scan_reach env s -> cfm_due s = 1%nat ->
  let s' := exec (deliver env (EvConfirm true st)) s in
  is_running (scan s') = false /\ completed (scan s') = true /\ owed s' = 0 /\
  mtlk_flctrl_is_data_flowing (flctrl s') = false /\ ps_on s' = ps_on s.
Proof.
  intros Hr%reach_settled Hc s'. destruct (in_flight s Hr Hc) as (Hw & Hv & _). unfold s'. rewrite timed_out by done.
  destruct (confirm_taken true st s) as [u s1] eqn:E1. destruct (taken_spec env _ _ _ _ _ Hw Hc E1) as (T1 & T2 & T3 & _).
  replace (exec (confirm_taken true st) s) with s1 by (unfold exec; by rewrite E1).
  assert (stop_bit s1 /\ ps_on s1 = ps_on s) as [Hb1 Hps].
  { destruct Hw as (_ & _ & [Hx _]). destruct (Hx Hc) as (i & Ei & Hi). unfold confirm_taken, upd in E1. rewrite !modify_bind in E1. injection E1 as _ <-.
    split; [by exists i|done]. }
  destruct (complete_still s1) as [[L1 L2 L3 _ _] _]. destruct (scan_complete env s1) as [r s2] eqn:E2. unfold exec in *. rewrite E2 in *. cbn [snd] in *.
  apply complete_spec in E2 as (_ & Hi & Hco); [|apply between_ending; split; [done|split; [done|by apply stop_ok_none]]].
  split; [apply Hi|]. split; [done|]. split; [exact (id_owed _ _ Hi)|]. split; [|congruence]. apply stop_not_flowing; [apply Hi|].
  destruct Hb1 as (i & Ei & Hi1). exists i. rewrite L1, L2. done.
Qed.

Lemma leave_foreground s : is_background (params (scan s)) = false -> leave_background env s = ((MTLK_ERR_OK, false), s).
Proof. intros Hb. unfold leave_background, get. by rewrite gets_bind, Hb. Qed.

(** A disconnection terminates a background scan and clears its background
    mode at once (core_ext.c).  The confirmation of the chunk in flight then ends
    the scan without taking the firmware out of power save mode. *)
Theorem background_cleared_keeps_ps s st : scan_reach env s -> cfm_due s = 1%nat ->
  let s1 := exec (mtlk_scan_set_background false) (exec scan_terminate s) in
  let s' := exec (deliver env (EvConfirm false st)) s1 in
  is_running (scan s') = false /\ completed (scan s') = true /\ ps_on s' = ps_on s.
Proof.
  intros Hr%reach_settled Hc s1. destruct (in_flight s Hr Hc) as (Hw & Hv & Hrun).
  assert (s1 = put_scan (set_params (with_is_background false (params (scan s))) (set_treminate_scan true (scan s))) s) as Es1.
  { unfold s1, scan_terminate, mtlk_scan_is_running, get. rewrite run_gets, Hrun. cbn [when]. unfold upd at 1. rewrite run_end_modify.
    unfold mtlk_scan_set_background, upd_params, upd. by rewrite run_end_modify. }
  assert (settled env s1) as Hs1.
  { rewrite Es1. apply (settled_params env _ (put_scan (set_treminate_scan true (scan s)) s)); [|done]. apply (settled_flag env (set_treminate_scan true)); [by right|done]. }
  clearbody s1. assert (cfm_due s1 = 1%nat) as Hc1 by (by rewrite Es1). intros s'.
  destruct (in_flight s1 Hs1 Hc1) as (Hw1 & Hv1 & _). destruct (confirm_taken false st s1) as [u s2] eqn:E1.
  destruct (taken_spec env _ _ _ _ _ Hw1 Hc1 E1) as (T1 & T2 & T3 & T4 & T5 & _).
  assert (ps_on s2 = ps_on s) as Hps. { unfold confirm_taken, upd in E1. rewrite !modify_bind in E1. injection E1 as _ <-. by rewrite Es1. }
  set (s3 := put_flctrl (mtlk_flctrl_start_data (flctrl_id (scan s2)) (flctrl s2)) s2).
  assert (s' = exec (scan_complete env) s3) as ->.
  { assert (is_background (params (scan s2)) = false) as Hbg by (by rewrite (ss_params _ _ T4), Es1).
    unfold s'. cbn [deliver]. rewrite run_gets, Hc1. cbn [Nat.ltb Nat.leb when]. rewrite !exec_bind, run_end_ret.
    replace (exec (confirm_taken false st) s1) with s2 by (unfold exec; by rewrite E1).
    unfold mtlk_scan_handle_evt_scan_confirmed, get. rewrite run_gets, T3, exec_bind. unfold eval at 1, exec at 2. rewrite (leave_foreground s2 Hbg). cbn [fst snd].
    unfold start_data. rewrite run_modify, run_gets. fold s3. change (treminate_scan (scan s3)) with (treminate_scan (scan s2)).
    rewrite (ss_term _ _ T4), Es1. cbn [treminate_scan scan put_scan set_params set_treminate_scan orb]. by rewrite exec_bind, run_end_ret. }
  destruct (complete_still s3) as [[L1 L2 L3 _ _] _]. destruct (scan_complete env s3) as [r s4] eqn:E2. unfold exec in *. rewrite E2 in *. cbn [snd] in *.
  apply complete_spec in E2 as (_ & Hi & Hco); [|apply between_ending, start_between; by split].
  split; [apply Hi|]. split; [done|]. rewrite L3. exact Hps.
Qed.
(** While the network is halted the core ends a running scan by itself
    (core_ext.c).  With a chunk in flight the data stays stopped, and if the
    confirmation still comes, timed out, the scan is ended a second time, which
    its assertion calls a bug. *)
Theorem halted_ends_twice s st : scan_reach env s -> cfm_due s = 1%nat ->
  let s1 := exec (scan_complete env) s in
  is_running (scan s1) = false /\ mtlk_flctrl_is_data_flowing (flctrl s1) = false /\ cfm_due s1 = 1%nat /\
  AssertFailed ∈ sc_log (exec (deliver env (EvConfirm true st)) s1).
Proof.
  intros Hr%reach_settled Hc s1. destruct (in_flight s Hr Hc) as (Hw & Hv & Hrun). pose proof (proj1 Hw) as Hb.
  destruct (complete_still s) as [[L1 L2 L3 L4 _] _]. fold s1 in L1, L2, L3, L4.
  assert (is_running (scan s1) = false) as Hr1.
  { unfold s1. rewrite complete_exec. unfold scan_finished, get, upd, check, emit. rewrite run_gets, exec_bind, run_gets, run_modify.
    match goal with |- is_running (scan (exec ?m ?t)) = false =>
      assert (within (fun s s' => is_running (scan s') = is_running (scan s)) m) as Hm; [|rewrite (Hm t); done] end.
    assert (PreOrder (fun s s' : sys => is_running (scan s') = is_running (scan s))) as Hpre by (split; [done|intros x y z Ha Hb'; congruence]).
    repeat first [ apply (within_bind _); [|intros ?] | apply (within_when _) | apply (within_ret _) | apply (within_gets _)
      | (intros ?; reflexivity) | progress unfold mtlk_scan_set_essid, check, upd_params, upd, emit, _mtlk_scan_abilities_set_idle, abilities | case_match ]. }
  split; [done|]. split; [|split; [congruence|]].
  - rewrite L1. apply stop_not_flowing; [apply Hb|]. by apply Hw.
  - rewrite timed_out by congruence. apply complete_still. unfold confirm_taken, upd. by rewrite !run_modify, run_end_modify.
Qed.

(** ** Starts *)

(** A scan of both bands whose first band has no channel to scan goes on to
    the second, and the start still answers that scanning failed: the caller is
    told so exactly when the scan has started on the second band. *)
Theorem async_failure_while_scanning s pattern : scan_reach env s -> is_running (scan s) = false ->
  may_start env MTLK_HW_BAND_BOTH pattern (scan s) ->
  let r := eval (mtlk_scan_async env MTLK_HW_BAND_BOTH pattern) s in
  let s' := exec (mtlk_scan_async env MTLK_HW_BAND_BOTH pattern) s in
  cfm_due s' = 1%nat -> is_running (scan s') = true /\
  (r = MTLK_ERR_SCAN_FAILED <-> cur_band (scan s') = MTLK_HW_BAND_2_4_GHZ).
Proof.
  intros Hr%reach_settled Hrun Hm r s' Hc. unfold r, s', eval, exec in *. destruct (mtlk_scan_async env MTLK_HW_BAND_BOTH pattern s) as [res s1] eqn:E.
  cbn [fst snd] in *. apply async_spec in E as [[_ Ha]|(_ & Hbeg & Hres1 & Hres2)]; [| |done|done|apply Hm].
  { rewrite (oa_cfm _ _ Ha) in Hc. destruct Hr as [Hi|[[_ Hx _ _ _ _ _] _ _ _]]; [|congruence].
    apply id_owed, owed_zero in Hi as (Hz & _). congruence. }
  apply begun_settled in Hbeg. split; [by apply (in_flight s1 Hbeg Hc)|]. destruct (Hres2 Hc) as [->|(-> & _ & Hcur)]; [|done].
  destruct (Hres1 eq_refl) as [_ Hcur]. rewrite Hcur by done. by split.
Qed.

(** Between its two tests and the rest of its work, [do_scan] on one thread
    can be overtaken by a termination on another: the event that says the last
    scan is over is still set, so that the wait returns at once; and the request
    to terminate is forgotten, so that the scan then runs. *)
Theorem terminate_overtakes_start s band sp pattern evs : scan_reach env s -> is_running (scan s) = false -> completed (scan s) = true ->
  oracle env (turn s) QIsStopping = 0 -> may_start env band pattern (scan s) ->
  let s1 := exec (do_scan_enter env) s in
  let s2 := exec (scan_terminate_and_wait_completion env evs) s1 in
  let s3 := exec (do_scan_started env band sp pattern false) s2 in
  eval (do_scan_enter env) s = true /\ is_running (scan s1) = true /\
  eval (scan_terminate_and_wait_completion env evs) s1 = true /\
  (cfm_due s3 = 1%nat -> is_running (scan s3) = true /\ treminate_scan (scan s3) = false).
Proof.
  intros Hr%reach_settled Hrun Hco Hst Hm. assert (idle env s) as Hi by (destruct Hr as [?|[[_ Hx _ _ _ _ _] _ _ _]]; [done|congruence]).
  assert (do_scan_enter env s = (true, put_scan (set_is_running true (scan s)) (asked env QIsStopping s))) as E1.
  { unfold do_scan_enter, mbind at 1, st_bind at 1, ask. rewrite Hst. cbn [Z.eqb negb]. unfold get, upd. rewrite gets_bind, modify_bind.
    change (scan (asked env QIsStopping s)) with (scan s). by rewrite Hrun. }
  unfold eval, exec. rewrite E1. cbn [fst snd]. set (s1 := put_scan _ _).
  set (s0 := put_bss_cache (mtlk_cache_clear (bss_cache s)) (put_scan (set_treminate_scan true (scan s)) (asked env QIsStopping s))).
  assert (scan_terminate_and_wait_completion env evs s1 = (true, put_scan (set_is_running true (scan s0)) s0)) as E2.
  { unfold scan_terminate_and_wait_completion, mtlk_scan_is_running, get, upd. rewrite gets_bind. cbn [negb is_running scan s1 put_scan set_is_running].
    rewrite modify_bind. unfold mbind, st_bind. assert (forall t, completed (scan t) = true -> wait_completed env evs t = (true, t)) as Hw.
    { intros t Ht. destruct evs; cbn [wait_completed]; unfold get; by rewrite gets_bind, Ht. }
    rewrite Hw by done. done. }
  rewrite E2. cbn [fst snd]. split_and!; try done. destruct (do_scan_started env band sp pattern false _) as [r s3] eqn:E3. cbn [snd]. intros Hc.
  assert (idle env s0) as Hi0.
  { destruct (asked_idle env s (asked env QIsStopping s) (asked_only env _ s) Hi) as [[B1 B2 B3 [lent B4] B5 B6 B7 B8] I2 I3 I4 I5 I6].
    split; try done. split; try done. exists lent. by apply clear_ok. }
  apply started_spec in E3 as [Hbeg _]; [|done|exact Hm].
  destruct Hbeg as [[Hx _]|(Hw & _ & _ & Hs & _)]; [apply id_owed, owed_zero in Hx as (Hz & _); congruence|].
  split; [apply Hw|apply (st_term _ _ _ Hs)].
Qed.

(** ** The synchronous scan that never returns *)

(** No confirmation is due, and the scan is not over. *)
Definition asleep (s : sys) : Prop :=
  completed (scan s) = false /\ chunk_scan_complete_event (scan s) = false /\ cfm_due s = 0%nat.

Lemma asleep_outside p s : asleep s -> asleep (exec (outside env p) s).
Proof.
  intros (H1 & H2 & H3). destruct p as [|t st| | |]; cbn [outside].
  - done.
  - by rewrite run_gets, H3.
  - unfold asleep. rewrite timer_scan. split; [done|]. split; [done|]. cbn [deliver]. rewrite run_gets. destruct (pause_timer s); [|done]. cbn [when].
    rewrite run_modify. unfold pause_timer_handler. rewrite run_assoc, run_ask, run_assoc. by destruct (_ =? _).
  - unfold scan_terminate, mtlk_scan_is_running, get. rewrite run_gets. by destruct (is_running (scan s)).
  - done.
Qed.

Lemma asleep_forever polls res s : asleep s -> eval (sync_wait env polls res) s = None.
Proof.
  revert res s. induction polls as [|p polls IH]; intros res s Hs; unfold eval.
  - cbn [sync_wait]. unfold get. destruct Hs as (H & _). by rewrite gets_bind, H.
  - rewrite sync_turn by apply Hs. cbv zeta. pose proof (asleep_outside p s Hs) as Hs1. destruct Hs1 as (H1 & H2 & H3). rewrite H2.
    apply (IH res). by split_and!.
Qed.

(** A firmware that takes every request of the way back from a chunk. *)
Definition obliging : Prop := forall n,
  oracle env n QPsSlot <> 0 /\ oracle env n (QPsSend false) = MTLK_ERR_OK /\ oracle env n QPsStatus = UMI_OK /\
  (forall pm, oracle env n (QIsLoaded pm) <> 0) /\ oracle env n QSetBssBased = MTLK_ERR_OK.

Lemma ask_bind {B} q (k : Z -> ST sys B) s : (ask env q ≫= k) s = k (oracle env (turn s) q) (asked env q s).
Proof. done. Qed.

Lemma ps_off_ok s r s' : obliging -> send_ps_req env false s = (r, s') -> r = MTLK_ERR_OK.
Proof.
  intros Ho H. unfold send_ps_req in H. rewrite ask_bind in H. destruct (Ho (turn s)) as (O1 & _). rewrite (proj2 (Z.eqb_neq _ _) O1) in H.
  rewrite ask_bind in H. set (s1 := asked _ _ _) in H. destruct (Ho (turn s1)) as (_ & O2 & _). rewrite O2 in H.
  change (MTLK_ERR_OK =? MTLK_ERR_OK) with true in H. cbv iota in H. rewrite ask_bind in H. set (s2 := asked _ _ _) in H. destruct (Ho (turn s2)) as (_ & _ & O3 & _).
  rewrite O3 in H. change (UMI_OK =? UMI_OK) with true in H. cbn [negb] in H. by injection H as <- _.
Qed.

Lemma switch_back_ok s r s' : obliging -> 0 <= u8 (oracle env (turn s) QFreqBandCur) < 2 -> is_background (params (scan s)) = true ->
  is_Some (loaded s (u8 (oracle env (turn s) QFreqBandCur))) -> switch_back_progmodel env s = (r, s') -> r = MTLK_ERR_OK.
Proof.
  intros Ho Hb Hbg [pm Hpm] H. unfold switch_back_progmodel, with_progmodel, get, check in H. rewrite ask_bind in H. cbv beta zeta in H.
  rewrite (proj2 (Z.ltb_lt _ MTLK_HW_BAND_BOTH)) in H by (unfold MTLK_HW_BAND_BOTH; lia). cbn [negb when] in H. rewrite ret_bind, gets_bind in H.
  change (scan (asked env QFreqBandCur s)) with (scan s) in H. rewrite Hbg in H. cbn [negb when] in H. rewrite ret_bind, gets_bind in H.
  change (mjoin _) with (loaded s (u8 (oracle env (turn s) QFreqBandCur))) in H. rewrite Hpm, ask_bind in H. set (s1 := asked _ _ _) in H.
  destruct (Ho (turn s1)) as (_ & _ & _ & O4 & _). rewrite (proj2 (Z.eqb_neq _ _) (O4 pm)), ret_bind in H.
  change (negb (MTLK_ERR_OK =? MTLK_ERR_OK)) with false in H. injection H as <- _. apply Ho.
Qed.

Lemma leave_ok s r s' : busy env s -> obliging -> leave_background env s = (r, s') -> r = (MTLK_ERR_OK, false).
Proof.
  intros [H1 H2 H3 H4 H5 H6 H7] Ho H. unfold leave_background in H. steps H. destruct (is_background (params (scan s))) eqn:Eb; cbn [negb] in H.
  2: { by apply ret_inv in H as [-> _]. }
  steps H. step H sb s1 E1. cbv zeta in H. step H ps s2 E2. apply ret_inv in H as [-> _]. apply ps_off_ok in E2 as ->; [|done].
  assert (sb = MTLK_ERR_OK) as ->; [|done]. destruct (must_load_progmodels (scan s)) eqn:Em; [|by apply ret_inv in E1 as [-> _]].
  specialize (H6 Eb (turn s)) as [Hr Hc]. eapply switch_back_ok; [done|exact Hr|done| |exact E1].
  unfold models_ok in H5. rewrite Em in H5. by apply H5.
Qed.

(** The first confirmation arms the pause timer. *)
Lemma confirmed_sleeps s r s' : busy env s -> obliging -> is_cfm_timeout (scan s) = false -> treminate_scan (scan s) = false ->
  chunk_scan_complete_event (scan s) = false -> cfm_due s = 0%nat -> is_background (params (scan s)) = true -> pause_between_chunks (params (scan s)) <> 0 ->
  mtlk_scan_handle_evt_scan_confirmed env UMI_OK s = (r, s') -> asleep s'.
Proof.
  intros Hb Ho Ht Hterm Hch Hc Hbg Hp H. unfold mtlk_scan_handle_evt_scan_confirmed in H. steps H. rewrite Ht in H. step H lb s1 E1.
  apply leave_background_talks in E1 as Ha; [|done]. apply leave_ok in E1 as ->; [|done..]. unfold start_data in H. steps H. set (s2 := put_flctrl _ s1) in H.
  change (scan s1) with (scan s2) in H. assert (scan s2 = scan s) as Es2 by apply (oa_scan _ _ Ha). rewrite Es2, Hterm in H. cbn [orb] in H.
  change (negb (UMI_OK =? UMI_OK)) with false in H. cbv iota in H. step H u s3 E3.
  assert (scan s3 = scan s2 /\ cfm_due s3 = cfm_due s2) as [Es3 Ec3].
  { destruct (vap_is_master_ap env); cbn [when] in E3; [|by apply ret_inv in E3 as [_ ->]]. unfold emit in E3. rewrite modify_bind in E3. by injection E3 as _ <-. }
  steps H. step H v s4 E4. apply ret_inv in H as [_ ->]. rewrite Es3, Es2, Hbg, (proj2 (Z.eqb_neq _ _) Hp) in E4. cbn [andb negb] in E4.
  unfold upd in E4. rewrite modify_bind in E4. apply ret_inv in E4 as [_ ->]. unfold asleep. cbn [scan cfm_due put_pause_timer]. rewrite Es3, Es2, Ec3.
  split; [apply Hb|]. split; [done|]. change (cfm_due s2) with (cfm_due s1). by rewrite (oa_cfm _ _ Ha).
Qed.

(** What may happen before the first confirmation. *)
Definition harmless (p : poll) : Prop := match p with PollNothing | PollTimer | PollRescan => True | _ => False end.
(** The first confirmation comes in time with status OK, if one comes at all;
    afterwards anything happens. *)
Definition first_confirmed_ok (polls : list poll) : Prop := exists pre post,
  polls = pre ++ post /\ Forall harmless pre /\ (post = [] \/ exists rest, post = PollConfirm false UMI_OK :: rest).

Lemma sync_sleeps pre post res s : obliging -> waiting env s -> cfm_due s = 1%nat -> chunk_scan_complete_event (scan s) = false ->
  treminate_scan (scan s) = false -> is_background (params (scan s)) = true -> pause_between_chunks (params (scan s)) <> 0 ->
  Forall harmless pre -> post = [] \/ (exists rest, post = PollConfirm false UMI_OK :: rest) -> eval (sync_wait env (pre ++ post) res) s = None.
Proof.
  intros Ho Hw Hc Hch Hterm Hbg Hp Hh Hpost. revert res s Hw Hc Hch Hterm Hbg Hp. induction Hh as [|p pre Hp1 _ IH]; intros res s Hw Hc Hch Hterm Hbg Hp; unfold eval.
  - destruct Hpost as [->|[rest ->]]; cbn [app].
    { cbn [sync_wait]. unfold get. by rewrite gets_bind, (bu_completed _ _ (proj1 Hw)). }
    change UMI_OK with 0. rewrite sync_turn by apply Hw. cbv zeta. destruct (confirm_poll env s false 0 Hc Hch) as (E1 & E2 & E3). rewrite E1, E2, E3. unfold mbind, st_bind.
    destruct (confirm_taken false 0 s) as [u s1] eqn:Et. destruct (taken_spec env _ _ _ _ _ Hw Hc Et) as (T1 & T2 & T3 & T4 & _).
    replace (exec (confirm_taken false 0) s) with s1 by (unfold exec; by rewrite Et).
    destruct (mtlk_scan_handle_evt_scan_confirmed env 0 s1) as [r s2] eqn:Eh. apply asleep_forever. eapply confirmed_sleeps; [exact T1|..|exact Eh]; try done.
    + by rewrite (ss_term _ _ T4).
    + by rewrite (ss_chunk _ _ T4).
    + by apply owed_zero in T2 as (? & _).
    + by rewrite (ss_params _ _ T4).
    + by rewrite (ss_params _ _ T4).
  - cbn [app]. rewrite sync_turn by apply Hw. cbv zeta. destruct p as [|t st| | |]; try done.
    + change (exec (outside env PollNothing) s) with s. rewrite Hch. by apply IH.
    + assert (exec (outside env PollTimer) s = s) as ->; [|rewrite Hch; by apply IH]. cbn [outside]. apply not_due. cbn [due].
      destruct (owed_one s (proj1 (proj2 Hw))) as [(_ & H & _)|[(H & _)|(H & _)]]; [done|congruence..].
    + unfold mtlk_scan_schedule_rescan, upd. cbn [outside]. unfold mtlk_scan_schedule_rescan, upd. rewrite run_end_modify. set (s1 := put_scan _ s).
      change (chunk_scan_complete_event (scan s1)) with (chunk_scan_complete_event (scan s)). rewrite Hch. apply IH; try done.
      destruct Hw as (H1 & H2 & H3). split; [|done]. apply (bland_busy env (set_rescan true)); [apply bland_rescan|done].
Qed.

(** C37 A synchronous scan in background mode with pauses between chunks does not
    return once it has started, as long as its first request is not confirmed,
    or when it is confirmed with status OK: the confirmation arms the pause
    timer, and the task that goes on after the pause is meant for the very
    thread that waits.  Nothing that happens afterwards wakes it, not even a
    request to terminate.  Before the first confirmation no one terminates the
    scan, and the firmware takes every request of the way back from the chunk.
    Background mode stays set when a station disconnects at the user's request,
    and connecting to a network may scan synchronously. *)
Theorem sync_background_hangs s band sp polls : obliging -> scan_reach env s -> is_running (scan s) = false ->
  may_start env band None (scan s) -> band < MTLK_HW_BAND_BOTH ->
  is_background (params (scan s)) = true -> pause_between_chunks (params (scan s)) <> 0 ->
  eval (do_scan env band sp None true) (put_scan (set_chunk_scan_complete_event false (scan s)) s) = MTLK_ERR_OK ->
  first_confirmed_ok polls -> eval (mtlk_scan_sync env band sp polls) s = None.
Proof.
  intros Ho Hr%reach_settled Hrun Hm Hb Hbg Hp He (pre & post & -> & Hpre & Hpost). unfold mtlk_scan_sync, check. rewrite (proj2 (Z.ltb_lt _ _) Hb). cbn [negb when].
  unfold eval in *. rewrite ret_bind. unfold upd at 1. rewrite modify_bind. apply (settled_chunk env false) in Hr. set (s1 := put_scan _ s) in *.
  unfold mbind, st_bind. destruct (do_scan env band sp None true s1) as [res s2] eqn:E. cbn [fst] in He. subst res.
  change (negb (MTLK_ERR_OK =? MTLK_ERR_OK)) with false. cbv iota.
  apply do_scan_spec in E as [[? _]|(_ & Hbeg & Hres1 & _)]; [done| |done|done].
  destruct (Hres1 eq_refl) as [Hc _]. destruct Hbeg as [[Hi _]|(Hw & _ & Hv & Hst & _)]; [apply id_owed, owed_zero in Hi as (Hz & _); congruence|].
  apply sync_sleeps; try done.
  - by rewrite (st_chunk _ _ _ Hst).
  - apply (st_term _ _ _ Hst).
  - by rewrite (st_background _ _ _ Hst).
  - by rewrite (st_pause _ _ _ Hst).
Qed.
End err.
