(* ===== verification/ScanExamples.v ===== *)
(** * ScanExamples: runs of the scan object, and inputs at which its theorems apply *)
From S2P Require Import Prelude HashInv Abmgr AbmgrThms Cache CacheInv CacheMap Flctrl ScanData Scan ScanInv ScanBands ScanStart ScanInit ScanThms ScanErr.

(** ** Flow control *)

Definition fl_zero : mtlk_flctrl_t := Flctrl 0 0 [].

Lemma flctrl_refines_witness :
  let '(rs, f) := fl_run [FlRegister; FlRegister; FlStop 0; FlStop 1; FlStart 0] (mtlk_flctrl_init MTLK_ERR_OK fl_zero).2 in
  rs = [Some (MTLK_ERR_OK, 1); Some (MTLK_ERR_OK, 2); None; None; None] /\ mtlk_flctrl_is_data_flowing f = false.
Proof.
  pose proof (flctrl_refines [FlRegister; FlRegister; FlStop 0; FlStop 1; FlStart 0] fl_zero) as H.
  destruct (fl_run _ _) as [rs f] eqn:E. destruct (fl_spec_run _ _) as [rs' a] eqn:Ea.
  destruct H as (H1 & _ & H2 & _); [repeat constructor; cbn; lia|]. vm_compute in E. injection E as <- <-. split; [done|]. by vm_compute.
Defined.

(** ** Environments *)

(** A vector of two channels, one channel per request, everything succeeds. *)
Definition good_oracle (n : nat) (q : ask_t) : Z :=
  match q with
  | QVectorUsed => 2
  | QChOffset from => from + 1
  | QPsSlot | QIsLoaded _ | QCreate _ _ | QCreateVector | QAllocLastResult => 1
  | _ => 0
  end.
Definition some_record (l : gset Z) (n : nat) : option Z := Some (base.fresh l).
Definition good_env : scan_env := ScanEnv good_oracle false false some_record.
(** No channel can be scanned on the first band. *)
Definition deaf_env : scan_env :=
  ScanEnv (fun n q => match q with QPrepareVector 0 => MTLK_ERR_UNKNOWN | _ => good_oracle n q end) false false some_record.
(** No memory for the last result. *)
Definition poor_env : scan_env := ScanEnv (fun n q => match q with QAllocLastResult => 0 | _ => good_oracle n q end) false false some_record.

Lemma some_record_fresh l n r : some_record l n = Some r -> r ∉ l.
Proof. intros [= <-]. apply is_fresh. Qed.

Lemma good_progressive : progressive good_env 2.
Proof.
  split; [intros n; vm_compute; discriminate|]. intros n off Hoff. cbn [oracle good_env good_oracle]. rewrite u8_small; lia.
Qed.

Lemma good_covers band : 0 <= band -> band = 0 \/ band = 2 -> covers good_env band.
Proof. intros _ Hb n. cbn [oracle good_env good_oracle]. change (u8 0) with 0. unfold MTLK_HW_BAND_BOTH. lia. Qed.

(** ** States *)

Definition s_blank : sys :=
  Sys scan_zero (mtlk_flctrl_init MTLK_ERR_OK fl_zero).2 (mtlk_cache_init 0) ab_one ∅ [] 0 false 0 false 0 [].

Lemma none_of (m : gmap Z bool) ids : forallb (fun id => negb (bool_decide (is_Some (m !! id)))) ids = true ->
  forall id, id ∈ ids -> m !! id = None.
Proof.
  intros H id Hid. apply forallb_forall with (x := id) in H; [|by apply list_elem_of_In]. apply negb_true_iff, bool_decide_eq_false in H.
  by apply eq_None_not_Some.
Qed.

Lemma blank_ok : blank s_blank.
Proof.
  split; try done.
  - apply ab_one_ok.
  - apply none_of. by vm_compute.
  - apply none_of. by vm_compute.
  - exists []. apply cache_init_ok.
  - constructor.
Qed.

Definition s_ready : sys := exec (mtlk_scan_init good_env) s_blank.
Lemma ready_reach : scan_reach good_env s_ready.
Proof. apply sc_init; [apply some_record_fresh|apply blank_ok|by vm_compute]. Qed.

Lemma ready_may_start band : 0 <= band < 3 -> may_start good_env band None (scan s_ready).
Proof. intros Hb. split; [done|]. split; [by intros []|]. intros H. vm_compute in H. discriminate. Qed.

(** Both bands, in the foreground. *)
Definition s_scan : sys := exec (mtlk_scan_async good_env MTLK_HW_BAND_BOTH None) s_ready.
Lemma scan_reached : scan_reach good_env s_scan.
Proof. eapply sc_more; [apply ready_reach|]. apply sc_async; [done|]. intros _. by apply ready_may_start. Qed.

(** The same in the background. *)
Definition s_back : sys := exec (mtlk_scan_set_background true) s_ready.
Lemma back_reached : scan_reach good_env s_back.
Proof. eapply sc_more; [apply ready_reach|]. apply sc_background. intros H. vm_compute in H. discriminate. Qed.

Lemma back_may_start band : band = 0 \/ band = 2 -> may_start good_env band None (scan s_back).
Proof.
  intros Hb. split; [unfold MTLK_HW_BAND_NONE; lia|]. split; [by intros []|]. intros _. split; [by apply good_covers; [lia|]|by vm_compute].
Qed.

Definition s_back_scan : sys := exec (mtlk_scan_async good_env MTLK_HW_BAND_BOTH None) s_back.
Lemma back_scan_reached : scan_reach good_env s_back_scan.
Proof. eapply sc_more; [apply back_reached|]. apply sc_async; [done|]. intros _. apply back_may_start. by right. Qed.

(** ** Runs *)

(** Two chunks on each band. *)
Example scan_to_the_end :
  let s := deliver_all good_env (replicate 4 (EvConfirm false UMI_OK)) s_scan in
  is_running (scan s_scan) = true /\ cur_band (scan s_scan) = 0 /\ is_running (scan s) = false /\ cur_band (scan s) = 1 /\
  mtlk_flctrl_is_data_flowing (flctrl s) = true.
Proof. by vm_compute. Qed.

(** A pause follows each chunk in the background. *)
Example back_to_the_end :
  let chunk := [EvConfirm false UMI_OK; EvTimer; EvTask] in
  let s := deliver_all good_env (chunk ++ chunk ++ chunk ++ chunk) s_back_scan in
  is_running (scan s) = false /\ ps_on s_back_scan = true /\ ps_on s = false.
Proof. by vm_compute. Qed.

(** ** Inputs at which the theorems apply *)

Lemma scan_sound_witness : no_faults s_scan /\ owed s_scan = 1 /\ stop_bit s_scan.
Proof.
  destruct (scan_sound good_env s_scan scan_reached) as (H1 & H2 & H3 & _). split; [done|]. split; [by vm_compute|]. apply H3. by vm_compute.
Defined.

(** A re-scan is asked for before the first chunk is confirmed. *)
Definition ins_rescan : list sc_input := Rescans :: replicate 5 (Happens (EvConfirm false UMI_OK)).
Lemma scan_finishes_witness :
  let s' := feed_all good_env ins_rescan s_scan in
  countb is_event ins_rescan <= 12 * 2 + 6 * 2 * countb is_rescan ins_rescan /\ countb is_event ins_rescan = 5 /\
  (is_running (scan s') = false \/ task_refused good_env ins_rescan s_scan).
Proof.
  destruct (scan_finishes good_env 2 s_ready MTLK_HW_BAND_BOTH None ins_rescan good_progressive ready_reach) as [H1 H2].
  - by vm_compute.
  - by apply ready_may_start.
  - by vm_compute.
  - unfold ins_rescan. cbn [replicate all_due]. split; [done|]. repeat (split; [by vm_compute|]). done.
  - split; [exact H1|]. split; [by vm_compute|]. destruct H2 as [[H2 _]|H2]; [intros []; by vm_compute|by left|by right].
Defined.

Lemma sync_scan_returns_witness : exists r s',
  mtlk_scan_sync good_env 0 SPECTRUM_40MHZ (PollNothing :: replicate 8 (PollConfirm false UMI_OK)) s_ready = (Some r, s') /\ is_running (scan s') = false.
Proof.
  apply (sync_scan_returns good_env 2 s_ready 0 SPECTRUM_40MHZ _ good_progressive ready_reach); [by vm_compute|by apply ready_may_start|done|by vm_compute|repeat constructor|by vm_compute].
Defined.

Lemma sync_background_hangs_witness :
  eval (mtlk_scan_sync good_env 0 SPECTRUM_40MHZ [PollRescan; PollConfirm false UMI_OK; PollTimer; PollTerminate; PollNothing]) s_back = None.
Proof.
  apply (sync_background_hangs good_env s_back 0 SPECTRUM_40MHZ);
    [intros n; split_and!; done|apply back_reached|by vm_compute|apply back_may_start; by left|done|by vm_compute|by vm_compute|by vm_compute|].
  exists [PollRescan], [PollConfirm false UMI_OK; PollTimer; PollTerminate; PollNothing]. split; [done|]. split; [by repeat constructor|]. right. by eexists.
Defined.

Lemma run_pair {A} (m : ST sys A) s a : eval m s = a -> m s = (a, exec m s).
Proof. unfold eval, exec. destruct (m s). cbn. by intros ->. Qed.

Definition s_poor : sys := exec (mtlk_scan_init poor_env) s_blank.
Lemma poor_run : mtlk_scan_init poor_env s_blank = (MTLK_ERR_OK, s_poor).
Proof. exact (run_pair (mtlk_scan_init poor_env) s_blank MTLK_ERR_OK ltac:(by vm_compute)). Qed.
Lemma poor_init : initialized (scan s_poor) = false.
Proof. by vm_compute. Qed.

Lemma scan_init_outcomes_witness : given_back [] s_blank s_poor.
Proof.
  destruct (scan_init_outcomes poor_env s_blank _ s_poor some_record_fresh blank_ok poor_run) as [[_ [H _ _ _ _]]|[[H _]|[(_ & H & _)|[H _]]]].
  - by rewrite poor_init in H.
  - by destruct H.
  - exact H.
  - discriminate H.
Defined.

Lemma ready_run : mtlk_scan_init good_env s_blank = (MTLK_ERR_OK, s_ready).
Proof. exact (run_pair (mtlk_scan_init good_env) s_blank MTLK_ERR_OK ltac:(by vm_compute)). Qed.
Lemma ready_init : initialized (scan s_ready) = true.
Proof. by vm_compute. Qed.

Lemma timeout_keeps_data_stopped_witness :
  let s' := exec (deliver good_env (EvConfirm true 0)) s_back_scan in
  is_running (scan s') = false /\ mtlk_flctrl_is_data_flowing (flctrl s') = false /\ ps_on s' = true.
Proof.
  destruct (timeout_keeps_data_stopped good_env s_back_scan 0 back_scan_reached) as (H1 & _ & _ & H2 & H3); [by vm_compute|].
  split; [exact H1|]. split; [exact H2|]. rewrite H3. by vm_compute.
Defined.

Lemma background_cleared_keeps_ps_witness :
  let s1 := exec (mtlk_scan_set_background false) (exec scan_terminate s_back_scan) in
  let s' := exec (deliver good_env (EvConfirm false UMI_OK)) s1 in
  is_running (scan s') = false /\ ps_on s' = true.
Proof.
  destruct (background_cleared_keeps_ps good_env s_back_scan UMI_OK back_scan_reached) as (H1 & _ & H2); [by vm_compute|].
  split; [exact H1|]. rewrite H2. by vm_compute.
Defined.

Lemma halted_ends_twice_witness :
  AssertFailed ∈ sc_log (exec (deliver good_env (EvConfirm true 0)) (exec (scan_complete good_env) s_scan)).
Proof. destruct (halted_ends_twice good_env s_scan 0 scan_reached) as (_ & _ & _ & H); [by vm_compute|exact H]. Defined.

Definition s_deaf : sys := exec (mtlk_scan_init deaf_env) s_blank.

Lemma async_failure_while_scanning_witness :
  let s' := exec (mtlk_scan_async deaf_env MTLK_HW_BAND_BOTH None) s_deaf in
  eval (mtlk_scan_async deaf_env MTLK_HW_BAND_BOTH None) s_deaf = MTLK_ERR_SCAN_FAILED /\ is_running (scan s') = true.
Proof.
  destruct (async_failure_while_scanning deaf_env s_deaf None) as [H1 H2].
  - apply sc_init; [apply some_record_fresh|apply blank_ok|by vm_compute].
  - by vm_compute.
  - split; [done|]. split; [by intros []|]. intros H. vm_compute in H. discriminate.
  - by vm_compute.
  - split; [|exact H1]. apply H2. by vm_compute.
Defined.

(** After a scan that timed out. *)
Definition s_over : sys := exec (deliver good_env (EvConfirm true 0)) s_scan.

Lemma over_reached : scan_reach good_env s_over.
Proof. eapply sc_more; [apply scan_reached|apply sc_deliver]. Qed.
Lemma over_may_start : may_start good_env 0 None (scan s_over).
Proof. split; [done|]. split; [by intros []|]. intros H. vm_compute in H. discriminate. Qed.
Lemma over_state : is_running (scan s_over) = false /\ completed (scan s_over) = true.
Proof. by vm_compute. Qed.


Lemma over_starts : oracle good_env (turn s_over) QIsStopping = 0.
Proof. by vm_compute. Qed.
Abbreviation s_overtaken :=
  (exec (do_scan_started good_env 0 SPECTRUM_20MHZ None false)
    (exec (scan_terminate_and_wait_completion good_env []) (exec (do_scan_enter good_env) s_over))).
Lemma overtaken_cfm : cfm_due s_overtaken = 1%nat.
Proof. by vm_compute. Qed.

Lemma terminate_overtakes_start_witness :
  eval (scan_terminate_and_wait_completion good_env []) (exec (do_scan_enter good_env) s_over) = true /\ is_running (scan s_overtaken) = true.
Proof.
  destruct (terminate_overtakes_start good_env s_over 0 SPECTRUM_20MHZ None [] over_reached (proj1 over_state) (proj2 over_state) over_starts over_may_start) as (_ & _ & H1 & H2).
  split; [exact H1|]. apply H2. exact overtaken_cfm.
Defined.
